(* ===== verification/_CoqProject ===== *)
-Q . S2P
Prelude.v
PyFloat.v
FloatFacts.v
Counter.v
PyValue.v
PyRepr.v
BattleState.v
Snapshot.v
SnapshotLaws.v
SnapshotRefs.v
DrawEvidence.v
Decision.v
Candidates.v
MainLoop.v
Sha256.v
PyRandom.v
EventRng.v
Leases.v
Beliefs.v
Materialize.v
Faults.v
Coordinator.v
Search.v
MultiRound.v
BranchManager.v
BranchPoll.v
Dto.v
Validation.v
Identifiers.v
Server.v
History.v
CombatPhase.v
Tcp.v
Runtime.v
ChoiceCard.v
Masking.v
CombatInstance.v
CombatLaws.v
CombatCommit.v
CombatServer.v
RunSession.v
RunPool.v
GameAccess.v
PyRegex.v
BattleEmulator.v
LiveSession.v
LiveLaws.v
WholeRunState.v
WholeRun.v
WholeRunLaws.v
WholeRunBatch.v
WholeRunHandover.v
