(* ===== verification/Prelude.v ===== *)
(** * The decision core of STS2_RL

    A verification library for the Python program under src/: a reinforcement
    learning environment for the game Slay the Spire 2. The game engine itself
    (a CLR library reached through pythonnet) and the neural policies are
    outside the repository; what the repository implements, and what this
    library models, is everything that decides what a client may see and do.

    ** The program's parts and how they interact

    - The API layer (src/API): a TCP transport binds one NDJSON stream to one
      client session and serialises calls to a request dispatcher; the
      dispatcher validates a request, consults the session's request ledger
      (retries are answered from it), checks that the session owns the
      instance, and calls the instance; the instance mints decision-point,
      branch and RNG-hypothesis identifiers and publishes a masked state.
    - The search layer (src/Combat/search): a decision result is turned into an
      order-masked observation and ranked candidates; candidates become work
      items; a branch manager runs work items on a pool of workers, each
      holding an engine session; a worker either continues the state it still
      holds (a lease) or rebuilds it by a verified replay of the decision
      context; results carry the next decision's context.
    - The board model (src/Combat): snapshots of the engine state and what
      public replay state reveals about draw order.

    ** Files

    Foundations:
    - Prelude: Python exceptions, the result type, the state-and-error monad
      with its postcondition rules, stable sorting, string and list lemmas.
    - PyFloat, FloatFacts: binary64 floats with [repr]; their order.
    - Counter: [collections.Counter].
    - PyValue, PyRepr: the dynamic values of JSON and of the engine state, the
      built-ins the code applies to them, and injectivity of [repr].
    - Sha256: [hashlib.sha256], used by digests and derived seeds.

    The API layer:
    - Dto (API/dto.py, faults.py, terminal_outcome.py): the wire vocabulary.
    - Validation (API/validation.py): each check of a request and of the items
      of emulate_actions.
    - Identifiers (API/identifiers.py): Modules SessionLedger, BranchIdRegistry,
      DecisionPointRegistry and RngHypothesisTable, a record per class.
    - Server (API/server.py): RLApiServer over a class of instances
      ([ApiInstance]).
    - Tcp (API/tcp_server.py): handshake, payload routing, disconnection.
    - ChoiceCard (API/choice_card_semantics.py), Masking (API/masking.py): the
      public view of a pending choice and of the whole state.

    The search layer:
    - BattleState (Combat/battle_emulator.py, the snapshot it returns),
      DrawEvidence (Combat/search/replay_draw_restore.py).
    - Decision (Combat/search/decision_context.py): signatures, contexts and
      their verified replay over a class [CombatSession] of engine sessions.
    - Candidates (Combat/search/candidate_pipeline.py).
    - Leases (Combat/search/branch_worker_pool.py): work items, leases, routing,
      the worker runtime and the synchronous dispatch.
    - BranchManager, BranchPoll (Combat/search/branch_manager.py): the branch
      state machine; the poll loop over an arbitrary sequence of queue events.
    - EventRng (API/whole_run_event_rng.py): derived event streams and their registry.
    - MainLoop (Combat/search/main_loop.py): Main's loop over a session.
    - Faults (Combat/search/fault_taxonomy.py): fault classification, retries,
      log entries, the two aggregations and the commit decision.
    - Coordinator, Search (Combat/search/search_coordinator.py): the dispatch
      and retry loop over a class [BranchDispatcher] of worker pools, which
      the dispatcher of Leases implements; the strategy Main calls, the
      re-check of Main at commit time, and the explicit dispatch.
    - MultiRound (Combat/search/multi_round_search.py): the beam search over
      several rounds, for the same dispatchers.
    - Snapshot, SnapshotLaws, SnapshotRefs (Combat/combat_state_snapshot.py):
      the snapshot dataclasses as field lists interpreted by one [from_dict],
      the laws every dataclass has (class [Lawful]), restore eligibility.
    - PyRandom: [random.Random] (MT19937), its rejection sampler and [shuffle].
    - Beliefs, Materialize (Combat/search/rng_hypothesis.py): hypotheses drawn
      from public information, and the concrete snapshots they stand for.
    - History (API/history_builder.py): the history of one line of play.
    - CombatPhase (API/combat_phase.py, API/combat_rng_mapping.py): a live combat
      with its root anchor, branch manager and rng_id table; the live session and
      the queue of results are the class [CombatHost].
    - CombatInstance (API/instance_combat.py): the instance the server talks to,
      as state passing over the phase ([Module Combat]); CombatLaws has its
      invariant [instance_inv] and the steps of an emulation ([emulating]),
      CombatCommit the commit and the properties, CombatServer the instance of
      the dispatcher's class [ApiInstance].
    - Runtime (API/api_runtime.py): the parent and the child process over their
      two queues, the turns of the child as a parameter.
    - RunSession, RunPool (Run/worker_pool.py, Run/reward_auto_progress.py,
      Run/legal_action_identity.py): the calls of a run as a class, the replay
      and step of a choice in a worker, the pool over its result queue.
    - GameAccess (game_access.py): the lease that decides who may change the
      game of the process.
    - PyRegex, BattleEmulator (Combat/battle_emulator.py): Python's search for
      the one pattern the code uses; board snapshots, steps and continuations
      over the engine's game, the class [ClrGame].
    - LiveSession (Combat/live_combat_session.py, Run/whole_run_session.py, the
      room-entry bootstrap of Combat/search/branch_worker_pool.py): the combat
      and the run session on the [Board] of a process - its game access and the
      game behind it; LiveLaws has their theorems.
    - WholeRunState, WholeRun (API/instance_whole_run.py and the batched class
      of API/instance_whole_run_beam.py): the record of a whole-run instance and
      its methods, over the run session, the pool, the registries and - inside a
      fight - a CombatPhase on the same board. WholeRunLaws, WholeRunBatch and
      WholeRunHandover have the theorems: relations on the instance that each
      command respects, and what follows.

    ** How state and operations correspond

    An object with methods is a record of its fields, a method a value of the
    monad [M state result] (Prelude): state written before a [raise] stays
    written, as in Python. A pure function that may raise returns [Res]. A
    dictionary whose order the code observes is an association list in
    insertion order with the operations [dget], [dset], [ddel] (PyValue); a
    dictionary used only by key is a [gmap]. Every definition keeps the
    source's name where one exists; the project's map gives its lines.

    ** What the theorems show

    - Dispatch: a retried request is answered from the ledger and changes
      nothing; requests of a session execute once and in sequence; a session
      neither reads nor changes another session's instances; every answer is
      an envelope; the TCP layer calls the handler only for the session its
      hello bound.
    - Validation: the accepted requests are exactly those of the declarative
      specification, on every branch.
    - Identifiers: ids are never reused; restoring a hypothesis table from its
      own export is the identity on its future behaviour.
    - Masking: the published state holds no forbidden key, the piles'
      order cannot be recovered from it, and masking always returns.
    - Decisions: a verified replay succeeds exactly when every recorded
      signature recurs, and fails at the first divergence otherwise.
    - Search: the pipeline ranks and prunes as specified; draw order cannot
      influence scores; a holder step always finds the state its lease names.
    - Branches: submission is atomic; cancellation terminates and reaches
      exactly the descendants; release leaves tombstones and never cuts a path
      to a live branch; a poll settles exactly what it selected, whatever the
      workers answer, time out or raise.
    - Main's loop: every decision context Main builds replays to Main's own
      state.
    - Coordination: every work item of a batch settles within the allowed
      retries; a search commits one step of a kept candidate whose branch
      succeeded - without hypotheses the best-scored one - and only if Main has
      not moved.
    - Beam search: a returned plan is a line of at most [max_rounds] steps that
      ran, committed with Main unmoved, and no other line was better; a failed
      hypothesis round at the root is returned as an empty success (a finding).
    - Snapshots: parsing yields well-typed objects and is a round trip on the
      known fields; eligibility and the reference report are exact.
    - Hypotheses: a belief depends on public information only, its
      materialization permutes the draw pile and nothing else, and it respects
      the draws already observed.
    - Event streams: the registry refines reference counts; a failed batch is
      rolled back.
    - Combat phase: the hypothesis an rng_id selects is the one the full search
      would try at that index; the context branches start from replays to the
      live board after any commits.
    - Combat instance: whatever it is asked, it stays well-formed; an emulation
      and a batch touch nothing but their own branches and leave no trace when
      they fail; a commit makes every branch of the old root unusable. Every
      combat instance of a server is well-formed under any traffic.
    - Runtime: calls are answered in step with the server until the first one
      times out, and never again after it.
    - Run pool: every item of a dispatched batch settles, with its lease as the
      code says; event streams are put in place once, where they are meant to
      be; an answer that comes while a worker is replaced breaks the dispatch
      (a finding).
    - Game access and live sessions: never two leases that may change the game;
      a room entry hands the game over whole; a failed one leaves the session
      without it (a finding); an action that faults is final.
    - Whole run: reservations and live event branches stay within the announced
      cap through every sequence of requests; a batch of event branches becomes
      public as a whole or not at all; a failed hand-over between run and combat
      backs off or poisons the run; a combat branch cancelled and not released
      breaks every commit after the fight (a finding).

    ** Bounds and fuel

    Integers are Python's unbounded integers ([Z]); fixed widths appear where
    the code has them (the engine's seeds, SHA-256 words, binary64 floats).
    Recursion that is not structural takes fuel: the mask recursion the weight
    of the value ([mask_weight]), the cancel worklist one unit per id and child
    link ([cancel_fuel]), the pruning climb one unit per record, a dispatch one
    unit per waiting branch. [mask_total] and [cancel_branches_cascades] prove
    that the first two suffice; a pruning step clears a parent link and a
    dispatching pass removes a waiting branch, so the others cannot run out.
    Main's loop takes its own [max_iterations]; the execution of a plan is
    structural on the plan; the retry loop has [max_retries + 2] rounds, the
    code's defensive cap, and [every_item_settles] proves that it never fires.
    The rejection sampler of [random.Random] takes a number of [draws]: its
    result is [None] when all of them are rejected, and more draws change
    nothing once one is accepted ([randbelow_more]). A combat instance passes
    that [None] on: the emulation does not return. A poll is given the results
    that arrive and then enough timeouts for every live branch, which always
    settles it ([poll_returns]).
    ** Assumptions about the outside

    Strings are the UTF-8 bytes of valid Unicode; [lower] and [strip] are those
    of ASCII, and non-ASCII characters count as printable in [repr].
    Dictionary keys are strings; only [Exception] subclasses are raised; a nan
    is never a dictionary key. The engine, a worker's session, the clock, the
    text of a traceback, [json.loads] and neural policies are parameters or
    classes, with concrete instances ([ScriptedSession] in Decision) used by the
    witnesses.

    ** Not modelled

    The engine itself behind pythonnet and the scenario objects built for it;
    processes, sockets and queues of the operating system; the runners that
    drive components for endurance, shadow evaluation and verification; neural
    policies and legacy agents; learning and evaluation scripts; recorded data.
    Of the batched whole-run class, the combat methods that nothing calls.
    Planned next: the choice semantics of policies, the shadow adapter. *)

From stdpp Require Export base list strings gmap sets numbers pretty sorting.
From Stdlib Require Export Sorting.Sorted.

#[global] Open Scope Z_scope.

(** * Exceptions and results *)

(** A Python exception: [RequestRejected] is the API's own class
    (API/validation.py), [PyExc cls msg] any other exception, by its class
    name and its text. *)
Inductive pyexn :=
  | RequestRejected (error : string) (fault_kind : option string)
  | PyExc (cls : string) (msg : string).

#[global] Instance pyexn_eq_dec : EqDecision pyexn.
Proof. solve_decision. Defined.

(** [type(exc).__name__] and [str(exc)]. *)
Definition exn_class (e : pyexn) : string :=
  match e with RequestRejected _ _ => "RequestRejected" | PyExc c _ => c end.
Definition exn_str (e : pyexn) : string :=
  match e with RequestRejected m _ => m | PyExc _ m => m end.

Inductive Res (A : Type) :=
  | Ok (a : A)
  | Raise (e : pyexn).
Arguments Ok {_} _.
Arguments Raise {_} _.

#[global] Instance Res_ret : MRet Res := fun _ a => Ok a.
#[global] Instance Res_bind : MBind Res := fun _ _ f m =>
  match m with Ok a => f a | Raise e => Raise e end.

(** [raise RequestRejected(msg)] with no fault kind. *)
Definition reject {A} (msg : string) : Res A := Raise (RequestRejected msg None).

(** Sequencing of fallible calls over a list, left to right. *)
Fixpoint mapR {A B} (f : A -> Res B) (l : list A) : Res (list B) :=
  match l with
  | [] => Ok []
  | x :: l' => y ← f x; ys ← mapR f l'; Ok (y :: ys)
  end.

Fixpoint foldR {A S} (f : S -> A -> Res S) (l : list A) (s : S) : Res S :=
  match l with
  | [] => Ok s
  | x :: l' => s' ← f s x; foldR f l' s'
  end.

Definition is_ok {A} (r : Res A) : bool :=
  match r with Ok _ => true | Raise _ => false end.
Definition from_ok {A} (r : Res A) (d : A) : A := match r with Ok a => a | Raise _ => d end.

(** How a sequence of fallible calls succeeds and fails. *)
Lemma bind_Ok {A B} (m : Res A) (f : A -> Res B) b :
  (m ≫= f) = Ok b ↔ exists a, m = Ok a /\ f a = Ok b.
Proof.
  destruct m as [a|e]; simpl; [|naive_solver].
  split; [intros H; by exists a|intros (? & ? & ?); by simplify_eq].
Qed.
Lemma bind_Raise {A B} (m : Res A) (f : A -> Res B) e :
  (m ≫= f) = Raise e ↔ m = Raise e \/ exists a, m = Ok a /\ f a = Raise e.
Proof.
  destruct m as [a|e']; simpl.
  - naive_solver.
  - naive_solver.
Qed.

Lemma foldR_Ok_unit {A} (f : A -> Res unit) (P : A -> Prop) l :
  (forall x, f x = Ok tt ↔ P x) -> foldR (fun _ x => f x) l tt = Ok tt ↔ Forall P l.
Proof.
  intros HP. induction l as [|x l IH]; simpl; [by split|].
  rewrite Forall_cons, bind_Ok, <- IH, <- HP. split.
  - by intros ([] & ? & ?).
  - intros [? ?]. by exists tt.
Qed.

Lemma foldR_Raise {A S} (f : S -> A -> Res S) l s e :
  foldR f l s = Raise e -> exists s' x, x ∈ l /\ f s' x = Raise e.
Proof.
  revert s. induction l as [|x l IH]; intros s; simpl; [done|].
  rewrite bind_Raise. intros [H|(s' & _ & H)].
  - exists s, x. split; [left|done].
  - destruct (IH _ H) as (? & ? & ? & ?). eexists _, _. split; [by right|done].
Qed.

Lemma unit_Ok (r : Res unit) u : r = Ok u ↔ r = Ok tt.
Proof. by destruct u. Qed.

(** [o is not None]. *)
Definition is_some {A} (o : option A) : bool := match o with Some _ => true | None => false end.

(** * State passing

    A method of a mutable object: the state written before a [raise] stays
    written. *)
Definition M (S A : Type) : Type := S -> Res A * S.

#[global] Instance M_ret {S} : MRet (M S) := fun _ a s => (Ok a, s).
#[global] Instance M_bind {S} : MBind (M S) := fun _ _ f m s =>
  match m s with
  | (Ok a, s') => f a s'
  | (Raise e, s') => (Raise e, s')
  end.

Definition getS {S} : M S S := fun s => (Ok s, s).
Definition putS {S} (s : S) : M S unit := fun _ => (Ok tt, s).
Definition modS {S} (f : S -> S) : M S unit := fun s => (Ok tt, f s).
Definition raiseM {S A} (e : pyexn) : M S A := fun s => (Raise e, s).
Definition liftR {S A} (r : Res A) : M S A := fun s => (r, s).
(** [try: c finally: f]: an exception of [f] replaces the one of [c]. *)
Definition finallyM {St A} (c : M St A) (f : M St unit) : M St A := fun st =>
  let '(r, st') := c st in
  match f st' with
  | (Ok _, st'') => (r, st'')
  | (Raise e, st'') => (Raise e, st'')
  end.
(** [try: m except Exception as e: h e]. *)
Definition tryM {S A} (m : M S A) (h : pyexn -> M S A) : M S A := fun s =>
  match m s with
  | (Ok a, s') => (Ok a, s')
  | (Raise e, s') => h e s'
  end.

Lemma M_run_Ok {S A B} (m : M S A) (f : A -> M S B) s a s1 :
  m s = (Ok a, s1) -> (m ≫= f) s = f a s1.
Proof. intros H. unfold mbind, M_bind. by rewrite H. Qed.
Lemma M_run_Raise {S A B} (m : M S A) (f : A -> M S B) s e s1 :
  m s = (Raise e, s1) -> (m ≫= f) s = (Raise e, s1).
Proof. intros H. unfold mbind, M_bind. by rewrite H. Qed.
Lemma M_bind_Ok {S A B} (m : M S A) (f : A -> M S B) s b s' :
  (m ≫= f) s = (Ok b, s') ↔ exists a s1, m s = (Ok a, s1) /\ f a s1 = (Ok b, s').
Proof. unfold mbind, M_bind. destruct (m s) as [[a|e] s1]; naive_solver. Qed.
Lemma M_bind_Raise {S A B} (m : M S A) (f : A -> M S B) s e s' :
  (m ≫= f) s = (Raise e, s') ↔
  m s = (Raise e, s') \/ exists a s1, m s = (Ok a, s1) /\ f a s1 = (Raise e, s').
Proof. unfold mbind, M_bind. destruct (m s) as [[a|e'] s1]; naive_solver. Qed.
Lemma liftR_Ok {S A} (r : Res A) (s : S) a s' : liftR r s = (Ok a, s') ↔ r = Ok a /\ s' = s.
Proof. unfold liftR. naive_solver. Qed.

(** * Postconditions of stateful calls

    [posts c s Q E]: run on [s], [c] returns with [Q] or raises leaving a state
    in [E]. *)
Definition posts {S A} (c : M S A) (s : S) (Q : A -> S -> Prop) (E : S -> Prop) : Prop :=
  match c s with
  | (Ok a, s') => Q a s'
  | (Raise _, s') => E s'
  end.

Section Posts.
Context {S : Type}.

Lemma posts_ret {A} (a : A) (s : S) (Q : A -> S -> Prop) E : Q a s -> posts (mret a) s Q E.
Proof. done. Qed.
Lemma posts_raise {A} e (s : S) (Q : A -> S -> Prop) (E : S -> Prop) : E s -> posts (raiseM e) s Q E.
Proof. done. Qed.
Lemma posts_mod f (s : S) (Q : unit -> S -> Prop) E : Q tt (f s) -> posts (modS f) s Q E.
Proof. done. Qed.
Lemma posts_bind {A B} (c : M S A) (k : A -> M S B) s Q' Q E :
  posts c s Q' E -> (forall a s', Q' a s' -> posts (k a) s' Q E) -> posts (c ≫= k) s Q E.
Proof.
  unfold posts, mbind, M_bind. destruct (c s) as [[a|e] s']; [|done]. intros H Hk. exact (Hk a s' H).
Qed.
Lemma posts_step {A B} (c : M S A) (k : A -> M S B) s a s' Q E :
  c s = (Ok a, s') -> posts (k a) s' Q E -> posts (c ≫= k) s Q E.
Proof. intros Hc. unfold posts. by erewrite M_run_Ok by exact Hc. Qed.
Lemma posts_try {A} (c : M S A) h s Q E' E :
  posts c s Q E' -> (forall e s', E' s' -> posts (h e) s' Q E) -> posts (tryM c h) s Q E.
Proof. unfold posts, tryM. destruct (c s) as [[a|e] s']; [done|]. intros H Hh. exact (Hh e s' H). Qed.
Lemma posts_weaken {A} (c : M S A) s (Q Q' : A -> S -> Prop) (E E' : S -> Prop) :
  posts c s Q' E' -> (forall a s', Q' a s' -> Q a s') -> (forall s', E' s' -> E s') -> posts c s Q E.
Proof. unfold posts. destruct (c s) as [[a|e] s']; auto. Qed.
End Posts.

(** * Stable sorting by a boolean order, the contract of Python's [sorted] *)

Section Sort.
Context {A : Type} (le : A -> A -> bool).

Fixpoint insert_by (x : A) (l : list A) : list A :=
  match l with
  | [] => [x]
  | y :: l' => if le x y then x :: y :: l' else y :: insert_by x l'
  end.

Fixpoint sort_by (l : list A) : list A :=
  match l with
  | [] => []
  | x :: l' => insert_by x (sort_by l')
  end.

Definition leP (x y : A) : Prop := le x y = true.

Lemma insert_by_Permutation x l : insert_by x l ≡ₚ x :: l.
Proof.
  induction l as [|y l IH]; simpl; [done|].
  destruct (le x y); [done|]. by rewrite IH, Permutation_swap.
Qed.

Lemma sort_by_Permutation l : sort_by l ≡ₚ l.
Proof.
  induction l as [|x l IH]; simpl; [done|].
  by rewrite insert_by_Permutation, IH.
Qed.

Lemma elem_of_sort_by x l : x ∈ sort_by l ↔ x ∈ l.
Proof. by rewrite sort_by_Permutation. Qed.

Lemma length_sort_by l : length (sort_by l) = length l.
Proof. by rewrite sort_by_Permutation. Qed.

(** Sorting sorts when the order is total and transitive on the elements. *)
Lemma insert_by_sorted_on (P : A -> Prop) x l :
  (forall x y, P x -> P y -> le x y = true \/ le y x = true) ->
  (forall x y z, P x -> P y -> P z -> le x y = true -> le y z = true -> le x z = true) ->
  P x -> Forall P l -> StronglySorted leP l -> StronglySorted leP (insert_by x l).
Proof.
  intros Ht Htr Px. induction l as [|y l IH]; simpl; intros HP Hl; [by repeat constructor|].
  apply Forall_cons in HP as [Py HP]. inversion Hl as [|? ? Hs Hf]; subst.
  destruct (le x y) eqn:Hxy.
  - constructor; [done|]. constructor; [done|]. rewrite Forall_forall in *.
    intros z Hz. unfold leP in *. eauto.
  - constructor; [by apply IH|].
    assert (leP y x) by (unfold leP; destruct (Ht x y Px Py); congruence).
    rewrite insert_by_Permutation. by apply Forall_cons.
Qed.

Lemma sort_by_sorted_on (P : A -> Prop) l :
  (forall x y, P x -> P y -> le x y = true \/ le y x = true) ->
  (forall x y z, P x -> P y -> P z -> le x y = true -> le y z = true -> le x z = true) ->
  Forall P l -> StronglySorted leP (sort_by l).
Proof.
  intros Ht Htr. induction 1 as [|x l Px HP IH]; simpl; [constructor|].
  apply (insert_by_sorted_on P); try done. by rewrite sort_by_Permutation.
Qed.

Context (le_total : forall x y, le x y = true \/ le y x = true).
Context (le_trans : forall x y z, le x y = true -> le y z = true -> le x z = true).

Lemma sort_by_sorted l : StronglySorted leP (sort_by l).
Proof. apply (sort_by_sorted_on (fun _ => True)); [auto|eauto|by apply Forall_true]. Qed.

(** Two permutations of a list sort to the same list when the order is
    antisymmetric on its elements. *)
Lemma sort_by_unique l1 l2 :
  (forall x y, x ∈ l1 -> y ∈ l1 -> le x y = true -> le y x = true -> x = y) ->
  l1 ≡ₚ l2 -> sort_by l1 = sort_by l2.
Proof.
  intros Hanti Hp. apply (StronglySorted_unique_strong leP).
  - intros x y Hx Hy Hxy Hyx.
    rewrite elem_of_sort_by in Hx, Hy. rewrite <- Hp in Hy. by apply Hanti.
  - by apply sort_by_sorted.
  - by apply sort_by_sorted.
  - by rewrite !sort_by_Permutation.
Qed.
End Sort.

(** Sorting commutes with a map that keeps the order. *)
Lemma sort_by_map {A B} (f : A -> B) (leA : A -> A -> bool) (leB : B -> B -> bool) l :
  (forall x y, leA x y = leB (f x) (f y)) ->
  map f (sort_by leA l) = sort_by leB (map f l).
Proof.
  intros Hf. induction l as [|x l IH]; simpl; [done|]. rewrite <- IH. clear IH.
  induction (sort_by leA l) as [|y k IH]; simpl; [done|]. rewrite <- Hf.
  destruct (leA x y); simpl; [done|]. by rewrite IH.
Qed.

(** The order on strings ([sorted] on [str]) is transitive. *)
Lemma str_leb_trans s1 s2 s3 :
  String.leb s1 s2 = true -> String.leb s2 s3 = true -> String.leb s1 s3 = true.
Proof.
  unfold String.leb. revert s2 s3.
  induction s1 as [|a s1 IH]; intros [|b s2] [|c s3]; simpl; try done.
  unfold Ascii.compare. specialize (IH s2 s3).
  destruct (N.compare_spec (Ascii.N_of_ascii a) (Ascii.N_of_ascii b)),
    (N.compare_spec (Ascii.N_of_ascii b) (Ascii.N_of_ascii c)),
    (N.compare_spec (Ascii.N_of_ascii a) (Ascii.N_of_ascii c)); try done; try lia.
Qed.

(** * Lists *)

Lemma mapR_ext {A B} (f g : A -> Res B) l :
  (forall x, x ∈ l -> f x = g x) -> mapR f l = mapR g l.
Proof.
  induction l as [|x l IH]; intros H; simpl; [done|]. rewrite (H x) by left.
  destruct (g x); simpl; [|done]. rewrite IH; [done|]. intros y Hy. apply H. by right.
Qed.

Lemma mapR_Ok {A B} (f : A -> Res B) (g : A -> B) l :
  Forall (fun x => f x = Ok (g x)) l -> mapR f l = Ok (map g l).
Proof. induction 1 as [|x l Hx _ IH]; simpl; [done|]. by rewrite Hx, IH. Qed.

Lemma NoDup_map_filter {A B} (f : A -> B) (P : A -> bool) l : NoDup (map f l) -> NoDup (map f (List.filter P l)).
Proof.
  induction l as [|x l IH]; cbn; [done|]. intros [Hx Hl]%NoDup_cons. destruct (P x); cbn; [|by apply IH].
  apply NoDup_cons. split; [|by apply IH]. intros (y & E & Hy)%list_elem_of_fmap. apply Hx.
  rewrite list_elem_of_In in Hy. apply filter_In in Hy as [Hy _]. rewrite <- list_elem_of_In in Hy. rewrite E. by apply list_elem_of_fmap_2.
Qed.
Lemma NoDup_fmap_filter {A B} (f : A -> B) (P : A -> Prop) `{!forall x, Decision (P x)} (l : list A) :
  NoDup (f <$> l) -> NoDup (f <$> filter P l).
Proof.
  induction l as [|x l IH]; simpl; [done|]. intros [Hni Hnd]%NoDup_cons.
  rewrite filter_cons. case_decide; simpl; [|by apply IH]. apply NoDup_cons. split; [|by apply IH].
  intros (y & Hy & [_ Hin]%list_elem_of_filter)%list_elem_of_fmap.
  apply Hni, list_elem_of_fmap. by exists y.
Qed.

(** * Tactics *)

(** Splits every [match] of the hypotheses about results, keeping the cases
    that can happen. *)
Ltac res_inv :=
  unfold mbind, Res_bind, mret, Res_ret, reject in *;
  repeat (first [progress simplify_eq/= | case_match]).

Create HintDb sts2.
