(* ===== verification/PyFloat.v ===== *)
(** Python floats: IEEE 754 binary64 values (the standard library's
    executable [spec_float]), the operations the code uses, and the shortest
    round-tripping decimal of [repr(float)]. *)

From Stdlib Require Export Floats.SpecFloat.
From S2P Require Export Prelude.

Definition f_prec : Z := 53.
Definition f_emax : Z := 1024.
Definition f_emin : Z := -1074.

Definition f_of_Z (z : Z) : spec_float := binary_normalize f_prec f_emax z 0 false.
Definition f_add : spec_float -> spec_float -> spec_float := SFadd f_prec f_emax.
Definition f_sub : spec_float -> spec_float -> spec_float := SFsub f_prec f_emax.
Definition f_mul : spec_float -> spec_float -> spec_float := SFmul f_prec f_emax.
Definition f_div : spec_float -> spec_float -> spec_float := SFdiv f_prec f_emax.
Definition f_opp : spec_float -> spec_float := SFopp.
Definition f_ltb : spec_float -> spec_float -> bool := SFltb.
Definition f_leb : spec_float -> spec_float -> bool := SFleb.
Definition f_eqb : spec_float -> spec_float -> bool := SFeqb.
(** The literal [z / 2^k] for a small [z]. *)
Definition f_half (z : Z) : spec_float := binary_normalize f_prec f_emax z (-1) false.

(** Python's [max(a, b)] on two floats: the first unless the second is greater. *)
Definition f_max (a b : spec_float) : spec_float := if f_ltb a b then b else a.

#[global] Instance spec_float_eq_dec : EqDecision spec_float.
Proof. solve_decision. Defined.

(** [int(f)]: truncation toward zero; [None] on an infinity or a nan, where
    Python raises. *)
Definition f_trunc (f : spec_float) : option Z :=
  match f with
  | S754_zero _ => Some 0
  | S754_finite s m e =>
      let a := if 0 <=? e then Zpos m * 2 ^ e else Zpos m / 2 ^ (- e) in
      Some (if s then - a else a)
  | _ => None
  end.

(** Exact comparison of a float and an integer. *)
Definition f_eq_Z (f : spec_float) (z : Z) : bool :=
  match f with
  | S754_zero _ => z =? 0
  | S754_finite s m e =>
      let m' := if s then Zneg m else Zpos m in
      if 0 <=? e then m' * 2 ^ e =? z else m' =? z * 2 ^ (- e)
  | _ => false
  end.

(** The float nearest to [m * 10^e], ties to even. *)
Definition f_of_decimal (neg : bool) (m e : Z) : spec_float :=
  if 0 <=? e then binary_normalize f_prec f_emax ((if neg then - m else m) * 10 ^ e) 0 neg
  else match m with
       | Zpos p =>
           let '(mz, ez, lz) := SFdiv_core_binary f_prec f_emax (Zpos p) 0 (10 ^ (- e)) 0 in
           binary_round_aux f_prec f_emax neg mz ez lz
       | _ => S754_zero neg
       end.

Definition f_abs : spec_float -> spec_float := SFabs.
Definition is_finite_float (f : spec_float) : bool :=
  match f with S754_zero _ | S754_finite _ _ _ => true | _ => false end.

(** [math.ceil(f)]; [None] where Python raises. *)
Definition f_ceil (f : spec_float) : option Z :=
  match f with
  | S754_zero _ => Some 0
  | S754_finite s m e =>
      let v := if s then Zneg m else Zpos m in
      Some (if 0 <=? e then v * 2 ^ e else - ((- v) / 2 ^ (- e)))
  | _ => None
  end.

(** [sum(xs)] on floats from the integer 0, which since Python 3.12 carries
    Neumaier's compensation. *)
Fixpoint float_sum_from (total comp : spec_float) (xs : list spec_float) : spec_float :=
  match xs with
  | [] => if negb (f_eqb comp (f_of_Z 0)) && is_finite_float comp then f_add total comp else total
  | x :: rest =>
      let t := f_add total x in
      let comp' := if f_leb (f_abs x) (f_abs total)
                   then f_add comp (f_add (f_sub total t) x)
                   else f_add comp (f_add (f_sub x t) total) in
      float_sum_from t comp' rest
  end.
Definition float_sum (xs : list spec_float) : spec_float :=
  match xs with
  | [] => f_of_Z 0
  | x :: rest => float_sum_from (f_add (f_of_Z 0) x) (f_of_Z 0) rest
  end.

(** * [repr(float)] *)

(** [a / b * 2^p] as a fraction. *)
Definition frac_shift (a p : Z) : Z * Z :=
  if 0 <=? p then (a * 2 ^ p, 1) else (a, 2 ^ (- p)).
Definition frac_leb (x y : Z * Z) : bool := x.1 * y.2 <=? y.1 * x.2.
Definition frac_ltb (x y : Z * Z) : bool := x.1 * y.2 <? y.1 * x.2.
Definition pow10 (k : Z) : Z * Z := if 0 <=? k then (10 ^ k, 1) else (1, 10 ^ (- k)).

(** The decimal point position: the least candidate [k] with [x < 10^k]. *)
Definition decpt_of (x : Z * Z) (lg : Z) : Z :=
  let k0 := lg * 30103 / 100000 in
  match List.find (fun k => frac_ltb x (pow10 k)) [k0 - 1; k0; k0 + 1; k0 + 2] with
  | Some k => k
  | None => k0 + 3
  end.

Definition round_half_even (a b : Z) : Z :=
  let q := a / b in
  let r2 := 2 * (a mod b) in
  if r2 <? b then q else if b <? r2 then q + 1 else if Z.even q then q else q + 1.

(** The nearest [n]-digit decimal of [x], as an integer scaled by [10^(n-k)]. *)
Definition digits_of (x : Z * Z) (s : Z) : Z :=
  if 0 <=? s then round_half_even (x.1 * 10 ^ s) x.2
  else round_half_even x.1 (x.2 * 10 ^ (- s)).

Definition in_rounding_interval (m : positive) (e d s : Z) : bool :=
  let v := let p := pow10 (- s) in (d * p.1, p.2) in
  let lo := if (Zpos m =? 2 ^ 52) && (f_emin <? e)
            then frac_shift (4 * Zpos m - 1) (e - 2)
            else frac_shift (2 * Zpos m - 1) (e - 1) in
  let hi := frac_shift (2 * Zpos m + 1) (e - 1) in
  if Z.even (Zpos m) then frac_leb lo v && frac_leb v hi
  else frac_ltb lo v && frac_ltb v hi.

Definition zeros (n : Z) : string :=
  Nat.iter (Z.to_nat n) (fun s => "0" +:+ s) "".

Definition exponent_text (x : Z) : string :=
  let a := Z.abs x in
  (if x <? 0 then "-" else "+") +:+ (if a <? 10 then "0" else "") +:+ pretty a.

Definition format_digits (ds : string) (n k : Z) : string :=
  let nn := Z.to_nat n in
  if (-4 <? k) && (k <=? 16) then
    if k <=? 0 then "0." +:+ zeros (- k) +:+ ds
    else if n <=? k then ds +:+ zeros (k - n) +:+ ".0"
    else String.substring 0 (Z.to_nat k) ds +:+ "." +:+
         String.substring (Z.to_nat k) nn ds
  else
    String.substring 0 1 ds +:+
    (if 1 <? n then "." +:+ String.substring 1 nn ds else "") +:+
    "e" +:+ exponent_text (k - 1).

(** Number of digits tried, from 1 to 17: seventeen always suffice. The
    nearest [n]-digit decimal is tried before the next one above, which can be
    the only one that rounds back at a power of two. *)
Fixpoint shortest (fuel : nat) (n : Z) (m : positive) (e : Z) (x : Z * Z) (k : Z) : string :=
  let out d := if d =? 10 ^ n then format_digits "1" 1 (k + 1)
               else format_digits (pretty d) n k in
  let d := digits_of x (n - k) in
  match fuel with
  | O => out d
  | S fuel' =>
      if in_rounding_interval m e d (n - k) then out d
      else if in_rounding_interval m e (d + 1) (n - k) then out (d + 1)
      else shortest fuel' (n + 1) m e x k
  end.

Definition float_repr (f : spec_float) : string :=
  match f with
  | S754_nan => "nan"
  | S754_infinity s => if s then "-inf" else "inf"
  | S754_zero s => if s then "-0.0" else "0.0"
  | S754_finite s m e =>
      let x := frac_shift (Zpos m) e in
      let k := decpt_of x (Z.log2 (Zpos m) + e) in
      (if s then "-" else "") +:+ shortest 16 1 m e x k
  end.
