(* ===== verification/FloatFacts.v ===== *)
(** Comparison of floats other than nan is a total order, and sums of finite
    values are never nan. *)

From S2P Require Export PyFloat.

Definition not_nan (f : spec_float) : bool := match f with S754_nan => false | _ => true end.

(** The position of a float in the order: sign class, exponent, mantissa. *)
Definition float_rank (f : spec_float) : Z * Z * Z :=
  match f with
  | S754_zero _ | S754_nan => (0, 0, 0)
  | S754_infinity s => (if s then -2 else 2, 0, 0)
  | S754_finite true m e => (-1, - e, - Zpos m)
  | S754_finite false m e => (1, e, Zpos m)
  end.

Definition rank_lt (a b : Z * Z * Z) : Prop :=
  a.1.1 < b.1.1 \/ a.1.1 = b.1.1 /\ (a.1.2 < b.1.2 \/ a.1.2 = b.1.2 /\ a.2 < b.2).

Lemma compare_rank a b c :
  not_nan a = true -> not_nan b = true -> SFcompare a b = Some c ->
  match c with
  | Eq => float_rank a = float_rank b
  | Lt => rank_lt (float_rank a) (float_rank b)
  | Gt => rank_lt (float_rank b) (float_rank a)
  end.
Proof.
  unfold rank_lt.
  destruct a as [sa|sa| |sa ma ea], b as [sb|sb| |sb mb eb]; try done; intros _ _; simpl;
    intros [= <-]; try destruct sa; try destruct sb; simpl; try done; try lia.
  - destruct (Z.compare_spec ea eb) as [->|?|?]; simpl; try lia.
    change (PosDef.Pos.compare_cont Eq ma mb) with (Pos.compare ma mb).
    destruct (Pos.compare_spec ma mb) as [->|?|?]; simpl; try lia. done.
  - destruct (Z.compare_spec ea eb) as [->|?|?]; simpl; try lia.
    change (PosDef.Pos.compare_cont Eq ma mb) with (Pos.compare ma mb).
    destruct (Pos.compare_spec ma mb) as [->|?|?]; simpl; try lia. done.
Qed.

Lemma compare_defined a b :
  not_nan a = true -> not_nan b = true -> exists c, SFcompare a b = Some c.
Proof. destruct a, b; try done; intros _ _; simpl; by eexists. Qed.

Lemma f_ltb_rank a b :
  not_nan a = true -> not_nan b = true ->
  f_ltb a b = true ↔ rank_lt (float_rank a) (float_rank b).
Proof.
  intros Ha Hb. destruct (compare_defined a b Ha Hb) as [c Hc].
  pose proof (compare_rank a b c Ha Hb Hc) as H. unfold f_ltb, SFltb. rewrite Hc.
  unfold rank_lt in *. destruct c; simpl; split; try done; intros Hx; exfalso.
  - rewrite H in Hx. lia.
  - lia.
Qed.

Lemma f_eqb_rank a b :
  not_nan a = true -> not_nan b = true -> f_eqb a b = true ↔ float_rank a = float_rank b.
Proof.
  intros Ha Hb. destruct (compare_defined a b Ha Hb) as [c Hc].
  pose proof (compare_rank a b c Ha Hb Hc) as H. unfold f_eqb, SFeqb. rewrite Hc.
  unfold rank_lt in *. destruct c; simpl; split; try done; intros Hx; exfalso; rewrite Hx in H; lia.
Qed.

Lemma f_leb_rank a b :
  not_nan a = true -> not_nan b = true ->
  f_leb a b = true ↔ ¬ rank_lt (float_rank b) (float_rank a).
Proof.
  intros Ha Hb. destruct (compare_defined a b Ha Hb) as [c Hc].
  pose proof (compare_rank a b c Ha Hb Hc) as H. unfold f_leb, SFleb. rewrite Hc.
  unfold rank_lt in *. destruct c; simpl; split; try done; try lia.
  - intros _. rewrite H. lia.
Qed.

Lemma f_opp_not_nan a : not_nan (f_opp a) = not_nan a.
Proof. by destruct a. Qed.

(** * No nan from finite sums *)

Lemma shr_1_nonneg r : 0 <= shr_m r -> 0 <= shr_m (shr_1 r).
Proof. destruct r as [m r s]. simpl. destruct m as [|[p|p|]|[p|p|]]; simpl; lia. Qed.

Lemma iter_shr_nonneg p r : 0 <= shr_m r -> 0 <= shr_m (SpecFloat.iter_pos shr_1 p r).
Proof. revert r. induction p as [p IH|p IH|]; intros r Hr; simpl; auto using shr_1_nonneg. Qed.

Lemma shr_fexp_nonneg m e l : 0 <= m -> 0 <= shr_m (shr_fexp f_prec f_emax m e l).1.
Proof.
  intros Hm. unfold shr_fexp, shr.
  assert (H0 : 0 <= shr_m (shr_record_of_loc m l)) by (by destruct l as [|[]]).
  destruct (fexp _ _ _ - e); [exact H0|by apply iter_shr_nonneg|exact H0].
Qed.

Lemma round_aux_not_nan s m e l :
  0 <= m -> not_nan (binary_round_aux f_prec f_emax s m e l) = true.
Proof.
  intros Hm. unfold binary_round_aux.
  pose proof (shr_fexp_nonneg m e l Hm) as H1.
  destruct (shr_fexp f_prec f_emax m e l) as [r1 e1]. simpl in H1.
  assert (Hr : 0 <= round_nearest_even (shr_m r1) (loc_of_shr_record r1)).
  { unfold round_nearest_even. repeat case_match; lia. }
  pose proof (shr_fexp_nonneg _ e1 loc_Exact Hr) as H2.
  destruct (shr_fexp f_prec f_emax (round_nearest_even _ _) e1 loc_Exact) as [r2 e2]. simpl in H2.
  destruct (shr_m r2); [done| |lia]. by case_match.
Qed.

Lemma normalize_not_nan m e z : not_nan (binary_normalize f_prec f_emax m e z) = true.
Proof.
  destruct m; simpl; [done| |]; unfold binary_round;
    match goal with |- context [let '(_, _) := ?x in _] => destruct x as [mz ez] end;
    by apply round_aux_not_nan.
Qed.

Lemma f_of_Z_not_nan z : not_nan (f_of_Z z) = true.
Proof. apply normalize_not_nan. Qed.

Lemma f_add_not_nan x y :
  not_nan x = true -> is_finite_float y = true -> not_nan (f_add x y) = true.
Proof.
  destruct x as [sx|sx| |sx mx ex], y as [sy|sy| |sy my ey]; try done; intros _ _.
  - by destruct sx, sy.
  - apply normalize_not_nan.
Qed.

Lemma f_add_not_nan_r x y :
  is_finite_float x = true -> not_nan y = true -> not_nan (f_add x y) = true.
Proof.
  destruct x as [sx|sx| |sx mx ex], y as [sy|sy| |sy my ey]; try done; intros _ _.
  - by destruct sx, sy.
  - apply normalize_not_nan.
Qed.

Lemma f_sub_not_nan x y :
  not_nan x = true -> is_finite_float y = true -> not_nan (f_sub x y) = true.
Proof.
  destruct x as [sx|sx| |sx mx ex], y as [sy|sy| |sy my ey]; try done; intros _ _.
  - by destruct sx, sy.
  - apply normalize_not_nan.
Qed.

(** [max(0.0, x)] is never nan, whatever [x] is. *)
Lemma f_max_not_nan a b : not_nan a = true -> not_nan (f_max a b) = true.
Proof.
  intros Ha. unfold f_max. destruct (f_ltb a b) eqn:E; [|done].
  destruct b; try done. by destruct a.
Qed.
