(* ===== verification/Counter.v ===== *)
(** [collections.Counter] on values compared by [eqb]: counts in the order keys
    were first met. *)

From S2P Require Export Prelude.

Section Counter.
Context {A : Type} (eqb : A -> A -> bool).

Fixpoint counter_add (k : A) (c : list (A * Z)) : list (A * Z) :=
  match c with
  | [] => [(k, 1)]
  | (k', n) :: c' => if eqb k' k then (k', n + 1) :: c' else (k', n) :: counter_add k c'
  end.

(** [Counter(l)]. *)
Definition counter_of (l : list A) : list (A * Z) := foldl (fun c k => counter_add k c) [] l.

(** [c.get(k, 0)]. *)
Fixpoint counter_get (k : A) (c : list (A * Z)) : Z :=
  match c with
  | [] => 0
  | (k', n) :: c' => if eqb k' k then n else counter_get k c'
  end.

(** [c - d]: the positive differences. *)
Definition counter_sub (c d : list (A * Z)) : list (A * Z) :=
  List.filter (fun kn => 0 <? kn.2) (map (fun kn => (kn.1, kn.2 - counter_get kn.1 d)) c).

Definition counter_total (c : list (A * Z)) : Z := foldr (fun kn n => kn.2 + n) 0 c.

(** [c == d]. *)
Definition counter_eqb (c d : list (A * Z)) : bool :=
  forallb (fun kn => kn.2 =? counter_get kn.1 d) c &&
  forallb (fun kn => kn.2 =? counter_get kn.1 c) d.

(** How often [k] occurs. *)
Definition occurs (k : A) (l : list A) : Z := Z.of_nat (length (List.filter (fun x => eqb x k) l)).

Context (eqb_spec : forall x y, eqb x y = true ↔ x = y).

Lemma eqb_refl x : eqb x x = true.
Proof. by apply eqb_spec. Qed.
Lemma eqb_neq x y : eqb x y = false ↔ x ≠ y.
Proof. rewrite <- eqb_spec. by destruct (eqb x y). Qed.

Lemma existsb_elem k l : existsb (fun x => eqb x k) l = true ↔ k ∈ l.
Proof.
  rewrite existsb_exists. split.
  - intros (y & Hy & ->%eqb_spec). by apply list_elem_of_In.
  - intros Hin. exists k. split; [by apply list_elem_of_In|apply eqb_refl].
Qed.
Lemma existsb_not_elem k l : existsb (fun x => eqb x k) l = false ↔ k ∉ l.
Proof. rewrite <- existsb_elem. by destruct (existsb _ l). Qed.

Lemma counter_get_add k k' c :
  counter_get k (counter_add k' c) = counter_get k c + (if eqb k' k then 1 else 0).
Proof.
  induction c as [|[k0 n] c IH]; simpl; [destruct (eqb k' k); lia|].
  destruct (eqb k0 k') eqn:E; simpl.
  - apply eqb_spec in E as ->. destruct (eqb k' k); lia.
  - destruct (eqb k0 k) eqn:E2; [|apply IH]. apply eqb_spec in E2 as ->.
    assert (eqb k' k = false) as -> by (apply eqb_neq; apply eqb_neq in E; congruence). lia.
Qed.

Lemma counter_add_keys k c :
  (counter_add k c).*1 = if existsb (fun x => eqb x k) c.*1 then c.*1 else c.*1 ++ [k].
Proof.
  induction c as [|[k0 n] c IH]; [done|]. rewrite fmap_cons. cbn [counter_add existsb fst].
  destruct (eqb k0 k); [done|]. rewrite fmap_cons, IH. cbn [fst orb].
  by destruct (existsb _ _).
Qed.

Lemma counter_of_snoc l k : counter_of (l ++ [k]) = counter_add k (counter_of l).
Proof. unfold counter_of. by rewrite foldl_app. Qed.

Lemma occurs_snoc k l x : occurs k (l ++ [x]) = occurs k l + (if eqb x k then 1 else 0).
Proof.
  unfold occurs. rewrite List.filter_app, length_app. simpl. destruct (eqb x k); simpl; lia.
Qed.

Lemma counter_get_of k l : counter_get k (counter_of l) = occurs k l.
Proof.
  induction l as [|x l IH] using rev_ind; [done|].
  by rewrite counter_of_snoc, counter_get_add, occurs_snoc, IH.
Qed.

Lemma counter_of_keys l : NoDup (counter_of l).*1 /\ forall k, k ∈ (counter_of l).*1 ↔ k ∈ l.
Proof.
  induction l as [|x l [IH1 IH2]] using rev_ind; [split; [constructor|set_solver]|].
  rewrite counter_of_snoc, counter_add_keys.
  destruct (existsb _ _) eqn:E.
  - split; [done|]. intros k. rewrite elem_of_app, list_elem_of_singleton, IH2.
    apply existsb_elem, IH2 in E. naive_solver.
  - apply existsb_not_elem in E. split.
    + apply NoDup_app. split_and!; [done| |apply NoDup_singleton].
      intros y Hy ->%list_elem_of_singleton. done.
    + intros k. by rewrite !elem_of_app, IH2.
Qed.

Lemma counter_get_entry k n c : NoDup c.*1 -> (k, n) ∈ c -> counter_get k c = n.
Proof.
  induction c as [|[k0 n0] c IH]; simpl; intros Hnd Hin; [by apply elem_of_nil in Hin|].
  inversion Hnd as [|? ? Hni Hnd']; subst. apply elem_of_cons in Hin as [[= -> ->]|Hin].
  - by rewrite eqb_refl.
  - destruct (eqb k0 k) eqn:E; [|by apply IH]. apply eqb_spec in E as ->.
    destruct Hni. by apply (list_elem_of_fmap_2 fst) in Hin.
Qed.

Lemma counter_get_absent k c : k ∉ c.*1 -> counter_get k c = 0.
Proof.
  induction c as [|[k0 n0] c IH]; simpl; [done|]. rewrite not_elem_of_cons. intros [H1 H2].
  assert (eqb k0 k = false) as -> by (apply eqb_neq; congruence). by apply IH.
Qed.

Lemma counter_total_add k c : counter_total (counter_add k c) = counter_total c + 1.
Proof.
  induction c as [|[k0 n] c IH]; [done|]. cbn [counter_add].
  destruct (eqb k0 k); unfold counter_total in *; simpl in *; lia.
Qed.

Lemma counter_total_of l : counter_total (counter_of l) = Z.of_nat (length l).
Proof.
  induction l as [|x l IH] using rev_ind; [done|].
  rewrite counter_of_snoc, counter_total_add, IH, length_app. simpl. lia.
Qed.

Lemma elem_of_occurs k l : k ∈ l -> 0 < occurs k l.
Proof.
  intros Hin. unfold occurs.
  assert (In k (List.filter (fun x => eqb x k) l)) as H.
  { apply filter_In. split; [by apply list_elem_of_In|apply eqb_refl]. }
  destruct (List.filter _ l); simpl in *; [done|lia].
Qed.

Lemma occurs_Permutation k l1 l2 : l1 ≡ₚ l2 -> occurs k l1 = occurs k l2.
Proof.
  unfold occurs. induction 1 as [|x l1 l2 _ IH|x y l|l1 l2 l3 _ IH1 _ IH2]; simpl; try done.
  - destruct (eqb x k); simpl; lia.
  - destruct (eqb x k), (eqb y k); simpl; lia.
  - lia.
Qed.

Lemma occurs_pos_elem k l : 0 < occurs k l -> k ∈ l.
Proof.
  unfold occurs. destruct (List.filter _ l) as [|x l'] eqn:E; simpl; [lia|]. intros _.
  assert (Hin : In x (List.filter (fun y => eqb y k) l)) by (rewrite E; by left).
  apply filter_In in Hin as [Hin ->%eqb_spec]. by apply list_elem_of_In.
Qed.

(** Equal counters: the same multiset. *)
Lemma occurs_eq_Permutation l1 l2 : (forall k, occurs k l1 = occurs k l2) -> l1 ≡ₚ l2.
Proof.
  revert l2. induction l1 as [|x l1 IH]; intros l2 H.
  - destruct l2 as [|y l2]; [done|]. exfalso. assert (Hy := elem_of_occurs y (y :: l2) ltac:(left)).
    rewrite <- H in Hy. unfold occurs in Hy. simpl in Hy. lia.
  - assert (Hx : x ∈ l2).
    { apply occurs_pos_elem. rewrite <- H. apply elem_of_occurs. left. }
    apply list_elem_of_split in Hx as (la & lb & ->). rewrite <- Permutation_middle.
    constructor. apply IH. intros k. specialize (H k).
    rewrite (occurs_Permutation k (la ++ x :: lb) (x :: la ++ lb)) in H
      by (symmetry; apply Permutation_middle).
    unfold occurs in *. simpl in H. destruct (eqb x k); simpl in H; lia.
Qed.

Lemma occurs_app k l1 l2 : occurs k (l1 ++ l2) = occurs k l1 + occurs k l2.
Proof. unfold occurs. rewrite List.filter_app, length_app. lia. Qed.

Lemma occurs_nonneg k l : 0 <= occurs k l.
Proof. unfold occurs. lia. Qed.

(** The difference of two multisets. *)
Lemma occurs_le_split a b :
  (forall k, occurs k b <= occurs k a) -> exists l, a ≡ₚ b ++ l.
Proof.
  revert a. induction b as [|x b IH]; intros a H; [by exists a|].
  assert (Hx : x ∈ a).
  { apply occurs_pos_elem. specialize (H x). pose proof (elem_of_occurs x (x :: b) ltac:(left)). lia. }
  apply list_elem_of_split in Hx as (la & lb & ->). destruct (IH (la ++ lb)) as [l Hl].
  - intros k. specialize (H k).
    rewrite (occurs_Permutation k (la ++ x :: lb) (x :: la ++ lb)) in H
      by (symmetry; apply Permutation_middle).
    unfold occurs in *. simpl in H. destruct (eqb x k); simpl in H; lia.
  - exists l. rewrite <- Permutation_middle. simpl. by rewrite Hl.
Qed.

(** The entries of a counter: its keys with their counts. *)
Lemma counter_elem_get c k n :
  NoDup c.*1 -> Forall (fun kn => 0 < kn.2) c -> (k, n) ∈ c ↔ counter_get k c = n /\ 0 < n.
Proof.
  intros Hnd Hpos. split.
  - intros Hin. split; [by apply counter_get_entry|]. rewrite Forall_forall in Hpos.
    exact (Hpos _ Hin).
  - intros [Hg Hn]. destruct (existsb (fun x => eqb x k) c.*1) eqn:E.
    + apply existsb_elem, list_elem_of_fmap in E as ([k'' n'] & -> & Hin). simpl in *.
      rewrite (counter_get_entry k'' n' c Hnd Hin) in Hg. by subst.
    + apply existsb_not_elem in E. rewrite counter_get_absent in Hg by done. lia.
Qed.

Lemma counter_of_pos l : Forall (fun kn => 0 < kn.2) (counter_of l).
Proof.
  apply Forall_forall. intros [k n] Hin. destruct (counter_of_keys l) as [Hnd Hk].
  rewrite <- (counter_get_entry k n _ Hnd Hin), counter_get_of. apply elem_of_occurs, Hk.
  apply list_elem_of_fmap. by exists (k, n).
Qed.

Lemma counter_eqb_get c d :
  NoDup c.*1 -> NoDup d.*1 ->
  counter_eqb c d = true ↔ (forall k, counter_get k c = counter_get k d).
Proof.
  intros Hc Hd. unfold counter_eqb. rewrite andb_true_iff, !forallb_forall. split.
  - intros [H1 H2] k.
    assert (Hside : forall e f, NoDup e.*1 -> (forall x, In x e -> (x.2 =? counter_get x.1 f) = true) ->
      k ∈ e.*1 -> counter_get k e = counter_get k f).
    { intros e f He Hs ([k' n] & -> & Hin)%list_elem_of_fmap. simpl.
      rewrite (counter_get_entry k' n e He Hin). apply Z.eqb_eq.
      exact (Hs _ (proj1 (list_elem_of_In _ _) Hin)). }
    destruct (existsb (fun x => eqb x k) c.*1) eqn:E1;
      [|destruct (existsb (fun x => eqb x k) d.*1) eqn:E2].
    + apply existsb_elem in E1. by apply Hside.
    + apply existsb_elem in E2. symmetry. by apply Hside.
    + apply existsb_not_elem in E1, E2. by rewrite !counter_get_absent.
  - intros Hg. split; intros [k n] Hin%list_elem_of_In; simpl; apply Z.eqb_eq.
    + by rewrite <- Hg, (counter_get_entry k n c Hc Hin).
    + by rewrite Hg, (counter_get_entry k n d Hd Hin).
Qed.

Lemma counter_eqb_spec l1 l2 : counter_eqb (counter_of l1) (counter_of l2) = true ↔ l1 ≡ₚ l2.
Proof.
  rewrite counter_eqb_get by apply counter_of_keys. split.
  - intros H. apply occurs_eq_Permutation. intros k. by rewrite <- !counter_get_of.
  - intros Hp k. rewrite !counter_get_of. by apply occurs_Permutation.
Qed.

(** Counters with the same counts hold the same entries. *)
Lemma counter_get_Permutation c d :
  NoDup c.*1 -> NoDup d.*1 -> Forall (fun kn => 0 < kn.2) c -> Forall (fun kn => 0 < kn.2) d ->
  (forall k, counter_get k c = counter_get k d) -> c ≡ₚ d.
Proof.
  intros Hc Hd Pc Pd Hg. apply NoDup_Permutation; [by eapply NoDup_fmap_1..|].
  intros [k n]. by rewrite !counter_elem_get, Hg.
Qed.

Lemma counter_Permutation_get k c d : NoDup c.*1 -> c ≡ₚ d -> counter_get k c = counter_get k d.
Proof.
  intros Hc Hp. assert (Hd : NoDup d.*1) by (by rewrite <- Hp).
  destruct (existsb (fun x => eqb x k) d.*1) eqn:E.
  - apply existsb_elem, list_elem_of_fmap in E as ([k' n] & -> & Hin). simpl.
    rewrite (counter_get_entry k' n d Hd Hin). apply counter_get_entry; [done|by rewrite Hp].
  - apply existsb_not_elem in E. rewrite !counter_get_absent; [done|done|by rewrite Hp].
Qed.

Lemma counter_total_Permutation c d : c ≡ₚ d -> counter_total c = counter_total d.
Proof. unfold counter_total. induction 1; simpl; lia. Qed.

Lemma counter_sub_keys c d :
  NoDup c.*1 -> NoDup (counter_sub c d).*1 /\ Forall (fun kn => 0 < kn.2) (counter_sub c d).
Proof.
  intros Hnd. split.
  - unfold counter_sub. revert Hnd. induction c as [|[k n] c IH]; [done|].
    rewrite fmap_cons. intros [Hni Hnd]%NoDup_cons. cbn [map List.filter fst snd].
    destruct (_ <? _); [|by apply IH]. rewrite fmap_cons. apply NoDup_cons. split; [|by apply IH].
    intros ([k' n'] & Hk & Hin)%list_elem_of_fmap. apply Hni.
    apply list_elem_of_In, filter_In in Hin as [Hin _].
    apply in_map_iff in Hin as ([k2 n2] & [= <- _] & Hin). simpl in *. subst.
    apply list_elem_of_fmap. exists (k2, n2). split; [done|by apply list_elem_of_In].
  - apply Forall_forall. intros kn Hin. apply list_elem_of_In, filter_In in Hin as [_ H].
    by apply Z.ltb_lt in H.
Qed.

(** [Counter(b + l) - Counter(b)] counts [l]. *)
Lemma counter_sub_spec a b l :
  a ≡ₚ b ++ l -> counter_sub (counter_of a) (counter_of b) ≡ₚ counter_of l.
Proof.
  intros Hp. destruct (counter_of_keys a) as [Ha Hka].
  destruct (counter_sub_keys (counter_of a) (counter_of b) Ha) as [Hs Hpos].
  apply counter_get_Permutation; [done|apply counter_of_keys|done|apply counter_of_pos|].
  intros k. rewrite counter_get_of.
  assert (Hk : occurs k a = occurs k b + occurs k l)
    by (rewrite (occurs_Permutation k _ _ Hp); apply occurs_app).
  assert (Hin : forall n, (k, n) ∈ counter_sub (counter_of a) (counter_of b) ->
            n = occurs k l /\ 0 < n).
  { intros n Hin. apply list_elem_of_In, filter_In in Hin as [Hin H].
    apply in_map_iff in Hin as ([k2 n2] & [= -> <-] & Hin). apply list_elem_of_In in Hin.
    rewrite counter_get_of. rewrite <- (counter_get_entry k n2 _ Ha Hin), counter_get_of.
    simpl in H. apply Z.ltb_lt in H.
    rewrite counter_get_of in H. rewrite <- (counter_get_entry k n2 _ Ha Hin), counter_get_of in H.
    lia. }
  destruct (existsb (fun x => eqb x k) (counter_sub (counter_of a) (counter_of b)).*1) eqn:E.
  - apply existsb_elem, list_elem_of_fmap in E as ([k' n] & -> & Hn). simpl in *.
    rewrite (counter_get_entry k' n _ Hs Hn). by apply Hin.
  - apply existsb_not_elem in E. rewrite counter_get_absent by done.
    pose proof (occurs_nonneg k l). pose proof (occurs_nonneg k b).
    destruct (Z.eq_dec (occurs k l) 0); [done|]. exfalso. apply E.
    apply list_elem_of_fmap. exists (k, occurs k a - occurs k b). split; [done|].
    apply list_elem_of_In, filter_In. simpl. split; [|apply Z.ltb_lt; lia].
    apply in_map_iff. exists (k, occurs k a). rewrite counter_get_of. split; [done|].
    apply list_elem_of_In, counter_elem_get; [done|apply counter_of_pos|].
    rewrite counter_get_of. lia.
Qed.

Lemma counter_total_sub a b l :
  a ≡ₚ b ++ l -> counter_total (counter_sub (counter_of a) (counter_of b)) = Z.of_nat (length l).
Proof.
  intros Hp. by rewrite (counter_total_Permutation _ _ (counter_sub_spec a b l Hp)), counter_total_of.
Qed.
End Counter.

(** Renaming the keys of a counter. *)
Lemma counter_of_map {A B} (eqbA : A -> A -> bool) (eqbB : B -> B -> bool) (f : B -> A) l :
  (forall x y, eqbA (f x) (f y) = eqbB x y) ->
  counter_of eqbA (map f l) = map (fun kn => (f kn.1, kn.2)) (counter_of eqbB l).
Proof.
  intros Hf. unfold counter_of.
  assert (Hgen : forall c, foldl (fun c k => counter_add eqbA k c) (map (fun kn => (f kn.1, kn.2)) c)
      (map f l) = map (fun kn => (f kn.1, kn.2)) (foldl (fun c k => counter_add eqbB k c) c l));
    [|exact (Hgen [])].
  induction l as [|x l IH]; intros c; [done|]. simpl. rewrite <- IH. f_equal. clear IH.
  induction c as [|[k n] c IH]; [done|]. simpl.
  rewrite Hf. destruct (eqbB k x); [done|]. simpl. by rewrite IH.
Qed.
