(* ===== verification/PyValue.v ===== *)
(** Python values as the JSON transport and the engine state use them:
    dictionaries with string keys in insertion order, lists, strings (their
    UTF-8 bytes), integers, floats, booleans and [None]; the built-in
    operations of the source on them ([dict.get], truth value, [==], [repr],
    [json.dumps]). *)

From S2P Require Export PyFloat.

Inductive pyval :=
  | VNone
  | VBool (b : bool)
  | VInt (z : Z)
  | VFloat (f : spec_float)
  | VStr (s : string)
  | VList (l : list pyval)
  | VDict (d : list (string * pyval)).

(** Equality of values as data (Leibniz), for case analysis. *)
#[global] Instance pyval_eq_dec : EqDecision pyval.
Proof.
  assert (Hd : forall v w : pyval, {v = w} + {v <> w}); [|exact Hd].
  fix IH 1. intros [|b|z|f|s|l|d] w; destruct w as [|b'|z'|f'|s'|l'|d'];
    try (right; congruence); try (left; reflexivity).
  - destruct (decide (b = b')); [left|right]; congruence.
  - destruct (decide (z = z')); [left|right]; congruence.
  - destruct (decide (f = f')); [left|right]; congruence.
  - destruct (decide (s = s')); [left|right]; congruence.
  - assert ({l = l'} + {l <> l'}) as [->|]; [|left; reflexivity|right; congruence].
    revert l'. induction l as [|x l IHl]; intros [|y l']; try (right; congruence); [by left|].
    destruct (IH x y) as [->|]; [|right; congruence].
    destruct (IHl l') as [->|]; [by left|right; congruence].
  - assert ({d = d'} + {d <> d'}) as [->|]; [|left; reflexivity|right; congruence].
    revert d'. induction d as [|[k x] d IHd]; intros [|[k' y] d']; try (right; congruence); [by left|].
    destruct (decide (k = k')) as [->|]; [|right; congruence].
    destruct (IH x y) as [->|]; [|right; congruence].
    destruct (IHd d') as [->|]; [by left|right; congruence].
Defined.

Abbreviation pydict := (list (string * pyval)).

(** * Dictionaries *)

Fixpoint dget {A} (k : string) (d : list (string * A)) : option A :=
  match d with
  | [] => None
  | (k', v) :: d' => if String.eqb k k' then Some v else dget k d'
  end.

Definition dmem {A} (k : string) (d : list (string * A)) : bool :=
  match dget k d with Some _ => true | None => false end.

(** [d[k] = v]: an existing key keeps its position. *)
Fixpoint dset {A} (k : string) (v : A) (d : list (string * A)) : list (string * A) :=
  match d with
  | [] => [(k, v)]
  | (k', v') :: d' => if String.eqb k k' then (k', v) :: d' else (k', v') :: dset k v d'
  end.

(** [d.pop(k, None)]. *)
Definition ddel {A} (k : string) (d : list (string * A)) : list (string * A) :=
  List.filter (fun p => negb (String.eqb k p.1)) d.

(** [d.update(e)], and [{**d, **e}]. *)
Definition dupdate {A} (d e : list (string * A)) : list (string * A) :=
  foldl (fun acc p => dset p.1 p.2 acc) d e.

(** [d.get(k)]. *)
Definition dget_none (k : string) (d : pydict) : pyval :=
  match dget k d with Some v => v | None => VNone end.

Definition dkeys {A} (d : list (string * A)) : list string := d.*1.

(** * Truth value, type name, equality *)

Definition truthy (v : pyval) : bool :=
  match v with
  | VNone => false
  | VBool b => b
  | VInt z => negb (z =? 0)
  | VFloat (S754_zero _) => false
  | VFloat _ => true
  | VStr s => negb (String.eqb s "")
  | VList l => match l with [] => false | _ => true end
  | VDict d => match d with [] => false | _ => true end
  end.

(** [a or b]. *)
Definition py_or (a b : pyval) : pyval := if truthy a then a else b.

Definition py_type_name (v : pyval) : string :=
  match v with
  | VNone => "NoneType" | VBool _ => "bool" | VInt _ => "int" | VFloat _ => "float"
  | VStr _ => "str" | VList _ => "list" | VDict _ => "dict"
  end.

Definition is_none (v : pyval) : bool := match v with VNone => true | _ => false end.
Definition is_str (v : pyval) : bool := match v with VStr _ => true | _ => false end.
Definition is_dict (v : pyval) : bool := match v with VDict _ => true | _ => false end.
Definition is_bool (v : pyval) : bool := match v with VBool _ => true | _ => false end.
(** [isinstance(v, int)], true of booleans too. *)
Definition is_int (v : pyval) : bool :=
  match v with VInt _ | VBool _ => true | _ => false end.

(** The integer a value compares as, for a boolean or an integer. *)
Definition as_Z (v : pyval) : option Z :=
  match v with VInt z => Some z | VBool b => Some (Z.b2z b) | _ => None end.

(** Python's [==]. *)
Fixpoint py_eqb (v w : pyval) : bool :=
  match v, w with
  | VNone, VNone => true
  | VStr s, VStr t => String.eqb s t
  | VFloat f, VFloat g => f_eqb f g
  | VFloat f, (VInt _ | VBool _) =>
      match as_Z w with Some z => f_eq_Z f z | None => false end
  | (VInt _ | VBool _), VFloat g =>
      match as_Z v with Some z => f_eq_Z g z | None => false end
  | (VInt _ | VBool _), (VInt _ | VBool _) =>
      match as_Z v, as_Z w with Some a, Some b => a =? b | _, _ => false end
  | VList l, VList m =>
      (fix go l m := match l, m with
        | [], [] => true
        | x :: l', y :: m' => py_eqb x y && go l' m'
        | _, _ => false
        end) l m
  | VDict d, VDict e =>
      Nat.eqb (length d) (length e) &&
      (fix go d := match d with
        | [] => true
        | (k, x) :: d' =>
            match dget k e with Some y => py_eqb x y && go d' | None => false end
        end) d
  | _, _ => false
  end.

Definition veq_str (v : pyval) (s : string) : bool :=
  match v with VStr t => String.eqb t s | _ => false end.

(** * Text *)

Fixpoint str_prefix (p s : string) : bool :=
  match p, s with
  | EmptyString, _ => true
  | String a p', String b s' => Ascii.eqb a b && str_prefix p' s'
  | _, _ => false
  end.

(** [p in s]. *)
Fixpoint str_contains (p s : string) : bool :=
  str_prefix p s || match s with EmptyString => false | String _ s' => str_contains p s' end.

Fixpoint str_map (f : Ascii.ascii -> Ascii.ascii) (s : string) : string :=
  match s with EmptyString => EmptyString | String a s' => String (f a) (str_map f s') end.

(** [str.lower] on the ASCII letters. *)
Definition ascii_lower (a : Ascii.ascii) : Ascii.ascii :=
  let n := Ascii.N_of_ascii a in
  if (65 <=? n)%N && (n <=? 90)%N then Ascii.ascii_of_N (n + 32) else a.
Definition str_lower : string -> string := str_map ascii_lower.

Fixpoint str_concat (sep : string) (l : list string) : string :=
  match l with
  | [] => ""
  | [x] => x
  | x :: l' => x +:+ sep +:+ str_concat sep l'
  end.

(** [s in l] on strings. *)
Definition str_in (s : string) (l : list string) : bool := existsb (String.eqb s) l.

(** [f"{n:0{w}d}"] for a natural number. *)
Definition zero_pad (w : nat) (n : N) : string :=
  let t := pretty n in
  Nat.iter (w - String.length t) (fun s => "0" +:+ s) t.

Definition hex_digit (n : N) : Ascii.ascii :=
  Ascii.ascii_of_N (if (n <? 10)%N then 48 + n else 87 + n).
Definition hex2 (n : N) : string :=
  String (hex_digit (n / 16)) (String (hex_digit (n mod 16)) EmptyString).
Definition hex4 (n : N) : string := hex2 (n / 256) +:+ hex2 (n mod 256).

Definition chr (n : N) : string := String (Ascii.ascii_of_N n) EmptyString.
Definition dquote : string := chr 34.
Definition backslash : string := chr 92.

Fixpoint str_flat_map (f : N -> string) (s : string) : string :=
  match s with
  | EmptyString => EmptyString
  | String a s' => f (Ascii.N_of_ascii a) +:+ str_flat_map f s'
  end.

(** [repr(s)]: a non-ASCII character is printed as itself. *)
Definition repr_str (s : string) : string :=
  let q := if str_contains "'" s && negb (str_contains dquote s) then 34%N else 39%N in
  let esc n :=
    if (n =? 92)%N || (n =? q)%N then backslash +:+ chr n
    else if (n =? 10)%N then backslash +:+ "n"
    else if (n =? 13)%N then backslash +:+ "r"
    else if (n =? 9)%N then backslash +:+ "t"
    else if (n <? 32)%N || (n =? 127)%N then backslash +:+ "x" +:+ hex2 n
    else chr n in
  chr q +:+ str_flat_map esc s +:+ chr q.

(** [d[k]]. *)
Definition dindex (k : string) (d : pydict) : Res pyval :=
  match dget k d with Some v => Ok v | None => Raise (PyExc "KeyError" (repr_str k)) end.

Fixpoint py_repr (v : pyval) : string :=
  match v with
  | VNone => "None"
  | VBool b => if b then "True" else "False"
  | VInt z => pretty z
  | VFloat f => float_repr f
  | VStr s => repr_str s
  | VList l => "[" +:+ str_concat ", " (map py_repr l) +:+ "]"
  | VDict d =>
      "{" +:+ str_concat ", " (map (fun p => repr_str p.1 +:+ ": " +:+ py_repr p.2) d) +:+ "}"
  end.

(** [str(v)]. *)
Definition py_str (v : pyval) : string :=
  match v with VStr s => s | _ => py_repr v end.

(** [repr] of an [Optional[str]]. *)
Definition repr_opt (o : option string) : string :=
  match o with Some s => repr_str s | None => "None" end.

(** * Conversions *)

(** Decoding of UTF-8 bytes to code points. *)
Fixpoint utf8_points (fuel : nat) (l : list N) : list N :=
  match fuel with
  | O => []
  | S fuel' =>
      match l with
      | [] => []
      | a :: l1 =>
          if (a <? 128)%N then a :: utf8_points fuel' l1
          else match l1 with
          | b :: l2 =>
              if (a <? 224)%N then ((a mod 32) * 64 + b mod 64)%N :: utf8_points fuel' l2
              else match l2 with
              | c :: l3 =>
                  if (a <? 240)%N
                  then ((a mod 16) * 4096 + (b mod 64) * 64 + c mod 64)%N :: utf8_points fuel' l3
                  else match l3 with
                  | e :: l4 =>
                      ((a mod 8) * 262144 + (b mod 64) * 4096 + (c mod 64) * 64 + e mod 64)%N
                        :: utf8_points fuel' l4
                  | [] => []
                  end
              | [] => []
              end
          | [] => []
          end
      end
  end.

Definition str_bytes (s : string) : list N :=
  map Ascii.N_of_ascii (String.list_ascii_of_string s).

Definition is_space (a : Ascii.ascii) : bool :=
  let n := Ascii.N_of_ascii a in (n =? 32)%N || ((9 <=? n)%N && (n <=? 13)%N).

Fixpoint lstrip (l : list Ascii.ascii) : list Ascii.ascii :=
  match l with
  | [] => []
  | a :: l' => if is_space a then lstrip l' else l
  end.
(** [str.strip()] on ASCII text. *)
Definition strip (s : string) : string :=
  String.string_of_list_ascii
    (rev (lstrip (rev (lstrip (String.list_ascii_of_string s))))).

(** The digits of [int(s)]: single underscores between digits. *)
Fixpoint int_digits (acc : Z) (prev_digit : bool) (l : list Ascii.ascii) : option Z :=
  match l with
  | [] => if prev_digit then Some acc else None
  | a :: l' =>
      let n := Ascii.N_of_ascii a in
      if ((48 <=? n) && (n <=? 57))%N
      then int_digits (acc * 10 + Z.of_N (n - 48)) true l'
      else if (n =? 95)%N && prev_digit then int_digits acc false l' else None
  end.
Definition int_of_str (s : string) : option Z :=
  match String.list_ascii_of_string (strip s) with
  | [] => None
  | a :: l =>
      let n := Ascii.N_of_ascii a in
      if (n =? 45)%N then option_map Z.opp (int_digits 0 false l)
      else if (n =? 43)%N then int_digits 0 false l
      else int_digits 0 false (a :: l)
  end.

(** [int(v)]. *)
Definition py_int (v : pyval) : Res Z :=
  match v with
  | VInt z => Ok z
  | VBool b => Ok (Z.b2z b)
  | VFloat f =>
      match f_trunc f, f with
      | Some z, _ => Ok z
      | None, S754_nan => Raise (PyExc "ValueError" "cannot convert float NaN to integer")
      | None, _ => Raise (PyExc "OverflowError" "cannot convert float infinity to integer")
      end
  | VStr s =>
      match int_of_str s with
      | Some z => Ok z
      | None => Raise (PyExc "ValueError"
                  ("invalid literal for int() with base 10: " +:+ repr_str s))
      end
  | _ => Raise (PyExc "TypeError"
           ("int() argument must be a string, a bytes-like object or a real number, not '" +:+
            py_type_name v +:+ "'"))
  end.

(** [float(z)]. *)
Definition py_float (z : Z) : Res spec_float :=
  let f := f_of_Z z in
  if is_finite_float f then Ok f
  else Raise (PyExc "OverflowError" "int too large to convert to float").

(** A digit run of a float literal: its value and length, single underscores
    between digits. *)
Fixpoint digit_run (acc : Z) (n : Z) (prev_digit : bool) (l : list Ascii.ascii) : Z * Z * bool * list Ascii.ascii :=
  match l with
  | a :: l' =>
      let c := Ascii.N_of_ascii a in
      if ((48 <=? c) && (c <=? 57))%N then digit_run (acc * 10 + Z.of_N (c - 48)) (n + 1) true l'
      else if (c =? 95)%N && prev_digit then
        match l' with
        | b :: _ => let c' := Ascii.N_of_ascii b in
                    if ((48 <=? c') && (c' <=? 57))%N then digit_run acc n false l' else (acc, n, prev_digit, l)
        | [] => (acc, n, prev_digit, l)
        end
      else (acc, n, prev_digit, l)
  | [] => (acc, n, prev_digit, [])
  end.
Definition is_char (c : N) (l : list Ascii.ascii) : bool :=
  match l with a :: _ => (Ascii.N_of_ascii a =? c)%N | [] => false end.
(** The exponent part, if any, up to the end of the literal. *)
Definition exponent_of (l : list Ascii.ascii) : option Z :=
  match l with
  | [] => Some 0
  | a :: l' =>
      if (is_char 101 l || is_char 69 l) then
        let '(neg, l'') := if is_char 45 l' then (true, tail l') else if is_char 43 l' then (false, tail l') else (false, l') in
        let '(e, n, _, rest) := digit_run 0 0 false l'' in
        match rest with
        | [] => if n =? 0 then None else Some (if neg then - e else e)
        | _ => None
        end
      else None
  end.
(** [float(s)] on ASCII text. *)
Definition float_of_str (s : string) : option spec_float :=
  let l := String.list_ascii_of_string (str_lower (strip s)) in
  let '(neg, l) := if is_char 45 l then (true, tail l) else if is_char 43 l then (false, tail l) else (false, l) in
  let word := String.string_of_list_ascii l in
  if String.eqb word "inf" || String.eqb word "infinity" then Some (S754_infinity neg)
  else if String.eqb word "nan" then Some S754_nan
  else
    let '(whole, n, _, rest) := digit_run 0 0 false l in
    let '(m, k, rest) := if is_char 46 rest then
                           let '(m, k, _, rest) := digit_run whole 0 false (tail rest) in (m, k, rest)
                         else (whole, 0, rest) in
    if (n =? 0) && (k =? 0) then None
    else e ← exponent_of rest; Some (f_of_decimal neg m (e - k)).

(** [float(v)]. *)
Definition py_to_float (v : pyval) : Res spec_float :=
  match v with
  | VFloat f => Ok f
  | VInt z => py_float z
  | VBool b => py_float (Z.b2z b)
  | VStr s =>
      match float_of_str s with
      | Some f => Ok f
      | None => Raise (PyExc "ValueError" ("could not convert string to float: " +:+ repr_str s))
      end
  | _ => Raise (PyExc "TypeError"
           ("float() argument must be a string or a real number, not '" +:+ py_type_name v +:+ "'"))
  end.

(** [k in v]. *)
Definition py_contains (k : string) (v : pyval) : Res bool :=
  match v with
  | VDict d => Ok (dmem k d)
  | VList l => Ok (existsb (py_eqb (VStr k)) l)
  | VStr s => Ok (str_contains k s)
  | _ => Raise (PyExc "TypeError" ("argument of type '" +:+ py_type_name v +:+ "' is not iterable"))
  end.

(** [v[k]] for a string [k]. *)
Definition py_index (k : string) (v : pyval) : Res pyval :=
  match v with
  | VDict d => dindex k d
  | VList _ => Raise (PyExc "TypeError" "list indices must be integers or slices, not str")
  | VStr _ => Raise (PyExc "TypeError" "string indices must be integers, not 'str'")
  | _ => Raise (PyExc "TypeError" ("'" +:+ py_type_name v +:+ "' object is not subscriptable"))
  end.

(** [v.items()]. *)
Definition py_items (v : pyval) : Res pydict :=
  match v with
  | VDict d => Ok d
  | _ => Raise (PyExc "AttributeError" ("'" +:+ py_type_name v +:+ "' object has no attribute 'items'"))
  end.

(** [v.get(k)]. *)
Definition py_get (k : string) (v : pyval) : Res pyval :=
  match v with
  | VDict d => Ok (dget_none k d)
  | _ => Raise (PyExc "AttributeError"
           ("'" +:+ py_type_name v +:+ "' object has no attribute 'get'"))
  end.

(** The elements [for x in v] visits; a string's characters are its bytes. *)
Definition py_iter (v : pyval) : Res (list pyval) :=
  match v with
  | VList l => Ok l
  | VDict d => Ok (map (fun p => VStr p.1) d)
  | VStr s => Ok (map (fun a => VStr (String a EmptyString)) (String.list_ascii_of_string s))
  | _ => Raise (PyExc "TypeError" ("'" +:+ py_type_name v +:+ "' object is not iterable"))
  end.

Definition py_len (v : pyval) : Res Z :=
  match v with
  | VNone | VBool _ | VInt _ | VFloat _ =>
      Raise (PyExc "TypeError" ("object of type '" +:+ py_type_name v +:+ "' has no len()"))
  | VStr s => Ok (Z.of_nat (length (utf8_points (String.length s) (str_bytes s))))
  | VList l => Ok (Z.of_nat (length l))
  | VDict d => Ok (Z.of_nat (length d))
  end.

(** Whether a value can be a dictionary key. *)
Definition hashable (v : pyval) : Res unit :=
  match v with
  | VList _ | VDict _ => Raise (PyExc "TypeError" ("unhashable type: '" +:+ py_type_name v +:+ "'"))
  | _ => Ok tt
  end.
(** [v in values] on a set of strings. *)
Definition py_in_set (values : list string) (v : pyval) : Res bool :=
  _ ← hashable v; Ok (match v with VStr s => str_in s values | _ => false end).

(** * [json.dumps] with compact separators and sorted keys *)

(** The escapes JSON always needs. *)
Definition json_short_escape (n : N) : option string :=
  if (n =? 34)%N || (n =? 92)%N then Some (backslash +:+ chr n)
  else if (n =? 10)%N then Some (backslash +:+ "n")
  else if (n =? 13)%N then Some (backslash +:+ "r")
  else if (n =? 9)%N then Some (backslash +:+ "t")
  else if (n =? 12)%N then Some (backslash +:+ "f")
  else if (n =? 8)%N then Some (backslash +:+ "b")
  else if (n <? 32)%N then Some (backslash +:+ "u" +:+ hex4 n)
  else None.

Definition json_u (n : N) : string := backslash +:+ "u" +:+ hex4 n.

Definition json_point_ascii (n : N) : string :=
  match json_short_escape n with
  | Some e => e
  | None =>
      if (n <? 127)%N then chr n
      else if (n <? 65536)%N then json_u n
      else let m := (n - 65536)%N in
           json_u (55296 + m / 1024) +:+ json_u (56320 + m mod 1024)
  end.

Definition json_byte (n : N) : string :=
  match json_short_escape n with Some e => e | None => chr n end.

Definition json_str (ensure_ascii : bool) (s : string) : string :=
  dquote +:+
  (if ensure_ascii
   then str_concat "" (map json_point_ascii (utf8_points (String.length s) (str_bytes s)))
   else str_flat_map json_byte s) +:+
  dquote.

Definition json_float (f : spec_float) : string :=
  match f with
  | S754_nan => "NaN"
  | S754_infinity s => if s then "-Infinity" else "Infinity"
  | _ => float_repr f
  end.

Definition key_leb {A} (p q : string * A) : bool := String.leb p.1 q.1.

Fixpoint json_dumps (ensure_ascii : bool) (v : pyval) : string :=
  match v with
  | VNone => "null"
  | VBool b => if b then "true" else "false"
  | VInt z => pretty z
  | VFloat f => json_float f
  | VStr s => json_str ensure_ascii s
  | VList l => "[" +:+ str_concat "," (map (json_dumps ensure_ascii) l) +:+ "]"
  | VDict d =>
      "{" +:+ str_concat ","
        (map (fun p => json_str ensure_ascii p.1 +:+ ":" +:+ p.2)
           (sort_by key_leb (map (fun p => (p.1, json_dumps ensure_ascii p.2)) d)))
      +:+ "}"
  end.

(** * Lemmas *)

Lemma str_in_elem s l : str_in s l = true ↔ s ∈ l.
Proof.
  unfold str_in. rewrite existsb_exists. split.
  - intros (x & Hx & ->%String.eqb_eq). by apply list_elem_of_In.
  - intros Hs. exists s. rewrite String.eqb_refl. split; [by apply list_elem_of_In|done].
Qed.

Section Dict.
Context {A : Type}.
Implicit Types (d e : list (string * A)) (k : string) (v : A).

Lemma dget_dset_eq k v d : dget k (dset k v d) = Some v.
Proof.
  induction d as [|[k' v'] d IH]; simpl.
  - by rewrite String.eqb_refl.
  - destruct (String.eqb k k') eqn:E; simpl; by rewrite E.
Qed.

Lemma dget_dset_ne k k' v d : k ≠ k' -> dget k (dset k' v d) = dget k d.
Proof.
  intros Hne. induction d as [|[k0 v0] d IH]; simpl.
  - apply String.eqb_neq in Hne. by rewrite Hne.
  - destruct (String.eqb_spec k' k0) as [->|]; simpl.
    + apply String.eqb_neq in Hne. by rewrite Hne.
    + by rewrite IH.
Qed.

Lemma dget_dset k k' v d :
  dget k (dset k' v d) = if String.eqb k k' then Some v else dget k d.
Proof.
  destruct (String.eqb_spec k k') as [->|]; [apply dget_dset_eq|by apply dget_dset_ne].
Qed.

Lemma dget_dupdate k d e :
  NoDup (dkeys e) ->
  dget k (dupdate d e) = match dget k e with Some v => Some v | None => dget k d end.
Proof.
  unfold dupdate. revert d. induction e as [|[k' v'] e IH]; intros d Hnd; simpl; [done|].
  inversion Hnd as [|? ? Hni Hnd']; subst. rewrite IH by done. rewrite dget_dset.
  destruct (String.eqb_spec k k') as [->|]; [|done].
  destruct (dget k' e) eqn:E; [|done]. exfalso. apply Hni. clear -E.
  induction e as [|[k0 v0] e IH]; simpl in *; [done|].
  destruct (String.eqb_spec k' k0) as [->|]; [left|right; auto].
Qed.

Lemma dget_Some_elem k v d : dget k d = Some v -> (k, v) ∈ d.
Proof.
  induction d as [|[k' v'] d IH]; simpl; [done|].
  destruct (String.eqb_spec k k') as [->|]; intros; simplify_eq; [left|right; auto].
Qed.

Lemma dget_elem_NoDup k v d : NoDup (dkeys d) -> (k, v) ∈ d -> dget k d = Some v.
Proof.
  induction d as [|[k' v'] d IH]; cbn; intros Hnd Hin; [by apply elem_of_nil in Hin|].
  apply NoDup_cons in Hnd as [Hk Hnd]. apply elem_of_cons in Hin as [[= -> ->]|Hin]; [by rewrite String.eqb_refl|].
  destruct (String.eqb_spec k k') as [->|]; [|by apply IH]. destruct Hk. apply list_elem_of_fmap. by exists (k', v).
Qed.

Lemma dget_None_keys k d : dget k d = None ↔ k ∉ dkeys d.
Proof.
  induction d as [|[k' v'] d IH]; simpl.
  - split; [intros _; set_solver|done].
  - rewrite not_elem_of_cons.
    destruct (String.eqb_spec k k') as [->|]; [naive_solver|]. rewrite IH. naive_solver.
Qed.

Lemma dmem_keys k d : dmem k d = true ↔ k ∈ dkeys d.
Proof.
  unfold dmem. destruct (dget k d) eqn:E.
  - split; [intros _|done]. apply dget_Some_elem in E.
    apply list_elem_of_fmap. by exists (k, a).
  - apply dget_None_keys in E. naive_solver.
Qed.

Lemma str_in_dkeys b d : str_in b (dkeys d) = dmem b d.
Proof. apply eq_true_iff_eq. by rewrite str_in_elem, dmem_keys. Qed.

Lemma dget_ddel_eq k d : dget k (ddel k d) = None.
Proof.
  apply dget_None_keys. unfold ddel, dkeys. rewrite list_elem_of_fmap.
  intros ([k' v'] & -> & Hin). apply list_elem_of_In, filter_In in Hin as [_ Hb].
  simpl in Hb. by rewrite String.eqb_refl in Hb.
Qed.

Lemma dget_ddel_ne k k' d : k ≠ k' -> dget k (ddel k' d) = dget k d.
Proof.
  intros Hne. induction d as [|[k0 v0] d IH]; simpl; [done|].
  destruct (String.eqb_spec k' k0) as [->|]; simpl.
  - apply String.eqb_neq in Hne. by rewrite Hne.
  - by rewrite IH.
Qed.

Lemma dset_dset k v v' d : dset k v (dset k v' d) = dset k v d.
Proof.
  induction d as [|[k0 v0] d IH]; simpl; [by rewrite String.eqb_refl|].
  destruct (String.eqb k k0) eqn:E; simpl; rewrite E; [done|by rewrite IH].
Qed.

Lemma ddel_dset k v d : ddel k (dset k v d) = ddel k d.
Proof.
  induction d as [|[k0 v0] d IH]; simpl; [by rewrite String.eqb_refl|].
  destruct (String.eqb k k0) eqn:E; simpl; rewrite E; simpl; [done|].
  by rewrite <- IH.
Qed.

Lemma dset_fresh k v d : k ∉ dkeys d -> dset k v d = d ++ [(k, v)].
Proof.
  induction d as [|[k0 v0] d IH]; simpl; [done|]. rewrite not_elem_of_cons.
  intros [Hne Hni]. apply String.eqb_neq in Hne as ->. by rewrite IH.
Qed.

Lemma ddel_fresh k d : k ∉ dkeys d -> ddel k d = d.
Proof.
  induction d as [|[k0 v0] d IH]; simpl; [done|]. rewrite not_elem_of_cons.
  intros [Hne Hni]. apply String.eqb_neq in Hne as ->. simpl. f_equal. by apply IH.
Qed.

Lemma dkeys_ddel k d : dkeys (ddel k d) = filter (fun x => x ≠ k) (dkeys d).
Proof.
  induction d as [|[k0 v0] d IH]; simpl; [done|]. rewrite filter_cons.
  destruct (String.eqb_spec k k0) as [->|]; simpl; case_decide; try done.
  by rewrite <- IH.
Qed.

Lemma dkeys_dset k v d :
  dkeys (dset k v d) = if dmem k d then dkeys d else dkeys d ++ [k].
Proof.
  unfold dmem. induction d as [|[k' v'] d IH]; simpl; [done|].
  destruct (String.eqb_spec k k') as [->|]; simpl; [done|].
  rewrite IH. by destruct (dget k d).
Qed.

Lemma NoDup_dkeys_dset k v d : NoDup (dkeys d) -> NoDup (dkeys (dset k v d)).
Proof.
  intros Hnd. rewrite dkeys_dset. destruct (dmem k d) eqn:E; [done|].
  apply NoDup_app. split_and!; [done| |apply NoDup_singleton].
  intros x Hx ->%list_elem_of_singleton. apply dmem_keys in Hx. congruence.
Qed.
End Dict.

Lemma Forall_dset {A} (P : string * A -> Prop) k v d :
  Forall P d -> P (k, v) -> Forall P (dset k v d).
Proof.
  intros Hd Hkv. induction Hd as [|[k' v'] d Hp Hd IH]; simpl; [by constructor|].
  destruct (String.eqb_spec k k') as [->|]; by constructor.
Qed.

(** Structural induction over values, through lists and dictionaries. *)
Section PyvalInd.
Context (P : pyval -> Prop).
Context (HNone : P VNone) (HBool : forall b, P (VBool b)) (HInt : forall z, P (VInt z))
  (HFloat : forall f, P (VFloat f)) (HStr : forall s, P (VStr s))
  (HList : forall l, Forall P l -> P (VList l))
  (HDict : forall d, Forall (fun p => P p.2) d -> P (VDict d)).

Fixpoint pyval_rect_nested (v : pyval) : P v.
Proof.
  destruct v as [|b|z|f|s|l|d].
  - exact HNone.
  - exact (HBool b).
  - exact (HInt z).
  - exact (HFloat f).
  - exact (HStr s).
  - apply HList. induction l as [|x l IH]; constructor; [apply pyval_rect_nested|exact IH].
  - apply HDict. induction d as [|[k x] d IH]; constructor;
      [apply (pyval_rect_nested x)|exact IH].
Qed.
End PyvalInd.

#[export] Hint Rewrite @dget_dset_eq @dget_ddel_eq : sts2.
#[export] Hint Resolve NoDup_dkeys_dset : sts2.
