(* ===== verification/PyRepr.v ===== *)
(** [repr] of strings and integers tells values apart. *)

From S2P Require Export PyValue.

(** The escape of one byte of a string quoted by [q]. *)
Definition repr_escape (q n : N) : string :=
  if (n =? 92)%N || (n =? q)%N then backslash +:+ chr n
  else if (n =? 10)%N then backslash +:+ "n"
  else if (n =? 13)%N then backslash +:+ "r"
  else if (n =? 9)%N then backslash +:+ "t"
  else if (n <? 32)%N || (n =? 127)%N then backslash +:+ "x" +:+ hex2 n
  else chr n.

Definition repr_quote (s : string) : N :=
  if str_contains "'" s && negb (str_contains dquote s) then 34%N else 39%N.

Lemma repr_str_eq s :
  repr_str s = chr (repr_quote s) +:+ str_flat_map (repr_escape (repr_quote s)) s
                +:+ chr (repr_quote s).
Proof. reflexivity. Qed.

Lemma str_app_assoc (a b c : string) : (a +:+ b) +:+ c = a +:+ (b +:+ c).
Proof. induction a as [|x a IH]; [done|]. exact (f_equal (String x) IH). Qed.

Lemma str_app_nil_r (a : string) : a +:+ "" = a.
Proof. induction a as [|x a IH]; [done|]. exact (f_equal (String x) IH). Qed.

Lemma str_app_inv_l (a b c : string) : a +:+ b = a +:+ c -> b = c.
Proof. induction a as [|x a IH]; simpl; [done|]. intros [= H]. auto. Qed.

(** Of two prefixes of one string, one is a prefix of the other. *)
Lemma prefixes_comparable (a b x y : string) :
  a +:+ x = b +:+ y -> str_prefix a b = true \/ str_prefix b a = true.
Proof.
  revert b. induction a as [|c a IH]; intros [|d b] H; simpl in *; auto.
  injection H as -> H. rewrite Ascii.eqb_refl. simpl. eauto.
Qed.

Definition byte_codes : list N := map N.of_nat (seq 0 256).

(** No code is a prefix of another one's, nor of the closing quote. *)
Definition prefix_free (f : N -> string) (stop : string) : bool :=
  forallb (fun n => negb (str_prefix (f n) stop) && negb (str_prefix stop (f n)) &&
    forallb (fun m => N.eqb n m || negb (str_prefix (f n) (f m))) byte_codes) byte_codes.

Lemma repr_escape_prefix_free q :
  q = 34%N \/ q = 39%N -> prefix_free (repr_escape q) (chr q) = true.
Proof. intros [-> | ->]; by vm_compute. Qed.

Lemma ascii_code_in (a : Ascii.ascii) : In (Ascii.N_of_ascii a) byte_codes.
Proof.
  unfold byte_codes. apply in_map_iff. exists (N.to_nat (Ascii.N_of_ascii a)).
  split; [apply N2Nat.id|]. apply in_seq. pose proof (Ascii.N_ascii_bounded a). lia.
Qed.

Lemma flat_map_inj f stop s t x y :
  prefix_free f stop = true ->
  str_flat_map f s +:+ (stop +:+ x) = str_flat_map f t +:+ (stop +:+ y) -> s = t /\ x = y.
Proof.
  intros Hp. unfold prefix_free in Hp. rewrite forallb_forall in Hp.
  assert (Hn : forall a, str_prefix (f (Ascii.N_of_ascii a)) stop = false /\
    str_prefix stop (f (Ascii.N_of_ascii a)) = false /\
    forall b, str_prefix (f (Ascii.N_of_ascii a)) (f (Ascii.N_of_ascii b)) = true -> a = b).
  { intros a. specialize (Hp _ (ascii_code_in a)). rewrite !andb_true_iff, !negb_true_iff in Hp.
    destruct Hp as [[H1 H2] H3]. split_and!; [done|done|]. intros b Hb.
    rewrite forallb_forall in H3. specialize (H3 _ (ascii_code_in b)).
    rewrite Hb, orb_false_r in H3. apply N.eqb_eq in H3.
    by rewrite <- (Ascii.ascii_N_embedding a), H3, Ascii.ascii_N_embedding. }
  revert t. induction s as [|a s IH]; intros [|b t] H; cbn [str_flat_map] in H.
  - split; [done|]. exact (str_app_inv_l stop x y H).
  - rewrite str_app_assoc in H. destruct (Hn b) as (H1 & H2 & _).
    apply (prefixes_comparable stop (f (Ascii.N_of_ascii b))) in H as [H|H]; congruence.
  - rewrite str_app_assoc in H. destruct (Hn a) as (H1 & H2 & _).
    apply (prefixes_comparable (f (Ascii.N_of_ascii a)) stop) in H as [H|H]; congruence.
  - rewrite !str_app_assoc in H.
    assert (a = b) as ->.
    { destruct (Hn a) as (_ & _ & Ha), (Hn b) as (_ & _ & Hb).
      apply prefixes_comparable in H as [H|H]; [by apply Ha|symmetry; by apply Hb]. }
    apply str_app_inv_l in H. destruct (IH t H) as [-> ->]. done.
Qed.

(** A quoted string delimits itself. *)
Lemma repr_str_app_inj s t x y : repr_str s +:+ x = repr_str t +:+ y -> s = t /\ x = y.
Proof.
  rewrite !repr_str_eq, !str_app_assoc. intros H.
  assert (Hq : repr_quote s = repr_quote t).
  { unfold repr_quote in *. by repeat case_match. }
  rewrite Hq in H. apply str_app_inv_l in H.
  eapply flat_map_inj; [|exact H]. apply repr_escape_prefix_free.
  unfold repr_quote. case_match; auto.
Qed.

Lemma repr_str_inj s t : repr_str s = repr_str t -> s = t.
Proof.
  intros H. apply (repr_str_app_inj s t "" ""). by rewrite !str_app_nil_r.
Qed.

(** Values whose [type:repr] tells them apart. *)
Definition plain (v : pyval) : bool :=
  match v with VNone | VBool _ | VInt _ | VStr _ => true | _ => false end.

Definition typed_repr (v : pyval) : string := py_type_name v +:+ ":" +:+ py_repr v.

Lemma typed_repr_inj v w :
  plain v = true -> plain w = true -> typed_repr v = typed_repr w -> v = w.
Proof.
  unfold typed_repr.
  destruct v as [|b|z| |s| |], w as [|b'|z'| |s'| |]; try done; intros _ _ H.
  - by destruct b, b'.
  - apply (str_app_inv_l "int:" (pretty z) (pretty z')) in H. f_equal. by apply (inj pretty).
  - apply (str_app_inv_l "str:" (repr_str s) (repr_str s')) in H. f_equal.
    by apply repr_str_inj.
Qed.
