(* ===== verification/BattleState.v ===== *)
(** The board snapshot passed between the search components
    (Combat/battle_emulator.py): its data, the pending-choice metadata and the
    normalization of terminal observations; and the capture boundaries Restore
    accepts (Combat/combat_state_snapshot.py). *)

From S2P Require Export PyValue.

Record DecisionFrame := {
  combat_session_id : option string;
  step_index : Z;
  continuation_step_index : option Z;
}.

Record CombatCompletion := {
  live_observation_state : pydict;
  live_observation_is_terminal : bool;
  live_observation_outcome : string;
  transition_kind : string;
}.

Record BattleState := {
  engine_state : pydict;
  is_terminal : bool;
  outcome : string;
  turn : Z;
  enemy_max_hps : pydict;
  shuffle_rng_seed : option Z;
  _cached_legal_actions : option (list pydict);
  decision_frame : option DecisionFrame;
  combat_completion : option CombatCompletion;
}.

Definition RESTORE_ELIGIBLE_CAPTURE_BOUNDARY_VALUES : list string := ["normal_player_decision"]%string.
Definition capture_boundary_is_restore_eligible (capture_boundary : pyval) : Res bool :=
  py_in_set RESTORE_ELIGIBLE_CAPTURE_BOUNDARY_VALUES capture_boundary.

(** [v > 0]. *)
Definition py_positive (v : pyval) : Res bool :=
  match v with
  | VInt z => Ok (0 <? z)
  | VBool b => Ok b
  | VFloat f => Ok (f_ltb (S754_zero false) f)
  | _ => Raise (PyExc "TypeError"
           ("'>' not supported between instances of '" +:+ py_type_name v +:+ "' and 'int'"))
  end.

Definition dget_or (k : string) (default : pyval) (d : pydict) : pyval :=
  match dget k d with Some v => v | None => default end.

(** [v.get(k, default)]. *)
Definition py_get_or (k : string) (default v : pyval) : Res pyval :=
  match v with
  | VDict d => Ok (dget_or k default d)
  | _ => py_get k v
  end.

(** [any(f(x) for x in l)]: stops at the first true element. *)
Fixpoint anyR {A} (f : A -> Res bool) (l : list A) : Res bool :=
  match l with
  | [] => Ok false
  | x :: l' => b ← f x; if b : bool then Ok true else anyR f l'
  end.

Definition enemy_living (enemy : pyval) : Res bool :=
  alive ← py_get_or "isAlive" (VBool true) enemy;
  if truthy alive
  then hp ← py_get_or "hp" (VInt 0) enemy; py_positive (py_or hp (VInt 0))
  else Ok false.

Definition state_has_living_enemies (engine_state : pydict) : Res bool :=
  enemies ← py_iter (py_or (dget_none "enemies" engine_state) (VList []));
  anyR enemy_living enemies.

Definition coerce_terminal_observation (engine_state : pydict) (is_terminal : bool)
    (outcome : option string) : Res (bool * string) :=
  let normalized_outcome := match outcome with
                            | None | Some ""%string => "in_progress"%string
                            | Some o => o
                            end in
  if is_terminal then Ok (true, normalized_outcome)
  else
    living ← state_has_living_enemies engine_state;
    if living : bool then Ok (false, normalized_outcome)
    else
      alive ← py_positive (py_or (dget_or "hp" (VInt 0) engine_state) (VInt 0));
      Ok (true, if alive : bool then "victory"%string else "defeat"%string).

Definition pending_choice_metadata (state : pydict) : Res (option pydict) :=
  let pending := py_or (dget_none "pendingChoice" state) (VDict []) in
  if negb (truthy pending) then Ok None
  else
    choice_type ← py_get "choiceType" pending;
    scope ← py_get "scope" pending;
    restorable ← py_get "scenarioRestorable" pending;
    min_select ← py_get "minSelect" pending;
    max_select ← py_get "maxSelect" pending;
    selected_count ← py_get "selectedCount" pending;
    Ok (Some [("choiceType", choice_type); ("scope", scope); ("scenarioRestorable", restorable);
              ("minSelect", min_select); ("maxSelect", max_select);
              ("selectedCount", selected_count)]).

Definition is_action_continuation_pending_choice (state : pydict) : Res bool :=
  pending ← pending_choice_metadata state;
  match pending with
  | None => Ok false
  | Some p =>
      if veq_str (dget_none "scope" p) "ActionContinuation" then Ok true
      else Ok (match dget_none "scenarioRestorable" p with VBool false => true | _ => false end)
  end.

Definition is_scenario_restorable_pending_choice (state : pydict) : Res bool :=
  pending ← pending_choice_metadata state;
  match pending with
  | None => Ok false
  | Some p =>
      match dget_none "scenarioRestorable" p with
      | VBool true => Ok true
      | _ => Ok (veq_str (dget_none "scope" p) "StartOfCombat")
      end
  end.

(** * Lemmas *)

Lemma anyR_true {A} (f : A -> Res bool) l :
  anyR f l = Ok true -> exists x, x ∈ l /\ f x = Ok true.
Proof.
  induction l as [|x l IH]; simpl; [done|]. rewrite bind_Ok. intros ([] & Hx & H).
  - exists x. split; [left|done].
  - destruct (IH H) as (y & ? & ?). exists y. split; [by right|done].
Qed.

(** A state without pending choice has no metadata; one with a dictionary has. *)
Lemma pending_choice_metadata_dict state p :
  dget_none "pendingChoice" state = VDict p -> p ≠ [] ->
  exists m, pending_choice_metadata state = Ok (Some m) /\
    dget_none "choiceType" m = dget_none "choiceType" p /\
    dget_none "scope" m = dget_none "scope" p /\
    dget_none "scenarioRestorable" m = dget_none "scenarioRestorable" p.
Proof.
  intros Hp Hne. unfold pending_choice_metadata. rewrite Hp.
  destruct p as [|kv p]; [done|]. eexists. by split_and!.
Qed.

Lemma pending_choice_metadata_none state :
  truthy (dget_none "pendingChoice" state) = false -> pending_choice_metadata state = Ok None.
Proof. intros H. unfold pending_choice_metadata, py_or. by rewrite H. Qed.

(** [coerce_terminal_observation] reports a state as running only when
    it was not reported terminal and some enemy is alive with positive HP; a
    second application to its own verdict changes nothing. *)
Theorem coerce_terminal_sound engine_state is_terminal outcome t o :
  coerce_terminal_observation engine_state is_terminal outcome = Ok (t, o) ->
  (t = false -> is_terminal = false /\
     exists enemies e, py_iter (py_or (dget_none "enemies" engine_state) (VList [])) = Ok enemies /\
       e ∈ enemies /\ enemy_living e = Ok true) /\
  coerce_terminal_observation engine_state t (Some o) = Ok (t, o).
Proof.
  unfold coerce_terminal_observation, state_has_living_enemies.
  set (n := match outcome with None | Some ""%string => _ | Some o => o end).
  assert (Hn : match n with ""%string => "in_progress"%string | _ => n end = n).
  { subst n. destruct outcome as [[|]|]; done. }
  destruct is_terminal; [intros [= <- <-]; split; [done|by rewrite Hn]|].
  intros (living & Hl & H)%bind_Ok. rewrite Hl. apply bind_Ok in Hl as (es & Hes & Hl).
  destruct living.
  - injection H as <- <-. split; [|cbn; by rewrite Hn]. intros _. split; [done|].
    destruct (anyR_true _ _ Hl) as (e & ? & ?). by exists es, e.
  - apply bind_Ok in H as (alive & _ & H). injection H as <- <-. split; [done|]. by destruct alive.
Qed.

Lemma coerce_terminal_sound_witness :
  coerce_terminal_observation [("hp", VInt 7); ("enemies", VList [VDict [("hp", VInt 0)]])]
    false None = Ok (true, "victory"%string) /\
  coerce_terminal_observation [("hp", VInt 7); ("enemies", VList [VDict [("hp", VInt 0)]])]
    true (Some "victory"%string) = Ok (true, "victory"%string).
Proof.
  split; [reflexivity|].
  exact (proj2 (coerce_terminal_sound
    [("hp", VInt 7); ("enemies", VList [VDict [("hp", VInt 0)]])] false None true "victory"
    eq_refl)).
Defined.
