(* ===== verification/Snapshot.v ===== *)
(** The Python side of the combat state snapshot (Combat/combat_state_snapshot.py):
    lenient parsing of every snapshot dataclass, the zone projection, the
    reference report over stable instance ids, and Restore eligibility. A
    snapshot object is its [dataclasses.asdict] form. *)

From S2P Require Export BattleState.

Definition KNOWN_SCHEMA_VERSIONS : list string := ["phase3c.8"]%string.
Definition COMPLETENESS_VALUES : list string :=
  ["capture_failed"; "complete"; "partial_known_gaps"; "unsupported_state"]%string.
Definition CAPTURE_BOUNDARY_VALUES : list string :=
  ["normal_player_decision"; "published_choice"; "published_target"; "terminal"]%string.

Definition snapshot_error (msg : string) : pyexn := PyExc "SnapshotValidationError" msg.

Definition _require (d : pyval) (keys : list string) (type_name : string) : Res unit :=
  present ← mapR (fun k => py_contains k d) keys;
  match List.filter (fun kp => negb kp.2) (zip keys present) with
  | [] => Ok tt
  | missing => Raise (snapshot_error (type_name +:+ " missing required field(s): " +:+
                 py_repr (VList (map (fun kp => VStr kp.1) missing))))
  end.

(** [_unknown(d, known)]. *)
Definition _unknown (d : pyval) (known : list string) : Res pyval :=
  items ← py_items d; Ok (VDict (List.filter (fun p => negb (str_in p.1 known)) items)).

(** * Fields

    A field of a snapshot dataclass: its name, the expression that reads it in
    [from_dict], and the type that expression guarantees. *)
Record Field := {
  field_name : string;
  read : pyval -> Res pyval;
  has_type : pyval -> bool;
}.

Definition is_VInt (v : pyval) : bool := match v with VInt _ => true | _ => false end.
Definition is_VFloat (v : pyval) : bool := match v with VFloat _ => true | _ => false end.
Definition or_null (ty : pyval -> bool) (v : pyval) : bool := is_none v || ty v.
Definition list_of (ty : pyval -> bool) (v : pyval) : bool :=
  match v with VList l => forallb ty l | _ => false end.
Definition dict_of (ty : pyval -> bool) (v : pyval) : bool :=
  match v with VDict d => forallb (fun p => ty p.2) d | _ => false end.
Definition anything (v : pyval) : bool := true.

Definition to_int (v : pyval) : Res pyval := z ← py_int v; Ok (VInt z).
Definition to_bool (v : pyval) : Res pyval := Ok (VBool (truthy v)).
Definition to_str (v : pyval) : Res pyval := Ok (VStr (py_str v)).
Definition to_float (v : pyval) : Res pyval := f ← py_to_float v; Ok (VFloat f).
Definition to_list (v : pyval) : Res pyval := l ← py_iter v; Ok (VList l).
(** [dict(v)]: a copy of a dictionary, or the last value of each key of a list
    of pairs. *)
Definition to_dict (v : pyval) : Res pyval :=
  match v with
  | VDict d => Ok (VDict d)
  | _ =>
      pairs ← py_iter v;
      entries ← mapR (fun p => kv ← py_iter p;
        match kv with
        | [VStr k; x] => Ok (k, x)
        | [_; _] => Raise (PyExc "TypeError" "cannot convert dictionary update sequence element to a string key")
        | _ => Raise (PyExc "ValueError" ("dictionary update sequence element has length " +:+
                 pretty (Z.of_nat (length kv)) +:+ "; 2 is required"))
        end) pairs;
      Ok (VDict (dupdate [] entries))
  end.
(** [[f(x) for x in v]] and [{k: f(x) for k, x in v.items()}]. *)
Definition each (f : pyval -> Res pyval) (v : pyval) : Res pyval :=
  l ← py_iter v; l' ← mapR f l; Ok (VList l').
Definition each_value (f : pyval -> Res pyval) (v : pyval) : Res pyval :=
  d ← py_items v; d' ← mapR (fun p => x ← f p.2; Ok (p.1, x)) d; Ok (VDict d').
Definition unless_none (f : pyval -> Res pyval) (v : pyval) : Res pyval :=
  if is_none v then Ok VNone else f v.
Definition unless_falsy (f : pyval -> Res pyval) (v : pyval) : Res pyval :=
  if truthy v then f v else Ok VNone.

(** [f(d[k])], [f(d.get(k))] and [f(d.get(k, default))]. *)
Definition field (k : string) (f : pyval -> Res pyval) (ty : pyval -> bool) : Field :=
  {| field_name := k; read := fun d => v ← py_index k d; f v; has_type := ty |}.
Definition field_or (k : string) (default : pyval) (f : pyval -> Res pyval) (ty : pyval -> bool) : Field :=
  {| field_name := k; has_type := ty;
     read := fun d => match d with VDict d => f (dget_or k default d) | _ => _ ← py_get k d; f default end |}.
Definition raw_field (k : string) : Field := field k Ok anything.
Definition optional_field (k : string) : Field := field_or k VNone Ok anything.
Definition int_field (k : string) : Field := field k to_int is_VInt.
Definition bool_field (k : string) : Field := field k to_bool is_bool.
Definition text_field (k : string) : Field := field k to_str is_str.
Definition list_field (k : string) : Field := field k to_list (list_of anything).
Definition int_field_or (k : string) (z : Z) : Field := field_or k (VInt z) to_int is_VInt.
Definition bool_field_or_false (k : string) : Field := field_or k (VBool false) to_bool is_bool.
Definition optional_as (k : string) (f : pyval -> Res pyval) (ty : pyval -> bool) : Field :=
  field_or k VNone (unless_none f) (or_null ty).

(** * Dataclasses *)

Record Dataclass := {
  class_name : string;
  required : list string;
  checks : pyval -> Res unit;
  fields : list Field;
}.
Definition no_checks (d : pyval) : Res unit := Ok tt.

Definition build (fs : list Field) (d : pyval) : Res pyval :=
  kvs ← mapR (fun f => v ← read f d; Ok (field_name f, v)) fs; Ok (VDict kvs).
Definition from_dict (c : Dataclass) (d : pyval) : Res pyval :=
  _ ← _require d (required c) (class_name c);
  _ ← checks c d;
  build (fields c) d.

Definition instance_of (c : Dataclass) (v : pyval) : bool :=
  match v with
  | VDict kvs => bool_decide (map fst kvs = map field_name (fields c)) &&
                 forallb (fun fv => has_type fv.1 fv.2) (zip (fields c) (map snd kvs))
  | _ => false
  end.

Definition UnsupportedSnapshotField : Dataclass :=
  {| class_name := "UnsupportedSnapshotField"; required := ["FieldPath"; "Status"; "Reason"]%string;
     checks := no_checks;
     fields := [raw_field "FieldPath"; raw_field "Status"; raw_field "Reason"; optional_field "ClassName";
                optional_field "InstanceId"; optional_field "SerializerVersion"] |}.

Definition LocalCostModifierSnapshot : Dataclass :=
  {| class_name := "LocalCostModifierSnapshot"; required := ["Amount"; "Type"; "Expiration"; "IsReduceOnly"]%string;
     checks := no_checks;
     fields := [int_field "Amount"; raw_field "Type"; int_field "Expiration"; bool_field "IsReduceOnly"] |}.

Definition TemporaryStarCostSnapshot : Dataclass :=
  {| class_name := "TemporaryStarCostSnapshot";
     required := ["Cost"; "ClearsWhenTurnEnds"; "ClearsWhenCardIsPlayed"]%string; checks := no_checks;
     fields := [int_field "Cost"; bool_field "ClearsWhenTurnEnds"; bool_field "ClearsWhenCardIsPlayed"] |}.

Definition EnchantmentSnapshot : Dataclass :=
  {| class_name := "EnchantmentSnapshot"; required := ["Id"; "Amount"; "Props"]%string; checks := no_checks;
     fields := [text_field "Id"; int_field "Amount"; raw_field "Props"] |}.

Definition AfflictionSnapshot : Dataclass :=
  {| class_name := "AfflictionSnapshot"; required := ["Id"; "Amount"; "Props"]%string; checks := no_checks;
     fields := [text_field "Id"; int_field "Amount"; raw_field "Props"] |}.

(** An object, lists and optional objects of a dataclass. *)
Definition object_field (k : string) (c : Dataclass) : Field := field k (from_dict c) (instance_of c).
Definition objects (k : string) (c : Dataclass) : Field := field k (each (from_dict c)) (list_of (instance_of c)).
Definition optional_object (k : string) (c : Dataclass) : Field :=
  field_or k VNone (unless_none (from_dict c)) (or_null (instance_of c)).
Definition truthy_object (k : string) (c : Dataclass) : Field :=
  field_or k VNone (unless_falsy (from_dict c)) (or_null (instance_of c)).

Definition CardInstanceSnapshot : Dataclass :=
  {| class_name := "CardInstanceSnapshot";
     required := ["InstanceId"; "CardId"; "Zone"; "PileIndex"; "HasBeenRemovedFromState"; "Type"; "Rarity"; "Cost";
       "LocalCostModifiers"; "TemporaryStarCosts"; "TargetType"; "IsUpgraded"; "UpgradeLevel"; "TinkerTimeType";
       "TinkerTimeRider"]%string;
     checks := no_checks;
     fields :=
       [raw_field "InstanceId"; raw_field "CardId"; raw_field "Type"; raw_field "Rarity"; int_field "Cost";
        raw_field "TargetType"; bool_field "IsUpgraded"; int_field "UpgradeLevel";
        optional_as "LocalKeywords" to_list (list_of anything);
        objects "LocalCostModifiers" LocalCostModifierSnapshot;
        objects "TemporaryStarCosts" TemporaryStarCostSnapshot;
        raw_field "Zone"; field "PileIndex" (unless_none to_int) (or_null is_VInt);
        bool_field "HasBeenRemovedFromState"; truthy_object "Enchantment" EnchantmentSnapshot;
        optional_field "EnchantmentStatus"; raw_field "TinkerTimeType"; raw_field "TinkerTimeRider";
        field_or "DynamicVars" VNone (fun v => each_value to_float (py_or v (VDict []))) (dict_of is_VFloat);
        int_field_or "BaseReplayCount" 0; int_field_or "BaseStarCost" 0; int_field_or "LastStarsSpent" 0;
        bool_field_or_false "ExhaustOnNextPlay"; bool_field_or_false "HasSingleTurnRetain";
        bool_field_or_false "HasSingleTurnSly"; truthy_object "Affliction" AfflictionSnapshot;
        optional_field "CloneOfInstanceId"; bool_field_or_false "IsDupe"; optional_field "DeckVersionInstanceId";
        optional_as "FloorAddedToDeck" to_int is_VInt; optional_field "SavedProperties";
        optional_as "SovereignBladeCurrentDamage" to_float is_VFloat;
        optional_as "SovereignBladeCurrentRepeats" to_float is_VFloat;
        optional_as "SovereignBladeCreatedThroughForge" to_bool is_bool] |}.

Definition RelicSnapshot : Dataclass :=
  {| class_name := "RelicSnapshot";
     required := ["InstanceId"; "RelicId"; "Rarity"; "StackCount"; "Status"; "IsWax"; "IsMelted";
       "HasBeenRemovedFromState"; "FloorAddedToDeck"; "SavedProperties"]%string;
     checks := no_checks;
     fields :=
       [raw_field "InstanceId"; raw_field "RelicId"; raw_field "Rarity"; int_field "StackCount"; raw_field "Status";
        bool_field "IsWax"; bool_field "IsMelted"; bool_field "HasBeenRemovedFromState";
        int_field "FloorAddedToDeck"; raw_field "SavedProperties"; optional_field "DisplayAmount"] |}.

Definition PowerSnapshot : Dataclass :=
  {| class_name := "PowerSnapshot";
     required := ["InstanceId"; "PowerId"; "Amount"; "AmountOnTurnStart"; "SkipNextDurationTick"; "StackType";
       "OwnerInstanceId"; "AssociatedCardInstanceId"; "HasUnsupportedInternalData"]%string;
     checks := no_checks;
     fields :=
       [raw_field "InstanceId"; raw_field "PowerId"; int_field "Amount"; int_field "AmountOnTurnStart";
        bool_field "SkipNextDurationTick"; raw_field "StackType"; raw_field "OwnerInstanceId";
        bool_field "HasUnsupportedInternalData"; optional_field "ApplierInstanceId";
        optional_field "TargetInstanceId"; optional_field "AssociatedCardInstanceId"; optional_field "InternalData";
        optional_field "InternalDataSerializerVersion"] |}.

Definition PotionSnapshot : Dataclass :=
  {| class_name := "PotionSnapshot";
     required := ["InstanceId"; "PotionId"; "Slot"; "Rarity"; "TargetType"; "IsQueued"]%string; checks := no_checks;
     fields := [raw_field "InstanceId"; raw_field "PotionId"; int_field "Slot"; raw_field "Rarity";
                raw_field "TargetType"; bool_field "IsQueued"] |}.

Definition OrbSnapshot : Dataclass :=
  {| class_name := "OrbSnapshot"; required := ["InstanceId"; "OrbId"; "Index"]%string; checks := no_checks;
     fields := [raw_field "InstanceId"; raw_field "OrbId"; int_field "Index"; optional_field "BasePassiveValue";
                optional_field "BaseEvokeValue"] |}.

Definition TransientMoveSnapshot : Dataclass :=
  {| class_name := "TransientMoveSnapshot"; required := ["Kind"; "FollowUpStateId"; "BehaviorId"]%string;
     checks := no_checks;
     fields := [text_field "Kind"; text_field "FollowUpStateId"; text_field "BehaviorId"] |}.

Definition EnemySnapshot : Dataclass :=
  {| class_name := "EnemySnapshot";
     required := ["InstanceId"; "Index"; "Name"; "Hp"; "MaxHp"; "Block"; "IsAlive"; "Powers"; "StateLog"]%string;
     checks := no_checks;
     fields :=
       [raw_field "InstanceId"; int_field "Index"; raw_field "Name"; int_field "Hp"; int_field "MaxHp";
        int_field "Block"; bool_field "IsAlive"; objects "Powers" PowerSnapshot; list_field "StateLog";
        optional_field "CombatId"; optional_field "MonsterId"; optional_field "SlotName"; optional_field "Intent";
        optional_field "FollowUpStateId"; optional_object "TransientMove" TransientMoveSnapshot] |}.

Definition CreatureSnapshot : Dataclass :=
  {| class_name := "CreatureSnapshot";
     required := ["InstanceId"; "Kind"; "Name"; "Hp"; "MaxHp"; "Block"; "IsAlive"; "Powers"; "StateLog"]%string;
     checks := no_checks;
     fields :=
       [raw_field "InstanceId"; raw_field "Kind"; raw_field "Name"; int_field "Hp"; int_field "MaxHp";
        int_field "Block"; bool_field "IsAlive"; objects "Powers" PowerSnapshot; list_field "StateLog";
        optional_field "OwnerInstanceId"; optional_field "CombatId"; optional_field "MonsterId";
        optional_field "SlotName"; optional_field "Intent"] |}.

Definition PlayerSnapshot : Dataclass :=
  {| class_name := "PlayerSnapshot";
     required := ["InstanceId"; "CreatureInstanceId"; "NetId"; "Hp"; "MaxHp"; "Block"; "Energy"; "MaxEnergy";
       "Stars"; "Gold"; "OrbSlotCapacity"; "CardInstances"; "Relics"; "Powers"; "Potions"; "Orbs"; "Pets"]%string;
     checks := no_checks;
     fields :=
       [raw_field "InstanceId"; raw_field "CreatureInstanceId"; int_field "NetId"; int_field "Hp"; int_field "MaxHp";
        int_field "Block"; int_field "Energy"; int_field "MaxEnergy"; int_field "Stars"; int_field "Gold";
        int_field "OrbSlotCapacity"; objects "CardInstances" CardInstanceSnapshot; objects "Relics" RelicSnapshot;
        objects "Powers" PowerSnapshot;
        field "Potions" (each (unless_none (from_dict PotionSnapshot))) (list_of (or_null (instance_of PotionSnapshot)));
        objects "Orbs" OrbSnapshot; objects "Pets" CreatureSnapshot] |}.

Definition SerializableRngSnapshot : Dataclass :=
  {| class_name := "SerializableRngSnapshot"; required := ["Counter"; "State0"; "State1"; "State2"; "State3"]%string;
     checks := no_checks;
     fields := [int_field "Counter"; int_field "State0"; int_field "State1"; int_field "State2"; int_field "State3"] |}.

(** [{k: C.from_dict(v) for k, v in d[key].items()}]. *)
Definition objects_by_key (k : string) (c : Dataclass) : Field :=
  field k (each_value (from_dict c)) (dict_of (instance_of c)).

Definition PlayerRngSnapshot : Dataclass :=
  {| class_name := "PlayerRngSnapshot"; required := ["OwnerInstanceId"; "Purposes"]%string; checks := no_checks;
     fields := [raw_field "OwnerInstanceId"; objects_by_key "Purposes" SerializableRngSnapshot] |}.

Definition MonsterRngSnapshot : Dataclass :=
  {| class_name := "MonsterRngSnapshot"; required := ["OwnerInstanceId"; "Rng"]%string; checks := no_checks;
     fields := [raw_field "OwnerInstanceId";
                object_field "Rng" SerializableRngSnapshot] |}.

Definition RngSnapshotSet : Dataclass :=
  {| class_name := "RngSnapshotSet"; required := ["RunRng"; "PlayerRng"; "MonsterRng"]%string; checks := no_checks;
     fields := [objects_by_key "RunRng" SerializableRngSnapshot; objects "PlayerRng" PlayerRngSnapshot;
                objects "MonsterRng" MonsterRngSnapshot] |}.

Definition CombatHistoryEntrySnapshot : Dataclass :=
  {| class_name := "CombatHistoryEntrySnapshot";
     required := ["EntryType"; "RoundNumber"; "CurrentSide"; "PlayerTurnNumbers"; "Fields"]%string; checks := no_checks;
     fields := [raw_field "EntryType"; int_field "RoundNumber"; raw_field "CurrentSide";
                field "PlayerTurnNumbers" to_dict (dict_of anything); raw_field "Fields";
                optional_field "ActorInstanceId"] |}.

Definition InferredCardRemovalSnapshot : Dataclass :=
  {| class_name := "InferredCardRemovalSnapshot";
     required := ["StepIndex"; "CardInstanceId"; "CardId"; "FromPile"; "Reason"]%string; checks := no_checks;
     fields := [int_field "StepIndex"; text_field "CardInstanceId"; text_field "CardId"; text_field "FromPile";
                text_field "Reason"] |}.

Definition CombatHistorySnapshot : Dataclass :=
  {| class_name := "CombatHistorySnapshot"; required := ["Entries"]%string; checks := no_checks;
     fields := [objects "Entries" CombatHistoryEntrySnapshot;
                field_or "InferredCardRemovals" (VList []) (each (from_dict InferredCardRemovalSnapshot))
                  (list_of (instance_of InferredCardRemovalSnapshot))] |}.

(** The fields [from_dict] does not know, kept aside. *)
Definition unknown_fields (known : list string) : Field :=
  {| field_name := "unknown_fields"; read := fun d => _unknown d known; has_type := dict_of anything |}.

Definition metadata_required : list string :=
  ["SchemaVersion"; "SnapshotId"; "StepIndex"; "CaptureBoundary"; "Completeness"; "UnsupportedFields"; "CapturedAtUtc"]%string.
Definition check_member (k : string) (values : list string) (err : string -> string) (d : pyval) : Res unit :=
  v ← py_index k d;
  known ← py_in_set values v;
  if (known : bool) then Ok tt
  else Raise (snapshot_error (err (py_repr v) +:+ " (known: " +:+ py_repr (VList (map VStr values)) +:+ ")")).
Definition metadata_checks (d : pyval) : Res unit :=
  _ ← check_member "SchemaVersion" KNOWN_SCHEMA_VERSIONS (fun r => "unknown SnapshotMetadata.SchemaVersion=" +:+ r) d;
  _ ← check_member "Completeness" COMPLETENESS_VALUES (fun r => "unrecognized Completeness=" +:+ r) d;
  check_member "CaptureBoundary" CAPTURE_BOUNDARY_VALUES (fun r => "unrecognized CaptureBoundary=" +:+ r) d.

Definition SnapshotMetadata : Dataclass :=
  {| class_name := "SnapshotMetadata"; required := metadata_required; checks := metadata_checks;
     fields :=
       [raw_field "SchemaVersion"; raw_field "SnapshotId"; int_field "StepIndex"; raw_field "CaptureBoundary";
        raw_field "Completeness"; objects "UnsupportedFields" UnsupportedSnapshotField; raw_field "CapturedAtUtc";
        optional_field "CombatSessionId"; optional_field "ContinuationStepIndex"; optional_field "EmulatorCommit";
        unknown_fields (metadata_required ++ ["CombatSessionId"; "ContinuationStepIndex"; "EmulatorCommit"]%string)] |}.

Definition snapshot_required : list string :=
  ["Metadata"; "Player"; "Enemies"; "TurnNumber"; "RoundNumber"; "CurrentSide"; "Phase"; "Rng"; "CombatHistory";
   "IsTerminal"; "Outcome"]%string.
Definition CombatStateSnapshot : Dataclass :=
  {| class_name := "CombatStateSnapshot"; required := snapshot_required; checks := no_checks;
     fields :=
       [object_field "Metadata" SnapshotMetadata; object_field "Player" PlayerSnapshot;
        objects "Enemies" EnemySnapshot; int_field "TurnNumber"; int_field "RoundNumber"; raw_field "CurrentSide";
        raw_field "Phase"; object_field "Rng" RngSnapshotSet; object_field "CombatHistory" CombatHistorySnapshot;
        bool_field "IsTerminal"; raw_field "Outcome"; optional_field "PendingChoice";
        unknown_fields (snapshot_required ++ ["PendingChoice"]%string)] |}.

(** * Snapshot objects *)

(** Attributes of a parsed object, and the elements of a list attribute. *)
Definition attr (k : string) (o : pyval) : pyval := match o with VDict d => dget_none k d | _ => VNone end.
Definition elems (v : pyval) : list pyval := match v with VList l => l | _ => [] end.

Definition parse_snapshot (v : pyval) : Res pyval := from_dict CombatStateSnapshot v.
Definition from_json (json_loads : string -> Res pyval) (json_text : string) : Res pyval :=
  v ← json_loads json_text; parse_snapshot v.

Definition completeness_is_complete (snapshot : pyval) : bool :=
  veq_str (attr "Completeness" (attr "Metadata" snapshot)) "complete".

(** [PlayerSnapshot.cards_in_zone]. *)
Definition pile_index (card : pyval) : Z := match attr "PileIndex" card with VInt z => z | _ => -1 end.
Definition cards_in_zone (zone : string) (player : pyval) : list pyval :=
  sort_by (fun x y => pile_index x <=? pile_index y)
    (List.filter (fun card => py_eqb (attr "Zone" card) (VStr zone)) (elems (attr "CardInstances" player))).

(** * References *)

Record DanglingReference := {
  field_path : string;
  referenced_instance_id : pyval;
  entry_type : option pyval;
  cause : string;
}.
Record SnapshotReferenceReport := {
  duplicate_instance_ids : list pyval;
  dangling_references : list DanglingReference;
}.
Definition has_issues (r : SnapshotReferenceReport) : bool :=
  negb (match duplicate_instance_ids r, dangling_references r with [], [] => true | _, _ => false end).

Definition str_suffix (suffix s : string) : bool :=
  let n := String.length s in let k := String.length suffix in
  Nat.leb k n && String.eqb (String.substring (n - k) k s) suffix.

(** [_walk_instance_id_refs]: the paths and ids in traversal order. *)
Fixpoint _walk_instance_id_refs (node : pyval) (path : string) : list (string * string) :=
  match node with
  | VDict d =>
      (fix go (d : pydict) := match d with
        | [] => []
        | (k, v) :: rest =>
            let sub_path := if String.eqb path "" then k else path +:+ "." +:+ k in
            match v with
            | VStr s => if str_suffix "InstanceId" k then [(sub_path, s)] else _walk_instance_id_refs v sub_path
            | VList l => if str_suffix "InstanceIds" k
                         then omap (fun item => match item with VStr s => Some (sub_path, s) | _ => None end) l
                         else _walk_instance_id_refs v sub_path
            | _ => _walk_instance_id_refs v sub_path
            end ++ go rest
        end) d
  | VList l =>
      (fix go (i : Z) (l : list pyval) := match l with
        | [] => []
        | item :: rest => _walk_instance_id_refs item (path +:+ "[" +:+ pretty i +:+ "]") ++ go (i + 1) rest
        end) 0 l
  | _ => []
  end.

(** [for i, x in enumerate(l)], collecting. *)
Definition enumerated {A} (l : list pyval) (f : Z -> pyval -> list A) : list A :=
  concat (imap (fun i x => f (Z.of_nat i) x) l).
Definition at_index (prefix : string) (i : Z) : string := prefix +:+ "[" +:+ pretty i +:+ "]".

(** The ids a snapshot defines with their paths, in the order they are added;
    [None] ids are not added. *)
Definition defined_ids (snapshot : pyval) : list (pyval * string) :=
  let p := attr "Player" snapshot in
  let instance (prefix : string) (i : Z) (o : pyval) :=
    [(attr "InstanceId" o, at_index prefix i +:+ ".InstanceId")] in
  let powers (prefix : string) (o : pyval) :=
    enumerated (elems (attr "Powers" o)) (instance (prefix +:+ ".Powers")) in
  List.filter (fun ip => negb (is_none ip.1))
   ([(attr "InstanceId" p, "Player.InstanceId"%string);
     (attr "CreatureInstanceId" p, "Player.CreatureInstanceId"%string)] ++
    enumerated (elems (attr "CardInstances" p)) (instance "Player.CardInstances") ++
    enumerated (elems (attr "Relics" p)) (instance "Player.Relics") ++
    powers "Player" p ++
    enumerated (elems (attr "Potions" p))
      (fun i pot => if is_none pot then [] else instance "Player.Potions" i pot) ++
    enumerated (elems (attr "Orbs" p)) (instance "Player.Orbs") ++
    enumerated (elems (attr "Pets" p))
      (fun i pet => instance "Player.Pets" i pet ++ powers (at_index "Player.Pets" i) pet) ++
    enumerated (elems (attr "Enemies" snapshot))
      (fun i e => instance "Enemies" i e ++ powers (at_index "Enemies" i) e)).

(** [ids.setdefault(instance_id, []).append(path)]. *)
Fixpoint add_id (i : pyval) (path : string) (ids : list (pyval * list string)) : list (pyval * list string) :=
  match ids with
  | [] => [(i, [path])]
  | (j, paths) :: rest => if py_eqb i j then (j, paths ++ [path]) :: rest else (j, paths) :: add_id i path rest
  end.
Definition _collect_known_instance_ids (snapshot : pyval) : Res (list (pyval * list string)) :=
  foldR (fun ids ip => _ ← hashable ip.1; Ok (add_id ip.1 ip.2 ids)) (defined_ids snapshot) [].

Definition _CONFIRMED_SOURCE_LIVE_STATE_INCONSISTENCY_ENTRY_TYPES : list string :=
  ["CardDrawnEntry"; "CardGeneratedEntry"]%string.
Definition _cause_for (ty : pyval) : Res string :=
  benign ← py_in_set _CONFIRMED_SOURCE_LIVE_STATE_INCONSISTENCY_ENTRY_TYPES ty;
  Ok (if (benign : bool) then "source_live_state_inconsistency"%string else "capture_bug"%string).

(** [i in known_ids]. *)
Definition is_known (ids : list (pyval * list string)) (i : pyval) : Res bool :=
  _ ← hashable i; Ok (existsb (fun jp => py_eqb i jp.1) ids).

(** One reference: its path, its id, and the history entry's type. *)
Definition Reference : Type := string * pyval * option pyval.
Definition check_reference (ids : list (pyval * list string)) (r : Reference) : Res (list DanglingReference) :=
  let '(path, i, ty) := r in
  known ← is_known ids i;
  if (known : bool) then Ok []
  else
    why ← match ty with Some t => _cause_for t | None => Ok "capture_bug"%string end;
    Ok [{| field_path := path; referenced_instance_id := i; entry_type := ty; cause := why |}].

(** The references of a snapshot in the order they are checked: the history's
    actors and fields, then those of powers, pets and rng owners. *)
Definition present (path : string) (i : pyval) (ty : option pyval) : list Reference :=
  if is_none i then [] else [(path, i, ty)].
Definition references (snapshot : pyval) : list Reference :=
  let power_refs (prefix : string) (i : Z) (pw : pyval) :=
    let path k := at_index (prefix +:+ ".Powers") i +:+ "." +:+ k in
    concat (map (fun k => present (path k) (attr k pw) None)
      ["OwnerInstanceId"; "ApplierInstanceId"; "TargetInstanceId"; "AssociatedCardInstanceId"]%string) in
  let owner_refs (prefix : string) (i : Z) (o : pyval) :=
    present (at_index prefix i +:+ ".OwnerInstanceId") (attr "OwnerInstanceId" o) None in
  let p := attr "Player" snapshot in
  enumerated (elems (attr "Entries" (attr "CombatHistory" snapshot))) (fun i entry =>
    let prefix := at_index "CombatHistory.Entries" i in
    let ty := Some (attr "EntryType" entry) in
    present (prefix +:+ ".ActorInstanceId") (attr "ActorInstanceId" entry) ty ++
    map (fun pi => (pi.1, VStr pi.2, ty)) (_walk_instance_id_refs (attr "Fields" entry) (prefix +:+ ".Fields"))) ++
  enumerated (elems (attr "Powers" p)) (power_refs "Player") ++
  enumerated (elems (attr "Pets" p)) (fun i pet =>
    owner_refs "Player.Pets" i pet ++ enumerated (elems (attr "Powers" pet)) (power_refs (at_index "Player.Pets" i))) ++
  enumerated (elems (attr "Enemies" snapshot)) (fun i e =>
    enumerated (elems (attr "Powers" e)) (power_refs (at_index "Enemies" i))) ++
  enumerated (elems (attr "MonsterRng" (attr "Rng" snapshot))) (owner_refs "Rng.MonsterRng") ++
  enumerated (elems (attr "PlayerRng" (attr "Rng" snapshot))) (owner_refs "Rng.PlayerRng").

(** [sorted] of the duplicated ids: strings, or numbers, but not both. *)
Definition id_leb (x y : pyval) : bool :=
  match x, y with
  | VStr s, VStr t => String.leb s t
  | _, _ => match as_Z x, as_Z y with Some a, Some b => a <=? b | _, _ => true end
  end.
Definition sorted_ids (ids : list pyval) : Res (list pyval) :=
  if forallb is_str ids || forallb is_int ids || Nat.leb (length ids) 1 then Ok (sort_by id_leb ids)
  else Raise (PyExc "TypeError" "'<' not supported between instances of different types").

Definition validate_snapshot_references (snapshot : pyval) : Res SnapshotReferenceReport :=
  known ← _collect_known_instance_ids snapshot;
  duplicate_ids ← sorted_ids (map fst (List.filter (fun ip => Nat.ltb 1 (length ip.2)) known));
  dangling ← mapR (check_reference known) (references snapshot);
  Ok {| duplicate_instance_ids := duplicate_ids; dangling_references := concat dangling |}.

Definition restore_input_eligibility (snapshot : pyval) : Res (bool * list string) :=
  let metadata := attr "Metadata" snapshot in
  let incomplete := if completeness_is_complete snapshot then []
    else ["completeness=" +:+ py_repr (attr "Completeness" metadata) +:+ " (Emulator verdict, not 'complete')"] in
  boundary_ok ← capture_boundary_is_restore_eligible (attr "CaptureBoundary" metadata);
  let wrong_boundary := if (boundary_ok : bool) then []
    else ["capture_boundary=" +:+ py_repr (attr "CaptureBoundary" metadata) +:+ " is not Restore-eligible"] in
  report ← validate_snapshot_references snapshot;
  let duplicates := match duplicate_instance_ids report with
    | [] => []
    | ids => ["duplicate_instance_ids=" +:+ py_repr (VList ids)]
    end in
  let dangling := match dangling_references report with
    | [] => []
    | refs => ["dangling_references=" +:+ pretty (Z.of_nat (length refs)) +:+
               " (see validate_snapshot_references for detail)"]
    end in
  let reasons := incomplete ++ wrong_boundary ++ duplicates ++ dangling in
  Ok (Nat.eqb (length reasons) 0, reasons).

(** [_snapshot_plain_dict] of rng_hypothesis.py: the parsed form without the
    unknown fields kept aside at any depth. *)
Fixpoint strip_unknown (node : pyval) : pyval :=
  match node with
  | VDict d => VDict (List.filter (fun p => negb (String.eqb p.1 "unknown_fields"))
                        (map (fun p => (p.1, strip_unknown p.2)) d))
  | VList l => VList (map strip_unknown l)
  | _ => node
  end.
Definition _snapshot_plain_dict (snapshot : pyval) : pyval := strip_unknown snapshot.
