(* ===== verification/SnapshotLaws.v ===== *)
(** Laws of snapshot parsing: types, stability of parsed objects up to unknown
    fields, attributes, and the replacement of some values of a parsed
    object. *)

From S2P Require Export Snapshot.

(** * Laws of fields

    What makes parsing type-correct and idempotent, field by field. *)

Definition UNKNOWN : string := "unknown_fields".

(** A parsed value as it is, or its plain form. *)
Definition view (plain : bool) (v : pyval) : pyval := if plain then strip_unknown v else v.

(** Reading again what was read, as it is or in its plain form, gives the same
    plain value. *)
Definition stable (f : pyval -> Res pyval) : Prop :=
  forall b x v, f x = Ok v -> exists v', f (view b v) = Ok v' /\ strip_unknown v' = strip_unknown v.
Definition yields (f : pyval -> Res pyval) (ty : pyval -> bool) : Prop := forall x v, f x = Ok v -> ty v = true.
Definition field_typed (f : Field) : Prop := yields (read f) (has_type f).
Definition field_stable (f : Field) : Prop := forall b d v vs, read f d = Ok v ->
  field_name f = UNKNOWN \/ dget (field_name f) vs = Some (view b v) ->
  exists v', read f (VDict vs) = Ok v' /\ (field_name f = UNKNOWN \/ strip_unknown v' = strip_unknown v).

Lemma strip_idem v : strip_unknown (strip_unknown v) = strip_unknown v.
Proof.
  induction v as [| | | | |l IH|d IH] using pyval_rect_nested; try reflexivity; cbn.
  - f_equal. induction IH as [|x l Hx _ IHl]; [done|]. cbn. by rewrite Hx, IHl.
  - f_equal. induction IH as [|[k x] d Hx _ IHd]; [done|]. cbn.
    destruct (String.eqb k "unknown_fields") eqn:E; cbn; [exact IHd|]. rewrite E. cbn in Hx |- *. by rewrite Hx, IHd.
Qed.

(** ** Type correctness *)

Lemma yields_int : yields to_int is_VInt.
Proof. intros x v (z & _ & [= <-])%bind_Ok. done. Qed.
Lemma yields_bool : yields to_bool is_bool.
Proof. intros x v [= <-]. done. Qed.
Lemma yields_str : yields to_str is_str.
Proof. intros x v [= <-]. done. Qed.
Lemma yields_float : yields to_float is_VFloat.
Proof. intros x v (z & _ & [= <-])%bind_Ok. done. Qed.
Lemma yields_list : yields to_list (list_of anything).
Proof. intros x v (l & _ & [= <-])%bind_Ok. cbn. by induction l. Qed.
Lemma yields_dict : yields to_dict (dict_of anything).
Proof.
  assert (Hd : forall d, dict_of anything (VDict d) = true) by (intros d; cbn; by induction d).
  intros x v. unfold to_dict. destruct x; try (by intros [= <-]);
    intros (pairs & _ & (es & _ & [= <-])%bind_Ok)%bind_Ok; apply Hd.
Qed.
Lemma yields_anything f : yields f anything.
Proof. done. Qed.

Lemma mapR_forall {A} (f : A -> Res pyval) (ty : pyval -> bool) l ys :
  (forall x y, f x = Ok y -> ty y = true) -> mapR f l = Ok ys -> forallb ty ys = true.
Proof.
  intros Hf. revert ys. induction l as [|x l IH]; intros ys; cbn [mapR]; [by intros [= <-]|].
  intros (y & Hy & (ys' & Hys & [= <-])%bind_Ok)%bind_Ok. cbn. by rewrite (Hf _ _ Hy), (IH _ Hys).
Qed.
Lemma yields_each f ty : yields f ty -> yields (each f) (list_of ty).
Proof. intros Hf x v (l & _ & (l' & Hl & [= <-])%bind_Ok)%bind_Ok. cbn. by eapply mapR_forall. Qed.
Lemma yields_each_value f ty : yields f ty -> yields (each_value f) (dict_of ty).
Proof.
  intros Hf x v (d & _ & (d' & Hd & [= <-])%bind_Ok)%bind_Ok. cbn. revert d' Hd.
  induction d as [|[k y] d IH]; intros d'; cbn [mapR]; [by intros [= <-]|].
  intros (p & (z & Hz & [= <-])%bind_Ok & (ds & Hds & [= <-])%bind_Ok)%bind_Ok.
  cbn. by rewrite (Hf _ _ Hz), (IH _ Hds).
Qed.
Lemma yields_unless_none f ty : yields f ty -> yields (unless_none f) (or_null ty).
Proof.
  intros Hf x v. unfold unless_none, or_null. destruct (is_none x); [by intros [= <-]|].
  intros H. by rewrite (Hf _ _ H), orb_true_r.
Qed.
Lemma yields_unless_falsy f ty : yields f ty -> yields (unless_falsy f) (or_null ty).
Proof.
  intros Hf x v. unfold unless_falsy, or_null. destruct (truthy x); [|by intros [= <-]].
  intros H. by rewrite (Hf _ _ H), orb_true_r.
Qed.
Lemma yields_or f ty w : yields f ty -> yields (fun v => f (py_or v w)) ty.
Proof. intros Hf x v. apply Hf. Qed.

Lemma field_typed_intro k f ty : yields f ty -> field_typed (field k f ty).
Proof. intros Hf d v (x & _ & Hx)%bind_Ok. by eapply Hf. Qed.
Lemma field_or_typed k w f ty : yields f ty -> field_typed (field_or k w f ty).
Proof.
  intros Hf d v. cbn. destruct d; try (intros (x & _ & Hx)%bind_Ok; by eapply Hf). intros Hx. by eapply Hf.
Qed.
Lemma unknown_typed known : field_typed (unknown_fields known).
Proof. intros d v (items & _ & [= <-])%bind_Ok. cbn. by induction (List.filter _ items). Qed.

Lemma class_typed c : Forall field_typed (fields c) -> yields (from_dict c) (instance_of c).
Proof.
  intros Hc d v ([] & _ & ([] & _ & (kvs & Hk & [= <-])%bind_Ok)%bind_Ok)%bind_Ok. cbn.
  apply andb_true_iff. rewrite bool_decide_eq_true. revert kvs Hk.
  induction Hc as [|f fs Hf _ IH]; intros kvs; cbn [mapR]; [by intros [= <-]|].
  intros (p & (x & Hx & [= <-])%bind_Ok & (ps & Hps & [= <-])%bind_Ok)%bind_Ok.
  destruct (IH _ Hps) as [H1 H2]. cbn. split; [by rewrite H1|]. by rewrite (Hf _ _ Hx), H2.
Qed.

(** ** Stability *)

Lemma strip_view b v : strip_unknown (view b v) = strip_unknown v.
Proof. destruct b; [apply strip_idem|done]. Qed.
Lemma stable_ok : stable Ok.
Proof. intros b x v [= ->]. exists (view b v). split; [done|]. apply strip_view. Qed.
Lemma stable_of f : (forall b x v, f x = Ok v -> f (view b v) = Ok (view b v)) -> stable f.
Proof. intros H b x v Hx. exists (view b v). split; [by eapply H|]. apply strip_view. Qed.
Lemma stable_int : stable to_int.
Proof. apply stable_of. intros [] x v (z & _ & [= <-])%bind_Ok; done. Qed.
Lemma stable_bool : stable to_bool.
Proof. apply stable_of. intros [] x v [= <-]; done. Qed.
Lemma stable_str : stable to_str.
Proof. apply stable_of. intros [] x v [= <-]; done. Qed.
Lemma stable_float : stable to_float.
Proof. apply stable_of. intros [] x v (z & _ & [= <-])%bind_Ok; done. Qed.
Lemma stable_list : stable to_list.
Proof. apply stable_of. intros [] x v (l & _ & [= <-])%bind_Ok; done. Qed.
Lemma stable_dict : stable to_dict.
Proof.
  apply stable_of. intros b x v. unfold to_dict. destruct b, x; try (by intros [= <-]);
    intros (pairs & _ & (es & _ & [= <-])%bind_Ok)%bind_Ok; done.
Qed.

Lemma view_list b l : view b (VList l) = VList (map (view b) l).
Proof. destruct b; [done|]. cbn. by rewrite map_id. Qed.
Lemma mapR_stable f b l ys : stable f -> mapR f l = Ok ys ->
  exists zs, mapR f (map (view b) ys) = Ok zs /\ map strip_unknown zs = map strip_unknown ys.
Proof.
  intros Hf. revert ys. induction l as [|x l IH]; intros ys; cbn [mapR]; [intros [= <-]; by exists []|].
  intros (y & Hy & (ys' & Hys & [= <-])%bind_Ok)%bind_Ok.
  destruct (Hf b _ _ Hy) as (y' & Hy' & Hsy), (IH _ Hys) as (zs & Hzs & Hsz).
  exists (y' :: zs). cbn [map mapR]. rewrite Hy'. cbn. rewrite Hzs. cbn. by rewrite Hsy, Hsz.
Qed.
Lemma stable_each f : stable f -> stable (each f).
Proof.
  intros Hf b x v (l & _ & (l' & Hl & [= <-])%bind_Ok)%bind_Ok.
  destruct (mapR_stable f b l l' Hf Hl) as (zs & Hzs & Hs). exists (VList zs). rewrite view_list. unfold each. cbn.
  rewrite Hzs. cbn. by rewrite Hs.
Qed.

Definition strip_items (d : pydict) : pydict :=
  List.filter (fun p => negb (String.eqb p.1 "unknown_fields")) (map (fun p => (p.1, strip_unknown p.2)) d).
Lemma strip_dict d : strip_unknown (VDict d) = VDict (strip_items d).
Proof. reflexivity. Qed.
Lemma strip_items_cons k v d :
  strip_items ((k, v) :: d) = (if String.eqb k "unknown_fields" then [] else [(k, strip_unknown v)]) ++ strip_items d.
Proof. unfold strip_items. cbn. by destruct (String.eqb k "unknown_fields"). Qed.

(** The entries of a dictionary as seen. *)
Definition view_items (b : bool) (d : pydict) : pydict := if b then strip_items d else d.
Lemma view_dict b d : view b (VDict d) = VDict (view_items b d).
Proof. by destruct b. Qed.
Lemma view_items_cons b k v d :
  view_items b ((k, v) :: d) = (if b && String.eqb k "unknown_fields" then [] else [(k, view b v)]) ++ view_items b d.
Proof. destruct b; [apply strip_items_cons|done]. Qed.

Lemma stable_each_value f : stable f -> stable (each_value f).
Proof.
  intros Hf b x v (d & _ & (d' & Hd & [= <-])%bind_Ok)%bind_Ok. rewrite view_dict. unfold each_value.
  cbn [py_items mbind Res_bind]. revert d' Hd. induction d as [|[k y] d IH]; intros d'; cbn [mapR].
  { intros [= <-]. exists (VDict []). by destruct b. }
  intros (p & (z & Hz & [= <-])%bind_Ok & (ds & Hds & [= <-])%bind_Ok)%bind_Ok. cbn [fst snd] in *.
  destruct (IH _ Hds) as (v' & (es & Hes & [= <-])%bind_Ok & Hs), (Hf b _ _ Hz) as (z' & Hz' & Hsz).
  rewrite view_items_cons, !strip_dict in *. injection Hs as Hs.
  destruct (b && String.eqb k "unknown_fields") eqn:E; cbn [app].
  - rewrite Hes. cbn [mbind Res_bind]. exists (VDict es). split; [done|]. apply andb_true_iff in E as [_ E].
    by rewrite strip_dict, Hs, strip_items_cons, E.
  - cbn [mapR fst snd]. rewrite Hz'. cbn [mbind Res_bind]. rewrite Hes. cbn [mbind Res_bind].
    eexists. split; [reflexivity|]. by rewrite strip_dict, !strip_items_cons, Hsz, Hs.
Qed.

Lemma is_none_view b v : is_none (view b v) = is_none v.
Proof. by destruct b, v. Qed.
Lemma stable_unless_none f : stable f -> stable (unless_none f).
Proof.
  intros Hf b x v. unfold unless_none. destruct (is_none x); [intros [= <-]; exists VNone; by destruct b|]. intros Hx.
  destruct (is_none (view b v)) eqn:E; [|by eapply Hf].
  exists VNone. split; [done|]. rewrite is_none_view in E. by destruct v.
Qed.

(** What is read is truthy, and stays so without its unknown fields. *)
Definition solid (f : pyval -> Res pyval) : Prop := forall b x v, f x = Ok v -> truthy (view b v) = true.
Lemma stable_unless_falsy f : stable f -> solid f -> stable (unless_falsy f).
Proof.
  intros Hf Ht b x v. unfold unless_falsy. destruct (truthy x); [|intros [= <-]; exists VNone; by destruct b]. intros Hx.
  rewrite (Ht b _ _ Hx). by eapply Hf.
Qed.
Lemma stable_or f : (forall x v, f x = Ok v -> is_dict v = true) -> stable f -> stable (fun v => f (py_or v (VDict []))).
Proof.
  intros Hd Hf b x v Hx. destruct (Hf b _ _ Hx) as (v' & Hv' & Hs). exists v'. split; [|done].
  specialize (Hd _ _ Hx). destruct v as [| | | | | |d]; try discriminate Hd. rewrite view_dict in *.
  unfold py_or. destruct (truthy _) eqn:E; [done|]. by destruct (view_items b d).
Qed.

Lemma field_stable_intro k f ty : stable f -> k <> UNKNOWN -> field_stable (field k f ty).
Proof.
  intros Hf Hk b d v vs (x & _ & Hx)%bind_Ok [H|H]; [done|]. cbn in H |- *. unfold dindex. rewrite H. cbn.
  destruct (Hf b _ _ Hx) as (v' & Hv' & Hs). exists v'. split; [done|]. by right.
Qed.
Lemma field_or_stable k w f ty : stable f -> k <> UNKNOWN -> field_stable (field_or k w f ty).
Proof.
  intros Hf Hk b d v vs Hr [H|H]; [done|]. cbn in H |- *. unfold dget_or. rewrite H.
  assert (Hx : exists x, f x = Ok v).
  { cbn in Hr. destruct d; try (apply bind_Ok in Hr as (y & _ & Hr); by exists w). by eexists. }
  destruct Hx as [x Hx]. destruct (Hf b _ _ Hx) as (v' & Hv' & Hs). exists v'. split; [done|]. by right.
Qed.
Lemma unknown_stable known : field_stable (unknown_fields known).
Proof. intros b d v vs _ _. eexists. split; [reflexivity|]. by left. Qed.

(** The checks of a class hold again on what it built. *)
Definition checks_stable (c : Dataclass) : Prop := forall b d kvs,
  checks c d = Ok tt -> build (fields c) d = Ok (VDict kvs) -> checks c (VDict (view_items b kvs)) = Ok tt.
Lemma no_checks_stable c : checks c = no_checks -> checks_stable c.
Proof. intros H b d kvs _ _. by rewrite H. Qed.

Definition names (c : Dataclass) : list string := map field_name (fields c).
(** Distinct names, and every required key among the known ones. *)
Definition well_named (c : Dataclass) : bool :=
  bool_decide (NoDup (names c)) &&
  forallb (fun k => str_in k (names c) && negb (String.eqb k UNKNOWN)) (required c) &&
  negb (Nat.eqb (length (required c)) 0).
Lemma well_named_NoDup c : well_named c = true -> NoDup (names c).
Proof. unfold well_named. rewrite !andb_true_iff, bool_decide_eq_true. by intros [[? _] _]. Qed.
Lemma well_named_required c k : well_named c = true -> k ∈ required c -> k ∈ names c /\ k <> UNKNOWN.
Proof.
  unfold well_named. rewrite !andb_true_iff, forallb_forall. intros [[_ H] _] Hk%list_elem_of_In.
  specialize (H k Hk). rewrite andb_true_iff, negb_true_iff in H. destruct H as [Hn%str_in_elem Hu].
  split; [done|]. intros ->. by rewrite String.eqb_refl in Hu.
Qed.

(** What a build reads, field by field. *)
Lemma build_Forall2 fs d kvs :
  build fs d = Ok (VDict kvs) -> Forall2 (fun f kv => kv.1 = field_name f /\ read f d = Ok kv.2) fs kvs.
Proof.
  unfold build. intros (kvs' & H & [= <-])%bind_Ok. revert kvs' H. induction fs as [|f fs IH]; intros kvs'; cbn [mapR].
  - intros [= <-]. constructor.
  - intros (p & (x & Hx & [= <-])%bind_Ok & (ps & Hps & [= <-])%bind_Ok)%bind_Ok. constructor; [done|by apply IH].
Qed.
Lemma build_names fs d kvs : build fs d = Ok (VDict kvs) -> dkeys kvs = map field_name fs.
Proof.
  intros H%build_Forall2. unfold dkeys. induction H as [|f kv fs kvs [Hk _] _ IH]; [done|]. cbn. by rewrite Hk, IH.
Qed.

Lemma dget_of_elem k v (d : pydict) : NoDup (dkeys d) -> (k, v) ∈ d -> dget k d = Some v.
Proof.
  induction d as [|[k0 v0] d IH]; intros Hnd Hin; [by apply not_elem_of_nil in Hin|]. cbn.
  cbn in Hnd. apply NoDup_cons in Hnd as [Hni Hnd]. apply elem_of_cons in Hin as [[= -> ->]|Hin].
  - by rewrite String.eqb_refl.
  - destruct (String.eqb_spec k k0) as [->|_]; [|by apply IH].
    destruct Hni. by apply (list_elem_of_fmap_2 fst) in Hin.
Qed.
Lemma dget_view_items b k d : k <> UNKNOWN -> dget k (view_items b d) = view b <$> dget k d.
Proof.
  intros Hk. induction d as [|[k0 v0] d IH]; [by destruct b|]. rewrite view_items_cons. cbn [dget].
  destruct (String.eqb_spec k k0) as [<-|Hne].
  - destruct (String.eqb_spec k "unknown_fields"); [done|]. rewrite andb_false_r. cbn. by rewrite String.eqb_refl.
  - destruct (b && String.eqb k0 "unknown_fields"); cbn; [done|]. destruct (String.eqb_spec k k0); [done|]. done.
Qed.
Lemma dget_view b k kvs v :
  NoDup (dkeys kvs) -> (k, v) ∈ kvs -> k <> UNKNOWN -> dget k (view_items b kvs) = Some (view b v).
Proof. intros Hnd Hin Hk. by rewrite dget_view_items, (dget_of_elem k v). Qed.

(** Building again from other items: each field reads its value, changed by
    [change]. *)
Lemma rebuild fs d kvs vs (change : string -> pyval -> pyval) :
  build fs d = Ok (VDict kvs) ->
  (forall f v, f ∈ fs -> (field_name f, v) ∈ kvs -> read f d = Ok v -> exists v', read f (VDict vs) = Ok v' /\
     (field_name f = UNKNOWN \/ strip_unknown v' = strip_unknown (change (field_name f) v))) ->
  exists kvs', build fs (VDict vs) = Ok (VDict kvs') /\
    strip_items kvs' = strip_items (map (fun p => (p.1, change p.1 p.2)) kvs).
Proof.
  intros H%build_Forall2. induction H as [|f [k v] fs kvs [Hk Hr] _ IH]; intros Hf; [by exists []|].
  cbn in Hk, Hr. subst k.
  destruct IH as (kvs' & (kvs0 & Hb & [= ->])%bind_Ok & Hst); [intros g x Hg Hin; apply Hf; by right|].
  destruct (Hf f v) as (v' & Hv' & Hor); [by left|by left|done|].
  exists ((field_name f, v') :: kvs'). split.
  - unfold build. cbn [mapR]. rewrite Hv'. cbn [mbind Res_bind]. rewrite Hb. done.
  - cbn [map fst snd]. rewrite !strip_items_cons, Hst.
    destruct (String.eqb_spec (field_name f) "unknown_fields"); [done|].
    destruct Hor as [|Hor]; [done|]. by rewrite Hor.
Qed.

Lemma require_ok vs keys name : (forall k, k ∈ keys -> dmem k vs = true) -> _require (VDict vs) keys name = Ok tt.
Proof.
  intros H. unfold _require. rewrite (mapR_Ok _ (fun k => true)).
  2:{ apply Forall_forall. intros k Hk. cbn. by rewrite H. }
  cbn [mbind Res_bind]. assert (E : List.filter (fun kp : string * bool => negb kp.2) (zip keys (map (fun _ => true) keys)) = []).
  { clear H. induction keys as [|k keys IH]; [done|]. cbn. exact IH. }
  by rewrite E.
Qed.

Lemma from_dict_built c d s : from_dict c d = Ok s ->
  exists kvs, s = VDict kvs /\ checks c d = Ok tt /\ build (fields c) d = Ok (VDict kvs).
Proof.
  intros ([] & _ & ([] & Hc & Hb)%bind_Ok)%bind_Ok. pose proof Hb as (kvs & _ & [= <-])%bind_Ok. by exists kvs.
Qed.
(** Every name but [unknown_fields] is among the items. *)
Definition named_items (c : Dataclass) (vs : pydict) : Prop := forall k, k ∈ names c -> k <> UNKNOWN -> dmem k vs = true.

Lemma class_rebuild c d kvs vs change :
  well_named c = true -> build (fields c) d = Ok (VDict kvs) -> checks c (VDict vs) = Ok tt -> named_items c vs ->
  (forall f v, f ∈ fields c -> (field_name f, v) ∈ kvs -> read f d = Ok v -> exists v', read f (VDict vs) = Ok v' /\
     (field_name f = UNKNOWN \/ strip_unknown v' = strip_unknown (change (field_name f) v))) ->
  exists kvs', from_dict c (VDict vs) = Ok (VDict kvs') /\
    strip_items kvs' = strip_items (map (fun p => (p.1, change p.1 p.2)) kvs).
Proof.
  intros Hn Hb Hc Hin Hf. destruct (rebuild _ _ _ _ change Hb Hf) as (kvs' & Hb' & Hs). exists kvs'. split; [|done].
  unfold from_dict. rewrite require_ok; [cbn [mbind Res_bind]; by rewrite Hc|].
  intros k Hk. by apply Hin; apply (well_named_required c k Hn Hk).
Qed.

Lemma built_elem c d kvs k :
  build (fields c) d = Ok (VDict kvs) -> k ∈ names c -> exists v, (k, v) ∈ kvs.
Proof.
  intros Hb Hk. unfold names in Hk. rewrite <- (build_names _ _ _ Hb) in Hk.
  apply list_elem_of_fmap in Hk as ([k' v] & -> & Hin). by exists v.
Qed.
Lemma built_NoDup c d kvs : well_named c = true -> build (fields c) d = Ok (VDict kvs) -> NoDup (dkeys kvs).
Proof. intros Hn Hb. rewrite (build_names _ _ _ Hb). by apply well_named_NoDup. Qed.
Lemma built_named c d kvs b :
  well_named c = true -> build (fields c) d = Ok (VDict kvs) -> named_items c (view_items b kvs).
Proof.
  intros Hn Hb k Hk Hu. destruct (built_elem _ _ _ _ Hb Hk) as [v Hv]. unfold dmem.
  rewrite (dget_view b k kvs v); [done|by eapply built_NoDup|done|done].
Qed.

Lemma class_stable c :
  Forall field_stable (fields c) -> well_named c = true -> checks_stable c ->
  stable (from_dict c) /\ solid (from_dict c).
Proof.
  intros Hf Hn Hchk. rewrite Forall_forall in Hf.
  split; intros b d s Hs; destruct (from_dict_built c d s Hs) as (kvs & -> & Hc & Hb).
  - destruct (class_rebuild c d kvs (view_items b kvs) (fun _ v => v) Hn Hb) as (kvs' & H & Hst).
    + by eapply Hchk.
    + by eapply built_named.
    + intros f v Hin Hv Hr. apply (Hf f Hin b d v); [done|].
      destruct (decide (field_name f = UNKNOWN)); [by left|right]. by apply dget_view; [eapply built_NoDup| |].
    + exists (VDict kvs'). rewrite view_dict, !strip_dict. split; [done|]. rewrite Hst. f_equal.
      f_equal. rewrite <- (map_id kvs) at 2. by apply map_ext; intros [].
  - rewrite view_dict. cbn. destruct (view_items b kvs) eqn:E; [|done].
    assert (Hk : exists k, k ∈ required c).
    { unfold well_named in Hn. destruct (required c) as [|k l]; [by rewrite andb_false_r in Hn|]. exists k. by left. }
    destruct Hk as [k [Hk Hu]%well_named_required]; [|done].
    pose proof (built_named c d kvs b Hn Hb k Hk Hu) as H. by rewrite E in H.
Qed.

(** A dataclass whose parsing is type-correct, idempotent up to the unknown
    fields, and never empty. *)
Class Lawful (c : Dataclass) := {
  lawful_type : yields (from_dict c) (instance_of c);
  lawful_stable : stable (from_dict c);
  lawful_solid : solid (from_dict c);
  lawful_fields : Forall field_stable (fields c);
  lawful_names : well_named c = true;
}.

Lemma lawful_intro c :
  Forall (fun f => field_typed f /\ field_stable f) (fields c) -> well_named c = true -> checks_stable c -> Lawful c.
Proof.
  intros Hf Hn Hc.
  destruct (class_stable c) as [Hs Ht]; [by eapply Forall_impl; [exact Hf|intros f []]|done|done|].
  split; [|done|done| |done].
  - apply class_typed. by eapply Forall_impl; [exact Hf|intros f []].
  - by eapply Forall_impl; [exact Hf|intros f []].
Qed.

(** Parsing other items: each known field is found as it was, or reads what
    [change] makes of it. *)
Lemma class_substitute c `{!Lawful c} d kvs vs change :
  checks c = no_checks -> from_dict c d = Ok (VDict kvs) ->
  (forall f v, f ∈ fields c -> (field_name f, v) ∈ kvs -> field_name f <> UNKNOWN ->
     (exists b, dget (field_name f) vs = Some (view b v) /\ change (field_name f) v = v) \/
     (exists w v', dget (field_name f) vs = Some w /\ read f (VDict vs) = Ok v' /\
        strip_unknown v' = strip_unknown (change (field_name f) v))) ->
  exists kvs', from_dict c (VDict vs) = Ok (VDict kvs') /\
    strip_items kvs' = strip_items (map (fun p => (p.1, change p.1 p.2)) kvs).
Proof.
  intros Hc Hd Hf. destruct (from_dict_built _ _ _ Hd) as (kvs0 & [= <-] & _ & Hb).
  pose proof lawful_names as Hn. pose proof lawful_fields as Hst. rewrite Forall_forall in Hst.
  apply (class_rebuild c d kvs vs change); [done|done|by rewrite Hc| |].
  - intros k Hk Hu. destruct (built_elem _ _ _ _ Hb Hk) as [v Hv]. unfold names in Hk.
    apply list_elem_of_fmap in Hk as (f & -> & Hin). unfold dmem.
    destruct (Hf f v Hin Hv Hu) as [(b & -> & _)|(w & v' & -> & _)]; done.
  - intros f v Hin Hv Hr. destruct (decide (field_name f = UNKNOWN)) as [Hu|Hu].
    + destruct (Hst f Hin true d v vs Hr) as (v' & Hv' & _); [by left|]. exists v'. split; [done|by left].
    + destruct (Hf f v Hin Hv Hu) as [(b & Hg & Hch)|(w & v' & _ & Hr' & Hs)]; [|by exists v'; auto].
      rewrite Hch. apply (Hst f Hin b d v vs Hr). by right.
Qed.

Create HintDb snapshot.
#[export] Hint Resolve yields_int yields_bool yields_str yields_float yields_list yields_dict yields_anything
  yields_each yields_each_value yields_unless_none yields_unless_falsy lawful_type field_typed_intro
  field_or_typed unknown_typed : snapshot.
#[export] Hint Resolve stable_ok stable_int stable_bool stable_str stable_float stable_list stable_dict
  stable_each stable_each_value stable_unless_none stable_unless_falsy lawful_stable lawful_solid
  field_stable_intro field_or_stable unknown_stable : snapshot.
#[export] Hint Extern 1 (_ <> UNKNOWN) => discriminate : snapshot.

(** The laws of a field of a concrete class, and of the class. *)
Ltac field_law :=
  unfold raw_field, optional_field, int_field, bool_field, text_field, list_field, int_field_or,
    bool_field_or_false, optional_as, objects, optional_object, truthy_object, object_field, objects_by_key;
  split; eauto 20 with snapshot typeclass_instances.
Ltac lawful_class :=
  apply lawful_intro;
  [ match goal with |- Forall _ (fields ?c) => unfold c; cbn [fields] end;
    repeat (apply Forall_cons; split); try (apply Forall_nil; exact I); try (field_law; fail)
  | vm_compute; reflexivity
  | try (apply no_checks_stable; reflexivity) ].

#[export] Instance UnsupportedSnapshotField_lawful : Lawful UnsupportedSnapshotField.
Proof. lawful_class. Qed.
#[export] Instance LocalCostModifierSnapshot_lawful : Lawful LocalCostModifierSnapshot.
Proof. lawful_class. Qed.
#[export] Instance TemporaryStarCostSnapshot_lawful : Lawful TemporaryStarCostSnapshot.
Proof. lawful_class. Qed.
#[export] Instance EnchantmentSnapshot_lawful : Lawful EnchantmentSnapshot.
Proof. lawful_class. Qed.
#[export] Instance AfflictionSnapshot_lawful : Lawful AfflictionSnapshot.
Proof. lawful_class. Qed.

Lemma each_value_dict f x v : each_value f x = Ok v -> is_dict v = true.
Proof. by intros (d & _ & (d' & _ & [= <-])%bind_Ok)%bind_Ok. Qed.
#[export] Hint Resolve each_value_dict : snapshot.

Lemma dynamic_vars_law :
  let f := field_or "DynamicVars" VNone (fun v => each_value to_float (py_or v (VDict []))) (dict_of is_VFloat) in
  field_typed f /\ field_stable f.
Proof.
  split.
  - apply (field_or_typed _ _ (fun v => each_value to_float (py_or v (VDict [])))).
    apply (yields_or (each_value to_float)). auto with snapshot.
  - apply (field_or_stable _ _ (fun v => each_value to_float (py_or v (VDict [])))); [|discriminate].
    apply (stable_or (each_value to_float)); [apply each_value_dict|auto with snapshot].
Qed.

#[export] Instance CardInstanceSnapshot_lawful : Lawful CardInstanceSnapshot.
Proof. lawful_class. exact dynamic_vars_law. Qed.
#[export] Instance RelicSnapshot_lawful : Lawful RelicSnapshot.
Proof. lawful_class. Qed.
#[export] Instance PowerSnapshot_lawful : Lawful PowerSnapshot.
Proof. lawful_class. Qed.
#[export] Instance PotionSnapshot_lawful : Lawful PotionSnapshot.
Proof. lawful_class. Qed.
#[export] Instance OrbSnapshot_lawful : Lawful OrbSnapshot.
Proof. lawful_class. Qed.
#[export] Instance TransientMoveSnapshot_lawful : Lawful TransientMoveSnapshot.
Proof. lawful_class. Qed.
#[export] Instance EnemySnapshot_lawful : Lawful EnemySnapshot.
Proof. lawful_class. Qed.
#[export] Instance CreatureSnapshot_lawful : Lawful CreatureSnapshot.
Proof. lawful_class. Qed.
#[export] Instance PlayerSnapshot_lawful : Lawful PlayerSnapshot.
Proof. lawful_class. Qed.
#[export] Instance SerializableRngSnapshot_lawful : Lawful SerializableRngSnapshot.
Proof. lawful_class. Qed.
#[export] Instance PlayerRngSnapshot_lawful : Lawful PlayerRngSnapshot.
Proof. lawful_class. Qed.
#[export] Instance MonsterRngSnapshot_lawful : Lawful MonsterRngSnapshot.
Proof. lawful_class. Qed.
#[export] Instance RngSnapshotSet_lawful : Lawful RngSnapshotSet.
Proof. lawful_class. Qed.
#[export] Instance CombatHistoryEntrySnapshot_lawful : Lawful CombatHistoryEntrySnapshot.
Proof. lawful_class. Qed.
#[export] Instance InferredCardRemovalSnapshot_lawful : Lawful InferredCardRemovalSnapshot.
Proof. lawful_class. Qed.
#[export] Instance CombatHistorySnapshot_lawful : Lawful CombatHistorySnapshot.
Proof. lawful_class. Qed.

(** ** Metadata *)

(** A checked member is one of the allowed strings. *)
Lemma check_member_str k values err d :
  check_member k values err d = Ok tt -> exists s, py_index k d = Ok (VStr s) /\ str_in s values = true.
Proof.
  intros (v & Hv & (known & Hk & Hc)%bind_Ok)%bind_Ok. destruct known; [|discriminate].
  destruct v; apply bind_Ok in Hk as (u & Hh & Hk); try discriminate Hk. injection Hk as Hk. eauto.
Qed.
Lemma raw_field_read k d v : read (raw_field k) d = Ok v <-> py_index k d = Ok v.
Proof. cbn. split; [by intros (x & Hx & [= <-])%bind_Ok|]. by intros ->. Qed.

(** A raw string field is still there, as it was, once built and stripped. *)
Lemma raw_string_kept b fs d kvs k s :
  build fs d = Ok (VDict kvs) -> NoDup (map field_name fs) -> raw_field k ∈ fs -> k <> UNKNOWN ->
  py_index k d = Ok (VStr s) -> py_index k (VDict (view_items b kvs)) = Ok (VStr s).
Proof.
  intros Hb Hnd Hin Hk Hs. pose proof Hb as H%build_Forall2. rewrite <- (build_names _ _ _ Hb) in Hnd.
  apply list_elem_of_lookup in Hin as [i Hi].
  destruct (Forall2_lookup_l _ _ _ _ _ H Hi) as ([k' v] & Hkv & Hn & Hr). cbn in Hn. subst k'.
  apply raw_field_read in Hr. rewrite Hs in Hr. injection Hr as [= <-]. cbn.
  unfold dindex. rewrite (dget_view b k kvs (VStr s)); [by destruct b|done| |done]. by eapply list_elem_of_lookup_2.
Qed.
Lemma check_member_again k values err d d' :
  check_member k values err d = Ok tt -> (forall s, py_index k d = Ok (VStr s) -> py_index k d' = Ok (VStr s)) ->
  check_member k values err d' = Ok tt.
Proof.
  intros (s & Hs & Hin)%check_member_str H. unfold check_member. rewrite (H _ Hs). cbn. by rewrite Hin.
Qed.

Lemma metadata_checks_stable : checks_stable SnapshotMetadata.
Proof.
  intros b d kvs ([] & H1 & ([] & H2 & H3)%bind_Ok)%bind_Ok Hb.
  assert (Hraw : forall k s, raw_field k ∈ fields SnapshotMetadata -> k <> UNKNOWN ->
    py_index k d = Ok (VStr s) -> py_index k (VDict (view_items b kvs)) = Ok (VStr s)).
  { intros k s Hin Hk. apply (raw_string_kept _ _ _ _ _ _ Hb); [|done|done].
    apply (bool_decide_eq_true_1 (NoDup (names SnapshotMetadata))). vm_compute. reflexivity. }
  assert (Hin : forall n k, fields SnapshotMetadata !! n = Some (raw_field k) -> raw_field k ∈ fields SnapshotMetadata).
  { intros n k. apply list_elem_of_lookup_2. }
  cbn [checks SnapshotMetadata]. unfold metadata_checks.
  rewrite (check_member_again _ _ _ _ _ H1); [|intros s; apply Hraw; [by apply (Hin 0%nat)|done]].
  cbn [mbind Res_bind].
  rewrite (check_member_again _ _ _ _ _ H2); [|intros s; apply Hraw; [by apply (Hin 4%nat)|done]].
  cbn [mbind Res_bind]. apply (check_member_again _ _ _ _ _ H3). intros s; apply Hraw; [by apply (Hin 3%nat)|done].
Qed.

#[export] Instance SnapshotMetadata_lawful : Lawful SnapshotMetadata.
Proof. lawful_class. exact metadata_checks_stable. Qed.
#[export] Instance CombatStateSnapshot_lawful : Lawful CombatStateSnapshot.
Proof. lawful_class. Qed.

(** * Attributes and updates of parsed objects *)

Lemma is_str_eq v : is_str v = true -> exists s, v = VStr s.
Proof. destruct v; try discriminate. eauto. Qed.
Lemma py_eqb_str v w : is_str v = true -> is_str w = true -> py_eqb v w = true <-> v = w.
Proof.
  intros (s & ->)%is_str_eq (t & ->)%is_str_eq. cbn. destruct (String.eqb_spec s t); split; naive_solver.
Qed.
Lemma hashable_str v : is_str v = true -> hashable v = Ok tt.
Proof. by intros (s & ->)%is_str_eq. Qed.
Lemma py_in_set_str values v : is_str v = true -> exists s, v = VStr s /\ py_in_set values v = Ok (str_in s values).
Proof. intros (s & ->)%is_str_eq. by exists s. Qed.

(** An attribute of a built object is what its field read. *)
Lemma built_attr fs d s f :
  build fs d = Ok s -> NoDup (map field_name fs) -> f ∈ fs -> read f d = Ok (attr (field_name f) s).
Proof.
  intros Hb Hnd Hin. pose proof Hb as (kvs & _ & [= <-])%bind_Ok. pose proof Hb as H%build_Forall2.
  rewrite <- (build_names _ _ _ Hb) in Hnd. apply list_elem_of_lookup in Hin as [i Hi].
  destruct (Forall2_lookup_l _ _ _ _ _ H Hi) as ([k v] & Hkv & Hn & Hr). cbn in Hn, Hr. rewrite Hr. f_equal.
  cbn. unfold dget_none, dget_or. rewrite <- Hn. apply list_elem_of_lookup_2 in Hkv.
  rewrite (dget_of_elem k v kvs); [done|done|done].
Qed.
(** An attribute of an instance has its field's type. *)
Lemma instance_attr c v f :
  well_named c = true -> instance_of c v = true -> f ∈ fields c -> has_type f (attr (field_name f) v) = true.
Proof.
  intros Hn%well_named_NoDup Hi Hin. destruct v as [| | | | | |kvs]; try discriminate Hi. unfold instance_of in Hi.
  apply andb_true_iff in Hi as [Hk%bool_decide_eq_true Ht]. rewrite forallb_forall in Ht.
  apply list_elem_of_lookup in Hin as [i Hi].
  assert (Hki : map fst kvs !! i = Some (field_name f)) by (rewrite Hk, list_lookup_fmap, Hi; done).
  rewrite list_lookup_fmap in Hki. destruct (kvs !! i) as [[k x]|] eqn:Ekv; [|discriminate]. injection Hki as ->.
  assert (Hz : (f, x) ∈ zip (fields c) (map snd kvs)).
  { apply (list_elem_of_lookup_2 _ i). rewrite lookup_zip_with, Hi, list_lookup_fmap, Ekv. done. }
  specialize (Ht (f, x) (proj1 (list_elem_of_In _ _) Hz)). cbn in Ht. cbn. unfold dget_none, dget_or.
  rewrite (dget_of_elem (field_name f) x); [done|exact (eq_ind_r NoDup Hn Hk)|by eapply list_elem_of_lookup_2].
Qed.

Lemma strip_str v t : strip_unknown v = VStr t -> v = VStr t.
Proof. by destruct v. Qed.
Lemma strip_int v z : strip_unknown v = VInt z -> v = VInt z.
Proof. by destruct v. Qed.
Lemma attr_view b k v : k <> UNKNOWN -> attr k (view b v) = view b (attr k v).
Proof.
  intros Hk. destruct b; [|done]. destruct v as [| | | | | |d]; try done. cbn [view]. rewrite strip_dict. cbn [attr].
  unfold dget_none. change (strip_items d) with (view_items true d).
  rewrite (dget_view_items true k d Hk). by destruct (dget k d).
Qed.
Lemma attr_strip k v : k <> UNKNOWN -> attr k (strip_unknown v) = strip_unknown (attr k v).
Proof. apply (attr_view true). Qed.
(** Values equal up to unknown fields have attributes so. *)
Lemma attr_alike k v w : k <> UNKNOWN -> strip_unknown v = strip_unknown w -> strip_unknown (attr k v) = strip_unknown (attr k w).
Proof. intros Hk H. by rewrite <- !attr_strip, H. Qed.
Lemma attr_alike_str k v w t : k <> UNKNOWN -> strip_unknown v = strip_unknown w -> attr k w = VStr t -> attr k v = VStr t.
Proof. intros Hk H Hw. apply strip_str. by rewrite (attr_alike k v w Hk H), Hw. Qed.

(** Updates of items: the key, the raw value read, and the value it stands
    for. *)
Definition Update : Type := string * pyval * pyval.
Definition set_raw (us : list Update) (d : pydict) : pydict := foldr (fun u d => dset u.1.1 u.1.2 d) d us.
Definition set_new (us : list Update) (d : pydict) : pydict := foldr (fun u d => dset u.1.1 u.2 d) d us.
Fixpoint change (us : list Update) (k : string) (v : pyval) : pyval :=
  match us with [] => v | u :: us => if String.eqb k u.1.1 then u.2 else change us k v end.
Definition update_ok (c : Dataclass) (u : Update) : Prop :=
  u.1.1 <> UNKNOWN /\ exists f ty v', field u.1.1 f ty ∈ fields c /\ f u.1.2 = Ok v' /\ strip_unknown v' = strip_unknown u.2.

Lemma dget_set_raw k us d :
  (exists u, u ∈ us /\ u.1.1 = k /\ dget k (set_raw us d) = Some u.1.2 /\ forall v, change us k v = u.2) \/
  (dget k (set_raw us d) = dget k d /\ forall v, change us k v = v).
Proof.
  induction us as [|u us IH]; [by right|]. cbn. rewrite dget_dset. destruct (String.eqb_spec k u.1.1) as [->|Hne].
  - left. exists u. split_and!; [by left|done..].
  - destruct IH as [(u' & Hin & H)|H]; [left; exists u'; split; [by right|done]|by right].
Qed.

Lemma map_set k x (d : pydict) : NoDup (dkeys d) -> k ∈ dkeys d ->
  map (fun p => (p.1, if String.eqb p.1 k then x else p.2)) d = dset k x d.
Proof.
  intros Hnd Hin. induction d as [|[k0 v0] d IH]; [by apply not_elem_of_nil in Hin|].
  cbn in Hnd. apply NoDup_cons in Hnd as [Hni Hnd]. cbn [map fst snd dset]. rewrite (String.eqb_sym k k0).
  destruct (String.eqb_spec k0 k) as [->|Hk0].
  - f_equal. rewrite <- (map_id d) at 2. apply map_ext_in. intros [k1 v1] H1. cbn.
    destruct (String.eqb_spec k1 k) as [->|]; [|done]. destruct Hni. apply list_elem_of_fmap. exists (k, v1).
    by rewrite list_elem_of_In.
  - rewrite IH; [done|done|]. cbn in Hin. apply elem_of_cons in Hin as [->|]; done.
Qed.
Lemma map_change us (d : pydict) :
  NoDup (dkeys d) -> (forall u, u ∈ us -> u.1.1 ∈ dkeys d) ->
  map (fun p => (p.1, change us p.1 p.2)) d = set_new us d.
Proof.
  intros Hnd. induction us as [|u us IH]; intros Hin.
  { cbn. rewrite <- (map_id d) at 2. by apply map_ext; intros []. }
  change (set_new (u :: us) d) with (dset u.1.1 u.2 (set_new us d)).
  assert (Hd : map (fun p => (p.1, change us p.1 p.2)) d = set_new us d) by (apply IH; intros u' H'; apply Hin; by right).
  rewrite <- Hd. set (d' := map (fun p => (p.1, change us p.1 p.2)) d).
  assert (Hk : dkeys d' = dkeys d) by (unfold d', dkeys; rewrite <- list_fmap_compose; done).
  rewrite <- map_set; [|by rewrite Hk|rewrite Hk; apply Hin; by left]. unfold d'. rewrite map_map. done.
Qed.

(** A parsed object with some values replaced parses again to the object with
    the new values. *)
Lemma class_update c `{!Lawful c} b x kvs us :
  checks c = no_checks -> from_dict c x = Ok (VDict kvs) -> Forall (update_ok c) us ->
  exists s', from_dict c (VDict (set_raw us (view_items b kvs))) = Ok s' /\
    strip_unknown s' = strip_unknown (VDict (set_new us kvs)).
Proof.
  intros Hc Hx Hus. pose proof Hx as (kvs0 & [= <-] & _ & Hb)%from_dict_built.
  pose proof (built_NoDup c _ _ lawful_names Hb) as Hnd. rewrite Forall_forall in Hus.
  assert (Hname : forall u f ty, u ∈ us -> field u.1.1 f ty ∈ fields c -> u.1.1 ∈ dkeys kvs).
  { intros u f ty _ Hf. rewrite (build_names _ _ _ Hb). apply list_elem_of_fmap. by exists (field u.1.1 f ty). }
  destruct (class_substitute c x kvs (set_raw us (view_items b kvs)) (change us) Hc Hx) as (kvs' & Hp & Hs).
  - intros f v Hin Hv Hu. destruct (dget_set_raw (field_name f) us (view_items b kvs)) as [(u & Hin' & Hk & Hg & Hch)|[Hg Hch]].
    + right. destruct (Hus u Hin') as (_ & f' & ty & v' & Hf' & Hr & Hs). exists u.1.2, v'. split; [done|]. split; [|by rewrite Hch].
      assert (Hff : f = field u.1.1 f' ty).
      { pose proof (well_named_NoDup c lawful_names) as Hn. apply list_elem_of_lookup in Hin as [i Hi], Hf' as [j Hj].
        assert (i = j) as ->; [|congruence]. eapply (NoDup_lookup (names c)); [done| |].
        - unfold names. rewrite list_lookup_fmap, Hi. reflexivity.
        - unfold names. rewrite list_lookup_fmap, Hj. cbn. by rewrite Hk. }
      rewrite Hff. cbn. unfold dindex. rewrite Hk, Hg. done.
    + left. exists b. split; [|done]. rewrite Hg. by apply dget_view.
  - exists (VDict kvs'). split; [done|]. rewrite !strip_dict, Hs, map_change; [done|done|].
    intros u Hin. destruct (Hus u Hin) as (_ & f' & ty & _ & Hf' & _). by eapply Hname.
Qed.

(** Parsed objects, with what they were parsed from. *)
Lemma parsed_object c d s k c' :
  well_named c = true -> from_dict c d = Ok s -> object_field k c' ∈ fields c ->
  exists x, from_dict c' x = Ok (attr k s).
Proof.
  intros Hn (kvs & -> & _ & Hb)%from_dict_built Hin.
  pose proof (built_attr _ _ _ _ Hb (well_named_NoDup c Hn) Hin) as (x & _ & Hx)%bind_Ok. by exists x.
Qed.
Lemma parsed_objects c d s k c' :
  well_named c = true -> from_dict c d = Ok s -> objects k c' ∈ fields c ->
  exists xs os, attr k s = VList os /\ mapR (from_dict c') xs = Ok os.
Proof.
  intros Hn (kvs & -> & _ & Hb)%from_dict_built Hin.
  pose proof (built_attr _ _ _ _ Hb (well_named_NoDup c Hn) Hin) as (x & _ & (xs & _ & (os & Hos & [= Ho])%bind_Ok)%bind_Ok)%bind_Ok.
  exists xs, os. split; [exact (eq_sym Ho)|done].
Qed.

Lemma strip_items_dset k v d : k <> UNKNOWN -> strip_items (dset k v d) = dset k (strip_unknown v) (strip_items d).
Proof.
  intros Hk. induction d as [|[k0 v0] d IH].
  { cbn. destruct (String.eqb_spec k "unknown_fields"); done. }
  cbn [dset]. destruct (String.eqb_spec k k0) as [<-|Hne]; rewrite !strip_items_cons.
  - destruct (String.eqb_spec k "unknown_fields"); [done|]. cbn. by rewrite String.eqb_refl.
  - destruct (String.eqb k0 "unknown_fields"); cbn; [done|]. destruct (String.eqb_spec k k0); [done|]. by rewrite IH.
Qed.

(** [{**v, k: x}] on an object. *)
Definition set_attr (k : string) (x v : pyval) : pyval := match v with VDict d => VDict (dset k x d) | _ => v end.
Lemma attr_set_eq k x v : is_dict v = true -> attr k (set_attr k x v) = x.
Proof. intros Hv. destruct v; try discriminate Hv. cbn. unfold dget_none. by rewrite dget_dset_eq. Qed.
Lemma is_dict_set k x v : is_dict (set_attr k x v) = is_dict v.
Proof. by destruct v. Qed.
Lemma attr_set_ne k k' x v : k <> k' -> attr k (set_attr k' x v) = attr k v.
Proof. intros Hne. destruct v; try done. cbn. unfold dget_none. by rewrite dget_dset_ne. Qed.
Lemma strip_set_attr k x y v w : k <> UNKNOWN -> strip_unknown x = strip_unknown y -> strip_unknown v = strip_unknown w ->
  strip_unknown (set_attr k x v) = strip_unknown (set_attr k y w).
Proof.
  intros Hk Hx Hv. destruct v, w; try discriminate Hv; try done. cbn [set_attr].
  rewrite !strip_dict, !strip_items_dset by done. rewrite Hx. rewrite !strip_dict in Hv. injection Hv as ->. done.
Qed.

Lemma each_value_set f d d' k x y :
  each_value f (VDict d) = Ok (VDict d') -> f x = Ok y -> each_value f (VDict (dset k x d)) = Ok (VDict (dset k y d')).
Proof.
  intros (d0 & [= <-] & (e & He & [= ->])%bind_Ok)%bind_Ok Hx. unfold each_value. cbn [py_items mbind Res_bind].
  revert d' He. induction d as [|[k0 v0] d IH]; intros e; cbn [mapR dset].
  { intros [= <-]. cbn. by rewrite Hx. }
  intros (p & (z & Hz & [= <-])%bind_Ok & (ds & Hds & [= <-])%bind_Ok)%bind_Ok. cbn [fst snd dset] in *.
  destruct (String.eqb k k0) eqn:E; cbn [mapR fst snd].
  - rewrite Hx. cbn [mbind Res_bind]. rewrite Hds. cbn. apply String.eqb_eq in E as ->. done.
  - rewrite Hz. cbn [mbind Res_bind]. specialize (IH _ Hds). apply bind_Ok in IH as (ds' & Hds' & [= IH]).
    rewrite Hds'. cbn. by rewrite IH.
Qed.

Lemma dget_plain k kvs : k ∈ dkeys kvs -> k <> UNKNOWN -> dget k (strip_items kvs) = Some (strip_unknown (attr k (VDict kvs))).
Proof.
  intros Hin Hk. change (strip_items kvs) with (view_items true kvs). rewrite dget_view_items by done. cbn. unfold dget_none.
  destruct (dget k kvs) eqn:E; [done|]. by apply dget_None_keys in E.
Qed.
(** * Properties of parsing *)


(** C35: the plain form of a parsed snapshot (what is hashed and sent to
    Restore) parses again, whatever the original input was, and its plain form
    is itself: parsing is a round trip on the known fields at every depth. *)
Theorem snapshot_plain_roundtrip v s :
  parse_snapshot v = Ok s ->
  exists s', parse_snapshot (_snapshot_plain_dict s) = Ok s' /\ _snapshot_plain_dict s' = _snapshot_plain_dict s.
Proof. apply (lawful_stable true). Qed.

(** * A concrete snapshot *)

Definition rng0 : pyval :=
  VDict [("Counter", VInt 3); ("State0", VInt 1); ("State1", VInt 2); ("State2", VInt 3); ("State3", VInt 4)]%string.
Definition demo_enemy (i : string) : pyval :=
  VDict [("InstanceId", VStr i); ("Index", VInt 0); ("Name", VStr "Louse"); ("Hp", VInt 10); ("MaxHp", VInt 12);
         ("Block", VInt 0); ("IsAlive", VBool true); ("Powers", VList []); ("StateLog", VList [])]%string.
(** One enemy, and a history whose first entry names the player and [target]. *)
Definition demo_snapshot (enemy target completeness : string) : pyval :=
  VDict
    [("Metadata", VDict [("SchemaVersion", VStr "phase3c.8"); ("SnapshotId", VStr "s1"); ("StepIndex", VStr "7");
       ("CaptureBoundary", VStr "normal_player_decision"); ("Completeness", VStr completeness);
       ("UnsupportedFields", VList []); ("CapturedAtUtc", VStr "t"); ("Later", VInt 1)]);
     ("Player", VDict [("InstanceId", VStr "p1"); ("CreatureInstanceId", VStr "c1"); ("NetId", VInt 1); ("Hp", VInt 50);
       ("MaxHp", VInt 70); ("Block", VInt 0); ("Energy", VInt 3); ("MaxEnergy", VInt 3); ("Stars", VInt 0);
       ("Gold", VInt 99); ("OrbSlotCapacity", VInt 0); ("CardInstances", VList []); ("Relics", VList []);
       ("Powers", VList []); ("Potions", VList [VNone]); ("Orbs", VList []); ("Pets", VList [])]);
     ("Enemies", VList [demo_enemy "e1"; demo_enemy enemy]); ("TurnNumber", VInt 2); ("RoundNumber", VInt 2);
     ("CurrentSide", VStr "player"); ("Phase", VStr "play");
     ("Rng", VDict [("RunRng", VDict [("Shuffle", rng0)]); ("PlayerRng", VList []); ("MonsterRng", VList [])]);
     ("CombatHistory", VDict [("Entries", VList [VDict [("EntryType", VStr "CardDrawnEntry"); ("RoundNumber", VInt 1);
       ("CurrentSide", VStr "player"); ("PlayerTurnNumbers", VDict []);
       ("Fields", VDict [("TargetInstanceId", VStr target)]); ("ActorInstanceId", VStr "p1")]])]);
     ("IsTerminal", VInt 0); ("Outcome", VNone); ("Extra", VInt 5)]%string.

Definition parsed_or_none (r : Res pyval) : pyval := match r with Ok v => v | Raise _ => VNone end.
Definition demo_parsed : pyval := Eval vm_compute in parsed_or_none (parse_snapshot (demo_snapshot "e2" "e1" "complete")).
Definition demo_dangling : pyval := Eval vm_compute in parsed_or_none (parse_snapshot (demo_snapshot "e1" "e9" "complete")).

Example demo_unknown_schema :
  parse_snapshot (VDict [("Metadata", VNone)]%string) = Raise (snapshot_error
    "CombatStateSnapshot missing required field(s): ['Player', 'Enemies', 'TurnNumber', 'RoundNumber', 'CurrentSide', 'Phase', 'Rng', 'CombatHistory', 'IsTerminal', 'Outcome']").
Proof. vm_compute. reflexivity. Qed.


Lemma snapshot_plain_roundtrip_witness :
  parse_snapshot (demo_snapshot "e2" "e1" "complete") = Ok demo_parsed /\
  exists s', parse_snapshot (_snapshot_plain_dict demo_parsed) = Ok s' /\
             _snapshot_plain_dict s' = _snapshot_plain_dict demo_parsed.
Proof.
  assert (H : parse_snapshot (demo_snapshot "e2" "e1" "complete") = Ok demo_parsed) by (vm_compute; reflexivity).
  split; [exact H|exact (snapshot_plain_roundtrip _ _ H)].
Defined.
