(* ===== verification/SnapshotRefs.v ===== *)
(** The reference report and Restore eligibility of a parsed snapshot
    (Combat/combat_state_snapshot.py). *)

From S2P Require Export SnapshotLaws.

(** * References of a snapshot with string ids *)

(** Ids, entry types and the boundary are strings, as the emulator captures
    them. *)
Definition string_ids (s : pyval) : bool :=
  forallb (fun ip => is_str ip.1) (defined_ids s) &&
  forallb (fun r : Reference => is_str r.1.2 && match r.2 with Some t => is_str t | None => true end) (references s).

(** The paths at which an id is defined, and the ids in the order they first
    appear. *)
Definition paths_of (i : pyval) (l : list (pyval * string)) : list string :=
  map snd (List.filter (fun ip => py_eqb i ip.1) l).
Fixpoint first_ids (l : list (pyval * string)) (seen : list pyval) : list pyval :=
  match l with
  | [] => seen
  | (i, _) :: l => first_ids l (if existsb (py_eqb i) seen then seen else seen ++ [i])
  end.

Lemma existsb_str i l : is_str i = true -> Forall (fun v => is_str v = true) l ->
  existsb (py_eqb i) l = true <-> i ∈ l.
Proof.
  intros Hi Hl. rewrite existsb_exists. rewrite Forall_forall in Hl. split.
  - intros (j & Hj%list_elem_of_In & He). apply py_eqb_str in He as ->; auto.
  - intros H. exists i. split; [by apply list_elem_of_In|]. by apply py_eqb_str.
Qed.

Lemma add_id_map (g g' : pyval -> list string) i p ks :
  is_str i = true -> Forall (fun v => is_str v = true) ks -> NoDup ks ->
  (forall j, j ∈ ks -> j <> i -> g' j = g j) -> g' i = g i ++ [p] -> (i ∉ ks -> g i = []) ->
  add_id i p (map (fun j => (j, g j)) ks) =
  map (fun j => (j, g' j)) (if existsb (py_eqb i) ks then ks else ks ++ [i]).
Proof.
  intros Hi Hs Hnd Hg Hgi Hni. induction Hs as [|k ks Hk Hs IH]; cbn.
  { by rewrite Hgi, Hni by (by apply not_elem_of_nil). }
  apply NoDup_cons in Hnd as [Hnk Hnd]. destruct (py_eqb i k) eqn:E; cbn.
  - apply py_eqb_str in E as <-; [|done|done]. rewrite Hgi. f_equal. apply map_ext_Forall, Forall_forall.
    intros j Hj. rewrite Hg; [done|by right|]. by intros ->.
  - assert (Hne : k <> i) by (intros ->; assert (py_eqb i i = true) by (by apply py_eqb_str); congruence).
    rewrite IH; [|done| |].
    + destruct (existsb (py_eqb i) ks); cbn; by rewrite (Hg k) by (by try left).
    + intros j Hj. apply Hg. by right.
    + intros Hn. apply Hni. by apply not_elem_of_cons.
Qed.

Lemma paths_of_app i l l' : paths_of i (l ++ l') = paths_of i l ++ paths_of i l'.
Proof. unfold paths_of. by rewrite List.filter_app, map_app. Qed.
Lemma paths_of_nil i l : is_str i = true -> Forall (fun ip => is_str ip.1 = true) l -> i ∉ l.*1 -> paths_of i l = [].
Proof.
  intros Hi Hl Hni. unfold paths_of. induction Hl as [|[j p] l Hj Hl IH]; [done|]. cbn in *.
  apply not_elem_of_cons in Hni as [Hne Hni]. destruct (py_eqb i j) eqn:E; [|by apply IH].
  by apply py_eqb_str in E.
Qed.

Definition index_of (l : list (pyval * string)) (ks : list pyval) : list (pyval * list string) :=
  map (fun j => (j, paths_of j l)) ks.

(** The index built by [_collect_known_instance_ids]: each id once, with its
    paths in the order they are added. *)
Lemma index_from l done_ ks :
  Forall (fun ip => is_str ip.1 = true) (done_ ++ l) -> NoDup ks -> (forall i, i ∈ ks <-> i ∈ done_.*1) ->
  foldR (fun ids ip => _ ← hashable ip.1; Ok (add_id ip.1 ip.2 ids)) l (index_of done_ ks)
  = Ok (index_of (done_ ++ l) (first_ids l ks)).
Proof.
  revert done_ ks. induction l as [|[i p] l IH]; intros done_ ks Hs Hnd Hin; cbn [foldR first_ids].
  { by rewrite app_nil_r. }
  pose proof Hs as [Hd Hl]%Forall_app. apply Forall_cons in Hl as [Hi Hl]. cbn [fst snd] in *.
  assert (Hks : Forall (fun v => is_str v = true) ks).
  { apply Forall_forall. intros j Hj%Hin. apply list_elem_of_fmap in Hj as (ip & -> & Hip).
    rewrite Forall_forall in Hd. by apply Hd. }
  rewrite hashable_str by done. cbn [mbind Res_bind]. unfold index_of at 1.
  rewrite (add_id_map _ (fun j => paths_of j (done_ ++ [(i, p)]))); [|done|done|done| | |].
  2:{ intros j Hj Hne. rewrite paths_of_app, <- app_nil_r. f_equal. apply paths_of_nil.
      - rewrite Forall_forall in Hks. by apply Hks.
      - by apply Forall_singleton.
      - by intros ->%list_elem_of_singleton. }
  2:{ rewrite paths_of_app. f_equal. unfold paths_of. cbn. by rewrite (proj2 (py_eqb_str i i Hi Hi) eq_refl). }
  2:{ intros Hni. apply paths_of_nil; [done|done|]. by rewrite <- Hin. }
  change (map (fun j => (j, paths_of j (done_ ++ [(i, p)])))) with (index_of (done_ ++ [(i, p)])).
  rewrite IH.
  - by rewrite <- app_assoc.
  - by rewrite <- app_assoc.
  - destruct (existsb (py_eqb i) ks) eqn:E; [done|]. apply NoDup_app. split_and!; [done| |by apply NoDup_singleton].
    intros j Hj ->%list_elem_of_singleton. apply (existsb_str i ks Hi Hks) in Hj. congruence.
  - intros j. rewrite fmap_app, elem_of_app, <- Hin. change (fst <$> [(i, p)]) with [i]. rewrite list_elem_of_singleton.
    destruct (existsb (py_eqb i) ks) eqn:E.
    + apply (existsb_str i ks Hi Hks) in E. naive_solver.
    + by rewrite elem_of_app, list_elem_of_singleton.
Qed.

Lemma first_ids_NoDup l ks :
  Forall (fun ip => is_str ip.1 = true) l -> Forall (fun v => is_str v = true) ks -> NoDup ks ->
  NoDup (first_ids l ks) /\ (forall i, i ∈ first_ids l ks <-> i ∈ ks \/ i ∈ l.*1).
Proof.
  intros Hl. revert ks. induction Hl as [|[i p] l Hi Hl IH]; intros ks Hks Hnd; cbn.
  { split; [done|]. intros i. split; [by left|]. by intros [|[]%not_elem_of_nil]. }
  cbn in Hi. destruct (existsb (py_eqb i) ks) eqn:E.
  - apply (existsb_str i ks Hi Hks) in E. destruct (IH ks Hks Hnd) as [H1 H2]. split; [done|].
    intros j. rewrite H2, elem_of_cons. naive_solver.
  - destruct (IH (ks ++ [i])) as [H1 H2].
    + by apply Forall_app_2, Forall_singleton.
    + apply NoDup_app. split_and!; [done| |by apply NoDup_singleton].
      intros j Hj ->%list_elem_of_singleton. apply (existsb_str i ks Hi Hks) in Hj. congruence.
    + split; [done|]. intros j. rewrite H2, elem_of_app, list_elem_of_singleton. cbn. rewrite elem_of_cons. tauto.
Qed.

(** The ids defined more than once, and the references no defined id
    resolves. *)
Definition duplicated (s : pyval) : list pyval :=
  List.filter (fun i => Nat.ltb 1 (length (paths_of i (defined_ids s)))) (first_ids (defined_ids s) []).
Definition resolves (s : pyval) (r : Reference) : bool := existsb (fun ip => py_eqb r.1.2 ip.1) (defined_ids s).
(** The record of an unresolved reference. *)
Definition dangling (r : Reference) : DanglingReference :=
  {| field_path := r.1.1; referenced_instance_id := r.1.2; entry_type := r.2;
     cause := match r.2 with
       | Some (VStr t) => if str_in t _CONFIRMED_SOURCE_LIVE_STATE_INCONSISTENCY_ENTRY_TYPES
                          then "source_live_state_inconsistency" else "capture_bug"
       | _ => "capture_bug"
       end |}.

Lemma filter_index l ks :
  map fst (List.filter (fun ip => Nat.ltb 1 (length ip.2)) (index_of l ks)) =
  List.filter (fun i => Nat.ltb 1 (length (paths_of i l))) ks.
Proof. unfold index_of. induction ks as [|k ks IH]; [done|]. cbn - [Nat.ltb]. destruct (Nat.ltb 1 (length (paths_of k l))); cbn - [Nat.ltb]; by rewrite IH. Qed.

Lemma existsb_fst {A} (P : pyval -> bool) (l : list (pyval * A)) : existsb (fun p => P p.1) l = existsb P l.*1.
Proof. induction l as [|p l IH]; [done|]. cbn. by rewrite IH. Qed.

Lemma concat_guarded {A B} (P : A -> bool) (f : A -> B) l :
  concat (map (fun x => if P x then [] else [f x]) l) = map f (List.filter (fun x => negb (P x)) l).
Proof. induction l as [|x l IH]; [done|]. cbn. destruct (P x); cbn; by rewrite IH. Qed.

Lemma forallb_kept {A} (P Q : A -> bool) l : forallb P l = true -> forallb P (List.filter Q l) = true.
Proof.
  rewrite !forallb_forall. intros H x [Hx _]%filter_In. by apply H.
Qed.

Lemma string_ids_spec s : string_ids s = true ->
  Forall (fun ip => is_str ip.1 = true) (defined_ids s) /\
  Forall (fun r : Reference => is_str r.1.2 = true /\ match r.2 with Some t => is_str t = true | None => True end) (references s).
Proof.
  unfold string_ids. rewrite andb_true_iff, !forallb_forall. intros [H1 H2]. rewrite !Forall_forall.
  split; intros x Hx%list_elem_of_In; [by apply H1|]. specialize (H2 x Hx).
  apply andb_true_iff in H2 as [? H]. by destruct (x.2).
Qed.

Lemma first_ids_spec s : string_ids s = true ->
  NoDup (first_ids (defined_ids s) []) /\ Forall (fun v => is_str v = true) (first_ids (defined_ids s) []) /\
  forall i, i ∈ first_ids (defined_ids s) [] <-> i ∈ (defined_ids s).*1.
Proof.
  intros [Hd _]%string_ids_spec. destruct (first_ids_NoDup (defined_ids s) [] Hd) as [H1 H2]; [constructor|constructor|].
  assert (H3 : forall i, i ∈ first_ids (defined_ids s) [] <-> i ∈ (defined_ids s).*1).
  { intros i. rewrite H2. split; [by intros [[]%not_elem_of_nil|]|by right]. }
  split_and!; [done| |done]. apply Forall_forall. intros i Hi%H3. apply list_elem_of_fmap in Hi as (ip & -> & Hip).
  rewrite Forall_forall in Hd. by apply Hd.
Qed.

(** The report of a snapshot with string ids. *)
Lemma report_of_strings s : string_ids s = true ->
  validate_snapshot_references s = Ok
    {| duplicate_instance_ids := sort_by id_leb (duplicated s);
       dangling_references := map dangling (List.filter (fun r => negb (resolves s r)) (references s)) |}.
Proof.
  intros Hs. destruct (string_ids_spec s Hs) as [Hd Hr], (first_ids_spec s Hs) as (Hnd & Hfs & Hin).
  unfold validate_snapshot_references, _collect_known_instance_ids.
  pose proof (index_from (defined_ids s) [] [] Hd (NoDup_nil_2) ltac:(done)) as E. cbn [app index_of map] in E.
  rewrite E. cbn [mbind Res_bind]. rewrite filter_index. fold (duplicated s).
  assert (Hstr : forallb is_str (duplicated s) = true).
  { apply forallb_kept, forallb_forall. intros i Hi%list_elem_of_In. rewrite Forall_forall in Hfs. by apply Hfs. }
  unfold sorted_ids. rewrite Hstr. cbn [orb mbind Res_bind].
  rewrite (mapR_Ok _ (fun r => if resolves s r then [] else [dangling r])).
  { cbn [mbind Res_bind]. by rewrite concat_guarded. }
  apply Forall_forall. intros [[path i] ty] Hin'. rewrite Forall_forall in Hr. specialize (Hr _ Hin') as [Hi Hty].
  cbn [fst snd] in *. unfold check_reference, is_known. rewrite hashable_str by done. cbn [mbind Res_bind].
  assert (Ek : existsb (fun jp : pyval * list string => py_eqb i jp.1) (index_of (defined_ids s) (first_ids (defined_ids s) []))
               = resolves s (path, i, ty)).
  { apply eq_true_iff_eq. unfold resolves. cbn [fst snd]. rewrite !(existsb_fst (py_eqb i)).
    unfold index_of. rewrite map_map. cbn [fst]. rewrite map_id.
    rewrite !existsb_str; [apply Hin|done| |done|done].
    rewrite Forall_fmap. exact Hd. }
  rewrite Ek. destruct (resolves s (path, i, ty)); [done|]. unfold dangling. cbn [fst snd].
  destruct ty as [t|]; [|done]. apply is_str_eq in Hty as [t' ->]. done.
Qed.

Lemma paths_of_cons i j p l : paths_of i ((j, p) :: l) = (if py_eqb i j then [p] else []) ++ paths_of i l.
Proof. unfold paths_of. cbn. by destruct (py_eqb i j). Qed.

Lemma paths_of_unique l : Forall (fun ip => is_str ip.1 = true) l ->
  (forall i, i ∈ l.*1 -> (length (paths_of i l) <= 1)%nat) <-> NoDup l.*1.
Proof.
  induction 1 as [|[j p] l Hj Hl IH]; cbn [fmap list_fmap fst snd] in *.
  { split; [constructor|]. by intros _ i Hi%not_elem_of_nil. }
  assert (Hstr : forall i, i ∈ l.*1 -> is_str i = true).
  { intros i (ip & -> & Hip)%list_elem_of_fmap. rewrite Forall_forall in Hl. by apply Hl. }
  assert (Hpos : forall i, i ∈ l.*1 -> (0 < length (paths_of i l))%nat).
  { clear IH. intros i Hi. unfold paths_of. rewrite length_map. induction Hl as [|[k q] l Hk Hl IH]; [by apply not_elem_of_nil in Hi|].
    cbn in Hk, Hi |- *. destruct (py_eqb i k) eqn:E; cbn; [lia|]. apply elem_of_cons in Hi as [->|Hi].
    - by rewrite (proj2 (py_eqb_str k k Hk Hk) eq_refl) in E.
    - apply IH; [|done]. intros x Hx. apply Hstr. cbn. by right. }
  rewrite NoDup_cons, <- IH. split.
  - intros H. split.
    + intros Hin. specialize (H j ltac:(by left)). rewrite paths_of_cons, (proj2 (py_eqb_str j j Hj Hj) eq_refl) in H.
      specialize (Hpos j Hin). cbn in H. lia.
    + intros i Hi. specialize (H i ltac:(by right)). rewrite paths_of_cons, length_app in H. lia.
  - intros [Hni Hle] i [->|Hi]%elem_of_cons; rewrite paths_of_cons.
    + rewrite (paths_of_nil j l), app_nil_r by done. by destruct (py_eqb j j); cbn; lia.
    + destruct (py_eqb i j) eqn:E; [|by apply Hle]. apply py_eqb_str in E as ->; [done|by apply Hstr|done].
Qed.

Lemma duplicated_elem s i : string_ids s = true ->
  i ∈ duplicated s <-> (2 <= length (paths_of i (defined_ids s)))%nat /\ i ∈ (defined_ids s).*1.
Proof.
  intros Hs. destruct (first_ids_spec s Hs) as (_ & _ & Hin). unfold duplicated.
  rewrite list_elem_of_In, filter_In, <- list_elem_of_In, Hin, Nat.ltb_lt. split; intros []; split; auto; lia.
Qed.
Lemma duplicated_nil s : string_ids s = true -> duplicated s = [] <-> NoDup (defined_ids s).*1.
Proof.
  intros Hs. rewrite <- paths_of_unique by by apply string_ids_spec. split.
  - intros E i Hi. destruct (decide (2 <= length (paths_of i (defined_ids s)))%nat) as [H|H]; [|lia].
    assert (Hin : i ∈ duplicated s) by by apply duplicated_elem. rewrite E in Hin. by apply not_elem_of_nil in Hin.
  - intros H. destruct (duplicated s) as [|i l] eqn:E; [done|].
    assert (Hin : i ∈ duplicated s) by (rewrite E; by left). apply duplicated_elem in Hin as [H2 Hin]; [|done].
    specialize (H i Hin). lia.
Qed.

Lemma filter_nil {A} (P : A -> bool) l : List.filter P l = [] <-> Forall (fun x => P x = false) l.
Proof.
  induction l as [|x l IH]; [split; constructor|]. cbn. rewrite Forall_cons.
  destruct (P x); [split; [discriminate|by intros [? _]]|]. rewrite IH. naive_solver.
Qed.
Lemma unresolved_nil s : string_ids s = true ->
  List.filter (fun r => negb (resolves s r)) (references s) = [] <->
  Forall (fun r : Reference => r.1.2 ∈ (defined_ids s).*1) (references s).
Proof.
  intros [Hd Hr]%string_ids_spec. rewrite filter_nil, !Forall_forall. rewrite Forall_forall in Hr.
  assert (H : forall r, r ∈ references s -> negb (resolves s r) = false <-> r.1.2 ∈ (defined_ids s).*1).
  { intros r Hin. rewrite negb_false_iff. unfold resolves. rewrite existsb_fst. apply existsb_str.
    - by apply Hr.
    - by rewrite Forall_fmap. }
  split; intros Ha r Hin; apply H; auto.
Qed.

(** The metadata of a parsed snapshot: its boundary is a string. *)
Lemma parsed_boundary v s :
  parse_snapshot v = Ok s -> is_str (attr "CaptureBoundary" (attr "Metadata" s)) = true.
Proof.
  intros ([] & _ & ([] & _ & Hb)%bind_Ok)%bind_Ok.
  pose proof (built_attr _ _ _ (object_field "Metadata" SnapshotMetadata) Hb
    (well_named_NoDup CombatStateSnapshot eq_refl) ltac:(by left)) as (m & _ & Hm)%bind_Ok. cbn [field_name object_field field] in Hm.
  apply bind_Ok in Hm as ([] & _ & ([] & Hc & Hmb)%bind_Ok).
  pose proof (built_attr _ _ _ (raw_field "CaptureBoundary") Hmb (well_named_NoDup SnapshotMetadata eq_refl)
    ltac:(apply (list_elem_of_lookup_2 _ 3%nat); reflexivity)) as Hr%raw_field_read. cbn [field_name raw_field field] in Hr.
  apply bind_Ok in Hc as ([] & _ & ([] & _ & (b & Hb' & _)%check_member_str)%bind_Ok).
  rewrite Hr in Hb'. injection Hb' as ->. done.
Qed.

(** a snapshot is accepted as a Restore input exactly when the emulator
    called it complete, it was captured at an ordinary player decision, no
    instance id is defined twice, and every reference (history actors and
    fields, power owners, appliers, targets and cards, pet and rng owners)
    names a defined id; otherwise reasons are given, one per failed gate. *)
Theorem restore_eligibility_exact v s :
  parse_snapshot v = Ok s -> string_ids s = true ->
  exists ok reasons, restore_input_eligibility s = Ok (ok, reasons) /\
    (ok = true <-> reasons = []) /\
    (ok = true <-> completeness_is_complete s = true /\
       attr "CaptureBoundary" (attr "Metadata" s) = VStr "normal_player_decision" /\
       NoDup (defined_ids s).*1 /\
       Forall (fun r : Reference => r.1.2 ∈ (defined_ids s).*1) (references s)).
Proof.
  intros Hp Hs. destruct (py_in_set_str RESTORE_ELIGIBLE_CAPTURE_BOUNDARY_VALUES _ (parsed_boundary _ _ Hp)) as (b & Eb & Hb).
  unfold restore_input_eligibility, capture_boundary_is_restore_eligible. rewrite Hb. cbn [mbind Res_bind].
  rewrite (report_of_strings s Hs). cbn [mbind Res_bind duplicate_instance_ids dangling_references].
  eexists _, _. split; [reflexivity|]. rewrite Eb, <- (duplicated_nil s Hs), <- (unresolved_nil s Hs). split; [by rewrite Nat.eqb_eq, length_zero_iff_nil|].
  rewrite Nat.eqb_eq, length_zero_iff_nil. cbn [str_in RESTORE_ELIGIBLE_CAPTURE_BOUNDARY_VALUES].
  pose proof (sort_by_Permutation id_leb (duplicated s)) as Hperm.
  set (us := List.filter _ (references s)). destruct (completeness_is_complete s); [|split; [discriminate|by intros [? _]]].
  destruct (str_in b RESTORE_ELIGIBLE_CAPTURE_BOUNDARY_VALUES) eqn:E; cbn [app].
  - apply str_in_elem, list_elem_of_singleton in E as ->.
    destruct (sort_by id_leb (duplicated s)) eqn:Ed.
    + apply Permutation_nil in Hperm as ->. destruct us; cbn; naive_solver.
    + split; [discriminate|]. intros (_ & _ & E' & _). by rewrite E' in Ed.
  - split; [discriminate|]. intros (_ & [= ->] & _). discriminate E.
Qed.

(** the reference report is exact: it lists, sorted and once each, the ids
    defined at two paths or more, and, in traversal order, exactly the
    references whose id is defined nowhere, each with its cause (a draw or a
    generation entry is an inconsistency of the live state, anything else a
    capture bug). *)
Theorem reference_report_exact s :
  string_ids s = true ->
  exists r, validate_snapshot_references s = Ok r /\
    StronglySorted (fun x y => id_leb x y = true) (duplicate_instance_ids r) /\
    NoDup (duplicate_instance_ids r) /\
    (forall i, i ∈ duplicate_instance_ids r <->
       i ∈ (defined_ids s).*1 /\ (2 <= length (paths_of i (defined_ids s)))%nat) /\
    dangling_references r =
      map dangling (List.filter (fun ref => negb (bool_decide (ref.1.2 ∈ (defined_ids s).*1))) (references s)).
Proof.
  intros Hs. pose proof Hs as [Hd Hr]%string_ids_spec. destruct (first_ids_spec s Hs) as (Hnd & Hstr & _).
  eexists. split; [by apply report_of_strings|]. cbn [duplicate_instance_ids dangling_references]. split_and!.
  - apply (sort_by_sorted_on _ (fun v => is_str v = true)).
    + intros x y (a & ->)%is_str_eq (b & ->)%is_str_eq. apply String.leb_total.
    + intros x y z (a & ->)%is_str_eq (b & ->)%is_str_eq (c & ->)%is_str_eq. apply str_leb_trans.
    + apply Forall_forall. intros i [Hi _]%list_elem_of_In%filter_In. rewrite Forall_forall in Hstr.
      by apply Hstr, list_elem_of_In.
  - rewrite sort_by_Permutation. apply NoDup_ListNoDup, List.NoDup_filter, NoDup_ListNoDup, Hnd.
  - intros i. rewrite elem_of_sort_by, duplicated_elem by done. tauto.
  - f_equal. apply filter_ext_in. intros r Hin%list_elem_of_In. f_equal. apply eq_true_iff_eq.
    rewrite bool_decide_eq_true. unfold resolves. rewrite existsb_fst. rewrite Forall_forall in Hr.
    apply existsb_str; [by apply Hr|by rewrite Forall_fmap].
Qed.

Example demo_accepted : restore_input_eligibility demo_parsed = Ok (true, []).
Proof. vm_compute. reflexivity. Qed.
Example demo_refused : restore_input_eligibility demo_dangling =
  Ok (false, ["duplicate_instance_ids=['e1']"; "dangling_references=1 (see validate_snapshot_references for detail)"]%string).
Proof. vm_compute. reflexivity. Qed.
Lemma restore_eligibility_exact_witness :
  parse_snapshot (demo_snapshot "e1" "e9" "complete") = Ok demo_dangling /\ string_ids demo_dangling = true /\
  exists ok reasons, restore_input_eligibility demo_dangling = Ok (ok, reasons) /\
    (ok = true <-> reasons = []) /\
    (ok = true <-> completeness_is_complete demo_dangling = true /\
       attr "CaptureBoundary" (attr "Metadata" demo_dangling) = VStr "normal_player_decision" /\
       NoDup (defined_ids demo_dangling).*1 /\
       Forall (fun r : Reference => r.1.2 ∈ (defined_ids demo_dangling).*1) (references demo_dangling)).
Proof.
  assert (H : parse_snapshot (demo_snapshot "e1" "e9" "complete") = Ok demo_dangling) by (vm_compute; reflexivity).
  assert (Hs : string_ids demo_dangling = true) by (vm_compute; reflexivity).
  split; [exact H|]. split; [exact Hs|exact (restore_eligibility_exact _ _ H Hs)].
Defined.

Lemma reference_report_exact_witness :
  string_ids demo_dangling = true /\
  exists r, validate_snapshot_references demo_dangling = Ok r /\
    StronglySorted (fun x y => id_leb x y = true) (duplicate_instance_ids r) /\
    NoDup (duplicate_instance_ids r) /\
    (forall i, i ∈ duplicate_instance_ids r <->
       i ∈ (defined_ids demo_dangling).*1 /\ (2 <= length (paths_of i (defined_ids demo_dangling)))%nat) /\
    dangling_references r =
      map dangling (List.filter (fun ref => negb (bool_decide (ref.1.2 ∈ (defined_ids demo_dangling).*1))) (references demo_dangling)).
Proof.
  assert (Hs : string_ids demo_dangling = true) by (vm_compute; reflexivity).
  split; [exact Hs|exact (reference_report_exact _ Hs)].
Defined.
