(* ===== verification/DrawEvidence.v ===== *)
(** Draw order already observed in public replay state
    (Combat/search/replay_draw_restore.py). *)

From S2P Require Export BattleState Counter.

(** An enchantment signature: id, amount, status. *)
Definition enchantment_key : Type := string * Z * string.

Record ObservableCardKey := {
  ck_id : string;
  ck_type : string;
  ck_rarity : string;
  ck_cost : Z;
  ck_target_type : string;
  ck_upgraded : bool;
  ck_upgrade_level : Z;
  ck_tinker_type : option string;
  ck_tinker_rider : option string;
  ck_enchantment : option enchantment_key;
}.

#[global] Instance ObservableCardKey_eq_dec : EqDecision ObservableCardKey.
Proof. solve_decision. Defined.

Definition key_eqb (x y : ObservableCardKey) : bool := bool_decide (x = y).

Lemma key_eqb_spec x y : key_eqb x y = true ↔ x = y.
Proof. apply bool_decide_eq_true. Qed.

Abbreviation VisibleDrawConstraints := (list (Z * ObservableCardKey)).

Record VisibleDrawTransitionEvidence := {
  constraints : VisibleDrawConstraints;
  blocks_later_pinning : bool;
  tracking_error : option string;
}.

(** [isinstance(v, int)] and not a boolean. *)
Definition strict_int (v : pyval) : option Z := match v with VInt z => Some z | _ => None end.
Definition str_of (v : pyval) : option string := match v with VStr s => Some s | _ => None end.
Definition nonempty_str (v : pyval) : option string :=
  match v with VStr ""%string => None | VStr s => Some s | _ => None end.
(** [None] or a string, as an optional string. *)
Definition str_or_none (v : pyval) : option (option string) :=
  match v with VNone => Some None | VStr s => Some (Some s) | _ => None end.

(** [None] is the pair [(False, None)] of the source, [Some k] is [(True, k)]. *)
Definition _enchantment_key (value : pyval) : option (option enchantment_key) :=
  match value with
  | VNone => Some None
  | VDict d =>
      if negb (Nat.eqb (length d) 3 && dmem "id" d && dmem "amount" d && dmem "status" d)
      then None
      else
        i ← nonempty_str (dget_none "id" d);
        a ← strict_int (dget_none "amount" d);
        s ← nonempty_str (dget_none "status" d);
        Some (Some (i, a, s))
  | _ => None
  end.

Definition observable_card_key_from_public (card : pyval) : option ObservableCardKey :=
  match card with
  | VDict d =>
      if negb (dmem "upgraded" d && dmem "upgradeLevel" d) then None
      else
        enchantment ← _enchantment_key (dget_none "enchantment" d);
        card_id ← nonempty_str (dget_none "id" d);
        card_type ← str_of (dget_none "type" d);
        rarity ← str_of (dget_none "rarity" d);
        target_type ← str_of (dget_none "targetType" d);
        cost ← strict_int (dget_none "cost" d);
        upgraded ← match dget_none "upgraded" d with VBool b => Some b | _ => None end;
        upgrade_level ← strict_int (dget_none "upgradeLevel" d);
        tinker_type ← str_or_none (dget_none "tinkerTimeType" d);
        tinker_rider ← str_or_none (dget_none "tinkerTimeRider" d);
        Some {| ck_id := card_id; ck_type := card_type; ck_rarity := rarity; ck_cost := cost;
                ck_target_type := target_type; ck_upgraded := upgraded;
                ck_upgrade_level := upgrade_level; ck_tinker_type := tinker_type;
                ck_tinker_rider := tinker_rider; ck_enchantment := enchantment |}
  | _ => None
  end.

Definition card_id_from_observable_key (key : ObservableCardKey) : string := ck_id key.

Definition _keys_from_public_cards (cards : pyval) : option (list ObservableCardKey) :=
  match cards with
  | VList l => mapM observable_card_key_from_public l
  | _ => None
  end.

Definition _counter_subset (left right : list (ObservableCardKey * Z)) : bool :=
  forallb (fun kn => kn.2 <=? counter_get key_eqb kn.1 right) left.

Definition Counter : list ObservableCardKey -> list (ObservableCardKey * Z) :=
  counter_of key_eqb.

Definition _draw_multiset_changed (pre_state post_state : BattleState) : bool :=
  match _keys_from_public_cards (dget_none "drawPile" (engine_state pre_state)),
        _keys_from_public_cards (dget_none "drawPile" (engine_state post_state)) with
  | Some pre_keys, Some post_keys => negb (counter_eqb key_eqb (Counter pre_keys) (Counter post_keys))
  | _, _ => true
  end.

Definition _matches_one_card_consumed (pre_hand surviving_prefix : list ObservableCardKey) : bool :=
  if negb (Nat.eqb (length pre_hand) (length surviving_prefix + 1)) then false
  else existsb (fun index => bool_decide (take index pre_hand ++ drop (S index) pre_hand
                                          = surviving_prefix))
         (seq 0 (length pre_hand)).

Definition _visible_hand_draw_sequence (pre_state post_state : BattleState) :
    option (list ObservableCardKey) :=
  let pre_engine := engine_state pre_state in
  let post_engine := engine_state post_state in
  pre_draw ← _keys_from_public_cards (dget_none "drawPile" pre_engine);
  post_draw ← _keys_from_public_cards (dget_none "drawPile" post_engine);
  pre_hand ← _keys_from_public_cards (dget_none "hand" pre_engine);
  post_hand ← _keys_from_public_cards (dget_none "hand" post_engine);
  let d0 := Counter pre_draw in
  let d1 := Counter post_draw in
  if negb (_counter_subset d1 d0) then None
  else
    let removed := counter_sub key_eqb d0 d1 in
    match removed with
    | [] => Some []
    | _ =>
        let draw_count := Z.to_nat (counter_total removed) in
        if Nat.ltb (length post_hand) draw_count then None
        else
          let surviving_prefix := take (length post_hand - draw_count) post_hand in
          let drawn_suffix := drop (length post_hand - draw_count) post_hand in
          if negb (counter_eqb key_eqb (Counter drawn_suffix) removed) then None
          else if negb (_matches_one_card_consumed pre_hand surviving_prefix) then None
          else Some drawn_suffix
    end.

Definition unexplained_mutation : string :=
  "observed DrawPile mutation was not explained by one-card Hand consumption followed by appending exactly the removed observable cards".
Definition already_blocked : string :=
  "draw tracking was already blocked by an earlier Replay Prefix transition".

Fixpoint number_from {A} (cursor : Z) (l : list A) : list (Z * A) :=
  match l with [] => [] | x :: l' => (cursor, x) :: number_from (cursor + 1) l' end.

Section Evidence.
(** The two attributes read off a replay prefix entry. *)
Context {Entry : Type} (tracking_blocked : Entry -> bool)
  (entry_constraints : Entry -> VisibleDrawConstraints).

Definition visible_draw_transition_evidence_from_committed_transition
    (post_state : BattleState) (replay_prefix : list Entry) (pre_battle_state : BattleState) :
    VisibleDrawTransitionEvidence :=
  if existsb tracking_blocked replay_prefix
  then {| constraints := []; blocks_later_pinning := true; tracking_error := Some already_blocked |}
  else match _visible_hand_draw_sequence pre_battle_state post_state with
  | None =>
      let changed := _draw_multiset_changed pre_battle_state post_state in
      {| constraints := []; blocks_later_pinning := changed;
         tracking_error := if changed then Some unexplained_mutation else None |}
  | Some [] => {| constraints := []; blocks_later_pinning := false; tracking_error := None |}
  | Some sequence =>
      let cursor := foldr (fun entry n => Z.of_nat (length (entry_constraints entry)) + n) 0
                      replay_prefix in
      {| constraints := number_from cursor sequence;
         blocks_later_pinning := false; tracking_error := None |}
  end.
End Evidence.

(** * Lemmas *)

Lemma counter_subset_spec a b :
  _counter_subset (Counter b) (Counter a) = true ↔ exists l, a ≡ₚ b ++ l.
Proof.
  unfold _counter_subset, Counter. rewrite forallb_forall.
  destruct (counter_of_keys key_eqb key_eqb_spec b) as [Hnd Hk]. split.
  - intros H. apply (occurs_le_split key_eqb key_eqb_spec). intros k.
    rewrite <- !(counter_get_of key_eqb key_eqb_spec).
    destruct (existsb (fun x => key_eqb x k) (counter_of key_eqb b).*1) eqn:E.
    + apply existsb_elem, list_elem_of_fmap in E as ([k' n] & -> & Hin); [|apply key_eqb_spec].
      simpl. rewrite (counter_get_entry _ key_eqb_spec k' n _ Hnd Hin).
      apply Z.leb_le. exact (H _ (proj1 (list_elem_of_In _ _) Hin)).
    + apply existsb_not_elem in E; [|apply key_eqb_spec].
      rewrite (counter_get_absent _ key_eqb_spec k _ E), (counter_get_of _ key_eqb_spec).
      apply occurs_nonneg.
  - intros [l Hp] [k n] Hin%list_elem_of_In. simpl. apply Z.leb_le.
    rewrite <- (counter_get_entry _ key_eqb_spec k n _ Hnd Hin), !(counter_get_of _ key_eqb_spec),
      (occurs_Permutation key_eqb k _ _ Hp), occurs_app.
    pose proof (occurs_nonneg key_eqb k l). lia.
Qed.

Lemma counter_sub_suffix a b l s :
  a ≡ₚ b ++ l ->
  counter_eqb key_eqb (Counter s) (counter_sub key_eqb (Counter a) (Counter b)) = true ↔ s ≡ₚ l.
Proof.
  intros Hp. unfold Counter. rewrite <- (counter_eqb_spec key_eqb key_eqb_spec).
  pose proof (counter_of_keys key_eqb key_eqb_spec a) as [Ha _].
  pose proof (counter_of_keys key_eqb key_eqb_spec s) as [Hs _].
  pose proof (counter_of_keys key_eqb key_eqb_spec l) as [Hl _].
  destruct (counter_sub_keys key_eqb _ (counter_of key_eqb b) Ha) as [Hd _].
  rewrite !(counter_eqb_get key_eqb key_eqb_spec) by done.
  pose proof (fun k => counter_Permutation_get key_eqb key_eqb_spec k _ _ Hd
                (counter_sub_spec key_eqb key_eqb_spec a b l Hp)) as Hg.
  split; intros H k; rewrite H; [by rewrite <- Hg|by rewrite Hg].
Qed.

Lemma matches_one_card_consumed_spec h s :
  _matches_one_card_consumed h s = true ↔ exists a c b, h = a ++ c :: b /\ s = a ++ b.
Proof.
  unfold _matches_one_card_consumed. split.
  - destruct (Nat.eqb_spec (length h) (length s + 1)) as [Hl|]; simpl; [|done].
    intros (i & Hi%in_seq & Heq%bool_decide_eq_true)%existsb_exists. subst s.
    destruct (lookup_lt_is_Some_2 h i) as [c Hc]; [lia|].
    exists (take i h), c, (drop (S i) h). split; [|done]. symmetry. by apply take_drop_middle.
  - intros (a & c & b & -> & ->). rewrite !length_app. simpl.
    replace (Nat.eqb _ _) with true by (symmetry; apply Nat.eqb_eq; lia). simpl.
    apply existsb_exists. exists (length a). rewrite in_seq. simpl. split; [lia|].
    apply bool_decide_eq_true. rewrite take_app_length. f_equal.
    rewrite (cons_middle c a b), app_assoc. apply drop_app_length'. rewrite length_app. simpl. lia.
Qed.

Lemma counter_sub_nil a b l :
  a ≡ₚ b ++ l -> counter_sub key_eqb (Counter a) (Counter b) = [] ↔ l = [].
Proof.
  intros Hp. assert (Hc := counter_sub_spec key_eqb key_eqb_spec a b l Hp). split.
  - intros H. unfold Counter in H. rewrite H in Hc.
    pose proof (counter_total_of key_eqb l) as Ht.
    rewrite <- (counter_total_Permutation _ _ Hc) in Ht. destruct l; [done|]. simpl in Ht. lia.
  - intros ->. by apply Permutation_nil_r.
Qed.

(** The parsed public zones of a state. *)
Definition draw_keys (s : BattleState) : option (list ObservableCardKey) :=
  _keys_from_public_cards (dget_none "drawPile" (engine_state s)).
Definition hand_keys (s : BattleState) : option (list ObservableCardKey) :=
  _keys_from_public_cards (dget_none "hand" (engine_state s)).

(** The transition shape the code recognizes: the draw pile lost exactly
    [drawn]; if it lost anything, one card left the hand and [drawn] was
    appended to it. *)
Definition draw_transfer (d0 d1 h0 h1 drawn : list ObservableCardKey) : Prop :=
  d0 ≡ₚ d1 ++ drawn /\
  (drawn = [] \/ exists a c b, h0 = a ++ c :: b /\ h1 = (a ++ b) ++ drawn).

Lemma visible_draw_shape pre post drawn :
  _visible_hand_draw_sequence pre post = Some drawn ↔
  exists d0 d1 h0 h1, draw_keys pre = Some d0 /\ draw_keys post = Some d1 /\
    hand_keys pre = Some h0 /\ hand_keys post = Some h1 /\ draw_transfer d0 d1 h0 h1 drawn.
Proof.
  unfold _visible_hand_draw_sequence. fold (draw_keys pre) (draw_keys post) (hand_keys pre) (hand_keys post).
  destruct (draw_keys pre) as [d0|]; simpl; [|naive_solver].
  destruct (draw_keys post) as [d1|]; simpl; [|naive_solver].
  destruct (hand_keys pre) as [h0|]; simpl; [|naive_solver].
  destruct (hand_keys post) as [h1|]; simpl; [|naive_solver].
  trans (draw_transfer d0 d1 h0 h1 drawn); [|naive_solver].
  destruct (_counter_subset (Counter d1) (Counter d0)) eqn:Es; simpl.
  2:{ split; [done|]. intros [Hp _]. apply not_true_iff_false in Es.
      destruct Es. apply counter_subset_spec. by exists drawn. }
  apply counter_subset_spec in Es as [l Hl].
  pose proof (counter_sub_nil d0 d1 l Hl) as Hnil.
  pose proof (counter_total_sub key_eqb key_eqb_spec d0 d1 l Hl) as Htot. fold Counter in Htot.
  pose proof (fun s => counter_sub_suffix d0 d1 l s Hl) as Hsuf.
  assert (Hdl : forall s, d0 ≡ₚ d1 ++ s ↔ s ≡ₚ l).
  { intros s. rewrite Hl. split; [|by intros ->]. intros H. symmetry.
    by apply Permutation_app_inv_l in H. }
  unfold draw_transfer. rewrite Hdl.
  destruct (counter_sub key_eqb (Counter d0) (Counter d1)) as [|e r].
  { rewrite (proj1 Hnil eq_refl). split; [|by intros [->%Permutation_nil_r _]].
    intros [= <-]. auto. }
  assert (Hne : l ≠ []) by (intros Hl0; by apply Hnil in Hl0). clear Hnil.
  rewrite Htot, Nat2Z.id. clear Htot.
  assert (Hlen : drawn ≡ₚ l -> drawn ≠ [] /\ length drawn = length l).
  { intros Hp. split; [|by rewrite Hp]. intros ->. by apply Permutation_nil_l in Hp. }
  destruct (Nat.ltb_spec (length h1) (length l)) as [Hlt|Hge].
  { split; [done|]. intros [[Hd Hn]%Hlen [?|(a & c & b & _ & ->)]]; [done|].
    rewrite !length_app in Hlt. lia. }
  set (n := (length h1 - length l)%nat).
  destruct (counter_eqb key_eqb (Counter (drop n h1)) (e :: r)) eqn:Ec; simpl.
  - apply Hsuf in Ec.
    destruct (_matches_one_card_consumed h0 (take n h1)) eqn:Em; simpl.
    + apply matches_one_card_consumed_spec in Em as (a & c & b & -> & Ht). split.
      * intros [= <-]. split; [done|]. right. exists a, c, b. split; [done|].
        rewrite <- Ht. by rewrite take_drop.
      * intros [[Hd Hn]%Hlen [?|(a' & c' & b' & _ & ->)]]; [done|]. f_equal.
        apply drop_app_length'. subst n. rewrite !length_app. lia.
    + split; [done|]. intros [[Hd Hn]%Hlen [?|(a' & c' & b' & -> & ->)]]; [done|].
      apply not_true_iff_false in Em. destruct Em. apply matches_one_card_consumed_spec.
      exists a', c', b'. split; [done|]. apply take_app_length'. subst n. rewrite !length_app. lia.
  - split; [done|]. intros [Hp [->|(a' & c' & b' & -> & ->)]]; [by destruct (Hlen Hp)|].
    apply not_true_iff_false in Ec. destruct Ec. apply Hsuf. destruct (Hlen Hp) as [_ Hn].
    rewrite drop_app_length'; [done|]. subst n. rewrite !length_app. lia.
Qed.

(** [_visible_hand_draw_sequence] reports a drawn sequence exactly when
    the four public zones parse and the transition is one hand card consumed
    with exactly the cards missing from the draw pile (as a multiset) appended
    to the hand, in the appended order; it reports the empty sequence when the
    draw pile did not change. *)
Theorem visible_hand_draw_sequence_exact pre post drawn :
  _visible_hand_draw_sequence pre post = Some drawn ↔
  exists d0 d1 h0 h1, draw_keys pre = Some d0 /\ draw_keys post = Some d1 /\
    hand_keys pre = Some h0 /\ hand_keys post = Some h1 /\ draw_transfer d0 d1 h0 h1 drawn.
Proof. apply visible_draw_shape. Qed.

(** * Evidence along a replay prefix *)

Lemma visible_hand_draw_seq_parse pre post drawn :
  _visible_hand_draw_sequence pre post = Some drawn ->
  exists d0 d1, draw_keys pre = Some d0 /\ draw_keys post = Some d1 /\ d0 ≡ₚ d1 ++ drawn.
Proof.
  rewrite visible_draw_shape. intros (d0 & d1 & h0 & h1 & ? & ? & _ & _ & Hp & _).
  by exists d0, d1.
Qed.

(** What a committed step records (main_loop.py, combat_phase.py): the
    constraints and the blocked flag of its evidence. *)
Abbreviation draw_entry := (VisibleDrawConstraints * bool)%type.
Definition transition_evidence (prefix : list draw_entry) (pre post : BattleState) :
    VisibleDrawTransitionEvidence :=
  visible_draw_transition_evidence_from_committed_transition snd fst post prefix pre.
Definition record_step (prefix : list draw_entry) (pre post : BattleState) : list draw_entry :=
  let e := transition_evidence prefix pre post in
  prefix ++ [(constraints e, blocks_later_pinning e)].

(** The replay prefix of a run through [states], starting at [s]. *)
Fixpoint replay_prefix_of (prefix : list draw_entry) (s : BattleState) (states : list BattleState) :
    list draw_entry :=
  match states with
  | [] => prefix
  | s' :: rest => replay_prefix_of (record_step prefix s s') s' rest
  end.

Definition all_constraints (prefix : list draw_entry) : VisibleDrawConstraints :=
  concat (map fst prefix).

Lemma number_from_app {A} c (l1 l2 : list A) :
  number_from c (l1 ++ l2) = number_from c l1 ++ number_from (c + Z.of_nat (length l1)) l2.
Proof.
  revert c. induction l1 as [|x l1 IH]; intros c; simpl; [by rewrite Z.add_0_r|].
  rewrite IH. replace (c + 1 + Z.of_nat (length l1)) with (c + Z.of_nat (S (length l1))) by lia. done.
Qed.

Lemma length_number_from {A} c (l : list A) : length (number_from c l) = length l.
Proof. revert c. induction l as [|x l IH]; intros c; simpl; [done|by rewrite IH]. Qed.

Lemma cursor_length (prefix : list draw_entry) :
  foldr (fun entry n => Z.of_nat (length (fst entry)) + n) 0 prefix
  = Z.of_nat (length (all_constraints prefix)).
Proof.
  unfold all_constraints. induction prefix as [|e p IH]; [done|]. simpl.
  rewrite length_app, Nat2Z.inj_add, <- IH. done.
Qed.

Lemma all_constraints_snoc prefix (e : draw_entry) :
  all_constraints (prefix ++ [e]) = all_constraints prefix ++ fst e.
Proof. unfold all_constraints. rewrite map_app, concat_app. simpl. by rewrite app_nil_r. Qed.

Lemma last_state_cons (s s' : BattleState) rest : List.last (s' :: rest) s = List.last rest s'.
Proof.
  revert s s'. induction rest as [|x r IH]; intros s s'; [done|].
  transitivity (List.last r x); [exact (IH s x)|exact (eq_sym (IH s' x))].
Qed.

(** One step: either the prefix is blocked from here on, without new
    constraints, or the draw pile's loss is exactly the new constraints. *)
Lemma record_step_cases prefix pre post :
  existsb snd prefix = false ->
  let e := transition_evidence prefix pre post in
  blocks_later_pinning e = false ->
  exists d0 d1 drawn, draw_keys pre = Some d0 /\ draw_keys post = Some d1 /\
    d0 ≡ₚ d1 ++ drawn /\
    constraints e = number_from (Z.of_nat (length (all_constraints prefix))) drawn.
Proof.
  unfold transition_evidence, visible_draw_transition_evidence_from_committed_transition.
  intros ->. rewrite cursor_length.
  destruct (_visible_hand_draw_sequence pre post) as [[|k l]|] eqn:E; simpl.
  - intros _. apply visible_hand_draw_seq_parse in E as (d0 & d1 & ? & ? & Hp).
    exists d0, d1, []. done.
  - intros _. apply visible_hand_draw_seq_parse in E as (d0 & d1 & ? & ? & Hp).
    by exists d0, d1, (k :: l).
  - unfold _draw_multiset_changed. fold (draw_keys pre) (draw_keys post).
    destruct (draw_keys pre) as [d0|], (draw_keys post) as [d1|]; try done.
    intros H%negb_false_iff. apply (counter_eqb_spec _ key_eqb_spec) in H.
    exists d0, d1, []. by rewrite app_nil_r.
Qed.

Lemma replay_prefix_blocked prefix s states :
  existsb snd prefix = true ->
  existsb snd (replay_prefix_of prefix s states) = true /\
  all_constraints (replay_prefix_of prefix s states) = all_constraints prefix.
Proof.
  revert prefix s. induction states as [|s' rest IH]; intros prefix s Hb; [done|].
  cbn [replay_prefix_of].
  assert (Hr : record_step prefix s s' = prefix ++ [([], true)]).
  { unfold record_step, transition_evidence,
      visible_draw_transition_evidence_from_committed_transition. by rewrite Hb. }
  rewrite Hr. destruct (IH (prefix ++ [([], true)]) s') as [H1 H2].
  { rewrite existsb_app, Hb. done. }
  split; [done|]. rewrite H2, all_constraints_snoc. apply app_nil_r.
Qed.

(** C34: along any run of committed steps whose prefix is not blocked, the
    recorded constraints are numbered 0, 1, 2, ... without gaps, and the cards
    they name are exactly what left the draw pile since the root: the root's
    draw pile is, as a multiset, the present one with them. Once a step is
    blocked no later step adds a constraint. *)
Theorem replay_draw_constraints_sound root states :
  let prefix := replay_prefix_of [] root states in
  (existsb snd prefix = false -> states ≠ [] ->
   exists d0 dn drawn, draw_keys root = Some d0 /\
     draw_keys (List.last states root) = Some dn /\ d0 ≡ₚ dn ++ drawn /\
     all_constraints prefix = number_from 0 drawn) /\
  (forall more, existsb snd prefix = true ->
     all_constraints (replay_prefix_of prefix (List.last states root) more)
     = all_constraints prefix).
Proof.
  simpl. split; [|intros more Hb; by apply replay_prefix_blocked].
  assert (Hgen : forall prefix s drawn0, all_constraints prefix = number_from 0 drawn0 ->
    existsb snd (replay_prefix_of prefix s states) = false -> states ≠ [] ->
    exists d0 dn drawn, draw_keys s = Some d0 /\ draw_keys (List.last states s) = Some dn /\
      d0 ≡ₚ dn ++ drawn /\
      all_constraints (replay_prefix_of prefix s states) = number_from 0 (drawn0 ++ drawn)).
  2:{ intros H1 H2. exact (Hgen [] root [] eq_refl H1 H2). }
  induction states as [|s' rest IH]; intros prefix s drawn0 Hall Hb Hne; [done|].
  cbn [replay_prefix_of] in *. rewrite last_state_cons.
  assert (Hpre : existsb snd (record_step prefix s s') = false).
  { destruct (existsb snd (record_step prefix s s')) eqn:E; [|done].
    destruct (replay_prefix_blocked _ s' rest E) as [H _]. congruence. }
  unfold record_step in Hpre. rewrite existsb_app in Hpre. simpl in Hpre.
  rewrite orb_false_r in Hpre. apply orb_false_iff in Hpre as [Hp0 Hp1].
  destruct (record_step_cases prefix s s' Hp0 Hp1) as (d0 & d1 & drawn & H0 & H1 & Hperm & Hc).
  assert (Hall' : all_constraints (record_step prefix s s') = number_from 0 (drawn0 ++ drawn)).
  { unfold record_step. rewrite all_constraints_snoc. cbn [fst].
    rewrite Hc, Hall, length_number_from, number_from_app. done. }
  destruct rest as [|s2 rest].
  - exists d0, d1, drawn. by split_and!.
  - destruct (IH _ s' _ Hall' Hb) as (d0' & dn & drawn' & H0' & Hn & Hperm' & Hc'); [done|].
    assert (d0' = d1) as -> by congruence. exists d0, dn, (drawn ++ drawn').
    split_and!; [done..| |by rewrite app_assoc].
    rewrite Hperm, Hperm'. by rewrite <- !app_assoc, (Permutation_app_comm drawn').
Qed.

Definition example_card (name : string) (cost : Z) : pyval :=
  VDict [("id", VStr name); ("type", VStr "Attack"); ("rarity", VStr "Basic"); ("cost", VInt cost);
         ("targetType", VStr "Enemy"); ("upgraded", VBool false); ("upgradeLevel", VInt 0)].
Definition example_state (draw hand : list pyval) : BattleState :=
  {| engine_state := [("drawPile", VList draw); ("hand", VList hand)]; is_terminal := false;
     outcome := "in_progress"; turn := 1; enemy_max_hps := []; shuffle_rng_seed := None;
     _cached_legal_actions := None; decision_frame := None; combat_completion := None |}.
Definition example_run : list BattleState :=
  let s := example_card "Strike" 1 in let d := example_card "Defend" 1 in
  let p := example_card "Pommel" 1 in
  [example_state [d; s; p] [p; s]; example_state [p; s] [s; d]; example_state [s] [d; p]].

Lemma replay_draw_constraints_sound_witness :
  (exists d0 dn drawn, draw_keys (List.hd (example_state [] []) example_run) = Some d0 /\
     draw_keys (List.last example_run (example_state [] [])) = Some dn /\ d0 ≡ₚ dn ++ drawn /\
     all_constraints (replay_prefix_of [] (List.hd (example_state [] []) example_run) (List.tl example_run))
     = number_from 0 drawn) /\
  map ck_id (map snd (all_constraints
     (replay_prefix_of [] (List.hd (example_state [] []) example_run) (List.tl example_run))))
  = ["Defend"; "Pommel"]%string.
Proof.
  split; [|vm_compute; reflexivity].
  refine (proj1 (replay_draw_constraints_sound (List.hd (example_state [] []) example_run)
                   (List.tl example_run)) _ _); [vm_compute; reflexivity|discriminate].
Defined.
