(* ===== verification/Decision.v ===== *)
(** Decision signatures, decision contexts and the verified replay of a
    context (Combat/search/decision_context.py). *)

From S2P Require Export PyRepr DrawEvidence.

Definition BOUNDARY_STABLE : string := "stable".
Definition BOUNDARY_PENDING : string := "pending".
Definition BOUNDARY_TERMINAL : string := "terminal".
Definition BOUNDARY_FAULT : string := "fault".
Definition BOUNDARY_VALUES : list string :=
  [BOUNDARY_STABLE; BOUNDARY_PENDING; BOUNDARY_TERMINAL; BOUNDARY_FAULT].

Definition CHOICE_SCOPE_TOP_LEVEL : string := "TopLevel".
Definition CHOICE_SCOPE_ACTION_CONTINUATION : string := "ActionContinuation".

Definition boundary_of_battle_state (battle_state : BattleState) : Res string :=
  if is_terminal battle_state then Ok BOUNDARY_TERMINAL
  else
    pending ← pending_choice_metadata (engine_state battle_state);
    Ok (match pending with Some _ => BOUNDARY_PENDING | None => BOUNDARY_STABLE end).

(** * Semantic actions *)

Record SemanticAction := {
  action_type : pyval;
  semantic_key : pyval;
}.

Definition SemanticAction_eqb (a b : SemanticAction) : bool :=
  py_eqb (action_type a) (action_type b) && py_eqb (semantic_key a) (semantic_key b).

Definition semantic_action_repr (a : SemanticAction) : string :=
  "SemanticAction(action_type=" +:+ py_repr (action_type a) +:+ ", semantic_key=" +:+
  py_repr (semantic_key a) +:+ ")".

Definition action_matches (self : SemanticAction) (action : pydict) : bool :=
  py_eqb (dget_none "action_type" action) (action_type self) &&
  py_eqb (dget_or "semantic_key" (VStr "") action) (semantic_key self).

(** [SemanticAction.resolve]; its only error is
    [SemanticActionUnresolvedError]. *)
Definition resolve (self : SemanticAction) (legal_actions : list pydict) : Res pydict :=
  match List.find (action_matches self) legal_actions with
  | Some action => Ok action
  | None => Raise (PyExc "SemanticActionUnresolvedError"
              (semantic_action_repr self +:+ " did not resolve against any of " +:+
               pretty (Z.of_nat (length legal_actions)) +:+ " legal action(s)"))
  end.

Abbreviation candidate_key := (pyval * pyval)%type.

Definition _candidate_semantic_key (action : pydict) : candidate_key :=
  (dget_none "action_type" action, dget_or "semantic_key" (VStr "") action).

Definition candidate_key_eqb (x y : candidate_key) : bool :=
  py_eqb x.1 y.1 && py_eqb x.2 y.2.
Definition candidate_key_repr (k : candidate_key) : string :=
  "(" +:+ py_repr k.1 +:+ ", " +:+ py_repr k.2 +:+ ")".
Definition count_leb (x y : candidate_key * Z) : bool :=
  String.leb (candidate_key_repr x.1) (candidate_key_repr y.1).

Definition candidate_multiset (legal_actions : list pydict) : Res (list (candidate_key * Z)) :=
  let keys := map _candidate_semantic_key legal_actions in
  _ ← mapR (fun k => _ ← hashable k.1; hashable k.2) keys;
  Ok (sort_by count_leb (counter_of candidate_key_eqb keys)).

(** * Decision signatures *)

Record DecisionSignature := {
  sig_combat_session_id : option string;
  sig_step_index : Z;
  sig_continuation_step_index : option Z;
  sig_semantic_action : SemanticAction;
  sig_resolved_action_id : Z;
  sig_resolved_semantic_key : pyval;
  sig_resolved_target_index : option Z;
  sig_resolved_target_slot_index : option Z;
  sig_boundary : string;
  sig_choice_scope : option string;
  sig_choice_kind : pyval;
  sig_candidate_semantic_keys : option (list (candidate_key * Z));
}.


(** [__post_init__]. *)
Definition signature_check (self : DecisionSignature) : Res DecisionSignature :=
  let boundary := sig_boundary self in
  if negb (str_in boundary BOUNDARY_VALUES) then
    Raise (PyExc "ValueError" ("unknown Boundary " +:+ repr_str boundary +:+
      " (known: ['fault', 'pending', 'stable', 'terminal'])"))
  else
    let pending_only_set :=
      negb (match sig_choice_scope self with None => true | _ => false end) ||
      negb (is_none (sig_choice_kind self)) ||
      negb (match sig_candidate_semantic_keys self with None => true | _ => false end) in
    if negb (String.eqb boundary BOUNDARY_PENDING) && pending_only_set then
      Raise (PyExc "ValueError"
        ("choice_scope/choice_kind/candidate_semantic_keys are Pending-only fields (boundary=" +:+
         repr_str boundary +:+ ")"))
    else Ok self.

(** The pending-only fields: choice scope, choice kind, candidate keys. *)
Definition pending_fields_of (battle_state : BattleState) (boundary : string)
    (legal_actions : option (list pydict)) :
    Res (option string * pyval * option (list (candidate_key * Z))) :=
  if String.eqb boundary BOUNDARY_PENDING then
    pending ← pending_choice_metadata (engine_state battle_state);
    continuation ← is_action_continuation_pending_choice (engine_state battle_state);
    let scope := if continuation : bool then CHOICE_SCOPE_ACTION_CONTINUATION
                 else CHOICE_SCOPE_TOP_LEVEL in
    let choice_kind := match pending with Some p => dget_none "choiceType" p | None => VNone end in
    let candidates := match legal_actions with
                      | Some l => l
                      | None => match _cached_legal_actions battle_state with
                                | Some l => l | None => [] end
                      end in
    candidate_keys ← candidate_multiset candidates;
    Ok (Some scope, choice_kind, Some candidate_keys)
  else Ok (None, VNone, None).

Definition from_battle_state (battle_state : BattleState) (semantic_action : SemanticAction)
    (resolved_action : pydict) (target_index target_enemy_index : option Z)
    (legal_actions : option (list pydict)) : Res DecisionSignature :=
  let frame := decision_frame battle_state in
  boundary ← boundary_of_battle_state battle_state;
  pending ← pending_fields_of battle_state boundary legal_actions;
  action_id ← dindex "action_id" resolved_action;
  resolved_id ← py_int action_id;
  signature_check
    {| sig_combat_session_id := match frame with Some f => combat_session_id f | None => None end;
       sig_step_index := match frame with Some f => step_index f | None => -1 end;
       sig_continuation_step_index :=
         match frame with Some f => continuation_step_index f | None => None end;
       sig_semantic_action := semantic_action;
       sig_resolved_action_id := resolved_id;
       sig_resolved_semantic_key := dget_or "semantic_key" (VStr "") resolved_action;
       sig_resolved_target_index := target_index;
       sig_resolved_target_slot_index := target_enemy_index;
       sig_boundary := boundary;
       sig_choice_scope := pending.1.1;
       sig_choice_kind := pending.1.2;
       sig_candidate_semantic_keys := pending.2 |}.

Fixpoint list_eqb {A} (eqb : A -> A -> bool) (l m : list A) : bool :=
  match l, m with
  | [], [] => true
  | x :: l', y :: m' => eqb x y && list_eqb eqb l' m'
  | _, _ => false
  end.
Definition opt_eqb {A} (eqb : A -> A -> bool) (x y : option A) : bool :=
  match x, y with
  | None, None => true
  | Some a, Some b => eqb a b
  | _, _ => false
  end.
Definition counts_eqb : list (candidate_key * Z) -> list (candidate_key * Z) -> bool :=
  list_eqb (fun x y => candidate_key_eqb x.1 y.1 && (x.2 =? y.2)).

(** Each field of the dataclass, in order, with whether two signatures agree
    on it. *)
Definition signature_fields (a b : DecisionSignature) : list (string * bool) :=
  [("combat_session_id", opt_eqb String.eqb (sig_combat_session_id a) (sig_combat_session_id b));
   ("step_index", sig_step_index a =? sig_step_index b);
   ("continuation_step_index",
      opt_eqb Z.eqb (sig_continuation_step_index a) (sig_continuation_step_index b));
   ("semantic_action", SemanticAction_eqb (sig_semantic_action a) (sig_semantic_action b));
   ("resolved_action_id", sig_resolved_action_id a =? sig_resolved_action_id b);
   ("resolved_semantic_key", py_eqb (sig_resolved_semantic_key a) (sig_resolved_semantic_key b));
   ("resolved_target_index",
      opt_eqb Z.eqb (sig_resolved_target_index a) (sig_resolved_target_index b));
   ("resolved_target_slot_index",
      opt_eqb Z.eqb (sig_resolved_target_slot_index a) (sig_resolved_target_slot_index b));
   ("boundary", String.eqb (sig_boundary a) (sig_boundary b));
   ("choice_scope", opt_eqb String.eqb (sig_choice_scope a) (sig_choice_scope b));
   ("choice_kind", py_eqb (sig_choice_kind a) (sig_choice_kind b));
   ("candidate_semantic_keys",
      opt_eqb counts_eqb (sig_candidate_semantic_keys a) (sig_candidate_semantic_keys b))].

Definition diff (self other : DecisionSignature) : list string :=
  map fst (List.filter (fun p => negb p.2) (signature_fields self other)).

Definition _REPLAY_INCOMPARABLE_FIELDS : list string := ["combat_session_id"; "resolved_action_id"]%string.
Definition _CHOICE_KIND_UNCLASSIFIED : string := "Unsupported".

Definition diff_for_replay (self other : DecisionSignature) : list string :=
  let diffs := List.filter (fun n => negb (str_in n _REPLAY_INCOMPARABLE_FIELDS)) (diff self other) in
  if str_in "choice_kind" diffs &&
     (veq_str (sig_choice_kind self) _CHOICE_KIND_UNCLASSIFIED ||
      veq_str (sig_choice_kind other) _CHOICE_KIND_UNCLASSIFIED)
  then List.filter (fun n => negb (String.eqb n "choice_kind")) diffs
  else diffs.

Definition matches_for_replay (self other : DecisionSignature) : bool :=
  match diff_for_replay self other with [] => true | _ => false end.

(** * Replay prefixes and decision contexts *)

Record ReplayPrefixEntry := {
  entry_semantic_action : SemanticAction;
  expected_signature : DecisionSignature;
  entry_target_index : option Z;
  entry_target_enemy_index : option Z;
  visible_draw_constraints : VisibleDrawConstraints;
  visible_draw_tracking_blocked : bool;
  visible_draw_tracking_error : option string;
}.

(** The objects a decision context can be rooted at. The captured snapshot
    dataclass is its [asdict] form; any other object is its [repr] and its
    [Metadata.CaptureBoundary], or the serialized text of a CLR snapshot. *)
Inductive Root :=
  | CombatStartReplayRoot (scenario_spec : pydict)
  | RoomEntryReplayRoot (map_snapshot : string) (room_id : Z)
  | JsonTextRoot (text : string)
  | JsonDictRoot (d : pydict)
  | SnapshotRoot (asdict : pydict)
  | OtherDataclassRoot (type_name : string)
  | ObjectRoot (repr : string) (capture_boundary : option string) (clr_json : option string).

Record DecisionContext := {
  root_snapshot : Root;
  replay_prefix : list ReplayPrefixEntry;
  plan_path : list ReplayPrefixEntry;
  current_decision_result : BattleState;
  current_context_signature : DecisionSignature;
  search_hypothesis_id : option string;
}.

Definition new_context (root : Root) (plan : list ReplayPrefixEntry) (current : BattleState)
    (signature : DecisionSignature) : DecisionContext :=
  {| root_snapshot := root; replay_prefix := []; plan_path := plan;
     current_decision_result := current; current_context_signature := signature;
     search_hypothesis_id := None |}.

Definition from_combat_start_pending (scenario_spec : pydict) (current : BattleState)
    (signature : DecisionSignature) : DecisionContext :=
  new_context (CombatStartReplayRoot scenario_spec) [] current signature.
Definition from_room_entry_pending (map_snapshot : string) (room_id : Z) (current : BattleState)
    (signature : DecisionSignature) : DecisionContext :=
  new_context (RoomEntryReplayRoot map_snapshot room_id) [] current signature.
Definition from_main_stable_capture (root : Root) (current : BattleState)
    (signature : DecisionSignature) : DecisionContext :=
  new_context root [] current signature.
Definition from_prev_child (root : Root) (current : BattleState) (signature : DecisionSignature)
    (parent_plan_path : list ReplayPrefixEntry) : DecisionContext :=
  new_context root parent_plan_path current signature.

(** [dataclasses.replace(context, replay_prefix=...)]. *)
Definition with_replay_prefix (c : DecisionContext) (prefix : list ReplayPrefixEntry) :
    DecisionContext :=
  {| root_snapshot := root_snapshot c; replay_prefix := prefix; plan_path := plan_path c;
     current_decision_result := current_decision_result c;
     current_context_signature := current_context_signature c;
     search_hypothesis_id := search_hypothesis_id c |}.

Definition start_new_replay_prefix_from_stable : list ReplayPrefixEntry := [].

Definition append_replay_prefix_entry (prefix : list ReplayPrefixEntry) (entry : ReplayPrefixEntry) :
    list ReplayPrefixEntry := prefix ++ [entry].

Definition _representative_signature_for_empty_prefix (current_result : BattleState) :
    Res DecisionSignature :=
  match _cached_legal_actions current_result with
  | None | Some [] =>
      if is_terminal current_result then
        from_battle_state current_result {| action_type := VStr "system"; semantic_key := VStr "" |}
          [("action_type", VStr "system"); ("parameters", VDict []); ("action_id", VInt (-1));
           ("semantic_key", VStr "")] None None None
      else Raise (PyExc "RuntimeError"
             "cannot build a Decision Context signature: Current Decision Result reports no candidates")
  | Some (action :: _) =>
      from_battle_state current_result
        {| action_type := dget_none "action_type" action;
           semantic_key := dget_or "semantic_key" (VStr "") action |}
        action None None None
  end.

(** The signature a context is built with: the last entry's, or the
    representative one of an empty prefix. *)
Definition arrival_signature (prefix : list ReplayPrefixEntry) (current_result : BattleState) :
    Res DecisionSignature :=
  match last prefix with
  | Some entry => Ok (expected_signature entry)
  | None => _representative_signature_for_empty_prefix current_result
  end.

Definition build_decision_context_from_held_stable (held_stable_snapshot : Root)
    (prefix : list ReplayPrefixEntry) (current_result : BattleState) : Res DecisionContext :=
  signature ← arrival_signature prefix current_result;
  Ok (with_replay_prefix (from_main_stable_capture held_stable_snapshot current_result signature)
        prefix).

Definition build_decision_context_from_room_entry (map_snapshot : string) (room_id : Z)
    (prefix : list ReplayPrefixEntry) (current_result : BattleState) : Res DecisionContext :=
  signature ← arrival_signature prefix current_result;
  Ok (with_replay_prefix (from_room_entry_pending map_snapshot room_id current_result signature)
        prefix).

(** * Roots *)

(** [search_root]: a dataclass without an arm is refused. *)
Definition search_root (root : Root) : Res Root :=
  match root with
  | OtherDataclassRoot type_name =>
      Raise (PyExc "TypeError" ("unsupported DecisionContext root " +:+ repr_str type_name +:+
        ": add an arm to search_root() saying how to bootstrap, identify and ship it"))
  | _ => Ok root
  end.

Definition is_combat_start (root : Root) : bool :=
  match root with CombatStartReplayRoot _ => true | _ => false end.
Definition supports_hypotheses (root : Root) : bool :=
  match root with RoomEntryReplayRoot _ _ => false | _ => true end.
Definition is_room_entry (root : Root) : bool :=
  match root with RoomEntryReplayRoot _ _ => true | _ => false end.

Definition ROOM_ENTRY_REPLAY_MAX_STEPS : Z := 400.

Section Roots.
(** [json.loads]: the parsed value or the exception. *)
Context (json_loads : string -> Res pyval).

Definition _root_snapshot_capture_boundary (root : Root) : Res pyval :=
  match root with
  | JsonTextRoot text =>
      payload ← json_loads text;
      metadata ← py_get_or "Metadata" (VDict []) payload;
      py_get "CaptureBoundary" metadata
  | JsonDictRoot d | SnapshotRoot d =>
      py_get "CaptureBoundary" (dget_or "Metadata" (VDict []) d)
  | ObjectRoot _ (Some boundary) _ => Ok (VStr boundary)
  | _ => Ok VNone
  end.

Definition _raise_if_root_snapshot_not_restore_eligible (root : Root) : Res unit :=
  adapted ← search_root root;
  if is_combat_start adapted then Ok tt
  else
    capture_boundary ← _root_snapshot_capture_boundary root;
    match capture_boundary with
    | VNone => Ok tt
    | _ =>
        eligible ← capture_boundary_is_restore_eligible capture_boundary;
        if (eligible : bool) then Ok tt
        else Raise (PyExc "PendingSnapshotRestoreViolationError"
          ("DecisionContext root_snapshot has capture_boundary=" +:+ py_repr capture_boundary +:+
           ", which is not Restore-eligible. This is a design violation of NOTE_NO_REGEN: " +:+
           "Pending must be reached by Restoring the prior Stable root snapshot and replaying " +:+
           "the semantic action prefix, never by Restoring a Pending snapshot directly."))
    end.
End Roots.

(** * Verified replay *)

(** What replays and branch steps use of a live combat session. *)
Class CombatSession (S : Type) := {
  start_combat : pydict -> M S BattleState;
  bootstrap_room_entry : string -> Z -> M S BattleState;
  restore_snapshot : Root -> M S BattleState;
  get_legal_actions : M S (list pydict);
  step : BattleState -> pydict -> option Z -> option Z -> M S BattleState;
  capture_snapshot : M S pydict;
}.

Inductive ReplayOutcome :=
  | ReplaySuccess (final_state : BattleState)
  | ReplayMismatch (at_step : option Z) (stage detail : string) (diverged_fields : list string).

Section Replay.
Context {S : Type} {HS : CombatSession S} (json_loads : string -> Res pyval).

(** [search_root(root).bootstrap(session)]. *)
Definition bootstrap (root : Root) : M S BattleState :=
  match root with
  | CombatStartReplayRoot spec => start_combat spec
  | RoomEntryReplayRoot map_snapshot room_id => bootstrap_room_entry map_snapshot room_id
  | _ => restore_snapshot root
  end.

(** [state._cached_legal_actions or session.get_legal_actions()]. *)
Definition legal_actions_of (state : BattleState) : M S (list pydict) :=
  match _cached_legal_actions state with
  | Some (a :: l) => mret (a :: l)
  | _ => get_legal_actions
  end.

(** The check of a room-entry root: [Some mismatch] when it diverged. *)
Definition check_room_entry (context : DecisionContext) (state : BattleState) :
    M S (option ReplayOutcome) :=
  let expected_root := current_context_signature context in
  legal_actions ← legal_actions_of state;
  match resolve (sig_semantic_action expected_root) legal_actions with
  | Raise exc =>
      mret (Some (ReplayMismatch None "context_signature"
        ("room-entry root action was not resolvable: " +:+ exn_str exc) []))
  | Ok root_action =>
      observed_root ← liftR (from_battle_state state (sig_semantic_action expected_root)
                               root_action None None None);
      if matches_for_replay observed_root expected_root then mret None
      else mret (Some (ReplayMismatch None "context_signature"
        "room-entry bootstrap diverged from root DecisionSignature"
        (diff_for_replay observed_root expected_root)))
  end.

(** The loop over the replay prefix: the final state with the last observed
    signature, or the first mismatch. *)
Fixpoint replay_entries (index : Z) (entries : list ReplayPrefixEntry) (state : BattleState)
    (last_observed : option DecisionSignature) :
    M S (ReplayOutcome + (BattleState * option DecisionSignature)) :=
  match entries with
  | [] => mret (inr (state, last_observed))
  | entry :: rest =>
      legal_actions ← legal_actions_of state;
      match resolve (entry_semantic_action entry) legal_actions with
      | Raise exc => mret (inl (ReplayMismatch (Some index) "resolve" (exn_str exc) []))
      | Ok resolved_action =>
          state' ← step state resolved_action (entry_target_index entry)
                     (entry_target_enemy_index entry);
          observed ← liftR (from_battle_state state' (entry_semantic_action entry) resolved_action
                              (entry_target_index entry) (entry_target_enemy_index entry) None);
          if matches_for_replay observed (expected_signature entry)
          then replay_entries (index + 1) rest state' (Some observed)
          else mret (inl (ReplayMismatch (Some index) "signature"
                 ("observed post-step signature diverged from replay prefix entry " +:+ pretty index)
                 (diff_for_replay observed (expected_signature entry))))
      end
  end.

(** CTX_SIG_CHECK. *)
Definition check_arrival (context : DecisionContext) (state : BattleState)
    (last_observed : option DecisionSignature) : Res ReplayOutcome :=
  let expected_ctx := current_context_signature context in
  match last_observed with
  | Some observed =>
      if matches_for_replay observed expected_ctx then Ok (ReplaySuccess state)
      else Ok (ReplayMismatch None "context_signature"
             "arrival state's signature diverged from Current Context Signature"
             (diff_for_replay observed expected_ctx))
  | None =>
      arrival_boundary ← boundary_of_battle_state state;
      if String.eqb arrival_boundary (sig_boundary expected_ctx) then Ok (ReplaySuccess state)
      else Ok (ReplayMismatch None "context_signature"
             ("restored root's Boundary (" +:+ repr_str arrival_boundary +:+
              ") diverged from Current Context Signature's recorded Boundary (" +:+
              repr_str (sig_boundary expected_ctx) +:+ ")") ["boundary"%string])
  end.

Definition replay_decision_context (context : DecisionContext) : M S ReplayOutcome :=
  let root := root_snapshot context in
  _ ← liftR (_raise_if_root_snapshot_not_restore_eligible json_loads root);
  state ← bootstrap root;
  room_check ← (if is_room_entry root then check_room_entry context state else mret None);
  match room_check with
  | Some mismatch => mret mismatch
  | None =>
      if is_room_entry root && (ROOM_ENTRY_REPLAY_MAX_STEPS <? Z.of_nat (length (replay_prefix context)))
      then mret (ReplayMismatch (Some ROOM_ENTRY_REPLAY_MAX_STEPS) "replay_bound"
             ("room-entry replay prefix exceeded the maximum of " +:+
              pretty ROOM_ENTRY_REPLAY_MAX_STEPS +:+ " steps") [])
      else
        replayed ← replay_entries 0 (replay_prefix context) state None;
        match replayed with
        | inl mismatch => mret mismatch
        | inr (final, last_observed) => liftR (check_arrival context final last_observed)
        end
  end.
End Replay.

(** * The candidate multiset *)

(** Legal actions whose type and semantic key are strings, as the engine
    publishes them. *)
Definition str_key (k : string * string) : candidate_key := (VStr k.1, VStr k.2).
Definition has_keys (legal_actions : list pydict) (ks : list (string * string)) : Prop :=
  map _candidate_semantic_key legal_actions = map str_key ks.

Definition str2_eqb (x y : string * string) : bool :=
  String.eqb x.1 y.1 && String.eqb x.2 y.2.
Lemma str2_eqb_spec x y : str2_eqb x y = true ↔ x = y.
Proof.
  destruct x, y. unfold str2_eqb. simpl. rewrite andb_true_iff, !String.eqb_eq. naive_solver.
Qed.

Definition str_count (kn : (string * string) * Z) : candidate_key * Z := (str_key kn.1, kn.2).
Definition str_count_leb (x y : (string * string) * Z) : bool :=
  count_leb (str_count x) (str_count y).

Lemma candidate_key_repr_inj x y :
  candidate_key_repr (str_key x) = candidate_key_repr (str_key y) -> x = y.
Proof.
  destruct x as [a b], y as [c d]. intros H.
  apply (str_app_inv_l "(" (repr_str a +:+ ", " +:+ repr_str b +:+ ")")
           (repr_str c +:+ ", " +:+ repr_str d +:+ ")")) in H.
  apply repr_str_app_inj in H as [-> H]. apply (str_app_inv_l ", ") in H.
  apply repr_str_app_inj in H as [-> _]. done.
Qed.

Lemma string_leb_antisym s t : String.leb s t = true -> String.leb t s = true -> s = t.
Proof.
  unfold String.leb. intros H1 H2. apply String.compare_eq_iff.
  rewrite String.compare_antisym in H2. by destruct (String.compare s t).
Qed.
Lemma string_leb_total s t : String.leb s t = true \/ String.leb t s = true.
Proof.
  unfold String.leb. rewrite (String.compare_antisym t s). destruct (String.compare s t); simpl; auto.
Qed.

Definition str_counts (ks : list (string * string)) : list (candidate_key * Z) :=
  map str_count (sort_by str_count_leb (counter_of str2_eqb ks)).

Lemma candidate_multiset_str l ks :
  has_keys l ks -> candidate_multiset l = Ok (str_counts ks).
Proof.
  intros H. unfold candidate_multiset, str_counts. rewrite H.
  rewrite (mapR_Ok _ (fun _ => tt)).
  2:{ apply Forall_forall. intros k (k' & -> & _)%list_elem_of_fmap. done. }
  change (Ok (sort_by count_leb (counter_of candidate_key_eqb (map _candidate_semantic_key l)))
          = Ok (map str_count (sort_by str_count_leb (counter_of str2_eqb ks)))).
  unfold has_keys in H. rewrite H. f_equal. rewrite (counter_of_map candidate_key_eqb str2_eqb str_key); [|done].
  symmetry. by apply sort_by_map.
Qed.

Lemma str_counts_Permutation ks1 ks2 : ks1 ≡ₚ ks2 -> str_counts ks1 = str_counts ks2.
Proof.
  intros Hp. unfold str_counts. f_equal. apply sort_by_unique.
  - intros x y. apply string_leb_total.
  - intros x y z. apply str_leb_trans.
  - intros [x n] [y m] Hx Hy H1 H2. assert (x = y) as ->.
    { apply candidate_key_repr_inj. exact (string_leb_antisym _ _ H1 H2). }
    destruct (counter_of_keys _ str2_eqb_spec ks1) as [Hnd _].
    by rewrite <- (counter_get_entry _ str2_eqb_spec y n _ Hnd Hx),
         <- (counter_get_entry _ str2_eqb_spec y m _ Hnd Hy).
  - apply (counter_get_Permutation _ str2_eqb_spec);
      try (apply counter_of_keys, str2_eqb_spec); try (apply counter_of_pos, str2_eqb_spec).
    intros k. rewrite !(counter_get_of _ str2_eqb_spec). by apply occurs_Permutation.
Qed.

Lemma counts_eqb_str c d :
  counts_eqb (map str_count c) (map str_count d) = true ↔ c = d.
Proof.
  revert d. unfold counts_eqb. induction c as [|[[a b] n] c IH]; intros [|[[a' b'] n'] d];
    try done. cbn [map list_eqb]. rewrite andb_true_iff, IH. unfold candidate_key_eqb. cbn.
  rewrite !andb_true_iff, !String.eqb_eq, Z.eqb_eq. naive_solver.
Qed.

(** [candidate_multiset] is the canonical form of the multiset of
    semantic keys: for any two lists of legal actions (with string keys) it is
    computed without error, and the two results compare equal exactly when the
    lists offer the same keys the same number of times, in any order. *)
Theorem candidate_multiset_canonical l1 l2 ks1 ks2 :
  has_keys l1 ks1 -> has_keys l2 ks2 ->
  exists m1 m2, candidate_multiset l1 = Ok m1 /\ candidate_multiset l2 = Ok m2 /\
    (counts_eqb m1 m2 = true ↔ ks1 ≡ₚ ks2) /\ (m1 = m2 ↔ ks1 ≡ₚ ks2).
Proof.
  intros H1 H2. exists (str_counts ks1), (str_counts ks2).
  split; [by apply candidate_multiset_str|]. split; [by apply candidate_multiset_str|].
  assert (Hback : sort_by str_count_leb (counter_of str2_eqb ks1)
                  = sort_by str_count_leb (counter_of str2_eqb ks2) -> ks1 ≡ₚ ks2).
  { intros H. apply (occurs_eq_Permutation _ str2_eqb_spec). intros k.
    rewrite <- !(counter_get_of _ str2_eqb_spec).
    apply counter_Permutation_get; [apply str2_eqb_spec|apply counter_of_keys, str2_eqb_spec|].
    by rewrite <- (sort_by_Permutation str_count_leb (counter_of str2_eqb ks1)), H, sort_by_Permutation. }
  assert (Hrefl : forall c, counts_eqb (map str_count c) (map str_count c) = true)
    by (intros; by apply counts_eqb_str).
  split; split.
  - intros H. apply Hback. by apply counts_eqb_str.
  - intros ->%str_counts_Permutation. apply Hrefl.
  - intros H. apply Hback. apply counts_eqb_str. fold (str_counts ks1) (str_counts ks2).
    rewrite H. apply Hrefl.
  - apply str_counts_Permutation.
Qed.

Lemma candidate_multiset_canonical_witness :
  let a := [("action_type", VStr "card"); ("semantic_key", VStr "strike")] in
  let b := [("action_type", VStr "card"); ("semantic_key", VStr "defend")] in
  exists m1 m2, candidate_multiset [a; b; a] = Ok m1 /\ candidate_multiset [b; a] = Ok m2 /\
    counts_eqb m1 m2 = false.
Proof.
  intros a b.
  destruct (candidate_multiset_canonical [a; b; a] [b; a]
    [("card", "strike"); ("card", "defend"); ("card", "strike")]%string
    [("card", "defend"); ("card", "strike")]%string eq_refl eq_refl) as (m1 & m2 & H1 & H2 & Hc & _).
  exists m1, m2. split; [exact H1|]. split; [exact H2|].
  destruct (counts_eqb m1 m2); [|reflexivity]. exfalso.
  pose proof (Permutation_length (proj1 Hc eq_refl)) as H. discriminate H.
Defined.

(** * The replay comparison *)

Definition unclassified (s : DecisionSignature) : bool :=
  veq_str (sig_choice_kind s) _CHOICE_KIND_UNCLASSIFIED.

Lemma forallb_filter {A} (f g : A -> bool) l :
  forallb g (List.filter f l) = forallb (fun x => negb (f x) || g x) l.
Proof. induction l as [|x l IH]; simpl; [done|]. destruct (f x); simpl; by rewrite IH. Qed.

Lemma forallb_map' {A B} (f : A -> B) (g : B -> bool) l :
  forallb g (map f l) = forallb (fun x => g (f x)) l.
Proof. induction l as [|x l IH]; simpl; [done|]. by rewrite IH. Qed.

Lemma forallb_ext {A} (f g : A -> bool) l : (forall x, f x = g x) -> forallb f l = forallb g l.
Proof. intros H. induction l as [|x l IH]; simpl; [done|]. by rewrite H, IH. Qed.

Lemma empty_filter {A} (f : A -> bool) l :
  match List.filter f l with [] => true | _ => false end = forallb (fun x => negb (f x)) l.
Proof. induction l as [|x l IH]; simpl; [done|]. by destruct (f x). Qed.

Lemma matches_forallb a b :
  matches_for_replay a b =
  forallb (fun p => p.2 || str_in p.1 _REPLAY_INCOMPARABLE_FIELDS ||
                    ((unclassified a || unclassified b) && String.eqb p.1 "choice_kind"))
    (signature_fields a b).
Proof.
  unfold matches_for_replay, diff_for_replay, unclassified.
  set (u := _ || _). set (diffs := List.filter _ _).
  transitivity (forallb (fun n => u && String.eqb n "choice_kind") diffs).
  - destruct u; rewrite ?andb_true_r, ?andb_false_r; [|by destruct diffs].
    destruct (str_in "choice_kind" diffs) eqn:E.
    + rewrite empty_filter. apply forallb_ext. intros n. apply negb_involutive.
    + destruct diffs as [|n l]; [done|]. cbn [str_in existsb forallb] in *.
      apply orb_false_iff in E as [E _]. rewrite String.eqb_sym in E. by rewrite E.
  - subst diffs. unfold diff. rewrite forallb_filter, forallb_map', forallb_filter.
    apply forallb_ext. intros [n e]. cbn [fst snd]. rewrite !negb_involutive. apply orb_assoc.
Qed.

(** two signatures match for replay exactly when they agree on the step
    indices, the semantic action and its resolved key and targets, the
    boundary, the choice scope and the candidate multiset, and on the choice
    kind unless one side is the engine's unclassified kind; the combat session
    id and the resolved action id never matter. *)
Theorem matches_for_replay_exact a b :
  matches_for_replay a b = true ↔
  sig_step_index a = sig_step_index b /\
  sig_continuation_step_index a = sig_continuation_step_index b /\
  SemanticAction_eqb (sig_semantic_action a) (sig_semantic_action b) = true /\
  py_eqb (sig_resolved_semantic_key a) (sig_resolved_semantic_key b) = true /\
  sig_resolved_target_index a = sig_resolved_target_index b /\
  sig_resolved_target_slot_index a = sig_resolved_target_slot_index b /\
  sig_boundary a = sig_boundary b /\
  sig_choice_scope a = sig_choice_scope b /\
  (py_eqb (sig_choice_kind a) (sig_choice_kind b) = true \/
   unclassified a = true \/ unclassified b = true) /\
  opt_eqb counts_eqb (sig_candidate_semantic_keys a) (sig_candidate_semantic_keys b) = true.
Proof.
  assert (HZ : forall x y : option Z, opt_eqb Z.eqb x y = true ↔ x = y).
  { intros [x|] [y|]; simpl; rewrite ?Z.eqb_eq; naive_solver. }
  assert (HS : forall x y : option string, opt_eqb String.eqb x y = true ↔ x = y).
  { intros [x|] [y|]; simpl; rewrite ?String.eqb_eq; naive_solver. }
  rewrite <- !HZ, <- HS, <- Z.eqb_eq, <- String.eqb_eq. clear HZ HS.
  rewrite matches_forallb. unfold signature_fields. cbn [forallb fst snd].
  cbn -[unclassified opt_eqb py_eqb SemanticAction_eqb Z.eqb].
  rewrite ?orb_true_r, ?orb_false_r, ?andb_true_r, ?andb_false_r, ?andb_true_iff, ?orb_true_iff.
  assert (Hf : forall P : Prop, (P \/ false = true) ↔ P) by naive_solver.
  assert (Ht : (true = true) ↔ True) by done.
  rewrite !Hf, !Ht. split; intros H; decompose [and] H; split_and!; done.
Qed.

(** * What a replay outcome means *)

Section ReplayFacts.
Context {S : Type} {HS : CombatSession S} (json_loads : string -> Res pyval).

(** [verified_steps s st last entries s' st' last']: every entry resolved
    against the legal actions at hand, the session stepped it without an
    exception and the signature observed afterwards matched the recorded one;
    the run went from state [st] of session [s] to [st'] of [s']. *)
Inductive verified_steps :
    S -> BattleState -> option DecisionSignature -> list ReplayPrefixEntry ->
    S -> BattleState -> option DecisionSignature -> Prop :=
  | verified_nil s st last : verified_steps s st last [] s st last
  | verified_cons s s1 s2 s3 st st1 st2 last last' legal action observed entry rest :
      legal_actions_of st s = (Ok legal, s1) ->
      resolve (entry_semantic_action entry) legal = Ok action ->
      step st action (entry_target_index entry) (entry_target_enemy_index entry) s1 = (Ok st1, s2) ->
      from_battle_state st1 (entry_semantic_action entry) action (entry_target_index entry)
        (entry_target_enemy_index entry) None = Ok observed ->
      matches_for_replay observed (expected_signature entry) = true ->
      verified_steps s2 st1 (Some observed) rest s3 st2 last' ->
      verified_steps s st last (entry :: rest) s3 st2 last'.

(** The root can be restored, is bootstrapped to [st] in session [s'] and, for
    a room-entry root, reproduces the recorded root signature within the bound
    on the prefix. *)
Definition rooted (context : DecisionContext) (s s' : S) (st : BattleState) : Prop :=
  let root := root_snapshot context in
  _raise_if_root_snapshot_not_restore_eligible json_loads root = Ok tt /\
  exists s0, bootstrap root s = (Ok st, s0) /\
    if is_room_entry root
    then check_room_entry context st s0 = (Ok None, s') /\
         Z.of_nat (length (replay_prefix context)) <= ROOM_ENTRY_REPLAY_MAX_STEPS
    else s' = s0.

(** The arrival check: the last observed signature matches the context's, or,
    with nothing replayed, the boundary is the recorded one. *)
Definition arrived (context : DecisionContext) (st : BattleState)
    (last : option DecisionSignature) : Prop :=
  match last with
  | Some observed => matches_for_replay observed (current_context_signature context) = true
  | None => boundary_of_battle_state st = Ok (sig_boundary (current_context_signature context))
  end.

Lemma replay_entries_verified index entries s st last s' st' last' :
  replay_entries index entries st last s = (Ok (inr (st', last')), s') ↔
  verified_steps s st last entries s' st' last'.
Proof.
  split.
  - revert index s st last. induction entries as [|e rest IH]; intros index s st last;
      cbn [replay_entries]; [intros [= -> -> ->]; constructor|].
    intros (legal & s1 & Hl & H)%M_bind_Ok.
    destruct (resolve _ legal) as [action|] eqn:Hr; [|done].
    apply M_bind_Ok in H as (st1 & s2 & Hs & H).
    apply M_bind_Ok in H as (observed & s2' & [Ho ->]%liftR_Ok & H).
    destruct (matches_for_replay _ _) eqn:Hm; [|done].
    econstructor; eauto.
  - intros H. revert index.
    induction H as [|s s1 s2 s3 st st1 st2 last last' legal action observed e rest Hl Hr Hs Ho Hm _ IH];
      intros index; cbn [replay_entries]; [done|].
    apply M_bind_Ok. exists legal, s1. split; [done|]. rewrite Hr.
    apply M_bind_Ok. exists st1, s2. split; [done|].
    apply M_bind_Ok. exists observed, s2. split; [by apply liftR_Ok|]. by rewrite Hm.
Qed.

Lemma replay_entries_not_success index entries st last s fs s' :
  replay_entries index entries st last s ≠ (Ok (inl (ReplaySuccess fs)), s').
Proof.
  revert index st last s. induction entries as [|e rest IH]; intros index st last s;
    cbn [replay_entries]; [done|].
  intros (legal & s1 & _ & H)%M_bind_Ok. destruct (resolve _ legal); [|done].
  apply M_bind_Ok in H as (st1 & s2 & _ & H). apply M_bind_Ok in H as (o & s3 & _ & H).
  destruct (matches_for_replay _ _); [|done]. by eapply IH.
Qed.

Lemma check_room_entry_not_success context st s fs s' :
  check_room_entry context st s ≠ (Ok (Some (ReplaySuccess fs)), s').
Proof.
  unfold check_room_entry. intros (legal & s1 & _ & H)%M_bind_Ok. destruct (resolve _ legal); [|done].
  apply M_bind_Ok in H as (o & s2 & _ & H). by destruct (matches_for_replay _ _).
Qed.

Lemma check_arrival_success context st last fs :
  check_arrival context st last = Ok (ReplaySuccess fs) ↔ fs = st /\ arrived context st last.
Proof.
  unfold check_arrival, arrived. destruct last as [o|].
  - destruct (matches_for_replay _ _); naive_solver.
  - destruct (boundary_of_battle_state st) as [b|e]; simpl; [|naive_solver].
    destruct (String.eqb_spec b (sig_boundary (current_context_signature context))); naive_solver.
Qed.

Lemma rooted_run context s s' st :
  rooted context s s' st ->
  replay_decision_context json_loads context s =
  (replayed ← replay_entries 0 (replay_prefix context) st None;
   match replayed with
   | inl mismatch => mret mismatch
   | inr (final, last_observed) => liftR (check_arrival context final last_observed)
   end) s'.
Proof.
  intros (He & s0 & Hb & Hroom). unfold replay_decision_context.
  unfold mbind at 1, M_bind. unfold liftR at 1. rewrite He.
  unfold mbind at 1, M_bind. rewrite Hb. destruct (is_room_entry (root_snapshot context)).
  - destruct Hroom as [Hc Hn]. unfold mbind at 1, M_bind. rewrite Hc. simpl.
    replace (_ <? _) with false by (symmetry; apply Z.ltb_ge; exact Hn). done.
  - by subst s0.
Qed.

(** C26: a replay succeeds exactly when the root was restore-eligible,
    bootstrapped (a room-entry root reproducing its recorded signature, at most
    400 steps long), every entry of the replay prefix resolved, stepped and
    matched its recorded signature in order, and the arrival check held; the
    result is the state the session is left in. *)
Theorem replay_success_exact context s s' fs :
  replay_decision_context json_loads context s = (Ok (ReplaySuccess fs), s') ↔
  exists s1 st1 last, rooted context s s1 st1 /\
    verified_steps s1 st1 None (replay_prefix context) s' fs last /\ arrived context fs last.
Proof.
  split.
  - unfold replay_decision_context.
    intros ([] & s0 & [He ->]%liftR_Ok & H)%M_bind_Ok.
    apply M_bind_Ok in H as (st1 & s0' & Hb & H). apply M_bind_Ok in H as (rc & s1 & Hrc & H).
    destruct rc as [m|].
    + exfalso. injection H as -> <-. destruct (is_room_entry _); [|done].
      by eapply check_room_entry_not_success.
    + destruct (is_room_entry (root_snapshot context)) eqn:Eroom; simpl in H.
      * destruct (Z.ltb_spec ROOM_ENTRY_REPLAY_MAX_STEPS
                    (Z.of_nat (length (replay_prefix context)))); [by injection H|].
        apply M_bind_Ok in H as ([m|[fin last]] & s2 & Hr & H).
        { exfalso. injection H as -> <-. by eapply replay_entries_not_success. }
        apply liftR_Ok in H as [[-> Ha]%check_arrival_success ->].
        exists s1, st1, last. split_and!; [|by eapply replay_entries_verified|done].
        split; [done|]. exists s0'. rewrite Eroom. by split.
      * apply M_bind_Ok in H as ([m|[fin last]] & s2 & Hr & H).
        { exfalso. injection H as -> <-. by eapply replay_entries_not_success. }
        apply liftR_Ok in H as [[-> Ha]%check_arrival_success ->].
        exists s1, st1, last. split_and!; [|by eapply replay_entries_verified|done].
        split; [done|]. exists s0'. rewrite Eroom. by injection Hrc.
  - intros (s1 & st1 & last & Hroot & Hv & Ha). rewrite (rooted_run _ _ _ _ Hroot).
    apply M_bind_Ok. eexists (inr (fs, last)), s'. split; [by apply replay_entries_verified|].
    apply liftR_Ok. split; [|done]. by apply check_arrival_success.
Qed.

Lemma replay_entries_after index done_ rest s st last s' st' last' :
  verified_steps s st last done_ s' st' last' ->
  replay_entries index (done_ ++ rest) st last s =
  replay_entries (index + Z.of_nat (length done_)) rest st' last' s'.
Proof.
  intros H. revert index.
  induction H as [|s s1 s2 s3 st st1 st2 last last' legal action observed e l Hl Hr Hs Ho Hm _ IH];
    intros index; [by rewrite Z.add_0_r|].
  cbn [app replay_entries]. unfold mbind at 1, M_bind. rewrite Hl, Hr.
  unfold mbind at 1, M_bind. rewrite Hs. unfold mbind at 1, M_bind, liftR. rewrite Ho, Hm.
  rewrite IH. f_equal. cbn [length]. lia.
Qed.

Lemma matches_diff a b : matches_for_replay a b = false -> diff_for_replay a b ≠ [].
Proof. unfold matches_for_replay. by destruct (diff_for_replay a b). Qed.

(** at the first replay prefix entry that does not go as recorded, the
    replay stops: an entry that no longer resolves, or whose observed signature
    differs, is returned as a mismatch carrying that entry's index (and the
    differing fields), while an exception of the session's step is raised
    unchanged, never turned into a mismatch; later entries are not stepped. *)
Theorem replay_first_failure context s s1 st1 done_ entry rest s2 st2 last legal s3 :
  rooted context s s1 st1 ->
  replay_prefix context = done_ ++ entry :: rest ->
  verified_steps s1 st1 None done_ s2 st2 last ->
  legal_actions_of st2 s2 = (Ok legal, s3) ->
  match resolve (entry_semantic_action entry) legal with
  | Raise exc =>
      replay_decision_context json_loads context s =
      (Ok (ReplayMismatch (Some (Z.of_nat (length done_))) "resolve" (exn_str exc) []), s3)
  | Ok action =>
      match step st2 action (entry_target_index entry) (entry_target_enemy_index entry) s3 with
      | (Raise e, s4) => replay_decision_context json_loads context s = (Raise e, s4)
      | (Ok st3, s4) => forall observed,
          from_battle_state st3 (entry_semantic_action entry) action (entry_target_index entry)
            (entry_target_enemy_index entry) None = Ok observed ->
          matches_for_replay observed (expected_signature entry) = false ->
          diff_for_replay observed (expected_signature entry) ≠ [] /\
          exists detail, replay_decision_context json_loads context s =
            (Ok (ReplayMismatch (Some (Z.of_nat (length done_))) "signature" detail
                   (diff_for_replay observed (expected_signature entry))), s4)
      end
  end.
Proof.
  intros Hroot Hp Hv Hl. rewrite (rooted_run _ _ _ _ Hroot), Hp.
  assert (Hrun : replay_entries 0 (done_ ++ entry :: rest) st1 None s1 =
                 replay_entries (Z.of_nat (length done_)) (entry :: rest) st2 last s2)
    by exact (replay_entries_after 0 _ _ _ _ _ _ _ _ Hv).
  destruct (resolve _ legal) as [action|exc] eqn:Hr.
  2:{ eapply eq_trans.
      { eapply M_run_Ok. rewrite Hrun. cbn [replay_entries].
        erewrite M_run_Ok by exact Hl. by rewrite Hr. }
      reflexivity. }
  destruct (step st2 action _ _ s3) as [[st3|e] s4] eqn:Hs.
  2:{ apply M_run_Raise. rewrite Hrun. cbn [replay_entries].
      erewrite M_run_Ok by exact Hl. rewrite Hr. by apply M_run_Raise. }
  intros observed Ho Hm. split; [by apply matches_diff|]. eexists.
  eapply eq_trans.
  { eapply M_run_Ok. rewrite Hrun. cbn [replay_entries].
    erewrite M_run_Ok by exact Hl. rewrite Hr. erewrite M_run_Ok by exact Hs.
    erewrite M_run_Ok by (unfold liftR; by rewrite Ho). by rewrite Hm. }
  reflexivity.
Qed.
End ReplayFacts.

(** A scripted session: bootstrapping and stepping take the next recorded
    state, an exhausted script raises. *)
Definition script_next (l : list BattleState) : Res BattleState * list BattleState :=
  match l with
  | st :: l' => (Ok st, l')
  | [] => (Raise (PyExc "ActionExecutionError" "script exhausted"), [])
  end.
Definition ScriptedSession : CombatSession (list BattleState) :=
  {| start_combat := fun _ => script_next; bootstrap_room_entry := fun _ _ => script_next;
     restore_snapshot := fun _ => script_next; get_legal_actions := mret [];
     step := fun _ _ _ _ => script_next; capture_snapshot := mret [] |}.

Definition example_action : pydict :=
  [("action_type", VStr "card"); ("semantic_key", VStr "strike"); ("action_id", VInt 3)].
Definition example_board (n : Z) : BattleState :=
  {| engine_state := []; is_terminal := false; outcome := "in_progress"; turn := 1;
     enemy_max_hps := []; shuffle_rng_seed := None;
     _cached_legal_actions := Some [example_action];
     decision_frame := Some {| combat_session_id := Some "s"; step_index := n;
                               continuation_step_index := None |};
     combat_completion := None |}.
Definition example_semantic : SemanticAction :=
  {| action_type := VStr "card"; semantic_key := VStr "strike" |}.
Definition example_signature (n : Z) : DecisionSignature :=
  {| sig_combat_session_id := Some "other"; sig_step_index := n;
     sig_continuation_step_index := None; sig_semantic_action := example_semantic;
     sig_resolved_action_id := 7; sig_resolved_semantic_key := VStr "strike";
     sig_resolved_target_index := None; sig_resolved_target_slot_index := None;
     sig_boundary := BOUNDARY_STABLE; sig_choice_scope := None; sig_choice_kind := VNone;
     sig_candidate_semantic_keys := None |}.
Definition example_entry (n : Z) : ReplayPrefixEntry :=
  {| entry_semantic_action := example_semantic; expected_signature := example_signature n;
     entry_target_index := None; entry_target_enemy_index := None; visible_draw_constraints := [];
     visible_draw_tracking_blocked := false; visible_draw_tracking_error := None |}.
Definition example_context : DecisionContext :=
  with_replay_prefix
    (from_main_stable_capture
       (JsonDictRoot [("Metadata", VDict [("CaptureBoundary", VStr "normal_player_decision")])])
       (example_board 0) (example_signature 2)) [example_entry 1; example_entry 5].
Definition no_json (s : string) : Res pyval := Raise (PyExc "JSONDecodeError" s).

Definition example_observed (n : Z) : DecisionSignature :=
  match from_battle_state (example_board n) example_semantic example_action None None None with
  | Ok o => o
  | Raise _ => example_signature n
  end.

Lemma replay_first_failure_witness :
  exists detail rest, @replay_decision_context _ ScriptedSession no_json example_context
    [example_board 0; example_board 1; example_board 2]
  = (Ok (ReplayMismatch (Some 1) "signature" detail ["step_index"%string]), rest).
Proof.
  assert (Hv : @verified_steps _ ScriptedSession [example_board 1; example_board 2] (example_board 0)
    None [example_entry 1] [example_board 2] (example_board 1) (Some (example_observed 1))).
  { eapply verified_cons; try (vm_compute; reflexivity). constructor. }
  destruct (@replay_first_failure _ ScriptedSession no_json example_context
    [example_board 0; example_board 1; example_board 2] [example_board 1; example_board 2]
    (example_board 0) [example_entry 1] (example_entry 5) [] [example_board 2] (example_board 1)
    (Some (example_observed 1)) [example_action] [example_board 2]) with
    (observed := example_observed 2) as [_ [detail H]].
  - split; [vm_compute; reflexivity|]. exists [example_board 1; example_board 2].
    split; vm_compute; reflexivity.
  - reflexivity.
  - exact Hv.
  - vm_compute; reflexivity.
  - vm_compute; reflexivity.
  - vm_compute; reflexivity.
  - exists detail. eexists. exact H.
Defined.
