(* ===== verification/Candidates.v ===== *)
(** The candidate pipeline (Combat/search/candidate_pipeline.py): candidates of
    the current decision result, the order-masked observation, the built-in
    scores, ranking, pruning and the split into continuation and
    sub-branches. *)

From S2P Require Export FloatFacts Decision.

Record Candidate := {
  cand_semantic_action : SemanticAction;
  choice_kind : pyval;
  choice_scope : string;
  legal_action_index : Z;
  label : string;
  target_index : option Z;
  target_enemy_index : option Z;
  card_cost : option Z;
  potion_slot : option Z;
  card_type : pyval;
  card_rarity : pyval;
}.

(** [dict(Counter(...))]: counts by key. *)
Abbreviation counts := (list (pyval * Z)).

Record OrderMaskedObservation := {
  hand_size : Z;
  draw_pile_size : Z;
  discard_pile_size : Z;
  exhaust_pile_size : Z;
  play_pile_size : Z;
  alive_enemy_count : Z;
  player_energy : Z;
  hand_card_id_counts : counts;
  hand_card_type_counts : counts;
  draw_pile_card_id_counts : counts;
  discard_pile_card_id_counts : counts;
  exhaust_pile_card_id_counts : counts;
  pending_choice_type : pyval;
  pending_min_select : option Z;
  pending_max_select : option Z;
  pending_selected_count : Z;
}.

Record ScoredCandidate := {
  candidate : Candidate;
  score : spec_float;
  evaluator_name : string;
}.

Record PipelineCandidateRef := {
  ref_current_context_signature : DecisionSignature;
  ref_semantic_action : SemanticAction;
  ref_target_index : option Z;
  ref_target_enemy_index : option Z;
  ref_score : spec_float;
  ref_choice_kind : pyval;
  ref_choice_scope : string;
}.

Inductive CandidatePipelineResult :=
  | CandidatePipelineSuccess (continuation_candidate : PipelineCandidateRef)
      (sub_branch_candidates : list PipelineCandidateRef)
      (ranked_candidates pruned_candidates : list ScoredCandidate)
      (observation : OrderMaskedObservation)
  | NoViableCandidates (detail : string) (ranked_candidates : list ScoredCandidate)
      (observation : OrderMaskedObservation).

Definition _legal_actions_from_current_result (current_result : BattleState) : list pydict :=
  match _cached_legal_actions current_result with Some l => l | None => [] end.

(** [int(value)], with [TypeError] and [ValueError] as [None]; the
    [OverflowError] of an infinity is raised. *)
Definition _int_or_none (value : pyval) : Res (option Z) :=
  match value with
  | VNone => Ok None
  | _ =>
      match py_int value with
      | Ok z => Ok (Some z)
      | Raise e =>
          if str_in (exn_class e) ["TypeError"; "ValueError"]%string then Ok None else Raise e
      end
  end.

Fixpoint find_card (card_id : pyval) (cards : list pyval) : Res (option pyval) :=
  match cards with
  | [] => Ok None
  | card :: rest =>
      i ← py_get "id" card;
      if py_eqb i card_id then Ok (Some card) else find_card card_id rest
  end.

Definition _card_feature_by_id (engine_state : pydict) (card_id : pyval) : Res pyval :=
  match card_id with
  | VNone => Ok (VDict [])
  | _ =>
      hand ← py_iter (py_or (dget_none "hand" engine_state) (VList []));
      found ← find_card card_id hand;
      match found with
      | Some card => Ok card
      | None =>
          options ← py_get "options" (py_or (dget_none "pendingChoice" engine_state) (VDict []));
          cards ← py_iter (py_or options (VList []));
          found ← find_card card_id cards;
          Ok (match found with Some card => card | None => VDict [] end)
      end
  end.

Definition _choice_scope_from_current_result (current_result : BattleState)
    (legal_actions : list pydict) : Res string :=
  continuation ← is_action_continuation_pending_choice (engine_state current_result);
  Ok (if (continuation : bool) then CHOICE_SCOPE_ACTION_CONTINUATION
      else if existsb (fun a => veq_str (dget_none "action_type" a) "choice_target") legal_actions
      then CHOICE_SCOPE_ACTION_CONTINUATION
      else CHOICE_SCOPE_TOP_LEVEL).

(** One step of the loop of [extract_candidates]. *)
Definition candidate_of_action (engine_state : pydict) (scope : string) (index : Z)
    (action : pydict) : Res Candidate :=
  let params := py_or (dget_none "parameters" action) (VDict []) in
  card_id ← py_get "cardId" params;
  card_feature ← _card_feature_by_id engine_state card_id;
  ti ← (v ← py_get "targetIndex" params; _int_or_none v);
  tei ← (v ← py_get "enemyIndex" params; _int_or_none v);
  cost ← (v ← py_get "cost" params;
          v' ← match v with VNone => py_get "cost" card_feature | _ => Ok v end; _int_or_none v');
  slot ← (v ← py_get "potionSlot" params; _int_or_none v);
  ctype ← py_get "type" card_feature;
  rarity ← py_get "rarity" card_feature;
  Ok {| cand_semantic_action := {| action_type := dget_none "action_type" action;
                                   semantic_key := dget_or "semantic_key" (VStr "") action |};
        choice_kind := dget_none "action_type" action; choice_scope := scope;
        legal_action_index := index;
        label := py_str (py_or (dget_none "label" action) (VStr ""));
        target_index := ti; target_enemy_index := tei; card_cost := cost; potion_slot := slot;
        card_type := ctype; card_rarity := rarity |}.

Definition extract_candidates (current_result : BattleState) : Res (list Candidate) :=
  let legal_actions := _legal_actions_from_current_result current_result in
  scope ← _choice_scope_from_current_result current_result legal_actions;
  mapR (fun ia => candidate_of_action (engine_state current_result) scope ia.1 ia.2)
    (number_from 0 legal_actions).

(** The keys a [Counter] over the cards meets: those of the non-empty cards. *)
Fixpoint card_keys (field : string) (cards : list pyval) : Res (list pyval) :=
  match cards with
  | [] => Ok []
  | c :: rest =>
      if truthy c then
        v ← py_get field c;
        _ ← hashable v;
        ks ← card_keys field rest;
        Ok (match v with VNone => ks | _ => v :: ks end)
      else card_keys field rest
  end.

Definition card_counts (field : string) (cards : pyval) : Res counts :=
  l ← py_iter (py_or cards (VList []));
  ks ← card_keys field l;
  Ok (counter_of py_eqb ks).
Definition _card_id_counts : pyval -> Res counts := card_counts "id".
Definition _card_type_counts : pyval -> Res counts := card_counts "type".

Fixpoint count_alive (enemies : list pyval) : Res Z :=
  match enemies with
  | [] => Ok 0
  | e :: rest =>
      alive ← py_get_or "isAlive" (VBool true) e;
      n ← count_alive rest;
      Ok (if truthy alive then n + 1 else n)
  end.

Definition build_order_masked_observation (current_result : BattleState) :
    Res OrderMaskedObservation :=
  let state := engine_state current_result in
  let pile k := py_or (dget_none k state) (VList []) in
  let hand := pile "hand" in
  let draw_pile := pile "drawPile" in
  let discard_pile := pile "discardPile" in
  let exhaust_pile := pile "exhaustPile" in
  let play_pile := pile "playPile" in
  let pending := py_or (dget_none "pendingChoice" state) (VDict []) in
  enemies ← (l ← py_iter (pile "enemies"); count_alive l);
  hand_n ← py_len hand;
  draw_n ← py_len draw_pile;
  discard_n ← py_len discard_pile;
  exhaust_n ← py_len exhaust_pile;
  play_n ← py_len play_pile;
  energy ← py_int (py_or (dget_none "energy" state) (VInt 0));
  hand_ids ← _card_id_counts hand;
  hand_types ← _card_type_counts hand;
  draw_ids ← _card_id_counts draw_pile;
  discard_ids ← _card_id_counts discard_pile;
  exhaust_ids ← _card_id_counts exhaust_pile;
  choice_type ← py_get "choiceType" pending;
  min_select ← (v ← py_get "minSelect" pending; _int_or_none v);
  max_select ← (v ← py_get "maxSelect" pending; _int_or_none v);
  selected ← (v ← py_get "selectedCount" pending; py_int (py_or v (VInt 0)));
  Ok {| hand_size := hand_n; draw_pile_size := draw_n; discard_pile_size := discard_n;
        exhaust_pile_size := exhaust_n; play_pile_size := play_n; alive_enemy_count := enemies;
        player_energy := energy; hand_card_id_counts := hand_ids;
        hand_card_type_counts := hand_types; draw_pile_card_id_counts := draw_ids;
        discard_pile_card_id_counts := discard_ids; exhaust_pile_card_id_counts := exhaust_ids;
        pending_choice_type := choice_type; pending_min_select := min_select;
        pending_max_select := max_select; pending_selected_count := selected |}.

(** * Scores *)

Definition is_curse_or_status (v : pyval) : bool := veq_str v "Curse" || veq_str v "Status".

(** [score += max(0.0, 3.0 - float(cost))] for a known cost. *)
Definition add_cheapness (s : spec_float) (cost : option Z) : Res spec_float :=
  match cost with
  | None => Ok s
  | Some c => f ← py_float c; Ok (f_add s (f_max (f_of_Z 0) (f_sub (f_of_Z 3) f)))
  end.

Definition _card_score (o : OrderMaskedObservation) (c : Candidate) : Res spec_float :=
  s ← add_cheapness (f_of_Z 20) (card_cost c);
  let s := match card_cost c with
           | Some cost => if player_energy o <? cost then f_sub s (f_of_Z 4) else s
           | None => s
           end in
  Ok (if veq_str (card_type c) "Attack" && negb (alive_enemy_count o =? 0)
      then f_add s (f_of_Z 2)
      else if veq_str (card_type c) "Skill" then f_add s (f_of_Z 1)
      else if veq_str (card_type c) "Power" then f_add s (f_half 1)
      else if is_curse_or_status (card_type c) then f_sub s (f_of_Z 20)
      else s).

Definition _target_score (o : OrderMaskedObservation) (c : Candidate) : Res spec_float :=
  Ok (match target_enemy_index c with
      | Some _ => f_add (f_of_Z 15) (f_of_Z 1)
      | None => f_of_Z 15
      end).

Definition _hand_choice_score (o : OrderMaskedObservation) (c : Candidate) : Res spec_float :=
  let s := f_of_Z 12 in
  let s := if is_curse_or_status (card_type c) then f_sub s (f_of_Z 10) else s in
  let s := if veq_str (card_rarity c) "Rare" then f_add s (f_of_Z 3)
           else if veq_str (card_rarity c) "Uncommon" then f_add s (f_of_Z 2)
           else if veq_str (card_rarity c) "Common" then f_add s (f_of_Z 1)
           else s in
  add_cheapness s (card_cost c).

Definition _confirm_score (o : OrderMaskedObservation) (c : Candidate) : Res spec_float :=
  Ok (if veq_str (choice_kind c) "choice_skip" then f_of_Z (-5)
      else match pending_min_select o with
           | Some m => if pending_selected_count o <? m then f_of_Z (-20) else f_of_Z 8
           | None => f_of_Z 8
           end).

Definition _other_score (o : OrderMaskedObservation) (c : Candidate) : Res spec_float :=
  Ok (if veq_str (choice_kind c) "system" then f_of_Z 0
      else if veq_str (choice_kind c) "potion" then f_of_Z 10
      else f_of_Z 1).

Definition Evaluator : Type := OrderMaskedObservation -> Candidate -> Res spec_float.

Definition EVALUATORS_BY_CHOICE_KIND : list (string * (string * Evaluator)) :=
  [("card", ("card", _card_score)); ("choice_target", ("target", _target_score));
   ("choice_card", ("hand", _hand_choice_score)); ("choice_confirm", ("confirm", _confirm_score));
   ("choice_skip", ("confirm", _confirm_score)); ("potion", ("other", _other_score));
   ("system", ("other", _other_score))]%string.

Definition score_candidate (o : OrderMaskedObservation) (c : Candidate) : Res ScoredCandidate :=
  _ ← hashable (choice_kind c);
  let ne := match choice_kind c with
            | VStr k => match dget k EVALUATORS_BY_CHOICE_KIND with
                        | Some ne => ne | None => ("other"%string, _other_score) end
            | _ => ("other"%string, _other_score)
            end in
  s ← ne.2 o c;
  Ok {| candidate := c; score := s; evaluator_name := ne.1 |}.

(** * Ranking, pruning, splitting *)

(** [(-score, index) < (-score', index')]. *)
Definition rank_key (s : ScoredCandidate) : spec_float * Z :=
  (f_opp (score s), legal_action_index (candidate s)).
Definition key_lt (x y : spec_float * Z) : bool :=
  if f_eqb x.1 y.1 then x.2 <? y.2 else f_ltb x.1 y.1.
Definition rank_leb (x y : ScoredCandidate) : bool := negb (key_lt (rank_key y) (rank_key x)).

Definition rank_candidates (o : OrderMaskedObservation) (candidates : list Candidate) :
    Res (list ScoredCandidate) :=
  scored ← mapR (score_candidate o) candidates;
  Ok (sort_by rank_leb scored).

Definition prune_candidates (candidates : list ScoredCandidate) (width : Z)
    (score_threshold : option spec_float) : list ScoredCandidate :=
  if width <=? 0 then []
  else take (Z.to_nat width)
    (List.filter (fun c => match score_threshold with
                           | None => true
                           | Some t => f_leb t (score c)
                           end) candidates).

Definition _to_pipeline_ref (signature : DecisionSignature) (scored : ScoredCandidate) :
    PipelineCandidateRef :=
  {| ref_current_context_signature := signature;
     ref_semantic_action := cand_semantic_action (candidate scored);
     ref_target_index := target_index (candidate scored);
     ref_target_enemy_index := target_enemy_index (candidate scored);
     ref_score := score scored; ref_choice_kind := choice_kind (candidate scored);
     ref_choice_scope := choice_scope (candidate scored) |}.

Definition split_candidates (pruned : list ScoredCandidate) (signature : DecisionSignature) :
    Res (PipelineCandidateRef * list PipelineCandidateRef) :=
  match pruned with
  | [] => Raise (PyExc "NoViableCandidatesError" "cannot split zero pruned candidates")
  | c :: rest => Ok (_to_pipeline_ref signature c, map (_to_pipeline_ref signature) rest)
  end.

Definition build_candidate_pipeline_result (context : DecisionContext) (width : Z)
    (score_threshold : option spec_float) : Res CandidatePipelineResult :=
  observation ← build_order_masked_observation (current_decision_result context);
  candidates ← extract_candidates (current_decision_result context);
  ranked ← rank_candidates observation candidates;
  let pruned := prune_candidates ranked width score_threshold in
  match pruned with
  | [] => Ok (NoViableCandidates
            ("no viable candidates after pruning (width=" +:+ pretty width +:+ ", score_threshold=" +:+
             match score_threshold with None => "None"%string | Some t => float_repr t end +:+ ")")
            ranked observation)
  | _ =>
      split ← split_candidates pruned (current_context_signature context);
      Ok (CandidatePipelineSuccess split.1 split.2 ranked pruned observation)
  end.

(** The selection loop over the requested indices. *)
Definition select_index (all_candidates : list Candidate) (idx : Z) : Res ScoredCandidate :=
  match List.find (fun c => legal_action_index c =? idx) all_candidates with
  | Some c => Ok {| candidate := c; score := f_of_Z 0; evaluator_name := "explicit" |}
  | None => Raise (PyExc "ValueError"
      ("candidate index " +:+ pretty idx +:+ " not present among current legal actions (valid indices: " +:+
       py_repr (VList (map (fun c => VInt (legal_action_index c)) all_candidates)) +:+ ")"))
  end.

Definition build_candidate_pipeline_result_for_explicit_candidates (context : DecisionContext)
    (indices : list Z) : Res CandidatePipelineResult :=
  match indices with
  | [] => Raise (PyExc "ValueError"
      ("build_candidate_pipeline_result_for_explicit_candidates requires at least one " +:+
       "candidate index - it never implicitly expands all Legal Actions"))
  | _ =>
      observation ← build_order_masked_observation (current_decision_result context);
      all_candidates ← extract_candidates (current_decision_result context);
      selected ← mapR (select_index all_candidates) indices;
      split ← split_candidates selected (current_context_signature context);
      Ok (CandidatePipelineSuccess split.1 split.2 selected selected observation)
  end.

(** * Scores are never nan *)

Lemma py_float_finite z f : py_float z = Ok f -> is_finite_float f = true.
Proof. unfold py_float. by destruct (is_finite_float (f_of_Z z)) eqn:E; intros; simplify_eq. Qed.

Lemma add_cheapness_not_nan s cost s' :
  is_finite_float s = true -> add_cheapness s cost = Ok s' -> not_nan s' = true.
Proof.
  intros Hs. unfold add_cheapness. destruct cost as [c|].
  - intros (f & Hf%py_float_finite & [= <-])%bind_Ok. apply f_add_not_nan_r; [done|].
    by apply f_max_not_nan.
  - intros [= <-]. by destruct s.
Qed.

Lemma score_candidate_not_nan o c s : score_candidate o c = Ok s -> not_nan (score s) = true.
Proof.
  unfold score_candidate. intros (u & _ & H)%bind_Ok.
  assert (Hev : forall f sc, f o c = Ok sc ->
    (f = _card_score \/ f = _target_score \/ f = _hand_choice_score \/ f = _confirm_score \/
     f = _other_score) -> not_nan sc = true).
  { intros f sc Hf [-> |[-> |[-> |[-> | ->]]]].
    - unfold _card_score in Hf. apply bind_Ok in Hf as (s0 & H0 & Hf).
      apply add_cheapness_not_nan in H0; [|by vm_compute]. injection Hf as <-.
      assert (H1 : not_nan (match card_cost c with
        | Some cost => if player_energy o <? cost then f_sub s0 (f_of_Z 4) else s0 | None => s0 end) = true).
      { destruct (card_cost c); [|done]. destruct (_ <? _); [|done].
        by apply f_sub_not_nan. }
      repeat case_match; try done; first [by apply f_add_not_nan|by apply f_sub_not_nan].
    - unfold _target_score in Hf. injection Hf as <-. by destruct (target_enemy_index c).
    - unfold _hand_choice_score in Hf. eapply add_cheapness_not_nan, Hf.
      repeat case_match; by vm_compute.
    - unfold _confirm_score in Hf. injection Hf as <-. repeat case_match; by vm_compute.
    - unfold _other_score in Hf. injection Hf as <-. repeat case_match; by vm_compute. }
  apply bind_Ok in H as (sc & Hsc & [= <-]). simpl. eapply Hev; [exact Hsc|].
  destruct (choice_kind c); simpl; auto 6.
  unfold EVALUATORS_BY_CHOICE_KIND. cbn [dget]. repeat case_match; simplify_eq/=; auto 6.
Qed.

(** * Ranking *)

(** [x] ranks no later than [y]: a greater score, or an equal score and a legal
    action offered no later. *)
Definition ranks_before (x y : ScoredCandidate) : Prop :=
  f_ltb (score y) (score x) = true \/
  f_eqb (score x) (score y) = true /\
  legal_action_index (candidate x) <= legal_action_index (candidate y).

Definition scored_rank (s : ScoredCandidate) : Z * Z * Z := float_rank (f_opp (score s)).

Lemma rank_lt_trans a b c : rank_lt a b -> rank_lt b c -> rank_lt a c.
Proof. unfold rank_lt. lia. Qed.
Lemma rank_lt_total a b : a = b \/ rank_lt a b \/ rank_lt b a.
Proof.
  destruct a as [[a1 a2] a3], b as [[b1 b2] b3]. unfold rank_lt. simpl.
  destruct (Z.lt_total a1 b1) as [?|[-> |?]]; [lia| |lia].
  destruct (Z.lt_total a2 b2) as [?|[-> |?]]; [lia| |lia].
  destruct (Z.lt_total a3 b3) as [?|[-> |?]]; [lia|auto|lia].
Qed.
Lemma rank_lt_irrefl a : ¬ rank_lt a a.
Proof. unfold rank_lt. lia. Qed.

(** The key order, as an order on ranks. *)
Lemma key_lt_spec x y :
  not_nan (score x) = true -> not_nan (score y) = true ->
  key_lt (rank_key x) (rank_key y) = true ↔
  rank_lt (scored_rank x) (scored_rank y) \/
  scored_rank x = scored_rank y /\ legal_action_index (candidate x) < legal_action_index (candidate y).
Proof.
  intros Hx Hy. unfold key_lt, rank_key, scored_rank. cbn [fst snd].
  assert (Hx' : not_nan (f_opp (score x)) = true) by (by rewrite f_opp_not_nan).
  assert (Hy' : not_nan (f_opp (score y)) = true) by (by rewrite f_opp_not_nan).
  destruct (f_eqb _ _) eqn:E.
  - apply f_eqb_rank in E; [|done..]. rewrite E, Z.ltb_lt.
    split; [auto|]. intros [H|[_ H]]; [by destruct (rank_lt_irrefl _ H)|done].
  - rewrite f_ltb_rank by done. split; [auto|]. intros [H|[H _]]; [done|].
    apply f_eqb_rank in H; [|done..]. congruence.
Qed.

Lemma float_rank_opp f :
  float_rank (f_opp f) = (- (float_rank f).1.1, - (float_rank f).1.2, - (float_rank f).2).
Proof. destruct f as [[]|[]| |[] m e]; simpl; rewrite ?Z.opp_involutive; reflexivity. Qed.

Lemma rank_leb_spec x y :
  not_nan (score x) = true -> not_nan (score y) = true ->
  rank_leb x y = true ↔ ranks_before x y.
Proof.
  intros Hx Hy. unfold rank_leb, ranks_before. rewrite negb_true_iff, <- not_true_iff_false.
  rewrite key_lt_spec, f_ltb_rank, f_eqb_rank by done. unfold scored_rank.
  rewrite !float_rank_opp. unfold rank_lt.
  destruct (float_rank (score x)) as [[x1 x2] x3], (float_rank (score y)) as [[y1 y2] y3]. simpl.
  rewrite !pair_eq. lia.
Qed.

(** The order on the scored candidates made total: nan scores last, never
    reached. *)
Lemma rank_leb_total x y :
  not_nan (score x) = true -> not_nan (score y) = true ->
  rank_leb x y = true \/ rank_leb y x = true.
Proof.
  intros Hx Hy. rewrite !rank_leb_spec by done. unfold ranks_before.
  rewrite !f_ltb_rank, !f_eqb_rank by done.
  destruct (rank_lt_total (float_rank (score x)) (float_rank (score y))) as [H|[H|H]]; [|auto..].
  destruct (Z.le_ge_cases (legal_action_index (candidate x)) (legal_action_index (candidate y))); auto.
Qed.

Lemma rank_leb_trans x y z :
  not_nan (score x) = true -> not_nan (score y) = true -> not_nan (score z) = true ->
  rank_leb x y = true -> rank_leb y z = true -> rank_leb x z = true.
Proof.
  intros Hx Hy Hz. rewrite !rank_leb_spec by done. unfold ranks_before.
  rewrite !f_ltb_rank, !f_eqb_rank by done. unfold rank_lt.
  destruct (float_rank (score x)) as [[x1 x2] x3], (float_rank (score y)) as [[y1 y2] y3],
    (float_rank (score z)) as [[z1 z2] z3]. simpl. rewrite !pair_eq. lia.
Qed.

Lemma mapR_Ok_inv {A B} (f : A -> Res B) l ys :
  mapR f l = Ok ys -> Forall2 (fun x y => f x = Ok y) l ys.
Proof.
  revert ys. induction l as [|x l IH]; intros ys; simpl; [intros [= <-]; constructor|].
  intros (y & Hy & (ys' & Hys & [= <-])%bind_Ok)%bind_Ok. constructor; [done|by apply IH].
Qed.

Lemma StronglySorted_impl {A} (R R' : A -> A -> Prop) (P : A -> Prop) l :
  (forall x y, P x -> P y -> R x y -> R' x y) -> Forall P l ->
  StronglySorted R l -> StronglySorted R' l.
Proof.
  intros HR HP. induction 1 as [|x l _ IH Hf]; constructor.
  - apply Forall_cons in HP as [_ HP]. auto.
  - apply Forall_cons in HP as [Px HP]. rewrite Forall_forall in *. auto.
Qed.

Lemma ranked_facts o cs ranked :
  rank_candidates o cs = Ok ranked ->
  exists scored, Forall2 (fun c s => score_candidate o c = Ok s) cs scored /\
    ranked ≡ₚ scored /\ Forall (fun s => not_nan (score s) = true) ranked /\
    StronglySorted ranks_before ranked.
Proof.
  unfold rank_candidates. intros (scored & Hs & [= <-])%bind_Ok. apply mapR_Ok_inv in Hs.
  assert (Hn : Forall (fun s => not_nan (score s) = true) scored).
  { clear -Hs. induction Hs; constructor; [by eapply score_candidate_not_nan|done]. }
  assert (Hn' : Forall (fun s => not_nan (score s) = true) (sort_by rank_leb scored))
    by (by rewrite sort_by_Permutation).
  exists scored. split_and!; [done|apply sort_by_Permutation|done|].
  apply (StronglySorted_impl (leP rank_leb) _ (fun s => not_nan (score s) = true)); [|exact Hn'|].
  - intros x y Hx Hy H. by apply rank_leb_spec.
  - apply (sort_by_sorted_on _ (fun s => not_nan (score s) = true)); [| |done].
    + intros. by apply rank_leb_total.
    + intros x y z. apply rank_leb_trans.
Qed.

Lemma StronglySorted_app_inv {A} (R : A -> A -> Prop) l1 l2 x y :
  StronglySorted R (l1 ++ l2) -> x ∈ l1 -> y ∈ l2 -> R x y.
Proof.
  induction l1 as [|z l1 IH]; simpl; [by intros _ ?%elem_of_nil|].
  inversion 1 as [|? ? Hs Hf]; subst. intros [-> |Hin]%elem_of_cons Hy; [|by apply IH].
  rewrite Forall_forall in Hf. apply Hf, elem_of_app. by right.
Qed.

(** the pipeline's ranking is best first and loses nothing: every
    candidate is scored once, the ranked list holds exactly those scores in
    decreasing order with ties in legal-action order, and pruning keeps at most
    [width] of them, above the threshold, such that every candidate above the
    threshold that was dropped ranks after every one kept. *)
Theorem pipeline_ranks_and_prunes o cs ranked width threshold :
  rank_candidates o cs = Ok ranked ->
  exists scored, Forall2 (fun c s => score_candidate o c = Ok s) cs scored /\
    ranked ≡ₚ scored /\ StronglySorted ranks_before ranked /\
    let pruned := prune_candidates ranked width threshold in
    let above s := match threshold with None => true | Some t => f_leb t (score s) end in
    Z.of_nat (length pruned) <= Z.max 0 width /\
    (forall s, s ∈ pruned -> s ∈ ranked /\ above s = true) /\
    exists dropped, List.filter above ranked = pruned ++ dropped /\
      (0 < width -> dropped ≠ [] -> Z.of_nat (length pruned) = width) /\
      forall s d, s ∈ pruned -> d ∈ dropped -> ranks_before s d.
Proof.
  intros (scored & Hs & Hp & _ & Hss)%ranked_facts. exists scored. split_and!; [done..|].
  simpl. unfold prune_candidates. set (above := fun s => match threshold with None => true | Some t => _ end).
  destruct (Z.leb_spec width 0) as [Hw|Hw].
  { split; [simpl; lia|]. split; [by intros s ?%elem_of_nil|].
    exists (List.filter above ranked). split; [done|]. split; [lia|by intros s d ?%elem_of_nil]. }
  set (kept := List.filter above ranked).
  split; [rewrite length_take; lia|]. split.
  - intros s Hin. apply (subseteq_take (Z.to_nat width) kept) in Hin.
    apply list_elem_of_In, filter_In in Hin as [Hin Ha]. split; [by apply list_elem_of_In|done].
  - exists (drop (Z.to_nat width) kept). split; [by rewrite take_drop|]. split.
    + intros _ Hd. rewrite length_take. assert (length (drop (Z.to_nat width) kept) ≠ 0%nat)
        by (by destruct (drop _ kept)). rewrite length_drop in *. lia.
    + intros s d Hin Hd. eapply StronglySorted_app_inv; [|exact Hin|exact Hd].
      rewrite take_drop. subst kept. clear -Hss. induction Hss as [|x l _ IH Hf]; simpl; [constructor|].
      destruct (above x); [|done]. constructor; [done|]. rewrite Forall_forall in *.
      intros y Hy. apply Hf. apply list_elem_of_In, filter_In in Hy as [Hy _]. by apply list_elem_of_In.
Qed.

(** * Explicit candidates *)

Definition action_semantics (a : pydict) : SemanticAction :=
  {| action_type := dget_none "action_type" a; semantic_key := dget_or "semantic_key" (VStr "") a |}.

Lemma candidate_of_action_facts st scope i a c :
  candidate_of_action st scope i a = Ok c ->
  cand_semantic_action c = action_semantics a /\ legal_action_index c = i.
Proof.
  unfold candidate_of_action. intros H.
  do 8 (apply bind_Ok in H as (? & _ & H)). injection H as <-. done.
Qed.

Lemma number_from_lookup {A} cursor (l : list A) k :
  number_from cursor l !! k = (fun x => (cursor + Z.of_nat k, x)) <$> l !! k.
Proof.
  revert cursor k. induction l as [|x l IH]; intros cursor k; [done|].
  destruct k as [|k]; cbn [number_from]; [cbn; by rewrite Z.add_0_r|].
  rewrite !lookup_cons_ne_0 by done. cbn [Nat.pred]. rewrite IH.
  replace (cursor + 1 + Z.of_nat k) with (cursor + Z.of_nat (S k)) by lia. done.
Qed.

(** The candidates are the legal actions, in order, numbered from 0. *)
Lemma extract_candidates_facts st cs :
  extract_candidates st = Ok cs ->
  let legal := _legal_actions_from_current_result st in
  length cs = length legal /\
  forall k c, cs !! k = Some c -> exists a, legal !! k = Some a /\
    cand_semantic_action c = action_semantics a /\ legal_action_index c = Z.of_nat k.
Proof.
  unfold extract_candidates. intros (scope & _ & H)%bind_Ok. apply mapR_Ok_inv in H. simpl.
  split; [by rewrite <- (Forall2_length _ _ _ H), length_number_from|].
  intros k c Hc. destruct (Forall2_lookup_r _ _ _ _ _ H Hc) as ([i a] & Ha & Hca).
  rewrite number_from_lookup in Ha. apply fmap_Some in Ha as (a' & Ha & [= -> ->]).
  exists a'. split; [done|]. by apply candidate_of_action_facts in Hca.
Qed.

Lemma select_index_valid st cs i :
  extract_candidates st = Ok cs ->
  0 <= i < Z.of_nat (length (_legal_actions_from_current_result st)) ->
  exists a c, _legal_actions_from_current_result st !! Z.to_nat i = Some a /\
    cand_semantic_action c = action_semantics a /\
    select_index cs i = Ok {| candidate := c; score := f_of_Z 0; evaluator_name := "explicit" |}.
Proof.
  intros [Hlen Hk]%extract_candidates_facts Hi. unfold select_index.
  destruct (List.find _ cs) as [c|] eqn:Hf.
  - apply find_some in Hf as [Hin Heq%Z.eqb_eq].
    apply list_elem_of_In, list_elem_of_lookup in Hin as [k Hc].
    destruct (Hk k c Hc) as (a & Ha & Hs & Hidx). exists a, c. split_and!; [|done..].
    by rewrite <- Heq, Hidx, Nat2Z.id.
  - exfalso. destruct (lookup_lt_is_Some_2 cs (Z.to_nat i)) as [c Hc]; [lia|].
    destruct (Hk _ _ Hc) as (_ & _ & _ & Hidx).
    assert (Hin : In c cs) by (by apply list_elem_of_In; eapply list_elem_of_lookup_2).
    apply (find_none _ _ Hf) in Hin. rewrite Hidx in Hin. apply Z.eqb_neq in Hin. lia.
Qed.

Lemma select_index_invalid st cs i :
  extract_candidates st = Ok cs ->
  ¬ 0 <= i < Z.of_nat (length (_legal_actions_from_current_result st)) ->
  exists msg, select_index cs i = Raise (PyExc "ValueError" msg).
Proof.
  intros [Hlen Hk]%extract_candidates_facts Hi. unfold select_index.
  destruct (List.find _ cs) as [c|] eqn:Hf; [|by eexists].
  exfalso. apply find_some in Hf as [Hin Heq%Z.eqb_eq].
  apply list_elem_of_In, list_elem_of_lookup in Hin as [k Hc].
  destruct (Hk k c Hc) as (a & Ha & _ & Hidx). apply lookup_lt_Some in Ha. lia.
Qed.

(** A reference to the legal action [i] of [st], as requested. *)
Definition refers_to (context : DecisionContext) (i : Z) (r : PipelineCandidateRef) : Prop :=
  exists a, _legal_actions_from_current_result (current_decision_result context) !! Z.to_nat i = Some a /\
    ref_semantic_action r = action_semantics a /\
    ref_current_context_signature r = current_context_signature context /\
    ref_score r = f_of_Z 0.

(** The selection of a request whose indices are all legal, and of one with
    an index that is not. *)
Lemma explicit_selected context indices cs :
  extract_candidates (current_decision_result context) = Ok cs ->
  let valid i := 0 <= i < Z.of_nat (length (_legal_actions_from_current_result (current_decision_result context))) in
  (Forall valid indices -> exists selected, mapR (select_index cs) indices = Ok selected /\
     Forall2 (fun i s => refers_to context i (_to_pipeline_ref (current_context_signature context) s)) indices selected) /\
  (¬ Forall valid indices -> exists msg, mapR (select_index cs) indices = Raise (PyExc "ValueError" msg)).
Proof.
  intros Hcs valid. split.
  - induction 1 as [|i l Hi _ (sel & Hs & Hf)]; [by exists []|].
    destruct (select_index_valid _ _ _ Hcs Hi) as (a & c & Ha & Hc & Hsi).
    eexists (_ :: sel). cbn [mapR]. rewrite Hsi, Hs. split; [reflexivity|].
    constructor; [|done]. by exists a.
  - intros Hv. induction indices as [|i l IH]; [by destruct Hv|]. cbn [mapR].
    destruct (decide (valid i)) as [Hi|Hi].
    + destruct (select_index_valid _ _ _ Hcs Hi) as (a & c & _ & _ & ->).
      destruct IH as [msg Hm]; [intros H; apply Hv; by constructor|].
      exists msg. by rewrite Hm.
    + destruct (select_index_invalid _ _ _ Hcs Hi) as [msg ->]. by eexists.
Qed.

(** The pipeline's answer to a request of legal indices, and to one that is
    not. *)
Lemma explicit_pipeline_result context indices o cs :
  build_order_masked_observation (current_decision_result context) = Ok o ->
  extract_candidates (current_decision_result context) = Ok cs -> indices <> [] ->
  let valid i := 0 <= i < Z.of_nat (length (_legal_actions_from_current_result (current_decision_result context))) in
  (Forall valid indices -> exists continuation subs selected,
     build_candidate_pipeline_result_for_explicit_candidates context indices
     = Ok (CandidatePipelineSuccess continuation subs selected selected o) /\
     Forall2 (refers_to context) indices (continuation :: subs) /\ length selected = length indices) /\
  (¬ Forall valid indices -> exists msg,
     build_candidate_pipeline_result_for_explicit_candidates context indices = Raise (PyExc "ValueError" msg)).
Proof.
  intros Ho Hcs Hne valid. unfold build_candidate_pipeline_result_for_explicit_candidates. rewrite Ho, Hcs.
  destruct (explicit_selected context indices cs Hcs) as [Hvalid Hinvalid].
  destruct indices as [|i0 rest]; [done|]. cbn [mbind Res_bind]. set (indices := i0 :: rest) in *. split.
  - intros Hv. destruct (Hvalid Hv) as (selected & -> & Hf).
    destruct selected as [|s sel]; [inversion Hf|]. pose proof (Forall2_length _ _ _ Hf) as Hlen.
    eexists _, _, _. split; [reflexivity|]. split; [|done]. inversion Hf as [|? ? ? ? Hh Ht]; subst.
    constructor; [done|]. clear -Ht. induction Ht; simpl; constructor; done.
  - intros Hv. destruct (Hinvalid Hv) as [msg ->]. by eexists.
Qed.

(** the explicit pipeline returns exactly the requested candidates in the
    requested order, the first as continuation and the others as
    sub-branches, each naming the semantic action of the legal action at its
    index; if some index is not one of the current legal actions it raises
    [ValueError] and returns nothing, and it never expands an empty request. *)
Theorem explicit_pipeline_exact context indices o cs :
  build_order_masked_observation (current_decision_result context) = Ok o ->
  extract_candidates (current_decision_result context) = Ok cs ->
  let legal := _legal_actions_from_current_result (current_decision_result context) in
  let valid i := 0 <= i < Z.of_nat (length legal) in
  match indices with
  | [] => exists msg, build_candidate_pipeline_result_for_explicit_candidates context indices
            = Raise (PyExc "ValueError" msg)
  | _ =>
      (Forall valid indices -> exists continuation subs selected,
         build_candidate_pipeline_result_for_explicit_candidates context indices
         = Ok (CandidatePipelineSuccess continuation subs selected selected o) /\
         Forall2 (refers_to context) indices (continuation :: subs)) /\
      (¬ Forall valid indices -> exists msg,
         build_candidate_pipeline_result_for_explicit_candidates context indices
         = Raise (PyExc "ValueError" msg))
  end.
Proof.
  intros Ho Hcs legal valid. destruct indices as [|i0 rest]; [by eexists|].
  destruct (explicit_pipeline_result context (i0 :: rest) o cs Ho Hcs) as [Hvalid Hinvalid]; [done|].
  split; [|exact Hinvalid]. intros (continuation & subs & selected & H & Hf & _)%Hvalid. by exists continuation, subs, selected.
Qed.

(** * Draw-pile order does not reach the scores *)

(** [st] with another draw pile. *)
Definition with_draw_pile (st : BattleState) (pile : list pyval) : BattleState :=
  {| engine_state := dset "drawPile" (VList pile) (engine_state st); is_terminal := is_terminal st;
     outcome := outcome st; turn := turn st; enemy_max_hps := enemy_max_hps st;
     shuffle_rng_seed := shuffle_rng_seed st; _cached_legal_actions := _cached_legal_actions st;
     decision_frame := decision_frame st; combat_completion := combat_completion st |}.

Lemma dget_none_dset_ne k k' v d : k ≠ k' -> dget_none k (dset k' v d) = dget_none k d.
Proof. intros H. unfold dget_none. by rewrite dget_dset_ne. Qed.

Lemma dget_none_dset_eq k v d : dget_none k (dset k v d) = v.
Proof. unfold dget_none. by rewrite dget_dset_eq. Qed.

Lemma py_or_list l : py_or (VList l) (VList []) = VList l.
Proof. by destruct l. Qed.

(** The key of one card, and whether reading it raises. *)
Definition card_key (f : string) (c : pyval) : Res (list pyval) :=
  if truthy c then
    v ← py_get f c; _ ← hashable v; Ok (match v with VNone => [] | _ => [v] end)
  else Ok [].

Lemma card_keys_spec f l ks :
  card_keys f l = Ok ks ↔ exists kss, Forall2 (fun c k => card_key f c = Ok k) l kss /\ ks = concat kss.
Proof.
  split.
  - revert ks. induction l as [|c l IH]; intros ks; cbn [card_keys];
      [intros [= <-]; exists []; split; [constructor|done]|].
    unfold card_key. destruct (truthy c) eqn:Et.
    + intros (v & Hv & (u & Hu & (ks' & (kss & Hf & ->)%IH & [= <-])%bind_Ok)%bind_Ok)%bind_Ok.
      exists (match v with VNone => [] | _ => [v] end :: kss). split; [|by destruct v].
      constructor; [|done]. rewrite Et, Hv. cbn [mbind Res_bind]. by rewrite Hu.
    + intros (kss & Hf & ->)%IH. exists ([] :: kss). split; [|done]. constructor; [|done].
      by rewrite Et.
  - intros (kss & Hf & ->). induction Hf as [|c k l kss Hc _ IH]; [done|]. cbn [card_keys].
    unfold card_key in Hc. destruct (truthy c); [|injection Hc as <-; by rewrite IH].
    apply bind_Ok in Hc as (v & -> & Hc). apply bind_Ok in Hc as (u & Hu & [= <-]).
    cbn [mbind Res_bind]. rewrite Hu. cbn [mbind Res_bind]. rewrite IH. by destruct v.
Qed.

Lemma Forall2_Permutation_l {A B} (R : A -> B -> Prop) l1 l2 k1 :
  l1 ≡ₚ l2 -> Forall2 R l1 k1 -> exists k2, Forall2 R l2 k2 /\ k1 ≡ₚ k2.
Proof.
  intros Hp. revert k1. induction Hp as [|x l1 l2 _ IH|x y l|l1 l2 l3 _ IH1 _ IH2]; intros k1 H.
  - exists k1. split; [done|]. done.
  - inversion H as [|? z ? k Hx Hl]; subst. destruct (IH k Hl) as (k2 & ? & ?).
    exists (z :: k2). split; by constructor.
  - inversion H as [|? z ? k Hx Hl]; subst. inversion Hl as [|? z' ? k' Hy Hl']; subst.
    exists (z' :: z :: k'). split; [by repeat constructor|constructor].
  - destruct (IH1 k1 H) as (k2 & H2 & ?). destruct (IH2 k2 H2) as (k3 & H3 & ?).
    exists k3. split; [done|]. by etransitivity.
Qed.

Lemma card_keys_Permutation f l1 l2 ks1 :
  l1 ≡ₚ l2 -> card_keys f l1 = Ok ks1 -> exists ks2, card_keys f l2 = Ok ks2 /\ ks1 ≡ₚ ks2.
Proof.
  intros Hp (kss & Hf & ->)%card_keys_spec.
  destruct (Forall2_Permutation_l _ _ _ _ Hp Hf) as (kss2 & Hf2 & Hpk).
  exists (concat kss2). split; [apply card_keys_spec; by exists kss2|].
  clear -Hpk. induction Hpk as [|x l1 l2 _ IH|x y l|l1 l2 l3 _ IH1 _ IH2]; simpl; [done| | |].
  - by rewrite IH.
  - by rewrite !(app_assoc _ _ (concat l)), (Permutation_app_comm y x).
  - by etransitivity.
Qed.

(** Equal but for the draw-pile counts, which count the same cards. *)
Definition same_but_draw_order (o1 o2 : OrderMaskedObservation) : Prop :=
  (exists ks1 ks2, draw_pile_card_id_counts o1 = counter_of py_eqb ks1 /\
     draw_pile_card_id_counts o2 = counter_of py_eqb ks2 /\ ks1 ≡ₚ ks2) /\
  o2 = {| hand_size := hand_size o1; draw_pile_size := draw_pile_size o1;
          discard_pile_size := discard_pile_size o1; exhaust_pile_size := exhaust_pile_size o1;
          play_pile_size := play_pile_size o1; alive_enemy_count := alive_enemy_count o1;
          player_energy := player_energy o1; hand_card_id_counts := hand_card_id_counts o1;
          hand_card_type_counts := hand_card_type_counts o1;
          draw_pile_card_id_counts := draw_pile_card_id_counts o2;
          discard_pile_card_id_counts := discard_pile_card_id_counts o1;
          exhaust_pile_card_id_counts := exhaust_pile_card_id_counts o1;
          pending_choice_type := pending_choice_type o1; pending_min_select := pending_min_select o1;
          pending_max_select := pending_max_select o1;
          pending_selected_count := pending_selected_count o1 |}.

Lemma observation_draw_order st l1 l2 o1 :
  l1 ≡ₚ l2 -> build_order_masked_observation (with_draw_pile st l1) = Ok o1 ->
  exists o2, build_order_masked_observation (with_draw_pile st l2) = Ok o2 /\
    same_but_draw_order o1 o2.
Proof.
  intros Hp. unfold build_order_masked_observation. cbn [engine_state with_draw_pile].
  rewrite !dget_none_dset_eq, !py_or_list, !dget_none_dset_ne by done.
  assert (Hlen : py_len (VList l2) = py_len (VList l1)) by (cbn; by rewrite Hp). rewrite Hlen.
  generalize (py_or (dget_none "hand" (engine_state st)) (VList [])) as hand.
  generalize (py_or (dget_none "discardPile" (engine_state st)) (VList [])) as discard.
  generalize (py_or (dget_none "exhaustPile" (engine_state st)) (VList [])) as exhaust.
  intros exhaust discard hand H.
  do 9 (apply bind_Ok in H as (? & -> & H); cbn [mbind Res_bind]).
  apply bind_Ok in H as (c1 & Hc & H). unfold _card_id_counts, card_counts in Hc.
  rewrite py_or_list in Hc. cbn [py_iter mbind Res_bind] in Hc.
  apply bind_Ok in Hc as (ks1 & Hk & [= <-]).
  destruct (card_keys_Permutation _ _ _ _ Hp Hk) as (ks2 & Hk2 & Hpk).
  assert (Hc2 : _card_id_counts (VList l2) = Ok (counter_of py_eqb ks2)).
  { unfold _card_id_counts, card_counts. rewrite py_or_list. cbn [py_iter mbind Res_bind].
    by rewrite Hk2. }
  rewrite Hc2. cbn [mbind Res_bind].
  do 6 (apply bind_Ok in H as (? & -> & H); cbn [mbind Res_bind]). injection H as <-.
  eexists. split; [reflexivity|]. split; [|reflexivity]. by exists ks1, ks2.
Qed.

Lemma score_same_but_draw_order o1 o2 c :
  same_but_draw_order o1 o2 -> score_candidate o1 c = score_candidate o2 c.
Proof.
  intros [_ H]. rewrite H. unfold score_candidate, EVALUATORS_BY_CHOICE_KIND. cbn [dget].
  destruct (choice_kind c) as [| | | |k| |]; try reflexivity.
  repeat (destruct (String.eqb k _); [reflexivity|]). reflexivity.
Qed.

Lemma bind_ext {A B} (m : Res A) (f g : A -> Res B) : (forall x, f x = g x) -> (m ≫= f) = (m ≫= g).
Proof. intros H. destruct m; [apply H|done]. Qed.

(** C40: the order of the draw pile cannot reach the candidate scores: for two
    decision results that differ only by a permutation of the draw pile, the
    observation of the second is that of the first up to counting the same
    cards in another order, the candidates are the same, and so are the ranked
    scores. *)
Theorem draw_order_cannot_reach_scores st l1 l2 o1 :
  l1 ≡ₚ l2 -> build_order_masked_observation (with_draw_pile st l1) = Ok o1 ->
  exists o2, build_order_masked_observation (with_draw_pile st l2) = Ok o2 /\
    same_but_draw_order o1 o2 /\
    extract_candidates (with_draw_pile st l1) = extract_candidates (with_draw_pile st l2) /\
    forall cs, rank_candidates o1 cs = rank_candidates o2 cs.
Proof.
  intros Hp Ho. destruct (observation_draw_order st l1 l2 o1 Hp Ho) as (o2 & H2 & Hs).
  exists o2. split_and!; [done|done| |].
  - unfold extract_candidates, _choice_scope_from_current_result,
      is_action_continuation_pending_choice, pending_choice_metadata, _legal_actions_from_current_result.
    cbn [engine_state with_draw_pile _cached_legal_actions]. rewrite !dget_none_dset_ne by done.
    apply bind_ext. intros scope. apply mapR_ext. intros [i a] _.
    unfold candidate_of_action, _card_feature_by_id. cbn [fst snd].
    by rewrite !dget_none_dset_ne by done.
  - intros cs. unfold rank_candidates.
    by rewrite (mapR_ext _ (score_candidate o2)) by (intros; by apply score_same_but_draw_order).
Qed.

(** * Examples *)

Definition demo_card (name ctype : string) (cost : Z) : pyval :=
  VDict [("id", VStr name); ("type", VStr ctype); ("cost", VInt cost)].
Definition demo_action (kind name : string) : pydict :=
  [("action_type", VStr kind); ("semantic_key", VStr name);
   ("parameters", VDict [("cardId", VStr name)])].
Definition demo_state : BattleState :=
  {| engine_state := [("hand", VList [demo_card "Defend" "Skill" 1; demo_card "Strike" "Attack" 1]);
                      ("energy", VInt 3); ("enemies", VList [VDict [("hp", VInt 9)]])];
     is_terminal := false; outcome := "in_progress"; turn := 1; enemy_max_hps := [];
     shuffle_rng_seed := None;
     _cached_legal_actions := Some [demo_action "card" "Defend"; demo_action "card" "Strike";
                                    demo_action "system" "end"];
     decision_frame := None; combat_completion := None |}.
Definition demo_draw : list pyval := [demo_card "Bash" "Attack" 2; demo_card "Strike" "Attack" 1].
Definition demo_observation : OrderMaskedObservation :=
  {| hand_size := 2; draw_pile_size := 2; discard_pile_size := 0; exhaust_pile_size := 0;
     play_pile_size := 0; alive_enemy_count := 1; player_energy := 3;
     hand_card_id_counts := []; hand_card_type_counts := []; draw_pile_card_id_counts := [];
     discard_pile_card_id_counts := []; exhaust_pile_card_id_counts := [];
     pending_choice_type := VNone; pending_min_select := None; pending_max_select := None;
     pending_selected_count := 0 |}.
Definition demo_candidates : list Candidate := from_ok (extract_candidates demo_state) [].
Definition demo_context : DecisionContext :=
  from_main_stable_capture (JsonDictRoot []) demo_state (example_signature 0).

Definition demo_ranked : list ScoredCandidate :=
  from_ok (rank_candidates demo_observation demo_candidates) [].

Lemma pipeline_ranks_and_prunes_witness :
  StronglySorted ranks_before demo_ranked /\
  map (fun s => legal_action_index (candidate s)) (prune_candidates demo_ranked 2 None) = [1; 0].
Proof.
  split; [|vm_compute; reflexivity].
  destruct (pipeline_ranks_and_prunes demo_observation demo_candidates demo_ranked 2 None)
    as (scored & _ & _ & H & _); [vm_compute; reflexivity|exact H].
Defined.

Lemma explicit_pipeline_exact_witness :
  exists continuation subs selected o,
    build_candidate_pipeline_result_for_explicit_candidates demo_context [2; 0]
    = Ok (CandidatePipelineSuccess continuation subs selected selected o) /\
    Forall2 (refers_to demo_context) [2; 0] (continuation :: subs).
Proof.
  destruct (build_order_masked_observation (current_decision_result demo_context)) as [o|e] eqn:Ho;
    [|vm_compute in Ho; discriminate Ho].
  destruct (explicit_pipeline_exact demo_context [2; 0] o demo_candidates Ho) as [H _];
    [vm_compute; reflexivity|].
  destruct H as (c & s & sel & H1 & H2).
  - repeat constructor; cbn; lia.
  - exists c, s, sel, o. split; [exact H1|exact H2].
Defined.

Lemma draw_order_cannot_reach_scores_witness :
  exists o1 o2, build_order_masked_observation (with_draw_pile demo_state demo_draw) = Ok o1 /\
    build_order_masked_observation (with_draw_pile demo_state (rev demo_draw)) = Ok o2 /\
    same_but_draw_order o1 o2.
Proof.
  destruct (build_order_masked_observation (with_draw_pile demo_state demo_draw)) as [o|e] eqn:Ho;
    [|vm_compute in Ho; discriminate Ho].
  destruct (draw_order_cannot_reach_scores demo_state demo_draw (rev demo_draw) o) as (o2 & H2 & Hs & _).
  - apply Permutation_rev.
  - exact Ho.
  - exists o, o2. split; [reflexivity|]. split; [exact H2|exact Hs].
Defined.
