(* ===== verification/MainLoop.v ===== *)
(** The Main decision loop (Combat/search/main_loop.py): one live session
    stepped from its current decision result, the held stable snapshot with the
    replay prefix recorded since, and the routing of decisions to direct
    selection, static pending selection or search. *)

From S2P Require Export Candidates.

Definition ROUTE_DIRECT : string := "direct".
Definition ROUTE_SEARCH : string := "search".
Definition ROUTE_PENDING_STATIC : string := "pending_static".
Definition ROUTE_VALUES : list string := [ROUTE_DIRECT; ROUTE_SEARCH; ROUTE_PENDING_STATIC].

Definition default_routing_policy (boundary : string) : string := ROUTE_DIRECT.

Record PlannedStep := {
  ps_semantic_action : SemanticAction;
  ps_target_index : option Z;
  ps_target_enemy_index : option Z;
  ps_expected_signature : option DecisionSignature;
}.

Inductive SearchResult :=
  | SearchSuccess (plan : list PlannedStep)
  | SearchEvaluationFailure (detail : string).

Inductive MainLoopOutcome :=
  | CombatTerminalOutcome (final_state : BattleState)
  | MainCombatFaultOutcome (error : pyexn)
  | CombatAbortedByDecisionFailureOutcome (detail : string) (search_failure : SearchResult).

Record MainLoopState (S : Type) := {
  session : S;
  current_result : BattleState;
  held_stable_snapshot : option pydict;
  ml_replay_prefix : list ReplayPrefixEntry;
  planned_sequence : list PlannedStep;
  combat_start_replay_root : option pydict;
}.
Arguments session {_} _.
Arguments current_result {_} _.
Arguments held_stable_snapshot {_} _.
Arguments ml_replay_prefix {_} _.
Arguments planned_sequence {_} _.
Arguments combat_start_replay_root {_} _.

(** [_PENDING_STATIC_ACTION_TYPE_RANK.get(action_type, default)]. *)
Definition pending_static_rank (action : pydict) : Res Z :=
  let action_type := dget_none "action_type" action in
  _ ← hashable action_type;
  Ok (if veq_str action_type "choice_skip" then 1 else 0).

(** [min(enumerate(actions), key=...)]: the first of the lowest rank. *)
Fixpoint min_by_rank (ranked : list (Z * pydict)) : option (Z * pydict) :=
  match ranked with
  | [] => None
  | a :: rest =>
      match min_by_rank rest with
      | Some b => if b.1 <? a.1 then Some b else Some a
      | None => Some a
      end
  end.

Definition planned_of (action : pydict) : PlannedStep :=
  {| ps_semantic_action := {| action_type := dget_none "action_type" action;
                              semantic_key := dget_or "semantic_key" (VStr "") action |};
     ps_target_index := None; ps_target_enemy_index := None; ps_expected_signature := None |}.

Definition pending_static_select (current : BattleState) : Res PlannedStep :=
  ranked ← mapR (fun a => r ← pending_static_rank a; Ok (r, a)) (_legal_actions_from_current_result current);
  match min_by_rank ranked with
  | None => Raise (PyExc "RuntimeError"
      "PENDING_STATIC: Current Decision Result reports no candidates to choose from")
  | Some chosen => Ok (planned_of chosen.2)
  end.

Definition first_candidate_direct_selector (current : BattleState) : Res PlannedStep :=
  match _legal_actions_from_current_result current with
  | [] => Raise (PyExc "RuntimeError"
      "DIRECT: Current Decision Result reports no candidates to choose from")
  | action :: _ => Ok (planned_of action)
  end.

(** The exceptions of a step the loop turns into a fault outcome. *)
Definition is_step_fault (e : pyexn) : bool :=
  str_in (exn_class e) ["ActionExecutionError"; "FaultedCombatSessionError"; "QuiescentBoundaryViolation"]%string.

Inductive ExecOutcome :=
  | _EXEC_SEQUENCE_EXHAUSTED
  | _EXEC_GO_TO_BOUNDARY
  | ExecFault (error : pyexn).

(** The fields of the loop's state, with the environment [E] its injected
    callbacks run in. *)
Section Loop.
Context {S E : Type} {HS : CombatSession S}.

Definition LoopState : Type := MainLoopState S * E.

Definition set_loop (s : S) (current : BattleState) (held : option pydict)
    (prefix : list ReplayPrefixEntry) (planned : list PlannedStep) (st : LoopState) : LoopState :=
  ({| session := s; current_result := current; held_stable_snapshot := held;
      ml_replay_prefix := prefix; planned_sequence := planned;
      combat_start_replay_root := combat_start_replay_root st.1 |}, st.2).
Definition set_session (s : S) (st : LoopState) : LoopState :=
  set_loop s (current_result st.1) (held_stable_snapshot st.1) (ml_replay_prefix st.1) (planned_sequence st.1) st.
Definition set_planned (planned : list PlannedStep) (st : LoopState) : LoopState :=
  set_loop (session st.1) (current_result st.1) (held_stable_snapshot st.1) (ml_replay_prefix st.1) planned st.
Definition set_current (current : BattleState) (st : LoopState) : LoopState :=
  set_loop (session st.1) current (held_stable_snapshot st.1) (ml_replay_prefix st.1) (planned_sequence st.1) st.
Definition set_prefix (prefix : list ReplayPrefixEntry) (st : LoopState) : LoopState :=
  set_loop (session st.1) (current_result st.1) (held_stable_snapshot st.1) prefix (planned_sequence st.1) st.

(** A call on the live session, and a call of an injected callback. *)
Definition on_live {A} (c : M S A) : M LoopState A := fun st =>
  let '(r, s') := c (session st.1) in (r, set_session s' st).
Definition on_env {A} (c : M E A) : M LoopState A := fun st =>
  let '(r, e') := c st.2 in (r, (st.1, e')).

Definition initialize_main_loop_state (s : S) (initial_result : BattleState) (start_root : option pydict) :
    MainLoopState S :=
  {| session := s; current_result := initial_result; held_stable_snapshot := None;
     ml_replay_prefix := []; planned_sequence := []; combat_start_replay_root := start_root |}.

Definition _capture_stable : M LoopState unit :=
  snapshot ← on_live capture_snapshot;
  modS (fun st => set_loop (session st.1) (current_result st.1) (Some snapshot)
                    start_new_replay_prefix_from_stable (planned_sequence st.1) st).

Definition build_main_decision_context (st : MainLoopState S) : Res DecisionContext :=
  match held_stable_snapshot st with
  | None => Raise (PyExc "RuntimeError"
      "build_main_decision_context() called before any Held Stable Snapshot was captured")
  | Some snapshot =>
      build_decision_context_from_held_stable (SnapshotRoot snapshot) (ml_replay_prefix st) (current_result st)
  end.

Definition build_combat_start_decision_context (st : MainLoopState S) : Res DecisionContext :=
  match held_stable_snapshot st, combat_start_replay_root st with
  | Some _, _ => Raise (PyExc "RuntimeError"
      "build_combat_start_decision_context() called after a real Held Stable Snapshot already exists - use build_main_decision_context() instead")
  | None, None => Raise (PyExc "RuntimeError"
      "build_combat_start_decision_context() called without a Combat Start Replay Root")
  | None, Some spec =>
      signature ← arrival_signature (ml_replay_prefix st) (current_result st);
      let context := from_combat_start_pending spec (current_result st) signature in
      Ok (match ml_replay_prefix st with
          | [] => context
          | prefix => with_replay_prefix context prefix
          end)
  end.

(** The record appended for a committed step. *)
Definition transition_entry (p : PlannedStep) (observed : DecisionSignature)
    (evidence : option VisibleDrawTransitionEvidence) : ReplayPrefixEntry :=
  {| entry_semantic_action := ps_semantic_action p; expected_signature := observed;
     entry_target_index := ps_target_index p; entry_target_enemy_index := ps_target_enemy_index p;
     visible_draw_constraints := match evidence with Some d => constraints d | None => [] end;
     visible_draw_tracking_blocked := match evidence with Some d => blocks_later_pinning d | None => false end;
     visible_draw_tracking_error := match evidence with Some d => tracking_error d | None => None end |}.

(** STEP_RESULT and APPEND_RECORD. *)
Definition append_record (p : PlannedStep) (rest : list PlannedStep) (resolved_action : pydict)
    (before next_result : BattleState) : M LoopState DecisionSignature :=
  _ ← modS (set_current next_result);
  observed ← liftR (from_battle_state next_result (ps_semantic_action p) resolved_action
                      (ps_target_index p) (ps_target_enemy_index p) None);
  st ← getS;
  let evidence :=
    match held_stable_snapshot st.1 with
    | Some _ => Some (visible_draw_transition_evidence_from_committed_transition
                        visible_draw_tracking_blocked visible_draw_constraints
                        next_result (ml_replay_prefix st.1) before)
    | None => None
    end in
  _ ← modS (set_prefix (append_replay_prefix_entry (ml_replay_prefix st.1)
                          (transition_entry p observed evidence)));
  _ ← modS (set_planned rest);
  mret observed.

(** [_run_exec_loop] on the planned sequence it finds. *)
Fixpoint exec_loop (planned : list PlannedStep) : M LoopState ExecOutcome :=
  match planned with
  | [] => mret _EXEC_SEQUENCE_EXHAUSTED
  | p :: rest =>
      st ← getS;
      let current := current_result st.1 in
      match resolve (ps_semantic_action p) (_legal_actions_from_current_result current) with
      | Raise _ => _ ← modS (set_planned []); mret _EXEC_GO_TO_BOUNDARY
      | Ok resolved_action =>
          stepped ← tryM
            (next ← on_live (step current resolved_action (ps_target_index p) (ps_target_enemy_index p));
             mret (inl next))
            (fun e => if is_step_fault e then mret (inr e) else raiseM e);
          match stepped with
          | inr e => _ ← modS (set_planned []); mret (ExecFault e)
          | inl next_result =>
              observed ← append_record p rest resolved_action current next_result;
              let matches := match ps_expected_signature p with
                             | Some expected => matches_for_replay observed expected
                             | None => true
                             end in
              if negb matches then _ ← modS (set_planned []); mret _EXEC_GO_TO_BOUNDARY
              else
                boundary ← liftR (boundary_of_battle_state next_result);
                if String.eqb boundary BOUNDARY_TERMINAL then mret _EXEC_GO_TO_BOUNDARY
                else
                  _ ← (if String.eqb boundary BOUNDARY_STABLE then _capture_stable else mret tt);
                  exec_loop rest
          end
      end
  end.
Definition _run_exec_loop : M LoopState ExecOutcome :=
  st ← getS; exec_loop (planned_sequence st.1).

(** The callbacks a caller injects. *)
Context (direct_selector pending_selector : BattleState -> M E PlannedStep)
  (search_strategy : option (DecisionContext -> M E SearchResult))
  (routing_policy : string -> M E string).

Definition pending_search_error : pyexn :=
  PyExc "PendingSearchNotAllowedError"
    ("routing_policy returned 'search' for a Pending boundary - Main-observed Pending must never route into Search/Worker fan-out (NOTE_PENDING_FUTURE, mermaid_combat_main_loop_detail.mermaid), EXCEPT a genuine Start-of-Combat Pending with a Combat Start Replay Root available - that requires held_stable_snapshot is None and combat_start_replay_root is not None, neither of which held here").

(** NEW_DECISION: a plan, or the outcome that ends the combat. *)
Definition new_decision (boundary : string) : M LoopState (option MainLoopOutcome) :=
  route ← on_env (routing_policy boundary);
  if negb (str_in route ROUTE_VALUES) then
    raiseM (PyExc "ValueError" ("routing_policy returned unknown route " +:+ repr_str route +:+
      " (known: ['direct', 'pending_static', 'search'])"))
  else
    st ← getS;
    let pending := String.eqb boundary BOUNDARY_PENDING in
    let searching := String.eqb route ROUTE_SEARCH in
    let is_combat_start_pending_search :=
      pending && searching && negb (is_some (held_stable_snapshot st.1)) &&
      is_some (combat_start_replay_root st.1) in
    if pending && searching && negb is_combat_start_pending_search then raiseM pending_search_error
    else if String.eqb route ROUTE_DIRECT then
      p ← on_env (direct_selector (current_result st.1));
      _ ← modS (set_planned [p]); mret None
    else if String.eqb route ROUTE_PENDING_STATIC then
      if negb pending then
        raiseM (PyExc "RuntimeError" "ROUTE_PENDING_STATIC is only a valid routing_policy answer at a Pending boundary")
      else
        p ← on_env (pending_selector (current_result st.1));
        _ ← modS (set_planned [p]); mret None
    else
      match search_strategy with
      | None => raiseM (PyExc "RuntimeError"
          "routing_policy selected ROUTE_SEARCH but no search_strategy callable was provided")
      | Some strategy =>
          context ← liftR (if is_combat_start_pending_search
                           then build_combat_start_decision_context st.1
                           else build_main_decision_context st.1);
          found ← on_env (strategy context);
          match found with
          | SearchEvaluationFailure detail =>
              mret (Some (CombatAbortedByDecisionFailureOutcome detail (SearchEvaluationFailure detail)))
          | SearchSuccess plan => _ ← modS (set_planned plan); mret None
          end
      end.

(** One iteration: an outcome, or another iteration. *)
Definition main_iteration : M LoopState (option MainLoopOutcome) :=
  st ← getS;
  boundary ← liftR (boundary_of_battle_state (current_result st.1));
  if String.eqb boundary BOUNDARY_TERMINAL then mret (Some (CombatTerminalOutcome (current_result st.1)))
  else
    _ ← (if String.eqb boundary BOUNDARY_STABLE then _capture_stable
         else if String.eqb boundary BOUNDARY_PENDING then mret tt
         else raiseM (PyExc "RuntimeError" ("unexpected boundary " +:+ repr_str boundary +:+ " outside EXEC_LOOP")));
    st ← getS;
    decided ← match planned_sequence st.1 with [] => new_decision boundary | _ => mret None end;
    match decided with
    | Some outcome => mret (Some outcome)
    | None =>
        exec_outcome ← _run_exec_loop;
        mret (match exec_outcome with ExecFault e => Some (MainCombatFaultOutcome e) | _ => None end)
    end.

Fixpoint run_loop (iterations : nat) (max_iterations : Z) : M LoopState MainLoopOutcome :=
  match iterations with
  | O => raiseM (PyExc "RuntimeError" ("run_until_terminal_or_fault exceeded max_iterations=" +:+
           pretty max_iterations +:+ " without terminating"))
  | Datatypes.S n =>
      decided ← main_iteration;
      match decided with
      | Some outcome => mret outcome
      | None => run_loop n max_iterations
      end
  end.
Definition run_until_terminal_or_fault (max_iterations : Z) : M LoopState MainLoopOutcome :=
  run_loop (Z.to_nat max_iterations) max_iterations.
End Loop.

(** * Search is consulted only where its root can be reproduced *)

(** A stable boundary just captured, or a pending choice at combat start. *)
Definition searchable (c : DecisionContext) : Prop :=
  (boundary_of_battle_state (current_decision_result c) = Ok BOUNDARY_STABLE /\
   (exists snapshot, root_snapshot c = SnapshotRoot snapshot) /\ replay_prefix c = []) \/
  (boundary_of_battle_state (current_decision_result c) = Ok BOUNDARY_PENDING /\
   exists spec, root_snapshot c = CombatStartReplayRoot spec).

Section Searchable.
Context {S E : Type} {HS : CombatSession S}.
Context (direct_selector pending_selector : BattleState -> M E PlannedStep) (routing_policy : string -> M E string).
Context (f g : DecisionContext -> M E SearchResult).
Context (Hagree : forall c e, searchable c -> f c e = g c e).

(** What holds when a decision is taken at a boundary. *)
Definition at_boundary (boundary : string) (m : MainLoopState S) : Prop :=
  boundary_of_battle_state (current_result m) = Ok boundary /\
  (boundary = BOUNDARY_STABLE -> ml_replay_prefix m = [] /\ is_Some (held_stable_snapshot m)).

Lemma bind_cong {A B} (c : M (@LoopState S E) A) (k1 k2 : A -> M LoopState B) st :
  (forall a st', c st = (Ok a, st') -> k1 a st' = k2 a st') -> (c ≫= k1) st = (c ≫= k2) st.
Proof. intros H. unfold mbind, M_bind. destruct (c st) as [[a|e] st'] eqn:E0; [by apply H|done]. Qed.

Lemma main_context_searchable boundary (m : MainLoopState S) c :
  at_boundary boundary m -> boundary = BOUNDARY_STABLE -> build_main_decision_context m = Ok c -> searchable c.
Proof.
  intros [Hb Hs] -> Hc. destruct (Hs eq_refl) as [Hp [d Hd]]. unfold build_main_decision_context in Hc.
  rewrite Hd, Hp in Hc. unfold build_decision_context_from_held_stable in Hc.
  destruct (arrival_signature [] (current_result m)); [|discriminate Hc]. injection Hc as <-.
  left. split; [exact Hb|]. split; [by eexists|done].
Qed.

Lemma start_context_searchable (m : MainLoopState S) c :
  boundary_of_battle_state (current_result m) = Ok BOUNDARY_PENDING ->
  build_combat_start_decision_context m = Ok c -> searchable c.
Proof.
  intros Hb Hc. unfold build_combat_start_decision_context in Hc.
  destruct (held_stable_snapshot m), (combat_start_replay_root m) as [spec|]; try discriminate Hc.
  destruct (arrival_signature (ml_replay_prefix m) (current_result m)); [|discriminate Hc].
  right. destruct (ml_replay_prefix m); injection Hc as <-; (split; [exact Hb|by eexists]).
Qed.

Lemma new_decision_agrees boundary (st : @LoopState S E) :
  at_boundary boundary st.1 -> (boundary = BOUNDARY_STABLE \/ boundary = BOUNDARY_PENDING) ->
  new_decision direct_selector pending_selector (Some f) routing_policy boundary st =
  new_decision direct_selector pending_selector (Some g) routing_policy boundary st.
Proof.
  intros Hat Hcase. unfold new_decision. apply bind_cong. intros route st1 Hroute.
  assert (H1 : st1.1 = st.1).
  { unfold on_env in Hroute. destruct (routing_policy boundary st.2). by injection Hroute as _ <-. }
  rewrite <- H1 in Hat. clear Hroute H1. destruct (str_in route ROUTE_VALUES) eqn:Hknown; [cbn [negb]|done].
  apply bind_cong. intros st2 st' [= <- <-].
  set (start := String.eqb boundary BOUNDARY_PENDING && _ && _ && _).
  destruct (String.eqb boundary BOUNDARY_PENDING && String.eqb route ROUTE_SEARCH && negb start) eqn:Hpend; [done|].
  destruct (String.eqb route ROUTE_DIRECT) eqn:Hd; [done|].
  destruct (String.eqb route ROUTE_PENDING_STATIC) eqn:Hp; [done|].
  apply bind_cong. intros c st2 [Hc ->]%liftR_Ok.
  assert (Hsearch : searchable c).
  { destruct start eqn:Est.
    - unfold start in Est. rewrite !andb_true_iff in Est. destruct Est as [[[->%String.eqb_eq _] _] _].
      by eapply start_context_searchable; [apply Hat|].
    - destruct Hcase as [->| ->]; [by eapply main_context_searchable|].
      exfalso. unfold str_in, ROUTE_VALUES in Hknown. cbn [existsb] in Hknown.
      rewrite Hd, Hp, orb_false_l, orb_false_r in Hknown.
      rewrite Hknown in Hpend. discriminate Hpend. }
  unfold on_env. unfold mbind, M_bind. by rewrite (Hagree c (st1.2) Hsearch).
Qed.

Lemma capture_at_boundary (st st' : @LoopState S E) u :
  boundary_of_battle_state (current_result st.1) = Ok BOUNDARY_STABLE ->
  _capture_stable st = (Ok u, st') -> at_boundary BOUNDARY_STABLE st'.1.
Proof.
  intros Hb. unfold _capture_stable. intros (d & st1 & Hcap & Hmod)%M_bind_Ok.
  unfold on_live in Hcap. destruct (capture_snapshot (session st.1)) as [r s']. injection Hcap as -> <-.
  unfold modS in Hmod. injection Hmod as _ <-. split; [exact Hb|]. intros _. split; [done|by eexists].
Qed.

Lemma main_iteration_agrees st :
  main_iteration direct_selector pending_selector (Some f) routing_policy st =
  main_iteration direct_selector pending_selector (Some g) routing_policy st.
Proof.
  unfold main_iteration. apply bind_cong. intros st0 st1 [= <- <-].
  apply bind_cong. intros boundary st1 [Hb ->]%liftR_Ok.
  destruct (String.eqb boundary BOUNDARY_TERMINAL); [done|].
  apply bind_cong. intros u st2 Hcap. apply bind_cong. intros st3 st4 [= <- <-].
  assert (Hat : at_boundary boundary st2.1 /\ (boundary = BOUNDARY_STABLE \/ boundary = BOUNDARY_PENDING)).
  { destruct (String.eqb_spec boundary BOUNDARY_STABLE) as [->|Hns].
    - split; [by eapply capture_at_boundary|by left].
    - destruct (String.eqb_spec boundary BOUNDARY_PENDING) as [->|]; [|discriminate Hcap].
      injection Hcap as _ <-. split; [|by right]. split; [exact Hb|]. intros [=]. }
  destruct Hat as [Hat Hcase].
  assert (Hdec : (match planned_sequence st2.1 with
     | [] => new_decision direct_selector pending_selector (Some f) routing_policy boundary | _ => mret None end) st2
   = (match planned_sequence st2.1 with
     | [] => new_decision direct_selector pending_selector (Some g) routing_policy boundary | _ => mret None end) st2).
  { destruct (planned_sequence st2.1); [by apply new_decision_agrees|done]. }
  unfold mbind, M_bind. by rewrite Hdec.
Qed.

Lemma run_loop_agrees n max st :
  run_loop direct_selector pending_selector (Some f) routing_policy n max st =
  run_loop direct_selector pending_selector (Some g) routing_policy n max st.
Proof.
  revert st. induction n as [|n IH]; intros st; cbn [run_loop]; [done|].
  unfold mbind, M_bind. rewrite main_iteration_agrees.
  destruct (main_iteration _ _ _ _ st) as [[[o|]|e] st']; [done|apply IH|done].
Qed.
End Searchable.

(** Search never evaluates a decision whose root it could not reproduce:
    whatever the callbacks do, a run of the loop is the same for any two search
    strategies that agree on stable boundaries just captured, with an empty
    replay prefix, and on pending choices at combat start; a pending choice
    reached in mid-combat is never handed to search. *)
Theorem search_sees_reproducible_roots {S E} {HS : CombatSession S}
    (direct_selector pending_selector : BattleState -> M E PlannedStep) (routing_policy : string -> M E string)
    (f g : DecisionContext -> M E SearchResult) max_iterations (st : MainLoopState S * E) :
  (forall c e, searchable c -> f c e = g c e) ->
  run_until_terminal_or_fault direct_selector pending_selector (Some f) routing_policy max_iterations st =
  run_until_terminal_or_fault direct_selector pending_selector (Some g) routing_policy max_iterations st.
Proof. intros H. by apply run_loop_agrees. Qed.

(** A strategy that gives up, and one that moreover raises off reproducible
    roots. *)
Definition abandon (c : DecisionContext) : M unit SearchResult := mret (SearchEvaluationFailure "none").
Definition abandon_or_raise (c : DecisionContext) : M unit SearchResult :=
  match root_snapshot c, replay_prefix c with
  | SnapshotRoot _, [] | CombatStartReplayRoot _, _ => mret (SearchEvaluationFailure "none")
  | _, _ => raiseM (PyExc "AssertionError" "")
  end.
Definition select_first (st : BattleState) : M unit PlannedStep := liftR (first_candidate_direct_selector st).

Lemma search_sees_reproducible_roots_witness :
  let start := (initialize_main_loop_state [example_board 1] (example_board 0) None, tt) in
  let run f := @run_until_terminal_or_fault _ _ ScriptedSession select_first select_first (Some f)
                 (fun _ => mret ROUTE_SEARCH) 5 start in
  run abandon = run abandon_or_raise /\
  (run abandon).1 = Ok (CombatAbortedByDecisionFailureOutcome "none" (SearchEvaluationFailure "none")).
Proof.
  cbn zeta. split; [|vm_compute; reflexivity].
  apply (@search_sees_reproducible_roots _ _ ScriptedSession). intros c e Hc.
  unfold abandon, abandon_or_raise.
  destruct Hc as [(_ & [d ->] & ->)|(_ & spec & ->)]; reflexivity.
Defined.

(** * The recorded prefix replays *)

(** What the engine promises about capturing and restoring: [live s st] says
    the session last returned board [st]; [twin s st t st'] that session [t] at
    board [st'] reproduces [s] at [st]: the boundaries agree, an action
    resolvable on the first is resolvable on the second, and stepping both
    gives twins with matching signatures. Capturing disturbs nothing, and
    restoring a snapshot captured at a stable boundary, into any session,
    gives a twin of the captured one. *)
Class ReplayableSession (S : Type) {HS : CombatSession S} (json_loads : string -> Res pyval) := {
  live : S -> BattleState -> Prop;
  twin : S -> BattleState -> S -> BattleState -> Prop;
  live_step s st a x y st1 s1 : live s st -> step st a x y s = (Ok st1, s1) -> live s1 st1;
  live_capture s st d s1 : live s st -> capture_snapshot s = (Ok d, s1) -> live s1 st;
  twin_boundary s st t st' : twin s st t st' -> boundary_of_battle_state st' = boundary_of_battle_state st;
  twin_step s st t st' sa a x y st1 s1 :
    twin s st t st' -> resolve sa (_legal_actions_from_current_result st) = Ok a ->
    step st a x y s = (Ok st1, s1) ->
    exists legal' t0 a' st1' t1, legal_actions_of st' t = (Ok legal', t0) /\ resolve sa legal' = Ok a' /\
      step st' a' x y t0 = (Ok st1', t1) /\ twin s1 st1 t1 st1' /\
      forall o, from_battle_state st1 sa a x y None = Ok o ->
        exists o', from_battle_state st1' sa a' x y None = Ok o' /\ matches_for_replay o' o = true;
  twin_capture s st t st' d s1 :
    twin s st t st' -> capture_snapshot s = (Ok d, s1) -> twin s1 st t st';
  capture_restore s st d s1 :
    live s st -> boundary_of_battle_state st = Ok BOUNDARY_STABLE -> capture_snapshot s = (Ok d, s1) ->
    _raise_if_root_snapshot_not_restore_eligible json_loads (SnapshotRoot d) = Ok tt /\
    forall t, exists st0 t0, restore_snapshot (SnapshotRoot d) t = (Ok st0, t0) /\ twin s1 st t0 st0;
}.

Section Replays.
Context {S E : Type} {HS : CombatSession S} (json_loads : string -> Res pyval)
  {HR : ReplayableSession S json_loads}.

(** Restoring the held snapshot, anywhere, and replaying the prefix with every
    signature verified reaches a twin of the live session. *)
Definition replays (d : pydict) (prefix : list ReplayPrefixEntry) (s : S) (st : BattleState) : Prop :=
  _raise_if_root_snapshot_not_restore_eligible json_loads (SnapshotRoot d) = Ok tt /\
  forall t, exists st0 t0 st' t' last_observed,
    restore_snapshot (SnapshotRoot d) t = (Ok st0, t0) /\
    verified_steps t0 st0 None prefix t' st' last_observed /\ twin s st t' st' /\
    match last prefix with
    | Some e => exists o, last_observed = Some o /\ matches_for_replay o (expected_signature e) = true
    | None => last_observed = None
    end.

Definition main_inv (m : MainLoopState S) : Prop :=
  live (session m) (current_result m) /\
  forall d, held_stable_snapshot m = Some d -> replays d (ml_replay_prefix m) (session m) (current_result m).

Lemma verified_snoc s st last es s1 st1 last1 legal s2 action s3 st2 observed e :
  verified_steps s st last es s1 st1 last1 ->
  legal_actions_of st1 s1 = (Ok legal, s2) -> resolve (entry_semantic_action e) legal = Ok action ->
  step st1 action (entry_target_index e) (entry_target_enemy_index e) s2 = (Ok st2, s3) ->
  from_battle_state st2 (entry_semantic_action e) action (entry_target_index e) (entry_target_enemy_index e) None
    = Ok observed ->
  matches_for_replay observed (expected_signature e) = true ->
  verified_steps s st last (es ++ [e]) s3 st2 (Some observed).
Proof.
  intros Hv. induction Hv; intros; cbn [app]; [|eapply verified_cons; eauto].
  eapply verified_cons; eauto. constructor.
Qed.

(** Stepping appends one entry to what replays. *)
Lemma replays_step d prefix s st p a st1 s1 o evidence :
  replays d prefix s st -> resolve (ps_semantic_action p) (_legal_actions_from_current_result st) = Ok a ->
  step st a (ps_target_index p) (ps_target_enemy_index p) s = (Ok st1, s1) ->
  from_battle_state st1 (ps_semantic_action p) a (ps_target_index p) (ps_target_enemy_index p) None = Ok o ->
  replays d (prefix ++ [transition_entry p o evidence]) s1 st1.
Proof.
  intros [He Hr] Ha Hs Ho. split; [done|]. intros t.
  destruct (Hr t) as (st0 & t0 & st' & t' & last_observed & Hrest & Hv & Htw & _).
  destruct (twin_step _ _ _ _ _ _ _ _ _ _ Htw Ha Hs) as (legal' & t2 & a' & st1' & t1 & Hl & Hres & Hst & Htw1 & Hsig).
  destruct (Hsig o Ho) as (o' & Ho' & Hm).
  exists st0, t0, st1', t1, (Some o'). split_and!; [done| |done|].
  - by eapply verified_snoc.
  - rewrite last_snoc. by exists o'.
Qed.

(** A snapshot captured at a stable board replays by itself. *)
Lemma captured_replays s st d s1 :
  live s st -> boundary_of_battle_state st = Ok BOUNDARY_STABLE -> capture_snapshot s = (Ok d, s1) ->
  replays d [] s1 st.
Proof.
  intros Hl Hb Hcap. destruct (capture_restore _ _ _ _ Hl Hb Hcap) as [He Hrest]. split; [done|]. intros t.
  destruct (Hrest t) as (st0 & t0 & Hr & Htw). exists st0, t0, st0, t0, None. by split_and!; [| constructor| |].
Qed.

Lemma capture_inv (st : @LoopState S E) :
  main_inv st.1 -> boundary_of_battle_state (current_result st.1) = Ok BOUNDARY_STABLE ->
  posts _capture_stable st (fun _ st' => main_inv st'.1) (fun _ => True).
Proof.
  intros [Hl _] Hb. unfold _capture_stable. eapply posts_bind with
    (Q' := fun d (st' : @LoopState S E) => capture_snapshot (session st.1) = (Ok d, session st'.1) /\
             current_result st'.1 = current_result st.1).
  { unfold posts, on_live. destruct (capture_snapshot (session st.1)) as [[d|e] s'] eqn:Ecap; [|done]. done. }
  intros d st' [Hcap Hcur]. apply posts_mod. cbn. rewrite Hcur. split; [by eapply live_capture|].
  intros d' [= <-]. by eapply captured_replays.
Qed.

Lemma append_record_inv p rest a st next s1 :
  main_inv st.1 -> resolve (ps_semantic_action p) (_legal_actions_from_current_result (current_result st.1)) = Ok a ->
  step (current_result st.1) a (ps_target_index p) (ps_target_enemy_index p) (session st.1) = (Ok next, s1) ->
  posts (append_record p rest a (current_result st.1) next) (set_session s1 st : @LoopState S E)
    (fun _ st' => main_inv st'.1 /\ current_result st'.1 = next) (fun _ => True).
Proof.
  intros [Hl Hr] Ha Hs. unfold append_record. eapply posts_step; [reflexivity|].
  destruct (from_battle_state next _ _ _ _ _) as [o|e] eqn:Ho.
  2:{ eapply (posts_bind _ _ _ (fun _ _ => False)); [done|done]. }
  eapply posts_step; [reflexivity|]. eapply posts_step; [reflexivity|].
  eapply posts_step; [reflexivity|]. eapply posts_step; [reflexivity|]. apply posts_ret. cbn.
  split; [|done]. split; [by eapply live_step|]. intros d Hd. cbn in Hd.
  eapply replays_step; [by apply Hr|done|done|done].
Qed.

Lemma exec_loop_inv planned : forall st : @LoopState S E,
  main_inv st.1 ->
  posts (exec_loop planned) st
    (fun out st' => match out with ExecFault _ => True | _ => main_inv st'.1 end) (fun _ => True).
Proof.
  induction planned as [|p rest IH]; intros st Hinv; cbn [exec_loop]; [by apply posts_ret|].
  eapply posts_step; [reflexivity|].
  destruct (resolve _ _) as [a|e] eqn:Ha.
  2:{ eapply posts_step; [reflexivity|]. apply posts_ret. exact Hinv. }
  eapply posts_bind with (Q' := fun r (st' : @LoopState S E) => match r with
    | inl next => exists s1, step (current_result st.1) a (ps_target_index p) (ps_target_enemy_index p) (session st.1)
                    = (Ok next, s1) /\ st' = set_session s1 st
    | inr e => True end).
  { unfold posts, tryM, mbind, M_bind, on_live.
    destruct (step _ _ _ _ (session st.1)) as [[next|e] s1]; [cbn; by exists s1|]. cbn -[is_step_fault].
    destruct (is_step_fault e); exact I. }
  intros [next|e] st1; [|intros _; eapply posts_step; [reflexivity|]; by apply posts_ret].
  intros (s1 & Hs & ->). eapply posts_bind; [by eapply append_record_inv|].
  intros o st2 [Hinv2 Hcur]. cbn beta.
  destruct (negb _); [eapply posts_step; [reflexivity|]; apply posts_ret; exact Hinv2|].
  eapply posts_bind with (Q' := fun b st' => boundary_of_battle_state next = Ok b /\ st' = st2).
  { unfold posts, liftR. by destruct (boundary_of_battle_state next). }
  intros b st3 [Hb ->]. destruct (String.eqb b BOUNDARY_TERMINAL); [by apply posts_ret|].
  destruct (String.eqb_spec b BOUNDARY_STABLE) as [->|].
  - eapply posts_bind; [apply capture_inv; [done|congruence]|]. intros ? st3 Hinv3. by apply IH.
  - eapply posts_step; [reflexivity|]. by apply IH.
Qed.

Context (direct_selector pending_selector : BattleState -> M E PlannedStep)
  (search_strategy : option (DecisionContext -> M E SearchResult)) (routing_policy : string -> M E string).

Local Notation iteration := (main_iteration direct_selector pending_selector search_strategy routing_policy).

(** A decision changes only the plan and the callbacks' environment. *)
Lemma new_decision_keeps boundary (st : @LoopState S E) :
  main_inv st.1 ->
  posts (new_decision direct_selector pending_selector search_strategy routing_policy boundary) st
    (fun _ st' => main_inv st'.1) (fun _ => True).
Proof.
  intros Hinv. unfold new_decision.
  assert (Henv : forall (A : Type) (c : M E A) (st' : @LoopState S E), main_inv st'.1 ->
    posts (on_env c) st' (fun _ st'' => main_inv st''.1) (fun _ => True)).
  { intros A c st' H. unfold posts, on_env. by destruct (c st'.2) as [[a|e] e']. }
  eapply posts_bind; [by apply Henv|]. intros route st1 H1.
  destruct (negb _); [by apply posts_raise|]. eapply posts_step; [reflexivity|].
  destruct (_ && _ && negb _); [by apply posts_raise|].
  destruct (String.eqb route ROUTE_DIRECT).
  { eapply posts_bind; [by apply Henv|]. intros q st2 H2. eapply posts_step; [reflexivity|]. by apply posts_ret. }
  destruct (String.eqb route ROUTE_PENDING_STATIC).
  { destruct (negb _); [by apply posts_raise|].
    eapply posts_bind; [by apply Henv|]. intros q st2 H2. eapply posts_step; [reflexivity|]. by apply posts_ret. }
  destruct search_strategy as [strategy|]; [|by apply posts_raise].
  eapply posts_bind with (Q' := fun _ st' => st' = st1).
  { unfold posts, liftR. by case_match. }
  intros c st2 ->. eapply posts_bind; [by apply Henv|]. intros [plan|detail] st3 H3.
  - eapply posts_step; [reflexivity|]. by apply posts_ret.
  - by apply posts_ret.
Qed.

Lemma iteration_inv (st : @LoopState S E) :
  main_inv st.1 ->
  posts iteration st (fun out st' => out = None -> main_inv st'.1) (fun _ => True).
Proof.
  intros Hinv. unfold main_iteration. eapply posts_step; [reflexivity|].
  eapply posts_bind with (Q' := fun b st' => boundary_of_battle_state (current_result st.1) = Ok b /\ st' = st).
  { unfold posts, liftR. by destruct (boundary_of_battle_state _). }
  intros b st1 [Hb ->]. destruct (String.eqb b BOUNDARY_TERMINAL); [by apply posts_ret|].
  eapply posts_bind with (Q' := fun _ st' => main_inv st'.1).
  { destruct (String.eqb_spec b BOUNDARY_STABLE) as [->|]; [by apply capture_inv|].
    destruct (String.eqb b BOUNDARY_PENDING); [by apply posts_ret|by apply posts_raise]. }
  intros ? st1 H1. eapply posts_step; [reflexivity|].
  eapply posts_bind with (Q' := fun _ st' => main_inv st'.1).
  { destruct (planned_sequence st1.1); [by apply new_decision_keeps|by apply posts_ret]. }
  intros [o|] st2 H2; [by apply posts_ret|].
  eapply posts_bind.
  { unfold _run_exec_loop. eapply posts_step; [reflexivity|]. by apply exec_loop_inv. }
  intros out st3 H3. apply posts_ret. by destruct out.
Qed.

(** One completed iteration of the loop. *)
Definition iterates (st st' : @LoopState S E) : Prop := iteration st = (Ok None, st').

Lemma iterates_inv st st' : main_inv st.1 -> rtc iterates st st' -> main_inv st'.1.
Proof.
  intros Hinv. induction 1 as [|st st1 st' Hstep _ IH]; [done|]. apply IH.
  pose proof (iteration_inv st Hinv) as H. unfold posts in H. rewrite Hstep in H. by apply H.
Qed.
End Replays.

Lemma from_battle_state_boundary st sa a x y legal o :
  from_battle_state st sa a x y legal = Ok o -> boundary_of_battle_state st = Ok (sig_boundary o).
Proof.
  unfold from_battle_state. intros (b & Hb & H)%bind_Ok. apply bind_Ok in H as (p & _ & H).
  apply bind_Ok in H as (i & _ & H). apply bind_Ok in H as (n & _ & H).
  assert (Ho : sig_boundary o = b).
  { unfold signature_check in H. repeat (case_match; try discriminate H); injection H as <-; reflexivity. }
  rewrite Ho. exact Hb.
Qed.

Lemma representative_boundary st o :
  _representative_signature_for_empty_prefix st = Ok o -> boundary_of_battle_state st = Ok (sig_boundary o).
Proof.
  unfold _representative_signature_for_empty_prefix. destruct (_cached_legal_actions st) as [[|a l]|].
  - destruct (is_terminal st); [apply from_battle_state_boundary|discriminate].
  - apply from_battle_state_boundary.
  - destruct (is_terminal st); [apply from_battle_state_boundary|discriminate].
Qed.

(** The context over a held snapshot whose prefix replays is bootstrapped and
    verified in any session. *)
Lemma held_context_replays {S} {HS : CombatSession S} json_loads {HR : ReplayableSession S json_loads} d prefix s st c :
  replays json_loads d prefix s st -> build_decision_context_from_held_stable (SnapshotRoot d) prefix st = Ok c ->
  forall t, exists final t', replay_decision_context json_loads c t = (Ok (ReplaySuccess final), t') /\
    twin s st t' final.
Proof.
  intros [He Hr] Hc t. destruct (Hr t) as (st0 & t0 & st' & t' & lo & Hrest & Hv & Htw & Hlast).
  unfold build_decision_context_from_held_stable in Hc. apply bind_Ok in Hc as (sig & Hsig & [= <-]).
  exists st', t'. split; [|exact Htw].
  assert (Hroot : rooted json_loads (with_replay_prefix (from_main_stable_capture (SnapshotRoot d) st sig) prefix) t t0 st0)
    by (split; [exact He|exists t0; split; [exact Hrest|reflexivity]]).
  rewrite (rooted_run _ _ _ _ _ Hroot).
  erewrite M_run_Ok by (eapply replay_entries_verified; exact Hv).
  cbn beta iota. unfold liftR. apply (f_equal (fun r => (r, t'))). apply <- (check_arrival_success json_loads).
  split; [reflexivity|]. unfold arrived. change (current_context_signature _) with sig.
  unfold arrival_signature in Hsig. destruct (last prefix) as [e|].
  - injection Hsig as <-. destruct Hlast as (o & -> & Hm). exact Hm.
  - rewrite Hlast, (twin_boundary _ _ _ _ Htw). by apply representative_boundary.
Qed.


(** A deterministic session over an endless script of boards: its state is the
    position, which a snapshot records. *)
Definition position_snapshot (n : Z) : pydict :=
  [("Metadata"%string, VDict [("CaptureBoundary"%string, VStr "normal_player_decision")]); ("Pos"%string, VInt n)].
Definition position_of (root : Root) : Z :=
  match root with
  | SnapshotRoot d => match dget "Pos" d with Some (VInt n) => n | _ => 0 end
  | _ => 0
  end.
Definition EndlessSession : CombatSession Z :=
  {| start_combat := fun _ _ => (Ok (example_board 0), 0);
     bootstrap_room_entry := fun _ _ _ => (Ok (example_board 0), 0);
     restore_snapshot := fun root _ => (Ok (example_board (position_of root)), position_of root);
     get_legal_actions := mret []; step := fun _ _ _ _ n => (Ok (example_board (n + 1)), n + 1);
     capture_snapshot := fun n => (Ok (position_snapshot n), n) |}.

Lemma example_signature_matches n sa a x y o :
  resolve sa [example_action] = Ok a -> from_battle_state (example_board n) sa a x y None = Ok o ->
  matches_for_replay o o = true.
Proof.
  unfold resolve. cbn [List.find]. destruct (action_matches sa example_action) eqn:Em; [|discriminate].
  intros [= <-]. unfold action_matches in Em. apply andb_true_iff in Em as [E1 E2].
  destruct sa as [ty key]. cbn in E1, E2.
  destruct ty as [| | | |s1| |]; try discriminate E1. destruct key as [| | | |s2| |]; try discriminate E2.
  unfold from_battle_state. cbn. intros [= <-]. rewrite matches_forallb. unfold signature_fields.
  cbn -[Z.eqb]. unfold SemanticAction_eqb. cbn -[Z.eqb].
  rewrite !String.eqb_refl, !Z.eqb_refl. destruct x, y; cbn -[Z.eqb]; by rewrite ?Z.eqb_refl.
Qed.

Definition EndlessReplays (json_loads : string -> Res pyval) : @ReplayableSession Z EndlessSession json_loads.
Proof.
  refine (@Build_ReplayableSession Z EndlessSession json_loads (fun s st => st = example_board s)
    (fun s st t st' => s = t /\ st = st' /\ st = example_board s) _ _ _ _ _ _).
  - intros s st a x y st1 s1 _ [= <- <-]. reflexivity.
  - intros s st d s1 -> [= _ <-]. reflexivity.
  - intros s st t st' (_ & -> & _). reflexivity.
  - intros s st t st' sa a x y st1 s1 (<- & <- & ->) Ha [= <- <-].
    exists [example_action], s, a, (example_board (s + 1)), (s + 1). split_and!; try done.
    intros o Ho. exists o. split; [exact Ho|]. by eapply example_signature_matches.
  - intros s st t st' d s1 (<- & <- & ->) [= _ <-]. done.
  - intros s st d s1 -> _ [= <- <-]. split; [reflexivity|]. intros t. do 2 eexists. split; [reflexivity|].
    done.
Defined.

(** The endless script entered at position 0, and after one iteration whose plan
    expects another board, so the step is recorded and nothing is captured. *)
Definition select_expecting (st : BattleState) : M unit PlannedStep :=
  mret {| ps_semantic_action := example_semantic; ps_target_index := None; ps_target_enemy_index := None;
          ps_expected_signature := Some (example_signature 77) |}.
Definition endless_start : @LoopState Z unit := (initialize_main_loop_state 0 (example_board 0) None, tt).
Definition endless_iteration : M (@LoopState Z unit) (option MainLoopOutcome) :=
  @main_iteration Z unit EndlessSession select_expecting select_first None (fun _ => mret ROUTE_DIRECT).
Definition endless_next : MainLoopState Z := Eval vm_compute in (endless_iteration endless_start).2.1.
Definition endless_context : DecisionContext :=
  Eval vm_compute in from_ok (build_main_decision_context endless_next) demo_context.

