(* ===== verification/Sha256.v ===== *)
(** [hashlib.sha256] of the Python standard library (FIPS 180-4), on byte
    lists; the payload digest, the event RNG derivation and the search
    identities of the program are computed with it. *)

From S2P Require Export PyValue.

Local Open Scope N_scope.

Definition word_mod : N := 4294967296.
Definition add32 (a b : N) : N := (a + b) mod word_mod.
Definition shr32 (x : N) (n : N) : N := N.shiftr x n.
Definition rotr32 (x : N) (n : N) : N :=
  N.lor (N.shiftr x n) (N.shiftl x (32 - n) mod word_mod).

Definition sha_k : list N :=
  [1116352408; 1899447441; 3049323471; 3921009573; 961987163; 1508970993;
   2453635748; 2870763221; 3624381080; 310598401; 607225278; 1426881987;
   1925078388; 2162078206; 2614888103; 3248222580; 3835390401; 4022224774;
   264347078; 604807628; 770255983; 1249150122; 1555081692; 1996064986;
   2554220882; 2821834349; 2952996808; 3210313671; 3336571891; 3584528711;
   113926993; 338241895; 666307205; 773529912; 1294757372; 1396182291;
   1695183700; 1986661051; 2177026350; 2456956037; 2730485921; 2820302411;
   3259730800; 3345764771; 3516065817; 3600352804; 4094571909; 275423344;
   430227734; 506948616; 659060556; 883997877; 958139571; 1322822218;
   1537002063; 1747873779; 1955562222; 2024104815; 2227730452; 2361852424;
   2428436474; 2756734187; 3204031479; 3329325298].

Definition sha_h0 : list N :=
  [1779033703; 3144134277; 1013904242; 2773480762; 1359893119; 2600822924;
   528734635; 1541459225].

Definition bsig0 (x : N) : N := N.lxor (rotr32 x 2) (N.lxor (rotr32 x 13) (rotr32 x 22)).
Definition bsig1 (x : N) : N := N.lxor (rotr32 x 6) (N.lxor (rotr32 x 11) (rotr32 x 25)).
Definition ssig0 (x : N) : N := N.lxor (rotr32 x 7) (N.lxor (rotr32 x 18) (shr32 x 3)).
Definition ssig1 (x : N) : N := N.lxor (rotr32 x 17) (N.lxor (rotr32 x 19) (shr32 x 10)).
Definition sha_ch (e f g : N) : N := N.lxor (N.land e f) (N.land (N.lxor e (word_mod - 1)) g).
Definition sha_maj (a b c : N) : N :=
  N.lxor (N.land a b) (N.lxor (N.land a c) (N.land b c)).

(** The message schedule, newest word first: [n] more words. *)
Fixpoint sha_schedule (n : nat) (w : list N) : list N :=
  match n with
  | O => w
  | S n' =>
      let x := add32 (add32 (ssig1 (nth 1 w 0)) (nth 6 w 0))
                     (add32 (ssig0 (nth 14 w 0)) (nth 15 w 0)) in
      sha_schedule n' (x :: w)
  end.

Definition sha_round (s : list N) (kw : N * N) : list N :=
  match s with
  | [a; b; c; d; e; f; g; h] =>
      let t1 := add32 (add32 h (bsig1 e)) (add32 (sha_ch e f g) (add32 kw.1 kw.2)) in
      let t2 := add32 (bsig0 a) (sha_maj a b c) in
      [add32 t1 t2; a; b; c; add32 d t1; e; f; g]
  | _ => s
  end.

Definition sha_block (h w : list N) : list N :=
  let ws := rev (sha_schedule 48 (rev w)) in
  zip_with add32 h (foldl sha_round h (zip sha_k ws)).

(** Big-endian words of four bytes. *)
Fixpoint be_words (l : list N) : list N :=
  match l with
  | a :: b :: c :: d :: l' => (a * 16777216 + b * 65536 + c * 256 + d) :: be_words l'
  | _ => []
  end.

Fixpoint be_bytes (n : nat) (x : N) : list N :=
  match n with
  | O => []
  | S n' => N.shiftr x (8 * N.of_nat n') mod 256 :: be_bytes n' x
  end.

Definition sha_pad (l : list N) : list N :=
  let len := N.of_nat (length l) in
  let z := N.to_nat ((119 - len mod 64) mod 64) in
  l ++ [128] ++ repeat 0 z ++ be_bytes 8 (8 * len).

Fixpoint sha_blocks (fuel : nat) (h w : list N) : list N :=
  match fuel with
  | O => h
  | S fuel' =>
      match w with
      | [] => h
      | _ => sha_blocks fuel' (sha_block h (take 16 w)) (drop 16 w)
      end
  end.

(** [sha256(data).digest()]: one unit of fuel per 64-byte block. *)
Definition sha256 (data : list N) : list N :=
  let w := be_words (sha_pad data) in
  flat_map (be_bytes 4) (sha_blocks (length w) sha_h0 w).

(** [sha256(text.encode("utf-8")).hexdigest()]. *)
Definition hex_of_bytes (l : list N) : string := str_concat "" (map hex2 l).
Definition sha256_hex (s : string) : string := hex_of_bytes (sha256 (str_bytes s)).

(** [int.from_bytes(digest[:n], "big")]. *)
Definition be_int (l : list N) : Z := foldl (fun acc b => (acc * 256 + Z.of_N b)%Z) 0%Z l.

(** Every output byte is a byte. *)
Definition byte_list (l : list N) : Prop := Forall (fun b => b < 256) l.

Lemma be_bytes_byte n x : byte_list (be_bytes n x).
Proof.
  induction n; simpl; constructor; [|done]. apply N.mod_lt. lia.
Qed.

Lemma sha256_bytes data : byte_list (sha256 data).
Proof.
  unfold sha256. generalize (sha_blocks (length (be_words (sha_pad data))) sha_h0
    (be_words (sha_pad data))). intros l.
  induction l as [|x l IH]; cbn [flat_map]; [constructor|].
  apply Forall_app. split; [apply be_bytes_byte|done].
Qed.

Lemma be_int_app l b : be_int (l ++ [b]) = (be_int l * 256 + Z.of_N b)%Z.
Proof. unfold be_int. by rewrite foldl_app. Qed.

(** An [n]-byte big-endian integer fits [8 n] bits. *)
Lemma be_int_range l :
  byte_list l -> (0 <= be_int l < 2 ^ (8 * Z.of_nat (length l)))%Z.
Proof.
  induction l as [|b l IH] using rev_ind; intros Hl; [done|].
  apply Forall_app in Hl as [Hl Hb]. inversion Hb; subst.
  rewrite be_int_app, length_app; simpl length.
  replace (8 * Z.of_nat (length l + 1))%Z with (8 * Z.of_nat (length l) + 8)%Z by lia.
  rewrite Z.pow_add_r by lia. specialize (IH Hl). lia.
Qed.

Example sha256_abc :
  sha256_hex "abc" = "ba7816bf8f01cfea414140de5dae2223b00361a396177a9cb410ff61f20015ad".
Proof. vm_compute. reflexivity. Qed.

Example sha256_two_blocks :
  sha256_hex "abcdbcdecdefdefgefghfghighijhijkijkljklmklmnlmnomnopnopq"
  = "248d6a61d20638b8e5c026930c3e6039a33ce45964ff2167f6ecedd419db06c1".
Proof. vm_compute. reflexivity. Qed.
