(* ===== verification/PyRandom.v ===== *)
(** [random.Random(seed)] and [randrange] of the Python standard library: the
    MT19937 generator seeded by an integer, the rejection sampling of
    [_randbelow], and the Fisher-Yates loop the program runs over it. *)

From S2P Require Export Prelude.

Local Open Scope N_scope.

Definition mt_word (x : N) : N := x mod 4294967296.
Definition mt_size : nat := 624.
Definition mt_shift : nat := 397.

(** [init_genrand]: the state after [n] more words, newest first. *)
Fixpoint mt_fill (n : nat) (i : N) (words : list N) : list N :=
  match n with
  | O => words
  | S n' =>
      let prev := hd 0 words in
      mt_fill n' (i + 1) (mt_word (1812433253 * N.lxor prev (N.shiftr prev 30) + i) :: words)
  end.
Definition init_genrand (s : N) : list N := rev (mt_fill (mt_size - 1) 1 [mt_word s]).

Definition mt_at (mt : list N) (i : nat) : N := default 0 (mt !! i).
(** The position after [i], the last word copied to the front on wrapping. *)
Definition mt_next (mt : list N) (i : nat) : list N * nat :=
  if Nat.leb mt_size (S i) then (<[0%nat := mt_at mt (mt_size - 1)]> mt, 1%nat) else (mt, S i).
Definition mt_mix (mult : N) (mt : list N) (i : nat) : N :=
  let prev := mt_at mt (i - 1) in
  N.lxor (mt_at mt i) (N.lxor prev (N.shiftr prev 30) * mult).

Fixpoint mt_absorb (k : nat) (key : list N) (mt : list N) (i j : nat) : list N * nat :=
  match k with
  | O => (mt, i)
  | S k' =>
      let mt := <[i := mt_word (mt_mix 1664525 mt i + mt_at key j + N.of_nat j)]> mt in
      let next := mt_next mt i in
      mt_absorb k' key next.1 next.2 (if Nat.leb (length key) (S j) then 0%nat else S j)
  end.
Fixpoint mt_stir (k : nat) (mt : list N) (i : nat) : list N :=
  match k with
  | O => mt
  | S k' =>
      let mt := <[i := mt_word (mt_mix 1566083941 mt i + 4294967296 - N.of_nat i)]> mt in
      let next := mt_next mt i in
      mt_stir k' next.1 next.2
  end.
Definition init_by_array (key : list N) : list N :=
  let absorbed := mt_absorb (Nat.max mt_size (length key)) key (init_genrand 19650218) 1 0 in
  <[0%nat := 2147483648]> (mt_stir (mt_size - 1) absorbed.1 absorbed.2).

(** The 32-bit words of a seed, least significant first; zero is one word. *)
Fixpoint key_words (fuel : nat) (n : N) : list N :=
  match fuel with
  | O => []
  | S fuel' => if n =? 0 then [] else mt_word n :: key_words fuel' (N.shiftr n 32)
  end.
Definition seed_key (n : N) : list N :=
  match key_words (N.to_nat (N.size n)) n with [] => [0] | key => key end.

(** The generator: its next 624 untempered words, oldest first. *)
Definition Random : Type := list N.
Definition mt_twist (upper lower far : N) : N :=
  let y := N.lor (N.land upper 2147483648) (N.land lower 2147483647) in
  N.lxor far (N.lxor (N.shiftr y 1) (if N.odd y then 2567483615 else 0)).
Definition mt_step (words : Random) : Random :=
  drop 1 words ++ [mt_twist (mt_at words 0) (mt_at words 1) (mt_at words mt_shift)].
(** [random.Random(seed)]. *)
Definition new_random (seed : Z) : Random := init_by_array (seed_key (Z.abs_N seed)).

Definition mt_temper (y : N) : N :=
  let y := N.lxor y (N.shiftr y 11) in
  let y := N.lxor y (N.land (mt_word (N.shiftl y 7)) 2636928640) in
  let y := N.lxor y (N.land (mt_word (N.shiftl y 15)) 4022730752) in
  N.lxor y (N.shiftr y 18).
Definition genrand (words : Random) : N * Random :=
  let words := mt_step words in
  (mt_temper (mt_at words (mt_size - 1)), words).

(** [getrandbits(k)], 32 bits at a time. *)
Fixpoint getrandbits_from (fuel : nat) (k : N) (words : Random) : N * Random :=
  match fuel with
  | O => (0, words)
  | S fuel' =>
      let drawn := genrand words in
      if k <=? 32 then (N.shiftr drawn.1 (32 - k), drawn.2)
      else
        let high := getrandbits_from fuel' (k - 32) drawn.2 in
        (drawn.1 + N.shiftl high.1 32, high.2)
  end.
Definition getrandbits (k : N) (words : Random) : N * Random := getrandbits_from (S (N.to_nat (k / 32))) k words.

(** [_randbelow(n)]: [None] when every one of the first [draws] draws is
    rejected. *)
Fixpoint randbelow (draws : nat) (n : N) (words : Random) : option (N * Random) :=
  match draws with
  | O => None
  | S draws' =>
      let r := getrandbits (N.size n) words in
      if r.1 <? n then Some r else randbelow draws' n r.2
  end.

Lemma randbelow_range draws n words r : randbelow draws n words = Some r -> r.1 < n.
Proof.
  revert words. induction draws as [|draws IH]; intros words; cbn [randbelow]; [discriminate|].
  destruct (N.ltb_spec (getrandbits (N.size n) words).1 n) as [H|_]; [|apply IH].
  intros Hr. injection Hr as <-. exact H.
Qed.

(** More draws change nothing once one is accepted. *)
Lemma randbelow_more draws more n words r :
  randbelow draws n words = Some r -> (draws <= more)%nat -> randbelow more n words = Some r.
Proof.
  revert more words. induction draws as [|draws IH]; intros [|more] words H Hle; cbn [randbelow] in *; try discriminate; [lia|].
  destruct (_ <? n); [done|]. apply IH; [done|lia].
Qed.

(** Seed 0 of CPython: [randrange] of 10, 52 and 7. *)
Example random_seed_zero :
  (r ← randbelow 100 10 (new_random 0); s ← randbelow 100 52 r.2; t ← randbelow 100 7 s.2; Some (r.1, s.1, t.1))
  = Some (6, 48, 3).
Proof. vm_compute. reflexivity. Qed.

Local Close Scope N_scope.

(** * Fisher-Yates *)

Section Shuffle.
Context {A : Type}.

(** [l[i], l[j] = l[j], l[i]]. *)
Definition swap (i j : nat) (l : list A) : list A :=
  match l !! i, l !! j with
  | Some x, Some y => <[i := y]> (<[j := x]> l)
  | _, _ => l
  end.

(** [for i in range(i, 0, -1): j = randrange(i + 1); swap]. *)
Fixpoint shuffle_from (draws : nat) (i : nat) (l : list A) (words : Random) : option (list A * Random) :=
  match i with
  | O => Some (l, words)
  | S i' =>
      r ← randbelow draws (N.of_nat (S i)) words;
      shuffle_from draws i' (swap i (N.to_nat r.1) l) r.2
  end.
Definition shuffle (draws : nat) (l : list A) (seed : Z) : option (list A) :=
  r ← shuffle_from draws (length l - 1) l (new_random seed); Some r.1.

Lemma swap_Permutation i j l : swap i j l ≡ₚ l.
Proof.
  unfold swap. destruct (l !! i) as [x|] eqn:Ei; [|done]. destruct (l !! j) as [y|] eqn:Ej; [|done].
  by apply Permutation_insert_swap.
Qed.

Lemma shuffle_from_Permutation draws i l words r :
  shuffle_from draws i l words = Some r -> r.1 ≡ₚ l.
Proof.
  revert l words. induction i as [|i IH]; intros l words; cbn [shuffle_from]; [by intros [= <-]|].
  destruct (randbelow draws _ words) as [r'|]; [|discriminate]. cbn. intros H%IH. by rewrite H, swap_Permutation.
Qed.
Lemma shuffle_Permutation draws l seed l' : shuffle draws l seed = Some l' -> l' ≡ₚ l.
Proof.
  unfold shuffle. destruct (shuffle_from draws (length l - 1) l (new_random seed)) as [r|] eqn:E; [|discriminate].
  cbn. intros [= <-]. by eapply shuffle_from_Permutation.
Qed.
End Shuffle.

(** The program's loop under CPython with this seed. *)
Example shuffle_example : shuffle 100 [0; 1; 2; 3; 4; 5; 6; 7]%Z 9223372036854788153 = Some [7; 6; 0; 2; 5; 1; 3; 4]%Z.
Proof. vm_compute. reflexivity. Qed.
