(* ===== verification/EventRng.v ===== *)
(** Event RNG hypotheses of a whole run (API/whole_run_event_rng.py): their
    derivation from a base snapshot, and the registry that keeps one live
    hypothesis per key while any branch refers to it. *)

From S2P Require Export Sha256.

Definition _STREAM_KEYS : list string :=
  ["event_rng"; "player_rewards_rng"; "player_shops_rng"; "player_transformations_rng"]%string.

Definition _COUNTER_SIGN_BIT : Z := Z.shiftl 1 31.
Definition _COUNTER_MOD : Z := Z.shiftl 1 32.
Definition _U64_MASK : Z := Z.shiftl 1 64 - 1.

(** [v[k]] for a string [k]. *)
Definition py_index (k : string) (v : pyval) : Res pyval :=
  match v with
  | VDict d => dindex k d
  | VList _ => Raise (PyExc "TypeError" "list indices must be integers or slices, not str")
  | VStr _ => Raise (PyExc "TypeError" "string indices must be integers, not 'str'")
  | _ => Raise (PyExc "TypeError" ("'" +:+ py_type_name v +:+ "' object is not subscriptable"))
  end.

(** [str(int(stream[k]))]. *)
Definition stream_int (k : string) (stream : pyval) : Res string :=
  v ← py_index k stream; z ← py_int v; Ok (pretty z).

Definition _canonical_stream_seed (base_state : pydict) (stream_name : string) (rng_id : Z) :
    Res string :=
  stream ← dindex stream_name base_state;
  event_id ← dindex "event_id" base_state;
  counter ← stream_int "counter" stream;
  s0 ← stream_int "s0" stream;
  s1 ← stream_int "s1" stream;
  s2 ← stream_int "s2" stream;
  s3 ← stream_int "s3" stream;
  Ok (str_concat "|" [py_str event_id; stream_name; pretty rng_id; counter; s0; s1; s2; s3]).

Definition _hash_word (seed word_name : string) : list N :=
  sha256 (str_bytes (seed +:+ "|word=" +:+ word_name)).

Definition _counter_from_digest (digest : list N) : Z :=
  let value := be_int (take 4 digest) in
  if _COUNTER_SIGN_BIT <=? value then value - _COUNTER_MOD else value.

Definition _u64_from_digest (digest : list N) : Z :=
  Z.land (be_int (take 8 digest)) _U64_MASK.

(** The derived words of one stream. *)
Definition derived_stream (seed : string) : pydict :=
  let s0 := _u64_from_digest (_hash_word seed "s0") in
  let s1 := _u64_from_digest (_hash_word seed "s1") in
  let s2 := _u64_from_digest (_hash_word seed "s2") in
  let s3 := _u64_from_digest (_hash_word seed "s3") in
  let s0' := if (s0 =? s1) && (s1 =? s2) && (s2 =? s3) && (s3 =? 0) then 1 else s0 in
  [("counter"%string, VInt (_counter_from_digest (_hash_word seed "counter")));
   ("s0"%string, VInt s0'); ("s1"%string, VInt s1); ("s2"%string, VInt s2); ("s3"%string, VInt s3)].

Fixpoint derive_streams (base_state : pydict) (rng_id : Z) (names : list string) (derived : pydict) :
    Res pydict :=
  match names with
  | [] => Ok derived
  | name :: rest =>
      seed ← _canonical_stream_seed base_state name rng_id;
      derive_streams base_state rng_id rest (dset name (VDict (derived_stream seed)) derived)
  end.

Definition derive_event_rng_hypothesis (base_state : pydict) (rng_id : Z) : Res pydict :=
  if rng_id <=? 0 then Raise (PyExc "ValueError" "rng_id must be a positive int")
  else
    event_id ← dindex "event_id" base_state;
    derive_streams base_state rng_id _STREAM_KEYS [("event_id"%string, event_id)].

(** * The registry *)

(** (parent branch, decision point, rng id). *)
Definition event_key : Type := string * string * Z.

Record HypothesisEntry := { he_state : pydict; he_generation : Z }.

Record EventRngHypothesisRegistry := {
  _entries : gmap event_key HypothesisEntry;
  _branch_refs_by_key : gmap event_key (gset string);
  _generation_counts : gmap event_key Z;
}.

Definition set_entries (f : gmap event_key HypothesisEntry -> gmap event_key HypothesisEntry)
    (r : EventRngHypothesisRegistry) : EventRngHypothesisRegistry :=
  {| _entries := f (_entries r); _branch_refs_by_key := _branch_refs_by_key r;
     _generation_counts := _generation_counts r |}.
Definition set_refs (f : gmap event_key (gset string) -> gmap event_key (gset string))
    (r : EventRngHypothesisRegistry) : EventRngHypothesisRegistry :=
  {| _entries := _entries r; _branch_refs_by_key := f (_branch_refs_by_key r);
     _generation_counts := _generation_counts r |}.
Definition set_generations (f : gmap event_key Z -> gmap event_key Z)
    (r : EventRngHypothesisRegistry) : EventRngHypothesisRegistry :=
  {| _entries := _entries r; _branch_refs_by_key := _branch_refs_by_key r;
     _generation_counts := f (_generation_counts r) |}.

Definition is_live (key : event_key) (r : EventRngHypothesisRegistry) : bool :=
  match _entries r !! key with Some _ => true | None => false end.
Definition generation_of (key : event_key) (r : EventRngHypothesisRegistry) : Z :=
  default 0 (_generation_counts r !! key).

Definition prepare_state (key : event_key) (base_state : pydict) (rng_id : Z) :
    M EventRngHypothesisRegistry pydict :=
  r ← getS;
  match _entries r !! key with
  | Some entry => mret (he_state entry)
  | None => liftR (derive_event_rng_hypothesis base_state rng_id)
  end.

Definition _ensure_entry (key : event_key) (state : pydict) :
    M EventRngHypothesisRegistry HypothesisEntry :=
  r ← getS;
  match _entries r !! key with
  | Some entry =>
      if py_eqb (VDict (he_state entry)) (VDict state) then mret entry
      else raiseM (PyExc "RuntimeError" "prepared Event RNG state no longer matches live hypothesis")
  | None =>
      let generation := generation_of key r + 1 in
      _ ← modS (set_generations <[key := generation]>);
      let entry := {| he_state := state; he_generation := generation |} in
      _ ← modS (set_entries <[key := entry]>);
      mret entry
  end.

Definition register_branch (key : event_key) (branch_id : string) : M EventRngHypothesisRegistry unit :=
  modS (set_refs (fun refs => <[key := default ∅ (refs !! key) ∪ {[branch_id]}]> refs)).

Definition commit_branch (key : event_key) (state : pydict) (branch_id : string) :
    M EventRngHypothesisRegistry unit :=
  _ ← _ensure_entry key state;
  register_branch key branch_id.

Definition get_or_create (key : event_key) (base_state : pydict) (rng_id : Z) :
    M EventRngHypothesisRegistry pydict :=
  state ← prepare_state key base_state rng_id;
  entry ← _ensure_entry key state;
  mret (he_state entry).

Definition release_branch (key : event_key) (branch_id : string) : M EventRngHypothesisRegistry unit :=
  r ← getS;
  match _branch_refs_by_key r !! key with
  | Some refs =>
      let refs := refs ∖ {[branch_id]} in
      _ ← modS (set_refs <[key := refs]>);
      if bool_decide (refs = ∅) then
        _ ← modS (set_refs (delete key));
        modS (set_entries (delete key))
      else mret tt
  | None =>
      if is_live key r then modS (set_entries (delete key)) else mret tt
  end.

Definition of_decision (parent_branch_id decision_point_id : string) (key : event_key) : bool :=
  String.eqb key.1.1 parent_branch_id && String.eqb key.1.2 decision_point_id.

Definition release_all_for_decision (parent_branch_id decision_point_id : string) :
    M EventRngHypothesisRegistry unit :=
  modS (fun r =>
    let gone {A} (m : gmap event_key A) : gmap event_key A :=
      filter (fun kv => of_decision parent_branch_id decision_point_id kv.1 = false) m in
    set_refs gone (set_entries gone r)).

Definition release_all : M EventRngHypothesisRegistry unit :=
  modS (fun r => set_refs (fun _ => ∅) (set_entries (fun _ => ∅) r)).

Definition snapshot_generations (keys : list event_key) (r : EventRngHypothesisRegistry) :
    list (event_key * Z) :=
  map (fun key => (key, generation_of key r)) (remove_dups keys).

Fixpoint restore_generations (snapshot : list (event_key * Z)) : M EventRngHypothesisRegistry unit :=
  match snapshot with
  | [] => mret tt
  | (key, generation) :: rest =>
      if generation <? 0
      then raiseM (PyExc "ValueError" "Event RNG generation snapshot contains an invalid counter")
      else
        r ← getS;
        if generation_of key r <? generation
        then raiseM (PyExc "RuntimeError" "Event RNG generation cannot be restored forward")
        else
          _ ← modS (set_generations (if generation =? 0 then delete key else <[key := generation]>));
          restore_generations rest
  end.

(** * Derived hypotheses are well-formed *)

Definition stream_fields : list string := ["counter"; "s0"; "s1"; "s2"; "s3"]%string.

(** A base snapshot: an event id and integer fields in every stream. *)
Definition event_state_ok (d : pydict) : Prop :=
  is_Some (dget "event_id" d) /\
  forall name, name ∈ _STREAM_KEYS -> exists stream, dget name d = Some (VDict stream) /\
    forall k, k ∈ stream_fields -> exists z, dget k stream = Some (VInt z).

(** The words a xoshiro256** generator and its counter hold. *)
Definition stream_in_range (stream : pydict) : Prop :=
  exists c s0 s1 s2 s3, stream = [("counter"%string, VInt c); ("s0"%string, VInt s0);
      ("s1"%string, VInt s1); ("s2"%string, VInt s2); ("s3"%string, VInt s3)] /\
    - 2 ^ 31 <= c < 2 ^ 31 /\ Forall (fun s => 0 <= s < 2 ^ 64) [s0; s1; s2; s3] /\
    ¬ (s0 = 0 /\ s1 = 0 /\ s2 = 0 /\ s3 = 0).

Lemma be_int_take n l : byte_list l -> 0 <= be_int (take n l) < 2 ^ (8 * Z.of_nat n).
Proof.
  intros Hl. assert (Hb : byte_list (take n l)) by (by apply Forall_take).
  pose proof (be_int_range _ Hb) as [H0 H1]. split; [done|]. eapply Z.lt_le_trans; [exact H1|].
  apply Z.pow_le_mono_r; [done|]. rewrite length_take. lia.
Qed.

Lemma counter_range l : byte_list l -> - 2 ^ 31 <= _counter_from_digest l < 2 ^ 31.
Proof.
  intros Hl. unfold _counter_from_digest. pose proof (be_int_take 4 l Hl) as H.
  change (_COUNTER_SIGN_BIT) with (2 ^ 31). change (_COUNTER_MOD) with (2 ^ 32).
  change (8 * Z.of_nat 4) with 32 in H. destruct (Z.leb_spec (2 ^ 31) (be_int (take 4 l))); lia.
Qed.

Lemma u64_range l : byte_list l -> 0 <= _u64_from_digest l < 2 ^ 64.
Proof.
  intros Hl. unfold _u64_from_digest. change _U64_MASK with (Z.ones 64). rewrite Z.land_ones by done.
  apply Z.mod_pos_bound. done.
Qed.

Lemma derived_stream_range seed : stream_in_range (derived_stream seed).
Proof.
  unfold derived_stream. set (w := fun n => _u64_from_digest (_hash_word seed n)).
  assert (Hw : forall n, 0 <= w n < 2 ^ 64) by (intros n; apply u64_range, sha256_bytes).
  fold (w "s0"%string) (w "s1"%string) (w "s2"%string) (w "s3"%string).
  do 5 eexists. split; [reflexivity|]. split; [apply counter_range, sha256_bytes|].
  destruct ((w "s0"%string =? w "s1"%string) && _ && _ && _) eqn:E.
  - split; [repeat constructor; try apply Hw; lia|lia].
  - split; [repeat constructor; apply Hw|]. intros (E0 & E1 & E2 & E3).
    rewrite E0, E1, E2, E3 in E. discriminate E.
Qed.

Lemma stream_int_ok k stream z : dget k stream = Some (VInt z) -> stream_int k (VDict stream) = Ok (pretty z).
Proof. intros H. unfold stream_int, py_index, dindex. by rewrite H. Qed.

Lemma canonical_seed_ok base name rng_id :
  event_state_ok base -> name ∈ _STREAM_KEYS -> exists seed, _canonical_stream_seed base name rng_id = Ok seed.
Proof.
  intros [[e He] Hs] Hin. destruct (Hs name Hin) as (stream & Hst & Hf).
  assert (Hk : forall k, k ∈ stream_fields -> exists t, stream_int k (VDict stream) = Ok t).
  { intros k Hk. destruct (Hf k Hk) as [z Hz]. exists (pretty z). by apply stream_int_ok. }
  destruct (Hk "counter"%string) as [c Hc]; [set_solver|]. destruct (Hk "s0"%string) as [s0 H0]; [set_solver|].
  destruct (Hk "s1"%string) as [s1 H1]; [set_solver|]. destruct (Hk "s2"%string) as [s2 H2]; [set_solver|].
  destruct (Hk "s3"%string) as [s3 H3]; [set_solver|].
  unfold _canonical_stream_seed, dindex. rewrite Hst, He. simpl. rewrite Hc. simpl. rewrite H0. simpl.
  rewrite H1. simpl. rewrite H2. simpl. rewrite H3. by eexists.
Qed.

Lemma derive_streams_ok base rng_id names : forall derived,
  event_state_ok base -> (forall n, n ∈ names -> n ∈ _STREAM_KEYS) ->
  exists d, derive_streams base rng_id names derived = Ok d /\
    (forall n, n ∈ names -> exists stream, dget n d = Some (VDict stream) /\ stream_in_range stream) /\
    (forall n, n ∉ names -> dget n d = dget n derived).
Proof.
  induction names as [|name rest IH]; intros derived Hb Hn; cbn [derive_streams].
  - exists derived. split_and!; [done|by intros n ?%elem_of_nil|done].
  - destruct (canonical_seed_ok base name rng_id Hb) as [seed Hseed]; [apply Hn; left|].
    destruct (IH (dset name (VDict (derived_stream seed)) derived) Hb) as (d & Hd & Hin & Hout).
    { intros n Hin. apply Hn. by right. }
    exists d. split_and!.
    + rewrite Hseed. exact Hd.
    + intros n Hn'. destruct (decide (n ∈ rest)) as [|Hnot]; [by apply Hin|].
      apply elem_of_cons in Hn' as [->|]; [|done]. exists (derived_stream seed).
      rewrite Hout, dget_dset_eq by done. split; [done|apply derived_stream_range].
    + intros n Hn'. apply not_elem_of_cons in Hn' as [Hne Hnot]. rewrite Hout by done. by apply dget_dset_ne.
Qed.

(** on a base snapshot whose streams hold integers, a positive rng id always
    yields a hypothesis: it keeps the event id, its streams hold a signed
    32-bit counter and four unsigned 64-bit words that are not all zero, and it
    is again a base snapshot; any other rng id is a ValueError. *)
Theorem derive_event_rng_in_range base rng_id :
  event_state_ok base ->
  if 0 <? rng_id
  then exists d, derive_event_rng_hypothesis base rng_id = Ok d /\
    dget "event_id" d = dget "event_id" base /\ event_state_ok d /\
    forall name, name ∈ _STREAM_KEYS -> exists stream, dget name d = Some (VDict stream) /\ stream_in_range stream
  else derive_event_rng_hypothesis base rng_id = Raise (PyExc "ValueError" "rng_id must be a positive int").
Proof.
  intros Hb. unfold derive_event_rng_hypothesis. destruct (Z.ltb_spec 0 rng_id) as [Hp|Hp].
  2:{ by apply Z.leb_le in Hp as ->. }
  apply Z.leb_gt in Hp as ->. pose proof Hb as [[e He] _].
  destruct (derive_streams_ok base rng_id _STREAM_KEYS [("event_id"%string, e)] Hb) as (d & Hd & Hin & Hout); [done|].
  exists d. assert (He' : dget "event_id" d = Some e).
  { rewrite Hout; [done|]. intros H%str_in_elem. discriminate H. }
  split_and!.
  - unfold dindex. rewrite He. exact Hd.
  - congruence.
  - split; [by eexists|]. intros name Hn. destruct (Hin name Hn) as (stream & Hs & c & s0 & s1 & s2 & s3 & -> & _).
    eexists. split; [exact Hs|]. intros k Hk.
    repeat (apply elem_of_cons in Hk as [->|Hk]; [by eexists|]). by apply elem_of_nil in Hk.
  - exact Hin.
Qed.

(** A base snapshot of zero streams. *)
Definition zero_stream : pyval := VDict (map (fun k => (k, VInt 0)) stream_fields).
Definition example_base : pydict :=
  ("event_id"%string, VStr "NEOW") :: map (fun k => (k, zero_stream)) _STREAM_KEYS.

Lemma example_base_ok : event_state_ok example_base.
Proof.
  split; [by eexists|]. intros name Hn.
  repeat (apply elem_of_cons in Hn as [->|Hn]; [eexists; split; [reflexivity|]; intros k Hk;
    repeat (apply elem_of_cons in Hk as [->|Hk]; [by eexists|]); by apply elem_of_nil in Hk|]).
  by apply elem_of_nil in Hn.
Qed.

Lemma derive_event_rng_in_range_witness :
  (exists d, derive_event_rng_hypothesis example_base 3 = Ok d /\ dget "event_id" d = Some (VStr "NEOW")) /\
  derive_event_rng_hypothesis example_base 0 = Raise (PyExc "ValueError" "rng_id must be a positive int").
Proof.
  split; [|exact (derive_event_rng_in_range example_base 0 example_base_ok)].
  destruct (derive_event_rng_in_range example_base 3 example_base_ok) as (d & Hd & He & _).
  exists d. split; [exact Hd|exact He].
Defined.

(** * What the registry promises: reference-counted hypotheses *)

(** The specification: the live hypotheses, each with its state, the branches
    that refer to it and its generation, and how many each key has had. *)
Record LiveHypothesis := { lh_state : pydict; lh_generation : Z; lh_refs : gset string }.
Record HypothesisSpec := { live : gmap event_key LiveHypothesis; lifecycles : gmap event_key Z }.

Inductive event_op :=
  | EvCommit (key : event_key) (state : pydict) (branch_id : string)
  | EvRelease (key : event_key) (branch_id : string)
  | EvGetOrCreate (key : event_key) (base_state : pydict) (rng_id : Z)
  | EvReleaseDecision (parent_branch_id decision_point_id : string)
  | EvReleaseAll.

(** A use of a hypothesis with a given state: joins the live one, which must be
    the same, or opens the key's next lifecycle. *)
Definition spec_open (key : event_key) (state : pydict) (refs : gset string) (s : HypothesisSpec) :
    Res LiveHypothesis * HypothesisSpec :=
  match live s !! key with
  | Some h =>
      if py_eqb (VDict (lh_state h)) (VDict state)
      then let h := {| lh_state := lh_state h; lh_generation := lh_generation h; lh_refs := lh_refs h ∪ refs |} in
           (Ok h, {| live := <[key := h]> (live s); lifecycles := lifecycles s |})
      else (Raise (PyExc "RuntimeError" "prepared Event RNG state no longer matches live hypothesis"), s)
  | None =>
      let g := default 0 (lifecycles s !! key) + 1 in
      let h := {| lh_state := state; lh_generation := g; lh_refs := refs |} in
      (Ok h, {| live := <[key := h]> (live s); lifecycles := <[key := g]> (lifecycles s) |})
  end.

Definition spec_op (o : event_op) (s : HypothesisSpec) : Res pydict * HypothesisSpec :=
  match o with
  | EvCommit key state b =>
      match spec_open key state {[b]} s with
      | (Ok _, s') => (Ok [], s')
      | (Raise e, s') => (Raise e, s')
      end
  | EvGetOrCreate key base rng_id =>
      let state := match live s !! key with
                   | Some h => Ok (lh_state h)
                   | None => derive_event_rng_hypothesis base rng_id
                   end in
      match state with
      | Raise e => (Raise e, s)
      | Ok st => match spec_open key st ∅ s with
                 | (Ok h, s') => (Ok (lh_state h), s')
                 | (Raise e, s') => (Raise e, s')
                 end
      end
  | EvRelease key b =>
      (Ok [], match live s !! key with
              | None => s
              | Some h =>
                  let refs := lh_refs h ∖ {[b]} in
                  {| live := if bool_decide (refs = ∅) then delete key (live s)
                             else <[key := {| lh_state := lh_state h; lh_generation := lh_generation h;
                                              lh_refs := refs |}]> (live s);
                     lifecycles := lifecycles s |}
              end)
  | EvReleaseDecision p d =>
      (Ok [], {| live := filter (fun kv => of_decision p d kv.1 = false) (live s);
                 lifecycles := lifecycles s |})
  | EvReleaseAll => (Ok [], {| live := ∅; lifecycles := lifecycles s |})
  end.

(** The registry's own operations. *)
Definition run_event_op (o : event_op) : M EventRngHypothesisRegistry pydict :=
  match o with
  | EvCommit key state b => _ ← commit_branch key state b; mret []
  | EvRelease key b => _ ← release_branch key b; mret []
  | EvGetOrCreate key base rng_id => get_or_create key base rng_id
  | EvReleaseDecision p d => _ ← release_all_for_decision p d; mret []
  | EvReleaseAll => _ ← release_all; mret []
  end.

(** A sequence of requests, each answered whether or not it raises. *)
Fixpoint run_event_ops (ops : list event_op) (r : EventRngHypothesisRegistry) :
    list (Res pydict) * EventRngHypothesisRegistry :=
  match ops with
  | [] => ([], r)
  | o :: rest => let '(a, r') := run_event_op o r in let '(l, r'') := run_event_ops rest r' in (a :: l, r'')
  end.
Fixpoint spec_event_ops (ops : list event_op) (s : HypothesisSpec) : list (Res pydict) * HypothesisSpec :=
  match ops with
  | [] => ([], s)
  | o :: rest => let '(a, s') := spec_op o s in let '(l, s'') := spec_event_ops rest s' in (a :: l, s'')
  end.

(** The registry's tables, seen as the specification's: reference sets are
    never empty and belong to live entries. *)
Record represents (r : EventRngHypothesisRegistry) (s : HypothesisSpec) : Prop := {
  rp_entries : _entries r = (fun h => {| he_state := lh_state h; he_generation := lh_generation h |}) <$> live s;
  rp_refs : forall key, _branch_refs_by_key r !! key =
    match live s !! key with
    | Some h => if bool_decide (lh_refs h = ∅) then None else Some (lh_refs h)
    | None => None
    end;
  rp_lifecycles : _generation_counts r = lifecycles s;
}.

Lemma represents_open key state refs r s :
  represents r s ->
  match spec_open key state refs s with
  | (Ok h, s') => exists e r', _ensure_entry key state r = (Ok e, r') /\ he_state e = lh_state h /\
      he_generation e = lh_generation h /\
      _branch_refs_by_key r' = _branch_refs_by_key r /\ _generation_counts r' = lifecycles s' /\
      _entries r' = (fun h => {| he_state := lh_state h; he_generation := lh_generation h |}) <$> live s' /\
      live s' = <[key := h]> (live s) /\
      lh_refs h = default ∅ (_branch_refs_by_key r !! key) ∪ refs
  | (Raise e, s') => s' = s /\ _ensure_entry key state r = (Raise e, r)
  end.
Proof.
  intros [He Hr Hg]. unfold spec_open, _ensure_entry.
  assert (Hlk : _entries r !! key = (fun h => {| he_state := lh_state h; he_generation := lh_generation h |}) <$> live s !! key)
    by (by rewrite He, lookup_fmap).
  pose proof (Hr key) as Hrk. destruct (live s !! key) as [h|] eqn:El; cbn in Hlk.
  - destruct (py_eqb (VDict (lh_state h)) (VDict state)) eqn:Eq.
    + do 2 eexists. split_and!.
      * erewrite M_run_Ok by reflexivity. rewrite Hlk. cbn [he_state]. rewrite Eq. reflexivity.
      * done.
      * done.
      * done.
      * done.
      * rewrite He. cbn [live]. rewrite fmap_insert. symmetry. apply insert_id.
        rewrite lookup_fmap, El. done.
      * done.
      * rewrite Hrk. cbn. case_bool_decide as Hemp; [by rewrite Hemp|done].
    + split; [done|]. erewrite M_run_Ok by reflexivity. rewrite Hlk. cbn [he_state]. by rewrite Eq.
  - do 2 eexists. split_and!.
    + erewrite M_run_Ok by reflexivity. rewrite Hlk. erewrite M_run_Ok by reflexivity.
      erewrite M_run_Ok by reflexivity. reflexivity.
    + done.
    + cbn. unfold generation_of. by rewrite Hg.
    + done.
    + cbn. unfold generation_of. by rewrite Hg.
    + cbn. unfold generation_of. rewrite He, Hg. by rewrite fmap_insert.
    + done.
    + rewrite Hrk. cbn. set_solver.
Qed.

Lemma represents_op o r s :
  represents r s ->
  (run_event_op o r).1 = (spec_op o s).1 /\ represents (run_event_op o r).2 (spec_op o s).2.
Proof.
  intros Hrep. pose proof Hrep as [He Hr Hg]. destruct o as [key state b|key b|key base rng_id|p d|]; cbn [run_event_op spec_op].
  - pose proof (represents_open key state {[b]} r s Hrep) as H. unfold commit_branch.
    destruct (spec_open key state {[b]} s) as [[h|e] s'].
    + destruct H as (e & r' & Hrun & _ & _ & Hrefs & Hgen & Hent & Hlive & Hh).
      erewrite M_run_Ok by (erewrite M_run_Ok by exact Hrun; reflexivity).
      split; [done|]. constructor; cbn; [done| |done].
      intros k. rewrite Hrefs, Hlive. destruct (decide (k = key)) as [->|Hne].
      * rewrite !lookup_insert_eq. rewrite <- Hh. rewrite bool_decide_eq_false_2; [done|]. set_solver.
      * rewrite !lookup_insert_ne by done. apply Hr.
    + destruct H as [-> Hrun]. erewrite M_run_Raise by (by erewrite M_run_Raise by exact Hrun). done.
  - unfold release_branch. pose proof (Hr key) as Hrk.
    assert (Hlk : _entries r !! key = (fun h => {| he_state := lh_state h; he_generation := lh_generation h |}) <$> live s !! key)
      by (by rewrite He, lookup_fmap).
    destruct (live s !! key) as [h|] eqn:El; cbn in Hlk.
    + case_bool_decide as Hemp.
      * erewrite M_run_Ok.
        2:{ erewrite M_run_Ok by reflexivity. rewrite Hrk. unfold is_live. rewrite Hlk. reflexivity. }
        split; [done|]. rewrite bool_decide_eq_true_2 by set_solver. constructor; cbn; [|intros k|done].
        -- by rewrite He, fmap_delete.
        -- destruct (decide (k = key)) as [->|Hne]; [by rewrite lookup_delete_eq, Hrk|].
           rewrite lookup_delete_ne by done. apply Hr.
      * case_bool_decide as Hnew.
        -- erewrite M_run_Ok.
           2:{ erewrite M_run_Ok by reflexivity. rewrite Hrk. erewrite M_run_Ok by reflexivity.
               rewrite bool_decide_eq_true_2 by done. erewrite M_run_Ok by reflexivity. reflexivity. }
           split; [done|]. constructor; cbn; [by rewrite He, fmap_delete|intros k|done].
           destruct (decide (k = key)) as [->|Hne]; [by rewrite !lookup_delete_eq|].
           rewrite !lookup_delete_ne, lookup_insert_ne by done. apply Hr.
        -- erewrite M_run_Ok.
           2:{ erewrite M_run_Ok by reflexivity. rewrite Hrk. erewrite M_run_Ok by reflexivity.
               rewrite bool_decide_eq_false_2 by done. reflexivity. }
           split; [done|]. constructor; cbn; [|intros k|done].
           ++ rewrite He, fmap_insert. cbn. symmetry. apply insert_id. by rewrite lookup_fmap, El.
           ++ destruct (decide (k = key)) as [->|Hne].
              ** rewrite !lookup_insert_eq. cbn. by rewrite bool_decide_eq_false_2 by done.
              ** rewrite !lookup_insert_ne by done. apply Hr.
    + erewrite M_run_Ok.
      2:{ erewrite M_run_Ok by reflexivity. rewrite Hrk. unfold is_live. rewrite Hlk. reflexivity. }
      done.
  - assert (Hlk : _entries r !! key = (fun h => {| he_state := lh_state h; he_generation := lh_generation h |}) <$> live s !! key)
      by (by rewrite He, lookup_fmap).
    set (st := match live s !! key with Some h => Ok (lh_state h) | None => derive_event_rng_hypothesis base rng_id end).
    assert (Hprep : prepare_state key base rng_id r = (st, r)).
    { unfold prepare_state, st. erewrite M_run_Ok by reflexivity. rewrite Hlk. by destruct (live s !! key). }
    unfold get_or_create. destruct st as [x|e].
    + erewrite M_run_Ok by exact Hprep. pose proof (represents_open key x ∅ r s Hrep) as H.
      destruct (spec_open key x ∅ s) as [[h|e] s'].
      * destruct H as (e & r' & Hrun & Hst & _ & Hrefs & Hgen & Hent & Hlive & Hh).
        erewrite M_run_Ok by exact Hrun. cbn. split; [by rewrite Hst|]. constructor; cbn; [done| |done].
        intros k. rewrite Hrefs, Hlive. destruct (decide (k = key)) as [->|Hne].
        -- rewrite lookup_insert_eq. rewrite Hr. rewrite Hh, Hr. destruct (live s !! key) as [h0|]; cbn.
           ++ case_bool_decide as Hemp; cbn.
              ** by rewrite bool_decide_eq_true_2 by set_solver.
              ** rewrite (right_id_L ∅ (∪)). by rewrite bool_decide_eq_false_2.
           ++ by rewrite bool_decide_eq_true_2 by set_solver.
        -- rewrite lookup_insert_ne by done. apply Hr.
      * destruct H as [-> Hrun]. by erewrite M_run_Raise by exact Hrun.
    + by erewrite M_run_Raise by exact Hprep.
  - split; [done|].
    change (represents (set_refs (filter (fun kv => of_decision p d kv.1 = false))
      (set_entries (filter (fun kv => of_decision p d kv.1 = false)) r))
      {| live := filter (fun kv => of_decision p d kv.1 = false) (live s); lifecycles := lifecycles s |}).
    constructor; cbn [_entries _branch_refs_by_key _generation_counts set_refs set_entries live lifecycles]; [| |done].
    + rewrite He. apply map_eq. intros k. rewrite lookup_fmap, !map_lookup_filter, lookup_fmap.
      destruct (live s !! k) as [h|]; [|done]. cbn. by destruct (of_decision p d k).
    + intros k. rewrite !map_lookup_filter, Hr. destruct (live s !! k) as [h|]; [|done].
      destruct (bool_decide (lh_refs h = ∅)) eqn:Hemp; cbn; destruct (of_decision p d k); cbn; repeat case_guard; cbn; by rewrite ?Hemp.
  - split; [done|].
    change (represents (set_refs (fun _ => ∅) (set_entries (fun _ => ∅) r))
      {| live := ∅; lifecycles := lifecycles s |}).
    constructor; cbn [_entries _branch_refs_by_key _generation_counts set_refs set_entries live lifecycles].
    + by rewrite fmap_empty.
    + intros k. by rewrite !lookup_empty.
    + done.
Qed.

Definition empty_registry : EventRngHypothesisRegistry :=
  {| _entries := ∅; _branch_refs_by_key := ∅; _generation_counts := ∅ |}.
Definition empty_spec : HypothesisSpec := {| live := ∅; lifecycles := ∅ |}.

Lemma represents_empty : represents empty_registry empty_spec.
Proof.
  constructor; cbn; [by rewrite fmap_empty|intros k; by rewrite !lookup_empty|done].
Qed.

Lemma represents_ops ops : forall r s,
  represents r s -> (run_event_ops ops r).1 = (spec_event_ops ops s).1 /\
    represents (run_event_ops ops r).2 (spec_event_ops ops s).2.
Proof.
  induction ops as [|o ops IH]; intros r s H; cbn [run_event_ops spec_event_ops]; [done|].
  destruct (represents_op o r s H) as [Ha Hr].
  destruct (run_event_op o r) as [a r1], (spec_op o s) as [a' s1]. cbn [fst snd] in *.
  destruct (IH r1 s1 Hr) as [Hl Hr2].
  destruct (run_event_ops ops r1) as [l r2], (spec_event_ops ops s1) as [l' s2]. cbn [fst snd] in *.
  by rewrite Ha, Hl.
Qed.

(** C38: the registry of event RNG hypotheses implements reference counting: on
    every sequence of commits, releases, lookups and bulk releases from the
    empty registry it gives the answers of a specification in which a
    hypothesis lives, under one state and one generation, exactly until its
    last branch is released, a commit of a different state to a live key is
    refused and changes nothing, and each new lifecycle takes the key's next
    generation. *)
Theorem event_registry_refines_refcounts ops :
  let '(answers, r) := run_event_ops ops empty_registry in
  let '(expected, s) := spec_event_ops ops empty_spec in
  answers = expected /\
  forall key,
    is_live key r = bool_decide (is_Some (live s !! key)) /\
    generation_of key r = default 0 (lifecycles s !! key) /\
    (_entries r !! key = (fun h => {| he_state := lh_state h; he_generation := lh_generation h |}) <$> live s !! key) /\
    default ∅ (_branch_refs_by_key r !! key) = from_option lh_refs ∅ (live s !! key).
Proof.
  destruct (represents_ops ops _ _ represents_empty) as [Ha [He Hr Hg]].
  destruct (run_event_ops ops empty_registry) as [answers r], (spec_event_ops ops empty_spec) as [expected s].
  cbn [fst snd] in *. split; [done|]. intros key. unfold is_live, generation_of. rewrite He, lookup_fmap, Hg, Hr.
  split_and!.
  - by destruct (live s !! key).
  - done.
  - done.
  - destruct (live s !! key) as [h|]; cbn; [|done]. case_bool_decide as Hemp; cbn; [by rewrite Hemp|done].
Qed.

(** * Rolling back a batch *)

Definition commit_item : Type := event_key * pydict * string.

Fixpoint commit_all (items : list commit_item) : M EventRngHypothesisRegistry unit :=
  match items with
  | [] => mret tt
  | (key, state, b) :: rest => _ ← commit_branch key state b; commit_all rest
  end.
Fixpoint release_each (items : list commit_item) : M EventRngHypothesisRegistry unit :=
  match items with
  | [] => mret tt
  | (key, _, b) :: rest => _ ← release_branch key b; release_each rest
  end.

(** Registries as commits and releases leave them: every live entry is
    referred to, and the counters count. *)
Record registry_ok (r : EventRngHypothesisRegistry) : Prop := {
  ro_refs : forall key refs, _branch_refs_by_key r !! key = Some refs -> refs ≠ ∅ /\ is_Some (_entries r !! key);
  ro_owned : forall key, is_Some (_entries r !! key) -> is_Some (_branch_refs_by_key r !! key);
  ro_counts : forall key g, _generation_counts r !! key = Some g -> 0 < g;
}.

Definition holds_branch (r : EventRngHypothesisRegistry) (key : event_key) (b : string) : Prop :=
  b ∈ default ∅ (_branch_refs_by_key r !! key).

Lemma commit_run key state b r u r' :
  registry_ok r -> commit_branch key state b r = (Ok u, r') ->
  registry_ok r' /\
  _branch_refs_by_key r' = <[key := default ∅ (_branch_refs_by_key r !! key) ∪ {[b]}]> (_branch_refs_by_key r) /\
  ((exists e, _entries r !! key = Some e) /\ _entries r' = _entries r /\ _generation_counts r' = _generation_counts r \/
   _entries r !! key = None /\ (exists e, _entries r' = <[key := e]> (_entries r)) /\
   _generation_counts r' = <[key := generation_of key r + 1]> (_generation_counts r)).
Proof.
  intros [Hr Ho Hc] Hrun. unfold commit_branch, _ensure_entry in Hrun.
  apply M_bind_Ok in Hrun as (e & r1 & Hens & Hreg). unfold register_branch, modS in Hreg. injection Hreg as _ <-.
  apply M_bind_Ok in Hens as (r0 & r00 & Hget & Hens). injection Hget as <- <-.
  destruct (_entries r !! key) as [e0|] eqn:Ee.
  - destruct (py_eqb _ _); [|discriminate Hens]. injection Hens as _ <-. split; [|split; [done|left; by split_and!; [eexists|..]]].
    constructor; cbn; [|intros k Hk|done].
    + intros k refs. destruct (decide (k = key)) as [->|Hne].
      * rewrite lookup_insert_eq. intros [= <-]. split; [set_solver|by eexists].
      * rewrite lookup_insert_ne by done. apply Hr.
    + destruct (decide (k = key)) as [->|Hne]; [rewrite lookup_insert_eq; by eexists|].
      rewrite lookup_insert_ne by done. by apply Ho.
  - rewrite !M_run_Ok with (s1 := _) (a := tt) in Hens by reflexivity. cbn in Hens. injection Hens as _ <-.
    assert (Hnone : _branch_refs_by_key r !! key = None).
    { destruct (_branch_refs_by_key r !! key) as [refs|] eqn:E; [|done]. destruct (Hr key refs E) as [_ [? ?]]. congruence. }
    split; [|split; [done|right; split_and!; [done|by eexists|done]]].
    constructor; cbn.
    + intros k refs. destruct (decide (k = key)) as [->|Hne].
      * rewrite !lookup_insert_eq. intros [= <-]. split; [set_solver|by eexists].
      * rewrite !lookup_insert_ne by done. apply Hr.
    + intros k. destruct (decide (k = key)) as [->|Hne]; [rewrite !lookup_insert_eq; by eexists|].
      rewrite !lookup_insert_ne by done. apply Ho.
    + intros k g. destruct (decide (k = key)) as [->|Hne].
      * rewrite lookup_insert_eq. intros [= <-]. unfold generation_of.
        destruct (_generation_counts r !! key) as [g|] eqn:E; cbn; [pose proof (Hc key g E)|]; lia.
      * rewrite lookup_insert_ne by done. apply Hc.
Qed.

Lemma release_each_app l1 l2 r r1 :
  release_each l1 r = (Ok tt, r1) -> release_each (l1 ++ l2) r = release_each l2 r1.
Proof.
  revert r. induction l1 as [|[[key state] b] l1 IH]; intros r; cbn [release_each app]; [by intros [= ->]|].
  intros (u & r0 & Hrel & Hrest)%M_bind_Ok. erewrite M_run_Ok by exact Hrel. by apply IH.
Qed.

(** Releasing a branch just committed undoes the commit, up to the counters. *)
Lemma release_undoes key b r r1 e :
  registry_ok r -> ¬ holds_branch r key b ->
  _branch_refs_by_key r1 = <[key := default ∅ (_branch_refs_by_key r !! key) ∪ {[b]}]> (_branch_refs_by_key r) ->
  (_entries r !! key = Some e /\ _entries r1 = _entries r \/
   _entries r !! key = None /\ _entries r1 = <[key := e]> (_entries r)) ->
  exists r2, release_branch key b r1 = (Ok tt, r2) /\ _entries r2 = _entries r /\
    _branch_refs_by_key r2 = _branch_refs_by_key r /\ _generation_counts r2 = _generation_counts r1.
Proof.
  intros [Hr Ho _] Hb Hrefs Hent. unfold holds_branch in Hb. unfold release_branch.
  set (S := default ∅ (_branch_refs_by_key r !! key)) in *.
  assert (HS : (S ∪ {[b]}) ∖ {[b]} = S) by set_solver.
  destruct (decide (S = ∅)) as [Hemp|Hne].
  - eexists. split_and!.
    + erewrite M_run_Ok by reflexivity. rewrite Hrefs, lookup_insert_eq, HS.
      erewrite M_run_Ok by reflexivity. rewrite bool_decide_eq_true_2 by done.
      erewrite M_run_Ok by reflexivity. reflexivity.
    + cbn. assert (Hnone : _branch_refs_by_key r !! key = None).
      { subst S. destruct (_branch_refs_by_key r !! key) as [refs|] eqn:E; [|done]. by destruct (Hr key refs E). }
      destruct Hent as [[He _]|[He ->]].
      * destruct (Ho key) as [refs Hrf]; [by eexists|]. congruence.
      * by apply delete_insert_id.
    + cbn. rewrite Hrefs, insert_insert_eq, delete_insert_eq. apply delete_id.
      subst S. destruct (_branch_refs_by_key r !! key) as [refs|] eqn:E; [|done]. by destruct (Hr key refs E).
    + done.
  - assert (Hsome : _branch_refs_by_key r !! key = Some S) by (subst S; by destruct (_branch_refs_by_key r !! key)).
    eexists. split_and!.
    + erewrite M_run_Ok by reflexivity. rewrite Hrefs, lookup_insert_eq, HS.
      erewrite M_run_Ok by reflexivity. rewrite bool_decide_eq_false_2 by done. reflexivity.
    + cbn. destruct Hent as [[_ ->]|[He _]]; [done|]. destruct (Hr key S Hsome) as [_ [? ?]]. congruence.
    + cbn. rewrite Hrefs, insert_insert_eq. by apply insert_id.
    + done.
Qed.

Lemma rollback_releases items : forall r r1,
  registry_ok r -> NoDup (map snd items) -> (forall key st b, (key, st, b) ∈ items -> ¬ holds_branch r key b) ->
  commit_all items r = (Ok tt, r1) ->
  exists r2, release_each (rev items) r1 = (Ok tt, r2) /\ _entries r2 = _entries r /\
    _branch_refs_by_key r2 = _branch_refs_by_key r /\
    forall key, generation_of key r <= generation_of key r2 /\
      (key ∉ map (fun i => i.1.1) items -> _generation_counts r2 !! key = _generation_counts r !! key).
Proof.
  induction items as [|[[key state] b] items IH]; intros r r1 Hok Hnd Hfresh; cbn [commit_all map rev].
  - intros [= <-]. exists r. by split_and!.
  - apply NoDup_cons in Hnd as [Hni Hnd]. intros (u & r' & Hcommit & Hrest)%M_bind_Ok.
    destruct (commit_run key state b r u r' Hok Hcommit) as (Hok' & Hrefs & Hcase).
    assert (Hb : ¬ holds_branch r key b) by (eapply Hfresh; left).
    destruct (IH r' r1 Hok' Hnd) as (r2 & Hrel & He2 & Hr2 & Hg2); [|exact Hrest|].
    { intros k st b' Hin. unfold holds_branch. rewrite Hrefs. destruct (decide (k = key)) as [->|Hne].
      - rewrite lookup_insert_eq. cbn. intros [Hold| ->%elem_of_singleton]%elem_of_union.
        + eapply Hfresh; [by right|exact Hold].
        + apply Hni. apply list_elem_of_fmap. by exists (key, st, b).
      - rewrite lookup_insert_ne by done. eapply Hfresh. by right. }
    assert (Hent : exists e, _entries r !! key = Some e /\ _entries r2 = _entries r \/
        _entries r !! key = None /\ _entries r2 = <[key := e]> (_entries r)).
    { rewrite He2. destruct Hcase as [([e ?] & ? & _)|(? & [e ?] & _)]; exists e; auto. }
    destruct Hent as [e Hent].
    destruct (release_undoes key b r r2 e Hok Hb) as (r3 & Hrel3 & He3 & Hr3 & Hg3); [by rewrite Hr2|exact Hent|].
    exists r3. split_and!; [|done|done|].
    + erewrite release_each_app by exact Hrel. cbn [release_each]. by erewrite M_run_Ok by exact Hrel3.
    + intros k. destruct (Hg2 k) as [Hle Heq]. unfold generation_of in *. rewrite Hg3.
      assert (Hstep : default 0 (_generation_counts r !! k) <= default 0 (_generation_counts r' !! k) /\
        (k ≠ key -> _generation_counts r' !! k = _generation_counts r !! k)).
      { destruct Hcase as [(_ & _ & ->)|(_ & _ & ->)]; [split; [lia|done]|].
        unfold generation_of. destruct (decide (k = key)) as [->|Hne].
        - rewrite lookup_insert_eq. cbn. split; [lia|done].
        - rewrite lookup_insert_ne by done. split; [lia|done]. }
      destruct Hstep as [Hs1 Hs2]. split; [lia|]. cbn [map fst]. intros [Hne Hnot]%not_elem_of_cons.
      rewrite Heq by done. by apply Hs2.
Qed.

Lemma restore_run r keys : registry_ok r -> forall rc,
  _entries rc = _entries r -> _branch_refs_by_key rc = _branch_refs_by_key r ->
  (forall key, generation_of key r <= generation_of key rc) ->
  (forall key, key ∉ keys -> _generation_counts rc !! key = _generation_counts r !! key) ->
  restore_generations (map (fun key => (key, generation_of key r)) keys) rc = (Ok tt, r).
Proof.
  intros Hok. induction keys as [|key keys IH]; intros rc He Hr Hle Heq; cbn [map restore_generations].
  - assert (Hg : _generation_counts rc = _generation_counts r).
    { apply map_eq. intros k. apply Heq, not_elem_of_nil. }
    unfold mret, M_ret. f_equal. destruct rc, r. cbn in *. congruence.
  - set (g := generation_of key r). assert (Hg0 : 0 <= g /\ (g = 0 -> _generation_counts r !! key = None) /\
      (g ≠ 0 -> _generation_counts r !! key = Some g)).
    { unfold g, generation_of. destruct (_generation_counts r !! key) as [n|] eqn:E; cbn; [|by split_and!].
      pose proof (ro_counts _ Hok key n E). split_and!; [lia|lia|done]. }
    destruct Hg0 as (Hg0 & Hz & Hnz).
    replace (g <? 0) with false by (symmetry; apply Z.ltb_ge; done).
    erewrite M_run_Ok by reflexivity.
    replace (generation_of key rc <? g) with false by (symmetry; apply Z.ltb_ge; apply Hle).
    erewrite M_run_Ok by reflexivity.
    assert (Hk : forall k, (if g =? 0 then delete key else <[key := g]>) (_generation_counts rc) !! k
        = if decide (k = key) then _generation_counts r !! key else _generation_counts rc !! k).
    { intros k. destruct (Z.eqb_spec g 0) as [Hg|Hg]; destruct (decide (k = key)) as [->|Hne];
        rewrite ?lookup_delete_eq, ?lookup_delete_ne, ?lookup_insert_eq, ?lookup_insert_ne by done; try done.
      - symmetry. by apply Hz.
      - symmetry. by apply Hnz. }
    apply IH.
    + done.
    + done.
    + intros k. unfold generation_of. cbn. rewrite Hk. destruct (decide (k = key)) as [->|]; [done|apply Hle].
    + intros k Hk'. cbn. rewrite Hk. destruct (decide (k = key)) as [->|Hne]; [done|].
      apply Heq. by apply not_elem_of_cons.
Qed.

(** a batch of commits under fresh branch ids is undone exactly: releasing
    its branches in reverse order and restoring the generation counters
    captured before it gives back the very registry, counters included. *)
Theorem event_batch_rollback items r r1 :
  registry_ok r -> NoDup (map snd items) ->
  (forall key st b, (key, st, b) ∈ items -> ¬ holds_branch r key b) ->
  commit_all items r = (Ok tt, r1) ->
  let snapshot := snapshot_generations (map (fun i => i.1.1) items) r in
  (_ ← release_each (rev items); restore_generations snapshot) r1 = (Ok tt, r).
Proof.
  intros Hok Hnd Hfresh Hcommit. cbn zeta.
  destruct (rollback_releases items r r1 Hok Hnd Hfresh Hcommit) as (r2 & Hrel & He & Hr & Hg).
  erewrite M_run_Ok by exact Hrel. unfold snapshot_generations. apply restore_run; try done.
  - intros key. apply Hg.
  - intros key Hn. apply Hg. by rewrite elem_of_remove_dups in Hn.
Qed.

Definition demo_key (n : Z) : event_key := ("root"%string, "dp-1"%string, n).

(** Two branches on one hypothesis and one on another, over a registry where
    the first key is live under an earlier branch. *)
Lemma event_batch_rollback_witness :
  let items := [(demo_key 1, [], "b"%string); (demo_key 2, example_base, "c"%string); (demo_key 1, [], "d"%string)] in
  let r := (commit_branch (demo_key 1) [] "a" empty_registry).2 in
  let r1 := (commit_all items r).2 in
  generation_of (demo_key 2) r1 = 1 /\
  (_ ← release_each (rev items);
   restore_generations (snapshot_generations (map (fun i => i.1.1) items) r)) r1 = (Ok tt, r).
Proof.
  cbn zeta. split; [vm_compute; reflexivity|].
  eapply (event_batch_rollback
    [(demo_key 1, [], "b"%string); (demo_key 2, example_base, "c"%string); (demo_key 1, [], "d"%string)]).
  - destruct (commit_run (demo_key 1) [] "a" empty_registry tt (commit_branch (demo_key 1) [] "a" empty_registry).2) as [H _].
    + constructor; cbn; [by intros k refs; rewrite lookup_empty|intros k; rewrite lookup_empty; by intros []|
        by intros k g; rewrite lookup_empty].
    + vm_compute. reflexivity.
    + exact H.
  - cbn [map snd]. apply (bool_decide_unpack _). vm_compute. exact I.
  - intros key st b Hin. repeat (apply elem_of_cons in Hin as [[= -> -> ->]|Hin];
      [unfold holds_branch; apply (bool_decide_unpack _); vm_compute; exact I|]). by apply elem_of_nil in Hin.
  - vm_compute. reflexivity.
Defined.
