(* ===== verification/Leases.v ===== *)
(** Work items, state-holding leases, their routing and the worker runtime
    (Combat/search/branch_worker_pool.py). *)

From S2P Require Export Sha256 Candidates.

Definition WORK_KIND_CONTINUATION : string := "continuation".
Definition WORK_KIND_SUB_BRANCH : string := "sub_branch".
Definition WORK_KIND_VALUES : list string := [WORK_KIND_CONTINUATION; WORK_KIND_SUB_BRANCH].
Definition EXECUTION_MODE_BOOTSTRAP_STEP : string := "bootstrap_step".
Definition EXECUTION_MODE_HOLDER_STEP : string := "holder_step".
Definition EXECUTION_MODE_VALUES : list string :=
  [EXECUTION_MODE_BOOTSTRAP_STEP; EXECUTION_MODE_HOLDER_STEP].
Definition BRANCH_STATUS_SUCCESS : string := "success".
Definition BRANCH_STATUS_FAULT : string := "fault".

(** * Identities *)

Definition _VOLATILE_TOP_LEVEL_METADATA_KEYS : list string := ["SnapshotId"; "CapturedAtUtc"]%string.

(** combat_state_snapshot.py: the keys are dropped at every depth. *)
Fixpoint _strip_volatile (exclude_volatile : bool) (node : pyval) : pyval :=
  match node with
  | VDict d =>
      VDict (List.filter (fun p => negb (exclude_volatile && str_in p.1 _VOLATILE_TOP_LEVEL_METADATA_KEYS))
               (map (fun p => (p.1, _strip_volatile exclude_volatile p.2)) d))
  | VList l => VList (map (_strip_volatile exclude_volatile) l)
  | _ => node
  end.

Definition canonical_json (v : pyval) (exclude_volatile : bool) : string :=
  json_dumps true (_strip_volatile exclude_volatile v).

Definition _json_digest (payload : pyval) : string :=
  String.substring 0 16 (sha256_hex (json_dumps true payload)).

Definition _root_digest (value : string) : string := sha256_hex (json_dumps true (VStr value)).

Definition opt_json {A} (f : A -> pyval) (o : option A) : pyval :=
  match o with Some a => f a | None => VNone end.

(** [dataclasses.asdict]. *)
Definition semantic_action_json (a : SemanticAction) : pyval :=
  VDict [("action_type", action_type a); ("semantic_key", semantic_key a)].
Definition signature_json (s : DecisionSignature) : pyval :=
  VDict [("combat_session_id", opt_json VStr (sig_combat_session_id s));
         ("step_index", VInt (sig_step_index s));
         ("continuation_step_index", opt_json VInt (sig_continuation_step_index s));
         ("semantic_action", semantic_action_json (sig_semantic_action s));
         ("resolved_action_id", VInt (sig_resolved_action_id s));
         ("resolved_semantic_key", sig_resolved_semantic_key s);
         ("resolved_target_index", opt_json VInt (sig_resolved_target_index s));
         ("resolved_target_slot_index", opt_json VInt (sig_resolved_target_slot_index s));
         ("boundary", VStr (sig_boundary s));
         ("choice_scope", opt_json VStr (sig_choice_scope s));
         ("choice_kind", sig_choice_kind s);
         ("candidate_semantic_keys",
           opt_json (fun l => VList (map (fun kn => VList [VList [kn.1.1; kn.1.2]; VInt kn.2]) l))
             (sig_candidate_semantic_keys s))].
Definition entry_json (e : ReplayPrefixEntry) : pyval :=
  VDict [("semantic_action", semantic_action_json (entry_semantic_action e));
         ("expected_signature", signature_json (expected_signature e));
         ("target_index", opt_json VInt (entry_target_index e));
         ("target_enemy_index", opt_json VInt (entry_target_enemy_index e))].

Definition decision_result_digest (signature : DecisionSignature) : string :=
  _json_digest (signature_json signature).

Section Identity.
Context (json_loads : string -> Res pyval).

(** [search_root(root).identity_payload()]. *)
Definition identity_payload (root : Root) : Res string :=
  match root with
  | CombatStartReplayRoot spec => Ok (json_dumps true (VDict [("scenario_spec", VDict spec)]))
  | RoomEntryReplayRoot map_snapshot room_id =>
      Ok (json_dumps true (VDict [("map_snapshot", VStr map_snapshot); ("room_id", VInt room_id)]))
  | JsonTextRoot text =>
      match json_loads text with
      | Ok v => Ok (canonical_json v true)
      | Raise e => if String.eqb (exn_class e) "JSONDecodeError"
                   then Ok (_root_digest (repr_str text)) else Raise e
      end
  | JsonDictRoot d | SnapshotRoot d => Ok (canonical_json (VDict d) true)
  | OtherDataclassRoot _ => _ ← search_root root; Ok ""%string
  | ObjectRoot repr _ None => Ok (_root_digest repr)
  | ObjectRoot _ _ (Some text) => v ← json_loads text; Ok (canonical_json v true)
  end.

Definition derive_context_id (context : DecisionContext) : Res string :=
  root_payload ← identity_payload (root_snapshot context);
  Ok (_json_digest (VDict
    [("root_snapshot_sha256", VStr (sha256_hex root_payload));
     ("replay_prefix", VList (map entry_json (replay_prefix context)));
     ("search_hypothesis_id", opt_json VStr (search_hypothesis_id context))])).
End Identity.

(** * Work items, leases and results *)

Record WorkItem := {
  work_id : string;
  wi_decision_context : DecisionContext;
  wi_candidate : PipelineCandidateRef;
  wi_context_id : string;
  work_kind : string;
}.

Definition wi_hypothesis (w : WorkItem) : option string :=
  search_hypothesis_id (wi_decision_context w).

(** [WorkItem.__post_init__]. *)
Definition work_item_check (w : WorkItem) : Res WorkItem :=
  if negb (str_in (work_kind w) WORK_KIND_VALUES) then
    Raise (PyExc "ValueError" ("unknown work_kind " +:+ repr_str (work_kind w) +:+
      " (known: ['continuation', 'sub_branch'])"))
  else if negb (matches_for_replay (ref_current_context_signature (wi_candidate w))
                  (current_context_signature (wi_decision_context w))) then
    Raise (PyExc "ValueError" "candidate current_context_signature does not match its DecisionContext")
  else Ok w.

(** [a or b] on optional strings. *)
Definition or_else (o : option string) (r : Res string) : Res string :=
  match o with
  | Some ""%string | None => r
  | Some s => Ok s
  end.

Definition from_candidate_ref (json_loads : string -> Res pyval) (context : DecisionContext)
    (candidate : PipelineCandidateRef) (kind : string) (context_id work_id : option string) :
    Res WorkItem :=
  resolved_context_id ← or_else context_id (derive_context_id json_loads context);
  resolved_work_id ← or_else work_id (Ok (_json_digest (VDict
    [("context_id", VStr resolved_context_id); ("work_kind", VStr kind);
     ("semantic_action", semantic_action_json (ref_semantic_action candidate));
     ("target_index", opt_json VInt (ref_target_index candidate));
     ("target_enemy_index", opt_json VInt (ref_target_enemy_index candidate));
     ("score", VFloat (ref_score candidate))])));
  work_item_check {| work_id := resolved_work_id; wi_decision_context := context;
                     wi_candidate := candidate; wi_context_id := resolved_context_id;
                     work_kind := kind |}.

Record Lease := {
  lease_worker_id : Z;
  lease_worker_generation : Z;
  lease_context_id : string;
  lease_hypothesis_id : option string;
  state_epoch : Z;
  lease_combat_session_id : option string;
  lease_step_index : Z;
  lease_digest : string;
}.

#[global] Instance Lease_eq_dec : EqDecision Lease.
Proof. solve_decision. Defined.

Abbreviation lease_key := (string * option string)%type.
Definition key_of (l : Lease) : lease_key := (lease_context_id l, lease_hypothesis_id l).

Definition is_valid_for (l : Lease) (w : WorkItem) (worker_generation : option Z) : bool :=
  let expected := current_context_signature (wi_decision_context w) in
  String.eqb (work_kind w) WORK_KIND_CONTINUATION &&
  String.eqb (lease_context_id l) (wi_context_id w) &&
  bool_decide (lease_hypothesis_id l = wi_hypothesis w) &&
  match worker_generation with Some g => lease_worker_generation l =? g | None => true end &&
  bool_decide (lease_combat_session_id l = sig_combat_session_id expected) &&
  (lease_step_index l =? sig_step_index expected) &&
  String.eqb (lease_digest l) (decision_result_digest expected).

(** [LeaseRegistry]: the lease of each (context, hypothesis). *)
Abbreviation LeaseRegistry := (gmap lease_key Lease).

Definition reg_get (context_id : string) (hypothesis : option string) (r : LeaseRegistry) :
    option Lease := r !! (context_id, hypothesis).
Definition reg_set (l : Lease) (r : LeaseRegistry) : LeaseRegistry := <[key_of l := l]> r.
Definition reg_invalidate (context_id : string) (hypothesis : option string) (r : LeaseRegistry) :
    LeaseRegistry := delete (context_id, hypothesis) r.
Definition reg_invalidate_lease (l : Lease) (r : LeaseRegistry) : LeaseRegistry :=
  if bool_decide (r !! key_of l = Some l) then delete (key_of l) r else r.
Definition reg_invalidate_worker (worker_id : Z) (r : LeaseRegistry) : LeaseRegistry :=
  filter (fun kl => lease_worker_id kl.2 ≠ worker_id) r.
Definition worker_ids_holding_leases (r : LeaseRegistry) : list Z :=
  map (fun kl => lease_worker_id kl.2) (map_to_list r).

Record BranchTerminalResult := { bt_is_terminal : bool; bt_outcome : string }.

Record BranchResult := {
  status : string;
  work_item : WorkItem;
  execution_mode : string;
  res_worker_id : option Z;
  res_worker_generation : option Z;
  result_signature : option DecisionSignature;
  child_snapshot : option pydict;
  terminal_result : option BranchTerminalResult;
  pending_decision_context : option DecisionContext;
  pending_pipeline_result : option CandidatePipelineResult;
  established_lease : option Lease;
  next_decision_result : option BattleState;
  next_legal_actions : option (list pydict);
  diagnostics : pydict;
}.

(** [BranchResult.__post_init__]. *)
Definition result_check (r : BranchResult) : Res BranchResult :=
  let err m := Raise (PyExc "ValueError" m) in
  let has_child := is_some (child_snapshot r) in
  let has_terminal := is_some (terminal_result r) in
  if negb (str_in (status r) [BRANCH_STATUS_SUCCESS; BRANCH_STATUS_FAULT])
  then err ("unknown BranchResult status " +:+ repr_str (status r))
  else if negb (str_in (execution_mode r) EXECUTION_MODE_VALUES)
  then err ("unknown execution_mode " +:+ repr_str (execution_mode r))
  else if has_child && has_terminal
  then err "BranchResult cannot contain both child_snapshot and terminal_result"%string
  else if String.eqb (status r) BRANCH_STATUS_SUCCESS then
    match result_signature r with
    | None => err "successful BranchResult requires result_signature"%string
    | Some signature =>
        let boundary := sig_boundary signature in
        if String.eqb boundary BOUNDARY_STABLE && negb has_child
        then err "Stable success requires exactly child_snapshot"%string
        else if String.eqb boundary BOUNDARY_TERMINAL && negb has_terminal
        then err "Terminal success requires exactly terminal_result"%string
        else if String.eqb boundary BOUNDARY_PENDING then
          if has_child || has_terminal
          then err "Pending success must not carry child_snapshot or terminal_result"%string
          else if negb (is_some (pending_decision_context r)) || negb (is_some (pending_pipeline_result r))
          then err "Pending success requires pending_decision_context and pending_pipeline_result"%string
          else if negb (is_some (established_lease r))
          then err "Pending success requires established_lease"%string
          else Ok r
        else Ok r
    end
  else Ok r.

Record WorkerExecutionRequest := {
  req_work_item : WorkItem;
  req_execution_mode : string;
  expected_lease : option Lease;
}.

(** * Routing *)

(** [_choose_bootstrap_worker]. *)
Definition _choose_bootstrap_worker (worker_ids : list Z) (r : LeaseRegistry) (next_index : Z) :
    Res (Z * Z) :=
  let leased := worker_ids_holding_leases r in
  let unleased := List.filter (fun w => negb (existsb (Z.eqb w) leased)) worker_ids in
  let candidates := match unleased with [] => worker_ids | _ => unleased end in
  match candidates with
  | [] => Raise (PyExc "ZeroDivisionError" "integer modulo by zero")
  | c :: _ =>
      let i := Z.to_nat (next_index mod Z.of_nat (length candidates)) in
      Ok (nth i candidates c, next_index + 1)
  end.

(** The Bootstrap Step route: the chosen worker loses the leases it held. *)
Definition route_bootstrap (w : WorkItem) (worker_ids : list Z) (next_bootstrap_index : Z) :
    M LeaseRegistry (WorkerExecutionRequest * Z * Z) :=
  r ← getS;
  chosen ← liftR (_choose_bootstrap_worker worker_ids r next_bootstrap_index);
  _ ← (if existsb (Z.eqb chosen.1) (worker_ids_holding_leases r)
       then modS (reg_invalidate_worker chosen.1) else mret tt);
  mret ({| req_work_item := w; req_execution_mode := EXECUTION_MODE_BOOTSTRAP_STEP;
           expected_lease := None |}, chosen.1, chosen.2).

(** [_route_work_item], with the registry it updates: the request, the worker
    and the next bootstrap index. *)
Definition _route_work_item (w : WorkItem) (worker_ids : list Z) (worker_generations : gmap Z Z)
    (next_bootstrap_index : Z) : M LeaseRegistry (WorkerExecutionRequest * Z * Z) :=
  if String.eqb (work_kind w) WORK_KIND_CONTINUATION then
    r ← getS;
    match reg_get (wi_context_id w) (wi_hypothesis w) r with
    | Some lease =>
        let usable := match worker_generations !! lease_worker_id lease with
                      | Some generation => is_valid_for lease w (Some generation)
                      | None => false
                      end in
        if usable then
          mret ({| req_work_item := w; req_execution_mode := EXECUTION_MODE_HOLDER_STEP;
                   expected_lease := Some lease |}, lease_worker_id lease, next_bootstrap_index)
        else _ ← modS (reg_invalidate_lease lease);
             route_bootstrap w worker_ids next_bootstrap_index
    | None => route_bootstrap w worker_ids next_bootstrap_index
    end
  else route_bootstrap w worker_ids next_bootstrap_index.

(** * The worker runtime *)

(** An exception's own [fault_kind] attribute. *)
Definition exn_fault_kind (e : pyexn) : option string :=
  match e with
  | RequestRejected _ k => k
  | PyExc cls _ =>
      if String.eqb cls "SnapshotRestoreMissingMoveError"
      then Some "snapshot_restore_missing_monster_move"%string else None
  end.

Definition fault_kind_or_default (e : pyexn) : string :=
  match exn_fault_kind e with
  | Some ""%string | None => "worker_exception"
  | Some k => k
  end.

(** A result with no outcome fields. *)
Definition bare_result (st : string) (w : WorkItem) (mode : string) (wid wgen : option Z) :
    BranchResult :=
  {| status := st; work_item := w; execution_mode := mode; res_worker_id := wid;
     res_worker_generation := wgen; result_signature := None; child_snapshot := None;
     terminal_result := None; pending_decision_context := None; pending_pipeline_result := None;
     established_lease := None; next_decision_result := None; next_legal_actions := None;
     diagnostics := [] |}.

Definition with_diagnostics (r : BranchResult) (d : pydict) : BranchResult :=
  {| status := status r; work_item := work_item r; execution_mode := execution_mode r;
     res_worker_id := res_worker_id r; res_worker_generation := res_worker_generation r;
     result_signature := result_signature r; child_snapshot := child_snapshot r;
     terminal_result := terminal_result r; pending_decision_context := pending_decision_context r;
     pending_pipeline_result := pending_pipeline_result r; established_lease := established_lease r;
     next_decision_result := next_decision_result r; next_legal_actions := next_legal_actions r;
     diagnostics := d |}.

Section Worker.
(** [json.loads] and the text of [traceback.format_exc()]. *)
Context (json_loads : string -> Res pyval) (format_exc : pyexn -> string).

Definition _fault_result (w : WorkItem) (mode : string) (wid wgen : option Z) (exc : pyexn)
    (fault_kind : string) : Res BranchResult :=
  result_check (with_diagnostics (bare_result BRANCH_STATUS_FAULT w mode wid wgen)
    [("fault_kind", VStr fault_kind); ("exception_type", VStr (exn_class exc));
     ("message", VStr (exn_str exc)); ("traceback", VStr (format_exc exc))]).

Definition diag_text (d : pydict) (k : string) : string := py_str (dget_or k (VStr "") d).

Definition _is_process_tainting_fault (d : pydict) : bool :=
  match d with
  | [] => false
  | _ =>
      let text := str_concat (chr 10) (map (diag_text d) ["exception_type"; "message"; "traceback"]%string) in
      str_contains "NullReferenceException" text &&
      (str_contains "EndCombatInternal" text || str_contains "CheckWinCondition" text)
  end.

Context {S : Type} {HS : CombatSession S}.

Definition _resolve_and_step (state : BattleState) (w : WorkItem) :
    M S (BattleState * DecisionSignature) :=
  legal_actions ← legal_actions_of state;
  let c := wi_candidate w in
  resolved_action ← liftR (resolve (ref_semantic_action c) legal_actions);
  next_state ← step state resolved_action (ref_target_index c) (ref_target_enemy_index c);
  signature ← liftR (from_battle_state next_state (ref_semantic_action c) resolved_action
                       (ref_target_index c) (ref_target_enemy_index c) None);
  mret (next_state, signature).

(** The context of a pending child: the parent's with one entry appended to
    the replay prefix and to the plan path. *)
Definition pending_child_context (w : WorkItem) (next_state : BattleState)
    (signature : DecisionSignature) : DecisionContext :=
  let c := wi_candidate w in
  let entry := {| entry_semantic_action := ref_semantic_action c; expected_signature := signature;
                  entry_target_index := ref_target_index c;
                  entry_target_enemy_index := ref_target_enemy_index c;
                  visible_draw_constraints := []; visible_draw_tracking_blocked := false;
                  visible_draw_tracking_error := None |} in
  let parent := wi_decision_context w in
  {| root_snapshot := root_snapshot parent;
     replay_prefix := append_replay_prefix_entry (replay_prefix parent) entry;
     plan_path := append_replay_prefix_entry (plan_path parent) entry;
     current_decision_result := next_state; current_context_signature := signature;
     search_hypothesis_id := wi_hypothesis w |}.

Definition _build_success_result (w : WorkItem) (mode : string) (worker_id worker_generation epoch : Z)
    (next_state : BattleState) (signature : DecisionSignature) : M S BranchResult :=
  let boundary := sig_boundary signature in
  if String.eqb boundary BOUNDARY_STABLE then
    snapshot ← capture_snapshot;
    liftR (result_check
      {| status := BRANCH_STATUS_SUCCESS; work_item := w; execution_mode := mode;
         res_worker_id := Some worker_id; res_worker_generation := Some worker_generation;
         result_signature := Some signature; child_snapshot := Some snapshot;
         terminal_result := None; pending_decision_context := None; pending_pipeline_result := None;
         established_lease := None; next_decision_result := Some next_state;
         next_legal_actions := Some (_legal_actions_from_current_result next_state);
         diagnostics := [] |})
  else if String.eqb boundary BOUNDARY_TERMINAL then
    liftR (result_check
      {| status := BRANCH_STATUS_SUCCESS; work_item := w; execution_mode := mode;
         res_worker_id := Some worker_id; res_worker_generation := Some worker_generation;
         result_signature := Some signature; child_snapshot := None;
         terminal_result := Some {| bt_is_terminal := is_terminal next_state;
                                    bt_outcome := outcome next_state |};
         pending_decision_context := None; pending_pipeline_result := None;
         established_lease := None; next_decision_result := None; next_legal_actions := None;
         diagnostics := [] |})
  else if negb (String.eqb boundary BOUNDARY_PENDING) then
    raiseM (PyExc "RuntimeError" ("unexpected successful worker boundary " +:+ repr_str boundary))
  else
    let new_context := pending_child_context w next_state signature in
    new_context_id ← liftR (derive_context_id json_loads new_context);
    let lease := {| lease_worker_id := worker_id; lease_worker_generation := worker_generation;
                    lease_context_id := new_context_id;
                    lease_hypothesis_id := search_hypothesis_id new_context; state_epoch := epoch;
                    lease_combat_session_id := sig_combat_session_id signature;
                    lease_step_index := sig_step_index signature;
                    lease_digest := decision_result_digest signature |} in
    pipeline_result ← liftR (build_candidate_pipeline_result new_context 8 None);
    liftR (result_check
      {| status := BRANCH_STATUS_SUCCESS; work_item := w; execution_mode := mode;
         res_worker_id := Some worker_id; res_worker_generation := Some worker_generation;
         result_signature := Some signature; child_snapshot := None; terminal_result := None;
         pending_decision_context := Some new_context;
         pending_pipeline_result := Some pipeline_result; established_lease := Some lease;
         next_decision_result := None; next_legal_actions := None; diagnostics := [] |}).

(** [_WorkerRuntime]; its worker id and generation never change. *)
Record WorkerRuntime := {
  rt_session : S;
  current_state : option BattleState;
  current_context_id : option string;
  current_hypothesis_id : option string;
  rt_state_epoch : Z;
}.

Definition on_session {A} (m : M S A) : M WorkerRuntime A := fun rt =>
  let '(r, s) := m (rt_session rt) in
  (r, {| rt_session := s; current_state := current_state rt;
         current_context_id := current_context_id rt;
         current_hypothesis_id := current_hypothesis_id rt; rt_state_epoch := rt_state_epoch rt |}).
Definition retain (state : option BattleState) (context_id hypothesis : option string)
    (rt : WorkerRuntime) : WorkerRuntime :=
  {| rt_session := rt_session rt; current_state := state; current_context_id := context_id;
     current_hypothesis_id := hypothesis; rt_state_epoch := rt_state_epoch rt |}.
Definition forget : M WorkerRuntime unit := modS (retain None None None).
Definition add_epoch (n : Z) : M WorkerRuntime unit := modS (fun rt =>
  {| rt_session := rt_session rt; current_state := current_state rt;
     current_context_id := current_context_id rt;
     current_hypothesis_id := current_hypothesis_id rt; rt_state_epoch := rt_state_epoch rt + n |}).

Definition mismatch_diagnostics (stage detail : string) (at_step : option Z) (diverged : list string) :
    pydict :=
  let step := match at_step with Some z => pretty z | None => "None" end in
  let fields := py_repr (VList (map VStr diverged)) in
  [("fault_kind", VStr "replay_mismatch"); ("stage", VStr stage);
   ("step_index", opt_json VInt at_step); ("detail", VStr detail);
   ("diverged_fields", VList (map VStr diverged));
   ("message", VStr ("replay_mismatch at stage=" +:+ stage +:+ " step_index=" +:+ step +:+ ": " +:+
      detail +:+ " diverged_fields=" +:+ fields))].

(** The checks of a Holder Step, giving the retained state. *)
Definition holder_state (request : WorkerExecutionRequest) (rt : WorkerRuntime) : Res BattleState :=
  let w := req_work_item request in
  let err m := Raise (PyExc "RuntimeError" m) in
  match expected_lease request with
  | None => err "Holder Step request requires expected_lease"%string
  | Some lease =>
      match current_state rt with
      | None => err "Holder Step requested but worker has no retained state"%string
      | Some state =>
          if negb (bool_decide (current_context_id rt = Some (wi_context_id w)))
          then err ("Holder Step context mismatch: worker=" +:+ repr_opt (current_context_id rt) +:+
                    " request=" +:+ repr_str (wi_context_id w))
          else if negb (bool_decide (current_hypothesis_id rt = wi_hypothesis w))
          then err "Holder Step search_hypothesis_id mismatch"%string
          else if negb (rt_state_epoch rt =? state_epoch lease)
          then err ("Holder Step state_epoch mismatch: worker=" +:+ pretty (rt_state_epoch rt) +:+
                    " lease=" +:+ pretty (state_epoch lease))
          else Ok state
      end
  end.

(** The state to step from, or the fault of a replay that diverged. *)
Definition prepare (worker_id worker_generation : Z) (request : WorkerExecutionRequest) :
    M WorkerRuntime (BattleState + BranchResult) :=
  let w := req_work_item request in
  let mode := req_execution_mode request in
  if String.eqb mode EXECUTION_MODE_BOOTSTRAP_STEP then
    replay_outcome ← on_session (replay_decision_context json_loads (wi_decision_context w));
    match replay_outcome with
    | ReplayMismatch at_step stage detail diverged =>
        _ ← forget;
        r ← liftR (result_check (with_diagnostics
              (bare_result BRANCH_STATUS_FAULT w mode (Some worker_id) (Some worker_generation))
              (mismatch_diagnostics stage detail at_step diverged)));
        mret (inr r)
    | ReplaySuccess final_state =>
        _ ← add_epoch (Z.of_nat (length (replay_prefix (wi_decision_context w))));
        mret (inl final_state)
    end
  else if String.eqb mode EXECUTION_MODE_HOLDER_STEP then
    rt ← getS; state ← liftR (holder_state request rt); mret (inl state)
  else raiseM (PyExc "RuntimeError" ("unknown execution mode " +:+ repr_str mode)).

Definition execute_body (worker_id worker_generation : Z) (request : WorkerExecutionRequest) :
    M WorkerRuntime BranchResult :=
  let w := req_work_item request in
  prepared ← prepare worker_id worker_generation request;
  match prepared with
  | inr fault => mret fault
  | inl state =>
      stepped ← on_session (_resolve_and_step state w);
      _ ← add_epoch 1;
      rt ← getS;
      result ← on_session (_build_success_result w (req_execution_mode request) worker_id
                 worker_generation (rt_state_epoch rt) stepped.1 stepped.2);
      _ ← (if String.eqb (status result) BRANCH_STATUS_SUCCESS &&
              String.eqb (sig_boundary stepped.2) BOUNDARY_PENDING
           then modS (retain (Some stepped.1) (lease_context_id <$> established_lease result)
                        (wi_hypothesis w))
           else forget);
      mret result
  end.

Definition execute (worker_id worker_generation : Z) (request : WorkerExecutionRequest) :
    M WorkerRuntime BranchResult :=
  tryM (execute_body worker_id worker_generation request) (fun exc =>
    _ ← forget;
    liftR (_fault_result (req_work_item request) (req_execution_mode request) (Some worker_id)
             (Some worker_generation) exc (fault_kind_or_default exc))).

(** [restore_result_for_caller_work_item], for a result that carries the
    transported copy of the work item. *)
Definition restore_result_for_caller_work_item (w : WorkItem) (r : BranchResult) : BranchResult :=
  {| status := status r; work_item := w; execution_mode := execution_mode r;
     res_worker_id := res_worker_id r; res_worker_generation := res_worker_generation r;
     result_signature := result_signature r; child_snapshot := child_snapshot r;
     terminal_result := terminal_result r;
     pending_decision_context :=
       (fun c => {| root_snapshot := root_snapshot (wi_decision_context w);
                    replay_prefix := replay_prefix c; plan_path := plan_path c;
                    current_decision_result := current_decision_result c;
                    current_context_signature := current_context_signature c;
                    search_hypothesis_id := search_hypothesis_id c |}) <$> pending_decision_context r;
     pending_pipeline_result := pending_pipeline_result r; established_lease := established_lease r;
     next_decision_result := next_decision_result r; next_legal_actions := next_legal_actions r;
     diagnostics := diagnostics r |}.
End Worker.
Arguments WorkerRuntime : clear implicits.

(** * Dispatch *)

(** The end of a dispatch: the lease of the item's context is consumed, the
    lease of a pending success is recorded, and a fault drops its worker's
    leases. *)
Definition apply_result (w : WorkItem) (r : BranchResult) (reg : LeaseRegistry) : LeaseRegistry :=
  let reg := reg_invalidate (wi_context_id w) (wi_hypothesis w) reg in
  let reg := if String.eqb (status r) BRANCH_STATUS_SUCCESS then
               match established_lease r with Some l => reg_set l reg | None => reg end
             else reg in
  if String.eqb (status r) BRANCH_STATUS_FAULT then
    match res_worker_id r with Some wid => reg_invalidate_worker wid reg | None => reg end
  else reg.

Section Dispatch.
Context (json_loads : string -> Res pyval) (format_exc : pyexn -> string).
Context {S : Type} {HS : CombatSession S}.

(** The coordinator with the workers it drives: each worker's generation and
    runtime, and the lease table. *)
Record PoolState := {
  ps_workers : gmap Z (Z * WorkerRuntime S);
  ps_registry : LeaseRegistry;
}.

Definition with_registry {A} (m : M LeaseRegistry A) : M PoolState A := fun ps =>
  let '(r, reg) := m (ps_registry ps) in
  (r, {| ps_workers := ps_workers ps; ps_registry := reg |}).

Definition worker_generations (ps : PoolState) : gmap Z Z := fst <$> ps_workers ps.

(** [execute_request(worker_id, request)] on a worker in this process. *)
Definition execute_request (worker_id : Z) (request : WorkerExecutionRequest) :
    M PoolState BranchResult := fun ps =>
  match ps_workers ps !! worker_id with
  | None => (Raise (PyExc "KeyError" (pretty worker_id)), ps)
  | Some (generation, rt) =>
      let '(r, rt') := execute json_loads format_exc worker_id generation request rt in
      (r, {| ps_workers := <[worker_id := (generation, rt')]> (ps_workers ps);
             ps_registry := ps_registry ps |})
  end.

(** The first loop of [dispatch_work_items]: route and execute each item. *)
Fixpoint route_and_execute (worker_ids : list Z) (generations : gmap Z Z) (items : list WorkItem)
    (next_index : Z) (results : list (string * BranchResult)) :
    M PoolState (list (string * BranchResult)) :=
  match items with
  | [] => mret results
  | w :: rest =>
      routed ← with_registry (_route_work_item w worker_ids generations next_index);
      result ← execute_request routed.1.2 routed.1.1;
      route_and_execute worker_ids generations rest routed.2 (dset (work_id w) result results)
  end.

(** The second loop: bind each result to its item and update the leases. *)
Fixpoint settle (items : list WorkItem) (results : list (string * BranchResult)) :
    M PoolState (list BranchResult) :=
  match items with
  | [] => mret []
  | w :: rest =>
      match dget (work_id w) results with
      | None => raiseM (PyExc "KeyError" (repr_str (work_id w)))
      | Some r =>
          let result := restore_result_for_caller_work_item w r in
          _ ← with_registry (modS (apply_result w result));
          out ← settle rest results;
          mret (result :: out)
      end
  end.

Definition dispatch_work_items (worker_ids : list Z) (items : list WorkItem) :
    M PoolState (list BranchResult) :=
  ps ← getS;
  results ← route_and_execute worker_ids (worker_generations ps) items 0 [];
  settle items results.

(** [respawn_worker]: a fresh session and the next generation; the old
    generation's leases are dropped. *)
Definition respawn_worker (worker_id : Z) (fresh : S) : M PoolState unit := fun ps =>
  match ps_workers ps !! worker_id with
  | None => (Raise (PyExc "KeyError" (pretty worker_id)), ps)
  | Some (generation, _) =>
      (Ok tt,
       {| ps_workers := <[worker_id := (generation + 1,
            {| rt_session := fresh; current_state := None; current_context_id := None;
               current_hypothesis_id := None; rt_state_epoch := 0 |})]> (ps_workers ps);
          ps_registry := reg_invalidate_worker worker_id (ps_registry ps) |})
  end.
End Dispatch.
Arguments PoolState : clear implicits.

(** * The worker's contract *)

Section WorkerFacts.
Context (json_loads : string -> Res pyval) (format_exc : pyexn -> string).
Context {S : Type} {HS : CombatSession S}.

(** The worker still holds the state the lease was given for. *)
Definition retained (rt : WorkerRuntime S) (l : Lease) : Prop :=
  is_Some (current_state rt) /\ current_context_id rt = Some (lease_context_id l) /\
  current_hypothesis_id rt = lease_hypothesis_id l /\ rt_state_epoch rt = state_epoch l.

Lemma result_check_id r r' : result_check r = Ok r' -> r' = r.
Proof. unfold result_check. repeat case_match; intros; simplify_eq; done. Qed.

Lemma result_check_mode r r' : result_check r = Ok r' -> str_in (execution_mode r) EXECUTION_MODE_VALUES = true.
Proof. unfold result_check. by destruct (str_in (execution_mode r) EXECUTION_MODE_VALUES), (str_in (status r) _). Qed.

Definition of_request (wid wgen : Z) (req : WorkerExecutionRequest) (r : BranchResult) : Prop :=
  work_item r = req_work_item req /\ execution_mode r = req_execution_mode req /\
  res_worker_id r = Some wid /\ res_worker_generation r = Some wgen.

Lemma build_success_facts w mode wid wgen ep ns sg s r s' :
  _build_success_result json_loads w mode wid wgen ep ns sg s = (Ok r, s') ->
  result_check r = Ok r /\
  of_request wid wgen {| req_work_item := w; req_execution_mode := mode; expected_lease := None |} r /\
  status r = BRANCH_STATUS_SUCCESS /\
  match established_lease r with
  | Some l => sig_boundary sg = BOUNDARY_PENDING /\ lease_worker_id l = wid /\
      lease_worker_generation l = wgen /\ lease_hypothesis_id l = wi_hypothesis w /\
      state_epoch l = ep
  | None => sig_boundary sg ≠ BOUNDARY_PENDING
  end.
Proof.
  unfold _build_success_result.
  destruct (String.eqb_spec (sig_boundary sg) BOUNDARY_STABLE) as [->|Hns].
  { intros (snap & s1 & _ & H)%M_bind_Ok. apply liftR_Ok in H as [H ->].
    pose proof (result_check_id _ _ H) as ->. by split_and!. }
  destruct (String.eqb_spec (sig_boundary sg) BOUNDARY_TERMINAL) as [->|Hnt].
  { intros [H ->]%liftR_Ok. pose proof (result_check_id _ _ H) as ->. by split_and!. }
  destruct (String.eqb_spec (sig_boundary sg) BOUNDARY_PENDING) as [Hp|]; [|done].
  cbn [negb]. intros (cid & s1 & [_ ->]%liftR_Ok & H)%M_bind_Ok.
  apply M_bind_Ok in H as (pl & s2 & [_ ->]%liftR_Ok & H). apply liftR_Ok in H as [H ->].
  pose proof (result_check_id _ _ H) as ->. by split_and!.
Qed.

Lemma on_session_run {A} (m : M S A) rt r s :
  m (rt_session rt) = (r, s) ->
  on_session m rt = (r, {| rt_session := s; current_state := current_state rt;
     current_context_id := current_context_id rt; current_hypothesis_id := current_hypothesis_id rt;
     rt_state_epoch := rt_state_epoch rt |}).
Proof. intros H. unfold on_session. by rewrite H. Qed.

Lemma on_session_Ok {A} (m : M S A) rt a rt' :
  on_session m rt = (Ok a, rt') ->
  exists s, m (rt_session rt) = (Ok a, s) /\
    rt' = {| rt_session := s; current_state := current_state rt;
             current_context_id := current_context_id rt;
             current_hypothesis_id := current_hypothesis_id rt; rt_state_epoch := rt_state_epoch rt |}.
Proof. unfold on_session. destruct (m (rt_session rt)) as [r s]. intros [= -> <-]. by exists s. Qed.

(** What a request leaves behind in the worker. *)
Definition execution_facts (wid wgen : Z) (req : WorkerExecutionRequest) (r : BranchResult)
    (rt' : WorkerRuntime S) : Prop :=
  result_check r = Ok r /\ of_request wid wgen req r /\
  match established_lease r with
  | Some l => status r = BRANCH_STATUS_SUCCESS /\ retained rt' l /\ lease_worker_id l = wid /\
      lease_worker_generation l = wgen /\ lease_hypothesis_id l = wi_hypothesis (req_work_item req)
  | None => current_state rt' = None
  end.

Lemma prepare_fault_facts wid wgen req rt r rt' :
  prepare json_loads wid wgen req rt = (Ok (inr r), rt') -> execution_facts wid wgen req r rt'.
Proof.
  unfold prepare. destruct (String.eqb (req_execution_mode req) EXECUTION_MODE_BOOTSTRAP_STEP).
  - intros (ro & rt1 & _ & H)%M_bind_Ok. destruct ro as [fs|at_ st det div].
    + by apply M_bind_Ok in H as (u & rt2 & _ & H).
    + apply M_bind_Ok in H as (u & rt2 & Hf & H). apply M_bind_Ok in H as (r0 & rt3 & Hc & H).
      apply liftR_Ok in Hc as [Hc ->]. injection H as <- <-.
      pose proof (result_check_id _ _ Hc) as ->. injection Hf as _ <-. by split_and!.
  - destruct (String.eqb _ EXECUTION_MODE_HOLDER_STEP); [|done].
    intros (rt1 & rt2 & _ & H)%M_bind_Ok. by apply M_bind_Ok in H as (st & rt3 & _ & H).
Qed.

Lemma execute_body_facts wid wgen req rt r rt' :
  execute_body json_loads wid wgen req rt = (Ok r, rt') -> execution_facts wid wgen req r rt'.
Proof.
  unfold execute_body. intros (p & rt1 & Hp & H)%M_bind_Ok. destruct p as [state|fault].
  2:{ injection H as <- <-. by eapply prepare_fault_facts. }
  apply M_bind_Ok in H as (stepped & rt2 & _ & H). apply M_bind_Ok in H as (u & rt3 & He & H).
  apply M_bind_Ok in H as (rt3' & rt3'' & Hg & H). injection Hg as <- <-.
  apply M_bind_Ok in H as (res & rt4 & Hb & H). apply on_session_Ok in Hb as (s & Hb & ->).
  apply build_success_facts in Hb as (Hc & (Hw & Hm & Hi & Hgn) & Hst & Hl). cbn in Hw, Hm.
  apply M_bind_Ok in H as (u' & rt5 & Hr & H). injection H as -> <-. rewrite Hst in Hr. cbn [String.eqb] in Hr.
  destruct (established_lease r) as [l|] eqn:Hle.
  - destruct Hl as (Hb & H1 & H2 & H3 & H4). rewrite Hb in Hr. injection Hr as _ <-.
    unfold execution_facts, retained. rewrite Hle. cbn. by split_and!.
  - destruct (String.eqb_spec (sig_boundary stepped.2) BOUNDARY_PENDING) as [|_]; [done|].
    rewrite andb_false_r in Hr. injection Hr as _ <-.
    unfold execution_facts. rewrite Hle. by split_and!.
Qed.

(** A worker answers every request in a known execution mode with one
    well-formed result, never an exception; it retains a state exactly when
    the result carries a lease, and then the lease describes that state. *)
Lemma execute_total wid wgen req rt :
  str_in (req_execution_mode req) EXECUTION_MODE_VALUES = true ->
  exists r rt', execute json_loads format_exc wid wgen req rt = (Ok r, rt') /\
    execution_facts wid wgen req r rt'.
Proof.
  intros Hmode. unfold execute, tryM.
  destruct (execute_body json_loads wid wgen req rt) as [[r|e] rt'] eqn:E.
  - exists r, rt'. split; [done|]. by eapply execute_body_facts.
  - unfold _fault_result. set (f := with_diagnostics _ _).
    assert (Hc : result_check f = Ok f) by (unfold result_check; subst f; cbn -[str_in]; by rewrite Hmode).
    exists f, (retain None None None rt'). split.
    + erewrite M_run_Ok by reflexivity. unfold liftR. by rewrite Hc.
    + by split_and!.
Qed.

(** A Holder Step on the worker that still holds the state of its lease gets
    that state. *)
Lemma holder_state_retained req rt l :
  expected_lease req = Some l -> retained rt l ->
  lease_context_id l = wi_context_id (req_work_item req) ->
  lease_hypothesis_id l = wi_hypothesis (req_work_item req) ->
  exists st, current_state rt = Some st /\ holder_state req rt = Ok st.
Proof.
  intros Hl ([st Hst] & Hc & Hh & He) Hctx Hhyp. exists st. split; [done|].
  unfold holder_state. rewrite Hl, Hst, Hc, Hh, He, Hctx, Hhyp, !bool_decide_true, Z.eqb_refl by done.
  done.
Qed.
End WorkerFacts.

(** * Leases and retained states agree *)

Section LeaseInvariant.
Context (json_loads : string -> Res pyval) (format_exc : pyexn -> string).
Context {S : Type} {HS : CombatSession S}.

(** Every recorded lease sits at its own key and is no younger than its
    worker; if the worker is still the one it was given to, that worker retains
    its state. *)
Definition lease_inv (ps : PoolState S) : Prop :=
  forall k l, ps_registry ps !! k = Some l -> k = key_of l /\
    forall gen rt, ps_workers ps !! lease_worker_id l = Some (gen, rt) ->
      lease_worker_generation l <= gen /\ (lease_worker_generation l = gen -> retained rt l).

Definition registry_shrinks (r r' : LeaseRegistry) : Prop :=
  forall k l, r' !! k = Some l -> r !! k = Some l.

Lemma lease_inv_shrinks ws r r' :
  registry_shrinks r r' -> lease_inv {| ps_workers := ws; ps_registry := r |} ->
  lease_inv {| ps_workers := ws; ps_registry := r' |}.
Proof. intros Hs Hi k l Hl. exact (Hi k l (Hs k l Hl)). Qed.

Lemma invalidate_shrinks c h r : registry_shrinks r (reg_invalidate c h r).
Proof. unfold reg_invalidate. intros k l H. by apply lookup_delete_Some in H as [_ H]. Qed.
Lemma invalidate_lease_shrinks l r : registry_shrinks r (reg_invalidate_lease l r).
Proof.
  unfold reg_invalidate_lease. intros k l' H. case_bool_decide; [|done].
  by apply lookup_delete_Some in H as [_ H].
Qed.
Lemma invalidate_worker_spec wid r k l :
  reg_invalidate_worker wid r !! k = Some l ↔ r !! k = Some l /\ lease_worker_id l ≠ wid.
Proof. unfold reg_invalidate_worker. by rewrite map_lookup_filter_Some. Qed.

Lemma holding_spec wid r :
  existsb (Z.eqb wid) (worker_ids_holding_leases r) = false ->
  forall k l, r !! k = Some l -> lease_worker_id l ≠ wid.
Proof.
  intros H k l Hl <-. apply not_true_iff_false in H. apply H, existsb_exists.
  exists (lease_worker_id l). split; [|apply Z.eqb_refl].
  apply in_map_iff. exists (k, l). split; [done|]. apply list_elem_of_In. by apply elem_of_map_to_list.
Qed.

Lemma route_bootstrap_facts w ids ni r routed r' :
  route_bootstrap w ids ni r = (Ok routed, r') ->
  routed.1.1 = {| req_work_item := w; req_execution_mode := EXECUTION_MODE_BOOTSTRAP_STEP;
     expected_lease := None |} /\ registry_shrinks r r' /\
  forall k l, r' !! k = Some l -> lease_worker_id l ≠ routed.1.2.
Proof.
  intros H. apply M_bind_Ok in H as (r1 & r2 & Hg & H). injection Hg as <- <-.
  apply M_bind_Ok in H as (ch & r2 & [_ ->]%liftR_Ok & H).
  apply M_bind_Ok in H as (u & r2 & Hu & H). injection H as <- <-. cbn.
  destruct (existsb _ _) eqn:E; injection Hu as _ <-.
  - split; [done|]. split; intros k l Hk%invalidate_worker_spec; apply Hk.
  - split; [done|]. split; [by intros k l|]. by apply holding_spec.
Qed.

Lemma route_bootstrap_raise w ids ni r e r' :
  route_bootstrap w ids ni r = (Raise e, r') -> r' = r.
Proof.
  intros H. apply M_bind_Raise in H as [[=]|(r1 & r2 & [= <- <-] & H)].
  apply M_bind_Raise in H as [H|(ch & r2 & _ & H)]; [by injection H|].
  apply M_bind_Raise in H as [H|(u & r3 & _ & H)]; [|done]. by destruct (existsb _ _).
Qed.

(** Routing: either a Holder Step under a valid lease, the registry
    unchanged, or a Bootstrap Step on a worker that then holds no lease. *)
Lemma route_cases w ids gens ni r routed r' :
  _route_work_item w ids gens ni r = (Ok routed, r') ->
  (exists l gen, routed.1.1 = {| req_work_item := w; req_execution_mode := EXECUTION_MODE_HOLDER_STEP;
       expected_lease := Some l |} /\ r' = r /\ routed.1.2 = lease_worker_id l /\
     r !! (wi_context_id w, wi_hypothesis w) = Some l /\ gens !! lease_worker_id l = Some gen /\
     is_valid_for l w (Some gen) = true) \/
  (routed.1.1 = {| req_work_item := w; req_execution_mode := EXECUTION_MODE_BOOTSTRAP_STEP;
       expected_lease := None |} /\ registry_shrinks r r' /\
   forall k l, r' !! k = Some l -> lease_worker_id l ≠ routed.1.2).
Proof.
  intros H. unfold _route_work_item in H.
  destruct (String.eqb (work_kind w) WORK_KIND_CONTINUATION); [|right; by eapply route_bootstrap_facts].
  apply M_bind_Ok in H as (r1 & r2 & Hg & H). injection Hg as <- <-.
  unfold reg_get in H. destruct (r !! _) as [l|] eqn:El; [|right; by eapply route_bootstrap_facts].
  destruct (gens !! lease_worker_id l) as [gen|] eqn:Eg.
  - destruct (is_valid_for l w (Some gen)) eqn:Ev.
    + injection H as <- <-. left. by exists l, gen.
    + right. apply M_bind_Ok in H as (u & r2 & Hu & H). injection Hu as _ <-.
      destruct (route_bootstrap_facts _ _ _ _ _ _ H) as (H1 & H2 & H3). split; [done|]. split; [|done].
      intros k l' Hk. apply (invalidate_lease_shrinks l). by apply H2.
  - right. apply M_bind_Ok in H as (u & r2 & Hu & H). injection Hu as _ <-.
    destruct (route_bootstrap_facts _ _ _ _ _ _ H) as (H1 & H2 & H3). split; [done|]. split; [|done].
    intros k l' Hk. apply (invalidate_lease_shrinks l). by apply H2.
Qed.

Lemma route_raise_shrinks w ids gens ni r e r' :
  _route_work_item w ids gens ni r = (Raise e, r') -> registry_shrinks r r'.
Proof.
  unfold _route_work_item. intros H.
  destruct (String.eqb _ _); [|rewrite (route_bootstrap_raise _ _ _ _ _ _ H); by intros k l].
  apply M_bind_Raise in H as [[=]|(r1 & r2 & [= <- <-] & H)].
  destruct (reg_get _ _ r) as [l|]; [|rewrite (route_bootstrap_raise _ _ _ _ _ _ H); by intros k l].
  destruct (match gens !! _ with Some _ => _ | None => _ end); [done|].
  apply M_bind_Raise in H as [[=]|(u & r2 & [= _ <-] & H)]. rewrite (route_bootstrap_raise _ _ _ _ _ _ H).
  apply invalidate_lease_shrinks.
Qed.

(** A lease usable for an item: its key is the item's. *)
Lemma valid_key l w g : is_valid_for l w g = true -> key_of l = (wi_context_id w, wi_hypothesis w).
Proof.
  unfold is_valid_for, key_of. rewrite !andb_true_iff. intros ((((((_ & H1) & H2) & _) & _) & _) & _).
  apply String.eqb_eq in H1. apply bool_decide_eq_true in H2. by rewrite H1, H2.
Qed.
Lemma valid_generation l w g : is_valid_for l w (Some g) = true -> lease_worker_generation l = g.
Proof.
  unfold is_valid_for. rewrite !andb_true_iff. intros ((((_ & H) & _) & _) & _).
  by apply Z.eqb_eq in H.
Qed.

Lemma retained_key (rt : WorkerRuntime S) l l' : retained rt l -> retained rt l' -> key_of l = key_of l'.
Proof.
  intros (_ & H1 & H2 & _) (_ & H1' & H2' & _). unfold key_of. congruence.
Qed.

(** After a request was executed on worker [wid] and its result settled. *)
Lemma settle_inv ws r wid gen rt rt' req res w :
  lease_inv {| ps_workers := ws; ps_registry := r |} ->
  ws !! wid = Some (gen, rt) ->
  (forall k l, r !! k = Some l -> lease_worker_id l = wid -> lease_worker_generation l = gen ->
     k = (wi_context_id w, wi_hypothesis w)) ->
  execution_facts wid gen req res rt' ->
  lease_inv {| ps_workers := <[wid := (gen, rt')]> ws; ps_registry := apply_result w res r |}.
Proof.
  intros Hinv Hws Hkey (_ & _ & Hlease).
  assert (Hold : forall k l, reg_invalidate (wi_context_id w) (wi_hypothesis w) r !! k = Some l ->
    k = key_of l /\ forall gen' rt'', <[wid := (gen, rt')]> ws !! lease_worker_id l = Some (gen', rt'') ->
      lease_worker_generation l <= gen' /\ (lease_worker_generation l = gen' -> retained rt'' l)).
  { intros k l H. unfold reg_invalidate in H. apply lookup_delete_Some in H as [Hne H].
    destruct (Hinv k l H) as [Hk Hw]. split; [done|]. intros gen' rt''.
    destruct (decide (lease_worker_id l = wid)) as [Heq|Hneq].
    - rewrite Heq, lookup_insert_eq. intros [= <- <-].
      destruct (Hw gen rt) as [Hle _]; [cbn; by rewrite Heq|]. split; [done|].
      intros Hg. exfalso. apply Hne. symmetry. exact (Hkey k l H Heq Hg).
    - rewrite lookup_insert_ne by congruence. exact (Hw gen' rt''). }
  assert (Hset : lease_inv {| ps_workers := <[wid := (gen, rt')]> ws;
      ps_registry := let reg := reg_invalidate (wi_context_id w) (wi_hypothesis w) r in
        if String.eqb (status res) BRANCH_STATUS_SUCCESS then
          match established_lease res with Some l => reg_set l reg | None => reg end else reg |}).
  { intros k l. cbn. destruct (String.eqb _ _); [|apply Hold].
    destruct (established_lease res) as [l0|]; [|apply Hold].
    destruct Hlease as (_ & Hret & Hw & Hg & _). unfold reg_set.
    intros H. apply lookup_insert_Some in H as [[<- <-]|[_ H]]; [|by apply Hold].
    split; [done|]. intros gen' rt''. rewrite Hw, lookup_insert_eq. intros [= <- <-].
    split; [lia|done]. }
  unfold apply_result. destruct (String.eqb (status res) BRANCH_STATUS_FAULT); [|exact Hset].
  destruct (res_worker_id res) as [wid'|]; [|exact Hset].
  eapply lease_inv_shrinks; [|exact Hset]. intros k l H%invalidate_worker_spec. apply H.
Qed.

Lemma dispatch_one_inv ids w ps r ps' :
  lease_inv ps -> dispatch_work_items json_loads format_exc ids [w] ps = (r, ps') -> lease_inv ps'.
Proof.
  intros Hinv H. unfold dispatch_work_items in H. cbn [route_and_execute] in H.
  erewrite M_run_Ok in H by reflexivity.
  destruct (_route_work_item w ids (worker_generations ps) 0 (ps_registry ps)) as [rr reg'] eqn:Hr.
  assert (Hrun : with_registry (_route_work_item w ids (worker_generations ps) 0) ps
    = (rr, {| ps_workers := ps_workers ps; ps_registry := reg' |})).
  { unfold with_registry. by rewrite Hr. }
  destruct ps as [ws reg]. cbn in Hr, Hrun.
  destruct rr as [routed|e].
  2:{ erewrite M_run_Raise in H by (by apply M_run_Raise). injection H as _ <-.
      eapply lease_inv_shrinks; [by eapply route_raise_shrinks|done]. }
  set (ps1 := {| ps_workers := ws; ps_registry := reg' |}) in *.
  assert (Hinv1 : lease_inv ps1 /\
    str_in (req_execution_mode routed.1.1) EXECUTION_MODE_VALUES = true /\
    forall gen rt, ws !! routed.1.2 = Some (gen, rt) ->
      forall k l, reg' !! k = Some l -> lease_worker_id l = routed.1.2 ->
        lease_worker_generation l = gen -> k = (wi_context_id w, wi_hypothesis w)).
  { apply route_cases in Hr as [(l & gen & Hreq & -> & Hwid & Hl & Hg & Hv)|(Hreq & Hsh & Hno)].
    - split; [done|]. rewrite Hreq. split; [done|]. intros gen' rt Hw k l' Hl' Hw' Hg'.
      unfold worker_generations in Hg. rewrite lookup_fmap in Hg.
      rewrite Hwid in Hw, Hw'. cbn in Hg. rewrite Hw in Hg. injection Hg as Hg. subst gen.
      pose proof (valid_generation _ _ _ Hv) as Hgl.
      destruct (Hinv _ _ Hl) as [_ Hr1]. destruct (Hinv _ _ Hl') as [Hk' Hr2]. cbn in Hr1, Hr2.
      rewrite Hw' in Hr2. destruct (Hr1 _ _ Hw) as [_ Hret1]. destruct (Hr2 _ _ Hw) as [_ Hret2].
      rewrite Hk', <- (valid_key _ _ _ Hv). eapply retained_key; [by apply Hret2|by apply Hret1].
    - split; [by eapply lease_inv_shrinks|]. rewrite Hreq. split; [done|].
      intros gen rt _ k l Hl Hw. by destruct (Hno k l Hl). }
  destruct Hinv1 as (Hinv1 & Hmode & Hkeys).
  destruct (ws !! routed.1.2) as [[gen rt]|] eqn:Ews.
  2:{ erewrite M_run_Raise in H; [by injection H as _ <-|].
      erewrite M_run_Ok by exact Hrun. apply M_run_Raise. unfold execute_request. cbn.
      by rewrite Ews. }
  destruct (execute_total json_loads format_exc routed.1.2 gen routed.1.1 rt Hmode)
    as (res & rt' & Hex & Hfacts).
  set (ps2 := {| ps_workers := <[routed.1.2 := (gen, rt')]> ws; ps_registry := reg' |}).
  assert (Hexr : execute_request json_loads format_exc routed.1.2 routed.1.1 ps1 = (Ok res, ps2)).
  { unfold execute_request. cbn. rewrite Ews, Hex. done. }
  erewrite M_run_Ok in H.
  2:{ erewrite M_run_Ok by exact Hrun. erewrite M_run_Ok by exact Hexr. reflexivity. }
  cbn [settle] in H. rewrite dget_dset_eq in H. erewrite M_run_Ok in H by reflexivity.
  cbn in H. injection H as _ <-. unfold ps2.
  assert (Hrest : forall reg, apply_result w (restore_result_for_caller_work_item w res) reg
    = apply_result w res reg) by (intros; reflexivity).
  rewrite Hrest. eapply settle_inv; [exact Hinv1|exact Ews|by eapply Hkeys|exact Hfacts].
Qed.

Lemma respawn_inv wid fresh ps r ps' :
  lease_inv ps -> respawn_worker wid fresh ps = (r, ps') -> lease_inv ps'.
Proof.
  intros Hinv. unfold respawn_worker. destruct (ps_workers ps !! wid) as [[gen rt]|] eqn:E.
  2:{ intros [= _ <-]. done. }
  intros [= _ <-] k l [H Hne]%invalidate_worker_spec. destruct (Hinv k l H) as [Hk Hw].
  split; [done|]. intros gen' rt'. cbn. rewrite lookup_insert_ne by congruence. apply Hw.
Qed.

(** The coordinator's steps: dispatching one work item, and replacing a
    worker. *)
Inductive coordinator_step (ids : list Z) : PoolState S -> PoolState S -> Prop :=
  | step_dispatch w ps r ps' :
      dispatch_work_items json_loads format_exc ids [w] ps = (r, ps') -> coordinator_step ids ps ps'
  | step_respawn wid fresh ps r ps' :
      respawn_worker wid fresh ps = (r, ps') -> coordinator_step ids ps ps'.

Lemma coordinator_steps_inv ids ps ps' :
  rtc (coordinator_step ids) ps ps' -> lease_inv ps -> lease_inv ps'.
Proof.
  induction 1 as [|ps1 ps2 ps3 Hs _ IH]; [done|]. intros Hi. apply IH. destruct Hs.
  - by eapply dispatch_one_inv.
  - by eapply respawn_inv.
Qed.

(** C27: whatever work items were dispatched one at a time and whichever
    workers were replaced since a pool without leases, a request the
    coordinator routes as a Holder Step goes to a live worker that still holds
    the state of the item's context: the worker's own checks on the retained
    state never fail, and the step starts from that state. *)
Theorem holder_step_finds_its_state ids ps0 ps w req wid ni reg' :
  ps_registry ps0 = ∅ -> rtc (coordinator_step ids) ps0 ps ->
  _route_work_item w ids (worker_generations ps) 0 (ps_registry ps) = (Ok (req, wid, ni), reg') ->
  req_execution_mode req = EXECUTION_MODE_HOLDER_STEP ->
  exists gen rt st, ps_workers ps !! wid = Some (gen, rt) /\ current_state rt = Some st /\
    current_context_id rt = Some (wi_context_id w) /\ current_hypothesis_id rt = wi_hypothesis w /\
    holder_state req rt = Ok st.
Proof.
  intros H0 Hsteps Hroute Hmode.
  assert (Hinv : lease_inv ps).
  { eapply coordinator_steps_inv; [exact Hsteps|]. intros k l H. by rewrite H0, lookup_empty in H. }
  apply route_cases in Hroute as [(l & gen & Hreq & _ & Hwid & Hl & Hg & Hv)|(Hreq & _)];
    cbn in Hreq; subst req; [|done].
  cbn in Hwid. subst wid. destruct (Hinv _ _ Hl) as [_ Hret].
  unfold worker_generations in Hg. rewrite lookup_fmap in Hg.
  destruct (ps_workers ps !! lease_worker_id l) as [[gen' rt]|] eqn:Ews; [|done].
  injection Hg as Hg. cbn in Hg. subst gen'.
  destruct (Hret gen rt eq_refl) as [_ Hr]. specialize (Hr (valid_generation _ _ _ Hv)).
  pose proof (valid_key _ _ _ Hv) as Hk. unfold key_of in Hk. injection Hk as Hk1 Hk2.
  destruct (holder_state_retained {| req_work_item := w;
    req_execution_mode := EXECUTION_MODE_HOLDER_STEP; expected_lease := Some l |} rt l eq_refl Hr Hk1 Hk2)
    as (st & Hst & Hh).
  exists gen, rt, st. destruct Hr as (_ & Hc & Hhy & _). split_and!; [done|done|by rewrite Hc, Hk1|by rewrite Hhy|done].
Qed.
End LeaseInvariant.

(** * Examples *)

Definition pending_board (n : Z) : BattleState :=
  {| engine_state := [("pendingChoice", VDict [("choiceType", VStr "ToolboxChooseCard")]);
                      ("energy", VInt 3)];
     is_terminal := false; outcome := "in_progress"; turn := 1; enemy_max_hps := [];
     shuffle_rng_seed := None; _cached_legal_actions := Some [example_action];
     decision_frame := Some {| combat_session_id := Some "s"; step_index := n;
                               continuation_step_index := None |};
     combat_completion := None |}.

Definition lease_root : Root :=
  JsonDictRoot [("Metadata", VDict [("CaptureBoundary", VStr "normal_player_decision")])].
Definition lease_context : DecisionContext :=
  from_main_stable_capture lease_root (example_board 0) (example_signature 0).
Definition lease_candidate (target : Z) (signature : DecisionSignature) : PipelineCandidateRef :=
  {| ref_current_context_signature := signature; ref_semantic_action := example_semantic;
     ref_target_index := Some target; ref_target_enemy_index := None; ref_score := f_of_Z 0;
     ref_choice_kind := VStr "card"; ref_choice_scope := "TopLevel" |}.
Definition lease_item (name : string) (target : Z) : WorkItem :=
  {| work_id := name; wi_decision_context := lease_context;
     wi_candidate := lease_candidate target (example_signature 0); wi_context_id := "root";
     work_kind := WORK_KIND_SUB_BRANCH |}.

(** One worker of generation 1 whose session replays the given boards. *)
Definition lease_pool (script : list BattleState) : PoolState (list BattleState) :=
  {| ps_workers := {[ 0 := (1, {| rt_session := script; current_state := None;
       current_context_id := None; current_hypothesis_id := None; rt_state_epoch := 0 |}) ]};
     ps_registry := ∅ |}.

Definition plain_exc (e : pyexn) : string := exn_str e.
Definition run_dispatch (items : list WorkItem) (ps : PoolState (list BattleState)) :
    Res (list BranchResult) * PoolState (list BattleState) :=
  @dispatch_work_items no_json plain_exc _ ScriptedSession [0] items ps.

(** The item that continues the pending child of a result. *)
Definition continue_item (name : string) (r : BranchResult) : WorkItem :=
  match pending_decision_context r with
  | Some c =>
      match from_candidate_ref no_json c (lease_candidate 0 (current_context_signature c))
              WORK_KIND_CONTINUATION None (Some name) with
      | Ok w => w
      | Raise _ => lease_item name 0
      end
  | None => lease_item name 0
  end.
Definition results_of (r : Res (list BranchResult)) : list BranchResult := from_ok r [].

Definition first_dispatch : Res (list BranchResult) * PoolState (list BattleState) := Eval vm_compute in
  run_dispatch [lease_item "a" 0] (lease_pool [example_board 0; pending_board 1; pending_board 2]).
Lemma first_dispatch_run :
  run_dispatch [lease_item "a" 0] (lease_pool [example_board 0; pending_board 1; pending_board 2]) = first_dispatch.
Proof. vm_compute. reflexivity. Qed.
Definition first_child : WorkItem :=
  match results_of first_dispatch.1 with r :: _ => continue_item "c" r | [] => lease_item "c" 0 end.

Lemma holder_step_finds_its_state_witness :
  match _route_work_item first_child [0] (worker_generations first_dispatch.2) 0
          (ps_registry first_dispatch.2) with
  | (Ok (req, wid, _), _) =>
      exists gen rt st, ps_workers first_dispatch.2 !! wid = Some (gen, rt) /\
        current_state rt = Some st /\ current_context_id rt = Some (wi_context_id first_child) /\
        current_hypothesis_id rt = wi_hypothesis first_child /\ holder_state req rt = Ok st
  | _ => False
  end.
Proof.
  destruct (_route_work_item first_child [0] (worker_generations first_dispatch.2) 0
    (ps_registry first_dispatch.2)) as [[[[req wid] ni]|e] reg'] eqn:E.
  - eapply (@holder_step_finds_its_state no_json plain_exc _ ScriptedSession [0]
      (lease_pool [example_board 0; pending_board 1; pending_board 2]) _ first_child req wid ni reg').
    + reflexivity.
    + eapply rtc_l; [|apply rtc_refl]. eapply step_dispatch with (w := lease_item "a" 0).
      rewrite <- first_dispatch_run. apply surjective_pairing.
    + exact E.
    + assert (H : match _route_work_item first_child [0] (worker_generations first_dispatch.2) 0
                    (ps_registry first_dispatch.2) with
                  | (Ok (req, _, _), _) => req_execution_mode req = EXECUTION_MODE_HOLDER_STEP
                  | _ => False end) by (vm_compute; reflexivity).
      rewrite E in H. exact H.
  - assert (H : match _route_work_item first_child [0] (worker_generations first_dispatch.2) 0
                    (ps_registry first_dispatch.2) with
                  | (Ok _, _) => True | _ => False end) by (vm_compute; exact I).
    rewrite E in H. exact H.
Defined.

(** The batch entry point settles leases only after the whole batch ran: with
    more items than workers, two leases of one worker are recorded, and both
    continuations then fault instead of being bootstrapped. *)
Definition batch_dispatch : Res (list BranchResult) * PoolState (list BattleState) := Eval vm_compute in
  run_dispatch [lease_item "a" 0; lease_item "b" 1]
    (lease_pool [example_board 0; pending_board 1; example_board 0; pending_board 1]).
Definition batch_continuations : Res (list BranchResult) * PoolState (list BattleState) := Eval vm_compute in
  match results_of batch_dispatch.1 with
  | [a; b] => run_dispatch [continue_item "c" a; continue_item "d" b] batch_dispatch.2
  | _ => batch_dispatch
  end.

Example batch_dispatch_overcommits_a_worker :
  map status (results_of batch_dispatch.1) = ["success"; "success"]%string /\
  map lease_worker_id (omap established_lease (results_of batch_dispatch.1)) = [0; 0] /\
  map (fun r => (status r, execution_mode r)) (results_of batch_continuations.1)
  = [("fault", "holder_step"); ("fault", "holder_step")]%string.
Proof. vm_compute. split_and!; reflexivity. Qed.
