(* ===== verification/Beliefs.v ===== *)
(** RNG hypotheses and draw-pile beliefs (Combat/search/rng_hypothesis.py): the
    consume gate, belief generation from the public multiset, and the replay
    roots of a combat start. *)

From S2P Require Export SnapshotLaws Leases PyRandom.
Local Open Scope Z_scope.

Definition HYPOTHESIS_SLOT_PREFIX : string := "rng-hyp:v1:".
Definition CONSUME_PASSTHROUGH : string := "passthrough".
Definition CONSUME_MODE : string := "mode".
Definition CONSUME_TRUE_RNG_OK : string := "true_rng_ok".
Definition HYPOTHESIS_MODE_STANDARD : string := "standard".
Definition HYPOTHESIS_MODE_INDEPENDENT : string := "independent".
Definition HYPOTHESIS_MODES : list string := [HYPOTHESIS_MODE_STANDARD; HYPOTHESIS_MODE_INDEPENDENT].

Definition value_error (msg : string) : pyexn := PyExc "ValueError" msg.

(** * Search hypotheses *)

(** [SerializableRngSnapshot]. *)
Record SerializableRng := {
  rng_counter : Z;
  rng_state0 : Z;
  rng_state1 : Z;
  rng_state2 : Z;
  rng_state3 : Z;
}.
#[global] Instance SerializableRng_eq_dec : EqDecision SerializableRng.
Proof. solve_decision. Defined.

Definition _rng_to_dict (rng : SerializableRng) : pyval :=
  VDict [("Counter", VInt (rng_counter rng)); ("State0", VInt (rng_state0 rng)); ("State1", VInt (rng_state1 rng));
         ("State2", VInt (rng_state2 rng)); ("State3", VInt (rng_state3 rng))]%string.

(** The attributes of an object as whole numbers, as [_rng_from_like] reads
    them. *)
Definition rng_of_attributes (get : string -> Res pyval) : Res SerializableRng :=
  counter ← get "Counter"%string; counter ← py_int counter;
  s0 ← get "State0"%string; s0 ← py_int s0;
  s1 ← get "State1"%string; s1 ← py_int s1;
  s2 ← get "State2"%string; s2 ← py_int s2;
  s3 ← get "State3"%string; s3 ← py_int s3;
  Ok {| rng_counter := counter; rng_state0 := s0; rng_state1 := s1; rng_state2 := s2; rng_state3 := s3 |}.

(** What a seed source may return: a snapshot object, a dictionary, or another
    object by its attributes. *)
Inductive RngLike :=
  | RngObject (rng : SerializableRng)
  | RngDict (d : pyval)
  | RngAttributes (attributes : pydict).
Definition _rng_from_like (value : RngLike) : Res SerializableRng :=
  match value with
  | RngObject rng => Ok rng
  | RngDict d => o ← from_dict SerializableRngSnapshot d; rng_of_attributes (fun k => Ok (attr k o))
  | RngAttributes attributes => rng_of_attributes (fun k =>
      match dget k attributes with
      | Some v => Ok v
      | None => Raise (PyExc "AttributeError" ("object has no attribute " +:+ repr_str k))
      end)
  end.

Record SearchHypothesisId := {
  rng : SerializableRng;
  ordered_draw_pile_card_ids : list string;
  hypothesis_index : Z;
}.
Definition _payload (self : SearchHypothesisId) : pyval :=
  VDict [("version", VInt 1); ("hypothesis_index", VInt (hypothesis_index self)); ("rng", _rng_to_dict (rng self));
         ("ordered_draw_pile_card_ids", VList (map VStr (ordered_draw_pile_card_ids self)))]%string.
Definition digest (self : SearchHypothesisId) : string := sha256_hex (json_dumps true (_payload self)).
Definition to_slot_value (self : SearchHypothesisId) : string := HYPOTHESIS_SLOT_PREFIX +:+ digest self.

Record CoverageAssessment := {
  is_complete : bool;
  uncertain_sources : list string;
  coverage_reason : string;
}.
Record ConsumeCheckResult := {
  consume_kind : string;
  consume_mode : option string;
  consume_reason : string;
}.
Definition requires_hypothesis (self : ConsumeCheckResult) : bool := String.eqb (consume_kind self) CONSUME_MODE.

Record CombatStartDerivedReplayRoot := {
  derived_hypothesis : SearchHypothesisId;
  derived_replay_root : Root;
}.

(** * The consume gate *)

(** The candidates the gate inspects: a pipeline candidate, or a plain legal
    action. *)
Inductive GateCandidate :=
  | RefCandidate (c : PipelineCandidateRef)
  | DictCandidate (d : pydict).

Definition _candidate_action_type (candidate : GateCandidate) : string :=
  match candidate with
  | RefCandidate c =>
      if truthy (ref_choice_kind c) then py_str (ref_choice_kind c) else py_str (action_type (ref_semantic_action c))
  | DictCandidate d => py_str (py_or (py_or (dget_none "action_type" d) (dget_none "choice_kind" d)) (VStr ""))
  end.

(** [s.split(":", 1)[-1]]. *)
Fixpoint after_colon (s : string) : option string :=
  match s with
  | EmptyString => None
  | String a s' => if Ascii.eqb a (Ascii.ascii_of_nat 58) then Some s' else after_colon s'
  end.
Definition _candidate_card_id (candidate : GateCandidate) : Res (option string) :=
  match candidate with
  | RefCandidate c =>
      let action := ref_semantic_action c in
      card_like ← py_in_set ["card"; "choice_card"; "choice_reward_card"]%string (action_type action);
      Ok (if (card_like : bool) && truthy (semantic_key action)
          then let key := py_str (semantic_key action) in Some (default key (after_colon key))
          else None)
  | DictCandidate d =>
      card ← py_get "cardId" (py_or (dget_none "parameters" d) (VDict []));
      Ok (if is_none card then None else Some (py_str card))
  end.

Definition consume_check (candidate : GateCandidate) (decision_context : DecisionContext) (mode : string)
    (true_rng_ok : bool) : Res ConsumeCheckResult :=
  let use_mode reason := {| consume_kind := CONSUME_MODE; consume_mode := Some mode; consume_reason := reason |} in
  if negb (str_in mode HYPOTHESIS_MODES) then
    Raise (value_error ("unknown hypothesis mode " +:+ repr_str mode))
  else if true_rng_ok then
    Ok {| consume_kind := CONSUME_TRUE_RNG_OK; consume_mode := None;
          consume_reason := "explicit true_rng_ok opt-in" |}
  else if negb (Nat.eqb (length (replay_prefix decision_context)) 0) &&
          match search_hypothesis_id decision_context with Some _ => true | None => false end then
    Ok (use_mode "inherited non-None Search Hypothesis ID"%string)
  else
    let action_type := _candidate_action_type candidate in
    card_id ← _candidate_card_id candidate;
    match str_in action_type ["system"; "choice_confirm"; "choice_skip"]%string, card_id with
    | true, None =>
        Ok {| consume_kind := CONSUME_PASSTHROUGH; consume_mode := None;
              consume_reason := repr_str action_type +:+
                " candidate has no card binding and is treated as RNG/order independent" |}
    | _, _ =>
        Ok (use_mode (repr_str (if String.eqb action_type "" then "unknown" else action_type) +:+
              " candidate is conservatively treated as RNG/order sensitive"))
    end.

(** * Belief generation *)

Definition card_id_of (card : pyval) : string := py_str (attr "CardId" card).
Definition instance_id_of (card : pyval) : string := py_str (attr "InstanceId" card).
Definition draw_pile (snapshot : pyval) : list pyval := cards_in_zone "draw_pile" (attr "Player" snapshot).

Definition count_leb_str (x y : string * Z) : bool := String.leb x.1 y.1.
Definition compute_public_multiset (snapshot : pyval) : list (string * Z) :=
  sort_by count_leb_str (counter_of String.eqb (map card_id_of (draw_pile snapshot))).

(** [int.from_bytes(sha256(json).digest()[:8], "big")]. *)
Definition seed_digest (payload : pyval) : Z := be_int (take 8 (sha256 (str_bytes (json_dumps true payload)))).
Definition _shuffle_seed_from_rng (rng : SerializableRng) (hypothesis_index : Z) : Z :=
  seed_digest (VDict [("rng", _rng_to_dict rng); ("hypothesis_index", VInt hypothesis_index)]%string).
Definition _combat_start_seed_from_root (root_seed hypothesis_index : Z) : Z :=
  Z.land (seed_digest (VDict [("root_seed", VInt root_seed); ("hypothesis_index", VInt hypothesis_index)]%string)) 0x7FFFFFFF.

Definition indices_below (count : Z) : list Z := map Z.of_nat (seq 0 (Z.to_nat count)).

Definition derive_combat_start_replay_roots (scenario_spec : pydict) (count : Z) :
    Res (list CombatStartDerivedReplayRoot) :=
  if count <? 0 then Raise (value_error "count must be non-negative")
  else
    root_seed ← py_int (dget_or "seed" (VInt 1) scenario_spec);
    Ok (map (fun index =>
      let seed := _combat_start_seed_from_root root_seed index in
      {| derived_hypothesis :=
           {| rng := {| rng_counter := seed; rng_state0 := 0; rng_state1 := 0; rng_state2 := 0; rng_state3 := 0 |};
              ordered_draw_pile_card_ids := []; hypothesis_index := index |};
         derived_replay_root := CombatStartReplayRoot (dset "seed" (VInt seed) scenario_spec) |})
      (indices_below count)).

Definition entry_leb (x y : string * Z) : bool :=
  String.ltb x.1 y.1 || (String.eqb x.1 y.1 && (x.2 <=? y.2)).
Definition _canonical_cards_from_multiset (public_multiset : list (string * Z)) : Res (list string) :=
  foldR (fun cards kv =>
    if kv.2 <? 0 then Raise (value_error ("negative PUBLIC_MULTISET count for " +:+ repr_str kv.1))
    else Ok (cards ++ repeat kv.1 (Z.to_nat kv.2))) (sort_by entry_leb public_multiset) [].

(** The hypotheses of these indices; [None] when the sampler of one of them
    rejects all its first [draws] draws. *)
Fixpoint generate_from (draws : nat) (canonical_cards : list string) (rng_seed_source : Z -> Res RngLike)
    (indices : list Z) : option (Res (list SearchHypothesisId)) :=
  match indices with
  | [] => Some (Ok [])
  | index :: rest =>
      match rng_seed_source index ≫= _rng_from_like with
      | Raise e => Some (Raise e)
      | Ok rng =>
          ordered ← shuffle draws canonical_cards (_shuffle_seed_from_rng rng index);
          hypotheses ← generate_from draws canonical_cards rng_seed_source rest;
          Some (hypotheses ← hypotheses;
            Ok ({| rng := rng; ordered_draw_pile_card_ids := ordered; hypothesis_index := index |} :: hypotheses))
      end
  end.
Definition generate_belief_hypotheses (draws : nat) (public_multiset : list (string * Z)) (count : Z)
    (rng_seed_source : Z -> Res RngLike) : option (Res (list SearchHypothesisId)) :=
  if count <? 0 then Some (Raise (value_error "count must be non-negative"))
  else
    match _canonical_cards_from_multiset public_multiset with
    | Raise e => Some (Raise e)
    | Ok canonical_cards => generate_from draws canonical_cards rng_seed_source (indices_below count)
    end.

(** * Beliefs come from the public multiset *)

Lemma string_eqb_spec x y : String.eqb x y = true <-> x = y.
Proof. destruct (String.eqb_spec x y); naive_solver. Qed.

(** The sorted counts of a list of card ids. *)
Definition public_counts (ids : list string) : list (string * Z) := sort_by count_leb_str (counter_of String.eqb ids).

Lemma public_counts_Permutation ids ids' : ids ≡ₚ ids' -> public_counts ids = public_counts ids'.
Proof.
  intros Hp. unfold public_counts. apply sort_by_unique.
  - intros x y. apply String.leb_total.
  - intros x y z. apply str_leb_trans.
  - intros [x n] [y m] Hx Hy H1 H2. assert (x = y) as -> by exact (string_leb_antisym _ _ H1 H2).
    destruct (counter_of_keys _ string_eqb_spec ids) as [Hnd _].
    by rewrite <- (counter_get_entry _ string_eqb_spec y n _ Hnd Hx),
         <- (counter_get_entry _ string_eqb_spec y m _ Hnd Hy).
  - apply (counter_get_Permutation _ string_eqb_spec);
      try (apply counter_of_keys, string_eqb_spec); try (apply counter_of_pos, string_eqb_spec).
    intros k. rewrite !(counter_get_of _ string_eqb_spec). by apply occurs_Permutation.
Qed.

(** The cards a multiset stands for. *)
Definition spread (c : list (string * Z)) : list string := concat (map (fun kn => repeat kn.1 (Z.to_nat kn.2)) c).

Lemma spread_Permutation c c' : c ≡ₚ c' -> spread c ≡ₚ spread c'.
Proof. intros Hp. unfold spread. by rewrite <- !flat_map_concat_map, Hp. Qed.

Lemma canonical_cards_spread c :
  Forall (fun kn => 0 < kn.2) c ->
  exists l, _canonical_cards_from_multiset c = Ok l /\ l ≡ₚ spread c.
Proof.
  intros Hpos. unfold _canonical_cards_from_multiset. exists (spread (sort_by entry_leb c)).
  split; [|by apply spread_Permutation, sort_by_Permutation].
  assert (Hs : Forall (fun kn => 0 < kn.2) (sort_by entry_leb c)) by (by rewrite sort_by_Permutation).
  change (spread (sort_by entry_leb c)) with ([] ++ spread (sort_by entry_leb c)).
  generalize (@nil string) as acc. induction Hs as [|[k n] l Hn _ IH]; intros acc; cbn [foldR fst snd].
  - by rewrite app_nil_r.
  - cbn in Hn. rewrite (proj2 (Z.ltb_ge n 0)) by lia. cbn [mbind Res_bind]. rewrite IH. by rewrite <- app_assoc.
Qed.

Lemma occurs_repeat k x n : occurs String.eqb k (repeat x n) = if String.eqb x k then Z.of_nat n else 0.
Proof.
  unfold occurs. induction n as [|n IH]; cbn; [by destruct (String.eqb x k)|].
  destruct (String.eqb x k); cbn [length]; lia.
Qed.
Lemma occurs_spread k c : NoDup c.*1 -> Forall (fun kn => 0 < kn.2) c ->
  occurs String.eqb k (spread c) = counter_get String.eqb k c.
Proof.
  induction c as [|[x n] c IH]; intros Hnd Hpos; [done|]. cbn in Hnd. apply NoDup_cons in Hnd as [Hni Hnd].
  apply Forall_cons in Hpos as [Hn Hpos]. cbn in Hn.
  change (spread ((x, n) :: c)) with (repeat x (Z.to_nat n) ++ spread c).
  rewrite occurs_app, occurs_repeat, IH by done. cbn. destruct (String.eqb_spec x k) as [->|]; [|lia].
  rewrite (counter_get_absent _ string_eqb_spec); [lia|done].
Qed.
Lemma spread_counts ids : spread (public_counts ids) ≡ₚ ids.
Proof.
  unfold public_counts. rewrite (spread_Permutation _ _ (sort_by_Permutation _ _)).
  apply (occurs_eq_Permutation _ string_eqb_spec). intros k.
  rewrite occurs_spread by (first [apply counter_of_keys, string_eqb_spec|apply counter_of_pos, string_eqb_spec]).
  apply counter_get_of, string_eqb_spec.
Qed.

(** The canonical cards of a snapshot's public multiset are its draw pile's. *)
Lemma canonical_cards_of ids :
  exists l, _canonical_cards_from_multiset (public_counts ids) = Ok l /\ l ≡ₚ ids.
Proof.
  destruct (canonical_cards_spread (public_counts ids)) as (l & Hl & Hp).
  { unfold public_counts. rewrite sort_by_Permutation. apply counter_of_pos, string_eqb_spec. }
  exists l. split; [done|]. by rewrite Hp, spread_counts.
Qed.

Lemma generate_from_exact draws cards (rngs : Z -> SerializableRng) src indices :
  (forall i, i ∈ indices -> src i = Ok (RngObject (rngs i)) /\
     is_Some (shuffle draws cards (_shuffle_seed_from_rng (rngs i) i))) ->
  exists hs, generate_from draws cards src indices = Some (Ok hs) /\
    Forall2 (fun i h => hypothesis_index h = i /\ rng h = rngs i /\ ordered_draw_pile_card_ids h ≡ₚ cards) indices hs.
Proof.
  induction indices as [|i indices IH]; intros H; [by exists []|].
  destruct (H i) as [Hsrc [l Hl]]; [by left|]. destruct IH as (hs & Hhs & Hall); [intros j Hj; apply H; by right|].
  cbn [generate_from]. rewrite Hsrc. cbn [mbind Res_bind _rng_from_like]. rewrite Hl. cbn [mbind option_bind].
  rewrite Hhs. cbn. eexists. split; [reflexivity|]. constructor; [|done]. cbn.
  split_and!; [done|done|by eapply shuffle_Permutation].
Qed.

(** The sampler accepts a draw for each swap of each hypothesis. *)
Definition sampler_settles (draws : nat) (cards : list string) (rngs : Z -> SerializableRng) (count : Z) : bool :=
  forallb (fun i => match shuffle draws cards (_shuffle_seed_from_rng (rngs i) i) with Some _ => true | None => false end)
    (indices_below count).

(** the beliefs about a hidden draw pile are exact and leak nothing of its
    order. From any seed source, [count] hypotheses are generated, numbered
    from 0, each with the rng it was seeded by and an order of exactly the
    cards of the pile; and any snapshot whose pile is a rearrangement of this
    one's yields the very same hypotheses. *)
Theorem beliefs_are_public draws s count rngs src cards :
  0 <= count -> _canonical_cards_from_multiset (compute_public_multiset s) = Ok cards ->
  (forall i, src i = Ok (RngObject (rngs i))) -> sampler_settles draws cards rngs count = true ->
  exists hs, generate_belief_hypotheses draws (compute_public_multiset s) count src = Some (Ok hs) /\
    Forall2 (fun i h => hypothesis_index h = i /\ rng h = rngs i /\
       ordered_draw_pile_card_ids h ≡ₚ map card_id_of (draw_pile s)) (indices_below count) hs /\
    forall s', map card_id_of (draw_pile s') ≡ₚ map card_id_of (draw_pile s) ->
      generate_belief_hypotheses draws (compute_public_multiset s') count src = Some (Ok hs).
Proof.
  intros Hc Hcards Hsrc Hset. change (compute_public_multiset s) with (public_counts (map card_id_of (draw_pile s))) in *.
  unfold sampler_settles in Hset. rewrite forallb_forall in Hset.
  destruct (canonical_cards_of (map card_id_of (draw_pile s))) as (l & Hl & Hp). rewrite Hcards in Hl. injection Hl as <-.
  destruct (generate_from_exact draws cards rngs src (indices_below count)) as (hs & Hhs & Hall).
  { intros i Hi%list_elem_of_In. split; [done|]. specialize (Hset i Hi). by destruct (shuffle draws cards _). }
  unfold generate_belief_hypotheses. rewrite (proj2 (Z.ltb_ge count 0)) by lia.
  exists hs. rewrite Hcards. split_and!; [done| |].
  - eapply Forall2_impl; [exact Hall|]. cbn. intros i h (? & ? & ->). by rewrite Hp.
  - intros s' Hp'. change (compute_public_multiset s') with (public_counts (map card_id_of (draw_pile s'))).
    by rewrite (public_counts_Permutation _ _ Hp'), Hcards.
Qed.

(** * Combat-start roots *)

(** the replay roots of a combat start differ from the root only in their
    seed: as many as asked for, numbered from 0, each with its own derived seed
    within a signed 32-bit number, and a negative count or an unreadable root
    seed is refused. *)
Theorem combat_start_roots_exact spec count :
  (count < 0 -> derive_combat_start_replay_roots spec count = Raise (value_error "count must be non-negative")) /\
  forall roots, derive_combat_start_replay_roots spec count = Ok roots ->
    exists root_seed, py_int (dget_or "seed" (VInt 1) spec) = Ok root_seed /\ length roots = Z.to_nat count /\
      forall i r, roots !! i = Some r ->
        let seed := _combat_start_seed_from_root root_seed (Z.of_nat i) in
        0 <= seed < 2 ^ 31 /\ derived_replay_root r = CombatStartReplayRoot (dset "seed" (VInt seed) spec) /\
        hypothesis_index (derived_hypothesis r) = Z.of_nat i /\ rng_counter (rng (derived_hypothesis r)) = seed.
Proof.
  unfold derive_combat_start_replay_roots. split.
  - intros Hc. by rewrite (proj2 (Z.ltb_lt count 0) Hc).
  - intros roots. destruct (count <? 0); [discriminate|]. intros (seed & Hs & [= <-])%bind_Ok. exists seed.
    split; [done|]. unfold indices_below. rewrite !length_map, length_seq. split; [done|].
    intros i r Hr. rewrite !list_lookup_fmap in Hr. destruct (seq 0 (Z.to_nat count) !! i) as [j|] eqn:E; [|discriminate].
    apply lookup_seq in E as [-> _]. injection Hr as <-. cbn zeta. split_and!; try done;
      unfold _combat_start_seed_from_root; change 0x7FFFFFFF with (Z.ones 31); rewrite Z.land_ones by lia; apply Z.mod_pos_bound; lia.
Qed.

(** the privacy gate is conservative: without an explicit opt-in, a
    candidate escapes the hypotheses only when no hypothesis is inherited, its
    type is system, confirm or skip, and it is bound to no card. *)
Theorem consume_gate_conservative candidate c mode r :
  consume_check candidate c mode false = Ok r ->
  requires_hypothesis r = false <->
    ~ (replay_prefix c <> [] /\ search_hypothesis_id c <> None) /\
    _candidate_action_type candidate ∈ ["system"; "choice_confirm"; "choice_skip"]%string /\
    _candidate_card_id candidate = Ok None.
Proof.
  unfold consume_check. destruct (negb (str_in mode HYPOTHESIS_MODES)); [discriminate|].
  assert (Hin : (negb (Nat.eqb (length (replay_prefix c)) 0) &&
      match search_hypothesis_id c with Some _ => true | None => false end) = true <->
    replay_prefix c <> [] /\ search_hypothesis_id c <> None).
  { rewrite andb_true_iff. destruct (replay_prefix c), (search_hypothesis_id c); cbn; naive_solver. }
  destruct (negb _ && _) eqn:E.
  - intros [= <-]. cbn. split; [discriminate|]. intros [Hn _]. by destruct Hn; apply Hin.
  - intros (card & Hcard & H)%bind_Ok. rewrite Hcard.
    destruct (str_in (_candidate_action_type candidate) _) eqn:Et.
    + apply str_in_elem in Et. destruct card as [card|]; injection H as <-; cbn.
      * split; [discriminate|]. by intros (_ & _ & [=]).
      * split; [|done]. intros _. split_and!; [|done|done]. rewrite <- Hin. congruence.
    + assert (r = {| consume_kind := CONSUME_MODE; consume_mode := Some mode; consume_reason := consume_reason r |}) as ->
        by (by injection H as <-). cbn. split; [discriminate|]. intros (_ & Ht & _). apply str_in_elem in Ht. congruence.
Qed.
