(* ===== verification/Materialize.v ===== *)
(** Materialized hypotheses (Combat/search/rng_hypothesis.py): the concrete
    cards of an ordered draw pile, the substituted Restore input, and a
    hypothesis applied to a decision context; with the snapshot side of
    Combat/search/replay_draw_restore.py. *)

From S2P Require Export Beliefs.
From stdpp Require Import gmap strings.
Local Open Scope Z_scope.

(** * Materialization *)

Definition _card_identity_key (card : pyval) : string := canonical_json card false.
Definition identity_leb (x y : pyval) : bool := String.leb (_card_identity_key x) (_card_identity_key y).

(** replay_draw_restore.py: the observable key of a snapshot card; [None] when
    a tinker field is no string, a key no public card has. *)
Definition observable_card_key_from_snapshot (card : pyval) : option ObservableCardKey :=
  cost ← strict_int (attr "Cost" card);
  upgrade_level ← strict_int (attr "UpgradeLevel" card);
  tinker_type ← str_or_none (attr "TinkerTimeType" card);
  tinker_rider ← str_or_none (attr "TinkerTimeRider" card);
  Some {| ck_id := card_id_of card; ck_type := py_str (attr "Type" card); ck_rarity := py_str (attr "Rarity" card);
          ck_cost := cost; ck_target_type := py_str (attr "TargetType" card);
          ck_upgraded := truthy (attr "IsUpgraded" card); ck_upgrade_level := upgrade_level;
          ck_tinker_type := tinker_type; ck_tinker_rider := tinker_rider; ck_enchantment := None |}.

(** [freeze]: tuples are lists. *)
Fixpoint freeze (value : pyval) : pyval :=
  match value with
  | VDict d =>
      VList (map (fun p => VList [VStr p.1; p.2])
        (sort_by (fun x y : string * pyval => String.leb x.1 y.1) (map (fun p => (p.1, freeze p.2)) d)))
  | VList l => VList (map freeze l)
  | _ => value
  end.
Definition snapshot_card_replay_internal_key (card : pyval) : pyval :=
  match card with VDict d => freeze (VDict (ddel "Zone" (ddel "InstanceId" d))) | _ => freeze card end.

(** [len(set(values))]. *)
Definition distinct_count (values : list pyval) : nat :=
  length (foldl (fun seen v => if existsb (py_eqb v) seen then seen else seen ++ [v]) [] values).

Definition observes (key : ObservableCardKey) (card : pyval) : bool :=
  bool_decide (observable_card_key_from_snapshot card = Some key).

(** Every pinned key matches enough cards, all with one hidden state. *)
Definition check_pinned_keys (root_cards : list pyval) (pinned_keys : list ObservableCardKey) : Res unit :=
  foldR (fun _ (kn : ObservableCardKey * Z) =>
    let matches := List.filter (observes kn.1) root_cards in
    if Z.of_nat (length matches) <? kn.2 then
      Raise (value_error "pinned observable card state is absent from the root DrawPile in the required count")
    else if negb (Nat.eqb (distinct_count (map snapshot_card_replay_internal_key matches)) 1) then
      Raise (value_error ("pinned observable card state maps to multiple hidden gameplay states; " +:+
               "public evidence is insufficient for safe replay materialization"))
    else Ok tt) (Counter pinned_keys) tt.

Definition unused (used : list string) (card : pyval) : bool := negb (str_in (instance_id_of card) used).

(** One pinned card: the first unused match by identity key. *)
Definition pin (pile : list pyval) (ordered_card_ids : list string) (state : list string * list pyval)
    (ok : Z * ObservableCardKey) : Res (list string * list pyval) :=
  expected_card_id ←
    match ordered_card_ids !! Z.to_nat ok.1 with
    | Some i => Ok i | None => Raise (PyExc "IndexError" "tuple index out of range")
    end;
  if negb (String.eqb (card_id_from_observable_key ok.2) expected_card_id) then
    Raise (value_error ("pinned observable card has CardId=" +:+ repr_str (card_id_from_observable_key ok.2) +:+
             ", but hypothesis position " +:+ pretty ok.1 +:+ " requires " +:+ repr_str expected_card_id))
  else
    match sort_by identity_leb (List.filter (fun card => unused state.1 card && observes ok.2 card) pile) with
    | [] => Raise (value_error "pinned observable card state was exhausted during concrete allocation")
    | chosen :: _ => Ok (state.1 ++ [instance_id_of chosen], state.2 ++ [chosen])
    end.
(** The ids used and the cards chosen. *)
Definition allocate_pinned (pile : list pyval) (ordered_card_ids : list string)
    (pinned : VisibleDrawConstraints) : Res (list string * list pyval) :=
  foldR (pin pile ordered_card_ids) pinned ([], []).

(** The queues of the unpinned cards, and the cards taken off them. *)
Definition queue_card (queues : gmap string (list pyval)) (card : pyval) : gmap string (list pyval) :=
  <[card_id_of card := default [] (queues !! card_id_of card) ++ [card]]> queues.
Definition take_card (state : gmap string (list pyval) * list pyval) (card_id : string) :
    Res (gmap string (list pyval) * list pyval) :=
  match default [] (state.1 !! card_id) with
  | [] => Raise (value_error ("hypothesis concrete-card allocation exhausted CardId " +:+ repr_str card_id +:+
            " after observable-state pinning"))
  | card :: queue => Ok (<[card_id := queue]> state.1, state.2 ++ [card])
  end.
Definition take_cards (queues : gmap string (list pyval)) (card_ids : list string) :
    Res (gmap string (list pyval) * list pyval) := foldR take_card card_ids (queues, []).

Definition multiset_repr (c : list (string * Z)) : string :=
  py_repr (VDict (map (fun kn => (kn.1, VInt kn.2)) (sort_by count_leb_str c))).
Definition contiguous (offsets : list Z) : bool := bool_decide (offsets = map Z.of_nat (seq 0 (length offsets))).

Definition _draw_pile_instances_for_hypothesis (root_snapshot : pyval) (ordered_card_ids : list string)
    (pinned_observable_keys : VisibleDrawConstraints) : Res (list pyval) :=
  let root_cards := draw_pile root_snapshot in
  let requested := counter_of String.eqb ordered_card_ids in
  let available := counter_of String.eqb (map card_id_of root_cards) in
  if negb (counter_eqb String.eqb requested available) then
    Raise (value_error
      ("hypothesis DrawPile multiset does not match root snapshot Player.CardInstances(draw_pile) multiset: " +:+
       "requested=" +:+ multiset_repr requested +:+ ", available=" +:+ multiset_repr available))
  else if negb (contiguous (map fst pinned_observable_keys)) then
    Raise (value_error "pinned draw constraints must be an ordered contiguous prefix")
  else
    _ ← check_pinned_keys root_cards (map snd pinned_observable_keys);
    pinned ← allocate_pinned root_cards ordered_card_ids pinned_observable_keys;
    let queues := foldl queue_card ∅ (sort_by identity_leb (List.filter (unused pinned.1) root_cards)) in
    tail ← take_cards queues (drop (length pinned.2) ordered_card_ids);
    Ok (pinned.2 ++ tail.2).

(** [{str(card["InstanceId"]): {**card, "Zone": "draw_pile", "PileIndex": i}}]. *)
Definition place_card (index : nat) (card : pyval) : pyval :=
  match card with
  | VDict d => VDict (dset "PileIndex" (VInt (Z.of_nat index)) (dset "Zone" (VStr "draw_pile") d))
  | _ => card
  end.
Definition replacement_by_id (ordered : list pyval) : pydict :=
  dupdate [] (imap (fun i card => (instance_id_of card, place_card i card)) ordered).

(** [d[k] = f(d[k])] on a nested dictionary. *)
Definition update_key (k : string) (f : pyval -> Res pyval) (v : pyval) : Res pyval :=
  match v with
  | VDict d => x ← dindex k d; x' ← f x; Ok (VDict (dset k x' d))
  | _ => Raise (PyExc "TypeError" ("'" +:+ py_type_name v +:+ "' object is not subscriptable"))
  end.
Definition substitute_shuffle (rng : SerializableRng) (run_rng : pyval) : Res pyval :=
  has_shuffle ← py_contains "Shuffle" run_rng;
  if (has_shuffle : bool) then
    match run_rng with
    | VDict d => Ok (VDict (dset "Shuffle" (_rng_to_dict rng) d))
    | _ => Raise (PyExc "TypeError" "object does not support item assignment")
    end
  else Raise (value_error ("root_snapshot.Rng.RunRng is missing required " +:+ chr 34 +:+ "Shuffle" +:+ chr 34 +:+ " stream")).

Definition derive_substituted_snapshot (root_snapshot : pyval) (hypothesis : SearchHypothesisId)
    (pinned_draw_card_keys : VisibleDrawConstraints) : Res pyval :=
  payload ← update_key "Rng" (update_key "RunRng" (substitute_shuffle (rng hypothesis)))
              (_snapshot_plain_dict root_snapshot);
  ordered_draw_pile ← _draw_pile_instances_for_hypothesis root_snapshot
                        (ordered_draw_pile_card_ids hypothesis) pinned_draw_card_keys;
  let replacements := replacement_by_id ordered_draw_pile in
  payload ← update_key "Player" (update_key "CardInstances" (fun cards =>
              cards ← py_iter cards;
              Ok (VList (map (fun card => dget_or (instance_id_of card) card replacements) cards)))) payload;
  parse_snapshot payload.

Record HypothesisGridCell := {
  root_action : PipelineCandidateRef;
  hypothesis : SearchHypothesisId;
  cell_search_hypothesis_id : string;
  derived_snapshot : pyval;
}.
Definition build_grid (root_actions : list PipelineCandidateRef) (hypotheses : list SearchHypothesisId)
    (root_snapshot : pyval) : Res (list HypothesisGridCell) :=
  rows ← mapR (fun a => mapR (fun h =>
           s ← derive_substituted_snapshot root_snapshot h [];
           Ok {| root_action := a; hypothesis := h; cell_search_hypothesis_id := to_slot_value h;
                 derived_snapshot := s |}) hypotheses) root_actions;
  Ok (concat rows).

(** * A hypothesis in a decision context *)

Fixpoint visible_prefix (entries : list ReplayPrefixEntry) : VisibleDrawConstraints :=
  match entries with
  | [] => []
  | entry :: rest =>
      visible_draw_constraints entry ++ (if visible_draw_tracking_blocked entry then [] else visible_prefix rest)
  end.
Definition _pinned_prefix_visible_draw_constraints (decision_context : DecisionContext) : Res VisibleDrawConstraints :=
  let constraints := visible_prefix (replay_prefix decision_context) in
  if contiguous (map fst constraints) then Ok constraints
  else Raise (value_error "visible draw constraints must form one ordered contiguous prefix from Stable-root offset 0").

(** [l.remove(x)] on strings; [None] when absent. *)
Fixpoint remove_first (x : string) (l : list string) : option (list string) :=
  match l with
  | [] => None
  | y :: l => if String.eqb y x then Some l else rest ← remove_first x l; Some (y :: rest)
  end.
Definition with_draw_pile (h : SearchHypothesisId) (card_ids : list string) : SearchHypothesisId :=
  {| rng := rng h; ordered_draw_pile_card_ids := card_ids; hypothesis_index := hypothesis_index h |}.
Definition _reorder_hypothesis_for_visible_draw_constraints (h : SearchHypothesisId)
    (constraints : VisibleDrawConstraints) : Res SearchHypothesisId :=
  split ← foldR (fun (state : list string * list string) ok =>
    if negb (ok.1 =? Z.of_nat (length state.1)) then
      Raise (value_error "visible draw constraints must be a contiguous prefix")
    else
      let card_id := card_id_from_observable_key ok.2 in
      match remove_first card_id state.2 with
      | None => Raise (value_error ("visible draw constraint requires CardId " +:+ repr_str card_id +:+
                         " absent from the hypothesis"))
      | Some remaining => Ok (state.1 ++ [card_id], remaining)
      end) constraints ([], ordered_draw_pile_card_ids h);
  Ok (with_draw_pile h (split.1 ++ split.2)).

Definition with_root (root : Root) (c : DecisionContext) : DecisionContext :=
  {| root_snapshot := root; replay_prefix := replay_prefix c; plan_path := plan_path c;
     current_decision_result := current_decision_result c;
     current_context_signature := current_context_signature c; search_hypothesis_id := search_hypothesis_id c |}.
Definition with_search_hypothesis (c : DecisionContext) (h : option SearchHypothesisId) : DecisionContext :=
  {| root_snapshot := root_snapshot c; replay_prefix := replay_prefix c; plan_path := plan_path c;
     current_decision_result := current_decision_result c;
     current_context_signature := current_context_signature c;
     search_hypothesis_id := to_slot_value <$> h |}.

(** The snapshot of a root: [dataclasses.asdict] refuses what is no dataclass,
    and a map root has no rng. *)
Definition snapshot_of (root : Root) : Res pyval :=
  match root with
  | SnapshotRoot d => Ok (VDict d)
  | RoomEntryReplayRoot _ _ | CombatStartReplayRoot _ => Raise (PyExc "KeyError" (repr_str "Rng"))
  | _ => Raise (PyExc "TypeError" "asdict() should be called on dataclass instances")
  end.

Definition apply_hypothesis_to_context (c : DecisionContext) (h : SearchHypothesisId) : Res DecisionContext :=
  adapted ← search_root (root_snapshot c);
  if is_combat_start adapted then
    Raise (PyExc "TypeError" "Genesis hypotheses must use derive_combat_start_replay_roots()")
  else
    constraints ← _pinned_prefix_visible_draw_constraints c;
    effective ← match constraints with [] => Ok h | _ => _reorder_hypothesis_for_visible_draw_constraints h constraints end;
    snapshot ← snapshot_of (root_snapshot c);
    derived ← derive_substituted_snapshot snapshot effective constraints;
    match derived with
    | VDict d => Ok (with_search_hypothesis (with_root (SnapshotRoot d) c) (Some effective))
    | _ => Raise (PyExc "TypeError" "asdict() should be called on dataclass instances")
    end.

(** * Concrete cards for a hypothesis *)

Lemma observes_spec key card : observes key card = true <-> observable_card_key_from_snapshot card = Some key.
Proof. apply bool_decide_eq_true. Qed.
Lemma observes_card_id key card : observes key card = true -> ck_id key = card_id_of card.
Proof.
  rewrite observes_spec. unfold observable_card_key_from_snapshot.
  destruct (strict_int (attr "Cost" card)); [|discriminate]. destruct (strict_int (attr "UpgradeLevel" card)); [|discriminate].
  destruct (str_or_none (attr "TinkerTimeType" card)); [|discriminate].
  destruct (str_or_none (attr "TinkerTimeRider" card)); [|discriminate]. cbn. by intros [= <-].
Qed.

Lemma filter_first {A} (P : A -> bool) l c q : List.filter P l = c :: q ->
  exists l1 l2, l = l1 ++ c :: l2 /\ List.filter P l1 = [] /\ List.filter P l2 = q /\ P c = true.
Proof.
  induction l as [|x l IH]; cbn; [discriminate|]. destruct (P x) eqn:E.
  - intros [= -> <-]. by exists [], l.
  - intros (l1 & l2 & -> & H1 & H2 & Hc)%IH. exists (x :: l1), l2. cbn. by rewrite E.
Qed.

(** Each queue holds the cards of its id in order. *)
Definition queues_of (queues : gmap string (list pyval)) (cards : list pyval) : Prop :=
  forall k, default [] (queues !! k) = List.filter (fun c => String.eqb (card_id_of c) k) cards.

Lemma queue_card_all cards queues done_ : queues_of queues done_ -> queues_of (foldl queue_card queues cards) (done_ ++ cards).
Proof.
  revert queues done_. induction cards as [|c cards IH]; intros queues done_ H; cbn [foldl]; [by rewrite app_nil_r|].
  replace (done_ ++ c :: cards) with ((done_ ++ [c]) ++ cards) by by rewrite <- app_assoc.
  apply IH. intros k. unfold queue_card. rewrite List.filter_app. cbn.
  destruct (String.eqb_spec (card_id_of c) k) as [<-|Hne].
  - rewrite lookup_insert_eq. cbn. by rewrite H.
  - rewrite lookup_insert_ne by done. by rewrite app_nil_r.
Qed.

(** Ids that are a rearrangement of the queued cards' take exactly these. *)
Lemma take_cards_all ids : forall queues cards taken,
  queues_of queues cards -> ids ≡ₚ map card_id_of cards ->
  exists queues' out, foldR take_card ids (queues, taken) = Ok (queues', taken ++ out) /\ out ≡ₚ cards /\ map card_id_of out = ids.
Proof.
  induction ids as [|k ids IH]; intros queues cards taken Hq Hp; cbn [foldR].
  { apply Permutation_nil in Hp. apply map_eq_nil in Hp as ->. exists queues, []. by rewrite app_nil_r. }
  pose proof (Hq k) as Hk. destruct (List.filter _ cards) as [|c q] eqn:E.
  { exfalso. assert (Hin : k ∈ map card_id_of cards) by (rewrite <- Hp; by left).
    apply list_elem_of_fmap in Hin as (c & -> & Hc).
    assert (Hc' : c ∈ List.filter (fun c0 => String.eqb (card_id_of c0) (card_id_of c)) cards).
    { apply list_elem_of_In, filter_In. split; [by apply list_elem_of_In|apply String.eqb_refl]. }
    rewrite E in Hc'. by apply not_elem_of_nil in Hc'. }
  destruct (filter_first _ _ _ _ E) as (l1 & l2 & -> & H1 & H2 & Hc%string_eqb_spec).
  assert (Ht : take_card (queues, taken) k = Ok (<[k := q]> queues, taken ++ [c])).
  { unfold take_card. cbn [fst snd]. by rewrite Hk. }
  rewrite Ht. cbn [mbind Res_bind].
  destruct (IH (<[k := q]> queues) (l1 ++ l2) (taken ++ [c])) as (queues' & out & -> & Hout & Hids).
  - intros k'. destruct (decide (k' = k)) as [->|Hne].
    + rewrite lookup_insert_eq. cbn. by rewrite List.filter_app, H1, H2.
    + rewrite lookup_insert_ne by done. rewrite Hq, !List.filter_app. cbn.
      destruct (String.eqb_spec (card_id_of c) k') as [E'|_]; [congruence|done].
  - apply (Permutation_cons_inv (a := k)). rewrite Hp, !map_app. cbn. rewrite Hc. by rewrite Permutation_middle.
  - exists queues', (c :: out). rewrite <- app_assoc. split_and!; [done| |cbn; by rewrite Hc, Hids].
    rewrite Hout. apply Permutation_middle.
Qed.

(** ** Pinned cards *)

(** The cards chosen so far and the unused ones are the whole pile. *)
Definition split_pile (pile : list pyval) (state : list string * list pyval) : Prop :=
  state.1 = map instance_id_of state.2 /\ state.2 ++ List.filter (unused state.1) pile ≡ₚ pile.

Lemma filter_one (cards : list pyval) c :
  NoDup (map instance_id_of cards) -> c ∈ cards ->
  c :: List.filter (fun x => negb (String.eqb (instance_id_of x) (instance_id_of c))) cards ≡ₚ cards.
Proof.
  induction cards as [|x cards IH]; intros Hnd Hin; [by apply not_elem_of_nil in Hin|].
  cbn in Hnd |- *. apply NoDup_cons in Hnd as [Hni Hnd]. apply elem_of_cons in Hin as [->|Hin].
  - rewrite String.eqb_refl. cbn. f_equiv.
    assert (E : forall y, y ∈ cards -> negb (String.eqb (instance_id_of y) (instance_id_of x)) = true).
    { intros y Hy. apply negb_true_iff, String.eqb_neq. intros He. apply Hni. rewrite <- He. by apply list_elem_of_fmap_2. }
    clear -E. induction cards as [|y cards IH]; [done|]. cbn. rewrite E by by left.
    f_equiv. apply IH. intros z Hz. apply E. by right.
  - destruct (String.eqb_spec (instance_id_of x) (instance_id_of c)) as [He|_].
    { exfalso. apply Hni. rewrite He. by apply list_elem_of_fmap_2. }
    cbn. rewrite perm_swap. f_equiv. by apply IH.
Qed.

Lemma filter_andb {A} (P Q : A -> bool) l :
  List.filter (fun x => P x && Q x) l = List.filter Q (List.filter P l).
Proof. induction l as [|x l IH]; [done|]. cbn. destruct (P x); cbn; by rewrite IH. Qed.
Lemma unused_snoc used c pile :
  List.filter (unused (used ++ [instance_id_of c])) pile =
  List.filter (fun x => negb (String.eqb (instance_id_of x) (instance_id_of c))) (List.filter (unused used) pile).
Proof.
  rewrite <- filter_andb. apply filter_ext. intros x. unfold unused, str_in. rewrite existsb_app. cbn.
  by rewrite orb_false_r, negb_orb.
Qed.

Lemma pin_splits pile ordered state ok state' :
  NoDup (map instance_id_of pile) -> split_pile pile state -> pin pile ordered state ok = Ok state' ->
  split_pile pile state' /\ exists c, state'.2 = state.2 ++ [c] /\ observes ok.2 c = true /\
    ordered !! Z.to_nat ok.1 = Some (card_id_of c).
Proof.
  intros Hnd [Hu Hp] (i & Hi & H)%bind_Ok. destruct (ordered !! Z.to_nat ok.1) as [i'|]; [|discriminate].
  injection Hi as ->. destruct (String.eqb_spec (card_id_from_observable_key ok.2) i) as [He|]; [|discriminate]. cbn [negb] in H.
  destruct (sort_by identity_leb _) as [|c rest] eqn:E; [discriminate|]. injection H as <-.
  assert (Hc : c ∈ List.filter (fun card => unused state.1 card && observes ok.2 card) pile).
  { rewrite <- (elem_of_sort_by identity_leb), E. by left. }
  apply list_elem_of_In, filter_In in Hc as [Hin%list_elem_of_In [Hun Hobs]%andb_true_iff].
  assert (Hc : c ∈ List.filter (unused state.1) pile) by by apply list_elem_of_In, filter_In; split; [apply list_elem_of_In|].
  split.
  - split; cbn [fst snd]; [by rewrite Hu, map_app|]. rewrite unused_snoc, <- app_assoc. cbn.
    rewrite filter_one; [done|by apply NoDup_map_filter|done].
  - exists c. split_and!; [done|done|]. rewrite <- (observes_card_id _ _ Hobs). by rewrite <- He.
Qed.

(** Pinning a contiguous prefix splits the pile into the pinned cards, which
    match their keys, and the rest. *)
Lemma allocate_pinned_splits pile ordered pinned state state' :
  NoDup (map instance_id_of pile) -> split_pile pile state ->
  map fst pinned = map Z.of_nat (seq (length state.2) (length pinned)) ->
  map card_id_of state.2 = take (length state.2) ordered ->
  foldR (pin pile ordered) pinned state = Ok state' ->
  split_pile pile state' /\ map card_id_of state'.2 = take (length state'.2) ordered /\
  exists new, state'.2 = state.2 ++ new /\ Forall2 (fun ok c => observes ok.2 c = true) pinned new.
Proof.
  intros Hnd. revert state. induction pinned as [|[o key] pinned IH]; intros state Hs Hoff Hids; cbn [foldR].
  { intros [= <-]. split_and!; [done|done|]. exists []. by rewrite app_nil_r. }
  intros (state1 & H1 & H)%bind_Ok. cbn in Hoff. injection Hoff as -> Hoff.
  destruct (pin_splits _ _ _ _ _ Hnd Hs H1) as (Hs1 & c & Hc & Hobs & Hi). cbn [fst snd] in *.
  rewrite Nat2Z.id in Hi.
  assert (Hl1 : length state1.2 = S (length state.2)) by (rewrite Hc, length_app; cbn; lia).
  destruct (IH state1) as (Hs' & Hids' & new & Hnew & Hall); [done| | |done|].
  - rewrite Hoff, Hl1. done.
  - rewrite Hl1, Hc, map_app, Hids. cbn. by rewrite (take_S_r _ _ _ Hi).
  - split_and!; [done|done|]. exists (c :: new). rewrite Hnew, Hc, <- app_assoc. split; [done|]. by constructor.
Qed.

Lemma counter_eqb_perm l l' : counter_eqb String.eqb (counter_of String.eqb l) (counter_of String.eqb l') = true <-> l ≡ₚ l'.
Proof. apply counter_eqb_spec, string_eqb_spec. Qed.

(** The unpinned cards fill the rest of the order. *)
Lemma fill_rest pile ordered state :
  split_pile pile state -> ordered ≡ₚ map card_id_of pile ->
  map card_id_of state.2 = take (length state.2) ordered ->
  exists queues out, take_cards (foldl queue_card ∅ (sort_by identity_leb (List.filter (unused state.1) pile)))
      (drop (length state.2) ordered) = Ok (queues, out) /\
    state.2 ++ out ≡ₚ pile /\ map card_id_of (state.2 ++ out) = ordered.
Proof.
  intros [Hu Hp] Hord Hids. set (rest := sort_by identity_leb (List.filter (unused state.1) pile)).
  assert (Hrest : rest ≡ₚ List.filter (unused state.1) pile) by apply sort_by_Permutation.
  destruct (take_cards_all (drop (length state.2) ordered) (foldl queue_card ∅ rest) rest []) as (q & out & Ht & Hout & Ho).
  - apply (queue_card_all rest ∅ []). intros k. by rewrite lookup_empty.
  - apply (Permutation_app_inv_l (take (length state.2) ordered)). rewrite take_drop, <- Hids, <- map_app, Hord.
    by rewrite Hrest, Hp.
  - exists q, out. split; [exact Ht|]. split; [by rewrite Hout, Hrest|].
    by rewrite map_app, Hids, Ho, take_drop.
Qed.

Lemma empty_split pile : split_pile pile ([], []).
Proof. split; [done|]. cbn. by rewrite (filter_ext _ (fun _ => true)), filter_true by done. Qed.

(** What is materialized is sound. *)
Lemma materialize_sound s ordered pinned cards :
  NoDup (map instance_id_of (draw_pile s)) -> _draw_pile_instances_for_hypothesis s ordered pinned = Ok cards ->
  cards ≡ₚ draw_pile s /\ map card_id_of cards = ordered /\
  Forall (fun ok => exists card, cards !! Z.to_nat ok.1 = Some card /\ observes ok.2 card = true) pinned.
Proof.
  intros Hnd. unfold _draw_pile_instances_for_hypothesis.
  destruct (counter_eqb String.eqb (counter_of String.eqb ordered) _) eqn:E; [|discriminate]. cbn [negb].
  apply counter_eqb_perm in E. destruct (contiguous (map fst pinned)) eqn:Ec; [|discriminate]. cbn [negb].
  intros (_ & _ & (state & Hpin & H)%bind_Ok)%bind_Ok. apply bool_decide_eq_true in Ec. rewrite length_map in Ec.
  destruct (allocate_pinned_splits _ _ _ _ _ Hnd (empty_split _) Ec eq_refl Hpin) as (Hs & Hids & new & Hnew & Hall).
  destruct (fill_rest _ _ _ Hs E Hids) as (q & out & Ht & Hp & Ho). rewrite Ht in H. injection H as <-.
  split_and!; [done|done|]. cbn in Hnew. rewrite Hnew. apply Forall_forall. intros [o key] Hin.
  apply list_elem_of_lookup in Hin as [i Hi]. destruct (Forall2_lookup_l _ _ _ _ _ Hall Hi) as (c & Hc & Hobs).
  exists c. split; [|done]. cbn [fst]. assert (Ho' : map fst pinned !! i = Some o) by (rewrite list_lookup_fmap, Hi; done).
  rewrite Ec, list_lookup_fmap in Ho'. destruct (seq 0 (length pinned) !! i) as [j|] eqn:Ej; [|discriminate].
  apply lookup_seq in Ej as [-> _]. injection Ho' as <-. rewrite Nat2Z.id. cbn.
  by apply lookup_app_l_Some.
Qed.
(** Without pins, an order of the pile's cards is always materialized. *)
Lemma materialize_unpinned s ordered :
  ordered ≡ₚ map card_id_of (draw_pile s) -> exists cards, _draw_pile_instances_for_hypothesis s ordered [] = Ok cards.
Proof.
  intros Hp. unfold _draw_pile_instances_for_hypothesis. rewrite (proj2 (counter_eqb_perm _ _) Hp). cbn [negb map contiguous].
  destruct (fill_rest _ _ ([], []) (empty_split _) Hp eq_refl) as (q & out & Ht & _). cbn in Ht |- *. rewrite Ht. cbn. by eexists.
Qed.

(** the concrete draw pile built for a hypothesis is sound and, without
    pins, total. With distinct instance ids, whatever is built uses every card
    of the pile exactly once, in the hypothesis' card-id order, each pinned
    position holding a card with the pinned observable state; without pins an
    order is refused exactly when its cards are not those of the pile. *)
Theorem draw_pile_materialization s ordered pinned :
  NoDup (map instance_id_of (draw_pile s)) ->
  (forall cards, _draw_pile_instances_for_hypothesis s ordered pinned = Ok cards ->
     cards ≡ₚ draw_pile s /\ map card_id_of cards = ordered /\
     Forall (fun ok => exists card, cards !! Z.to_nat ok.1 = Some card /\ observes ok.2 card = true) pinned) /\
  ((exists cards, _draw_pile_instances_for_hypothesis s ordered [] = Ok cards) <-> ordered ≡ₚ map card_id_of (draw_pile s)).
Proof.
  intros Hnd. split; [intros cards; by apply materialize_sound|]. split; [|apply materialize_unpinned].
  intros [cards (Hp & <- & _)%materialize_sound]; [|done]. by rewrite Hp.
Qed.

(** ** Hidden states *)

(** The cards of a parsed snapshot are card instances. *)
Definition card_instances (s : pyval) : list pyval := elems (attr "CardInstances" (attr "Player" s)).
Lemma parsed_cards v s :
  parse_snapshot v = Ok s -> Forall (fun c => instance_of CardInstanceSnapshot c = true) (card_instances s).
Proof.
  intros Hs%(lawful_type (c := CombatStateSnapshot)).
  pose proof (instance_attr CombatStateSnapshot _ (object_field "Player" PlayerSnapshot) eq_refl Hs ltac:(right; left)) as Hp.
  cbn [has_type object_field field field_name] in Hp.
  assert (Hin : objects "CardInstances" CardInstanceSnapshot ∈ fields PlayerSnapshot).
  { apply (list_elem_of_lookup_2 _ 11%nat). reflexivity. }
  pose proof (instance_attr PlayerSnapshot _ _ eq_refl Hp Hin) as Hc. unfold card_instances.
  cbn [has_type objects field field_name] in Hc. destruct (attr "CardInstances" (attr "Player" s)); try discriminate Hc.
  cbn [list_of elems] in *. rewrite forallb_forall in Hc. apply Forall_forall. intros c Hc'%list_elem_of_In. by apply Hc.
Qed.
Lemma draw_pile_cards s c : c ∈ draw_pile s <-> c ∈ card_instances s /\ py_eqb (attr "Zone" c) (VStr "draw_pile") = true.
Proof.
  unfold draw_pile, cards_in_zone. rewrite elem_of_sort_by, list_elem_of_In, filter_In, <- list_elem_of_In. done.
Qed.

(** The sorted names of a frozen card, and where its position is. *)
Definition frozen_names : list string :=
  Eval vm_compute in
    sort_by String.leb (List.filter (fun k => negb (str_in k ["InstanceId"; "Zone"]%string)) (names CardInstanceSnapshot)).
Definition pile_index_at : nat := Eval vm_compute in length (filter (fun k => String.ltb k "PileIndex" = true) frozen_names).

Lemma map_fst_filter (P : string -> bool) (d : pydict) :
  map fst (List.filter (fun p => P p.1) d) = List.filter P (map fst d).
Proof. induction d as [|[k v] d IH]; [done|]. cbn. destruct (P k); cbn; by rewrite IH. Qed.
Lemma frozen_pile_index c :
  instance_of CardInstanceSnapshot c = true ->
  exists l, snapshot_card_replay_internal_key c = VList l /\
    l !! pile_index_at = Some (VList [VStr "PileIndex"; freeze (attr "PileIndex" c)]).
Proof.
  intros Hi. destruct c as [| | | | | |kvs]; try discriminate Hi. unfold instance_of in Hi.
  apply andb_true_iff in Hi as [Hk%bool_decide_eq_true _].
  unfold snapshot_card_replay_internal_key. set (d := ddel "Zone" (ddel "InstanceId" kvs)).
  assert (Hd : map fst d = List.filter (fun k => negb (str_in k ["InstanceId"; "Zone"]%string)) (names CardInstanceSnapshot)).
  { unfold d, ddel. rewrite (map_fst_filter (fun k => negb (String.eqb "Zone" k))),
      (map_fst_filter (fun k => negb (String.eqb "InstanceId" k))), Hk. vm_compute. reflexivity. }
  cbn [freeze]. eexists. split; [reflexivity|].
  set (sorted := sort_by _ (map (fun p => (p.1, freeze p.2)) d)).
  assert (Hs : map fst sorted = frozen_names).
  { unfold sorted. rewrite (sort_by_map fst _ String.leb) by done. rewrite map_map. cbn [fst].
    change (map (fun x : string * pyval => x.1) d) with (map fst d). rewrite Hd. vm_compute. reflexivity. }
  assert (Hn : map fst sorted !! pile_index_at = Some "PileIndex"%string) by by rewrite Hs.
  rewrite list_lookup_fmap in Hn. destruct (sorted !! pile_index_at) as [[k x]|] eqn:E; [|discriminate].
  injection Hn as ->. rewrite list_lookup_fmap, E. cbn. do 4 f_equal.
  apply list_elem_of_lookup_2 in E. unfold sorted in E. rewrite elem_of_sort_by in E.
  apply list_elem_of_fmap in E as ([k y] & [= <- ->] & Hin). f_equal. unfold dget_none, dget_or.
  assert (Hin' : ("PileIndex"%string, y) ∈ kvs).
  { unfold d, ddel in Hin. apply list_elem_of_In in Hin. do 2 (apply filter_In in Hin as [Hin _]). by apply list_elem_of_In. }
  rewrite (dget_of_elem _ _ _ (eq_ind_r NoDup (well_named_NoDup CardInstanceSnapshot eq_refl) Hk) Hin'). done.
Qed.

(** Two internal keys compare equal only at the same pile position. *)
Lemma internal_key_position c1 c2 :
  instance_of CardInstanceSnapshot c1 = true -> instance_of CardInstanceSnapshot c2 = true ->
  snapshot_card_replay_internal_key c1 = snapshot_card_replay_internal_key c2 \/
  py_eqb (snapshot_card_replay_internal_key c1) (snapshot_card_replay_internal_key c2) = true ->
  attr "PileIndex" c1 = attr "PileIndex" c2.
Proof.
  intros H1 H2. destruct (frozen_pile_index c1 H1) as (l1 & -> & Hl1), (frozen_pile_index c2 H2) as (l2 & -> & Hl2).
  assert (Hf : field "PileIndex" (unless_none to_int) (or_null is_VInt) ∈ fields CardInstanceSnapshot).
  { apply (list_elem_of_lookup_2 _ 12%nat). reflexivity. }
  pose proof (instance_attr CardInstanceSnapshot _ _ eq_refl H1 Hf) as T1.
  pose proof (instance_attr CardInstanceSnapshot _ _ eq_refl H2 Hf) as T2. cbn [has_type field field_name] in T1, T2.
  clear H1 H2 Hf. intros [[= ->]|He].
  { rewrite Hl1 in Hl2. injection Hl2 as Hl2. by destruct (attr "PileIndex" c1), (attr "PileIndex" c2). }
  revert He. generalize dependent pile_index_at. intros i. revert i l2.
  induction l1 as [|x l1 IH]; intros i l2 Hl1 Hl2 He; [discriminate|]. destruct l2 as [|y l2]; [discriminate|].
  cbn in He. apply andb_true_iff in He as [Hxy He]. destruct i as [|i].
  - injection Hl1 as ->. injection Hl2 as ->. cbn in Hxy. rewrite andb_true_r in Hxy.
    destruct (attr "PileIndex" c1), (attr "PileIndex" c2); try discriminate; cbn in Hxy; [done|].
    apply Z.eqb_eq in Hxy. by subst.
  - by apply (IH i l2).
Qed.

(** A single distinct value: everything compares equal to it. *)
Lemma distinct_seen values seen w :
  foldl (fun seen v => if existsb (py_eqb v) seen then seen else seen ++ [v]) seen values = [w] ->
  (forall v, v ∈ seen -> v = w) /\ forall v, v ∈ values -> v = w \/ py_eqb v w = true.
Proof.
  revert seen. induction values as [|v values IH]; intros seen; cbn [foldl].
  - intros ->. split; [by intros v ->%list_elem_of_singleton|]. by intros v Hv%not_elem_of_nil.
  - destruct (existsb (py_eqb v) seen) eqn:E; intros [Hs Hv]%IH.
    + split; [done|]. intros u [->|Hu]%elem_of_cons; [|by apply Hv]. right.
      apply existsb_exists in E as (y & Hy & He). by rewrite <- (Hs y) by by apply list_elem_of_In.
    + split; [intros u Hu; apply Hs, elem_of_app; by left|].
      intros u [->|Hu]%elem_of_cons; [|by apply Hv]. left. apply Hs, elem_of_app. right. by left.
Qed.

Lemma one_hidden_state cards c :
  Forall (fun c => instance_of CardInstanceSnapshot c = true) cards -> c ∈ cards ->
  distinct_count (map snapshot_card_replay_internal_key cards) = 1%nat ->
  forall c', c' ∈ cards -> attr "PileIndex" c = attr "PileIndex" c'.
Proof.
  intros Hi Hc Hd c' Hc'. unfold distinct_count in Hd. rewrite Forall_forall in Hi.
  destruct (foldl _ _ _) as [|w [|]] eqn:E; try discriminate Hd. pose proof E as [_ Hv]%distinct_seen.
  assert (Hw : exists cw, cw ∈ cards /\ w = snapshot_card_replay_internal_key cw).
  { assert (Hsub : forall values seen, w ∈ foldl (fun seen v => if existsb (py_eqb v) seen then seen else seen ++ [v]) seen values ->
      w ∈ seen \/ w ∈ values).
    { clear. induction values as [|v values IH]; intros seen; cbn [foldl]; [by left|].
      intros [H|H]%IH; [|right; by right]. destruct (existsb _ seen); [by left|].
      apply elem_of_app in H as [H| ->%list_elem_of_singleton]; [by left|right; by left]. }
    destruct (Hsub (map snapshot_card_replay_internal_key cards) []) as [H|H].
    - rewrite E. by left.
    - by apply not_elem_of_nil in H.
    - apply list_elem_of_fmap in H as (cw & -> & Hcw). by exists cw. }
  destruct Hw as (cw & Hcw & ->).
  assert (Hsame : forall d, d ∈ cards -> attr "PileIndex" d = attr "PileIndex" cw).
  { intros d Hin. apply internal_key_position; [by apply Hi..|]. apply Hv. by apply list_elem_of_fmap_2. }
  by rewrite (Hsame c), (Hsame c').
Qed.

Lemma check_one_pin pile key :
  check_pinned_keys pile [key] = Ok tt -> distinct_count (map snapshot_card_replay_internal_key (List.filter (observes key) pile)) = 1%nat.
Proof.
  unfold check_pinned_keys. assert (E : Counter [key] = [(key, 1)]) by reflexivity. rewrite E. cbn [foldR fst snd].
  destruct (Z.ltb _ 1); cbn [mbind Res_bind]; [discriminate|]. destruct (Nat.eqb_spec (distinct_count (map snapshot_card_replay_internal_key
    (List.filter (observes key) pile))) 1) as [->|]; [done|discriminate].
Qed.

(** C37: a card with a second copy can never be pinned: in a parsed snapshot,
    whenever two cards at different positions of the draw pile show the pinned
    observable state, however alike they are, the materialization is refused,
    because the position in the pile counts as hidden gameplay state. *)
Theorem pinned_copies_refused v s ordered o key c1 c2 :
  parse_snapshot v = Ok s -> c1 ∈ draw_pile s -> c2 ∈ draw_pile s ->
  observes key c1 = true -> observes key c2 = true -> attr "PileIndex" c1 <> attr "PileIndex" c2 ->
  exists e, _draw_pile_instances_for_hypothesis s ordered [(o, key)] = Raise e.
Proof.
  intros Hp%parsed_cards H1 H2 Ho1 Ho2 Hne. unfold _draw_pile_instances_for_hypothesis.
  destruct (negb (counter_eqb _ _ _)); [by eexists|]. destruct (negb (contiguous _)); [by eexists|]. cbn [map snd].
  destruct (check_pinned_keys (draw_pile s) [key]) as [[]|e] eqn:E; [|by eexists]. exfalso. apply Hne.
  assert (Hin : forall c, c ∈ draw_pile s -> observes key c = true -> c ∈ List.filter (observes key) (draw_pile s)).
  { intros c Hc Ho. by apply list_elem_of_In, filter_In; split; [apply list_elem_of_In|]. }
  apply (one_hidden_state (List.filter (observes key) (draw_pile s)) c1); [|by apply Hin|by apply check_one_pin|by apply Hin].
  rewrite Forall_forall in Hp |- *. intros c [Hc _]%list_elem_of_In%filter_In. apply Hp.
  apply list_elem_of_In, draw_pile_cards in Hc. by destruct Hc.
Qed.

(** * The substituted snapshot *)

(** A card placed in the pile parses to itself, up to unknown fields. *)
Lemma place_card_parses i x c :
  from_dict CardInstanceSnapshot x = Ok c ->
  exists c', from_dict CardInstanceSnapshot (place_card i c) = Ok c' /\ strip_unknown c' = strip_unknown (place_card i c).
Proof.
  intros Hc. pose proof Hc as (kvs & -> & _ & _)%from_dict_built.
  destruct (class_update CardInstanceSnapshot false x kvs
    [("PileIndex"%string, VInt (Z.of_nat i), VInt (Z.of_nat i)); ("Zone"%string, VStr "draw_pile", VStr "draw_pile")])
    as (s' & Hs & Hst); [done|done| |by exists s'].
  repeat constructor; try done.
  - exists (unless_none to_int), (or_null is_VInt), (VInt (Z.of_nat i)). split; [|done].
    apply (list_elem_of_lookup_2 _ 12%nat). reflexivity.
  - exists Ok, anything, (VStr "draw_pile"). split; [|done]. apply (list_elem_of_lookup_2 _ 11%nat). reflexivity.
Qed.

(** The snapshot a hypothesis stands for: the root with its shuffle stream and
    the placed cards replaced. *)
Definition placed (cards : list pyval) (c : pyval) : pyval := dget_or (instance_id_of c) c (replacement_by_id cards).
Definition with_cards (cards : list pyval) (s : pyval) : pyval :=
  set_attr "Player" (set_attr "CardInstances" (VList (map (placed cards) (card_instances s))) (attr "Player" s)) s.
Definition with_shuffle (r : SerializableRng) (s : pyval) : pyval :=
  set_attr "Rng" (set_attr "RunRng" (set_attr "Shuffle" (_rng_to_dict r) (attr "RunRng" (attr "Rng" s))) (attr "Rng" s)) s.

(** Cards have string ids, and no two the same instance id. *)
Definition string_cards (s : pyval) : Prop :=
  Forall (fun c => is_str (attr "InstanceId" c) = true /\ is_str (attr "CardId" c) = true) (card_instances s) /\
  NoDup (map instance_id_of (card_instances s)).

Lemma instance_id_strip c : is_str (attr "InstanceId" c) = true -> instance_id_of (strip_unknown c) = instance_id_of c.
Proof. intros (t & Ht)%is_str_eq. unfold instance_id_of. by rewrite attr_strip, Ht by done. Qed.

Lemma dget_replacement cards i p :
  NoDup (map instance_id_of cards) ->
  dget i (replacement_by_id cards) = Some p <-> exists n c, cards !! n = Some c /\ i = instance_id_of c /\ p = place_card n c.
Proof.
  intros Hnd. unfold replacement_by_id. set (e := imap _ cards).
  assert (Hk : dkeys e = map instance_id_of cards).
  { unfold dkeys, e. rewrite fmap_imap. change (map instance_id_of cards) with (instance_id_of <$> cards).
    rewrite <- (imap_const instance_id_of). by apply imap_ext. }
  rewrite dget_dupdate by by rewrite Hk. cbn [dget].
  split.
  - intros H. destruct (dget i e) as [p'|] eqn:E; [|discriminate]. injection H as ->. apply dget_Some_elem in E.
    apply list_elem_of_lookup in E as [n Hn]. unfold e in Hn. rewrite list_lookup_imap in Hn.
    destruct (cards !! n) as [c|] eqn:Ec; [|discriminate]. injection Hn as <- <-. by exists n, c.
  - intros (n & c & Hc & -> & ->). rewrite (dget_of_elem (instance_id_of c) (place_card n c)); [done|by rewrite Hk|].
    apply (list_elem_of_lookup_2 _ n). unfold e. by rewrite list_lookup_imap, Hc.
Qed.

Lemma mapR_Forall2 {A B} (f : A -> Res B) l ys : mapR f l = Ok ys -> Forall2 (fun x y => f x = Ok y) l ys.
Proof.
  revert ys. induction l as [|x l IH]; intros ys; cbn [mapR]; [intros [= <-]; constructor|].
  intros (y & Hy & (ys' & Hys & [= <-])%bind_Ok)%bind_Ok. constructor; [done|by apply IH].
Qed.

(** The cards of the substituted payload parse to the placed cards. *)
Lemma placed_cards_parse xs cs cards :
  mapR (from_dict CardInstanceSnapshot) xs = Ok cs -> Forall (fun c => is_str (attr "InstanceId" c) = true) cs ->
  NoDup (map instance_id_of cards) -> (forall c, c ∈ cards -> c ∈ cs) ->
  exists cs', mapR (from_dict CardInstanceSnapshot)
      (map (fun card => dget_or (instance_id_of card) card (replacement_by_id cards)) (map strip_unknown cs)) = Ok cs' /\
    map strip_unknown cs' = map strip_unknown (map (placed cards) cs).
Proof.
  intros Hcs%mapR_Forall2 Hstr Hnd Hsub.
  assert (Horig : forall c, c ∈ cs -> exists x, from_dict CardInstanceSnapshot x = Ok c).
  { intros c [i Hi]%list_elem_of_lookup. destruct (Forall2_lookup_r _ _ _ _ _ Hcs Hi) as (x & _ & Hx). by exists x. }
  assert (Hone : forall c, c ∈ cs -> is_str (attr "InstanceId" c) = true -> exists c',
    from_dict CardInstanceSnapshot (dget_or (instance_id_of (strip_unknown c)) (strip_unknown c) (replacement_by_id cards)) = Ok c' /\
    strip_unknown c' = strip_unknown (placed cards c)).
  { intros c Hc Hs. rewrite instance_id_strip by done. unfold placed, dget_or.
    destruct (dget (instance_id_of c) (replacement_by_id cards)) as [p|] eqn:E.
    - apply dget_replacement in E as (n & c2 & Hn & _ & ->); [|done]. destruct (Horig c2) as [x Hx].
      + apply Hsub. by eapply list_elem_of_lookup_2.
      + by eapply place_card_parses.
    - destruct (Horig c Hc) as [x Hx]. exact (lawful_stable true _ _ Hx). }
  clear Hcs Horig Hsub. induction Hstr as [|c cs Hc Hstr IH]; [by exists []|].
  destruct (Hone c) as (c' & Hc' & Hs); [by left|done|].
  destruct IH as (cs' & Hcs' & Hss); [intros d Hd; apply Hone; by right|].
  exists (c' :: cs'). cbn [map mapR]. rewrite Hc'. cbn [mbind Res_bind]. rewrite Hcs'. cbn. by rewrite Hs, Hss.
Qed.

Lemma update_key_ok k f d x y : dget k d = Some x -> f x = Ok y -> update_key k f (VDict d) = Ok (VDict (dset k y d)).
Proof. intros Hx Hy. unfold update_key, dindex. rewrite Hx. cbn [mbind Res_bind]. by rewrite Hy. Qed.

(** The payload's player part parses to the player with the placed cards. *)
Lemma player_payload x p cards :
  from_dict PlayerSnapshot x = Ok p ->
  Forall (fun c => is_str (attr "InstanceId" c) = true) (elems (attr "CardInstances" p)) ->
  NoDup (map instance_id_of cards) -> (forall c, c ∈ cards -> c ∈ elems (attr "CardInstances" p)) ->
  exists raw p', update_key "CardInstances" (fun cs => cs ← py_iter cs;
      Ok (VList (map (fun card => dget_or (instance_id_of card) card (replacement_by_id cards)) cs))) (strip_unknown p) = Ok raw /\
    from_dict PlayerSnapshot raw = Ok p' /\
    strip_unknown p' = strip_unknown (set_attr "CardInstances" (VList (map (placed cards) (elems (attr "CardInstances" p)))) p).
Proof.
  intros Hx Hstr Hnd Hsub.
  assert (Hin : objects "CardInstances" CardInstanceSnapshot ∈ fields PlayerSnapshot).
  { apply (list_elem_of_lookup_2 _ 11%nat). reflexivity. }
  destruct (parsed_objects PlayerSnapshot _ _ _ _ eq_refl Hx Hin) as (xs & cs & Ha & Hcs). rewrite Ha in *. cbn [elems] in *.
  destruct (placed_cards_parse xs cs cards Hcs Hstr Hnd Hsub) as (cs' & Hcs' & Hs).
  pose proof Hx as (kvs & -> & _ & Hb)%from_dict_built.
  set (raws := map (fun card => dget_or (instance_id_of card) card (replacement_by_id cards)) (map strip_unknown cs)) in *.
  destruct (class_update PlayerSnapshot true x kvs [("CardInstances"%string, VList raws, VList (map (placed cards) cs))])
    as (p' & Hp' & Hsp); [done|done| |].
  { repeat constructor; [done|]. exists (each (from_dict CardInstanceSnapshot)), (list_of (instance_of CardInstanceSnapshot)), (VList cs').
    split; [done|]. cbn [fst snd]. unfold each. cbn [py_iter mbind Res_bind]. rewrite Hcs'. cbn. by rewrite Hs. }
  eexists _, p'. split; [|split; [exact Hp'|exact Hsp]]. rewrite strip_dict.
  assert (Hg : dget "CardInstances" (strip_items kvs) = Some (VList (map strip_unknown cs))).
  { change (strip_items kvs) with (view_items true kvs). rewrite dget_view_items by done.
    cbn in Ha. unfold dget_none in Ha. destruct (dget "CardInstances" kvs) as [w|]; [|discriminate]. by subst w. }
  by apply (update_key_ok _ _ _ _ _ Hg).
Qed.

Lemma rng_dict_parses r : from_dict SerializableRngSnapshot (_rng_to_dict r) = Ok (_rng_to_dict r).
Proof. reflexivity. Qed.

(** The payload's rng part parses to the rng with the new shuffle stream. *)
Lemma rng_payload x g r :
  from_dict RngSnapshotSet x = Ok g -> (exists d, attr "RunRng" g = VDict d /\ dmem "Shuffle" d = true) ->
  exists raw g', update_key "RunRng" (substitute_shuffle r) (strip_unknown g) = Ok raw /\
    from_dict RngSnapshotSet raw = Ok g' /\
    strip_unknown g' = strip_unknown (set_attr "RunRng" (set_attr "Shuffle" (_rng_to_dict r) (attr "RunRng" g)) g).
Proof.
  intros Hx (runs & Ha & Hm). pose proof Hx as (kvs & -> & _ & Hb)%from_dict_built.
  assert (Hin : objects_by_key "RunRng" SerializableRngSnapshot ∈ fields RngSnapshotSet) by left.
  pose proof (built_attr _ _ _ _ Hb (well_named_NoDup RngSnapshotSet eq_refl) Hin) as (rx & _ & Hr)%bind_Ok.
  cbn [field_name objects_by_key field] in Hr. rewrite Ha in *.
  destruct (stable_each_value (from_dict SerializableRngSnapshot) lawful_stable true _ _ Hr) as (v' & Hv' & Hs).
  pose proof Hv' as (d0 & [= <-] & (runs' & Hrs' & [= <-])%bind_Ok)%bind_Ok. cbn [view] in Hv'. rewrite strip_dict in Hv'.
  pose proof (each_value_set _ _ _ "Shuffle" _ _ Hv' (rng_dict_parses r)) as Hset.
  destruct (class_update RngSnapshotSet true x kvs
    [("RunRng"%string, VDict (dset "Shuffle" (_rng_to_dict r) (strip_items runs)), VDict (dset "Shuffle" (_rng_to_dict r) runs))])
    as (g' & Hg' & Hsg); [done|done| |].
  { repeat constructor; [done|]. eexists (each_value (from_dict SerializableRngSnapshot)), _, _. split; [left|]. split; [exact Hset|].
    cbn [fst snd]. rewrite !strip_dict, !strip_items_dset by done. rewrite !strip_dict in Hs. injection Hs as Hs. by rewrite Hs. }
  eexists _, g'. split; [|split; [exact Hg'|exact Hsg]]. rewrite strip_dict.
  assert (Hg : dget "RunRng" (strip_items kvs) = Some (VDict (strip_items runs))).
  { change (strip_items kvs) with (view_items true kvs). rewrite dget_view_items by done.
    cbn in Ha. unfold dget_none in Ha. destruct (dget "RunRng" kvs) as [w|]; [|discriminate]. subst w. cbn [fmap option_fmap option_map].
    by rewrite <- strip_dict. }
  apply (update_key_ok _ _ _ _ _ Hg). unfold substitute_shuffle. cbn [py_contains mbind Res_bind].
  assert (Hm' : dmem "Shuffle" (strip_items runs) = true).
  { unfold dmem in *. change (strip_items runs) with (view_items true runs). rewrite dget_view_items by done.
    by destruct (dget "Shuffle" runs). }
  rewrite Hm'. reflexivity.
Qed.

Lemma pile_ids s cards :
  NoDup (map instance_id_of (card_instances s)) -> cards ≡ₚ draw_pile s -> NoDup (map instance_id_of cards).
Proof.
  intros Hids Hp. rewrite (Permutation_map instance_id_of Hp). unfold draw_pile, cards_in_zone.
  rewrite (Permutation_map instance_id_of (sort_by_Permutation _ _)). by apply NoDup_map_filter.
Qed.

(** Materializing a hypothesis whose concrete cards are known. *)
Lemma derive_exact v s h pinned cards :
  parse_snapshot v = Ok s -> string_cards s ->
  (exists d, attr "RunRng" (attr "Rng" s) = VDict d /\ dmem "Shuffle" d = true) ->
  _draw_pile_instances_for_hypothesis s (ordered_draw_pile_card_ids h) pinned = Ok cards -> cards ≡ₚ draw_pile s ->
  exists s', derive_substituted_snapshot s h pinned = Ok s' /\
    strip_unknown s' = strip_unknown (with_cards cards (with_shuffle (rng h) s)).
Proof.
  intros Hp [Hstr Hids] Hshuffle Hcards Hperm. pose proof Hp as (kvs & -> & _ & Hb)%from_dict_built.
  destruct (parsed_object CombatStateSnapshot _ _ "Rng" RngSnapshotSet eq_refl Hp) as (gx & Hgx).
  { apply (list_elem_of_lookup_2 _ 7%nat). reflexivity. }
  destruct (parsed_object CombatStateSnapshot _ _ "Player" PlayerSnapshot eq_refl Hp) as (px & Hpx).
  { apply (list_elem_of_lookup_2 _ 1%nat). reflexivity. }
  set (s := VDict kvs) in *.
  destruct (rng_payload _ _ (rng h) Hgx Hshuffle) as (graw & g' & Hgraw & Hg' & Hgs).
  assert (Hsub : forall c, c ∈ cards -> c ∈ card_instances s).
  { intros c Hc. rewrite Hperm in Hc. by apply draw_pile_cards in Hc as [Hc _]. }
  destruct (player_payload _ _ cards Hpx) as (praw & p' & Hpraw & Hp' & Hps).
  { eapply Forall_impl; [exact Hstr|]. by intros c []. }
  { by eapply pile_ids. }
  { exact Hsub. }
  set (yg := set_attr "RunRng" (set_attr "Shuffle" (_rng_to_dict (rng h)) (attr "RunRng" (attr "Rng" s))) (attr "Rng" s)) in *.
  set (yp := set_attr "CardInstances" (VList (map (placed cards) (elems (attr "CardInstances" (attr "Player" s))))) (attr "Player" s)) in *.
  destruct (class_update CombatStateSnapshot true v kvs [("Player"%string, praw, yp); ("Rng"%string, graw, yg)])
    as (s' & Hs' & Hss); [done|done| |].
  { repeat constructor; try done.
    - eexists (from_dict PlayerSnapshot), _, p'. split; [|done]. apply (list_elem_of_lookup_2 _ 1%nat). reflexivity.
    - eexists (from_dict RngSnapshotSet), _, g'. split; [|done]. apply (list_elem_of_lookup_2 _ 7%nat). reflexivity. }
  exists s'. split.
  - assert (Hkeys : forall i k, map field_name (fields CombatStateSnapshot) !! i = Some k -> k ∈ dkeys kvs).
    { intros i k Hi. rewrite (build_names _ _ _ Hb). by eapply list_elem_of_lookup_2. }
    unfold derive_substituted_snapshot, _snapshot_plain_dict.
    change (strip_unknown s) with (VDict (strip_items kvs)).
    rewrite (update_key_ok "Rng" _ _ _ _ (dget_plain "Rng" kvs (Hkeys 7%nat _ eq_refl) ltac:(done)) Hgraw).
    cbn [mbind Res_bind]. rewrite Hcards. cbn [mbind Res_bind].
    rewrite (update_key_ok "Player" _ (dset "Rng" graw (strip_items kvs)) _ _
      (eq_trans (dget_dset_ne "Player" "Rng" _ _ ltac:(done)) (dget_plain "Player" kvs (Hkeys 1%nat _ eq_refl) ltac:(done))) Hpraw).
    cbn [mbind Res_bind]. exact Hs'.
  - rewrite Hss. unfold with_cards, card_instances.
    assert (E : attr "Player" (with_shuffle (rng h) s) = attr "Player" s) by (unfold with_shuffle; by rewrite attr_set_ne).
    rewrite E. reflexivity.
Qed.

(** ** The draw pile of the substituted snapshot *)

Definition in_pile (c : pyval) : bool := py_eqb (attr "Zone" c) (VStr "draw_pile").
Definition pile_leb (x y : pyval) : bool := pile_index x <=? pile_index y.
Lemma pile_total x y : pile_leb x y = true \/ pile_leb y x = true.
Proof. unfold pile_leb. lia. Qed.
Lemma pile_trans x y z : pile_leb x y = true -> pile_leb y z = true -> pile_leb x z = true.
Proof. unfold pile_leb. lia. Qed.
Lemma draw_pile_eq s : draw_pile s = sort_by pile_leb (List.filter in_pile (card_instances s)).
Proof. reflexivity. Qed.

Lemma in_pile_strip c : in_pile (strip_unknown c) = in_pile c.
Proof. unfold in_pile. rewrite attr_strip by done. by destruct (attr "Zone" c). Qed.
Lemma pile_index_strip c : pile_index (strip_unknown c) = pile_index c.
Proof. unfold pile_index. rewrite attr_strip by done. by destruct (attr "PileIndex" c). Qed.
Lemma pile_strip cs : map strip_unknown (sort_by pile_leb (List.filter in_pile cs)) =
  sort_by pile_leb (List.filter in_pile (map strip_unknown cs)).
Proof.
  rewrite (sort_by_map strip_unknown pile_leb pile_leb).
  2:{ intros x y. unfold pile_leb. by rewrite !pile_index_strip. }
  f_equal. induction cs as [|c cs IH]; [done|]. cbn. rewrite in_pile_strip. destruct (in_pile c); cbn; by rewrite IH.
Qed.

Lemma sort_by_id {A} (le : A -> A -> bool) l : StronglySorted (fun x y => le x y = true) l -> sort_by le l = l.
Proof.
  induction 1 as [|x l Hs IH Hx]; [done|]. cbn [sort_by]. rewrite IH. destruct l as [|y l]; [done|].
  cbn. apply Forall_inv in Hx. by rewrite Hx.
Qed.

Definition is_card (c : pyval) : Prop := is_dict c = true.
Lemma placed_in_pile n c : is_card c -> in_pile (place_card n c) = true.
Proof.
  unfold is_card. destruct c as [| | | | | |d]; try discriminate. intros _. unfold in_pile. cbn [place_card attr].
  unfold dget_none. by rewrite dget_dset_ne, dget_dset_eq.
Qed.
Lemma placed_index n c : is_card c -> pile_index (place_card n c) = Z.of_nat n.
Proof.
  unfold is_card. destruct c as [| | | | | |d]; try discriminate. intros _. unfold pile_index. cbn [place_card attr].
  unfold dget_none. by rewrite dget_dset_eq.
Qed.
Lemma placed_attr n c k : k <> "Zone"%string -> k <> "PileIndex"%string -> attr k (place_card n c) = attr k c.
Proof.
  intros H1 H2. destruct c as [| | | | | |d]; try done. cbn [place_card attr]. unfold dget_none. by rewrite !dget_dset_ne.
Qed.

Section Pile.
Context (s : pyval) (cards : list pyval).
Context (Hids : NoDup (map instance_id_of (card_instances s))) (Hcards : cards ≡ₚ draw_pile s)
  (Hobj : Forall is_card (card_instances s)).

Lemma cards_in_pile c : c ∈ cards <-> c ∈ card_instances s /\ in_pile c = true.
Proof. rewrite Hcards. apply draw_pile_cards. Qed.
Lemma same_id c c' : c ∈ card_instances s -> c' ∈ card_instances s -> instance_id_of c = instance_id_of c' -> c = c'.
Proof.
  intros [i Hi]%list_elem_of_lookup [j Hj]%list_elem_of_lookup He. assert (i = j) as ->; [|congruence].
  eapply (NoDup_lookup (map instance_id_of (card_instances s))); [done| |];
    rewrite list_lookup_fmap; [rewrite Hi|rewrite Hj]; cbn; [reflexivity|by rewrite He].
Qed.
Lemma placed_card n c : cards !! n = Some c -> placed cards c = place_card n c.
Proof.
  intros Hn. unfold placed, dget_or. destruct (dget (instance_id_of c) (replacement_by_id cards)) as [p|] eqn:E.
  - apply dget_replacement in E as (m & c' & Hm & He & ->); [|by apply (pile_ids s)].
    assert (m = n) as ->.
    { eapply (NoDup_lookup (map instance_id_of cards)); [by apply (pile_ids s)| |];
        rewrite list_lookup_fmap; [rewrite Hm|rewrite Hn]; cbn; [by rewrite <- He|reflexivity]. }
    by simplify_eq.
  - assert (E' : dget (instance_id_of c) (replacement_by_id cards) = Some (place_card n c)).
    { apply dget_replacement; [by apply (pile_ids s)|]. by exists n, c. }
    congruence.
Qed.
Lemma placed_other c : c ∈ card_instances s -> in_pile c = false -> placed cards c = c.
Proof.
  intros Hc Hz. unfold placed, dget_or. destruct (dget (instance_id_of c) (replacement_by_id cards)) as [p|] eqn:E; [|done].
  apply dget_replacement in E as (m & c' & Hm & He & _); [|by apply (pile_ids s)]. apply list_elem_of_lookup_2 in Hm.
  apply cards_in_pile in Hm as [Hc' Hz']. rewrite (same_id c c') in Hz by done. congruence.
Qed.
Lemma placed_zone c : c ∈ card_instances s -> in_pile (placed cards c) = in_pile c.
Proof.
  intros Hc. destruct (in_pile c) eqn:E; [|by rewrite placed_other].
  assert (Hin : c ∈ cards) by by apply cards_in_pile. apply list_elem_of_lookup in Hin as [n Hn].
  rewrite (placed_card n c Hn). apply placed_in_pile. rewrite Forall_forall in Hobj. by apply Hobj.
Qed.

Lemma placed_pile :
  sort_by pile_leb (List.filter in_pile (map (placed cards) (card_instances s))) = imap place_card cards.
Proof.
  assert (Hp : List.filter in_pile (map (placed cards) (card_instances s)) ≡ₚ imap place_card cards).
  { transitivity (map (placed cards) (List.filter in_pile (card_instances s))).
    - assert (E : forall l l' : list pyval, l = l' -> l ≡ₚ l') by (by intros l l' ->). apply E. clear E. generalize placed_zone. generalize (card_instances s) as cs. clear. induction cs as [|c cs IH]; intros H; [done|].
      cbn. rewrite H by left. destruct (in_pile c); cbn; rewrite IH; auto; intros d Hd; apply H; by right.
    - assert (Hc : List.filter in_pile (card_instances s) ≡ₚ cards).
      { by rewrite Hcards, draw_pile_eq, sort_by_Permutation. }
      rewrite (Permutation_map (placed cards) Hc). assert (E : forall l l' : list pyval, l = l' -> l ≡ₚ l') by (by intros l l' ->).
      apply E, list_eq. clear E. intros n.
      rewrite list_lookup_fmap, list_lookup_imap. destruct (cards !! n) as [c|] eqn:E; [|done]. cbn. by rewrite (placed_card n c). }
  assert (Hcard : forall n c, cards !! n = Some c -> is_card c).
  { intros n c Hn%list_elem_of_lookup_2. apply cards_in_pile in Hn as [Hn _]. rewrite Forall_forall in Hobj. by apply Hobj. }
  rewrite (sort_by_unique pile_leb pile_total pile_trans _ (imap place_card cards)); [| |done].
  - apply sort_by_id. clear Hp. assert (Hgen : forall k l, (forall n c, l !! n = Some c -> is_card c) ->
      StronglySorted (fun x y => pile_leb x y = true) (imap (fun n => place_card (k + n)) l)).
    { clear. intros k l. revert k. induction l as [|c l IH]; intros k H; [constructor|]. cbn.
      assert (E : imap (fun n => place_card (k + S n)) l = imap (fun n => place_card (S k + n)) l).
      { apply imap_ext. intros i x _. f_equal. lia. }
      constructor.
      - change (StronglySorted (fun x y => pile_leb x y = true) (imap (fun n => place_card (k + S n)) l)). rewrite E.
        apply IH. intros n c' Hn. by apply (H (S n)).
      - change (Forall (fun y => pile_leb (place_card (k + 0) c) y = true) (imap (fun n => place_card (k + S n)) l)).
        apply Forall_lookup. intros i x Hi. rewrite list_lookup_imap in Hi.
        destruct (l !! i) as [c'|] eqn:El; [|discriminate]. injection Hi as <-. unfold pile_leb.
        rewrite !placed_index; [apply Z.leb_le; lia|by apply (H (S i))|by apply (H 0%nat)]. }
    exact (Hgen 0%nat cards Hcard).
  - intros x y Hx Hy H1 H2. rewrite Hp in Hx, Hy. apply list_elem_of_lookup in Hx as [n Hn], Hy as [m Hm].
    rewrite list_lookup_imap in Hn, Hm. destruct (cards !! n) as [c|] eqn:En; [|discriminate].
    destruct (cards !! m) as [c'|] eqn:Em; [|discriminate]. injection Hn as <-. injection Hm as <-.
    unfold pile_leb in H1, H2. rewrite !placed_index in H1, H2 by by eapply Hcard. assert (n = m) as -> by lia. congruence.
Qed.
End Pile.

(** ** What a materialized hypothesis keeps *)

Lemma parsed_is_card v s : parse_snapshot v = Ok s -> Forall is_card (card_instances s).
Proof.
  intros H%parsed_cards. eapply Forall_impl; [exact H|]. intros c Hc. by destruct c.
Qed.
(** The objects of a parsed snapshot. *)
Lemma parsed_parts v s : parse_snapshot v = Ok s ->
  is_dict s = true /\ is_dict (attr "Player" s) = true /\ is_dict (attr "Rng" s) = true /\
  attr "CardInstances" (attr "Player" s) = VList (card_instances s).
Proof.
  intros Hp. pose proof Hp as (d & Hd & _)%from_dict_built.
  destruct (parsed_object CombatStateSnapshot _ _ "Rng" RngSnapshotSet eq_refl Hp) as (gx & Hg).
  { apply (list_elem_of_lookup_2 _ 7%nat). reflexivity. }
  destruct (parsed_object CombatStateSnapshot _ _ "Player" PlayerSnapshot eq_refl Hp) as (px & Hpx).
  { apply (list_elem_of_lookup_2 _ 1%nat). reflexivity. }
  assert (Hin : objects "CardInstances" CardInstanceSnapshot ∈ fields PlayerSnapshot).
  { apply (list_elem_of_lookup_2 _ 11%nat). reflexivity. }
  destruct (parsed_objects PlayerSnapshot _ _ _ _ eq_refl Hpx Hin) as (xs & cs & Ha & _).
  assert (Hc : attr "CardInstances" (attr "Player" s) = VList (card_instances s)) by (unfold card_instances; by rewrite Ha).
  apply from_dict_built in Hg as (gd & Hg & _), Hpx as (pd & Hpd & _).
  split_and!; [by rewrite Hd|by rewrite Hpd|by rewrite Hg|done].
Qed.

(** The parts of a snapshot alike the substituted one. *)
Lemma substituted_player s s' r cards :
  is_dict s = true -> strip_unknown s' = strip_unknown (with_cards cards (with_shuffle r s)) ->
  strip_unknown (attr "Player" s') =
  strip_unknown (set_attr "CardInstances" (VList (map (placed cards) (card_instances s))) (attr "Player" s)).
Proof.
  intros Hd Hs. rewrite (attr_alike "Player" _ _ ltac:(done) Hs). unfold with_cards, with_shuffle, card_instances.
  rewrite attr_set_eq by by rewrite is_dict_set. by rewrite attr_set_ne.
Qed.
Lemma substituted_rng s s' r cards :
  is_dict s = true -> strip_unknown s' = strip_unknown (with_cards cards (with_shuffle r s)) ->
  strip_unknown (attr "Rng" s') =
  strip_unknown (set_attr "RunRng" (set_attr "Shuffle" (_rng_to_dict r) (attr "RunRng" (attr "Rng" s))) (attr "Rng" s)).
Proof.
  intros Hd Hs. rewrite (attr_alike "Rng" _ _ ltac:(done) Hs). unfold with_cards, with_shuffle.
  rewrite attr_set_ne by done. by rewrite attr_set_eq.
Qed.

(** The cards of the substituted snapshot. *)
Lemma substituted_cards v s s' r cards :
  parse_snapshot v = Ok s -> strip_unknown s' = strip_unknown (with_cards cards (with_shuffle r s)) ->
  map strip_unknown (card_instances s') = map strip_unknown (map (placed cards) (card_instances s)).
Proof.
  intros Hp Hs. destruct (parsed_parts _ _ Hp) as (Hd & Hpd & Hgd & Hc).
  pose proof (attr_alike "CardInstances" _ _ ltac:(done) (substituted_player s s' r cards Hd Hs)) as Hcs.
  rewrite attr_set_eq in Hcs by done.
  unfold card_instances at 1. destruct (attr "CardInstances" (attr "Player" s')); try discriminate Hcs.
  by injection Hcs as Hcs.
Qed.

Lemma card_id_alike c c' : strip_unknown c = strip_unknown c' -> is_str (attr "CardId" c') = true -> card_id_of c = card_id_of c'.
Proof.
  intros Hs (t & Ht)%is_str_eq. unfold card_id_of. by rewrite Ht, (attr_alike_str "CardId" c c' t ltac:(done) Hs Ht).
Qed.

Lemma substituted_pile v s s' r cards :
  parse_snapshot v = Ok s -> string_cards s -> cards ≡ₚ draw_pile s ->
  strip_unknown s' = strip_unknown (with_cards cards (with_shuffle r s)) ->
  map strip_unknown (draw_pile s') = map strip_unknown (imap place_card cards) /\
  map card_id_of (draw_pile s') = map card_id_of cards.
Proof.
  intros Hp [Hstr Hids] Hcards Hs.
  assert (Hmap : map strip_unknown (draw_pile s') = map strip_unknown (imap place_card cards)).
  { rewrite draw_pile_eq, pile_strip, (substituted_cards v s s' r cards Hp Hs), <- pile_strip.
    by rewrite (placed_pile s cards Hids Hcards (parsed_is_card _ _ Hp)). }
  split; [done|].
  assert (Hlen : forall l : list pyval, (forall i c, cards !! i = Some c -> is_str (attr "CardId" c) = true) ->
    map strip_unknown l = map strip_unknown (imap place_card cards) -> map card_id_of l = map card_id_of cards).
  { clear. intros l Hc Hl. apply list_eq. intros i. rewrite !list_lookup_fmap.
    apply (f_equal (fun x => x !! i)) in Hl. rewrite !list_lookup_fmap, list_lookup_imap in Hl.
    destruct (l !! i) as [x|], (cards !! i) as [c|] eqn:Ec; try discriminate Hl; [|done]. injection Hl as Hi. cbn. f_equal.
    rewrite (card_id_alike _ _ Hi); [unfold card_id_of; by rewrite placed_attr|rewrite placed_attr by done; by eapply Hc]. }
  apply Hlen; [|done]. intros i c Hi%list_elem_of_lookup_2. rewrite Hcards in Hi. apply draw_pile_cards in Hi as [Hi _].
  rewrite Forall_forall in Hstr. by apply Hstr.
Qed.

(** Cards keep all but their place, and all when they are outside the pile. *)
Lemma kept_cards s s' cards :
  NoDup (map instance_id_of (card_instances s)) -> cards ≡ₚ draw_pile s ->
  map strip_unknown (card_instances s') = map strip_unknown (map (placed cards) (card_instances s)) ->
  Forall2 (fun c' c =>
      (forall k, k ∉ ["Zone"; "PileIndex"; UNKNOWN]%string -> strip_unknown (attr k c') = strip_unknown (attr k c)) /\
      (c ∉ draw_pile s -> strip_unknown c' = strip_unknown c))
    (card_instances s') (card_instances s).
Proof.
  intros Hids Hperm Hcs. apply Forall2_same_length_lookup. split.
  { apply (f_equal length) in Hcs. by rewrite !length_map in Hcs. }
  intros i c' c Hc' Hc. apply (f_equal (fun l => l !! i)) in Hcs. rewrite !list_lookup_fmap, Hc', Hc in Hcs. injection Hcs as Hs.
  apply list_elem_of_lookup_2 in Hc.
  destruct (in_pile c) eqn:E.
  - assert (Hin : c ∈ cards) by by apply (cards_in_pile s cards Hperm). pose proof Hin as [n Hn]%list_elem_of_lookup.
    rewrite (placed_card s cards Hids Hperm n c Hn) in Hs. split; [|rewrite <- Hperm; by intros []].
    intros k Hk. rewrite (attr_alike k _ _ ltac:(set_solver) Hs). by rewrite placed_attr by set_solver.
  - rewrite (placed_other s cards Hids Hperm c Hc E) in Hs. split; [|done].
    intros k Hk. apply attr_alike; [set_solver|done].
Qed.


(** * Hypotheses and observed draws *)

Lemma remove_first_Permutation x l r : remove_first x l = Some r -> l ≡ₚ x :: r.
Proof.
  revert r. induction l as [|y l IH]; intros r; cbn; [discriminate|]. destruct (String.eqb_spec y x) as [->|].
  - by intros [= ->].
  - destruct (remove_first x l) as [r'|]; [|discriminate]. cbn. intros [= <-]. rewrite (IH _ eq_refl). apply Permutation_swap.
Qed.

(** Reordering moves the observed ids to the front. *)
Lemma reorder_exact h ks h' :
  _reorder_hypothesis_for_visible_draw_constraints h ks = Ok h' ->
  exists rest, h' = with_draw_pile h (map (fun ok => ck_id ok.2) ks ++ rest) /\
    map (fun ok => ck_id ok.2) ks ++ rest ≡ₚ ordered_draw_pile_card_ids h.
Proof.
  unfold _reorder_hypothesis_for_visible_draw_constraints. set (step := fun _ _ => _).
  assert (Hgen : forall ks st st', foldR step ks st = Ok st' ->
    st'.1 = st.1 ++ map (fun ok => ck_id ok.2) ks /\ st'.1 ++ st'.2 ≡ₚ st.1 ++ st.2).
  { clear. induction ks as [|[o key] ks IH]; intros st st'; cbn [foldR map].
    - intros [= <-]. by rewrite app_nil_r.
    - intros (st1 & H1 & H)%bind_Ok. unfold step in H1. cbn [fst snd] in H1.
      destruct (negb _); [discriminate|]. destruct (remove_first _ st.2) as [rem|] eqn:E; [|discriminate].
      injection H1 as <-. destruct (IH _ _ H) as [Ha Hb]. cbn [fst snd] in *. split.
      + by rewrite Ha, <- app_assoc.
      + rewrite Hb, <- app_assoc. cbn. by rewrite (remove_first_Permutation _ _ _ E). }
  intros (st & Hst & [= <-])%bind_Ok. destruct (Hgen _ _ _ Hst) as [Ha Hb]. cbn [fst snd app] in *.
  exists st.2. rewrite <- Ha. by split.
Qed.

Lemma derive_cards s h pinned s' : derive_substituted_snapshot s h pinned = Ok s' ->
  exists cards, _draw_pile_instances_for_hypothesis s (ordered_draw_pile_card_ids h) pinned = Ok cards.
Proof. intros (p & _ & (cards & Hc & _)%bind_Ok)%bind_Ok. by exists cards. Qed.

(** The effective order of a hypothesis in a context. *)
Lemma effective_order c h constraints effective :
  match constraints with [] => Ok h | _ => _reorder_hypothesis_for_visible_draw_constraints h constraints end = Ok effective ->
  visible_prefix (replay_prefix c) = constraints ->
  effective = with_draw_pile h (ordered_draw_pile_card_ids effective) /\
  ordered_draw_pile_card_ids effective ≡ₚ ordered_draw_pile_card_ids h /\
  take (length constraints) (ordered_draw_pile_card_ids effective) = map (fun ok => ck_id ok.2) constraints /\
  (constraints = [] -> effective = h).
Proof.
  intros He _. destruct constraints as [|ok constraints].
  - injection He as <-. by destruct h.
  - apply reorder_exact in He as (rest & -> & Hp). cbn [with_draw_pile ordered_draw_pile_card_ids rng hypothesis_index].
    split_and!; [done|done| |done].
    rewrite <- (length_map (fun ok => ck_id ok.2) (ok :: constraints)). by rewrite take_app_length.
Qed.


(** * A concrete pile *)

Definition pile_card (i id zone : string) (index : Z) : pyval :=
  VDict [("InstanceId", VStr i); ("CardId", VStr id); ("Zone", VStr zone); ("PileIndex", VInt index);
    ("HasBeenRemovedFromState", VBool false); ("Type", VStr "Skill"); ("Rarity", VStr "Common"); ("Cost", VInt 1);
    ("LocalCostModifiers", VList []); ("TemporaryStarCosts", VList []); ("TargetType", VStr "None");
    ("IsUpgraded", VBool false); ("UpgradeLevel", VInt 0); ("TinkerTimeType", VNone); ("TinkerTimeRider", VNone)]%string.
Definition snapshot_with (cards : list pyval) : pyval :=
  match demo_snapshot "e2" "e1" "complete" with
  | VDict d => VDict (dset "Player" (set_attr "CardInstances" (VList cards) (dget_none "Player" d)) d)
  | v => v
  end.
Definition pile_snapshot : pyval := snapshot_with
  [pile_card "c1" "STRIKE" "draw_pile" 0; pile_card "c2" "DEFEND" "draw_pile" 1; pile_card "c3" "STRIKE" "draw_pile" 2;
   pile_card "c4" "STRIKE" "hand" 0].
Definition pile_parsed : pyval := Eval vm_compute in parsed_or_none (parse_snapshot pile_snapshot).
Definition pile_dict : pydict := Eval vm_compute in match pile_parsed with VDict d => d | _ => [] end.
(** A pile with one order only. *)
Definition lone_pile_dict : pydict := Eval vm_compute in
  match parsed_or_none (parse_snapshot (snapshot_with [pile_card "c1" "STRIKE" "draw_pile" 0; pile_card "c4" "STRIKE" "hand" 0])) with
  | VDict d => d
  | _ => []
  end.
Definition observed_key (id : string) : ObservableCardKey :=
  {| ck_id := id; ck_type := "Skill"; ck_rarity := "Common"; ck_cost := 1; ck_target_type := "None"; ck_upgraded := false;
     ck_upgrade_level := 0; ck_tinker_type := None; ck_tinker_rider := None; ck_enchantment := None |}.
Definition demo_rng : SerializableRng :=
  {| rng_counter := 3; rng_state0 := 1; rng_state1 := 2; rng_state2 := 3; rng_state3 := 4 |}.
Definition demo_source (i : Z) : Res RngLike := Ok (RngObject demo_rng).
Definition demo_hypothesis : SearchHypothesisId :=
  {| rng := demo_rng; ordered_draw_pile_card_ids := ["STRIKE"; "STRIKE"; "DEFEND"]%string; hypothesis_index := 0 |}.

Lemma pile_parses : parse_snapshot pile_snapshot = Ok pile_parsed.
Proof. vm_compute. reflexivity. Qed.
Lemma pile_string_cards : string_cards pile_parsed.
Proof.
  split; [vm_compute; repeat constructor|].
  apply (bool_decide_unpack (NoDup (map instance_id_of (card_instances pile_parsed)))). vm_compute. exact I.
Qed.
Lemma pile_shuffle : exists d, attr "RunRng" (attr "Rng" pile_parsed) = VDict d /\ dmem "Shuffle" d = true.
Proof. eexists. split; vm_compute; reflexivity. Qed.

(** The orders and the slot CPython computes. *)
Definition belief_or_nil (r : option (Res (list SearchHypothesisId))) : list SearchHypothesisId :=
  match r with Some (Ok hs) => hs | _ => [] end.
Definition demo_belief : list SearchHypothesisId := Eval vm_compute in
  belief_or_nil (generate_belief_hypotheses 100 (compute_public_multiset pile_parsed) 2 demo_source).
Example demo_belief_orders :
  map ordered_draw_pile_card_ids demo_belief = [["STRIKE"; "DEFEND"; "STRIKE"]; ["STRIKE"; "STRIKE"; "DEFEND"]]%string.
Proof. vm_compute. reflexivity. Qed.
Example demo_slot :
  to_slot_value demo_hypothesis = "rng-hyp:v1:6b8bfe7b91e541beb10c9f8bd38beda1f17d98ca9343cd4391852505798ff4c4"%string.
Proof. vm_compute. reflexivity. Qed.

Definition demo_cards : list string := ["DEFEND"; "STRIKE"; "STRIKE"]%string.
Lemma beliefs_are_public_witness :
  0 <= 2 /\ sampler_settles 100 demo_cards (fun _ => demo_rng) 2 = true /\
  exists hs, generate_belief_hypotheses 100 (compute_public_multiset pile_parsed) 2 demo_source = Some (Ok hs) /\
    Forall2 (fun i h => hypothesis_index h = i /\ rng h = demo_rng /\
       ordered_draw_pile_card_ids h ≡ₚ map card_id_of (draw_pile pile_parsed)) (indices_below 2) hs /\
    forall s', map card_id_of (draw_pile s') ≡ₚ map card_id_of (draw_pile pile_parsed) ->
      generate_belief_hypotheses 100 (compute_public_multiset s') 2 demo_source = Some (Ok hs).
Proof.
  assert (Hc : _canonical_cards_from_multiset (compute_public_multiset pile_parsed) = Ok demo_cards) by (vm_compute; reflexivity).
  assert (Hs : sampler_settles 100 demo_cards (fun _ => demo_rng) 2 = true) by (vm_compute; reflexivity).
  split; [lia|]. split; [exact Hs|].
  exact (beliefs_are_public 100 pile_parsed 2 (fun _ => demo_rng) demo_source demo_cards ltac:(lia) Hc (fun _ => eq_refl) Hs).
Defined.

Lemma pile_ids_distinct : NoDup (map instance_id_of (draw_pile pile_parsed)).
Proof. apply (bool_decide_unpack (NoDup (map instance_id_of (draw_pile pile_parsed)))). vm_compute. exact I. Qed.
Lemma draw_pile_materialization_witness :
  NoDup (map instance_id_of (draw_pile pile_parsed)) /\
  (forall cards, _draw_pile_instances_for_hypothesis pile_parsed ["DEFEND"; "STRIKE"; "STRIKE"]%string [(0, observed_key "DEFEND")] = Ok cards ->
     cards ≡ₚ draw_pile pile_parsed /\ map card_id_of cards = ["DEFEND"; "STRIKE"; "STRIKE"]%string /\
     Forall (fun ok => exists card, cards !! Z.to_nat ok.1 = Some card /\ observes ok.2 card = true) [(0, observed_key "DEFEND")]) /\
  ((exists cards, _draw_pile_instances_for_hypothesis pile_parsed ["DEFEND"; "STRIKE"; "STRIKE"]%string [] = Ok cards) <->
     ["DEFEND"; "STRIKE"; "STRIKE"]%string ≡ₚ map card_id_of (draw_pile pile_parsed)).
Proof.
  split; [exact pile_ids_distinct|].
  exact (draw_pile_materialization pile_parsed ["DEFEND"; "STRIKE"; "STRIKE"]%string [(0, observed_key "DEFEND")] pile_ids_distinct).
Defined.

Definition first_strike : pyval := Eval vm_compute in default VNone (draw_pile pile_parsed !! 0%nat).
Definition second_strike : pyval := Eval vm_compute in default VNone (draw_pile pile_parsed !! 2%nat).
Lemma strike_in_pile i c : draw_pile pile_parsed !! i = Some c -> c ∈ draw_pile pile_parsed.
Proof. apply list_elem_of_lookup_2. Qed.
Lemma pinned_copies_refused_witness :
  observes (observed_key "STRIKE") first_strike = true /\ observes (observed_key "STRIKE") second_strike = true /\
  exists e, _draw_pile_instances_for_hypothesis pile_parsed ["STRIKE"; "STRIKE"; "DEFEND"]%string [(0, observed_key "STRIKE")] = Raise e.
Proof.
  assert (H1 : observes (observed_key "STRIKE") first_strike = true) by (vm_compute; reflexivity).
  assert (H2 : observes (observed_key "STRIKE") second_strike = true) by (vm_compute; reflexivity).
  split; [exact H1|]. split; [exact H2|].
  refine (pinned_copies_refused pile_snapshot pile_parsed _ 0 (observed_key "STRIKE") first_strike second_strike pile_parses _ _ H1 H2 _).
  - apply (strike_in_pile 0). vm_compute. reflexivity.
  - apply (strike_in_pile 2). vm_compute. reflexivity.
  - intros E. vm_compute in E. discriminate E.
Defined.

Definition demo_concrete : list pyval := Eval vm_compute in
  match _draw_pile_instances_for_hypothesis pile_parsed ["STRIKE"; "STRIKE"; "DEFEND"]%string [] with Ok l => l | _ => [] end.

(** A replay prefix that was seen to draw the defend. *)
Definition evidence_context : DecisionContext :=
  {| root_snapshot := SnapshotRoot pile_dict;
     replay_prefix := [{| entry_semantic_action := {| action_type := VStr "card"; semantic_key := VStr "STRIKE" |};
       expected_signature := current_context_signature demo_context; entry_target_index := None;
       entry_target_enemy_index := None; visible_draw_constraints := [(0, observed_key "DEFEND")];
       visible_draw_tracking_blocked := false; visible_draw_tracking_error := None |}];
     plan_path := []; current_decision_result := current_decision_result demo_context;
     current_context_signature := current_context_signature demo_context; search_hypothesis_id := None |}.
Definition evidence_applied : DecisionContext := Eval vm_compute in
  match apply_hypothesis_to_context evidence_context demo_hypothesis with Ok c => c | Raise _ => evidence_context end.

Definition demo_roots : list CombatStartDerivedReplayRoot := Eval vm_compute in
  match derive_combat_start_replay_roots [("seed"%string, VInt 7)] 2 with Ok l => l | Raise _ => [] end.
Lemma combat_start_roots_exact_witness :
  (-1 < 0 /\ derive_combat_start_replay_roots [("seed"%string, VInt 7)] (-1) = Raise (value_error "count must be non-negative")) /\
  derive_combat_start_replay_roots [("seed"%string, VInt 7)] 2 = Ok demo_roots /\ length demo_roots = Z.to_nat 2.
Proof.
  assert (H : derive_combat_start_replay_roots [("seed"%string, VInt 7)] 2 = Ok demo_roots) by (vm_compute; reflexivity).
  split; [split; [lia|apply combat_start_roots_exact; lia]|]. split; [exact H|].
  destruct (proj2 (combat_start_roots_exact [("seed"%string, VInt 7)] 2) _ H) as (seed & _ & Hl & _). exact Hl.
Defined.

Definition passed : ConsumeCheckResult := Eval vm_compute in
  match consume_check (DictCandidate [("action_type", VStr "system")]%string) demo_context HYPOTHESIS_MODE_STANDARD false with
  | Ok r => r | Raise _ => {| consume_kind := ""; consume_mode := None; consume_reason := "" |} end.
Lemma consume_gate_conservative_witness :
  consume_check (DictCandidate [("action_type", VStr "system")]%string) demo_context HYPOTHESIS_MODE_STANDARD false = Ok passed /\
  (requires_hypothesis passed = false <->
    ~ (replay_prefix demo_context <> [] /\ search_hypothesis_id demo_context <> None) /\
    _candidate_action_type (DictCandidate [("action_type", VStr "system")]%string) ∈ ["system"; "choice_confirm"; "choice_skip"]%string /\
    _candidate_card_id (DictCandidate [("action_type", VStr "system")]%string) = Ok None).
Proof.
  assert (H : consume_check (DictCandidate [("action_type", VStr "system")]%string) demo_context HYPOTHESIS_MODE_STANDARD false = Ok passed)
    by (vm_compute; reflexivity).
  split; [exact H|exact (consume_gate_conservative _ _ _ _ H)].
Defined.
