(* ===== verification/Faults.v ===== *)
(** The fault taxonomy and the commit aggregation of Combat search
    (Combat/search/fault_taxonomy.py): classification of worker faults, worker
    reuse and retry decisions, decision-log entries, aggregation of a round's
    final entries per root action, and the commit decision. *)

From S2P Require Export MainLoop Leases.

Definition FAULT_VALIDATION_REJECTION : string := "validation_rejection".
Definition FAULT_REPLAY_MISMATCH : string := "replay_mismatch".
Definition FAULT_POST_TEARDOWN_RESTORE_FAILURE : string := "post_teardown_restore_failure".
Definition FAULT_ACTION_FAULT : string := "action_fault".
Definition FAULT_TASK_TIMEOUT : string := "task_timeout".
Definition FAULT_WORKER_PROCESS_CRASH : string := "worker_process_crash".
Definition FAULT_DEPTH_CAP_EXCEEDED : string := "depth_cap_exceeded".
Definition FAULT_ZERO_CANDIDATES : string := "zero_candidates".
Definition FAULT_SNAPSHOT_MOVE_MISSING : string := "snapshot_restore_missing_monster_move".

Definition BRANCH_FAULT_KINDS : list string :=
  [FAULT_VALIDATION_REJECTION; FAULT_REPLAY_MISMATCH; FAULT_POST_TEARDOWN_RESTORE_FAILURE;
   FAULT_ACTION_FAULT; FAULT_TASK_TIMEOUT; FAULT_WORKER_PROCESS_CRASH; FAULT_DEPTH_CAP_EXCEEDED;
   FAULT_ZERO_CANDIDATES; FAULT_SNAPSHOT_MOVE_MISSING].

Definition SRC_MAIN_STEP : string := "main_step".
Definition SRC_MAIN_INVARIANT : string := "main_invariant".
Definition MAIN_FAULT_SOURCES : list string := [SRC_MAIN_STEP; SRC_MAIN_INVARIANT].

Definition REUSE_SAFE : string := "reuse_safe".
Definition FORCE_RESTART : string := "force_restart".

Definition WORK_ITEM_RUNNING : string := "Running".
Definition WORK_ITEM_RETRYING : string := "Retrying".
Definition WORK_ITEM_FINAL_SUCCESS : string := "FinalSuccess".
Definition WORK_ITEM_FINAL_FAULT : string := "FinalFault".
Definition WORK_ITEM_FINAL_STATES : list string := [WORK_ITEM_FINAL_SUCCESS; WORK_ITEM_FINAL_FAULT].
Definition WORK_ITEM_STATES : list string :=
  [WORK_ITEM_RUNNING; WORK_ITEM_RETRYING; WORK_ITEM_FINAL_SUCCESS; WORK_ITEM_FINAL_FAULT].

Definition DECISION_LOG_STATUS_SUCCESS : string := "success".
Definition DECISION_LOG_STATUS_VALIDATION_REJECTED : string := "validation_rejected".
Definition DECISION_LOG_STATUS_REPLAY_MISMATCH : string := "replay_mismatch".
Definition DECISION_LOG_STATUS_ACTION_FAULT : string := "action_fault".
Definition DECISION_LOG_STATUS_TIMEOUT : string := "timeout".
Definition DECISION_LOG_STATUS_COVERAGE_FAILED : string := "coverage_failed".
Definition DECISION_LOG_STATUS_DIAGNOSTIC_ONLY : string := "diagnostic_only".

Definition _FAULT_BY_EXCEPTION_TYPE : list (string * string) :=
  [("SnapshotRestoreRejectedError"%string, FAULT_VALIDATION_REJECTION);
   ("SnapshotRestoreFailedError"%string, FAULT_POST_TEARDOWN_RESTORE_FAILURE);
   ("SnapshotRestoreMissingMoveError"%string, FAULT_SNAPSHOT_MOVE_MISSING);
   ("ActionExecutionError"%string, FAULT_ACTION_FAULT);
   ("FaultedCombatSessionError"%string, FAULT_ACTION_FAULT);
   ("QuiescentBoundaryViolation"%string, FAULT_ACTION_FAULT);
   ("TimeoutError"%string, FAULT_TASK_TIMEOUT);
   ("NoViableCandidates"%string, FAULT_ZERO_CANDIDATES)].

Definition _FAULT_BY_DIAGNOSTIC_KIND : list (string * string) :=
  [("validation_rejection"%string, FAULT_VALIDATION_REJECTION);
   ("snapshot_restore_rejected"%string, FAULT_VALIDATION_REJECTION);
   ("SnapshotRestoreRejectedError"%string, FAULT_VALIDATION_REJECTION);
   ("replay_mismatch"%string, FAULT_REPLAY_MISMATCH);
   ("post_teardown_restore_failure"%string, FAULT_POST_TEARDOWN_RESTORE_FAILURE);
   ("snapshot_restore_failed"%string, FAULT_POST_TEARDOWN_RESTORE_FAILURE);
   ("SnapshotRestoreFailedError"%string, FAULT_POST_TEARDOWN_RESTORE_FAILURE);
   (FAULT_SNAPSHOT_MOVE_MISSING, FAULT_SNAPSHOT_MOVE_MISSING);
   ("SnapshotRestoreMissingMoveError"%string, FAULT_SNAPSHOT_MOVE_MISSING);
   ("action_fault"%string, FAULT_ACTION_FAULT);
   ("worker_exception"%string, FAULT_ACTION_FAULT);
   ("task_timeout"%string, FAULT_TASK_TIMEOUT);
   ("timeout"%string, FAULT_TASK_TIMEOUT);
   ("worker_process_crash"%string, FAULT_WORKER_PROCESS_CRASH);
   ("process_crash"%string, FAULT_WORKER_PROCESS_CRASH);
   ("depth_cap_exceeded"%string, FAULT_DEPTH_CAP_EXCEEDED);
   ("zero_candidates"%string, FAULT_ZERO_CANDIDATES);
   ("no_viable_candidates"%string, FAULT_ZERO_CANDIDATES)].

Definition _DECISION_LOG_STATUS_BY_FAULT : list (string * string) :=
  [(FAULT_VALIDATION_REJECTION, DECISION_LOG_STATUS_VALIDATION_REJECTED);
   (FAULT_REPLAY_MISMATCH, DECISION_LOG_STATUS_REPLAY_MISMATCH);
   (FAULT_ACTION_FAULT, DECISION_LOG_STATUS_ACTION_FAULT);
   (FAULT_TASK_TIMEOUT, DECISION_LOG_STATUS_TIMEOUT);
   (FAULT_POST_TEARDOWN_RESTORE_FAILURE, DECISION_LOG_STATUS_DIAGNOSTIC_ONLY);
   (FAULT_WORKER_PROCESS_CRASH, DECISION_LOG_STATUS_DIAGNOSTIC_ONLY);
   (FAULT_DEPTH_CAP_EXCEEDED, DECISION_LOG_STATUS_DIAGNOSTIC_ONLY);
   (FAULT_ZERO_CANDIDATES, DECISION_LOG_STATUS_COVERAGE_FAILED);
   (FAULT_SNAPSHOT_MOVE_MISSING, DECISION_LOG_STATUS_VALIDATION_REJECTED)].

(** * Classification *)

(** [v in table], then [table[str(v)]]. *)
Definition in_table (table : list (string * string)) (v : pyval) : Res (option string) :=
  _ ← hashable v;
  Ok (match v with VStr s => dget s table | _ => None end).

(** [classify_fault] on a worker's diagnostics. *)
Definition classify_fault (diag : pydict) : Res string :=
  let fault_kind := dget_none "fault_kind" diag in
  let exception_type := dget_none "exception_type" diag in
  by_type ← in_table _FAULT_BY_EXCEPTION_TYPE exception_type;
  match by_type with
  | Some kind => Ok kind
  | None =>
      by_kind ← in_table _FAULT_BY_DIAGNOSTIC_KIND fault_kind;
      match by_kind with
      | Some mapped =>
          if String.eqb mapped FAULT_ACTION_FAULT &&
             (veq_str exception_type "SnapshotRestoreRejectedError" ||
              veq_str exception_type "SnapshotRestoreFailedError")
          then match dget (py_str exception_type) _FAULT_BY_EXCEPTION_TYPE with
               | Some kind => Ok kind
               | None => Raise (PyExc "KeyError" (repr_str (py_str exception_type)))
               end
          else Ok mapped
      | None =>
          if truthy exception_type then
            Ok (match dget (py_str exception_type) _FAULT_BY_EXCEPTION_TYPE with
                | Some kind => kind
                | None => FAULT_ACTION_FAULT
                end)
          else Raise (PyExc "ValueError"
                 ("cannot classify diagnostics without fault_kind/exception_type: " +:+ py_repr (VDict diag)))
      end
  end.

(** The other objects [classify_fault] is given: an exception (with its
    [repr]) or the pipeline's [NoViableCandidates]. *)
Inductive FaultObject :=
  | RaisedException (e : pyexn) (repr : string)
  | NoViableCandidatesObject.

Definition _FAULT_BY_EXCEPTION_CLASS : list (string * string) :=
  [("SnapshotRestoreRejectedError"%string, FAULT_VALIDATION_REJECTION);
   ("SnapshotRestoreFailedError"%string, FAULT_POST_TEARDOWN_RESTORE_FAILURE);
   ("SnapshotRestoreMissingMoveError"%string, FAULT_SNAPSHOT_MOVE_MISSING);
   ("ActionExecutionError"%string, FAULT_ACTION_FAULT);
   ("FaultedCombatSessionError"%string, FAULT_ACTION_FAULT);
   ("QuiescentBoundaryViolation"%string, FAULT_ACTION_FAULT);
   ("TimeoutError"%string, FAULT_TASK_TIMEOUT)].

Definition classify_fault_object (o : FaultObject) : Res string :=
  match o with
  | NoViableCandidatesObject => Ok FAULT_ZERO_CANDIDATES
  | RaisedException e repr =>
      match dget (exn_class e) _FAULT_BY_EXCEPTION_CLASS with
      | Some kind => Ok kind
      | None =>
          match exn_fault_kind e with
          | Some k => if str_in k BRANCH_FAULT_KINDS then Ok k
                      else Raise (PyExc "ValueError" ("cannot classify fault object " +:+ repr))
          | None => Raise (PyExc "ValueError" ("cannot classify fault object " +:+ repr))
          end
      end
  end.

Definition worker_reuse_policy (fault_kind : string) : Res string :=
  if String.eqb fault_kind FAULT_VALIDATION_REJECTION then Ok REUSE_SAFE
  else if str_in fault_kind BRANCH_FAULT_KINDS then Ok FORCE_RESTART
  else if str_in fault_kind MAIN_FAULT_SOURCES then
    Raise (PyExc "ValueError" (repr_str fault_kind +:+ " is a Main fault source, not a Branch Worker fault"))
  else Raise (PyExc "ValueError" ("unknown branch fault kind " +:+ repr_str fault_kind)).

(** * Attempts and retries *)

Record WorkItemAttempt := {
  at_work_id : string;
  attempt_count : Z;
  at_state : string;
  at_worker_generation : Z;
}.

(** [WorkItemAttempt.__post_init__]. *)
Definition attempt_check (a : WorkItemAttempt) : Res WorkItemAttempt :=
  if negb (str_in (at_state a) WORK_ITEM_STATES)
  then Raise (PyExc "ValueError" ("unknown WorkItem state " +:+ repr_str (at_state a)))
  else if attempt_count a <? 0 then Raise (PyExc "ValueError" "attempt_count must be non-negative")
  else if at_worker_generation a <=? 0 then Raise (PyExc "ValueError" "worker_generation must be positive")
  else Ok a.

Record RetryDecision := {
  next_state : string;
  policy : string;
  should_retry : bool;
  rd_worker_generation : Z;
  rd_attempt_count : Z;
}.

Definition decide_retry (attempt : WorkItemAttempt) (fault_kind : string) (max_retries : Z) :
    Res RetryDecision :=
  if max_retries <? 0 then Raise (PyExc "ValueError" "max_retries must be non-negative")
  else if negb (str_in (at_state attempt) [WORK_ITEM_RUNNING; WORK_ITEM_RETRYING])
  then Raise (PyExc "ValueError" ("cannot retry from final WorkItem state " +:+ repr_str (at_state attempt)))
  else
    policy ← worker_reuse_policy fault_kind;
    let next_attempt_count := attempt_count attempt + 1 in
    let should_retry := next_attempt_count <=? max_retries in
    Ok {| next_state := if should_retry then WORK_ITEM_RETRYING else WORK_ITEM_FINAL_FAULT;
          policy := policy; should_retry := should_retry;
          rd_worker_generation := if String.eqb policy FORCE_RESTART
                                  then at_worker_generation attempt + 1
                                  else at_worker_generation attempt;
          rd_attempt_count := next_attempt_count |}.

Record DepthCapExceeded := { current_depth : Z; max_depth : Z }.

Definition depth_cap_fault (current max : Z) : Res (option DepthCapExceeded) :=
  if max <=? 0 then Raise (PyExc "ValueError" "max_depth must be positive")
  else if current <? 0 then Raise (PyExc "ValueError" "current_depth must be non-negative")
  else if max <=? current then Ok (Some {| current_depth := current; max_depth := max |})
  else Ok None.

Record MainCombatFaultOutcome := {
  fault_source : string;
  mcf_detail : string;
  mcf_diagnostics : pydict;
}.
Definition main_fault_check (o : MainCombatFaultOutcome) : Res MainCombatFaultOutcome :=
  if str_in (fault_source o) MAIN_FAULT_SOURCES then Ok o
  else Raise (PyExc "ValueError" ("unknown Main fault source " +:+ repr_str (fault_source o))).

(** * Decision-log entries *)

Record BranchDecisionLogEntry := {
  log_status : string;
  root_action_key : string;
  log_hypothesis_id : option string;
  log_plan_path : list ReplayPrefixEntry;
  replay_prefix_digest : string;
  log_work_id : string;
  work_item_state : string;
  log_score : option spec_float;
  log_semantic_action : option SemanticAction;
  log_target_index : option Z;
  log_target_enemy_index : option Z;
  log_expected_signature : option DecisionSignature;
  log_result_signature : option DecisionSignature;
  log_fault_kind : option string;
  log_diagnostics : pydict;
}.

(** [BranchDecisionLogEntry.__post_init__]. *)
Definition log_entry_check (e : BranchDecisionLogEntry) : Res BranchDecisionLogEntry :=
  if negb (str_in (work_item_state e) WORK_ITEM_STATES)
  then Raise (PyExc "ValueError" ("unknown WorkItem state " +:+ repr_str (work_item_state e)))
  else if String.eqb (work_item_state e) WORK_ITEM_FINAL_SUCCESS && negb (is_some (log_score e))
  then Raise (PyExc "ValueError" "FinalSuccess log entries require score")
  else Ok e.

Definition _digest (payload : pyval) (length : nat) : string :=
  String.substring 0 length (sha256_hex (json_dumps true payload)).

Definition _semantic_action_key (action : SemanticAction) (target_index target_enemy_index : option Z) : string :=
  _digest (VDict [("action_type", action_type action); ("semantic_key", semantic_key action);
                  ("target_index", opt_json VInt target_index);
                  ("target_enemy_index", opt_json VInt target_enemy_index)]) 20.

(** [dataclasses.asdict] of a replay-prefix entry, tuples as JSON arrays. *)
Definition card_key_json (k : ObservableCardKey) : pyval :=
  VList [VStr (ck_id k); VStr (ck_type k); VStr (ck_rarity k); VInt (ck_cost k); VStr (ck_target_type k);
         VBool (ck_upgraded k); VInt (ck_upgrade_level k); opt_json VStr (ck_tinker_type k);
         opt_json VStr (ck_tinker_rider k);
         opt_json (fun e => VList [VStr e.1.1; VInt e.1.2; VStr e.2]) (ck_enchantment k)].
Definition entry_asdict (e : ReplayPrefixEntry) : pyval :=
  VDict [("semantic_action", semantic_action_json (entry_semantic_action e));
         ("expected_signature", signature_json (expected_signature e));
         ("target_index", opt_json VInt (entry_target_index e));
         ("target_enemy_index", opt_json VInt (entry_target_enemy_index e));
         ("visible_draw_constraints",
           VList (map (fun c => VList [VInt c.1; card_key_json c.2]) (visible_draw_constraints e)));
         ("visible_draw_tracking_blocked", VBool (visible_draw_tracking_blocked e));
         ("visible_draw_tracking_error", opt_json VStr (visible_draw_tracking_error e))].
Definition _replay_prefix_digest (entries : list ReplayPrefixEntry) : string :=
  _digest (VList (map entry_asdict entries)) 16.

(** [work_item_state=None] takes the state the result's status stands for. *)
Definition to_decision_log_entry (w : WorkItem) (r : BranchResult) (state : option string) :
    Res BranchDecisionLogEntry :=
  if negb (String.eqb (work_id (work_item r)) (work_id w))
  then Raise (PyExc "ValueError" "BranchResult does not correspond to the supplied WorkItem")
  else
    let state := match state with
                 | Some s => s
                 | None => if String.eqb (status r) BRANCH_STATUS_SUCCESS
                           then WORK_ITEM_FINAL_SUCCESS else WORK_ITEM_FINAL_FAULT
                 end in
    if negb (str_in state WORK_ITEM_STATES)
    then Raise (PyExc "ValueError" ("unknown WorkItem state " +:+ repr_str state))
    else
      let candidate := wi_candidate w in
      outcome ← (if String.eqb (status r) BRANCH_STATUS_SUCCESS
                 then Ok (DECISION_LOG_STATUS_SUCCESS, Some (ref_score candidate), None)
                 else if String.eqb (status r) BRANCH_STATUS_FAULT then
                   fault_kind ← classify_fault (diagnostics r);
                   match dget fault_kind _DECISION_LOG_STATUS_BY_FAULT with
                   | Some st => Ok (st, None, Some fault_kind)
                   | None => Raise (PyExc "KeyError" (repr_str fault_kind))
                   end
                 else Raise (PyExc "ValueError" ("unknown BranchResult status " +:+ repr_str (status r))));
      log_entry_check
        {| log_status := outcome.1.1;
           root_action_key := _semantic_action_key (ref_semantic_action candidate)
                                (ref_target_index candidate) (ref_target_enemy_index candidate);
           log_hypothesis_id := wi_hypothesis w;
           log_plan_path := plan_path (wi_decision_context w);
           replay_prefix_digest := _replay_prefix_digest (replay_prefix (wi_decision_context w));
           log_work_id := work_id w; work_item_state := state; log_score := outcome.1.2;
           log_semantic_action := Some (ref_semantic_action candidate);
           log_target_index := ref_target_index candidate;
           log_target_enemy_index := ref_target_enemy_index candidate;
           log_expected_signature := None; log_result_signature := result_signature r;
           log_fault_kind := outcome.2; log_diagnostics := diagnostics r |}.

(** * Aggregation *)

Record RootActionAggregation := {
  agg_root_action_key : string;
  aggregate_score : spec_float;
  representative_entry : BranchDecisionLogEntry;
  valid_sample_count : Z;
  total_hypotheses : Z;
  missing_sample_count : Z;
  filled_score : option spec_float;
}.

Record AggregationResult := {
  viable_actions : list RootActionAggregation;
  best_action : option RootActionAggregation;
  agg_diagnostics : pydict;
}.

Definition has_viable_action (a : AggregationResult) : bool := is_some (best_action a).

Definition is_final (e : BranchDecisionLogEntry) : bool := str_in (work_item_state e) WORK_ITEM_FINAL_STATES.

Definition _require_final_entries (entries : list BranchDecisionLogEntry) : Res unit :=
  match List.filter (fun e => negb (is_final e)) entries with
  | [] => Ok tt
  | non_final => Raise (PyExc "ValueError" ("aggregation accepts only FinalSuccess/FinalFault entries; non-final=" +:+
                   py_repr (VList (map (fun e => VStr (log_work_id e)) non_final))))
  end.

Definition is_success (e : BranchDecisionLogEntry) : bool :=
  String.eqb (work_item_state e) WORK_ITEM_FINAL_SUCCESS && String.eqb (log_status e) DECISION_LOG_STATUS_SUCCESS.
Definition _success_entries (entries : list BranchDecisionLogEntry) : list BranchDecisionLogEntry :=
  List.filter is_success entries.

(** [float(entry.score)]. *)
Definition float_score (e : BranchDecisionLogEntry) : Res spec_float :=
  match log_score e with
  | Some f => Ok f
  | None => Raise (PyExc "TypeError" "float() argument must be a string or a real number, not 'NoneType'")
  end.

(** Comparison of key tuples: the first component that differs decides. *)
Definition str_ltb (s t : string) : bool := negb (String.leb t s).
Definition scored_lt {B} (tie_lt : B -> B -> bool) (x y : spec_float * B) : bool :=
  if f_eqb x.1 y.1 then tie_lt x.2 y.2 else f_ltb x.1 y.1.
Definition pair_lt (x y : string * string) : bool :=
  if String.eqb x.1 y.1 then str_ltb x.2 y.2 else str_ltb x.1 y.1.

(** [min] and [max(key=...)]: the first extreme element. *)
Definition py_min_float (xs : list spec_float) : option spec_float :=
  match xs with
  | [] => None
  | x :: rest => Some (foldl (fun m y => if f_ltb y m then y else m) x rest)
  end.
Definition py_max_by {A K} (lt : K -> K -> bool) (keyed : list (K * A)) : option A :=
  match keyed with
  | [] => None
  | x :: rest => Some (foldl (fun m y => if lt m.1 y.1 then y else m) x rest).2
  end.

(** Entries of each root action by hypothesis, the best score of duplicates. *)
Definition samples_by_root : Type := list (string * list (string * BranchDecisionLogEntry)).
Definition better_sample (entry : BranchDecisionLogEntry) (current : option BranchDecisionLogEntry) : bool :=
  match current with
  | None => true
  | Some c => match log_score entry, log_score c with
              | Some a, Some b => f_ltb b a
              | _, _ => false
              end
  end.
Definition add_sample (by_root : samples_by_root) (entry : BranchDecisionLogEntry) : samples_by_root :=
  match log_hypothesis_id entry with
  | None => by_root
  | Some h =>
      let per_root := match dget (root_action_key entry) by_root with Some d => d | None => [] end in
      let per_root := if better_sample entry (dget h per_root) then dset h entry per_root else per_root in
      dset (root_action_key entry) per_root by_root
  end.
Definition samples_of (by_root : samples_by_root) (root_key : string) : list BranchDecisionLogEntry :=
  match dget root_key by_root with Some d => d.*2 | None => [] end.

Definition all_hypotheses (entries : list BranchDecisionLogEntry) : list string :=
  remove_dups (omap log_hypothesis_id entries).
Definition all_roots (entries : list BranchDecisionLogEntry) : list string :=
  sort_by String.leb (remove_dups (map root_action_key entries)).

(** One root action with enough samples: the missing ones count as the worst
    valid score of the round. *)
Definition aggregate_root (root_key : string) (samples : list BranchDecisionLogEntry) (total : Z)
    (worst : spec_float) : Res RootActionAggregation :=
  let valid := Z.of_nat (length samples) in
  let missing := total - valid in
  let score_sum := f_add (float_sum (omap log_score samples)) (f_mul (f_of_Z missing) worst) in
  keyed ← mapR (fun e => s ← float_score e; Ok ((s, log_work_id e), e)) samples;
  match py_max_by (scored_lt str_ltb) keyed with
  | None => Raise (PyExc "ValueError" "max() iterable argument is empty")
  | Some representative =>
      Ok {| agg_root_action_key := root_key; aggregate_score := f_div score_sum (f_of_Z total);
            representative_entry := representative; valid_sample_count := valid;
            total_hypotheses := total; missing_sample_count := missing;
            filled_score := if missing =? 0 then None else Some worst |}
  end.

Definition excluded_root (root_key : string) (valid required : Z) : pyval :=
  VDict [("root_action_key", VStr root_key); ("valid_sample_count", VInt valid); ("required", VInt required)].

(** The loop over the roots: the viable actions and the excluded roots. *)
Fixpoint aggregate_roots (by_root : samples_by_root) (total required : Z) (worst : spec_float)
    (roots : list string) : Res (list RootActionAggregation * list pyval) :=
  match roots with
  | [] => Ok ([], [])
  | root_key :: rest =>
      let samples := samples_of by_root root_key in
      let valid := Z.of_nat (length samples) in
      if valid <? required then
        out ← aggregate_roots by_root total required worst rest;
        Ok (out.1, excluded_root root_key valid required :: out.2)
      else
        a ← aggregate_root root_key samples total worst;
        out ← aggregate_roots by_root total required worst rest;
        Ok (a :: out.1, out.2)
  end.

Definition agg_leb (x y : RootActionAggregation) : bool :=
  negb (scored_lt str_ltb (f_opp (aggregate_score y), agg_root_action_key y)
          (f_opp (aggregate_score x), agg_root_action_key x)).

Definition aggregate_hypothesis_results (entries : list BranchDecisionLogEntry)
    (min_coverage_fraction : spec_float) : Res AggregationResult :=
  if negb (f_leb (f_of_Z 0) min_coverage_fraction && f_leb min_coverage_fraction (f_of_Z 1))
  then Raise (PyExc "ValueError" "min_coverage_fraction must be between 0 and 1")
  else
    _ ← _require_final_entries entries;
    let total := Z.of_nat (length (all_hypotheses entries)) in
    let valid_entries := _success_entries entries in
    let total_entries := VInt (Z.of_nat (length entries)) in
    let fault_count := VInt (Z.of_nat (length entries) - Z.of_nat (length valid_entries)) in
    let empty := Ok {| viable_actions := []; best_action := None;
                       agg_diagnostics := [("mode", VStr "hypothesis"); ("total_entries", total_entries);
                         ("faulted_or_excluded_entries", fault_count); ("excluded_root_actions", VList []);
                         ("reason", VStr "no valid hypothesis samples")] |} in
    if (total =? 0) || Nat.eqb (length valid_entries) 0 then empty
    else
      match py_min_float (omap log_score valid_entries), f_ceil (f_mul (f_of_Z total) min_coverage_fraction) with
      | None, _ => Raise (PyExc "ValueError" "min() iterable argument is empty")
      | _, None => Raise (PyExc "OverflowError" "cannot convert float infinity to integer")
      | Some worst, Some required =>
          let by_root := foldl add_sample [] valid_entries in
          out ← aggregate_roots by_root total required worst (all_roots entries);
          let viable_sorted := sort_by agg_leb out.1 in
          Ok {| viable_actions := viable_sorted; best_action := head viable_sorted;
                agg_diagnostics := [("mode", VStr "hypothesis"); ("total_entries", total_entries);
                  ("total_hypotheses", VInt total); ("min_coverage_fraction", VFloat min_coverage_fraction);
                  ("required_valid_samples", VInt required); ("worst_valid_score_all_roots", VFloat worst);
                  ("faulted_or_excluded_entries", fault_count); ("excluded_root_actions", VList out.2)] |}
      end.

Definition plain_lt (x y : spec_float * (string * string)) : bool := scored_lt pair_lt x y.
Definition plain_aggregation (entry : BranchDecisionLogEntry) : Res RootActionAggregation :=
  s ← float_score entry;
  Ok {| agg_root_action_key := root_action_key entry; aggregate_score := s; representative_entry := entry;
        valid_sample_count := 1; total_hypotheses := 1; missing_sample_count := 0; filled_score := None |}.

Definition aggregate_plain_results (entries : list BranchDecisionLogEntry) : Res AggregationResult :=
  _ ← _require_final_entries entries;
  let valid_entries := _success_entries entries in
  let total_entries := VInt (Z.of_nat (length entries)) in
  let fault_count := VInt (Z.of_nat (length entries) - Z.of_nat (length valid_entries)) in
  match valid_entries with
  | [] => Ok {| viable_actions := []; best_action := None;
                agg_diagnostics := [("mode", VStr "plain"); ("total_entries", total_entries);
                  ("faulted_or_excluded_entries", fault_count);
                  ("reason", VStr "no successful branch results")] |}
  | _ =>
      keyed ← mapR (fun e => s ← float_score e; Ok ((f_opp s, (root_action_key e, log_work_id e)), e)) valid_entries;
      viable ← mapR plain_aggregation (sort_by (fun x y => negb (plain_lt y.1 x.1)) keyed).*2;
      Ok {| viable_actions := viable; best_action := head viable;
            agg_diagnostics := [("mode", VStr "plain"); ("total_entries", total_entries);
              ("faulted_or_excluded_entries", fault_count)] |}
  end.

(** * Commit *)

Inductive CommitDecision :=
  | CommitSearch (result : SearchResult)
  | CommitMainFault (fault : MainCombatFaultOutcome).

(** [verify_main_invariant] runs in the state monad of its caller. *)
Definition build_commit_decision {S} (aggregation : AggregationResult) (hypothesis_involved : bool)
    (verify_main_invariant : M S bool) : M S CommitDecision :=
  match best_action aggregation with
  | None => mret (CommitSearch (SearchEvaluationFailure "search evaluation produced zero viable Root Actions"))
  | Some best =>
      ok ← verify_main_invariant;
      if negb ok then
        mret (CommitMainFault {| fault_source := SRC_MAIN_INVARIANT;
                mcf_detail := "Main state identity changed during search aggregation";
                mcf_diagnostics := agg_diagnostics aggregation |})
      else
        let entry := representative_entry best in
        match log_semantic_action entry with
        | None => raiseM (PyExc "ValueError" "best aggregation entry does not carry a semantic_action")
        | Some action =>
            mret (CommitSearch (SearchSuccess
              [{| ps_semantic_action := action; ps_target_index := log_target_index entry;
                  ps_target_enemy_index := log_target_enemy_index entry;
                  ps_expected_signature := if hypothesis_involved then None else log_result_signature entry |}]))
        end
  end.

(** * Worker faults can be classified *)

Definition diagnosed (diag : pydict) : Prop :=
  exists kind, classify_fault diag = Ok kind /\ str_in kind BRANCH_FAULT_KINDS = true.

Lemma table_values k v table :
  forallb (fun p => str_in p.2 BRANCH_FAULT_KINDS) table = true -> dget k table = Some v ->
  str_in v BRANCH_FAULT_KINDS = true.
Proof.
  intros H Hg%dget_Some_elem. rewrite forallb_forall in H. exact (H (k, v) (proj1 (list_elem_of_In _ _) Hg)).
Qed.

Lemma in_table_str table s : in_table table (VStr s) = Ok (dget s table).
Proof. reflexivity. Qed.

Lemma exception_diagnosed exc d :
  dget "fault_kind" d = Some (VStr (fault_kind_or_default exc)) ->
  dget "exception_type" d = Some (VStr (exn_class exc)) -> diagnosed d.
Proof.
  intros Hk Ht. unfold diagnosed, classify_fault, dget_none. rewrite Hk, Ht, !in_table_str. cbn [mbind Res_bind].
  destruct (dget (exn_class exc) _FAULT_BY_EXCEPTION_TYPE) as [kind|] eqn:Et.
  { exists kind. split; [done|]. by eapply table_values; [|exact Et]. }
  assert (Hne : forall name, dget name _FAULT_BY_EXCEPTION_TYPE <> None -> veq_str (VStr (exn_class exc)) name = false).
  { intros name Hn. cbn. destruct (String.eqb_spec (exn_class exc) name) as [<-|]; [|done]. by destruct Hn. }
  destruct (dget (fault_kind_or_default exc) _FAULT_BY_DIAGNOSTIC_KIND) as [mapped|] eqn:Ek.
  { exists mapped. rewrite !Hne by done. rewrite andb_false_r. split; [done|]. by eapply table_values; [|exact Ek]. }
  assert (Hcls : truthy (VStr (exn_class exc)) = true).
  { cbn. destruct (String.eqb_spec (exn_class exc) ""); [|done]. exfalso.
    destruct exc as [m k|cls m]; cbn in *; [done|]. subst cls. discriminate Ek. }
  rewrite Hcls. cbn [py_str]. rewrite Et. by exists FAULT_ACTION_FAULT.
Qed.

Lemma mismatch_diagnosed stage detail at_step diverged : diagnosed (mismatch_diagnostics stage detail at_step diverged).
Proof. by exists FAULT_REPLAY_MISMATCH. Qed.

(** A success, or a fault that can be classified. *)
Definition explained (r : BranchResult) : Prop :=
  status r = BRANCH_STATUS_SUCCESS \/ status r = BRANCH_STATUS_FAULT /\ diagnosed (diagnostics r).

Section Explained.
Context (json_loads : string -> Res pyval) (format_exc : pyexn -> string).
Context {S : Type} {HS : CombatSession S}.

Lemma prepare_explained wid wgen req (rt : WorkerRuntime S) r rt' :
  prepare json_loads wid wgen req rt = (Ok (inr r), rt') -> explained r.
Proof.
  unfold prepare. destruct (String.eqb (req_execution_mode req) EXECUTION_MODE_BOOTSTRAP_STEP).
  - intros (ro & rt1 & _ & H)%M_bind_Ok. destruct ro as [fs|at_ st det div].
    + by apply M_bind_Ok in H as (u & rt2 & _ & H).
    + apply M_bind_Ok in H as (u & rt2 & _ & H). apply M_bind_Ok in H as (r0 & rt3 & Hc & H).
      apply liftR_Ok in Hc as [Hc _]. injection H as <- _. apply result_check_id in Hc as ->.
      right. split; [done|]. apply mismatch_diagnosed.
  - destruct (String.eqb _ EXECUTION_MODE_HOLDER_STEP); [|done].
    intros (rt1 & rt2 & _ & H)%M_bind_Ok. by apply M_bind_Ok in H as (st & rt3 & _ & H).
Qed.

Lemma execute_body_explained wid wgen req (rt : WorkerRuntime S) r rt' :
  execute_body json_loads wid wgen req rt = (Ok r, rt') -> explained r.
Proof.
  unfold execute_body. intros (p & rt1 & Hp & H)%M_bind_Ok. destruct p as [state|fault].
  2:{ injection H as <- _. by eapply prepare_explained. }
  apply M_bind_Ok in H as (stepped & rt2 & _ & H). apply M_bind_Ok in H as (u & rt3 & _ & H).
  apply M_bind_Ok in H as (rt3' & rt3'' & _ & H). apply M_bind_Ok in H as (res & rt4 & Hb & H).
  apply on_session_Ok in Hb as (s & Hb & ->). apply build_success_facts in Hb as (_ & _ & Hst & _).
  apply M_bind_Ok in H as (u' & rt5 & _ & H). injection H as -> _. by left.
Qed.

Lemma execute_explained wid wgen req (rt : WorkerRuntime S) r rt' :
  execute json_loads format_exc wid wgen req rt = (Ok r, rt') -> explained r.
Proof.
  unfold execute, tryM. destruct (execute_body json_loads wid wgen req rt) as [[r0|e] rt0] eqn:E.
  - intros [= <- _]. by eapply execute_body_explained.
  - intros (u & s1 & _ & H)%M_bind_Ok. apply liftR_Ok in H as [H _]. apply result_check_id in H as ->.
    right. split; [done|]. by apply (exception_diagnosed e).
Qed.
End Explained.

(** * What the aggregations compute *)

(** A successful entry carries a score that is not a nan. *)
Definition scored_entry (e : BranchDecisionLogEntry) : Prop :=
  is_success e = true -> exists f, log_score e = Some f /\ not_nan f = true.

Lemma require_final_Ok entries : _require_final_entries entries = Ok tt ↔ Forall (fun e => is_final e = true) entries.
Proof.
  unfold _require_final_entries. induction entries as [|e l IH]; [done|].
  cbn [List.filter]. rewrite Forall_cons, <- IH. destruct (is_final e); cbn [negb]; [split; [by intros ->|by intros [_ ->]]|].
  split; [done|by intros [[=] _]].
Qed.

Lemma success_entries_elem e entries : e ∈ _success_entries entries ↔ e ∈ entries /\ is_success e = true.
Proof. unfold _success_entries. rewrite !list_elem_of_In. apply filter_In. Qed.

Lemma success_scored entries :
  Forall scored_entry entries ->
  Forall (fun e => exists f, log_score e = Some f /\ not_nan f = true) (_success_entries entries).
Proof.
  intros H. apply Forall_forall. intros e [He Hs]%success_entries_elem. rewrite Forall_forall in H. by apply H.
Qed.

(** Orders on key tuples. *)
Section TupleOrder.
Context {B : Type} (tie_lt : B -> B -> bool).
Context (tie_irrefl : forall x, tie_lt x x = false)
  (tie_trans : forall x y z, tie_lt x y = true -> tie_lt y z = true -> tie_lt x z = true)
  (tie_ntrans : forall x y z, tie_lt x y = false -> tie_lt y z = false -> tie_lt x z = false).

Lemma scored_lt_spec (x y : spec_float * B) :
  not_nan x.1 = true -> not_nan y.1 = true ->
  scored_lt tie_lt x y = true ↔
  rank_lt (float_rank x.1) (float_rank y.1) \/ float_rank x.1 = float_rank y.1 /\ tie_lt x.2 y.2 = true.
Proof.
  intros Hx Hy. unfold scored_lt. destruct (f_eqb x.1 y.1) eqn:E.
  - apply f_eqb_rank in E; [|done..]. rewrite E. split; [auto|]. intros [H|[_ H]]; [|done].
    by destruct (rank_lt_irrefl _ H).
  - rewrite f_ltb_rank by done. split; [auto|]. intros [H|[H _]]; [done|].
    apply f_eqb_rank in H; [|done..]. congruence.
Qed.

(** [not (y < x)] is a total preorder. *)
Lemma scored_ge_total x y :
  not_nan x.1 = true -> not_nan y.1 = true -> (forall a b, tie_lt a b = true -> tie_lt b a = false) ->
  negb (scored_lt tie_lt y x) = true \/ negb (scored_lt tie_lt x y) = true.
Proof.
  intros Hx Hy Hasym. rewrite !negb_true_iff. destruct (scored_lt tie_lt y x) eqn:E; [right|by left].
  apply scored_lt_spec in E; [|done..]. apply not_true_iff_false. rewrite scored_lt_spec by done.
  unfold rank_lt in *. destruct E as [E|[E1 E2]].
  - intros [H|[H _]]; [lia|]. rewrite H in E. lia.
  - intros [H|[_ H]]; [rewrite E1 in H; lia|]. apply Hasym in E2. congruence.
Qed.

Lemma scored_ge_trans x y z :
  not_nan x.1 = true -> not_nan y.1 = true -> not_nan z.1 = true ->
  negb (scored_lt tie_lt y x) = true -> negb (scored_lt tie_lt z y) = true -> negb (scored_lt tie_lt z x) = true.
Proof.
  intros Hx Hy Hz. rewrite !negb_true_iff, <- !not_true_iff_false, !scored_lt_spec by done.
  intros H1 H2 H3.
  destruct (rank_lt_total (float_rank y.1) (float_rank x.1)) as [E1|[E1|E1]]; [|by apply H1; left|].
  - destruct (rank_lt_total (float_rank z.1) (float_rank y.1)) as [E2|[E2|E2]]; [|by apply H2; left|].
    + destruct H3 as [H3|[_ H3]]; [rewrite E2, E1 in H3; by apply (rank_lt_irrefl _ H3)|].
      assert (tie_lt z.2 x.2 = false) as Hf; [|congruence]. apply (tie_ntrans _ y.2).
      * apply not_true_iff_false. intros H. apply H2. by right.
      * apply not_true_iff_false. intros H. apply H1. by right.
    + destruct H3 as [H3|[H3 _]].
      * apply (rank_lt_irrefl (float_rank z.1)). rewrite E1 in E2. by eapply rank_lt_trans.
      * rewrite H3, E1 in E2. by apply (rank_lt_irrefl _ E2).
  - assert (Hyz : float_rank y.1 = float_rank z.1 \/ rank_lt (float_rank y.1) (float_rank z.1)).
    { destruct (rank_lt_total (float_rank z.1) (float_rank y.1)) as [E|[E|E]]; [by left|by destruct H2; left|by right]. }
    assert (Hxz : rank_lt (float_rank x.1) (float_rank z.1)).
    { destruct Hyz as [<-|H]; [done|by eapply rank_lt_trans]. }
    destruct H3 as [H3|[H3 _]].
    + apply (rank_lt_irrefl (float_rank x.1)). by eapply rank_lt_trans.
    + rewrite H3 in Hxz. by apply (rank_lt_irrefl _ Hxz).
Qed.
End TupleOrder.

Lemma str_ltb_false s t : str_ltb s t = false ↔ String.leb t s = true.
Proof. unfold str_ltb. by rewrite negb_false_iff. Qed.
Lemma str_ltb_asym s t : str_ltb s t = true -> str_ltb t s = false.
Proof.
  unfold str_ltb. rewrite negb_true_iff, negb_false_iff. intros H.
  destruct (String.leb_total s t) as [H'|H']; [done|]. congruence.
Qed.
Lemma str_ltb_ntrans x y z : str_ltb x y = false -> str_ltb y z = false -> str_ltb x z = false.
Proof. rewrite !str_ltb_false. intros H1 H2. by eapply str_leb_trans. Qed.

Lemma pair_lt_asym x y : pair_lt x y = true -> pair_lt y x = false.
Proof.
  unfold pair_lt. rewrite (String.eqb_sym y.1). destruct (String.eqb x.1 y.1); apply str_ltb_asym.
Qed.
Lemma pair_lt_ntrans x y z : pair_lt x y = false -> pair_lt y z = false -> pair_lt x z = false.
Proof.
  unfold pair_lt.
  destruct (String.eqb_spec x.1 y.1) as [E1|N1], (String.eqb_spec y.1 z.1) as [E2|N2]; intros H1 H2.
  - rewrite E1, E2, String.eqb_refl. by eapply str_ltb_ntrans.
  - rewrite E1. by destruct (String.eqb_spec y.1 z.1).
  - rewrite <- E2. by destruct (String.eqb_spec x.1 y.1).
  - destruct (String.eqb_spec x.1 z.1) as [E|]; [|by eapply str_ltb_ntrans].
    exfalso. rewrite str_ltb_false in H1, H2. rewrite <- E in H2. apply N1.
    by apply String.leb_antisym.
Qed.

(** [a] is listed before [b]: a greater score, or an equal score and a key no
    greater. *)
Definition listed_before {B} (tie_lt : B -> B -> bool) (key : RootActionAggregation -> B)
    (a b : RootActionAggregation) : Prop :=
  f_ltb (aggregate_score b) (aggregate_score a) = true \/
  f_eqb (aggregate_score a) (aggregate_score b) = true /\ tie_lt (key b) (key a) = false.

Lemma listed_before_spec {B} (tie_lt : B -> B -> bool) key a b :
  not_nan (aggregate_score a) = true -> not_nan (aggregate_score b) = true ->
  negb (scored_lt tie_lt (f_opp (aggregate_score b), key b) (f_opp (aggregate_score a), key a)) = true ->
  listed_before tie_lt key a b.
Proof.
  intros Ha Hb. unfold listed_before. rewrite negb_true_iff, <- not_true_iff_false.
  rewrite scored_lt_spec by (cbn [fst]; by rewrite f_opp_not_nan). cbn [fst snd].
  rewrite f_ltb_rank, f_eqb_rank by done. rewrite !float_rank_opp. unfold rank_lt. rewrite !pair_eq. cbn.
  destruct (float_rank (aggregate_score a)) as [[a1 a2] a3], (float_rank (aggregate_score b)) as [[b1 b2] b3]. cbn.
  rewrite !pair_eq. destruct (tie_lt (key b) (key a)); lia.
Qed.

(** Sorting by [(-score, key)] lists best first. *)
Lemma sort_listed {B} (tie_lt : B -> B -> bool) key (l : list RootActionAggregation) :
  (forall x y, tie_lt x y = true -> tie_lt y x = false) ->
  (forall x y z, tie_lt x y = false -> tie_lt y z = false -> tie_lt x z = false) ->
  Forall (fun a => not_nan (aggregate_score a) = true) l ->
  StronglySorted (listed_before tie_lt key)
    (sort_by (fun x y => negb (scored_lt tie_lt (f_opp (aggregate_score y), key y) (f_opp (aggregate_score x), key x))) l).
Proof.
  intros Hasym Hntrans Hl.
  assert (Hn : forall a, not_nan (aggregate_score a) = true -> not_nan (f_opp (aggregate_score a), key a).1 = true)
    by (intros a Ha; cbn [fst]; by rewrite f_opp_not_nan).
  match goal with |- StronglySorted _ (sort_by ?le _) => set (leb := le) end.
  apply (StronglySorted_impl (leP leb) _ (fun a => not_nan (aggregate_score a) = true)).
  - intros x y Hx Hy H. by apply listed_before_spec.
  - by rewrite sort_by_Permutation.
  - apply (sort_by_sorted_on _ (fun a => not_nan (aggregate_score a) = true)); [| |done].
    + intros x y Hx Hy. apply scored_ge_total; auto.
    + intros x y z Hx Hy Hz. apply scored_ge_trans; auto.
Qed.

(** ** The plain aggregation *)

Definition score_of (e : BranchDecisionLogEntry) : spec_float :=
  match log_score e with Some f => f | None => S754_nan end.
Definition plain_action (e : BranchDecisionLogEntry) : RootActionAggregation :=
  {| agg_root_action_key := root_action_key e; aggregate_score := score_of e; representative_entry := e;
     valid_sample_count := 1; total_hypotheses := 1; missing_sample_count := 0; filled_score := None |}.
Definition plain_key (a : RootActionAggregation) : string * string :=
  (agg_root_action_key a, log_work_id (representative_entry a)).
Definition sorted_plain (entries : list BranchDecisionLogEntry) : list RootActionAggregation :=
  sort_by (fun x y => negb (scored_lt pair_lt (f_opp (aggregate_score y), plain_key y)
                              (f_opp (aggregate_score x), plain_key x)))
    (map plain_action (_success_entries entries)).

Lemma float_score_scored e : (exists f, log_score e = Some f /\ not_nan f = true) -> float_score e = Ok (score_of e).
Proof. intros (f & H & _). unfold float_score, score_of. by rewrite H. Qed.

Lemma aggregate_plain_eq entries :
  Forall scored_entry entries -> Forall (fun e => is_final e = true) entries ->
  exists r, aggregate_plain_results entries = Ok r /\ viable_actions r = sorted_plain entries /\
    best_action r = head (sorted_plain entries).
Proof.
  intros Hs Hf. unfold aggregate_plain_results. rewrite (proj2 (require_final_Ok entries) Hf). cbn [mbind Res_bind].
  pose proof (success_scored entries Hs) as Hv. unfold sorted_plain.
  destruct (_success_entries entries) as [|e0 rest] eqn:Ev; [by eexists|]. rewrite <- Ev in *. clear Ev.
  set (K := fun e => ((f_opp (score_of e), (root_action_key e, log_work_id e)), e)).
  rewrite (mapR_Ok _ K).
  2:{ eapply Forall_impl; [exact Hv|]. intros e He. by rewrite (float_score_scored e He). }
  cbn [mbind Res_bind].
  rewrite <- (sort_by_map K (fun x y => negb (plain_lt (K y).1 (K x).1)) (fun x y => negb (plain_lt y.1 x.1))) by done.
  assert (Hsnd : forall l, (map K l).*2 = l) by (induction l as [|x l IH]; [done|cbn; by rewrite IH]).
  rewrite Hsnd, (mapR_Ok _ plain_action).
  2:{ rewrite sort_by_Permutation. eapply Forall_impl; [exact Hv|]. intros e He.
      unfold plain_aggregation. by rewrite (float_score_scored e He). }
  cbn [mbind Res_bind]. eexists. split; [reflexivity|]. cbn.
  rewrite (sort_by_map plain_action _ (fun x y => negb (scored_lt pair_lt (f_opp (aggregate_score y), plain_key y)
                              (f_opp (aggregate_score x), plain_key x)))) by done.
  done.
Qed.

(** a search without hypotheses ranks exactly its successful branches: it
    refuses a batch with a branch that is not final, lists each successful
    branch once with its own score, best first (ties by root action key, then
    work id), and the best action is the first, if any. *)
Theorem plain_search_ranks_successes entries :
  Forall scored_entry entries ->
  match aggregate_plain_results entries with
  | Raise _ => exists e, e ∈ entries /\ is_final e = false
  | Ok r =>
      Forall (fun e => is_final e = true) entries /\
      map representative_entry (viable_actions r) ≡ₚ _success_entries entries /\
      Forall (fun a => plain_aggregation (representative_entry a) = Ok a) (viable_actions r) /\
      StronglySorted (listed_before pair_lt plain_key) (viable_actions r) /\
      best_action r = head (viable_actions r)
  end.
Proof.
  intros Hs. destruct (_require_final_entries entries) as [[]|e] eqn:Ef.
  - apply require_final_Ok in Ef. destruct (aggregate_plain_eq entries Hs Ef) as (r & -> & -> & ->).
    pose proof (success_scored entries Hs) as Hv. split_and!; [done| | | |done]; unfold sorted_plain.
    + rewrite sort_by_Permutation, map_map. cbn. by rewrite map_id.
    + rewrite sort_by_Permutation. apply Forall_map. eapply Forall_impl; [exact Hv|].
      intros x Hx. cbn. unfold plain_aggregation. by rewrite (float_score_scored x Hx).
    + apply sort_listed; [apply pair_lt_asym|apply pair_lt_ntrans|]. apply Forall_map.
      eapply Forall_impl; [exact Hv|]. intros x (f & Hf & Hn). cbn. unfold score_of. by rewrite Hf.
  - unfold aggregate_plain_results. rewrite Ef. cbn.
    destruct (decide (Forall (fun x => is_final x = true) entries)) as [H|H].
    + apply require_final_Ok in H. congruence.
    + apply not_Forall_Exists in H; [|apply _]. apply Exists_exists in H as (x & Hx & Hn).
      exists x. split; [done|]. by apply not_true_iff_false.
Qed.

(** ** The hypothesis aggregation *)

Definition root_samples (by_root : samples_by_root) (root : string) : list (string * BranchDecisionLogEntry) :=
  match dget root by_root with Some d => d | None => [] end.
Definition no_better (e e' : BranchDecisionLogEntry) : Prop := f_ltb (score_of e) (score_of e') = false.

(** What the samples of [root] hold after the entries of [l]. *)
Definition sampled (l : list BranchDecisionLogEntry) (root : string)
    (d : list (string * BranchDecisionLogEntry)) : Prop :=
  NoDup (dkeys d) /\
  (forall h e, dget h d = Some e ->
     e ∈ l /\ root_action_key e = root /\ log_hypothesis_id e = Some h /\
     forall e', e' ∈ l -> root_action_key e' = root -> log_hypothesis_id e' = Some h -> no_better e e') /\
  (forall e h, e ∈ l -> root_action_key e = root -> log_hypothesis_id e = Some h -> is_Some (dget h d)).

Definition scored (e : BranchDecisionLogEntry) : Prop := exists f, log_score e = Some f /\ not_nan f = true.

Lemma no_better_refl e : scored e -> no_better e e.
Proof.
  intros (f & Hf & Hn). unfold no_better, score_of. rewrite Hf. apply not_true_iff_false.
  rewrite f_ltb_rank by done. apply rank_lt_irrefl.
Qed.
Lemma better_sample_spec e c : scored e -> scored c ->
  if better_sample e (Some c) then no_better e c else no_better c e.
Proof.
  intros (f & Hf & Hn) (g & Hg & Hm). unfold better_sample, no_better, score_of. rewrite Hf, Hg.
  destruct (f_ltb g f) eqn:E; [|done]. apply not_true_iff_false. rewrite f_ltb_rank by done.
  apply f_ltb_rank in E; [|done..]. unfold rank_lt in *. lia.
Qed.
Lemma no_better_trans x y z : scored x -> scored y -> scored z -> no_better x y -> no_better y z -> no_better x z.
Proof.
  intros (f & Hf & Hn) (g & Hg & Hm) (k & Hk & Hq). unfold no_better, score_of. rewrite Hf, Hg, Hk.
  rewrite <- !not_true_iff_false, !f_ltb_rank by done. unfold rank_lt. lia.
Qed.

Lemma root_samples_add by_root e root :
  root_samples (add_sample by_root e) root =
  match log_hypothesis_id e with
  | Some h => if String.eqb root (root_action_key e)
              then let d := root_samples by_root root in
                   if better_sample e (dget h d) then dset h e d else d
              else root_samples by_root root
  | None => root_samples by_root root
  end.
Proof.
  unfold root_samples, add_sample. destruct (log_hypothesis_id e) as [h|]; [|done]. rewrite dget_dset.
  by destruct (String.eqb_spec root (root_action_key e)) as [->|Hne].
Qed.

Lemma sampled_step l d e h root :
  sampled l root d -> scored e -> Forall scored l -> root_action_key e = root -> log_hypothesis_id e = Some h ->
  sampled (l ++ [e]) root (if better_sample e (dget h d) then dset h e d else d).
Proof.
  intros (Hnd & Hbest & Hall) He Hl Hr Hh. rewrite Forall_forall in Hl.
  assert (Hnew : exists m, (if better_sample e (dget h d) then dset h e d else d) = 
      (if better_sample e (dget h d) then dset h m d else d) /\
      dget h (if better_sample e (dget h d) then dset h e d else d) = Some m /\
      (m = e \/ dget h d = Some m) /\ no_better m e /\
      (forall c, dget h d = Some c -> no_better m c)).
  { destruct (dget h d) as [c|] eqn:Ec.
    - destruct (Hbest h c Ec) as (Hc & _ & _ & _). pose proof (better_sample_spec e c He (Hl c Hc)) as Hb.
      destruct (better_sample e (Some c)).
      + exists e. rewrite dget_dset_eq. split_and!; [done|done|by left|by apply no_better_refl|].
        by intros c' [= <-].
      + exists c. rewrite Ec. split_and!; [done|done|by right|done|]. intros c' [= <-]. by apply no_better_refl, Hl.
    - exists e. cbn. rewrite dget_dset_eq. by split_and!; [| |left|apply no_better_refl|]. }
  destruct Hnew as (m & _ & Hm & Hor & Hme & Hmc).
  split; [destruct (better_sample _ _); [by apply NoDup_dkeys_dset|done]|]. split.
  - intros k x Hk. destruct (decide (k = h)) as [->|Hne].
    + rewrite Hm in Hk. injection Hk as <-. split.
      { apply elem_of_app. destruct Hor as [->|Hc]; [right; by left|left]. by apply (Hbest h m). }
      split; [destruct Hor as [->|Hc]; [done|by apply (Hbest h m)]|].
      split; [destruct Hor as [->|Hc]; [done|by apply (Hbest h m)]|].
      intros e' [He'| ->%list_elem_of_singleton]%elem_of_app Hr' Hh'; [|done].
      destruct (Hall e' h He' Hr' Hh') as [c Hc]. destruct (Hbest h c Hc) as (Hcl & _ & _ & Hcb).
      assert (scored m) by (destruct Hor as [->|Hx]; [done|by apply Hl, (Hbest h m)]).
      eapply no_better_trans; [done|by apply Hl|by apply Hl|by apply Hmc|by apply Hcb].
    + assert (Hk' : dget k d = Some x).
      { revert Hk. destruct (better_sample _ _); [by rewrite dget_dset_ne|done]. }
      destruct (Hbest k x Hk') as (H1 & H2 & H3 & H4). split; [apply elem_of_app; by left|].
      split; [done|]. split; [done|]. intros e' [He'| ->%list_elem_of_singleton]%elem_of_app Hr' Hh'; [by apply H4|].
      congruence.
  - intros x k [Hx| ->%list_elem_of_singleton]%elem_of_app Hr' Hh'.
    + destruct (decide (k = h)) as [->|Hne]; [by rewrite Hm|].
      destruct (better_sample _ _); [rewrite dget_dset_ne by done|]; by eapply Hall.
    + rewrite Hh in Hh'. injection Hh' as <-. by rewrite Hm.
Qed.

Lemma sampled_other l d e root :
  sampled l root d -> root_action_key e <> root \/ log_hypothesis_id e = None -> sampled (l ++ [e]) root d.
Proof.
  intros (Hnd & Hbest & Hall) Hne. split; [done|]. split.
  - intros h x Hx. destruct (Hbest h x Hx) as (H1 & H2 & H3 & H4).
    split; [apply elem_of_app; by left|]. split; [done|]. split; [done|].
    intros e' [He'| ->%list_elem_of_singleton]%elem_of_app Hr Hh; [by apply H4|]. destruct Hne; congruence.
  - intros x h [Hx| ->%list_elem_of_singleton]%elem_of_app Hr Hh; [by eapply Hall|]. destruct Hne; congruence.
Qed.

Lemma samples_of_entries l root :
  Forall scored l -> sampled l root (root_samples (foldl add_sample [] l) root).
Proof.
  induction l as [|e l IH] using rev_ind; intros Hs.
  { split; [constructor|]. split; [intros h e [=]|intros e h []%not_elem_of_nil]. }
  apply Forall_app in Hs as [Hl He%Forall_inv]. rewrite foldl_app. cbn [foldl]. rewrite root_samples_add.
  specialize (IH Hl). destruct (log_hypothesis_id e) as [h|] eqn:Eh; [|by apply sampled_other; [|right]].
  destruct (String.eqb_spec root (root_action_key e)) as [->|Hne].
  - by apply sampled_step.
  - apply sampled_other; [done|left; congruence].
Qed.

Lemma py_max_by_spec {A K} (lt : K -> K -> bool) (ok : K -> Prop) (keyed : list (K * A)) m :
  (forall x y z, ok x -> ok y -> ok z -> lt x y = true -> lt x z = false -> lt y z = false) ->
  (forall x, ok x -> lt x x = false) ->
  Forall (fun p => ok p.1) keyed -> py_max_by lt keyed = Some m ->
  exists k, (k, m) ∈ keyed /\ forall p, p ∈ keyed -> lt k p.1 = false.
Proof.
  intros Htr Hirr. destruct keyed as [|x rest]; [done|]. cbn. intros [Hx Hok]%Forall_cons [= <-].
  cut (exists p, foldl (fun m y => if lt m.1 y.1 then y else m) x rest = p /\ p ∈ x :: rest /\ ok p.1 /\
    forall q, q ∈ x :: rest -> lt p.1 q.1 = false).
  { intros ([k a] & -> & Hin & _ & Hmax). by exists k. }
  induction rest as [|y rest IH] using rev_ind.
  { exists x. split_and!; [done|by left|done|]. intros q ->%list_elem_of_singleton. by apply Hirr. }
  apply Forall_app in Hok as [Hr Hy%Forall_inv]. destruct (IH Hr) as (p & Hp & Hin & Hpok & Hmax).
  rewrite foldl_app, Hp. cbn. exists (if lt p.1 y.1 then y else p). split; [done|].
  rewrite app_comm_cons. destruct (lt p.1 y.1) eqn:E.
  - split; [apply elem_of_app; right; by left|]. split; [done|].
    intros q [Hq| ->%list_elem_of_singleton]%elem_of_app; [|by apply Hirr].
    apply (Htr p.1); [done|done| |done|by apply Hmax]. rewrite Forall_forall in Hr.
    apply elem_of_cons in Hq as [->|Hq]; [done|by apply Hr].
  - split; [apply elem_of_app; by left|]. split; [done|].
    intros q [Hq| ->%list_elem_of_singleton]%elem_of_app; [by apply Hmax|done].
Qed.

(** The samples a root action is scored on: per hypothesis with a valid entry
    for the root, one whose score no other valid entry exceeds. *)
Definition best_samples (entries : list BranchDecisionLogEntry) (root : string)
    (samples : list BranchDecisionLogEntry) : Prop :=
  NoDup (map log_hypothesis_id samples) /\
  (forall e, e ∈ samples -> e ∈ _success_entries entries /\ root_action_key e = root /\
     is_Some (log_hypothesis_id e) /\
     forall e', e' ∈ _success_entries entries -> root_action_key e' = root ->
       log_hypothesis_id e' = log_hypothesis_id e -> no_better e e') /\
  (forall e, e ∈ _success_entries entries -> root_action_key e = root -> is_Some (log_hypothesis_id e) ->
     log_hypothesis_id e ∈ map log_hypothesis_id samples).

(** The number of hypotheses with a valid sample for [root]. *)
Definition coverage (entries : list BranchDecisionLogEntry) (root : string) : Z :=
  Z.of_nat (length (remove_dups (omap log_hypothesis_id
    (List.filter (fun e => String.eqb (root_action_key e) root) (_success_entries entries))))).

Lemma root_samples_best entries root :
  Forall scored (_success_entries entries) ->
  best_samples entries root (root_samples (foldl add_sample [] (_success_entries entries)) root).*2.
Proof.
  intros Hs. destruct (samples_of_entries (_success_entries entries) root Hs) as (Hnd & Hbest & Hall).
  set (d := root_samples _ root) in *.
  assert (Hget : forall k e, (k, e) ∈ d -> dget k d = Some e).
  { clearbody d. clear -Hnd. induction d as [|[k0 e0] d IH]; intros k e; [by intros ?%not_elem_of_nil|].
    cbn in Hnd |- *. apply NoDup_cons in Hnd as [Hni Hnd]. intros [[= -> ->]|Hin]%elem_of_cons.
    - by rewrite String.eqb_refl.
    - destruct (String.eqb_spec k k0) as [->|]; [|by apply IH]. exfalso. apply Hni.
      by apply (list_elem_of_fmap_2 fst) in Hin. }
  assert (Hids : map log_hypothesis_id d.*2 = map Some (dkeys d)).
  { assert (Hpt : forall p, p ∈ d -> log_hypothesis_id p.2 = Some p.1).
    { intros [k e] Hin. by apply (Hbest k e (Hget k e Hin)). }
    clear -Hpt. induction d as [|[k e] d IH]; [done|].
    assert (Hke : log_hypothesis_id e = Some k) by (apply (Hpt (k, e)); left).
    assert (IH' : map log_hypothesis_id d.*2 = map Some (dkeys d)) by (apply IH; intros p Hp; apply Hpt; by right).
    cbn. rewrite Hke. f_equal. exact IH'. }
  split; [|split].
  - rewrite Hids. apply (NoDup_fmap_2 Some). exact Hnd.
  - intros e ([k e'] & -> & Hin)%list_elem_of_fmap. cbn.
    destruct (Hbest k e' (Hget k e' Hin)) as (H1 & H2 & H3 & H4). split_and!; [done|done|by rewrite H3|].
    rewrite H3. intros x Hx Hr Hh. by apply H4.
  - intros e He Hr [h Hh]. rewrite Hids, Hh. apply (list_elem_of_fmap_2 Some).
    destruct (Hall e h He Hr Hh) as [x Hx]. apply dget_Some_elem in Hx.
    by apply (list_elem_of_fmap_2 fst) in Hx.
Qed.

Lemma best_samples_coverage entries root samples :
  best_samples entries root samples -> Z.of_nat (length samples) = coverage entries root.
Proof.
  intros (Hnd & Hin & Hall). unfold coverage. f_equal.
  rewrite <- (length_map log_hypothesis_id samples).
  set (hs := remove_dups _). rewrite <- (length_map Some hs). apply Permutation_length.
  apply NoDup_Permutation; [done|apply (NoDup_fmap_2 Some), NoDup_remove_dups|].
  intros oh. split.
  - intros (e & -> & He)%list_elem_of_fmap. destruct (Hin e He) as (Hs & Hr & [h Hh] & _). rewrite Hh.
    apply (list_elem_of_fmap_2 Some). subst hs. apply elem_of_remove_dups, list_elem_of_omap.
    exists e. split; [|done]. apply list_elem_of_In, filter_In. split; [by apply list_elem_of_In|].
    by apply String.eqb_eq.
  - intros (h & -> & Hh)%list_elem_of_fmap. subst hs.
    apply elem_of_remove_dups, list_elem_of_omap in Hh as (e & He & Hh).
    apply list_elem_of_In, filter_In in He as [He Hr]. apply String.eqb_eq in Hr.
    rewrite <- Hh. apply Hall; [by apply list_elem_of_In|done|by rewrite Hh].
Qed.

(** One viable root action. *)
Definition root_scored (entries : list BranchDecisionLogEntry) (total : Z) (worst : spec_float)
    (a : RootActionAggregation) : Prop :=
  let missing := total - valid_sample_count a in
  total_hypotheses a = total /\ missing_sample_count a = missing /\
  filled_score a = (if missing =? 0 then None else Some worst) /\
  exists samples, best_samples entries (agg_root_action_key a) samples /\
    valid_sample_count a = Z.of_nat (length samples) /\
    aggregate_score a = f_div (f_add (float_sum (map score_of samples)) (f_mul (f_of_Z missing) worst)) (f_of_Z total) /\
    representative_entry a ∈ samples /\ forall e, e ∈ samples -> no_better (representative_entry a) e.

Lemma omap_scores l : Forall scored l -> omap log_score l = map score_of l.
Proof.
  induction 1 as [|e l (f & Hf & _) _ IH]; [done|]. cbn. unfold score_of at 1. by rewrite Hf, IH.
Qed.

Lemma rep_key_trans (x y z : spec_float * string) :
  not_nan x.1 = true -> not_nan y.1 = true -> not_nan z.1 = true ->
  scored_lt str_ltb x y = true -> scored_lt str_ltb x z = false -> scored_lt str_ltb y z = false.
Proof.
  intros Hx Hy Hz. rewrite <- !not_true_iff_false, !scored_lt_spec by done. intros H1 H2 H3. apply H2.
  destruct H1 as [H1|[H1 H1']], H3 as [H3|[H3 H3']].
  - left. by eapply rank_lt_trans.
  - left. by rewrite <- H3.
  - left. by rewrite H1.
  - right. split; [congruence|]. destruct (str_ltb x.2 z.2) eqn:E; [done|].
    apply str_ltb_asym in H3'. rewrite (str_ltb_ntrans x.2 z.2 y.2) in H1'; done.
Qed.

Lemma aggregate_root_spec entries root samples total worst :
  Forall scored (_success_entries entries) -> best_samples entries root samples ->
  match samples with
  | [] => aggregate_root root samples total worst = Raise (PyExc "ValueError" "max() iterable argument is empty")
  | _ => exists a, aggregate_root root samples total worst = Ok a /\ agg_root_action_key a = root /\
           root_scored entries total worst a
  end.
Proof.
  intros Hs Hb. unfold aggregate_root.
  assert (Hsc : Forall scored samples).
  { apply Forall_forall. intros e He. rewrite Forall_forall in Hs. apply Hs. by apply (proj1 (proj2 Hb)). }
  rewrite (mapR_Ok _ (fun e => ((score_of e, log_work_id e), e))).
  2:{ eapply Forall_impl; [exact Hsc|]. intros e He. by rewrite (float_score_scored e He). }
  cbn [mbind Res_bind]. destruct samples as [|e0 rest]; [done|].
  assert (Hne : e0 :: rest <> []) by done. set (samples := e0 :: rest) in *. clearbody samples. clear e0 rest.
  set (keyed := map _ samples). destruct (py_max_by (scored_lt str_ltb) keyed) as [m|] eqn:Em.
  2:{ exfalso. subst keyed. destruct samples; [by apply Hne|discriminate Em]. }
  eapply (py_max_by_spec _ (fun k => not_nan k.1 = true)) in Em as (k & Hin & Hmax).
  - eexists. split; [reflexivity|]. split; [done|]. cbn. split_and!; [done|done|done|].
    exists samples. split_and!; [done|done|by rewrite omap_scores| |].
    + by apply list_elem_of_fmap in Hin as (e & [= _ ->] & He).
    + intros e He. apply list_elem_of_fmap in Hin as (e1 & [= -> ->] & He1).
      specialize (Hmax (score_of e, log_work_id e, e)).
      assert (Hk : scored_lt str_ltb (score_of e1, log_work_id e1) (score_of e, log_work_id e) = false).
      { apply Hmax. by apply (list_elem_of_fmap_2 (fun e => ((score_of e, log_work_id e), e))). }
      rewrite Forall_forall in Hsc. destruct (Hsc e He) as (f & Hf & Hn), (Hsc e1 He1) as (g & Hg & Hm).
      cbn [representative_entry].
      unfold no_better, score_of in Hk |- *. rewrite Hf, Hg in Hk. rewrite Hf, Hg.
      apply not_true_iff_false. rewrite f_ltb_rank by done. apply not_true_iff_false in Hk.
      rewrite scored_lt_spec in Hk by done. cbn in Hk. tauto.
  - intros x y z. apply rep_key_trans.
  - intros x Hx. apply not_true_iff_false. rewrite scored_lt_spec by done. intros [H|[_ H]].
    + by apply (rank_lt_irrefl _ H).
    + by rewrite (str_ltb_asym _ _ H) in H.
  - apply Forall_map. eapply Forall_impl; [exact Hsc|]. intros e (f & Hf & Hn). cbn. unfold score_of. by rewrite Hf.
Qed.

(** A root without a valid sample that the required coverage still admits. *)
Definition uncovered (entries : list BranchDecisionLogEntry) (required : Z) (root : string) : Prop :=
  coverage entries root = 0 /\ required <= 0.
Definition empty_max : pyexn := PyExc "ValueError" "max() iterable argument is empty".

Lemma samples_of_root by_root root : samples_of by_root root = (root_samples by_root root).*2.
Proof. unfold samples_of, root_samples. by destruct (dget root by_root). Qed.

Lemma aggregate_roots_spec entries by_root total required worst roots :
  Forall scored (_success_entries entries) ->
  (forall root, best_samples entries root (samples_of by_root root)) ->
  match aggregate_roots by_root total required worst roots with
  | Ok out =>
      (forall root, root ∈ roots -> ~ uncovered entries required root) /\
      map agg_root_action_key out.1 = List.filter (fun root => required <=? coverage entries root) roots /\
      Forall (root_scored entries total worst) out.1
  | Raise e => e = empty_max /\ exists root, root ∈ roots /\ uncovered entries required root
  end.
Proof.
  intros Hs Hb. induction roots as [|root rest IH]; cbn [aggregate_roots].
  { split_and!; [intros ? []%not_elem_of_nil|done|constructor]. }
  pose proof (best_samples_coverage _ _ _ (Hb root)) as Hcov. rewrite Hcov. cbn [List.filter].
  destruct (Z.ltb_spec (coverage entries root) required) as [Hlt|Hge].
  - replace (required <=? _) with false by (symmetry; apply Z.leb_gt; lia).
    destruct (aggregate_roots _ _ _ _ rest) as [out|e]; cbn [mbind Res_bind].
    + destruct IH as (H1 & H2 & H3). split_and!; [|done|done].
      intros x [->|Hx]%elem_of_cons; [unfold uncovered; lia|by apply H1].
    + destruct IH as (-> & x & Hx & Hu). split; [done|]. exists x. split; [by right|done].
  - replace (required <=? _) with true by (symmetry; apply Z.leb_le; lia).
    pose proof (aggregate_root_spec entries root _ total worst Hs (Hb root)) as Ha.
    destruct (samples_of by_root root) as [|s0 sr] eqn:Esam.
    + rewrite Ha. cbn [mbind Res_bind]. split; [done|]. exists root. split; [by left|].
      unfold uncovered. cbn in Hcov. lia.
    + destruct Ha as (a & -> & Hk & Hra). cbn [mbind Res_bind].
      destruct (aggregate_roots _ _ _ _ rest) as [out|e]; cbn [mbind Res_bind].
      * destruct IH as (H1 & H2 & H3). split_and!.
        -- intros x [->|Hx]%elem_of_cons; [unfold uncovered; cbn in Hcov; lia|by apply H1].
        -- cbn. by rewrite Hk, H2.
        -- by constructor.
      * destruct IH as (-> & x & Hx & Hu). split; [done|]. exists x. split; [by right|done].
Qed.

(** The worst valid score of the round. *)
Definition worst_score (entries : list BranchDecisionLogEntry) (worst : spec_float) : Prop :=
  worst ∈ map score_of (_success_entries entries) /\
  forall e, e ∈ _success_entries entries -> f_ltb (score_of e) worst = false.

Lemma py_min_spec xs :
  Forall (fun f => not_nan f = true) xs -> xs <> [] ->
  exists m, py_min_float xs = Some m /\ m ∈ xs /\ forall x, x ∈ xs -> f_ltb x m = false.
Proof.
  destruct xs as [|x rest]; [done|]. intros [Hx Hok]%Forall_cons _. cbn. eexists. split; [reflexivity|].
  cut (exists p, foldl (fun m y => if f_ltb y m then y else m) x rest = p /\ p ∈ x :: rest /\ not_nan p = true /\
    forall q, q ∈ x :: rest -> not_nan q = true /\ f_ltb q p = false).
  { intros (p & -> & Hin & _ & Hmin). split; [done|]. intros q Hq. by apply Hmin. }
  induction rest as [|y rest IH] using rev_ind.
  { exists x. split_and!; [done|by left|done|]. intros q ->%list_elem_of_singleton. split; [done|].
    apply not_true_iff_false. rewrite f_ltb_rank by done. apply rank_lt_irrefl. }
  apply Forall_app in Hok as [Hr Hy%Forall_inv]. destruct (IH Hr) as (p & Hp & Hin & Hpok & Hmin).
  rewrite foldl_app, Hp. cbn. exists (if f_ltb y p then y else p). split; [done|]. rewrite app_comm_cons.
  destruct (f_ltb y p) eqn:E.
  - split; [apply elem_of_app; right; by left|]. split; [done|].
    intros q [Hq| ->%list_elem_of_singleton]%elem_of_app; (split; [try done; by apply Hmin|]).
    + destruct (Hmin q Hq) as [Hqn Hq'].
      apply not_true_iff_false in Hq'. apply not_true_iff_false. rewrite f_ltb_rank in * by done.
      unfold rank_lt in *. lia.
    + apply not_true_iff_false. rewrite f_ltb_rank by done. apply rank_lt_irrefl.
  - split; [apply elem_of_app; by left|]. split; [done|].
    intros q [Hq| ->%list_elem_of_singleton]%elem_of_app; [by apply Hmin|done].
Qed.

Lemma worst_exists entries :
  Forall scored (_success_entries entries) -> _success_entries entries <> [] ->
  exists worst, py_min_float (omap log_score (_success_entries entries)) = Some worst /\ worst_score entries worst.
Proof.
  intros Hs Hne. rewrite omap_scores by done.
  destruct (py_min_spec (map score_of (_success_entries entries))) as (m & Hm & Hin & Hmin).
  - apply Forall_map. eapply Forall_impl; [exact Hs|]. intros e (f & Hf & Hn). cbn. unfold score_of. by rewrite Hf.
  - by destruct (_success_entries entries).
  - exists m. split; [done|]. split; [done|]. intros e He. apply Hmin. by apply (list_elem_of_fmap_2 score_of).
Qed.

(** C21: a search under hypotheses scores exactly the root actions with enough
    evidence: over final entries with a valid sample, each root action with
    valid samples for at least [required] hypotheses is listed once, scored as
    the mean over all hypotheses of its best sample, the missing ones counting
    as the worst valid score of the round, and represented by its best sample;
    the rest are left out, the list is best first, the best action is its head.
    With no required coverage, a root action without any sample makes the
    aggregation raise. *)
Theorem hypothesis_search_scores_covered_roots entries fraction required :
  Forall scored_entry entries -> Forall (fun e => is_final e = true) entries ->
  f_leb (f_of_Z 0) fraction && f_leb fraction (f_of_Z 1) = true ->
  all_hypotheses entries <> [] -> _success_entries entries <> [] ->
  f_ceil (f_mul (f_of_Z (Z.of_nat (length (all_hypotheses entries)))) fraction) = Some required ->
  match aggregate_hypothesis_results entries fraction with
  | Ok r =>
      (forall root, root ∈ all_roots entries -> ~ uncovered entries required root) /\
      map agg_root_action_key (viable_actions r) ≡ₚ
        List.filter (fun root => required <=? coverage entries root) (all_roots entries) /\
      (exists worst, worst_score entries worst /\
         Forall (root_scored entries (Z.of_nat (length (all_hypotheses entries))) worst) (viable_actions r)) /\
      (Forall (fun a => not_nan (aggregate_score a) = true) (viable_actions r) ->
         StronglySorted (listed_before str_ltb agg_root_action_key) (viable_actions r)) /\
      best_action r = head (viable_actions r)
  | Raise e => e = empty_max /\ exists root, root ∈ all_roots entries /\ uncovered entries required root
  end.
Proof.
  intros Hs Hf Hfr Hh Hv Hreq. unfold aggregate_hypothesis_results.
  rewrite Hfr, (proj2 (require_final_Ok entries) Hf), Hreq. cbn [negb mbind Res_bind].
  replace (_ =? 0) with false by (symmetry; apply Z.eqb_neq; destruct (all_hypotheses entries); [done|cbn; lia]).
  replace (Nat.eqb _ 0) with false by (destruct (_success_entries entries); done). cbn [orb].
  apply success_scored in Hs. destruct (worst_exists entries Hs Hv) as (worst & Hw & Hworst). rewrite Hw.
  pose proof (aggregate_roots_spec entries (foldl add_sample [] (_success_entries entries))
    (Z.of_nat (length (all_hypotheses entries))) required worst (all_roots entries) Hs) as Hspec.
  destruct (aggregate_roots _ _ required worst _) as [out|e]; cbn [mbind Res_bind].
  - destruct Hspec as (H1 & H2 & H3); [intros root; rewrite samples_of_root; by apply root_samples_best|].
    cbn [viable_actions best_action]. split_and!; [done| | | |done].
    + rewrite <- H2. by rewrite sort_by_Permutation.
    + exists worst. split; [done|]. by rewrite sort_by_Permutation.
    + intros Hn. rewrite sort_by_Permutation in Hn.
      apply sort_listed; [apply str_ltb_asym|apply str_ltb_ntrans|exact Hn].
  - apply Hspec. intros root. rewrite samples_of_root. by apply root_samples_best.
Qed.

(** Two hypotheses, three root actions: one with a missing sample, one fully
    sampled, one never sampled. *)
Definition example_log (root h : string) (score : option Z) : BranchDecisionLogEntry :=
  {| log_status := match score with Some _ => DECISION_LOG_STATUS_SUCCESS | None => DECISION_LOG_STATUS_TIMEOUT end;
     root_action_key := root; log_hypothesis_id := Some h; log_plan_path := []; replay_prefix_digest := "";
     log_work_id := root +:+ h;
     work_item_state := match score with Some _ => WORK_ITEM_FINAL_SUCCESS | None => WORK_ITEM_FINAL_FAULT end;
     log_score := f_of_Z <$> score; log_semantic_action := Some example_semantic; log_target_index := None;
     log_target_enemy_index := None; log_expected_signature := None; log_result_signature := None;
     log_fault_kind := None; log_diagnostics := [] |}.
Definition example_logs : list BranchDecisionLogEntry :=
  [example_log "a" "h1" (Some 3); example_log "a" "h2" None; example_log "b" "h1" (Some 5);
   example_log "b" "h2" (Some 1); example_log "c" "h1" None].

Lemma example_logs_scored : Forall scored_entry example_logs.
Proof. repeat constructor; intros H; try discriminate H; eexists; split; reflexivity. Qed.

Definition listed (r : Res AggregationResult) : list (string * spec_float * Z) :=
  match r with
  | Ok r => map (fun a => (agg_root_action_key a, aggregate_score a, missing_sample_count a)) (viable_actions r)
  | Raise _ => []
  end.

Lemma plain_search_ranks_successes_witness :
  match aggregate_plain_results example_logs with
  | Ok r => map representative_entry (viable_actions r) ≡ₚ _success_entries example_logs
  | Raise _ => False
  end /\
  map fst (listed (aggregate_plain_results example_logs))
  = [("b"%string, f_of_Z 5); ("a"%string, f_of_Z 3); ("b"%string, f_of_Z 1)].
Proof.
  split; [|vm_compute; reflexivity].
  pose proof (plain_search_ranks_successes example_logs example_logs_scored) as H.
  destruct (aggregate_plain_results example_logs) as [r|e] eqn:E; [apply H|].
  vm_compute in E. discriminate E.
Defined.

(** "a" scores (3 + 1) / 2 with the missing sample at the worst score, "b"
    (5 + 1) / 2; at no required coverage the aggregation raises for "c". *)
Lemma hypothesis_search_scores_covered_roots_witness :
  match aggregate_hypothesis_results example_logs (f_half 1) with
  | Ok r => map agg_root_action_key (viable_actions r) ≡ₚ ["a"; "b"]%string
  | Raise _ => False
  end /\
  listed (aggregate_hypothesis_results example_logs (f_half 1))
  = [("b"%string, f_of_Z 3, 0); ("a"%string, f_of_Z 2, 1)] /\
  aggregate_hypothesis_results example_logs (f_of_Z 0) = Raise empty_max.
Proof.
  split; [|split; vm_compute; reflexivity].
  assert (Hf : Forall (fun e => is_final e = true) example_logs) by (repeat constructor).
  pose proof (hypothesis_search_scores_covered_roots example_logs (f_half 1) 1 example_logs_scored Hf eq_refl) as H.
  destruct (aggregate_hypothesis_results example_logs (f_half 1)) as [r|e] eqn:E.
  - destruct H as (_ & H & _); [intros [=]|intros [=]|vm_compute; reflexivity|].
    replace (List.filter _ _) with ["a"; "b"]%string in H by (vm_compute; reflexivity). exact H.
  - vm_compute in E. discriminate E.
Defined.

(** no fault of a worker goes unclassified: whatever a worker execution
    answers is a success, or a fault whose diagnostics have a branch fault
    kind, with a reuse policy - the worker is kept only after a validation
    rejection - and a decision-log status. *)
Theorem worker_faults_classified json_loads format_exc {S} {HS : CombatSession S} wid wgen req
    (rt : WorkerRuntime S) r rt' :
  execute json_loads format_exc wid wgen req rt = (Ok r, rt') ->
  status r = BRANCH_STATUS_SUCCESS \/
  status r = BRANCH_STATUS_FAULT /\ exists kind reuse log,
    classify_fault (diagnostics r) = Ok kind /\ worker_reuse_policy kind = Ok reuse /\
    (reuse = REUSE_SAFE <-> kind = FAULT_VALIDATION_REJECTION) /\
    dget kind _DECISION_LOG_STATUS_BY_FAULT = Some log.
Proof.
  intros H. destruct (execute_explained json_loads format_exc _ _ _ _ _ _ H) as [Hs|(Hs & kind & Hk & Hin)]; [by left|].
  right. split; [done|]. exists kind. apply str_in_elem in Hin. unfold BRANCH_FAULT_KINDS in Hin.
  repeat (apply elem_of_cons in Hin as [->|Hin]; [do 2 eexists; split; [exact Hk|];
    split; [reflexivity|]; split; [split; intros E; first [reflexivity|discriminate E]|reflexivity]|]).
  by apply not_elem_of_nil in Hin.
Qed.

(** A worker whose session cannot even be restored. *)
Definition failed_execution : Res BranchResult * WorkerRuntime (list BattleState) :=
  @execute no_json plain_exc _ ScriptedSession 0 1
    {| req_work_item := lease_item "a" 0; req_execution_mode := EXECUTION_MODE_BOOTSTRAP_STEP; expected_lease := None |}
    {| rt_session := []; current_state := None; current_context_id := None; current_hypothesis_id := None;
       rt_state_epoch := 0 |}.
Definition failed_result : BranchResult :=
  Eval vm_compute in from_ok failed_execution.1 (bare_result "" (lease_item "a" 0) "" None None).

Lemma worker_faults_classified_witness :
  failed_execution.1 = Ok failed_result /\ status failed_result = BRANCH_STATUS_FAULT /\
  (status failed_result = BRANCH_STATUS_SUCCESS \/
   status failed_result = BRANCH_STATUS_FAULT /\ exists kind reuse log,
     classify_fault (diagnostics failed_result) = Ok kind /\ worker_reuse_policy kind = Ok reuse /\
     (reuse = REUSE_SAFE <-> kind = FAULT_VALIDATION_REJECTION) /\
     dget kind _DECISION_LOG_STATUS_BY_FAULT = Some log).
Proof.
  assert (E : failed_execution.1 = Ok failed_result) by (vm_compute; reflexivity).
  split; [exact E|]. split; [reflexivity|].
  apply (@worker_faults_classified no_json plain_exc _ ScriptedSession 0 1
    {| req_work_item := lease_item "a" 0; req_execution_mode := EXECUTION_MODE_BOOTSTRAP_STEP; expected_lease := None |}
    {| rt_session := []; current_state := None; current_context_id := None; current_hypothesis_id := None;
       rt_state_epoch := 0 |} failed_result failed_execution.2).
  rewrite <- E. apply surjective_pairing.
Defined.
