(* ===== verification/Coordinator.v ===== *)
(** The search coordinator's dispatch loop (Combat/search/search_coordinator.py):
    every work item of a batch is dispatched, and retried after a fault, until it
    has a final outcome. The loop is stated over an interface of the worker
    pool, which the dispatcher of [Leases] implements. *)

From S2P Require Export Faults.

Record SearchCoordinatorConfig := {
  width : Z;
  hypothesis_count : Z;
  cfg_min_coverage_fraction : spec_float;
  worker_count : Z;
  max_retries : Z;
  request_timeout_s : spec_float;
}.

Record SearchCoordinatorMetrics := {
  pipeline_candidate_count : Z;
  pruned_candidate_count : Z;
  work_item_count : Z;
  hypothesis_involved : bool;
  m_hypothesis_count : Z;
  dispatch_round_count : Z;
  branch_step_count : Z;
  bootstrap_step_count : Z;
  holder_step_count : Z;
  replay_count : Z;
  fault_count : Z;
  retry_count : Z;
  worker_ids_used : gset Z;
  final_success_count : Z;
  final_fault_count : Z;
  aggregation_mode : option string;
  best_aggregate_score : option spec_float;
  aggregation_diagnostics : pydict;
}.

Definition no_metrics : SearchCoordinatorMetrics :=
  {| pipeline_candidate_count := 0; pruned_candidate_count := 0; work_item_count := 0;
     hypothesis_involved := false; m_hypothesis_count := 0; dispatch_round_count := 0;
     branch_step_count := 0; bootstrap_step_count := 0; holder_step_count := 0; replay_count := 0;
     fault_count := 0; retry_count := 0; worker_ids_used := ∅; final_success_count := 0;
     final_fault_count := 0; aggregation_mode := None; best_aggregate_score := None;
     aggregation_diagnostics := [] |}.

Definition worker_utilization_fraction (m : SearchCoordinatorMetrics) : spec_float :=
  if work_item_count m <=? 0 then f_of_Z 0
  else f_div (f_of_Z (Z.of_nat (size (worker_ids_used m)))) (f_of_Z (work_item_count m)).

(** The counters the dispatch loop changes, as increments. *)
Definition count (rounds steps boots holders faults retries : Z) (used : gset Z)
    (successes final_faults : Z) (m : SearchCoordinatorMetrics) : SearchCoordinatorMetrics :=
  {| pipeline_candidate_count := pipeline_candidate_count m;
     pruned_candidate_count := pruned_candidate_count m; work_item_count := work_item_count m;
     hypothesis_involved := hypothesis_involved m; m_hypothesis_count := m_hypothesis_count m;
     dispatch_round_count := dispatch_round_count m + rounds;
     branch_step_count := branch_step_count m + steps;
     bootstrap_step_count := bootstrap_step_count m + boots;
     holder_step_count := holder_step_count m + holders; replay_count := replay_count m + boots;
     fault_count := fault_count m + faults; retry_count := retry_count m + retries;
     worker_ids_used := worker_ids_used m ∪ used;
     final_success_count := final_success_count m + successes;
     final_fault_count := final_fault_count m + final_faults;
     aggregation_mode := aggregation_mode m; best_aggregate_score := best_aggregate_score m;
     aggregation_diagnostics := aggregation_diagnostics m |}.

Definition count_round : SearchCoordinatorMetrics -> SearchCoordinatorMetrics := count 1 0 0 0 0 0 ∅ 0 0.
Definition count_step (r : BranchResult) : SearchCoordinatorMetrics -> SearchCoordinatorMetrics :=
  let boot := String.eqb (execution_mode r) EXECUTION_MODE_BOOTSTRAP_STEP in
  let holder := String.eqb (execution_mode r) EXECUTION_MODE_HOLDER_STEP in
  count 0 1 (Z.b2z boot) (Z.b2z (negb boot && holder)) 0 0
    (match res_worker_id r with Some wid => {[wid]} | None => ∅ end) 0 0.
Definition count_fault : SearchCoordinatorMetrics -> SearchCoordinatorMetrics := count 0 0 0 0 1 0 ∅ 0 0.
Definition count_retry : SearchCoordinatorMetrics -> SearchCoordinatorMetrics := count 0 0 0 0 0 1 ∅ 0 0.
Definition count_finals (states : list string) : SearchCoordinatorMetrics -> SearchCoordinatorMetrics :=
  let occurrences s := Z.of_nat (length (List.filter (String.eqb s) states)) in
  count 0 0 0 0 0 0 ∅ (occurrences WORK_ITEM_FINAL_SUCCESS) (occurrences WORK_ITEM_FINAL_FAULT).

(** * The worker pool's interface *)

(** A result for the item it was asked for: a success, or a fault whose
    diagnostics can be classified; the worker's generation is positive. *)
Definition answers (w : WorkItem) (r : BranchResult) : Prop :=
  work_item r = w /\ (forall g, res_worker_generation r = Some g -> 0 < g) /\
  (status r = BRANCH_STATUS_SUCCESS \/
   status r = BRANCH_STATUS_FAULT /\ exists kind, classify_fault (diagnostics r) = Ok kind /\
     str_in kind BRANCH_FAULT_KINDS = true).

(** [dispatch_work_items(items, lease_registry, worker_pool=pool)] on a pool of
    state [P]. A pool in order answers every batch and stays in order. *)
Class BranchDispatcher (P : Type) := {
  dispatch : list WorkItem -> M P (list BranchResult);
  pool_ok : P -> Prop;
  dispatch_answers items p : pool_ok p ->
    exists rs p', dispatch items p = (Ok rs, p') /\ pool_ok p' /\ Forall2 answers items rs;
}.

(** * The retry loop *)

(** The loop's local dictionaries. *)
Record Book := {
  attempts : list (string * WorkItemAttempt);
  final_results : list (string * BranchResult);
  final_states : list (string * string);
}.

Definition first_attempt (w : WorkItem) : WorkItemAttempt :=
  {| at_work_id := work_id w; attempt_count := 0; at_state := WORK_ITEM_RUNNING; at_worker_generation := 1 |}.
Definition open_book (items : list WorkItem) : Book :=
  {| attempts := foldl (fun d w => dset (work_id w) (first_attempt w) d) [] items;
     final_results := []; final_states := [] |}.
Definition set_attempt (a : WorkItemAttempt) (k : string) (b : Book) : Book :=
  {| attempts := dset k a (attempts b); final_results := final_results b; final_states := final_states b |}.
Definition set_final (r : BranchResult) (state k : string) (b : Book) : Book :=
  {| attempts := attempts b; final_results := dset k r (final_results b);
     final_states := dset k state (final_states b) |}.
Definition attempt_of (k : string) (b : Book) : Res WorkItemAttempt :=
  match dget k (attempts b) with Some a => Ok a | None => Raise (PyExc "KeyError" (repr_str k)) end.

(** [branch_result.worker_generation or attempt.worker_generation]. *)
Definition generation_or (g : option Z) (default : Z) : Z :=
  match g with Some 0 | None => default | Some g => g end.

Definition attempt_asdict (a : WorkItemAttempt) : pyval :=
  VDict [("work_id", VStr (at_work_id a)); ("attempt_count", VInt (attempt_count a));
         ("state", VStr (at_state a)); ("worker_generation", VInt (at_worker_generation a))].
Definition cap_error (config : SearchCoordinatorConfig) (b : Book) : pyexn :=
  PyExc "RuntimeError" ("SearchCoordinator retry loop exceeded defensive round cap " +:+
    pretty (max_retries config + 2) +:+ " for max_retries=" +:+ pretty (max_retries config) +:+ "; states=" +:+
    py_repr (VDict (map (fun p => (p.1, attempt_asdict p.2)) (attempts b)))).

Section Retry.
Context {P : Type} {HD : BranchDispatcher P} (config : SearchCoordinatorConfig).

(** The pool with the optional metrics. *)
Definition CoordState : Type := P * option SearchCoordinatorMetrics.
Definition on_pool {A} (c : M P A) : M CoordState A := fun st =>
  let '(r, p) := c st.1 in (r, (p, st.2)).
Definition meter (f : SearchCoordinatorMetrics -> SearchCoordinatorMetrics) : M CoordState unit :=
  modS (fun st => (st.1, f <$> st.2)).

(** One result of a round: the item settles, or is kept for the next round. *)
Definition settle_result (by_work_id : list (string * WorkItem)) (w : WorkItem) (r : BranchResult)
    (b : Book) : M CoordState (Book * option WorkItem) :=
  _ ← meter (count_step r);
  attempt ← liftR (attempt_of (work_id w) b);
  if String.eqb (status r) BRANCH_STATUS_SUCCESS then
    done ← liftR (attempt_check {| at_work_id := at_work_id attempt; attempt_count := attempt_count attempt;
             at_state := WORK_ITEM_FINAL_SUCCESS;
             at_worker_generation := generation_or (res_worker_generation r) (at_worker_generation attempt) |});
    mret (set_final r WORK_ITEM_FINAL_SUCCESS (work_id w) (set_attempt done (work_id w) b), None)
  else if negb (String.eqb (status r) BRANCH_STATUS_FAULT) then
    raiseM (PyExc "RuntimeError" ("unknown BranchResult status " +:+ repr_str (status r)))
  else
    fault_kind ← liftR (classify_fault (diagnostics r));
    _ ← meter count_fault;
    retry ← liftR (decide_retry attempt fault_kind (max_retries config));
    next ← liftR (attempt_check {| at_work_id := at_work_id attempt; attempt_count := rd_attempt_count retry;
             at_state := next_state retry; at_worker_generation := rd_worker_generation retry |});
    let b := set_attempt next (work_id w) b in
    if should_retry retry then
      _ ← meter count_retry;
      match dget (work_id w) by_work_id with
      | Some item => mret (b, Some item)
      | None => raiseM (PyExc "KeyError" (repr_str (work_id w)))
      end
    else mret (set_final r WORK_ITEM_FINAL_FAULT (work_id w) b, None).

(** The results of a round, and the items left for the next. *)
Fixpoint settle_round (by_work_id : list (string * WorkItem)) (pairs : list (WorkItem * BranchResult))
    (b : Book) : M CoordState (Book * list WorkItem) :=
  match pairs with
  | [] => mret (b, [])
  | (w, r) :: rest =>
      settled ← settle_result by_work_id w r b;
      out ← settle_round by_work_id rest settled.1;
      mret (out.1, option_list settled.2 ++ out.2)
  end.

(** The [while] loop; [rounds] more rounds are below the cap. *)
Fixpoint retry_rounds (by_work_id : list (string * WorkItem)) (rounds : nat) (pending : list WorkItem)
    (b : Book) : M CoordState Book :=
  match pending with
  | [] => mret b
  | _ =>
      _ ← meter count_round;
      match rounds with
      | O => raiseM (cap_error config b)
      | S rounds =>
          branch_results ← on_pool (dispatch pending);
          if negb (Nat.eqb (length branch_results) (length pending)) then
            raiseM (PyExc "RuntimeError" ("dispatch_work_items returned " +:+
              pretty (Z.of_nat (length branch_results)) +:+ " results for " +:+
              pretty (Z.of_nat (length pending)) +:+ " WorkItems"))
          else
            out ← settle_round by_work_id (zip pending branch_results) b;
            retry_rounds by_work_id rounds out.2 out.1
      end
  end.

Definition final_outcome (b : Book) (w : WorkItem) : Res (WorkItem * BranchResult * string) :=
  match dget (work_id w) (final_results b), dget (work_id w) (final_states b) with
  | Some r, Some s => Ok (w, r, s)
  | _, _ => Raise (PyExc "KeyError" (repr_str (work_id w)))
  end.

Definition _dispatch_work_items_until_final (work_items : list WorkItem) :
    M CoordState (list (WorkItem * BranchResult * string)) :=
  let by_work_id := foldl (fun d w => dset (work_id w) w d) [] work_items in
  b ← retry_rounds by_work_id (Z.to_nat (max_retries config + 2)) work_items (open_book work_items);
  _ ← meter (count_finals (final_states b).*2);
  liftR (mapR (final_outcome b) work_items).
End Retry.

(** * Every item settles *)

Section RetryFacts.
Context {P : Type} {HD : BranchDispatcher P} (config : SearchCoordinatorConfig).
Local Notation retries := (max_retries config).

(** [w] was faulted [c] times and may still be retried. *)
Definition open_at (c : Z) (b : Book) (w : WorkItem) : Prop :=
  exists a, dget (work_id w) (attempts b) = Some a /\
    str_in (at_state a) [WORK_ITEM_RUNNING; WORK_ITEM_RETRYING] = true /\
    attempt_count a = c /\ 0 < at_worker_generation a.

(** [w] has its final outcome: a success within the allowed retries, or the
    fault of its last allowed attempt. *)
Definition settled (b : Book) (w : WorkItem) : Prop :=
  exists r s a, dget (work_id w) (final_results b) = Some r /\ dget (work_id w) (final_states b) = Some s /\
    dget (work_id w) (attempts b) = Some a /\ answers w r /\
    (status r = BRANCH_STATUS_SUCCESS /\ s = WORK_ITEM_FINAL_SUCCESS /\ attempt_count a <= retries \/
     status r = BRANCH_STATUS_FAULT /\ s = WORK_ITEM_FINAL_FAULT /\ attempt_count a = retries + 1).

Definition agree_at (k : string) (b b' : Book) : Prop :=
  dget k (attempts b') = dget k (attempts b) /\ dget k (final_results b') = dget k (final_results b) /\
  dget k (final_states b') = dget k (final_states b).

Lemma agree_refl k b : agree_at k b b.
Proof. by split_and!. Qed.
Lemma agree_trans k b1 b2 b3 : agree_at k b1 b2 -> agree_at k b2 b3 -> agree_at k b1 b3.
Proof. unfold agree_at. intros (? & ? & ?) (? & ? & ?). split_and!; congruence. Qed.
Lemma open_agree c b b' w : agree_at (work_id w) b b' -> open_at c b w -> open_at c b' w.
Proof. unfold open_at. by intros (-> & _). Qed.
Lemma settled_agree b b' w : agree_at (work_id w) b b' -> settled b w -> settled b' w.
Proof. unfold settled. intros (-> & -> & ->). done. Qed.

(** The metrics of a run, when it is metered: at most [n] more rounds. *)
Definition rounds_within (n : Z) (st st' : @CoordState P) : Prop :=
  match st.2, st'.2 with
  | Some m, Some m' => dispatch_round_count m <= dispatch_round_count m' <= dispatch_round_count m + n
  | None, None => True
  | _, _ => False
  end.
Lemma rounds_refl n st : 0 <= n -> rounds_within n st st.
Proof. unfold rounds_within. destruct st.2; [lia|done]. Qed.
Lemma rounds_trans n k st1 st2 st3 : rounds_within n st1 st2 -> rounds_within k st2 st3 -> rounds_within (n + k) st1 st3.
Proof. unfold rounds_within. destruct st1.2, st2.2, st3.2; try done. lia. Qed.
Lemma meter_run f (st : @CoordState P) :
  meter f st = (Ok tt, (st.1, f <$> st.2)).
Proof. reflexivity. Qed.
Lemma rounds_meter n f st :
  (forall m, dispatch_round_count m <= dispatch_round_count (f m) <= dispatch_round_count m + n) ->
  rounds_within n st (st.1, f <$> st.2).
Proof. intros Hf. unfold rounds_within. cbn. destruct st.2; cbn; [apply Hf|done]. Qed.
Lemma rounds_count_step r st : rounds_within 0 st (st.1, count_step r <$> st.2).
Proof. apply rounds_meter. intros m. cbn. lia. Qed.

Lemma policy_total kind : str_in kind BRANCH_FAULT_KINDS = true -> exists p, worker_reuse_policy kind = Ok p.
Proof.
  intros H. unfold worker_reuse_policy. rewrite H.
  destruct (String.eqb kind FAULT_VALIDATION_REJECTION); by eexists.
Qed.

(** A book changed only at [w]. *)
Lemma agree_attempt a w b k : k <> work_id w -> agree_at k b (set_attempt a (work_id w) b).
Proof. intros Hk. unfold agree_at. cbn. by rewrite dget_dset_ne by congruence. Qed.
Lemma agree_final r s a w b k :
  k <> work_id w -> agree_at k b (set_final r s (work_id w) (set_attempt a (work_id w) b)).
Proof. intros Hk. unfold agree_at. cbn. by rewrite !dget_dset_ne by congruence. Qed.

Lemma attempt_check_ok a :
  str_in (at_state a) WORK_ITEM_STATES = true -> 0 <= attempt_count a -> 0 < at_worker_generation a ->
  attempt_check a = Ok a.
Proof.
  intros Hs Hc Hg. unfold attempt_check. rewrite Hs.
  replace (attempt_count a <? 0) with false by (symmetry; apply Z.ltb_ge; lia).
  by replace (at_worker_generation a <=? 0) with false by (symmetry; apply Z.leb_gt; lia).
Qed.

Lemma generation_or_pos g d : (forall n, g = Some n -> 0 < n) -> 0 < d -> 0 < generation_or g d.
Proof.
  intros Hg Hd. unfold generation_or. destruct g as [n|]; [|done]. specialize (Hg n eq_refl).
  by destruct n.
Qed.

(** How [decide_retry] advances an open attempt. *)
Definition retried (a : WorkItemAttempt) (p : string) : RetryDecision :=
  let again := attempt_count a + 1 <=? retries in
  {| next_state := if again then WORK_ITEM_RETRYING else WORK_ITEM_FINAL_FAULT; policy := p;
     should_retry := again;
     rd_worker_generation := if String.eqb p FORCE_RESTART then at_worker_generation a + 1
                             else at_worker_generation a;
     rd_attempt_count := attempt_count a + 1 |}.
Definition after_retry (a : WorkItemAttempt) (p : string) : WorkItemAttempt :=
  {| at_work_id := at_work_id a; attempt_count := rd_attempt_count (retried a p);
     at_state := next_state (retried a p); at_worker_generation := rd_worker_generation (retried a p) |}.

Lemma decide_retry_open a kind :
  0 <= retries -> str_in (at_state a) [WORK_ITEM_RUNNING; WORK_ITEM_RETRYING] = true ->
  str_in kind BRANCH_FAULT_KINDS = true -> exists p, decide_retry a kind retries = Ok (retried a p).
Proof.
  intros Hr Hs Hk. destruct (policy_total kind Hk) as [p Hp]. exists p. unfold decide_retry.
  replace (retries <? 0) with false by (symmetry; apply Z.ltb_ge; lia). by rewrite Hs, Hp.
Qed.

Lemma after_retry_ok a p :
  0 <= attempt_count a -> 0 < at_worker_generation a -> attempt_check (after_retry a p) = Ok (after_retry a p).
Proof.
  intros Hc Hg. apply attempt_check_ok; cbn.
  - by destruct (attempt_count a + 1 <=? retries).
  - lia.
  - destruct (String.eqb p FORCE_RESTART); lia.
Qed.

(** What becomes of one result. *)
Definition settles (w : WorkItem) (c : Z) (b : Book) (st : @CoordState P)
    (out : Res (Book * option WorkItem) * @CoordState P) : Prop :=
  exists b' o st', out = (Ok (b', o), st') /\ st'.1 = st.1 /\ rounds_within 0 st st' /\
    (forall k, k <> work_id w -> agree_at k b b') /\
    (o = None /\ settled b' w \/ o = Some w /\ c < retries /\ open_at (c + 1) b' w).

Lemma settle_success by_id w r b c (st : @CoordState P) :
  answers w r -> status r = BRANCH_STATUS_SUCCESS -> open_at c b w -> 0 <= c <= retries ->
  settles w c b st (settle_result config by_id w r b st).
Proof.
  intros Hans Hs (a & Ha & Hopen & Hc & Hg) Hr. unfold settle_result.
  erewrite M_run_Ok by apply meter_run.
  erewrite M_run_Ok by (unfold liftR, attempt_of; rewrite Ha; reflexivity). rewrite Hs.
  change (String.eqb BRANCH_STATUS_SUCCESS BRANCH_STATUS_SUCCESS) with true. cbv iota.
  erewrite M_run_Ok.
  2:{ unfold liftR. rewrite attempt_check_ok; [reflexivity|reflexivity|cbn; lia|].
      apply generation_or_pos; [apply Hans|done]. }
  do 3 eexists. split; [reflexivity|]. split; [reflexivity|]. split; [apply rounds_count_step|].
  split; [intros; by apply agree_final|]. left. split; [done|].
  unfold settled. cbn. rewrite !dget_dset_eq. do 3 eexists. split; [reflexivity|]. split; [reflexivity|].
  split; [reflexivity|]. split; [exact Hans|]. left. cbn. split_and!; [done|done|lia].
Qed.

Lemma settle_fault by_id w r b c kind (st : @CoordState P) :
  answers w r -> status r = BRANCH_STATUS_FAULT -> classify_fault (diagnostics r) = Ok kind ->
  str_in kind BRANCH_FAULT_KINDS = true -> open_at c b w -> 0 <= c <= retries ->
  dget (work_id w) by_id = Some w -> settles w c b st (settle_result config by_id w r b st).
Proof.
  intros Hans Hs Hk Hin (a & Ha & Hopen & Hc & Hg) Hr Hby. unfold settle_result.
  erewrite M_run_Ok by apply meter_run.
  erewrite M_run_Ok by (unfold liftR, attempt_of; rewrite Ha; reflexivity). rewrite Hs.
  change (String.eqb BRANCH_STATUS_FAULT BRANCH_STATUS_SUCCESS) with false.
  change (negb (String.eqb BRANCH_STATUS_FAULT BRANCH_STATUS_FAULT)) with false. cbv iota.
  erewrite M_run_Ok by (unfold liftR; rewrite Hk; reflexivity). erewrite M_run_Ok by apply meter_run.
  destruct (decide_retry_open a kind) as [p Hd]; [lia|done|done|].
  erewrite M_run_Ok by (unfold liftR; rewrite Hd; reflexivity).
  assert (Hchk : attempt_check (after_retry a p) = Ok (after_retry a p)) by (apply after_retry_ok; lia).
  unfold after_retry in Hchk. erewrite M_run_Ok by (unfold liftR; rewrite Hchk; reflexivity).
  cbn [should_retry retried]. destruct (Z.leb_spec (attempt_count a + 1) retries) as [Hle|Hgt].
  - erewrite M_run_Ok by apply meter_run. rewrite Hby.
    do 3 eexists. split; [reflexivity|]. split; [reflexivity|]. split.
    { unfold rounds_within. cbn. destruct st.2; cbn; [lia|done]. }
    split; [intros; by apply agree_attempt|]. right. split; [done|]. split; [lia|].
    exists (after_retry a p). cbn [attempts set_attempt]. rewrite dget_dset_eq. split; [reflexivity|]. cbn.
    destruct (Z.leb_spec (attempt_count a + 1) retries); [|lia]. split_and!; [done|lia|].
    destruct (String.eqb p FORCE_RESTART); lia.
  - do 3 eexists. split; [reflexivity|]. split; [reflexivity|]. split.
    { unfold rounds_within. cbn. destruct st.2; cbn; [lia|done]. }
    split; [intros; by apply agree_final|]. left. split; [done|].
    unfold settled. cbn [attempts final_results final_states set_final set_attempt]. rewrite !dget_dset_eq.
    do 3 eexists. split; [reflexivity|]. split; [reflexivity|]. split; [reflexivity|]. split; [exact Hans|].
    right. split_and!; [done|done|cbn; lia].
Qed.

Lemma settle_result_spec by_id w r b c (st : @CoordState P) :
  answers w r -> open_at c b w -> 0 <= c <= retries -> dget (work_id w) by_id = Some w ->
  settles w c b st (settle_result config by_id w r b st).
Proof.
  intros Hans Ho Hc Hby. pose proof Hans as (_ & _ & [Hs|(Hs & kind & Hk & Hin)]).
  - by apply settle_success.
  - by eapply settle_fault.
Qed.

(** A round over items with distinct ids, all faulted [c] times so far. *)
Lemma settle_round_spec by_id c pairs : forall b (st : @CoordState P),
  Forall (fun p => answers p.1 p.2) pairs -> NoDup (map (fun p => work_id p.1) pairs) -> 0 <= c <= retries ->
  Forall (fun p => open_at c b p.1 /\ dget (work_id p.1) by_id = Some p.1) pairs ->
  exists b' again st', settle_round config by_id pairs b st = (Ok (b', again), st') /\ st'.1 = st.1 /\
    rounds_within 0 st st' /\ again `sublist_of` pairs.*1 /\ (c = retries -> again = []) /\
    (forall k, k ∉ map (fun p => work_id p.1) pairs -> agree_at k b b') /\
    (forall w, w ∈ pairs.*1 -> w ∈ again /\ open_at (c + 1) b' w \/ w ∉ again /\ settled b' w).
Proof.
  induction pairs as [|[w r] rest IH]; intros b st Hans Hnd Hc Hopen.
  { do 3 eexists. split; [reflexivity|]. split_and!; [done|by apply rounds_refl|constructor|done|intros; apply agree_refl|].
    intros w []%not_elem_of_nil. }
  apply Forall_cons in Hans as [Hw Hans]. cbn in Hnd. apply NoDup_cons in Hnd as [Hni Hnd].
  apply Forall_cons in Hopen as [[How Hby] Hopen]. cbn [fst snd] in *.
  destruct (settle_result_spec by_id w r b c st Hw How Hc Hby) as (b1 & o & st1 & Hrun & Hp1 & Hm1 & Hag1 & Ho).
  assert (Hopen1 : Forall (fun p => open_at c b1 p.1 /\ dget (work_id p.1) by_id = Some p.1) rest).
  { apply Forall_forall. intros p Hp. rewrite Forall_forall in Hopen. destruct (Hopen p Hp) as [H1 H2].
    split; [|done]. eapply open_agree; [|exact H1]. apply Hag1. intros Heq. apply Hni. rewrite <- Heq.
    by apply (list_elem_of_fmap_2 (fun p => work_id p.1)). }
  destruct (IH b1 st1 Hans Hnd Hc Hopen1) as (b2 & again & st2 & Hrun2 & Hp2 & Hm2 & Hsub & Hlast & Hag2 & Hall).
  exists b2, (option_list o ++ again), st2. split.
  { cbn [settle_round]. erewrite M_run_Ok by exact Hrun. by erewrite M_run_Ok by exact Hrun2. }
  assert (Hnw : w ∉ again).
  { intros Hin. apply Hni. apply sublist_submseteq in Hsub. eapply elem_of_submseteq in Hsub; [|exact Hin].
    apply list_elem_of_fmap in Hsub as (p & -> & Hp). by apply (list_elem_of_fmap_2 (fun p => work_id p.1)). }
  split_and!; [congruence|by apply (rounds_trans 0 0 _ st1)| | | |].
  - destruct Ho as [[-> _]|(-> & _)]; cbn; by constructor.
  - intros Heq. destruct Ho as [[-> _]|(-> & ? & _)]; [|lia]. by apply Hlast.
  - intros k Hk. cbn in Hk. apply not_elem_of_cons in Hk as [H1 H2].
    eapply agree_trans; [by apply Hag1|by apply Hag2].
  - intros x [->|Hx]%elem_of_cons.
    + destruct Ho as [[-> Hs]|(-> & _ & Hs)]; [right|left]; cbn.
      * split; [done|]. by eapply settled_agree; [apply Hag2|].
      * split; [by left|]. by eapply open_agree; [apply Hag2|].
    + destruct (Hall x Hx) as [[H1 H2]|[H1 H2]]; [left|right]; (split; [|done]).
      * apply elem_of_app. by right.
      * destruct Ho as [[-> _]|(-> & _)]; [done|]. cbn. intros [->|?]%elem_of_cons; [|done].
        apply Hni. apply list_elem_of_fmap in Hx as (p & -> & Hp).
        by apply (list_elem_of_fmap_2 (fun p => work_id p.1)).
Qed.

Lemma zip_fst_answers items rs :
  Forall2 answers items rs ->
  Forall (fun p => answers p.1 p.2) (zip items rs) /\ (zip items rs).*1 = items /\
  map (fun p => work_id p.1) (zip items rs) = map work_id items.
Proof.
  induction 1 as [|w r items rs Hw _ (H1 & H2 & H3)]; [by split_and!|]. cbn. split_and!; [by constructor| |].
  - by rewrite H2.
  - by rewrite H3.
Qed.

Lemma NoDup_map_sublist (l k : list WorkItem) :
  l `sublist_of` k -> NoDup (map work_id k) -> NoDup (map work_id l).
Proof. intros H Hnd. eapply sublist_NoDup; [exact Hnd|]. by apply (fmap_sublist work_id). Qed.

(** From [c] rounds on, the items still pending settle within the remaining
    rounds and nothing else changes. *)
Lemma retry_rounds_spec by_id rounds : forall c pending b (st : @CoordState P),
  pool_ok st.1 -> NoDup (map work_id pending) -> 0 <= c ->
  c + Z.of_nat rounds = retries + 2 -> (pending <> [] -> c <= retries) ->
  Forall (fun w => open_at c b w /\ dget (work_id w) by_id = Some w) pending ->
  exists b' st', retry_rounds config by_id rounds pending b st = (Ok b', st') /\ pool_ok st'.1 /\
    rounds_within (Z.max 0 (retries + 1 - c)) st st' /\ Forall (settled b') pending /\
    (forall k, k ∉ map work_id pending -> agree_at k b b').
Proof.
  induction rounds as [|rounds IH]; intros c pending b st Hok Hnd Hc Hr Hle Hopen.
  { destruct pending as [|w rest]; [|exfalso; assert (c <= retries) by (by apply Hle); lia].
    exists b, st. split; [reflexivity|]. split_and!; [done| |constructor|intros; apply agree_refl].
    apply rounds_refl. lia. }
  destruct pending as [|w rest].
  { exists b, st. split; [reflexivity|]. split_and!; [done| |constructor|intros; apply agree_refl].
    apply rounds_refl. lia. }
  specialize (Hle ltac:(done)). remember (w :: rest) as pending eqn:Ep.
  set (st0 := (st.1, count_round <$> st.2) : @CoordState P).
  destruct (dispatch_answers pending (st0.1) Hok) as (rs & p1 & Hd & Hok1 & Hans).
  destruct (zip_fst_answers _ _ Hans) as (Hz1 & Hz2 & Hz3).
  destruct (settle_round_spec by_id c (zip pending rs) b (p1, st0.2)) as
    (b1 & again & st1 & Hrun & Hp1 & Hm1 & Hsub & Hlast & Hag & Hall); [done|by rewrite Hz3|lia| |].
  { apply Forall_forall. intros p Hp. rewrite Forall_forall in Hopen. apply Hopen. rewrite <- Hz2.
    by apply list_elem_of_fmap_2. }
  rewrite Hz2 in Hsub, Hall. rewrite Hz3 in Hag.
  destruct (IH (c + 1) again b1 st1) as (b2 & st2 & Hrun2 & Hok2 & Hm2 & Hset & Hag2).
  - by rewrite Hp1.
  - by eapply NoDup_map_sublist.
  - lia.
  - lia.
  - intros Hne. destruct (decide (c = retries)) as [Heq|]; [|lia]. by destruct (Hne (Hlast Heq)).
  - apply Forall_forall. intros x Hx. assert (Hxp : x ∈ pending).
    { apply sublist_submseteq in Hsub. by eapply elem_of_submseteq. }
    destruct (Hall x Hxp) as [[_ H]|[H _]]; [|done]. rewrite Forall_forall in Hopen. split; [exact H|].
    by apply Hopen.
  - exists b2, st2. split_and!; [|done| | |].
    + rewrite Ep. cbn [retry_rounds]. rewrite <- Ep. erewrite M_run_Ok by apply meter_run.
      erewrite M_run_Ok by (unfold on_pool; fold st0; rewrite Hd; reflexivity).
      rewrite (Forall2_length _ _ _ Hans), Nat.eqb_refl. cbn [negb].
      erewrite M_run_Ok by exact Hrun. exact Hrun2.
    + replace (Z.max 0 (retries + 1 - c)) with (1 + (0 + Z.max 0 (retries + 1 - (c + 1)))) by lia.
      eapply (rounds_trans 1 _ _ st0); [by apply rounds_meter; intros m; cbn; lia|].
      eapply (rounds_trans 0 _ _ st1); [exact Hm1|exact Hm2].
    + apply Forall_forall. intros x Hx. destruct (Hall x Hx) as [[H _]|[Hna H]].
      * rewrite Forall_forall in Hset. by apply Hset.
      * eapply settled_agree; [|exact H]. apply Hag2. intros (y & Heq & Hy)%list_elem_of_fmap.
        assert (x = y) as ->; [|done]. assert (Hyp : y ∈ pending).
        { apply sublist_submseteq in Hsub. by eapply elem_of_submseteq. }
        rewrite Forall_forall in Hopen. destruct (Hopen x Hx) as [_ H1], (Hopen y Hyp) as [_ H2]. congruence.
    + intros k Hk. eapply agree_trans; [by apply Hag|]. apply Hag2. intros Hin. apply Hk.
      apply list_elem_of_fmap in Hin as (y & -> & Hy). apply list_elem_of_fmap_2.
      apply sublist_submseteq in Hsub. by eapply elem_of_submseteq.
Qed.

(** A dictionary built from distinct ids. *)
Lemma dget_build {A} (f : WorkItem -> A) items : forall d w,
  NoDup (map work_id items) -> w ∈ items ->
  dget (work_id w) (foldl (fun d w => dset (work_id w) (f w) d) d items) = Some (f w).
Proof.
  assert (Hother : forall l d k, k ∉ map work_id l ->
    dget k (foldl (fun d w => dset (work_id w) (f w) d) d l) = dget k d).
  { induction l as [|x xs IH]; intros d k Hk; [done|]. cbn in Hk |- *.
    apply not_elem_of_cons in Hk as [H1 H2]. rewrite IH by exact H2. by rewrite dget_dset_ne by congruence. }
  induction items as [|x xs IH]; intros d w Hnd Hw; [by apply not_elem_of_nil in Hw|].
  cbn in Hnd |- *. apply NoDup_cons in Hnd as [Hni Hnd].
  apply elem_of_cons in Hw as [->|Hw]; [|by apply IH].
  rewrite Hother, dget_dset_eq by exact Hni. done.
Qed.

(** The outcome of one item in the answer. *)
Definition finished (w : WorkItem) (out : WorkItem * BranchResult * string) : Prop :=
  out.1.1 = w /\ answers w out.1.2 /\
  (status out.1.2 = BRANCH_STATUS_SUCCESS /\ out.2 = WORK_ITEM_FINAL_SUCCESS \/
   status out.1.2 = BRANCH_STATUS_FAULT /\ out.2 = WORK_ITEM_FINAL_FAULT).

Lemma final_outcome_settled b w : settled b w -> exists out, final_outcome b w = Ok out /\ finished w out.
Proof.
  intros (r & s & a & Hr & Hs & _ & Hans & Hcase). exists (w, r, s). unfold final_outcome. rewrite Hr, Hs.
  split; [done|]. split; [done|]. split; [done|]. cbn. destruct Hcase as [(? & ? & _)|(? & ? & _)]; auto.
Qed.

Lemma mapR_outcomes b items :
  Forall (settled b) items -> exists out, mapR (final_outcome b) items = Ok out /\ Forall2 finished items out.
Proof.
  induction 1 as [|w items Hw _ (out & Ho & Hf)]; [by exists []|].
  destruct (final_outcome_settled b w Hw) as (o & Hw' & Hfo). exists (o :: out). split; [|by constructor].
  cbn [mapR]. by rewrite Hw', Ho.
Qed.

Lemma dispatch_until_final_spec items (st : @CoordState P) :
  0 <= retries -> NoDup (map work_id items) -> pool_ok st.1 ->
  exists b st1 out st',
    retry_rounds config (foldl (fun d w => dset (work_id w) w d) [] items) (Z.to_nat (retries + 2)) items
      (open_book items) st = (Ok b, st1) /\ Forall (settled b) items /\
    _dispatch_work_items_until_final config items st = (Ok out, st') /\ pool_ok st'.1 /\
    Forall2 finished items out /\ rounds_within (retries + 1) st st'.
Proof.
  intros Hr Hnd Hok.
  destruct (retry_rounds_spec (foldl (fun d w => dset (work_id w) w d) [] items) (Z.to_nat (retries + 2)) 0 items
    (open_book items) st) as (b & st1 & Hrun & Hok1 & Hm & Hset & _); [done..|lia|lia|lia| |].
  { apply Forall_forall. intros w Hw. split; [|by apply (dget_build (fun w => w))].
    exists (first_attempt w). cbn. split_and!; [by apply (dget_build first_attempt)|done|done|lia]. }
  destruct (mapR_outcomes b items Hset) as (out & Hout & Hf).
  exists b, st1, out, (st1.1, count_finals (final_states b).*2 <$> st1.2).
  split; [exact Hrun|]. split; [exact Hset|]. split.
  - unfold _dispatch_work_items_until_final. erewrite M_run_Ok by exact Hrun.
    erewrite M_run_Ok by apply meter_run. unfold liftR. by rewrite Hout.
  - split; [done|]. split; [done|]. replace (retries + 1) with (Z.max 0 (retries + 1 - 0) + 0) by lia.
    eapply rounds_trans; [exact Hm|]. apply rounds_meter. intros m. cbn. lia.
Qed.
End RetryFacts.

(** * The dispatcher of [Leases] is such a pool *)

Section LeasesDispatcher.
Context (json_loads : string -> Res pyval) (format_exc : pyexn -> string).
Context {S : Type} {HS : CombatSession S} (worker_ids : list Z).

(** Every worker id names a worker, and generations are positive. *)
Definition workers_ok (ps : PoolState S) : Prop :=
  worker_ids <> [] /\ (forall wid, wid ∈ worker_ids -> is_Some (ps_workers ps !! wid)) /\
  forall wid g rt, ps_workers ps !! wid = Some (g, rt) -> 0 < g.

Lemma choose_worker_total r ni :
  worker_ids <> [] -> exists wid n, _choose_bootstrap_worker worker_ids r ni = Ok (wid, n) /\ wid ∈ worker_ids.
Proof.
  intros Hne. unfold _choose_bootstrap_worker.
  set (free := List.filter _ worker_ids).
  assert (Hsub : forall x, x ∈ free -> x ∈ worker_ids).
  { intros x Hx. apply list_elem_of_In, filter_In in Hx as [Hx _]. by apply list_elem_of_In. }
  assert (Hnth : forall (c : Z) l i, nth i (c :: l) c ∈ c :: l).
  { intros c l i. apply list_elem_of_In. destruct (Nat.lt_ge_cases i (length (c :: l))); [by apply nth_In|].
    rewrite nth_overflow by done. by left. }
  destruct free as [|f free'] eqn:Ef.
  - destruct worker_ids as [|c l]; [done|]. do 2 eexists. split; [reflexivity|]. apply Hnth.
  - do 2 eexists. split; [reflexivity|]. apply Hsub, Hnth.
Qed.

Lemma route_bootstrap_total w ni r :
  worker_ids <> [] -> exists routed r', route_bootstrap w worker_ids ni r = (Ok routed, r') /\
    req_work_item routed.1.1 = w /\ str_in (req_execution_mode routed.1.1) EXECUTION_MODE_VALUES = true /\
    routed.1.2 ∈ worker_ids.
Proof.
  intros Hne. destruct (choose_worker_total r ni Hne) as (wid & n & Hc & Hin).
  unfold route_bootstrap. erewrite M_run_Ok by reflexivity.
  erewrite M_run_Ok by (unfold liftR; rewrite Hc; reflexivity).
  destruct (existsb _ _); (erewrite M_run_Ok by reflexivity); do 2 eexists; by split.
Qed.

Lemma route_total w gens ni r :
  worker_ids <> [] -> exists routed r', _route_work_item w worker_ids gens ni r = (Ok routed, r') /\
    req_work_item routed.1.1 = w /\ str_in (req_execution_mode routed.1.1) EXECUTION_MODE_VALUES = true /\
    (routed.1.2 ∈ worker_ids \/ is_Some (gens !! routed.1.2)).
Proof.
  intros Hne.
  assert (Hb : forall r0, exists routed r', route_bootstrap w worker_ids ni r0 = (Ok routed, r') /\
    req_work_item routed.1.1 = w /\ str_in (req_execution_mode routed.1.1) EXECUTION_MODE_VALUES = true /\
    (routed.1.2 ∈ worker_ids \/ is_Some (gens !! routed.1.2))).
  { intros r0. destruct (route_bootstrap_total w ni r0 Hne) as (? & ? & ? & ? & ? & ?). do 2 eexists. eauto. }
  unfold _route_work_item. destruct (String.eqb (work_kind w) WORK_KIND_CONTINUATION); [|apply Hb].
  erewrite M_run_Ok by reflexivity. destruct (reg_get _ _ r) as [l|]; [|apply Hb].
  destruct (gens !! lease_worker_id l) as [g|] eqn:Eg.
  - destruct (is_valid_for l w (Some g)).
    + do 2 eexists. split; [reflexivity|]. split_and!; [done|done|]. right. by exists g.
    + erewrite M_run_Ok by reflexivity. apply Hb.
  - erewrite M_run_Ok by reflexivity. apply Hb.
Qed.

(** A result of worker [wid] for [w]. *)
Definition worker_answer (w : WorkItem) (r : BranchResult) : Prop :=
  explained r /\ forall g, res_worker_generation r = Some g -> 0 < g.

Lemma execute_request_total wid req (ps : PoolState S) :
  workers_ok ps -> is_Some (ps_workers ps !! wid) ->
  str_in (req_execution_mode req) EXECUTION_MODE_VALUES = true ->
  exists r ps', execute_request json_loads format_exc wid req ps = (Ok r, ps') /\
    workers_ok ps' /\ (forall k, is_Some (ps_workers ps !! k) -> is_Some (ps_workers ps' !! k)) /\
    worker_answer (req_work_item req) r.
Proof.
  intros (Hne & Hids & Hgen) [[g rt] Hw] Hmode. unfold execute_request. rewrite Hw.
  destruct (execute_total json_loads format_exc wid g req rt Hmode) as (r & rt' & He & (_ & Hof & _)).
  rewrite He. do 2 eexists. split; [reflexivity|].
  assert (Hkeep : forall k, is_Some (ps_workers ps !! k) -> is_Some (<[wid:=(g, rt')]> (ps_workers ps) !! k)).
  { intros k Hk. destruct (decide (k = wid)) as [->|]; [by rewrite lookup_insert_eq|by rewrite lookup_insert_ne]. }
  split_and!.
  - split; [done|]. cbn. split; [intros k Hk; by apply Hkeep, Hids|]. intros k g' rt''.
    destruct (decide (k = wid)) as [->|]; [rewrite lookup_insert_eq|rewrite lookup_insert_ne by congruence; apply Hgen].
    intros [= <- _]. by eapply Hgen.
  - cbn. exact Hkeep.
  - split; [by eapply execute_explained|]. destruct Hof as (_ & _ & _ & ->). intros g' [= <-]. by eapply Hgen.
Qed.

Lemma route_and_execute_total gens items : forall ni results (ps : PoolState S),
  workers_ok ps -> (forall k, is_Some (gens !! k) -> is_Some (ps_workers ps !! k)) ->
  (forall k r, dget k results = Some r -> exists w, worker_answer w r) ->
  exists results' ps', route_and_execute json_loads format_exc worker_ids gens items ni results ps = (Ok results', ps') /\
    workers_ok ps' /\ (forall k r, dget k results' = Some r -> exists w, worker_answer w r) /\
    (forall k, k ∈ map work_id items \/ is_Some (dget k results) -> is_Some (dget k results')).
Proof.
  induction items as [|w rest IH]; intros ni results ps Hok Hg Hres; cbn [route_and_execute].
  { do 2 eexists. split; [reflexivity|]. split_and!; [done|done|]. intros k [[]%not_elem_of_nil|?]; done. }
  destruct (route_total w gens ni (ps_registry ps) (proj1 Hok)) as (routed & reg' & Hr & Hw & Hmode & Hwid).
  set (ps1 := {| ps_workers := ps_workers ps; ps_registry := reg' |}).
  erewrite M_run_Ok by (unfold with_registry; rewrite Hr; reflexivity). fold ps1.
  assert (Hlive : is_Some (ps_workers ps1 !! routed.1.2)).
  { destruct Hwid as [H|H]; [by apply (proj1 (proj2 Hok))|by apply Hg]. }
  destruct (execute_request_total routed.1.2 routed.1.1 ps1 Hok Hlive Hmode) as (r & ps2 & He & Hok2 & Hkeep & Hans).
  erewrite M_run_Ok by exact He.
  destruct (IH routed.2 (dset (work_id w) r results) ps2 Hok2) as (results' & ps3 & Hrun & Hok3 & Hres3 & Hcov).
  - intros k Hk. apply Hkeep. by apply Hg.
  - intros k r'. rewrite dget_dset. case_match; [|by apply Hres]. intros [= <-]. by eexists.
  - do 2 eexists. split; [exact Hrun|]. split_and!; [done|done|]. intros k Hk. apply Hcov.
    cbn in Hk. destruct Hk as [[->|Hk]%elem_of_cons|Hk].
    + right. by rewrite dget_dset_eq.
    + by left.
    + right. rewrite dget_dset. case_match; [done|]. done.
Qed.

Lemma settle_total items results : forall (ps : PoolState S),
  workers_ok ps -> (forall k r, dget k results = Some r -> exists w, worker_answer w r) ->
  (forall k, k ∈ map work_id items -> is_Some (dget k results)) ->
  exists rs ps', settle items results ps = (Ok rs, ps') /\ workers_ok ps' /\ Forall2 answers items rs.
Proof.
  induction items as [|w rest IH]; intros ps Hok Hres Hcov; cbn [settle].
  { exists [], ps. split; [reflexivity|]. split; [done|]. constructor. }
  destruct (Hcov (work_id w)) as [r Hr]; [by left|]. rewrite Hr. erewrite M_run_Ok by reflexivity.
  destruct (IH {| ps_workers := ps_workers ps;
      ps_registry := apply_result w (restore_result_for_caller_work_item w r) (ps_registry ps) |})
    as (rs & ps' & Hrun & Hok' & Hf); [done|done|intros k Hk; apply Hcov; by right|].
  do 2 eexists. split; [by erewrite M_run_Ok by exact Hrun|]. split; [done|]. constructor; [|done].
  destruct (Hres _ _ Hr) as (w0 & Hex & Hgen). split; [done|]. split; [exact Hgen|]. exact Hex.
Qed.

#[export] Instance LeasesDispatcher : BranchDispatcher (PoolState S).
Proof.
  refine {| dispatch := dispatch_work_items json_loads format_exc worker_ids; pool_ok := workers_ok |}.
  intros items ps Hok. unfold dispatch_work_items. erewrite M_run_Ok by reflexivity.
  destruct (route_and_execute_total (worker_generations ps) items 0 [] ps Hok) as (results & ps1 & Hrun & Hok1 & Hres & Hcov).
  - intros k [g Hk]. unfold worker_generations in Hk. rewrite lookup_fmap in Hk.
    destruct (ps_workers ps !! k) as [x|]; [by exists x|discriminate Hk].
  - intros k r [=].
  - destruct (settle_total items results ps1 Hok1 Hres) as (rs & ps2 & Hset & Hok2 & Hf).
    { intros k Hk. apply Hcov. by left. }
    exists rs, ps2. split; [|done]. by erewrite M_run_Ok by exact Hrun.
Defined.
End LeasesDispatcher.

(** * The contract of the retry loop *)

(** C16: every work item of a batch gets a final outcome: on a pool whose worker
    ids name workers, for distinct work items, the retry loop returns, with one
    outcome per item in order - a success, or the classified fault of its last
    allowed attempt after exactly [max_retries] retries - within
    [max_retries + 1] dispatch rounds; the defensive round cap never fires. *)
Theorem every_item_settles json_loads format_exc {S} {HS : CombatSession S} worker_ids config items
    (ps : PoolState S) (metrics : option SearchCoordinatorMetrics) :
  let D := LeasesDispatcher json_loads format_exc worker_ids in
  0 <= max_retries config -> NoDup (map work_id items) -> workers_ok worker_ids ps ->
  exists b st1 out st',
    @retry_rounds _ D config (foldl (fun d w => dset (work_id w) w d) [] items)
      (Z.to_nat (max_retries config + 2)) items (open_book items) (ps, metrics) = (Ok b, st1) /\
    Forall (settled config b) items /\
    @_dispatch_work_items_until_final _ D config items (ps, metrics) = (Ok out, st') /\
    workers_ok worker_ids st'.1 /\ Forall2 finished items out /\
    rounds_within (max_retries config + 1) (ps, metrics) st'.
Proof. intros D Hr Hnd Hok. exact (dispatch_until_final_spec config items (ps, metrics) Hr Hnd Hok). Qed.

Definition example_config : SearchCoordinatorConfig :=
  {| width := 8; hypothesis_count := 4; cfg_min_coverage_fraction := f_half 1; worker_count := 1;
     max_retries := 1; request_timeout_s := f_of_Z 120 |}.
Definition retry_run (items : list WorkItem) (script : list BattleState) :
    Res (list (WorkItem * BranchResult * string)) * (PoolState (list BattleState) * option SearchCoordinatorMetrics) :=
  @_dispatch_work_items_until_final _ (@LeasesDispatcher no_json plain_exc _ ScriptedSession [0])
    example_config items (lease_pool script, Some no_metrics).

(** One item succeeds, the other faults in both its attempts. *)
Definition two_items : list WorkItem := [lease_item "a" 0; lease_item "b" 1].
Definition two_outcomes : Res (list (WorkItem * BranchResult * string)) *
    (PoolState (list BattleState) * option SearchCoordinatorMetrics) :=
  retry_run two_items [example_board 0; pending_board 1].
Definition outcome_states (r : Res (list (WorkItem * BranchResult * string))) : list string :=
  map snd (from_ok r []).

Lemma every_item_settles_witness :
  (exists out, two_outcomes.1 = Ok out /\ Forall2 finished two_items out) /\
  outcome_states two_outcomes.1 = [WORK_ITEM_FINAL_SUCCESS; WORK_ITEM_FINAL_FAULT] /\
  option_map dispatch_round_count two_outcomes.2.2 = Some 2.
Proof.
  split; [|split; vm_compute; reflexivity].
  destruct (@every_item_settles no_json plain_exc _ ScriptedSession [0] example_config two_items
    (lease_pool [example_board 0; pending_board 1]) (Some no_metrics))
    as (b & st1 & out & st' & _ & _ & Hrun & _ & Hf & _).
  - cbn. lia.
  - repeat constructor; [intros [[=]|[]%elem_of_nil]%elem_of_cons|intros []%elem_of_nil].
  - split; [intros [=]|]. split.
    + intros wid ->%list_elem_of_singleton. eexists. reflexivity.
    + intros wid g rt. cbn. rewrite lookup_singleton_Some. intros [_ [= <- _]]. lia.
  - exists out. split; [|exact Hf]. unfold two_outcomes, retry_run. rewrite Hrun. reflexivity.
Defined.

(** Equal candidates (an explicit legal-action index given twice) get the
    same work id; when both fault, the second attempt of one is refused because
    the shared bookkeeping already says [FinalFault], and the search fails. *)
Definition twin_items : list WorkItem :=
  omap (fun r => match r with Ok w => Some w | Raise _ => None end)
    (replicate 2 (from_candidate_ref no_json lease_context (lease_candidate 0 (example_signature 0))
       WORK_KIND_SUB_BRANCH (Some "root"%string) None)).

Example equal_candidates_share_a_work_id :
  map work_id twin_items = replicate 2 (match twin_items with w :: _ => work_id w | [] => ""%string end) /\
  (retry_run twin_items []).1
  = Raise (PyExc "ValueError" "cannot retry from final WorkItem state 'FinalFault'").
Proof. split; vm_compute; reflexivity. Qed.
