(* ===== verification/Search.v ===== *)
(** The search coordinator (Combat/search/search_coordinator.py): the strategy
    Main's loop calls for a decision and the explicit dispatch of candidates a
    trainer asks for. It composes the candidate pipeline, the hypotheses, the
    dispatch loop of [Coordinator] over any worker pool, the aggregation and the
    commit, which re-checks that Main has not moved. *)

From S2P Require Export Materialize Coordinator.
Local Open Scope Z_scope.

(** * The Main invariant *)

Record MainInvariantCheckResult := {
  inv_ok : bool;
  mismatches : list string;
  inv_diagnostics : pydict;
}.

(** [dataclasses.asdict] of a root. *)
Definition root_asdict (root : Root) : Res pyval :=
  match root with
  | SnapshotRoot d => Ok (VDict d)
  | RoomEntryReplayRoot map_snapshot room_id =>
      Ok (VDict [("map_snapshot", VStr map_snapshot); ("room_id", VInt room_id)]%string)
  | CombatStartReplayRoot spec => Ok (VDict [("scenario_spec", VDict spec)]%string)
  | _ => Raise (PyExc "TypeError" "asdict() should be called on dataclass instances")
  end.
Definition _snapshot_content_digest (snapshot : Root) : Res string :=
  d ← root_asdict snapshot; Ok (sha256_hex (canonical_json d true)).

(** [==] of the two dataclasses, field by field. *)
Definition signature_eqb (a b : DecisionSignature) : bool := match diff a b with [] => true | _ => false end.
Definition entry_eqb (a b : ReplayPrefixEntry) : bool :=
  SemanticAction_eqb (entry_semantic_action a) (entry_semantic_action b) &&
  signature_eqb (expected_signature a) (expected_signature b) &&
  opt_eqb Z.eqb (entry_target_index a) (entry_target_index b) &&
  opt_eqb Z.eqb (entry_target_enemy_index a) (entry_target_enemy_index b) &&
  bool_decide (visible_draw_constraints a = visible_draw_constraints b) &&
  Bool.eqb (visible_draw_tracking_blocked a) (visible_draw_tracking_blocked b) &&
  opt_eqb String.eqb (visible_draw_tracking_error a) (visible_draw_tracking_error b).
Definition prefix_eqb : list ReplayPrefixEntry -> list ReplayPrefixEntry -> bool := list_eqb entry_eqb.

Definition identity_dict (identity : option string * Z) : pyval :=
  VDict [("combat_session_id", opt_json VStr identity.1); ("step_index", VInt identity.2)]%string.

Section Invariant.
Context {S : Type}.

Definition _live_state_identity (loop_state : MainLoopState S) : option string * Z :=
  match decision_frame (current_result loop_state) with
  | None => (None, -1)
  | Some frame => (combat_session_id frame, step_index frame)
  end.

(** The held-snapshot comparison: whether it mismatches, and its diagnostics. *)
Definition held_comparison (original_context : DecisionContext) (live_state : MainLoopState S) :
    Res (bool * pydict) :=
  let held expected live := [("expected_held_snapshot_sha256", expected); ("live_held_snapshot_sha256", live)]%string in
  adapted ← search_root (root_snapshot original_context);
  match is_combat_start adapted, held_stable_snapshot live_state with
  | true, snapshot => Ok (is_some snapshot, held VNone VNone ++ [("combat_start_replay_root_expected", VBool true)]%string)
  | false, None =>
      expected ← _snapshot_content_digest (root_snapshot original_context);
      Ok (true, held (VStr expected) VNone)
  | false, Some snapshot =>
      expected ← _snapshot_content_digest (root_snapshot original_context);
      live ← _snapshot_content_digest (SnapshotRoot snapshot);
      Ok (negb (String.eqb live expected), held (VStr expected) (VStr live))
  end.

Definition check_live_state (original_context : DecisionContext) (live_state : MainLoopState S) :
    Res MainInvariantCheckResult :=
  let expected_signature := current_context_signature original_context in
  let expected_identity := (sig_combat_session_id expected_signature, sig_step_index expected_signature) in
  let live_identity := _live_state_identity live_state in
  '(held_differs, held_diagnostics) ← held_comparison original_context live_state;
  let replay_prefix_matches := prefix_eqb (ml_replay_prefix live_state) (replay_prefix original_context) in
  let found : list string :=
    (if bool_decide (live_identity = expected_identity) then [] else ["state_identity"%string]) ++
    (if held_differs : bool then ["held_snapshot"%string] else []) ++
    (if replay_prefix_matches then [] else ["replay_prefix"%string]) in
  Ok {| inv_ok := match found with [] => true | _ => false end; mismatches := found;
        inv_diagnostics :=
          [("expected_state_identity", identity_dict expected_identity);
           ("live_state_identity", identity_dict live_identity)]%string ++ held_diagnostics ++
          [("expected_replay_prefix_length", VInt (Z.of_nat (length (replay_prefix original_context))));
           ("live_replay_prefix_length", VInt (Z.of_nat (length (ml_replay_prefix live_state))));
           ("replay_prefix_matches", VBool replay_prefix_matches)]%string |}.

Definition _check_main_invariant {T} (original_context : DecisionContext)
    (main_state_provider : M T (MainLoopState S)) : M T MainInvariantCheckResult :=
  live_state ← main_state_provider;
  liftR (check_live_state original_context live_state).
End Invariant.

(** * Work items of a batch *)

Definition _candidate_batch (continuation_candidate : PipelineCandidateRef)
    (sub_branch_candidates : list PipelineCandidateRef) : list PipelineCandidateRef :=
  continuation_candidate :: sub_branch_candidates.

(** [any(consume_check(...).requires_hypothesis for ...)]. *)
Fixpoint _requires_hypothesis (decision_context : DecisionContext) (candidates : list PipelineCandidateRef) : Res bool :=
  match candidates with
  | [] => Ok false
  | candidate :: rest =>
      check ← consume_check (RefCandidate candidate) decision_context HYPOTHESIS_MODE_STANDARD false;
      if requires_hypothesis check then Ok true else _requires_hypothesis decision_context rest
  end.

Definition kind_at (index : nat) : string :=
  match index with O => WORK_KIND_CONTINUATION | _ => WORK_KIND_SUB_BRANCH end.

(** [.Player] and [.Rng] of a root: the captured snapshot's, in its [asdict]
    form. A CLR snapshot has them too, but no hypothesis can be derived from
    it: [asdict] refuses it. *)
Definition root_attributes (root : Root) : Res pyval :=
  match root with
  | SnapshotRoot d => Ok (VDict d)
  | ObjectRoot _ _ (Some _) => Raise (PyExc "TypeError" "asdict() should be called on dataclass instances")
  | _ => Raise (PyExc "AttributeError" "object has no attribute 'Player'")
  end.
Definition shuffle_rng (snapshot : pyval) : Res RngLike :=
  match attr "RunRng" (attr "Rng" snapshot) with
  | VDict streams =>
      stream ← dindex "Shuffle" streams;
      value ← rng_of_attributes (fun k => Ok (attr k stream));
      Ok (RngObject value)
  | v => Raise (PyExc "TypeError" ("'" +:+ py_type_name v +:+ "' object is not subscriptable"))
  end.

Definition public_multiset_coverage : CoverageAssessment :=
  {| is_complete := true; uncertain_sources := [];
     coverage_reason := "PUBLIC_MULTISET is read from Player.CardInstances where Zone=draw_pile or naturally dealt from CombatScenario.Seed" |}.
Definition _coverage_diagnostics (c : CoverageAssessment) : pyval :=
  VDict [("is_complete", VBool (is_complete c)); ("uncertain_sources", VList (map VStr (uncertain_sources c)));
         ("reason", VStr (coverage_reason c))]%string.

Section WorkItems.
Context (json_loads : string -> Res pyval) (draws : nat) (config : SearchCoordinatorConfig).

Definition _plain_work_items (decision_context : DecisionContext) (candidates : list PipelineCandidateRef) :
    Res (list WorkItem) :=
  context_id ← derive_context_id json_loads decision_context;
  mapR (fun p => from_candidate_ref json_loads decision_context p.2 (kind_at p.1) (Some context_id) None)
    (imap pair candidates).

(** The work items from a start of combat: each candidate under each derived
    root. *)
Definition combat_start_items (decision_context : DecisionContext) (spec : pydict)
    (candidates : list PipelineCandidateRef) : Res (list WorkItem) :=
  derived_roots ← derive_combat_start_replay_roots spec (hypothesis_count config);
  rows ← mapR (fun p => mapR (fun derived =>
      let context := with_search_hypothesis (with_root (derived_replay_root derived) decision_context)
                       (Some (derived_hypothesis derived)) in
      from_candidate_ref json_loads context p.2 (kind_at p.1) None None) derived_roots) (imap pair candidates);
  Ok (concat rows).

(** The candidates are distinct objects, so a cell of the grid, which goes
    candidate by candidate, has the index of its row. *)
Definition row_indices (candidates : list PipelineCandidateRef) (columns : nat) : list nat :=
  concat (imap (fun i _ => repeat i columns) candidates).
Definition grid_items (decision_context : DecisionContext) (snapshot : pyval)
    (candidates : list PipelineCandidateRef) (hypotheses : list SearchHypothesisId) : Res (list WorkItem) :=
  cells ← build_grid candidates hypotheses snapshot;
  mapR (fun p =>
      context ← apply_hypothesis_to_context decision_context (hypothesis p.2);
      from_candidate_ref json_loads context (root_action p.2) (kind_at p.1) None None)
    (zip (row_indices candidates (length hypotheses)) cells).

(** [None] when the belief sampler rejects all its first [draws] draws. *)
Definition _hypothesis_work_items_with_coverage (decision_context : DecisionContext)
    (candidates : list PipelineCandidateRef) : option (Res (list WorkItem * CoverageAssessment)) :=
  let covered items := (items, public_multiset_coverage) in
  match search_root (root_snapshot decision_context) with
  | Raise e => Some (Raise e)
  | Ok (CombatStartReplayRoot spec) =>
      Some (items ← combat_start_items decision_context spec candidates; Ok (covered items))
  | Ok root =>
      match root_attributes root ≫= (fun s => r ← shuffle_rng s; Ok (s, r)) with
      | Raise e => Some (Raise e)
      | Ok (snapshot, rng) =>
          hypotheses ← generate_belief_hypotheses draws (compute_public_multiset snapshot)
                         (hypothesis_count config) (fun _ => Ok rng);
          Some (hypotheses ← hypotheses;
                items ← grid_items decision_context snapshot candidates hypotheses;
                Ok (covered items))
      end
  end.
End WorkItems.

(** * Metrics of a search *)

Definition replace_metrics (pipeline pruned items : Z) (involved : bool) (hypotheses : Z)
    (mode : option string) (best : option spec_float) (diag : pydict) (m : SearchCoordinatorMetrics) :
    SearchCoordinatorMetrics :=
  {| pipeline_candidate_count := pipeline; pruned_candidate_count := pruned; work_item_count := items;
     hypothesis_involved := involved; m_hypothesis_count := hypotheses;
     dispatch_round_count := dispatch_round_count m; branch_step_count := branch_step_count m;
     bootstrap_step_count := bootstrap_step_count m; holder_step_count := holder_step_count m;
     replay_count := replay_count m; fault_count := fault_count m; retry_count := retry_count m;
     worker_ids_used := worker_ids_used m; final_success_count := final_success_count m;
     final_fault_count := final_fault_count m; aggregation_mode := mode; best_aggregate_score := best;
     aggregation_diagnostics := diag |}.
Definition set_candidates (ranked pruned : nat) (m : SearchCoordinatorMetrics) : SearchCoordinatorMetrics :=
  replace_metrics (Z.of_nat ranked) (Z.of_nat pruned) (work_item_count m) (hypothesis_involved m)
    (m_hypothesis_count m) (aggregation_mode m) (best_aggregate_score m) (aggregation_diagnostics m) m.
Definition set_involved (involved : bool) (m : SearchCoordinatorMetrics) : SearchCoordinatorMetrics :=
  replace_metrics (pipeline_candidate_count m) (pruned_candidate_count m) (work_item_count m) involved
    (m_hypothesis_count m) (aggregation_mode m) (best_aggregate_score m) (aggregation_diagnostics m) m.
Definition set_items (items : list WorkItem) (m : SearchCoordinatorMetrics) : SearchCoordinatorMetrics :=
  let hypotheses : gset string := list_to_set (omap wi_hypothesis items) in
  replace_metrics (pipeline_candidate_count m) (pruned_candidate_count m) (Z.of_nat (length items))
    (hypothesis_involved m) (Z.of_nat (size hypotheses)) (aggregation_mode m) (best_aggregate_score m)
    (aggregation_diagnostics m) m.

Definition action_summary (a : RootActionAggregation) : pyval :=
  VDict [("root_action_key", VStr (agg_root_action_key a)); ("aggregate_score", VFloat (aggregate_score a));
         ("valid_sample_count", VInt (valid_sample_count a)); ("total_hypotheses", VInt (total_hypotheses a));
         ("missing_sample_count", VInt (missing_sample_count a));
         ("filled_score", opt_json VFloat (filled_score a))]%string.
Definition set_aggregation (aggregation : AggregationResult) (m : SearchCoordinatorMetrics) : SearchCoordinatorMetrics :=
  replace_metrics (pipeline_candidate_count m) (pruned_candidate_count m) (work_item_count m)
    (hypothesis_involved m) (m_hypothesis_count m)
    (Some (py_str (dget_none "mode" (agg_diagnostics aggregation)))) (aggregate_score <$> best_action aggregation)
    (dset "viable_actions" (VList (map action_summary (viable_actions aggregation))) (agg_diagnostics aggregation)) m.

(** * The strategy *)

(** A strategy call returns, or raises [MainInvariantViolatedError] carrying
    the fault and the check. *)
Inductive StrategyOutcome :=
  | Returned (result : SearchResult)
  | MainInvariantViolated (outcome : MainCombatFaultOutcome) (check_result : MainInvariantCheckResult).

Definition join_or (l : list string) (default : string) : string :=
  match String.concat ", " l with EmptyString => default | s => s end.
(** The text of a [MainInvariantViolatedError]. *)
Definition violation_text (outcome : MainCombatFaultOutcome) (check_result : MainInvariantCheckResult) : string :=
  "Main invariant violated during Search commit: " +:+ join_or (mismatches check_result) "unknown mismatch" +:+
  "; outcome=MainCombatFaultOutcome(fault_source=" +:+ repr_str (fault_source outcome) +:+ ", detail=" +:+
  repr_str (mcf_detail outcome) +:+ ", diagnostics=" +:+ py_repr (VDict (mcf_diagnostics outcome)) +:+ ")".

Definition with_coverage (coverage : CoverageAssessment) (e : BranchDecisionLogEntry) : Res BranchDecisionLogEntry :=
  log_entry_check
    {| log_status := log_status e; root_action_key := root_action_key e; log_hypothesis_id := log_hypothesis_id e;
       log_plan_path := log_plan_path e; replay_prefix_digest := replay_prefix_digest e; log_work_id := log_work_id e;
       work_item_state := work_item_state e; log_score := log_score e; log_semantic_action := log_semantic_action e;
       log_target_index := log_target_index e; log_target_enemy_index := log_target_enemy_index e;
       log_expected_signature := log_expected_signature e; log_result_signature := log_result_signature e;
       log_fault_kind := log_fault_kind e;
       log_diagnostics := dset "public_multiset_coverage" (_coverage_diagnostics coverage) (log_diagnostics e) |}.

(** The entries of a dispatched batch. *)
Definition log_entries (final_results : list (WorkItem * BranchResult * string))
    (coverage : option CoverageAssessment) : Res (list BranchDecisionLogEntry) :=
  entries ← mapR (fun f => to_decision_log_entry f.1.1 f.1.2 (Some f.2)) final_results;
  match coverage with None => Ok entries | Some coverage => mapR (with_coverage coverage) entries end.

Definition unknown_check : MainInvariantCheckResult :=
  {| inv_ok := false; mismatches := ["unknown"%string]; inv_diagnostics := [] |}.
Definition violated (decision : MainCombatFaultOutcome) (check : MainInvariantCheckResult) : StrategyOutcome :=
  MainInvariantViolated
    {| fault_source := fault_source decision;
       mcf_detail := mcf_detail decision +:+ "; mismatches=" +:+ join_or (mismatches check) "unknown";
       mcf_diagnostics := dset "main_invariant" (VDict (inv_diagnostics check)) (mcf_diagnostics decision) |} check.

Section Strategy.
Context (json_loads : string -> Res pyval) (draws : nat).
Context {P : Type} {HD : BranchDispatcher P} {S : Type}.
Context (config : SearchCoordinatorConfig) (main_state_provider : option (M (@CoordState P) (MainLoopState S))).

(** A batch with its work items: whether hypotheses are involved, the items,
    and the coverage of the public multiset. [None]: the sampler ran out of
    [draws]. *)
Definition prepare_batch (decision_context : DecisionContext) (candidates : list PipelineCandidateRef) (ranked : nat) :
    M (@CoordState P) (option (bool * list WorkItem * option CoverageAssessment)) :=
  _ ← meter (set_candidates ranked (length candidates));
  involved ← liftR (_requires_hypothesis decision_context candidates);
  _ ← meter (set_involved involved);
  let planned : option (Res (list WorkItem * option CoverageAssessment)) :=
    if involved : bool
    then w ← _hypothesis_work_items_with_coverage json_loads draws config decision_context candidates;
         Some (w ← w; Ok (w.1, Some w.2))
    else Some (items ← _plain_work_items json_loads decision_context candidates; Ok (items, None)) in
  match planned with
  | None => mret None
  | Some planned =>
      planned ← liftR planned;
      _ ← meter (set_items planned.1);
      mret (Some (involved, planned.1, planned.2))
  end.

(** A commit's state: the coordinator's, and [invariant_check]. *)
Definition CommitState : Type := @CoordState P * option MainInvariantCheckResult.
Definition on_coord {A} (c : M (@CoordState P) A) : M CommitState A := fun st =>
  let '(r, s) := c st.1 in (r, (s, st.2)).

Definition _verify_main_invariant (original_decision_context : DecisionContext) : M CommitState bool :=
  check ← match main_state_provider with
          | None => mret {| inv_ok := true; mismatches := []; inv_diagnostics := [] |}
          | Some provider => on_coord (_check_main_invariant original_decision_context provider)
          end;
  _ ← modS (fun st => (st.1, Some check));
  mret (inv_ok check).

(** The commit of an aggregation. *)
Definition commit (original_decision_context : DecisionContext) (aggregation : AggregationResult) (involved : bool) :
    M (@CoordState P) StrategyOutcome := fun st =>
  let '(r, (st', invariant_check)) :=
    build_commit_decision aggregation involved (_verify_main_invariant original_decision_context) (st, None) in
  (decision ← r;
   match decision with
   | CommitMainFault fault => Ok (violated fault (default unknown_check invariant_check))
   | CommitSearch result => Ok (Returned result)
   end, st').

(** [build_search_strategy(...)]'s strategy, on a decision context. *)
Definition _strategy (decision_context : DecisionContext) : M (@CoordState P) (option StrategyOutcome) :=
  pipeline ← liftR (build_candidate_pipeline_result decision_context (width config) None);
  match pipeline with
  | NoViableCandidates detail _ _ => mret (Some (Returned (SearchEvaluationFailure detail)))
  | CandidatePipelineSuccess continuation sub_branches ranked _ _ =>
      batch ← prepare_batch decision_context (_candidate_batch continuation sub_branches) (length ranked);
      match batch with
      | None => mret None
      | Some (involved, work_items, coverage) =>
          final_results ← _dispatch_work_items_until_final config work_items;
          entries ← liftR (log_entries final_results coverage);
          aggregation ← liftR (if involved : bool
                               then aggregate_hypothesis_results entries (cfg_min_coverage_fraction config)
                               else aggregate_plain_results entries);
          _ ← meter (set_aggregation aggregation);
          outcome ← commit decision_context aggregation involved;
          mret (Some outcome)
      end
  end.

(** * Explicit dispatch *)

Record ExplicitBranchDispatchResult := {
  ebd_work_item : WorkItem;
  ebd_branch_result : BranchResult;
  ebd_work_item_state : string;
}.

Definition dispatch_explicit_candidates (decision_context : DecisionContext) (indices : list Z) :
    M (@CoordState P) (option (list ExplicitBranchDispatchResult)) :=
  pipeline ← liftR (build_candidate_pipeline_result_for_explicit_candidates decision_context indices);
  match pipeline with
  | NoViableCandidates _ _ _ => raiseM (PyExc "AssertionError" "")
  | CandidatePipelineSuccess continuation sub_branches ranked _ _ =>
      batch ← prepare_batch decision_context (_candidate_batch continuation sub_branches) (length ranked);
      match batch with
      | None => mret None
      | Some (_, work_items, _) =>
          final_results ← _dispatch_work_items_until_final config work_items;
          mret (Some (map (fun f => {| ebd_work_item := f.1.1; ebd_branch_result := f.1.2;
                                       ebd_work_item_state := f.2 |}) final_results))
      end
  end.
End Strategy.

(** * What a passed check says *)

(** The live state is where the context was built: same session and step, the
    same held snapshot up to its volatile metadata (none for a start of combat),
    the same replay prefix. *)
Definition main_unmoved {S} (context : DecisionContext) (live : MainLoopState S) : Prop :=
  _live_state_identity live
  = (sig_combat_session_id (current_context_signature context), sig_step_index (current_context_signature context)) /\
  (if is_combat_start (root_snapshot context) then held_stable_snapshot live = None
   else exists held digest, held_stable_snapshot live = Some held /\
     _snapshot_content_digest (root_snapshot context) = Ok digest /\
     _snapshot_content_digest (SnapshotRoot held) = Ok digest) /\
  Forall2 (fun a b => entry_eqb a b = true) (ml_replay_prefix live) (replay_prefix context).

Lemma list_eqb_Forall2 {A} (eqb : A -> A -> bool) l m : list_eqb eqb l m = true <-> Forall2 (fun a b => eqb a b = true) l m.
Proof.
  revert m. induction l as [|x l IH]; intros [|y m]; cbn [list_eqb].
  1: split; [constructor|done].
  1,2: split; [discriminate|intros H; inversion H].
  rewrite andb_true_iff, IH. split; [intros [??]; by constructor|intros H; by inversion H].
Qed.

Lemma search_root_same root adapted : search_root root = Ok adapted -> adapted = root.
Proof. destruct root; cbn; congruence. Qed.

Lemma held_comparison_spec {S} context (live : MainLoopState S) differs diag :
  held_comparison context live = Ok (differs, diag) ->
  differs = false <->
  (if is_combat_start (root_snapshot context) then held_stable_snapshot live = None
   else exists held digest, held_stable_snapshot live = Some held /\
     _snapshot_content_digest (root_snapshot context) = Ok digest /\
     _snapshot_content_digest (SnapshotRoot held) = Ok digest).
Proof.
  unfold held_comparison. intros (adapted & ->%search_root_same & H)%bind_Ok.
  destruct (is_combat_start _).
  { destruct (held_stable_snapshot live); injection H as <- _; naive_solver. }
  destruct (held_stable_snapshot live) as [held|].
  - apply bind_Ok in H as (expected & He & (found & Hf & [= <- _])%bind_Ok). rewrite negb_false_iff, String.eqb_eq.
    split; [intros ->; by exists held, expected|]. intros (h & d & [= <-] & Hd & Hh). congruence.
  - apply bind_Ok in H as (expected & He & [= <- _]). split; [done|]. by intros (? & ? & ? & _).
Qed.

Lemma check_live_state_spec {S} context (live : MainLoopState S) check :
  check_live_state context live = Ok check ->
  (inv_ok check = true <-> main_unmoved context live) /\ (inv_ok check = false -> mismatches check <> []).
Proof.
  unfold check_live_state, main_unmoved. intros ([differs diag] & Hheld & [= <-])%bind_Ok. cbn [inv_ok mismatches].
  pose proof (held_comparison_spec context live differs diag Hheld) as Hspec.
  rewrite <- Hspec, <- list_eqb_Forall2. fold entry_eqb prefix_eqb. clear Hspec.
  change (list_eqb entry_eqb (ml_replay_prefix live) (replay_prefix context))
    with (prefix_eqb (ml_replay_prefix live) (replay_prefix context)).
  case_bool_decide; destruct differs, (prefix_eqb _ _); cbn; naive_solver.
Qed.

(** * The items of a batch *)

Lemma from_candidate_ref_fields json_loads context candidate kind cid wid w :
  from_candidate_ref json_loads context candidate kind cid wid = Ok w ->
  wi_candidate w = candidate /\ wi_decision_context w = context.
Proof.
  unfold from_candidate_ref, work_item_check. intros (c & _ & (i & _ & H)%bind_Ok)%bind_Ok. by res_inv.
Qed.

Lemma plain_items_spec json_loads context candidates items :
  _plain_work_items json_loads context candidates = Ok items ->
  map wi_candidate items = candidates /\ Forall (fun w => wi_decision_context w = context) items.
Proof.
  unfold _plain_work_items. intros (cid & _ & H%mapR_Ok_inv)%bind_Ok.
  assert (Hgen : forall ps : list (nat * PipelineCandidateRef), Forall2 (fun p w =>
      from_candidate_ref json_loads context p.2 (kind_at p.1) (Some cid) None = Ok w) ps items ->
    map wi_candidate items = ps.*2 /\ Forall (fun w => wi_decision_context w = context) items).
  { clear. induction 1 as [|p w ps ws Hw _ [IH1 IH2]]; [done|].
    apply from_candidate_ref_fields in Hw as [Hc Hd]. cbn. rewrite Hc, IH1. split; [done|by constructor]. }
  apply Hgen in H as [-> H]. split; [|done]. rewrite fmap_imap. clear. rewrite <- (list_fmap_id candidates) at 2.
  by rewrite <- (imap_const id candidates).
Qed.

Lemma mapR_elem {A B} (f : A -> Res B) l ys y : mapR f l = Ok ys -> y ∈ ys -> exists x, x ∈ l /\ f x = Ok y.
Proof.
  intros H%mapR_Ok_inv. induction H as [|x z l zs Hx _ IH]; [by intros []%elem_of_nil|].
  intros [->|Hy]%elem_of_cons; [exists x; split; [by left|done]|].
  destruct (IH Hy) as (x' & ? & ?). exists x'. split; [by right|done].
Qed.

(** The item runs one of the candidates under some hypothesis. *)
Definition hypothetical (candidates : list PipelineCandidateRef) (w : WorkItem) : Prop :=
  wi_candidate w ∈ candidates /\ is_Some (wi_hypothesis w).

Lemma elem_of_imap_pair {A} (l : list A) p : p ∈ imap pair l -> p.2 ∈ l.
Proof. intros (i & x & -> & Hx)%elem_of_lookup_imap_1. by apply list_elem_of_lookup_2 in Hx. Qed.

Lemma combat_start_items_spec json_loads config context spec candidates items :
  combat_start_items json_loads config context spec candidates = Ok items ->
  forall w, w ∈ items -> hypothetical candidates w.
Proof.
  unfold combat_start_items. intros (roots & _ & (rows & Hrows & [= <-])%bind_Ok)%bind_Ok w.
  intros (row & Hrow & Hw)%list_elem_of_In%in_concat. apply list_elem_of_In in Hrow, Hw.
  destruct (mapR_elem _ _ _ row Hrows Hrow) as (p & Hp & Hr).
  destruct (mapR_elem _ _ _ w Hr Hw) as (d & _ & [Hc Hd]%from_candidate_ref_fields).
  unfold hypothetical, wi_hypothesis. rewrite Hc, Hd. split; [by apply elem_of_imap_pair|by eexists].
Qed.

Lemma grid_items_spec json_loads context snapshot candidates hypotheses items :
  grid_items json_loads context snapshot candidates hypotheses = Ok items ->
  forall w, w ∈ items -> hypothetical candidates w.
Proof.
  unfold grid_items. intros (cells & Hcells & H)%bind_Ok w Hw.
  destruct (mapR_elem _ _ _ w H Hw) as ([i cell] & Hp & (c & Hc & [Hwc Hwd]%from_candidate_ref_fields)%bind_Ok).
  unfold hypothetical, wi_hypothesis. rewrite Hwc, Hwd. split.
  - unfold build_grid in Hcells. apply bind_Ok in Hcells as (rows & Hrows & [= <-]).
    apply elem_of_zip_r, list_elem_of_In, in_concat in Hp as (row & Hrow & Hcell).
    apply list_elem_of_In in Hrow, Hcell. destruct (mapR_elem _ _ _ row Hrows Hrow) as (a & Ha & Hr).
    destruct (mapR_elem _ _ _ cell Hr Hcell) as (h & _ & (sn & _ & [= <-])%bind_Ok). exact Ha.
  - unfold apply_hypothesis_to_context in Hc. apply bind_Ok in Hc as (? & _ & Hc).
    destruct (is_combat_start _); [done|]. apply bind_Ok in Hc as (? & _ & (? & _ & (? & _ & (d & _ & Hc)%bind_Ok)%bind_Ok)%bind_Ok).
    destruct d; try discriminate Hc. injection Hc as <-. by eexists.
Qed.

Lemma hypothesis_items_spec json_loads draws config context candidates items coverage :
  _hypothesis_work_items_with_coverage json_loads draws config context candidates = Some (Ok (items, coverage)) ->
  forall w, w ∈ items -> hypothetical candidates w.
Proof.
  unfold _hypothesis_work_items_with_coverage. destruct (search_root _) as [root|e]; [|done].
  intros H. assert (Hgrid : match root_attributes root ≫= (fun s => r ← shuffle_rng s; Ok (s, r)) with
      | Raise e => Some (Raise e)
      | Ok (snapshot, rng) =>
          hypotheses ← generate_belief_hypotheses draws (compute_public_multiset snapshot)
                         (hypothesis_count config) (fun _ => Ok rng);
          Some (hypotheses ← hypotheses;
                items ← grid_items json_loads context snapshot candidates hypotheses;
                Ok (items, public_multiset_coverage))
      end = Some (Ok (items, coverage)) -> forall w, w ∈ items -> hypothetical candidates w).
  { clear H. destruct (root_attributes root ≫= _) as [[snapshot rng]|e]; [|done].
    destruct (generate_belief_hypotheses _ _ _ _) as [[hs|e]|]; cbn; [|done..].
    intros [= (its & Hits & [= <- <-])%bind_Ok]. by eapply grid_items_spec. }
  destruct root; try (apply Hgrid; exact H). clear Hgrid.
  injection H as (its & Hits & [= <- <-])%bind_Ok. by eapply combat_start_items_spec.
Qed.

(** * What the aggregation commits *)

(** The entry of a dispatched item. *)
Definition logs (f : WorkItem * BranchResult * string) (e : BranchDecisionLogEntry) : Prop :=
  let c := wi_candidate f.1.1 in
  work_item_state e = f.2 /\ log_work_id e = work_id f.1.1 /\ log_semantic_action e = Some (ref_semantic_action c) /\
  log_target_index e = ref_target_index c /\ log_target_enemy_index e = ref_target_enemy_index c /\
  root_action_key e = _semantic_action_key (ref_semantic_action c) (ref_target_index c) (ref_target_enemy_index c) /\
  log_result_signature e = result_signature f.1.2 /\
  (is_success e = true <-> status f.1.2 = BRANCH_STATUS_SUCCESS /\ f.2 = WORK_ITEM_FINAL_SUCCESS) /\
  (is_success e = true -> log_score e = Some (ref_score c)).

Lemma fault_status_not_success k st : dget k _DECISION_LOG_STATUS_BY_FAULT = Some st -> st <> DECISION_LOG_STATUS_SUCCESS.
Proof.
  intros H%dget_Some_elem. revert H. unfold _DECISION_LOG_STATUS_BY_FAULT.
  repeat (intros [[= -> ->]|H]%elem_of_cons; [discriminate|revert H]). by intros ?%not_elem_of_nil.
Qed.

Lemma log_entry_check_same e e' : log_entry_check e = Ok e' -> e' = e.
Proof. unfold log_entry_check. destruct (negb _); [done|]. destruct (_ && _); [done|]. congruence. Qed.

Lemma to_log_entry_logs w r st e : to_decision_log_entry w r (Some st) = Ok e -> logs (w, r, st) e.
Proof.
  unfold to_decision_log_entry. destruct (negb (String.eqb (work_id (work_item r)) _)); [done|].
  destruct (negb (str_in st _)); [done|]. intros (o & Ho & H)%bind_Ok.
  assert (Hcase : (o = (DECISION_LOG_STATUS_SUCCESS, Some (ref_score (wi_candidate w)), None) /\
      status r = BRANCH_STATUS_SUCCESS) \/ (o.1.1 <> DECISION_LOG_STATUS_SUCCESS /\ status r <> BRANCH_STATUS_SUCCESS)).
  { destruct (String.eqb_spec (status r) BRANCH_STATUS_SUCCESS) as [Hs|Hs]; [left; by injection Ho as <-|right; split; [|done]].
    destruct (String.eqb (status r) BRANCH_STATUS_FAULT); [|done]. apply bind_Ok in Ho as (k & _ & Ho).
    destruct (dget k _) as [st'|] eqn:Ek; [|done]. injection Ho as <-. by eapply fault_status_not_success. }
  apply log_entry_check_same in H as ->. unfold logs, is_success.
  cbn [work_item_state log_status log_work_id log_semantic_action log_target_index log_target_enemy_index root_action_key
    log_result_signature log_score fst snd].
  rewrite andb_true_iff, !String.eqb_eq. destruct Hcase as [[-> ->]|[Hl Hst]]; split_and!; naive_solver.
Qed.

Lemma log_entries_logs finals coverage entries : log_entries finals coverage = Ok entries -> Forall2 logs finals entries.
Proof.
  unfold log_entries. intros (es & Hes%mapR_Ok_inv & H)%bind_Ok.
  assert (Hlogs : Forall2 logs finals es).
  { eapply Forall2_impl; [exact Hes|]. intros [[w r] st] e He. by apply to_log_entry_logs. }
  destruct coverage as [c|]; [|by injection H as <-]. apply mapR_Ok_inv in H. clear Hes. revert entries H.
  induction Hlogs as [|f e fs es He _ IH]; intros entries H; inversion H as [|? e' ? es' Hc Hcs]; subst; [constructor|].
  constructor; [|by apply IH]. apply log_entry_check_same in Hc as ->. exact He.
Qed.

Lemma py_max_by_elem {A K} (lt : K -> K -> bool) (keyed : list (K * A)) m :
  py_max_by lt keyed = Some m -> exists k, (k, m) ∈ keyed.
Proof.
  destruct keyed as [|x rest]; [done|]. cbn. intros [= <-].
  assert (H : foldl (fun m y => if lt m.1 y.1 then y else m) x rest ∈ x :: rest).
  { induction rest as [|y rest IH] using rev_ind; [by left|]. rewrite foldl_app, app_comm_cons, elem_of_app. cbn.
    case_match; [right; by left|by left]. }
  destruct (foldl _ x rest) as [k a]. by exists k.
Qed.

Lemma samples_elem l root e : e ∈ samples_of (foldl add_sample [] l) root -> e ∈ l.
Proof.
  rewrite samples_of_root. intros ([h x] & -> & H)%list_elem_of_fmap. cbn.
  cut (Forall (fun p => p.2 ∈ l) (root_samples (foldl add_sample [] l) root)).
  { intros Hall. rewrite Forall_forall in Hall. apply (Hall _ H). }
  clear. induction l as [|e l IH] using rev_ind; [constructor|]. rewrite foldl_app. cbn [foldl].
  assert (IH' : Forall (fun p => p.2 ∈ l ++ [e]) (root_samples (foldl add_sample [] l) root)).
  { eapply Forall_impl; [exact IH|]. intros p Hp. apply elem_of_app. by left. }
  rewrite root_samples_add. cbv zeta. repeat case_match; try done. apply Forall_dset; [done|]. apply elem_of_app. right. by left.
Qed.

Lemma aggregate_roots_elem entries total required worst roots out a :
  aggregate_roots (foldl add_sample [] entries) total required worst roots = Ok out -> a ∈ out.1 ->
  representative_entry a ∈ entries.
Proof.
  revert out. induction roots as [|root roots IH]; intros out; cbn [aggregate_roots].
  { intros [= <-]. by intros ?%not_elem_of_nil. }
  destruct (_ <? required).
  { intros (o & Ho & [= <-])%bind_Ok. exact (IH o Ho). }
  intros (a0 & Ha0 & (o & Ho & [= <-])%bind_Ok)%bind_Ok. intros [->|Hin]%elem_of_cons; [|by eapply IH].
  unfold aggregate_root in Ha0. apply bind_Ok in Ha0 as (keyed & Hk & Ha0).
  destruct (py_max_by _ keyed) as [m|] eqn:Em; [|done]. injection Ha0 as <-. cbn.
  apply py_max_by_elem in Em as [k Hm]. destruct (mapR_elem _ _ _ _ Hk Hm) as (e & He & (s & _ & [= _ <-])%bind_Ok).
  by apply samples_elem in He.
Qed.

(** The best action of either aggregation stands for one of the successful
    entries. *)
Lemma best_is_success involved entries fraction r a :
  (if involved : bool then aggregate_hypothesis_results entries fraction else aggregate_plain_results entries) = Ok r ->
  best_action r = Some a -> representative_entry a ∈ _success_entries entries.
Proof.
  destruct involved.
  - unfold aggregate_hypothesis_results. destruct (negb _); [done|]. intros (_ & _ & H)%bind_Ok.
    destruct (_ || _); [by injection H as <-|]. destruct (py_min_float _) as [worst|]; [|done].
    destruct (f_ceil _) as [required|]; [|done].
    apply bind_Ok in H as (out & Hout & [= <-]). cbn. intros Hb.
    eapply aggregate_roots_elem; [exact Hout|]. apply (elem_of_sort_by agg_leb).
    destruct (sort_by agg_leb out.1); [done|]. injection Hb as ->. by left.
  - unfold aggregate_plain_results. intros (_ & _ & H)%bind_Ok.
    destruct (_success_entries entries) as [|e0 es] eqn:Ev; [by injection H as <-|]. rewrite <- Ev in *. clear Ev e0 es.
    apply bind_Ok in H as (keyed & Hk & (viable & Hv & [= <-])%bind_Ok). cbn. intros Hb.
    assert (Ha : a ∈ viable) by (destruct viable; [done|injection Hb as ->; by left]).
    destruct (mapR_elem _ _ _ _ Hv Ha) as (e & He & (s & _ & [= <-])%bind_Ok). cbn.
    apply list_elem_of_fmap in He as ([k e'] & -> & He%elem_of_sort_by).
    by destruct (mapR_elem _ _ _ _ Hk He) as (x & Hx & (s' & _ & [= _ <-])%bind_Ok).
Qed.

(** * The commit *)

Section CommitFacts.
Context {P : Type} {HD : BranchDispatcher P} {S : Type}.
Context (main_state_provider : option (M (@CoordState P) (MainLoopState S))) (context : DecisionContext).
Notation provider := main_state_provider (only parsing).

(** The live state was read last, and the check of it gave [ok]. *)
Definition checked (ok : bool) (check : MainInvariantCheckResult) (st st' : @CoordState P) : Prop :=
  match main_state_provider with
  | None => ok = true /\ st' = st
  | Some provider => exists live, provider st = (Ok live, st') /\
      check_live_state context live = Ok check /\ inv_ok check = ok
  end.

Lemma verify_spec st c ok st' c' :
  _verify_main_invariant main_state_provider context (st, c) = (Ok ok, (st', c')) ->
  exists check, c' = Some check /\ checked ok check st st'.
Proof.
  unfold _verify_main_invariant, checked. intros (check & [s1 c1] & Hc & ([] & s2 & [= <-] & [= <- <- <-])%M_bind_Ok)%M_bind_Ok.
  exists check. split; [done|]. destruct main_state_provider as [provider|]; [|by injection Hc as <- <- <-].
  unfold on_coord in Hc. cbn [fst snd] in Hc.
  destruct (_check_main_invariant context provider st) as [r s] eqn:E. injection Hc as -> -> _.
  apply M_bind_Ok in E as (live & s' & Hp & [Hl ->]%liftR_Ok). by exists live.
Qed.

Definition planned_of_entry (involved : bool) (entry : BranchDecisionLogEntry) (action : SemanticAction) : PlannedStep :=
  {| ps_semantic_action := action; ps_target_index := log_target_index entry;
     ps_target_enemy_index := log_target_enemy_index entry;
     ps_expected_signature := if involved then None else log_result_signature entry |}.

Lemma commit_spec aggregation involved st out st' :
  commit main_state_provider context aggregation involved st = (Ok out, st') ->
  match out with
  | Returned (SearchSuccess plan) =>
      exists best action check, best_action aggregation = Some best /\
        log_semantic_action (representative_entry best) = Some action /\
        plan = [planned_of_entry involved (representative_entry best) action] /\ checked true check st st'
  | Returned (SearchEvaluationFailure _) => best_action aggregation = None /\ st' = st
  | MainInvariantViolated fault check =>
      is_Some (best_action aggregation) /\ fault_source fault = SRC_MAIN_INVARIANT /\ checked false check st st'
  end.
Proof.
  unfold commit, build_commit_decision. destruct (best_action aggregation) as [best|] eqn:Eb; [|by intros [= <- <-]].
  match goal with |- context [?c (st, None)] => destruct (c (st, None)) as [r [s c0]] eqn:E end. intros [= Hout <-].
  apply bind_Ok in Hout as (decision & -> & Hout).
  apply M_bind_Ok in E as (ok & [s1 c1] & (check & -> & Hc)%verify_spec & E).
  destruct ok; cbn [negb] in E.
  - destruct (log_semantic_action _) as [action|] eqn:Ea; [|done]. injection E as <- <- <-. injection Hout as <-.
    by exists best, action, check.
  - injection E as <- <- <-. injection Hout as <-. by cbn.
Qed.
End CommitFacts.

Lemma final_outcomes_elem {P} {HD : BranchDispatcher P} config items (st st' : @CoordState P) finals f :
  _dispatch_work_items_until_final config items st = (Ok finals, st') -> f ∈ finals -> f.1.1 ∈ items.
Proof.
  unfold _dispatch_work_items_until_final.
  intros (b & s1 & _ & ([] & s2 & _ & [Hm ->]%liftR_Ok)%M_bind_Ok)%M_bind_Ok Hf.
  destruct (mapR_elem _ _ _ _ Hm Hf) as (w & Hw & Ho). unfold final_outcome in Ho. repeat case_match; try done.
  by injection Ho as <-.
Qed.

(** A prepared batch: its candidates' items, each under a hypothesis when one
    is involved, otherwise the candidates in order on the context itself. *)
Definition batch_of (context : DecisionContext) (candidates : list PipelineCandidateRef) (involved : bool)
    (items : list WorkItem) : Prop :=
  if involved then forall w, w ∈ items -> hypothetical candidates w
  else map wi_candidate items = candidates /\ Forall (fun w => wi_decision_context w = context) items.


Lemma meter_inv {P} f (st : @CoordState P) a st' : meter f st = (Ok a, st') -> st' = (st.1, f <$> st.2).
Proof. rewrite meter_run. congruence. Qed.

Lemma prepare_batch_spec {P} json_loads draws config context candidates ranked (st st' : @CoordState P) involved items cov :
  prepare_batch json_loads draws config context candidates ranked st = (Ok (Some (involved, items, cov)), st') ->
  _requires_hypothesis context candidates = Ok involved /\ batch_of context candidates involved items /\ st'.1 = st.1.
Proof.
  unfold prepare_batch.
  intros (? & s1 & Hs1%meter_inv & (inv & s2 & [Hinv Hs2]%liftR_Ok &
    (? & s3 & Hs3%meter_inv & H)%M_bind_Ok)%M_bind_Ok)%M_bind_Ok. subst s1 s2 s3.
  case_match eqn:Eplanned; [|discriminate H].
  apply M_bind_Ok in H as (planned & s4 & [Hp ->]%liftR_Ok & (? & s5 & Hs5%meter_inv & [= <- <- <- <-])%M_bind_Ok).
  subst s5. split; [done|]. split; [|done]. unfold batch_of. destruct inv.
  - destruct (_hypothesis_work_items_with_coverage _ _ _ _ _) as [w|] eqn:Ew; [|done]. injection Eplanned as <-.
    destruct w as [[its c]|e]; [|done]. injection Hp as <-. cbn. by eapply hypothesis_items_spec.
  - injection Eplanned as <-. apply bind_Ok in Hp as (its & Hits & [= <-]). by eapply plain_items_spec.
Qed.

(** The plan of one step that commits the successful branch of a candidate. *)
Definition commits (context : DecisionContext) (candidates : list PipelineCandidateRef) (involved : bool)
    (finals : list (WorkItem * BranchResult * string)) (plan : list PlannedStep) : Prop :=
  exists w r, (w, r, WORK_ITEM_FINAL_SUCCESS) ∈ finals /\ status r = BRANCH_STATUS_SUCCESS /\
    wi_candidate w ∈ candidates /\
    (if involved then is_Some (wi_hypothesis w) else wi_decision_context w = context) /\
    plan = [{| ps_semantic_action := ref_semantic_action (wi_candidate w);
               ps_target_index := ref_target_index (wi_candidate w);
               ps_target_enemy_index := ref_target_enemy_index (wi_candidate w);
               ps_expected_signature := if involved then None else result_signature r |}].

Lemma Forall2_elem_r {A B} (R : A -> B -> Prop) l m y : Forall2 R l m -> y ∈ m -> exists x, x ∈ l /\ R x y.
Proof.
  intros H Hy. apply list_elem_of_lookup in Hy as [i Hi].
  destruct (Forall2_lookup_r _ _ _ _ _ H Hi) as (x & Hx & HR). exists x. split; [by eapply list_elem_of_lookup_2|done].
Qed.

Lemma batch_elem context candidates involved items w :
  batch_of context candidates involved items -> w ∈ items ->
  wi_candidate w ∈ candidates /\ (if involved then is_Some (wi_hypothesis w) else wi_decision_context w = context).
Proof.
  unfold batch_of. destruct involved; [intros H Hw; by apply H|].
  intros [<- H] Hw. rewrite Forall_forall in H. split; [by apply list_elem_of_fmap_2|by apply H].
Qed.

Lemma commits_best context candidates involved items finals coverage entries fraction aggregation best action :
  batch_of context candidates involved items -> (forall f, f ∈ finals -> f.1.1 ∈ items) ->
  log_entries finals coverage = Ok entries ->
  (if involved : bool then aggregate_hypothesis_results entries fraction else aggregate_plain_results entries)
  = Ok aggregation ->
  best_action aggregation = Some best -> log_semantic_action (representative_entry best) = Some action ->
  commits context candidates involved finals [planned_of_entry involved (representative_entry best) action].
Proof.
  intros Hbatch Hfinals Hlog Hagg Hbest Haction.
  destruct (proj1 (success_entries_elem _ _) (best_is_success _ _ _ _ _ Hagg Hbest)) as [He Hsucc].
  destruct (Forall2_elem_r _ _ _ _ (log_entries_logs _ _ _ Hlog) He) as ([[w r] state] & Hf & Hlogs).
  destruct Hlogs as (_ & _ & Hact & Ht & Hte & _ & Hres & Hstatus & _). cbn [fst snd] in *.
  destruct (proj1 Hstatus Hsucc) as [Hs ->].
  destruct (batch_elem _ _ _ _ w Hbatch (Hfinals _ Hf)) as [Hc Hh].
  exists w, r. split_and!; try done. unfold planned_of_entry. rewrite Ht, Hte, Hres. congruence.
Qed.

(** C17: whatever the pool does, a strategy call that returns a plan commits
    exactly one step: the action and targets of one candidate the pipeline kept,
    whose branch finished with a success. Its result is expected by Main only
    when no hypothesis was involved, and then the branch ran on the very context
    that was asked for. With a state provider, Main's live state was read after
    all branches and had not moved; when it had, the call raises the invariant
    violation, naming at least one mismatch, and commits nothing. *)
Theorem search_commits_sound_step {P} {HD : BranchDispatcher P} {S} json_loads draws config
    (main_state_provider : option (M (@CoordState P) (MainLoopState S))) context st out st' :
  _strategy json_loads draws config main_state_provider context st = (Ok (Some out), st') ->
  match out with
  | Returned (SearchSuccess plan) =>
      (exists continuation subs ranked pruned o involved items st1 finals st2,
         build_candidate_pipeline_result context (width config) None
           = Ok (CandidatePipelineSuccess continuation subs ranked pruned o) /\
         _requires_hypothesis context (continuation :: subs) = Ok involved /\
         _dispatch_work_items_until_final config items st1 = (Ok finals, st2) /\
         commits context (continuation :: subs) involved finals plan) /\
      (forall provider, main_state_provider = Some provider ->
         exists st3 live, provider st3 = (Ok live, st') /\ main_unmoved context live)
  | Returned (SearchEvaluationFailure _) => True
  | MainInvariantViolated fault check =>
      fault_source fault = SRC_MAIN_INVARIANT /\ mismatches check <> [] /\
      exists provider st3 live, main_state_provider = Some provider /\ provider st3 = (Ok live, st') /\
        ~ main_unmoved context live
  end.
Proof.
  unfold _strategy. intros (pipeline & s0 & [Hpipe ->]%liftR_Ok & H)%M_bind_Ok.
  destruct pipeline as [continuation subs ranked pruned o|detail ranked o]; [|by injection H as <- <-].
  apply M_bind_Ok in H as (batch & s1 & Hbatch & H). destruct batch as [[[involved items] cov]|]; [|done].
  apply prepare_batch_spec in Hbatch as (Hinv & Hbatch & _).
  apply M_bind_Ok in H as (finals & s2 & Hfinals & (entries & s3 & [Hlog ->]%liftR_Ok &
    (aggregation & s4 & [Hagg ->]%liftR_Ok & (? & s5 & Hs5%meter_inv &
      (outcome & s6 & Hcommit%commit_spec & [= -> ->])%M_bind_Ok)%M_bind_Ok)%M_bind_Ok)%M_bind_Ok).
  destruct out as [[plan|detail]|fault check]; [| |].
  - destruct Hcommit as (best & action & check & Hbest & Haction & -> & Hchecked). split.
    + exists continuation, subs, ranked, pruned, o, involved, items, s1, finals, s2. split_and!; try done.
      eapply commits_best; try done. intros f Hf. by eapply final_outcomes_elem.
    + intros provider ->. destruct Hchecked as (live & Hp & Hc & Hok). exists s5, live.
      split; [done|]. by apply (check_live_state_spec _ _ _ Hc).
  - done.
  - destruct Hcommit as (_ & Hsrc & Hchecked). split; [done|]. unfold checked in Hchecked.
    destruct main_state_provider as [provider|]; [|by destruct Hchecked].
    destruct Hchecked as (live & Hp & Hc & Hok). apply check_live_state_spec in Hc as [Hspec Hmis].
    split; [by apply Hmis|]. exists provider, s5, live. split_and!; try done. rewrite <- Hspec. by rewrite Hok.
Qed.

(** * The plain search commits the best branch *)

Lemma listed_not_worse {B} (tie_lt : B -> B -> bool) key a b :
  not_nan (aggregate_score a) = true -> not_nan (aggregate_score b) = true ->
  listed_before tie_lt key a b -> f_ltb (aggregate_score a) (aggregate_score b) = false.
Proof.
  intros Ha Hb H. apply not_true_iff_false. unfold listed_before in H.
  rewrite f_eqb_rank, !f_ltb_rank in * by done. unfold rank_lt in *.
  destruct (float_rank (aggregate_score a)) as [[a1 a2] a3], (float_rank (aggregate_score b)) as [[b1 b2] b3].
  cbn in *. rewrite !pair_eq in *. lia.
Qed.

Lemma pipeline_scores context width threshold continuation subs ranked pruned o c :
  build_candidate_pipeline_result context width threshold
    = Ok (CandidatePipelineSuccess continuation subs ranked pruned o) ->
  c ∈ continuation :: subs -> not_nan (ref_score c) = true.
Proof.
  unfold build_candidate_pipeline_result. intros (obs & _ & (cs & _ & (rk & Hrk & H)%bind_Ok)%bind_Ok)%bind_Ok Hc.
  destruct (ranked_facts _ _ _ Hrk) as (_ & _ & _ & Hn & _).
  destruct (prune_candidates rk width threshold) as [|s0 rest] eqn:Ep; [discriminate H|].
  cbn [split_candidates mbind Res_bind] in H. injection H as <- <- <- <- <-. cbn [fst snd] in Hc.
  change (c ∈ map (_to_pipeline_ref (current_context_signature context)) (s0 :: rest)) in Hc.
  apply list_elem_of_fmap in Hc as (s & -> & Hs). rewrite <- Ep in Hs.
  unfold prune_candidates in Hs. destruct (width <=? 0); [by apply not_elem_of_nil in Hs|].
  apply elem_of_take in Hs as (i & Hi & _). apply list_elem_of_lookup_2, list_elem_of_In, filter_In in Hi as [Hi _].
  rewrite Forall_forall in Hn. apply list_elem_of_In in Hi. exact (Hn s Hi).
Qed.

Lemma fault_kinds_logged kind : str_in kind BRANCH_FAULT_KINDS = true -> is_Some (dget kind _DECISION_LOG_STATUS_BY_FAULT).
Proof.
  intros H. assert (Hall : forallb (fun k => is_some (dget k _DECISION_LOG_STATUS_BY_FAULT)) BRANCH_FAULT_KINDS = true)
    by reflexivity.
  unfold str_in in H. apply existsb_exists in H as (k & Hk & ->%String.eqb_eq).
  rewrite forallb_forall in Hall. specialize (Hall k Hk). destruct (dget k _); [by eexists|done].
Qed.

Lemma finished_logged w f : finished w f -> exists e, to_decision_log_entry f.1.1 f.1.2 (Some f.2) = Ok e.
Proof.
  intros (-> & (Hw & _ & Hans) & Hcase). unfold to_decision_log_entry. rewrite Hw, String.eqb_refl. cbn [negb].
  destruct Hcase as [[Hs ->]|[Hs ->]]; rewrite Hs; cbn [negb String.eqb].
  - by eexists.
  - destruct Hans as [Hs'|(_ & kind & Hk & Hin)]; [rewrite Hs in Hs'; discriminate Hs'|]. rewrite Hk.
    destruct (fault_kinds_logged kind Hin) as [st Hst]. cbn [mbind Res_bind]. rewrite Hst. by eexists.
Qed.

Lemma finished_entries items finals :
  Forall2 finished items finals ->
  exists entries, log_entries finals None = Ok entries /\ Forall2 logs finals entries /\
    Forall (fun e => is_final e = true) entries.
Proof.
  intros H. assert (Hm : exists entries, mapR (fun f => to_decision_log_entry f.1.1 f.1.2 (Some f.2)) finals = Ok entries).
  { induction H as [|w f ws fs Hw _ [entries IH]]; [by eexists|]. destruct (finished_logged w f Hw) as [e He].
    cbn [mapR]. rewrite He, IH. by eexists. }
  destruct Hm as [entries Hm]. exists entries.
  assert (Hlog : log_entries finals None = Ok entries) by (unfold log_entries; by rewrite Hm).
  split; [done|]. split; [by eapply log_entries_logs|]. apply log_entries_logs in Hlog. clear Hm.
  revert entries Hlog. induction H as [|w f ws fs Hw _ IH]; intros entries Hlog; inversion Hlog as [|f' e' fs' es' Hh Ht]; subst; [constructor|].
  constructor; [|by apply IH]. destruct Hh as [Hst _]. unfold is_final. rewrite Hst.
  by destruct Hw as (_ & _ & [[_ ->]|[_ ->]]).
Qed.

(** The successes of a batch are its successful entries, with their scores. *)
Lemma success_finals finals entries f :
  Forall2 logs finals entries -> f ∈ finals -> status f.1.2 = BRANCH_STATUS_SUCCESS -> f.2 = WORK_ITEM_FINAL_SUCCESS ->
  exists e, e ∈ _success_entries entries /\ logs f e /\ score_of e = ref_score (wi_candidate f.1.1).
Proof.
  intros Hl Hf Hs Hst. apply list_elem_of_lookup in Hf as [i Hi].
  destruct (Forall2_lookup_l _ _ _ _ _ Hl Hi) as (e & He & Hlogs).
  pose proof Hlogs as (_ & _ & _ & _ & _ & _ & _ & Hsucc & Hscore).
  assert (Hse : is_success e = true) by (by apply Hsucc). exists e. split_and!; [|done|].
  - apply success_entries_elem. split; [by eapply list_elem_of_lookup_2|done].
  - unfold score_of. by rewrite (Hscore Hse).
Qed.

Lemma logged_scores (candidates : list PipelineCandidateRef) finals entries :
  (forall c, c ∈ candidates -> not_nan (ref_score c) = true) -> (forall f, f ∈ finals -> wi_candidate f.1.1 ∈ candidates) ->
  Forall2 logs finals entries -> Forall scored_entry entries.
Proof.
  intros Hn Hf Hl. apply Forall_forall. intros e He Hse.
  destruct (Forall2_elem_r _ _ _ _ Hl He) as (f & Hin & _ & _ & _ & _ & _ & _ & _ & _ & Hscore).
  exists (ref_score (wi_candidate f.1.1)). split; [by apply Hscore|]. by apply Hn, Hf.
Qed.

(** The best action of a plain aggregation has the greatest score. *)
Lemma plain_best entries :
  Forall scored_entry entries -> Forall (fun e => is_final e = true) entries ->
  exists r, aggregate_plain_results entries = Ok r /\
    match best_action r with
    | None => _success_entries entries = []
    | Some best => representative_entry best ∈ _success_entries entries /\
        forall e, e ∈ _success_entries entries -> f_ltb (score_of (representative_entry best)) (score_of e) = false
    end.
Proof.
  intros Hs Hf. destruct (aggregate_plain_eq entries Hs Hf) as (r & Hr & _ & Hb). exists r. split; [done|].
  pose proof (success_scored entries Hs) as Hv. rewrite Hb. unfold sorted_plain.
  set (l := map plain_action (_success_entries entries)).
  assert (Hl : Forall (fun a => not_nan (aggregate_score a) = true) l).
  { apply Forall_map. eapply Forall_impl; [exact Hv|]. intros e (f & He & Hn). cbn. unfold score_of. by rewrite He. }
  pose proof (sort_listed pair_lt plain_key l pair_lt_asym pair_lt_ntrans Hl) as Hsorted.
  pose proof (sort_by_Permutation (fun x y => negb (scored_lt pair_lt (f_opp (aggregate_score y), plain_key y)
    (f_opp (aggregate_score x), plain_key x))) l) as Hperm.
  destruct (sort_by _ l) as [|best rest]; cbn [head].
  - apply Permutation_nil in Hperm. unfold l in Hperm. by apply map_eq_nil in Hperm.
  - assert (Hin : forall a, a ∈ best :: rest <-> a ∈ l) by (intros a; by rewrite Hperm).
    assert (Hbest : best ∈ l) by (apply Hin; left). rewrite Forall_forall in Hl.
    assert (Hrep : exists e, best = plain_action e /\ e ∈ _success_entries entries) by (by apply list_elem_of_fmap in Hbest).
    destruct Hrep as (e0 & -> & He0). split; [done|]. intros e He. cbn [representative_entry plain_action].
    assert (Hea : plain_action e ∈ l) by (by apply list_elem_of_fmap_2).
    apply Hin, elem_of_cons in Hea as [Heq|Hea].
    + injection Heq as _ Hsc ->. rewrite Forall_forall in Hv.
      apply not_true_iff_false. intros Hlt. destruct (Hv e0 He0) as (f & Hfl & Hn).
      rewrite f_ltb_rank in Hlt by (unfold score_of; by rewrite Hfl). by apply rank_lt_irrefl in Hlt.
    + apply StronglySorted_inv in Hsorted as [_ Hall]. rewrite Forall_forall in Hall.
      apply (listed_not_worse pair_lt plain_key (plain_action e0) (plain_action e)); [by apply Hl| |by apply Hall].
      apply Hl, Hin. by right.
Qed.

(** A batch without hypotheses is prepared without touching the pool. *)
Lemma prepare_plain {P} json_loads draws config context candidates ranked items (st : @CoordState P) :
  _requires_hypothesis context candidates = Ok false -> _plain_work_items json_loads context candidates = Ok items ->
  exists st1, prepare_batch json_loads draws config context candidates ranked st = (Ok (Some (false, items, None)), st1) /\
    st1.1 = st.1.
Proof.
  intros Hreq Hitems. unfold prepare_batch. erewrite M_run_Ok by apply meter_run.
  erewrite M_run_Ok by (unfold liftR; rewrite Hreq; reflexivity). erewrite M_run_Ok by apply meter_run.
  rewrite Hitems. cbn [mbind Res_bind]. erewrite M_run_Ok by reflexivity. erewrite M_run_Ok by apply meter_run.
  eexists. by split.
Qed.

(** a search without hypotheses commits the best branch: on a pool in order
    and for work items that are told apart, the strategy returns; if some
    branch succeeded it commits the action, the targets and the result
    signature of a successful branch whose score no other successful branch
    exceeds, and it reports an evaluation failure only when every branch has
    faulted for good. *)
Theorem plain_search_commits_best {P} {HD : BranchDispatcher P} (S : Type) json_loads draws config context
    continuation subs ranked pruned o items (st : @CoordState P) :
  build_candidate_pipeline_result context (width config) None
    = Ok (CandidatePipelineSuccess continuation subs ranked pruned o) ->
  _requires_hypothesis context (continuation :: subs) = Ok false ->
  _plain_work_items json_loads context (continuation :: subs) = Ok items ->
  NoDup (map work_id items) -> 0 <= max_retries config -> pool_ok st.1 ->
  exists st1 finals st2 result st',
    _dispatch_work_items_until_final config items st1 = (Ok finals, st2) /\ Forall2 finished items finals /\
    _strategy json_loads draws config (None : option (M (@CoordState P) (MainLoopState S))) context st
      = (Ok (Some (Returned result)), st') /\ pool_ok st'.1 /\
    match result with
    | SearchSuccess plan =>
        exists w r, (w, r, WORK_ITEM_FINAL_SUCCESS) ∈ finals /\
          plan = [{| ps_semantic_action := ref_semantic_action (wi_candidate w);
                     ps_target_index := ref_target_index (wi_candidate w);
                     ps_target_enemy_index := ref_target_enemy_index (wi_candidate w);
                     ps_expected_signature := result_signature r |}] /\
          forall w' r', (w', r', WORK_ITEM_FINAL_SUCCESS) ∈ finals ->
            f_ltb (ref_score (wi_candidate w)) (ref_score (wi_candidate w')) = false
    | SearchEvaluationFailure _ => forall f, f ∈ finals -> f.2 = WORK_ITEM_FINAL_FAULT
    end.
Proof.
  intros Hpipe Hreq Hitems Hnd Hret Hok. unfold _strategy.
  erewrite M_run_Ok by (unfold liftR; rewrite Hpipe; reflexivity). unfold _candidate_batch.
  destruct (prepare_plain json_loads draws config context (continuation :: subs) (length ranked) items st Hreq Hitems)
    as (st1 & Hprep & Hst1). erewrite M_run_Ok by exact Hprep. rewrite <- Hst1 in Hok.
  destruct (dispatch_until_final_spec config items st1 Hret Hnd Hok) as (_ & _ & finals & st2 & _ & _ & Hdisp & Hok2 & Hfin & _).
  destruct (plain_items_spec _ _ _ _ Hitems) as [Hcand _].
  destruct (finished_entries items finals Hfin) as (entries & Hlog & Hlogs & Hfinal).
  assert (Hscored : Forall scored_entry entries).
  { apply (logged_scores (continuation :: subs) finals); [intros c Hc; by eapply pipeline_scores| |done].
    intros f Hf. rewrite <- Hcand. apply list_elem_of_fmap_2. by eapply final_outcomes_elem. }
  destruct (plain_best entries Hscored Hfinal) as (agg & Hagg & Hbest).
  exists st1, finals, st2. erewrite M_run_Ok by exact Hdisp. erewrite M_run_Ok by (unfold liftR; rewrite Hlog; reflexivity).
  erewrite M_run_Ok by (unfold liftR; rewrite Hagg; reflexivity). erewrite M_run_Ok by apply meter_run.
  destruct (best_action agg) as [best|] eqn:Eb.
  - destruct Hbest as [Hin Hmax]. pose proof (proj1 (success_entries_elem _ _) Hin) as [He Hs].
    destruct (Forall2_elem_r _ _ _ _ Hlogs He) as ([[w r] s] & Hf & Hl).
    pose proof Hl as (_ & _ & Hact & Ht & Hte & _ & Hres & Hsucc & Hsc). cbn [fst snd] in *.
    destruct (proj1 Hsucc Hs) as [_ ->].
    erewrite M_run_Ok by (unfold commit, build_commit_decision; rewrite Eb; cbn; rewrite Hact; reflexivity).
    do 2 eexists. split; [done|]. split; [done|]. split; [reflexivity|]. split; [done|].
    exists w, r. split; [done|]. split; [by rewrite Ht, Hte, Hres|]. intros w' r' Hf'.
    destruct (success_finals finals entries (w', r', WORK_ITEM_FINAL_SUCCESS) Hlogs Hf') as (e' & He' & _ & Hsc'); [|done|].
    + destruct (Forall2_elem_r _ _ _ _ Hfin Hf') as (x & _ & _ & _ & [[? _]|[_ [=]]]); done.
    + cbn [fst snd] in Hsc'. rewrite <- Hsc'. replace (ref_score (wi_candidate w)) with (score_of (representative_entry best)) by (unfold score_of; by rewrite (Hsc Hs)).
      by apply Hmax.
  - erewrite M_run_Ok by (unfold commit, build_commit_decision; rewrite Eb; reflexivity).
    do 2 eexists. split; [done|]. split; [done|]. split; [reflexivity|]. split; [done|].
    intros f Hf. destruct (Forall2_elem_r _ _ _ _ Hfin Hf) as (x & _ & _ & _ & [[Hs Hst]|[_ ?]]); [|done].
    destruct (success_finals finals entries f Hlogs Hf Hs Hst) as (e & He & _). rewrite Hbest in He.
    by apply not_elem_of_nil in He.
Qed.

(** The fields of an explicit result. *)
Definition outcome_of (r : ExplicitBranchDispatchResult) : WorkItem * BranchResult * string :=
  (ebd_work_item r, ebd_branch_result r, ebd_work_item_state r).

(** an explicit dispatch runs exactly what was asked for: with legal indices
    it returns one final outcome per work item in order, where the items run the
    requested candidates - each exactly once and in the requested order when no
    hypothesis is involved, otherwise under hypotheses only; an index that is not
    a current legal action is refused with [ValueError] before anything runs,
    and nothing is scored or committed. *)
Theorem explicit_dispatch_exact {P} {HD : BranchDispatcher P} json_loads draws config context indices o cs :
  build_order_masked_observation (current_decision_result context) = Ok o ->
  extract_candidates (current_decision_result context) = Ok cs -> indices <> [] ->
  let legal := _legal_actions_from_current_result (current_decision_result context) in
  let valid i := 0 <= i < Z.of_nat (length legal) in
  (~ Forall valid indices -> forall st : @CoordState P, exists msg,
     dispatch_explicit_candidates json_loads draws config context indices st = (Raise (PyExc "ValueError" msg), st)) /\
  (Forall valid indices -> exists continuation subs selected,
     build_candidate_pipeline_result_for_explicit_candidates context indices
       = Ok (CandidatePipelineSuccess continuation subs selected selected o) /\
     Forall2 (refers_to context) indices (continuation :: subs) /\
     forall (st : @CoordState P) involved items coverage st1,
       prepare_batch json_loads draws config context (continuation :: subs) (length indices) st
         = (Ok (Some (involved, items, coverage)), st1) ->
       NoDup (map work_id items) -> 0 <= max_retries config -> pool_ok st.1 ->
       batch_of context (continuation :: subs) involved items /\
       exists out st', dispatch_explicit_candidates json_loads draws config context indices st = (Ok (Some out), st') /\
         pool_ok st'.1 /\ Forall2 finished items (map outcome_of out)).
Proof.
  intros Ho Hcs Hne legal valid.
  destruct (explicit_pipeline_result context indices o cs Ho Hcs Hne) as [Hvalid Hinvalid]. split.
  - intros (msg & Hm)%Hinvalid st. exists msg. unfold dispatch_explicit_candidates.
    by erewrite M_run_Raise by (unfold liftR; rewrite Hm; reflexivity).
  - intros (continuation & subs & selected & Hp & Hrefs & Hlen)%Hvalid. exists continuation, subs, selected. split; [done|]. split; [done|].
    intros st involved items coverage st1 Hprep Hnd Hret Hok.
    destruct (prepare_batch_spec _ _ _ _ _ _ _ _ _ _ _ Hprep) as (_ & Hbatch & Hst1). split; [done|].
    rewrite <- Hst1 in Hok.
    destruct (dispatch_until_final_spec config items st1 Hret Hnd Hok) as (_ & _ & finals & st2 & _ & _ & Hdisp & Hok2 & Hfin & _).
    unfold dispatch_explicit_candidates. erewrite M_run_Ok by (unfold liftR; rewrite Hp; reflexivity).
    unfold _candidate_batch. rewrite Hlen. do 2 eexists. erewrite M_run_Ok by exact Hprep. cbv iota beta. erewrite M_run_Ok by exact Hdisp.
    split; [reflexivity|]. split; [done|]. rewrite map_map. unfold outcome_of. cbn.
    replace (map _ finals) with finals; [done|]. clear. induction finals as [|[[w r] s] l IH]; [done|]. cbn. by f_equal.
Qed.

(** * A search at a concrete decision *)

Definition search_action (kind key : string) (id : Z) : pydict :=
  [("action_type", VStr kind); ("semantic_key", VStr key); ("action_id", VInt id)].
Definition search_board : BattleState :=
  {| engine_state := []; is_terminal := false; outcome := "in_progress"; turn := 1; enemy_max_hps := [];
     shuffle_rng_seed := None;
     _cached_legal_actions := Some [search_action "choice_skip" "skip" 1; search_action "system" "end" 2];
     decision_frame := Some {| combat_session_id := Some "s"; step_index := 4; continuation_step_index := None |};
     combat_completion := None |}%string.
Definition search_snapshot : pydict :=
  [("Metadata", VDict [("CaptureBoundary", VStr "normal_player_decision"); ("SnapshotId", VStr "first")])]%string.
Definition search_context : DecisionContext :=
  from_ok (build_decision_context_from_held_stable (SnapshotRoot search_snapshot) [] search_board) lease_context.

(** Main as it was, and after a step was taken meanwhile. *)
Definition live_main (board : BattleState) : MainLoopState unit :=
  {| session := tt; current_result := board;
     held_stable_snapshot := Some [("Metadata", VDict [("CaptureBoundary", VStr "normal_player_decision");
                                                       ("SnapshotId", VStr "second")])]%string;
     ml_replay_prefix := []; planned_sequence := []; combat_start_replay_root := None |}.

Definition SearchPool : Type := PoolState (list BattleState).
Definition SearchDispatcher : BranchDispatcher SearchPool := @LeasesDispatcher no_json plain_exc _ ScriptedSession [0].
Definition live_provider (board : BattleState) : M (@CoordState SearchPool) (MainLoopState unit) :=
  mret (live_main board).
(** The first branch ends in a terminal board, the second faults in both its
    attempts. *)
Definition terminal_board : BattleState :=
  {| engine_state := []; is_terminal := true; outcome := "victory"; turn := 1; enemy_max_hps := [];
     shuffle_rng_seed := None; _cached_legal_actions := Some [];
     decision_frame := Some {| combat_session_id := Some "s"; step_index := 5; continuation_step_index := None |};
     combat_completion := None |}%string.
Definition search_start : @CoordState SearchPool := (lease_pool [search_board; terminal_board], Some no_metrics).
Local Notation run_search provider :=
  (@_strategy no_json 10 SearchPool SearchDispatcher unit example_config provider search_context search_start).
Definition returned (r : Res (option StrategyOutcome) * @CoordState SearchPool) : option StrategyOutcome :=
  match r.1 with Ok o => o | Raise _ => None end.
Lemma returned_run r out : returned r = Some out -> r = (Ok (Some out), r.2).
Proof. destruct r as [[o|e] s]; cbn; [intros ->; done|done]. Qed.

(** Main unmoved: one step is committed; Main moved on: the call is refused. *)
Definition committed_outcome : option StrategyOutcome :=
  Eval vm_compute in returned (run_search (Some (live_provider search_board))).
Definition refused_outcome : option StrategyOutcome :=
  Eval vm_compute in returned (run_search (Some (live_provider terminal_board))).
Definition outcome_or (o : option StrategyOutcome) : StrategyOutcome := default (Returned (SearchEvaluationFailure "")) o.

Lemma live_provider_reads board st live st' : live_provider board st = (Ok live, st') -> live = live_main board.
Proof. unfold live_provider. intros H. by injection H as <-. Qed.

Lemma search_commits_sound_step_witness :
  (exists plan, committed_outcome = Some (Returned (SearchSuccess plan)) /\
     map ps_semantic_action plan = [{| action_type := VStr "system"; semantic_key := VStr "end" |}] /\
     main_unmoved search_context (live_main search_board)) /\
  (exists fault check, refused_outcome = Some (MainInvariantViolated fault check) /\
     mismatches check = ["state_identity"%string] /\ ~ main_unmoved search_context (live_main terminal_board)).
Proof.
  assert (H1 : returned (run_search (Some (live_provider search_board))) = Some (outcome_or committed_outcome))
    by (vm_compute; reflexivity).
  assert (H2 : returned (run_search (Some (live_provider terminal_board))) = Some (outcome_or refused_outcome))
    by (vm_compute; reflexivity).
  apply returned_run in H1, H2. split.
  - destruct (@search_commits_sound_step SearchPool SearchDispatcher unit no_json 10 example_config
      (Some (live_provider search_board)) search_context search_start _ _ H1) as [_ Hlive].
    eexists. split; [reflexivity|]. split; [reflexivity|].
    destruct (Hlive _ eq_refl) as (st3 & live & ->%live_provider_reads & Hmain). exact Hmain.
  - destruct (@search_commits_sound_step SearchPool SearchDispatcher unit no_json 10 example_config
      (Some (live_provider terminal_board)) search_context search_start _ _ H2)
      as (_ & _ & provider & st3 & live & [= <-] & ->%live_provider_reads & Hmain).
    eexists _, _. split; [reflexivity|]. split; [reflexivity|exact Hmain].
Defined.

Definition search_pipeline : PipelineCandidateRef * list PipelineCandidateRef *
    (list ScoredCandidate * list ScoredCandidate * OrderMaskedObservation) := Eval vm_compute in
  match build_candidate_pipeline_result search_context 8 None with
  | Ok (CandidatePipelineSuccess c subs ranked pruned o) => (c, subs, (ranked, pruned, o))
  | _ => (lease_candidate 0 (example_signature 0), [], ([], [], demo_observation))
  end.
Definition search_candidates : list PipelineCandidateRef := search_pipeline.1.1 :: search_pipeline.1.2.
Definition search_items : list WorkItem := Eval vm_compute in
  from_ok (_plain_work_items no_json search_context search_candidates) [].
Lemma search_pool_ok : workers_ok [0] (lease_pool [search_board; terminal_board]).
Proof.
  split; [intros [=]|]. split.
  - intros wid ->%list_elem_of_singleton. eexists. reflexivity.
  - intros wid g rt. cbn. rewrite lookup_singleton_Some. intros [_ [= <- _]]. lia.
Qed.
Lemma search_items_distinct : NoDup (map work_id search_items).
Proof. repeat constructor; [intros [[=]|[]%elem_of_nil]%elem_of_cons|intros []%elem_of_nil]. Qed.

Definition plain_outcome : option StrategyOutcome := Eval vm_compute in returned (run_search None).

Lemma plain_search_commits_best_witness :
  exists finals plan st', Forall2 finished search_items finals /\
    run_search None = (Ok (Some (Returned (SearchSuccess plan))), st') /\
    exists w r, (w, r, WORK_ITEM_FINAL_SUCCESS) ∈ finals /\
      map ps_semantic_action plan = [ref_semantic_action (wi_candidate w)] /\
      forall w' r', (w', r', WORK_ITEM_FINAL_SUCCESS) ∈ finals ->
        f_ltb (ref_score (wi_candidate w)) (ref_score (wi_candidate w')) = false.
Proof.
  assert (Hr : returned (run_search None) = plain_outcome) by (vm_compute; reflexivity).
  destruct (@plain_search_commits_best SearchPool SearchDispatcher unit no_json 10 example_config search_context
    search_pipeline.1.1 search_pipeline.1.2 search_pipeline.2.1.1 search_pipeline.2.1.2 search_pipeline.2.2
    search_items search_start) as (st1 & finals & st2 & result & st' & _ & Hfin & Hrun & _ & Hres).
  - vm_compute; reflexivity.
  - vm_compute; reflexivity.
  - vm_compute; reflexivity.
  - exact search_items_distinct.
  - cbn. lia.
  - exact search_pool_ok.
  - exists finals. destruct result as [plan|detail].
    2:{ rewrite Hrun in Hr. discriminate Hr. }
    exists plan, st'. split; [exact Hfin|]. split; [exact Hrun|].
    destruct Hres as (w & r & Hin & -> & Hmax). exists w, r. split_and!; [exact Hin|reflexivity|exact Hmax].
Defined.

(** The second legal action asked for, and an index that is not legal. *)
Local Notation explicit_run indices :=
  (@dispatch_explicit_candidates no_json 10 SearchPool SearchDispatcher example_config search_context indices search_start).
Definition observation_here : OrderMaskedObservation := from_ok (build_order_masked_observation search_board) demo_observation.
Definition candidates_here : list Candidate := from_ok (extract_candidates search_board) [].

Definition explicit_pipeline : Res CandidatePipelineResult := Eval vm_compute in
  build_candidate_pipeline_result_for_explicit_candidates search_context [1].
Definition explicit_ref : PipelineCandidateRef := Eval vm_compute in
  match explicit_pipeline with Ok (CandidatePipelineSuccess c _ _ _ _) => c | _ => search_pipeline.1.1 end.
Definition explicit_items : list WorkItem := Eval vm_compute in
  from_ok (_plain_work_items no_json search_context [explicit_ref]) [].

Lemma explicit_dispatch_exact_witness :
  (exists msg, explicit_run [1; 2] = (Raise (PyExc "ValueError" msg), search_start)) /\
  exists items out st', explicit_run [1] = (Ok (Some out), st') /\
    map (fun w => ref_semantic_action (wi_candidate w)) items = [{| action_type := VStr "system"; semantic_key := VStr "end" |}] /\
    Forall2 finished items (map outcome_of out).
Proof.
  split.
  - destruct (@explicit_dispatch_exact SearchPool SearchDispatcher no_json 10 example_config search_context [1; 2]
      observation_here candidates_here) as [Hinvalid _]; [vm_compute; reflexivity..|discriminate|].
    apply Hinvalid. intros H. apply Forall_cons in H as [_ [H _]%Forall_cons]. vm_compute in H. destruct H as [_ H]. discriminate H.
  - destruct (@explicit_dispatch_exact SearchPool SearchDispatcher no_json 10 example_config search_context [1]
      observation_here candidates_here) as [_ Hvalid]; [vm_compute; reflexivity..|discriminate|].
    destruct Hvalid as (c & subs & selected & Hbuild & _ & Hrun);
      [constructor; [vm_compute; split; [discriminate|reflexivity]|constructor]|].
    assert (Hthis : build_candidate_pipeline_result_for_explicit_candidates search_context [1] = explicit_pipeline)
      by (vm_compute; reflexivity).
    rewrite Hbuild in Hthis. injection Hthis as -> -> _ _.
    destruct (prepare_plain no_json 10 example_config search_context [explicit_ref] 1 explicit_items search_start)
      as (st1 & Hprep & _); [vm_compute; reflexivity..|].
    destruct (Hrun search_start false explicit_items None st1 Hprep) as (_ & out & st' & Hout & _ & Hfin).
    + repeat constructor. intros []%elem_of_nil.
    + cbn. lia.
    + exact search_pool_ok.
    + exists explicit_items, out, st'. split; [exact Hout|]. split; [reflexivity|exact Hfin].
Defined.
