(* ===== verification/MultiRound.v ===== *)
(** Beam search over several rounds (Combat/search/multi_round_search.py): a
    round dispatches the candidates of every live beam, successful branches
    become the beams of the next round, and the best completed line of play is
    returned as a plan. *)

From S2P Require Export Search.

Record BeamSearchConfig := {
  coordinator : SearchCoordinatorConfig;
  beam_width : Z;
  max_rounds : Z;
}.
Definition beam_search_config (c : BeamSearchConfig) : Res BeamSearchConfig :=
  if beam_width c <=? 0 then Raise (value_error "beam_width must be positive")
  else if max_rounds c <=? 0 then Raise (value_error "max_rounds must be positive")
  else Ok c.

Record _BeamEntry := {
  be_context : DecisionContext;
  be_cumulative_score : spec_float;
  be_sort_key : list string;
}.

(** The planned step of a path entry. *)
Definition step_of_entry (entry : ReplayPrefixEntry) : PlannedStep :=
  {| ps_semantic_action := entry_semantic_action entry; ps_target_index := entry_target_index entry;
     ps_target_enemy_index := entry_target_enemy_index entry; ps_expected_signature := Some (expected_signature entry) |}.
Definition _planned_sequence_from_path (path : list ReplayPrefixEntry) : list PlannedStep := map step_of_entry path.

(** A completed path is only ever turned into planned steps, and the entry of a
    hypothesis round has no expected signature: it is kept as these steps. *)
Record _CompletedBeam := {
  cb_plan : list PlannedStep;
  cb_cumulative_score : spec_float;
  cb_sort_key : list string;
  cb_reason : string;
}.

Record _ExpansionCandidate := {
  ex_parent : _BeamEntry;
  ex_branch_result : BranchResult;
  ex_entry : ReplayPrefixEntry;
  ex_round_score : spec_float;
  ex_root_action_key : string;
}.
Definition ex_plan_path (c : _ExpansionCandidate) : list ReplayPrefixEntry :=
  plan_path (be_context (ex_parent c)) ++ [ex_entry c].
Definition ex_cumulative_score (c : _ExpansionCandidate) : spec_float :=
  f_add (be_cumulative_score (ex_parent c)) (ex_round_score c).
Definition ex_sort_key (c : _ExpansionCandidate) : list string := be_sort_key (ex_parent c) ++ [ex_root_action_key c].

Definition _completed_from_expansion (candidate : _ExpansionCandidate) (reason : string) : _CompletedBeam :=
  {| cb_plan := _planned_sequence_from_path (ex_plan_path candidate); cb_cumulative_score := ex_cumulative_score candidate;
     cb_sort_key := ex_sort_key candidate; cb_reason := reason |}.
(** A beam that ends where it is. *)
Definition ended (beam : _BeamEntry) (reason : string) : _CompletedBeam :=
  {| cb_plan := _planned_sequence_from_path (plan_path (be_context beam)); cb_cumulative_score := be_cumulative_score beam;
     cb_sort_key := be_sort_key beam; cb_reason := reason |}.

(** The order of ranks [(-score, length, sort_key)]. *)
Fixpoint strs_lt (x y : list string) : bool :=
  match x, y with
  | _, [] => false
  | [], _ :: _ => true
  | a :: x, b :: y => if String.eqb a b then strs_lt x y else str_ltb a b
  end.
Definition rank_tie_lt (x y : Z * list string) : bool := if x.1 =? y.1 then strs_lt x.2 y.2 else x.1 <? y.1.
Definition beam_rank : Type := spec_float * (Z * list string).
Definition beam_rank_leb (x y : beam_rank) : bool := negb (scored_lt rank_tie_lt y x).
Definition _rank_completed (item : _CompletedBeam) : beam_rank :=
  (f_opp (cb_cumulative_score item), (Z.of_nat (length (cb_plan item)), cb_sort_key item)).
Definition _rank_expansion (item : _ExpansionCandidate) : beam_rank :=
  (f_opp (ex_cumulative_score item), (Z.of_nat (length (ex_plan_path item)), ex_sort_key item)).

Definition _entry_from_branch (candidate : PipelineCandidateRef) (signature : option DecisionSignature) : Res ReplayPrefixEntry :=
  match signature with
  | None => Raise (value_error "cannot build a ReplayPrefixEntry without a result signature")
  | Some signature =>
      Ok {| entry_semantic_action := ref_semantic_action candidate; expected_signature := signature;
            entry_target_index := ref_target_index candidate; entry_target_enemy_index := ref_target_enemy_index candidate;
            visible_draw_constraints := []; visible_draw_tracking_blocked := false; visible_draw_tracking_error := None |}
  end.

(** [{work_item.work_id: f(...) for ... in final_results}] *)
Definition by_work_id {A} (f : WorkItem * BranchResult * string -> A) (final_results : list (WorkItem * BranchResult * string)) :
    list (string * A) :=
  foldl (fun d x => dset (work_id x.1.1) (f x) d) [] final_results.

(** [dataclasses.replace(context, plan_path=...)] *)
Definition with_plan_path (c : DecisionContext) (path : list ReplayPrefixEntry) : DecisionContext :=
  {| root_snapshot := root_snapshot c; replay_prefix := replay_prefix c; plan_path := path;
     current_decision_result := current_decision_result c; current_context_signature := current_context_signature c;
     search_hypothesis_id := search_hypothesis_id c |}.

Section Beam.
Context (json_loads : string -> Res pyval) (draws : nat).
Context {P : Type} {HD : BranchDispatcher P} {S : Type}.
Context (config : BeamSearchConfig) (main_state_provider : option (M (@CoordState P) (MainLoopState S)))
  (snapshot_state_loader : pydict -> Res BattleState).

(** One round of a beam whose candidates need a hypothesis: it is completed by
    the committed action. The check of Main is left to the end. *)
Definition _completed_hypothesis_round (entry : _BeamEntry) (candidates : list PipelineCandidateRef) :
    M (@CoordState P) (option _CompletedBeam) :=
  match _hypothesis_work_items_with_coverage json_loads draws (coordinator config) (be_context entry) candidates with
  | None => mret None
  | Some items =>
      items ← liftR items;
      final_results ← _dispatch_work_items_until_final (coordinator config) items.1;
      entries ← liftR (log_entries final_results None);
      aggregation ← liftR (aggregate_hypothesis_results entries (cfg_min_coverage_fraction (coordinator config)));
      decision ← build_commit_decision aggregation true (mret true);
      match decision, best_action aggregation with
      | CommitSearch (SearchEvaluationFailure _), _ => mret (Some (ended entry "hypothesis_zero_viable"))
      | CommitSearch (SearchSuccess (planned :: _)), Some best =>
          mret (Some {| cb_plan := _planned_sequence_from_path (plan_path (be_context entry)) ++ [planned];
                        cb_cumulative_score := f_add (be_cumulative_score entry) (aggregate_score best);
                        cb_sort_key := be_sort_key entry ++ [agg_root_action_key best];
                        cb_reason := "hypothesis_required" |})
      | CommitSearch (SearchSuccess []), _ => raiseM (PyExc "IndexError" "list index out of range")
      | CommitSearch (SearchSuccess _), None => raiseM (PyExc "AssertionError" "")
      | CommitMainFault _, _ => raiseM (PyExc "RuntimeError" "unexpected Main invariant outcome from local hypothesis commit")
      end
  end.

(** The expansion of one viable action, unless its branch has failed. *)
Definition expansion_of (entry : _BeamEntry) (final_results : list (WorkItem * BranchResult * string))
    (action : RootActionAggregation) : Res (option _ExpansionCandidate) :=
  let id := log_work_id (representative_entry action) in
  match dget id (by_work_id (fun f => f.1.2) final_results), dget id (by_work_id (fun f => wi_candidate f.1.1) final_results) with
  | Some branch, Some candidate =>
      if negb (String.eqb (status branch) BRANCH_STATUS_SUCCESS) then Ok None
      else
        e ← _entry_from_branch candidate (result_signature branch);
        Ok (Some {| ex_parent := entry; ex_branch_result := branch; ex_entry := e;
                    ex_round_score := aggregate_score action; ex_root_action_key := agg_root_action_key action |})
  | _, _ => Raise (PyExc "KeyError" (repr_str id))
  end.
Definition _plain_round_expansions (entry : _BeamEntry) (candidates : list PipelineCandidateRef) :
    M (@CoordState P) (list _ExpansionCandidate) :=
  work_items ← liftR (_plain_work_items json_loads (be_context entry) candidates);
  final_results ← _dispatch_work_items_until_final (coordinator config) work_items;
  entries ← liftR (log_entries final_results None);
  aggregation ← liftR (aggregate_plain_results entries);
  expansions ← liftR (mapR (expansion_of entry final_results) (viable_actions aggregation));
  mret (omap id expansions).

(** The variables of the search. *)
Record Progress := {
  round_expansions : list _ExpansionCandidate;
  completed : list _CompletedBeam;
  produced_any_viable : bool;
}.
Definition complete (c : _CompletedBeam) (p : Progress) : Progress :=
  {| round_expansions := round_expansions p; completed := completed p ++ [c]; produced_any_viable := produced_any_viable p |}.
Definition viable (p : Progress) : Progress :=
  {| round_expansions := round_expansions p; completed := completed p; produced_any_viable := true |}.
Definition extend (expansions : list _ExpansionCandidate) (p : Progress) : Progress :=
  {| round_expansions := round_expansions p ++ expansions; completed := completed p; produced_any_viable := produced_any_viable p |}.

(** A beam in the round [round_index]. *)
Definition expand_beam (round_index : nat) (beam : _BeamEntry) (p : Progress) : M (@CoordState P) (option Progress) :=
  pipeline ← liftR (build_candidate_pipeline_result (be_context beam) (width (coordinator config)) None);
  match pipeline with
  | NoViableCandidates _ _ _ =>
      if Nat.eqb round_index 0 && negb (produced_any_viable p) then mret (Some p)
      else mret (Some (complete (ended beam "no_viable_candidates") p))
  | CandidatePipelineSuccess continuation sub_branches _ _ _ =>
      let candidates := _candidate_batch continuation sub_branches in
      involved ← liftR (_requires_hypothesis (be_context beam) candidates);
      if involved : bool then
        completed_hypothesis ← _completed_hypothesis_round beam candidates;
        mret (c ← completed_hypothesis; Some (complete c (viable p)))
      else
        expansions ← _plain_round_expansions beam candidates;
        match expansions with
        | _ :: _ => mret (Some (extend expansions (viable p)))
        | [] => mret (Some (if Nat.eqb round_index 0 then p else complete (ended beam "zero_successful_plain_results") p))
        end
  end.
Fixpoint expand_beams (round_index : nat) (active : list _BeamEntry) (p : Progress) : M (@CoordState P) (option Progress) :=
  match active with
  | [] => mret (Some p)
  | beam :: rest =>
      r ← expand_beam round_index beam p;
      match r with None => mret None | Some p => expand_beams round_index rest p end
  end.

(** Where a surviving expansion goes: to the next round, or to the completed
    lines. *)
Definition place_survivor (last_round : bool) (candidate : _ExpansionCandidate) : Res (_BeamEntry + _CompletedBeam) :=
  let branch := ex_branch_result candidate in
  let done reason := Ok (inr (_completed_from_expansion candidate reason)) in
  let next context :=
    Ok (inl {| be_context := context; be_cumulative_score := ex_cumulative_score candidate; be_sort_key := ex_sort_key candidate |}) in
  match result_signature branch with
  | None => Raise (value_error "successful expansion did not carry result_signature")
  | Some signature =>
      let boundary := sig_boundary signature in
      if String.eqb boundary BOUNDARY_TERMINAL then done "terminal_boundary"%string
      else if String.eqb boundary BOUNDARY_PENDING then
        if last_round then done "max_rounds"%string
        else match pending_decision_context branch with
             | None => Raise (value_error "Pending expansion did not carry pending_decision_context")
             | Some c => next (with_plan_path c (ex_plan_path candidate))
             end
      else match child_snapshot branch with
           | Some snapshot =>
               if negb (String.eqb boundary BOUNDARY_STABLE) then done "non_stable_boundary"%string
               else if last_round then done "max_rounds"%string
               else
                 state ← snapshot_state_loader snapshot;
                 next (from_prev_child (SnapshotRoot snapshot) state signature (ex_plan_path candidate))
           | None => done "non_stable_boundary"%string
           end
  end.
Fixpoint place_survivors (last_round : bool) (survivors : list _ExpansionCandidate) : Res (list _BeamEntry * list _CompletedBeam) :=
  match survivors with
  | [] => Ok ([], [])
  | candidate :: rest =>
      placed ← place_survivor last_round candidate;
      others ← place_survivors last_round rest;
      Ok (match placed with
          | inl beam => (beam :: others.1, others.2)
          | inr c => (others.1, c :: others.2)
          end)
  end.
Definition survivors_of (expansions : list _ExpansionCandidate) : list _ExpansionCandidate :=
  take (Z.to_nat (beam_width config)) (sort_by (fun x y => beam_rank_leb (_rank_expansion x) (_rank_expansion y)) expansions).

(** The rounds from [round_index] on, of which [rounds] are left: the active
    beams, the completed lines and whether anything was viable. *)
Fixpoint search_rounds (rounds round_index : nat) (active : list _BeamEntry) (p : Progress) :
    M (@CoordState P) (option (list _BeamEntry * Progress)) :=
  match rounds with
  | O => mret (Some (active, p))
  | Datatypes.S rounds =>
      r ← expand_beams round_index active
            {| round_expansions := []; completed := completed p; produced_any_viable := produced_any_viable p |};
      match r with
      | None => mret None
      | Some p =>
          match round_expansions p with
          | [] => mret (Some (active, p))
          | expansions =>
              placed ← liftR (place_survivors (Nat.eqb rounds 0) (survivors_of expansions));
              let p := {| round_expansions := []; completed := completed p ++ placed.2;
                          produced_any_viable := produced_any_viable p |} in
              match placed.1 with
              | [] => mret (Some ([], p))
              | next_active => search_rounds rounds (Datatypes.S round_index) next_active p
              end
          end
      end
  end.

(** The beams still active at the end that have a path. *)
Definition exhausted (active : list _BeamEntry) : list _CompletedBeam :=
  map (fun beam => ended beam "exhausted_active")
    (List.filter (fun beam => negb (Nat.eqb (length (plan_path (be_context beam))) 0)) active).

(** [build_beam_search_strategy(...)]'s strategy, on a decision context. *)
Definition _beam_strategy (decision_context : DecisionContext) : M (@CoordState P) (option StrategyOutcome) :=
  let root := {| be_context := decision_context; be_cumulative_score := f_of_Z 0; be_sort_key := [] |} in
  r ← search_rounds (Z.to_nat (max_rounds config)) 0 [root]
        {| round_expansions := []; completed := []; produced_any_viable := false |};
  match r with
  | None => mret None
  | Some (active, p) =>
      if negb (produced_any_viable p) then
        mret (Some (Returned (SearchEvaluationFailure "search evaluation produced zero viable Root Actions")))
      else
        match sort_by (fun x y => beam_rank_leb (_rank_completed x) (_rank_completed y)) (completed p ++ exhausted active) with
        | [] => mret (Some (Returned (SearchEvaluationFailure "search evaluation produced zero completed beam entries")))
        | best :: _ =>
            let success := mret (Some (Returned (SearchSuccess (cb_plan best)))) in
            match main_state_provider with
            | None => success
            | Some provider =>
                check ← _check_main_invariant decision_context provider;
                if inv_ok check then success
                else mret (Some (MainInvariantViolated
                  {| fault_source := SRC_MAIN_INVARIANT;
                     mcf_detail := "Main state identity changed during multi-round search aggregation; mismatches=" +:+
                                   join_or (mismatches check) "unknown";
                     mcf_diagnostics := [("main_invariant", VDict (inv_diagnostics check))]%string |} check))
            end
        end
  end.
End Beam.

(** * Lines of play *)

Section Lines.
Context (json_loads : string -> Res pyval) (draws : nat).
Context {P : Type} {HD : BranchDispatcher P} {S : Type}.
Context (config : BeamSearchConfig) (main_state_provider : option (M (@CoordState P) (MainLoopState S)))
  (snapshot_state_loader : pydict -> Res BattleState).
Context (start : DecisionContext).

(** The batch the pipeline keeps at a context, and whether it needs a
    hypothesis. *)
Definition kept (c : DecisionContext) (candidates : list PipelineCandidateRef) (involved : bool) : Prop :=
  exists continuation subs ranked pruned o,
    build_candidate_pipeline_result c (width (coordinator config)) None
      = Ok (CandidatePipelineSuccess continuation subs ranked pruned o) /\
    candidates = _candidate_batch continuation subs /\ _requires_hypothesis c candidates = Ok involved.

(** [x] extends its beam by a candidate the pipeline kept there, run without
    hypothesis on the beam's own context with a success; the round's score is
    that of a candidate of the batch run under the same work id. *)
Record expands (x : _ExpansionCandidate) : Prop := {
  xp_run : exists candidates w, kept (be_context (ex_parent x)) candidates false /\ wi_candidate w ∈ candidates /\
    wi_decision_context w = be_context (ex_parent x) /\ work_id (work_item (ex_branch_result x)) = work_id w /\
    _entry_from_branch (wi_candidate w) (result_signature (ex_branch_result x)) = Ok (ex_entry x) /\
    exists w0, work_id w0 = work_id w /\ wi_candidate w0 ∈ candidates /\ ex_round_score x = ref_score (wi_candidate w0);
  xp_success : status (ex_branch_result x) = BRANCH_STATUS_SUCCESS;
}.

(** The beams reached from the start, with the entries of their path. *)
Inductive line : _BeamEntry -> list ReplayPrefixEntry -> Prop :=
  | line_start : line {| be_context := start; be_cumulative_score := f_of_Z 0; be_sort_key := [] |} []
  | line_step beam path x next : line beam path -> expands x -> ex_parent x = beam ->
      place_survivor snapshot_state_loader false x = Ok (inl next) -> line next (path ++ [ex_entry x]).

(** What may follow a line in the completed plan: nothing, one more successful
    branch, or the committed candidate of a hypothesis round, whose result is
    not expected to be seen. *)
Definition last_step (beam : _BeamEntry) (steps : list PlannedStep) : Prop :=
  steps = [] \/
  (exists x, expands x /\ ex_parent x = beam /\ steps = [step_of_entry (ex_entry x)]) \/
  (exists candidates w r, kept (be_context beam) candidates true /\ wi_candidate w ∈ candidates /\ is_Some (wi_hypothesis w) /\
     status r = BRANCH_STATUS_SUCCESS /\
     steps = [{| ps_semantic_action := ref_semantic_action (wi_candidate w); ps_target_index := ref_target_index (wi_candidate w);
                 ps_target_enemy_index := ref_target_enemy_index (wi_candidate w); ps_expected_signature := None |}]).

Definition plan_of_line (n : nat) (plan : list PlannedStep) : Prop :=
  exists beam path steps, line beam path /\ last_step beam steps /\
    plan = _planned_sequence_from_path (plan_path start ++ path) ++ steps /\ (length path + length steps <= n)%nat.

(** ** Batches *)

Lemma dset_map {A B} (f : A -> B) k x (d : list (string * A)) :
  map (fun kv => (kv.1, f kv.2)) (dset k x d) = dset k (f x) (map (fun kv => (kv.1, f kv.2)) d).
Proof. induction d as [|[k' y] d IH]; cbn; [done|]. destruct (String.eqb k k'); cbn; [done|]. by rewrite IH. Qed.
Lemma dget_map {A B} (f : A -> B) k (d : list (string * A)) : dget k (map (fun kv => (kv.1, f kv.2)) d) = f <$> dget k d.
Proof. induction d as [|[k' y] d IH]; cbn; [done|]. by destruct (String.eqb k k'). Qed.
Lemma by_work_id_map {A} (f : WorkItem * BranchResult * string -> A) finals id :
  dget id (by_work_id f finals) = f <$> dget id (by_work_id (fun x => x) finals).
Proof.
  rewrite <- dget_map. f_equal. unfold by_work_id. induction finals as [|x finals IH] using rev_ind; [done|].
  rewrite !foldl_app. cbn [foldl]. by rewrite dset_map, IH.
Qed.
Lemma by_work_id_elem finals id x : dget id (by_work_id (fun x => x) finals) = Some x -> x ∈ finals /\ work_id x.1.1 = id.
Proof.
  unfold by_work_id. induction finals as [|y finals IH] using rev_ind; [done|]. rewrite foldl_app. cbn [foldl]. rewrite dget_dset.
  destruct (String.eqb_spec id (work_id y.1.1)) as [->|].
  - intros [= <-]. split; [|done]. apply elem_of_app. right. by left.
  - intros [H ?]%IH. split; [|done]. apply elem_of_app. by left.
Qed.

Lemma plain_viable entries aggregation a :
  aggregate_plain_results entries = Ok aggregation -> a ∈ viable_actions aggregation ->
  representative_entry a ∈ _success_entries entries /\ log_score (representative_entry a) = Some (aggregate_score a).
Proof.
  unfold aggregate_plain_results. intros (_ & _ & H)%bind_Ok Ha.
  destruct (_success_entries entries) as [|e0 es] eqn:Ev; [injection H as <-; by apply elem_of_nil in Ha|]. rewrite <- Ev in *. clear Ev e0 es.
  apply bind_Ok in H as (keyed & Hk & (viable & Hv & [= <-])%bind_Ok). cbn [viable_actions] in Ha.
  destruct (mapR_elem _ _ _ _ Hv Ha) as (e & He & Hpl). unfold plain_aggregation in Hpl.
  apply bind_Ok in Hpl as (s & Hs & [= <-]). cbn [representative_entry aggregate_score].
  apply list_elem_of_fmap in He as ([k e'] & -> & He). rewrite (elem_of_sort_by _ _ _) in He.
  destruct (mapR_elem _ _ _ _ Hk He) as (e2 & Hin & (s2 & Hs2 & [= <- <-])%bind_Ok). split; [exact Hin|].
  cbn [snd] in *. unfold float_score in Hs. destruct (log_score e2) as [f|]; [|done]. injection Hs as ->. done.
Qed.

Lemma log_entries_ids finals entries f : log_entries finals None = Ok entries -> f ∈ finals -> work_id (work_item f.1.2) = work_id f.1.1.
Proof.
  intros (es & Hes%mapR_Ok_inv & _)%bind_Ok Hf. apply list_elem_of_lookup in Hf as [i Hi].
  destruct (Forall2_lookup_l _ _ _ _ _ Hes Hi) as (e & _ & He). unfold to_decision_log_entry in He.
  by destruct (String.eqb_spec (work_id (work_item f.1.2)) (work_id f.1.1)).
Qed.

Lemma mapR_omap_elem {A B} (f : A -> Res (option B)) l ys y : mapR f l = Ok ys -> y ∈ omap id ys -> exists x, x ∈ l /\ f x = Ok (Some y).
Proof.
  intros H (o & Ho & Heq)%list_elem_of_omap. unfold id in Heq. subst o. destruct (mapR_elem _ _ _ _ H Ho) as (x & Hx & Hf). by exists x.
Qed.

Lemma plain_round_spec beam candidates st expansions st' :
  kept (be_context beam) candidates false ->
  _plain_round_expansions json_loads config beam candidates st = (Ok expansions, st') ->
  forall x, x ∈ expansions -> expands x /\ ex_parent x = beam.
Proof.
  intros Hkept (items & s1 & [Hitems ->]%liftR_Ok & (finals & s2 & Hdisp & (entries & s3 & [Hlog ->]%liftR_Ok &
    (aggregation & s4 & [Hagg ->]%liftR_Ok & (exs & s5 & [Hexs ->]%liftR_Ok & [= <- _])%M_bind_Ok)%M_bind_Ok)%M_bind_Ok)%M_bind_Ok)%M_bind_Ok.
  intros x Hx. destruct (mapR_omap_elem _ _ _ _ Hexs Hx) as (a & Ha & Hof).
  destruct (plain_viable _ _ _ Hagg Ha) as [[He Hsucc]%success_entries_elem Hscore].
  pose proof (log_entries_logs _ _ _ Hlog) as Hlogs.
  unfold expansion_of in Hof. rewrite (by_work_id_map (fun f => f.1.2)), (by_work_id_map (fun f => wi_candidate f.1.1)) in Hof.
  destruct (dget _ (by_work_id (fun x => x) finals)) as [f|] eqn:Ef; [|done]. cbn in Hof.
  destruct (by_work_id_elem _ _ _ Ef) as [Hf Hid].
  destruct (String.eqb_spec (status f.1.2) BRANCH_STATUS_SUCCESS) as [Hst|]; [|done]. cbn in Hof.
  apply bind_Ok in Hof as (entry & Hentry & [= <-]). split; [|done].
  destruct (Forall2_elem_r _ _ _ _ Hlogs He) as (f0 & Hf0 & Hl0). destruct Hl0 as (_ & Hid0 & _ & _ & _ & _ & _ & _ & Hsc).
  pose proof (plain_items_spec _ _ _ _ Hitems) as [Hc Hctx]. rewrite Forall_forall in Hctx.
  assert (Hcand : forall g, g ∈ finals -> wi_candidate g.1.1 ∈ candidates /\ wi_decision_context g.1.1 = be_context beam).
  { intros g Hg. assert (Hin : g.1.1 ∈ items) by (by eapply final_outcomes_elem). split; [rewrite <- Hc; by apply list_elem_of_fmap_2|by apply Hctx]. }
  constructor; cbn; [|done]. exists candidates, f.1.1. split_and!; [done|by apply Hcand|by apply Hcand| |done|].
  - by eapply log_entries_ids.
  - exists f0.1.1. rewrite Hid0 in Hid. split_and!; [done|by apply Hcand|]. rewrite (Hsc Hsucc) in Hscore. by injection Hscore.
Qed.

Lemma hypothesis_round_spec beam candidates st cb st' :
  kept (be_context beam) candidates true ->
  _completed_hypothesis_round json_loads draws config beam candidates st = (Ok (Some cb), st') ->
  exists steps, last_step beam steps /\ cb_plan cb = _planned_sequence_from_path (plan_path (be_context beam)) ++ steps /\
    (length steps <= 1)%nat.
Proof.
  intros Hkept. unfold _completed_hypothesis_round.
  destruct (_hypothesis_work_items_with_coverage _ _ _ _ _) as [items|] eqn:Eitems; [|done].
  intros ([its cov] & s1 & [Hits ->]%liftR_Ok & (finals & s2 & Hdisp & (entries & s3 & [Hlog ->]%liftR_Ok &
    (aggregation & s4 & [Hagg ->]%liftR_Ok & (decision & s5 & Hdec & H)%M_bind_Ok)%M_bind_Ok)%M_bind_Ok)%M_bind_Ok)%M_bind_Ok. subst items.
  unfold build_commit_decision in Hdec. destruct (best_action aggregation) as [best|] eqn:Ebest.
  2:{ injection Hdec as <- _. injection H as <- _. exists []. rewrite app_nil_r. split; [by left|]. split; [done|cbn; lia]. }
  erewrite M_run_Ok in Hdec by reflexivity. cbn [negb] in Hdec.
  destruct (log_semantic_action (representative_entry best)) as [action|] eqn:Eaction; [|done].
  injection Hdec as <- _. injection H as <- _.
  assert (Hbatch : batch_of (be_context beam) candidates true its) by (unfold batch_of; eapply hypothesis_items_spec; exact Eitems).
  destruct (commits_best (be_context beam) candidates true its finals None entries (cfg_min_coverage_fraction (coordinator config))
    aggregation best action Hbatch) as (w & r & _ & Hst & Hc & Hh & Hplan); [intros f Hf; by eapply final_outcomes_elem|done..|].
  eexists. split; [right; right|split; [reflexivity|cbn; lia]]. exists candidates, w, r. split_and!; done.
Qed.

(** ** Beams and lines of a search of [total] rounds *)

Context (total : nat).

Definition good (n : nat) (beam : _BeamEntry) : Prop :=
  exists path, line beam path /\ plan_path (be_context beam) = plan_path start ++ path /\ (length path <= n)%nat.
Definition line_ends (c : _CompletedBeam) : Prop := plan_of_line total (cb_plan c).
Definition progress_ok (n : nat) (p : Progress) : Prop :=
  (forall x, x ∈ round_expansions p -> expands x /\ good n (ex_parent x)) /\ Forall line_ends (completed p).

Lemma good_ends n beam reason steps : good n beam -> (n + length steps <= total)%nat -> last_step beam steps ->
  forall c, cb_plan c = cb_plan (ended beam reason) ++ steps -> line_ends c.
Proof.
  intros (path & Hl & Hp & Hn) Hle Hs c Hc. exists beam, path, steps. split_and!; [done|done| |lia].
  rewrite Hc. cbn. by rewrite Hp.
Qed.
Lemma good_ended n beam reason : good n beam -> (n <= total)%nat -> line_ends (ended beam reason).
Proof.
  intros Hg Hn. eapply (good_ends n beam reason []); [done|cbn; lia|by left|]. by rewrite app_nil_r.
Qed.
Lemma expansion_ends n x reason : expands x -> good n (ex_parent x) -> (n < total)%nat -> line_ends (_completed_from_expansion x reason).
Proof.
  intros Hx Hg Hn. eapply (good_ends n (ex_parent x) reason [step_of_entry (ex_entry x)]); [done|cbn; lia|right; left; by exists x|].
  cbn. unfold _planned_sequence_from_path, ex_plan_path. by rewrite map_app.
Qed.

Lemma complete_ok n c p : line_ends c -> progress_ok n p -> progress_ok n (complete c p).
Proof. intros Hc [Hx Hp]. split; [exact Hx|]. apply Forall_app. split; [done|]. by constructor. Qed.

Lemma expand_beam_ok n k beam p st p' st' :
  good n beam -> (n < total)%nat -> progress_ok n p ->
  expand_beam json_loads draws config k beam p st = (Ok (Some p'), st') -> progress_ok n p'.
Proof.
  intros Hg Hn Hp. unfold expand_beam. intros (pipeline & s1 & [Hpipe ->]%liftR_Ok & H)%M_bind_Ok.
  destruct pipeline as [continuation subs ranked pruned o|].
  2:{ destruct (Nat.eqb k 0 && _); injection H as <- _; [done|]. apply complete_ok; [|done]. eapply good_ended; [exact Hg|lia]. }
  apply M_bind_Ok in H as (involved & s2 & [Hreq ->]%liftR_Ok & H).
  assert (Hkept : kept (be_context beam) (_candidate_batch continuation subs) involved) by (by exists continuation, subs, ranked, pruned, o).
  destruct involved.
  - apply M_bind_Ok in H as (c & s3 & Hc & H). destruct c as [c|]; [|done]. injection H as <- _.
    destruct (hypothesis_round_spec _ _ _ _ _ Hkept Hc) as (steps & Hs & Hplan & Hlen). apply complete_ok; [|exact Hp].
    eapply (good_ends n beam "" steps); [done|lia|done|exact Hplan].
  - apply M_bind_Ok in H as (expansions & s3 & Hexp & H). pose proof (plain_round_spec _ _ _ _ _ Hkept Hexp) as Hall.
    destruct expansions as [|x xs]; injection H as <- _.
    + destruct (Nat.eqb k 0); [done|]. apply complete_ok; [|done]. eapply good_ended; [exact Hg|lia].
    + destruct Hp as [Hx Hc]. split; [|exact Hc]. intros y [Hy|Hy]%elem_of_app; [by apply Hx|].
      destruct (Hall y Hy) as [He ->]. by split.
Qed.
Lemma expand_beams_ok n k active : forall p st p' st',
  Forall (good n) active -> (n < total)%nat -> progress_ok n p ->
  expand_beams json_loads draws config k active p st = (Ok (Some p'), st') -> progress_ok n p'.
Proof.
  induction active as [|beam rest IH]; intros p st p' st' Hg Hn Hp; cbn [expand_beams]; [by intros [= <- _]|].
  inversion_clear Hg as [|? ? Hb Hr]. intros ([p1|] & s1 & H1 & H)%M_bind_Ok; [|done]. eapply IH; [exact Hr|done| |exact H].
  by eapply expand_beam_ok.
Qed.

Lemma placed_ok n last_round x r : expands x -> good n (ex_parent x) -> (n < total)%nat ->
  place_survivor snapshot_state_loader last_round x = Ok r ->
  match r with inl beam => good (Datatypes.S n) beam | inr c => line_ends c end.
Proof.
  intros Hx Hg Hn H. assert (Hfalse : forall beam, r = inl beam -> last_round = false).
  { intros beam ->. destruct last_round; [|done]. exfalso. revert H. unfold place_survivor.
    destruct (result_signature _) as [sg|]; [|done]. repeat (case_match; try done). }
  assert (Hplan : forall beam, r = inl beam -> plan_path (be_context beam) = ex_plan_path x).
  { intros beam ->. revert H. unfold place_survivor. destruct (result_signature _) as [sg|]; [|done].
    repeat (case_match; try done); [by intros [= <-]|]. by intros (state & _ & [= <-])%bind_Ok. }
  destruct r as [beam|c].
  - rewrite (Hfalse beam eq_refl) in H. destruct Hg as (path & Hl & Hp & Hlen). exists (path ++ [ex_entry x]). split_and!.
    + by eapply line_step.
    + rewrite (Hplan beam eq_refl). unfold ex_plan_path. by rewrite Hp, app_assoc.
    + rewrite length_app. cbn. lia.
  - assert (exists reason, c = _completed_from_expansion x reason) as [reason ->].
    { revert H. unfold place_survivor. destruct (result_signature _) as [sg|]; [|done].
      repeat (case_match; try done); try (by intros [= <-]; eexists). by intros (state & _ & [=])%bind_Ok. }
    by eapply expansion_ends.
Qed.
Lemma place_all_ok n last_round survivors : forall placed, (n < total)%nat ->
  (forall x, x ∈ survivors -> expands x /\ good n (ex_parent x)) ->
  place_survivors snapshot_state_loader last_round survivors = Ok placed ->
  Forall (good (Datatypes.S n)) placed.1 /\ Forall line_ends placed.2 /\ (length placed.1 <= length survivors)%nat.
Proof.
  induction survivors as [|x rest IH]; intros placed Hn Hall; cbn [place_survivors]; [by intros [= <-]|].
  intros (r & Hr & (others & Ho & [= <-])%bind_Ok)%bind_Ok.
  destruct (IH others Hn) as (H1 & H2 & H3); [intros y Hy; apply Hall; by right|done|].
  destruct (Hall x) as [Hx Hg]; [by left|]. pose proof (placed_ok n last_round x r Hx Hg Hn Hr) as Hp.
  destruct r; cbn; split_and!; try done; try (by constructor); lia.
Qed.

Lemma survivors_elem expansions x : x ∈ survivors_of config expansions -> x ∈ expansions.
Proof.
  unfold survivors_of. set (l := sort_by _ expansions). intros Hx.
  assert (Hl : x ∈ l) by (rewrite <- (take_drop (Z.to_nat (beam_width config)) l); apply elem_of_app; by left).
  unfold l in Hl. by rewrite elem_of_sort_by in Hl.
Qed.

Lemma search_rounds_ok rounds : forall k active p st active' p' st',
  (k + rounds = total)%nat -> Forall (good k) active -> Forall line_ends (completed p) ->
  search_rounds json_loads draws config snapshot_state_loader rounds k active p st = (Ok (Some (active', p')), st') ->
  Forall (good total) active' /\ Forall line_ends (completed p').
Proof.
  assert (Hweak : forall k active, (k <= total)%nat -> Forall (good k) active -> Forall (good total) active).
  { intros k active Hk Hf. eapply Forall_impl; [exact Hf|]. intros beam (path & ? & ? & ?). exists path. split_and!; [done|done|lia]. }
  induction rounds as [|rounds IH]; intros k active p st active' p' st' Hk Hg Hc; cbn [search_rounds].
  { intros [= <- <- _]. split; [apply (Hweak k); [lia|done]|done]. }
  intros (r & s1 & Hr & H)%M_bind_Ok. destruct r as [p1|]; [|done].
  assert (Hp1 : progress_ok k p1).
  { eapply expand_beams_ok; [exact Hg|lia| |exact Hr]. split; [by intros x ?%elem_of_nil|exact Hc]. }
  destruct Hp1 as [Hx Hc1]. destruct (round_expansions p1) as [|x0 xs] eqn:Ex.
  { injection H as <- <- _. split; [apply (Hweak k); [lia|done]|done]. }
  rewrite <- Ex in *. apply M_bind_Ok in H as (placed & s2 & [Hpl ->]%liftR_Ok & H).
  destruct (place_all_ok k _ _ _ ltac:(lia) (fun y Hy => Hx y (survivors_elem _ _ Hy)) Hpl) as (H1 & H2 & _).
  assert (Hc2 : Forall line_ends (completed p1 ++ placed.2)) by (by apply Forall_app).
  destruct placed.1 as [|b bs] eqn:Eb; [injection H as <- <- _; by split|].
  eapply (IH (Datatypes.S k)); [lia|exact H1| |exact H]. exact Hc2.
Qed.
End Lines.

(** ** The strategy *)

Section Strategy.
Context (json_loads : string -> Res pyval) (draws : nat).
Context {P : Type} {HD : BranchDispatcher P} {S : Type}.
Context (config : BeamSearchConfig) (main_state_provider : option (M (@CoordState P) (MainLoopState S)))
  (snapshot_state_loader : pydict -> Res BattleState).

(** What the rounds of a search leave: the lines it may commit. *)
Definition ran (context : DecisionContext) (st st1 : @CoordState P) (lines : list _CompletedBeam) : Prop :=
  exists active p,
    search_rounds json_loads draws config snapshot_state_loader (Z.to_nat (max_rounds config)) 0
      [{| be_context := context; be_cumulative_score := f_of_Z 0; be_sort_key := [] |}]
      {| round_expansions := []; completed := []; produced_any_viable := false |} st = (Ok (Some (active, p)), st1) /\
    produced_any_viable p = true /\ lines = completed p ++ exhausted active.

Lemma beam_success_spec context plan st st' :
  _beam_strategy json_loads draws config main_state_provider snapshot_state_loader context st
    = (Ok (Some (Returned (SearchSuccess plan))), st') ->
  exists lines best st1, ran context st st1 lines /\ plan = cb_plan best /\
    head (sort_by (fun x y => beam_rank_leb (_rank_completed x) (_rank_completed y)) lines) = Some best /\
    match main_state_provider with
    | None => st' = st1
    | Some provider => exists live, provider st1 = (Ok live, st') /\ main_unmoved context live
    end.
Proof.
  unfold _beam_strategy. intros (r & st1 & Hr & H)%M_bind_Ok. destruct r as [[active p]|]; [|done].
  destruct (produced_any_viable p) eqn:Ev; [|done]. cbn [negb] in H.
  exists (completed p ++ exhausted active).
  destruct (sort_by _ _) as [|best rest] eqn:Es; [done|]. exists best, st1.
  split; [by exists active, p|]. destruct main_state_provider as [provider|].
  - apply M_bind_Ok in H as (check & s2 & (live & s3 & Hp & [Hc ->]%liftR_Ok)%M_bind_Ok & H).
    destruct (inv_ok check) eqn:Eok; [|done]. injection H as <- <-. split_and!; [done|done|].
    exists live. split; [done|]. by apply (check_live_state_spec _ _ _ Hc).
  - injection H as <- <-. done.
Qed.

Lemma ran_lines context st st1 lines : ran context st st1 lines ->
  Forall (line_ends config snapshot_state_loader context (Z.to_nat (max_rounds config))) lines.
Proof.
  intros (active & p & Hrun & _ & ->). apply (search_rounds_ok _ _ _ _ context) with (total := Z.to_nat (max_rounds config)) in Hrun
    as [Hactive Hlines]; [|lia| |constructor].
  - apply Forall_app. split; [exact Hlines|]. apply Forall_forall. intros c Hc. unfold exhausted in Hc.
    apply list_elem_of_fmap in Hc as (beam & -> & Hb%list_elem_of_In). apply filter_In in Hb as [Hb%list_elem_of_In _].
    rewrite Forall_forall in Hactive. eapply good_ended; [by apply Hactive|done].
  - constructor; [|constructor]. exists []. split_and!; [constructor|by rewrite app_nil_r|cbn; lia].
Qed.
End Strategy.

Lemma head_sort_by {A} (le : A -> A -> bool) l best : head (sort_by le l) = Some best -> best ∈ l.
Proof. intros H%head_Some_elem_of. by rewrite elem_of_sort_by in H. Qed.


(** * Ranks *)

Lemma strs_lt_irrefl x : strs_lt x x = false.
Proof. induction x as [|a x IH]; cbn; [done|]. by rewrite String.eqb_refl. Qed.
Lemma strs_lt_asym x : forall y, strs_lt x y = true -> strs_lt y x = false.
Proof.
  induction x as [|a x IH]; intros [|b y]; cbn; try done. rewrite (String.eqb_sym b).
  destruct (String.eqb a b); [apply IH|apply str_ltb_asym].
Qed.
Lemma strs_lt_ntrans x : forall y z, strs_lt x y = false -> strs_lt y z = false -> strs_lt x z = false.
Proof.
  induction x as [|a x IH]; intros [|b y] [|c z]; cbn; try done.
  destruct (String.eqb_spec a b) as [E1|N1], (String.eqb_spec b c) as [E2|N2]; intros H1 H2.
  - rewrite E1, E2, String.eqb_refl. by eapply IH.
  - rewrite E1. by destruct (String.eqb_spec b c).
  - rewrite <- E2. by destruct (String.eqb_spec a b).
  - destruct (String.eqb_spec a c) as [E|]; [|by eapply str_ltb_ntrans].
    exfalso. rewrite str_ltb_false in H1, H2. rewrite <- E in H2. apply N1. by apply String.leb_antisym.
Qed.
Lemma rank_tie_asym x y : rank_tie_lt x y = true -> rank_tie_lt y x = false.
Proof.
  unfold rank_tie_lt. rewrite (Z.eqb_sym y.1). destruct (Z.eqb_spec x.1 y.1); [apply strs_lt_asym|]. rewrite Z.ltb_lt, Z.ltb_ge. lia.
Qed.
Lemma rank_tie_ntrans x y z : rank_tie_lt x y = false -> rank_tie_lt y z = false -> rank_tie_lt x z = false.
Proof.
  unfold rank_tie_lt. destruct (Z.eqb_spec x.1 y.1) as [E1|], (Z.eqb_spec y.1 z.1) as [E2|]; rewrite ?Z.ltb_ge.
  - rewrite E1, E2, Z.eqb_refl. apply strs_lt_ntrans.
  - rewrite E1. intros _ H. destruct (Z.eqb_spec y.1 z.1); [done|]. rewrite Z.ltb_ge. lia.
  - rewrite <- E2. intros H _. destruct (Z.eqb_spec x.1 y.1); [done|]. rewrite Z.ltb_ge. lia.
  - intros. destruct (Z.eqb_spec x.1 z.1); [lia|]. rewrite Z.ltb_ge. lia.
Qed.

(** [a] is a greater score, or an equal one with a shorter or alphabetically
    smaller line. *)
Definition not_worse (a b : spec_float * (Z * list string)) : Prop :=
  f_ltb b.1 a.1 = true \/ f_eqb a.1 b.1 = true /\ rank_tie_lt b.2 a.2 = false.

Section Ranked.
Context {A : Type} (score_of : A -> spec_float) (tie : A -> Z * list string).
Local Notation rank x := (f_opp (score_of x), tie x).
Local Notation by_rank := (sort_by (fun x y => beam_rank_leb (rank x) (rank y))).

Lemma ranked_sorted l : Forall (fun x => not_nan (score_of x) = true) l ->
  StronglySorted (fun a b => not_worse (score_of a, tie a) (score_of b, tie b)) (by_rank l).
Proof.
  intros Hl. assert (Hn : forall a, not_nan (score_of a) = true -> not_nan (rank a).1 = true) by (intros a Ha; cbn; by rewrite f_opp_not_nan).
  match goal with |- StronglySorted _ (sort_by ?le _) => set (leb := le) end.
  apply (StronglySorted_impl (leP leb) _ (fun a => not_nan (score_of a) = true)).
  - intros a b Ha Hb. unfold leP, leb, beam_rank_leb, not_worse. rewrite negb_true_iff, <- not_true_iff_false.
    rewrite scored_lt_spec by (by apply Hn). cbn [fst snd].
    rewrite f_ltb_rank, f_eqb_rank by done. rewrite !float_rank_opp. unfold rank_lt. rewrite !pair_eq. cbn.
    destruct (float_rank (score_of a)) as [[a1 a2] a3], (float_rank (score_of b)) as [[b1 b2] b3]. cbn.
    rewrite !pair_eq. destruct (rank_tie_lt (tie b) (tie a)); lia.
  - by rewrite sort_by_Permutation.
  - apply (sort_by_sorted_on _ (fun a => not_nan (score_of a) = true)); [| |done].
    + intros x y Hx Hy. apply scored_ge_total; [auto..|]. exact rank_tie_asym.
    + intros x y z Hx Hy Hz. apply scored_ge_trans; [|auto..]. exact rank_tie_ntrans.
Qed.
Lemma not_worse_refl a : not_nan (score_of a) = true -> not_worse (score_of a, tie a) (score_of a, tie a).
Proof.
  intros Ha. right. split; [by apply f_eqb_rank|]. cbn. unfold rank_tie_lt. by rewrite Z.eqb_refl, strs_lt_irrefl.
Qed.
(** The first element is no worse than any; a prefix no worse than the rest. *)
Lemma ranked_head l best x : Forall (fun x => not_nan (score_of x) = true) l -> head (by_rank l) = Some best -> x ∈ l ->
  not_worse (score_of best, tie best) (score_of x, tie x).
Proof.
  intros Hl Hb Hx. pose proof (ranked_sorted l Hl) as Hs. rewrite <- (elem_of_sort_by (fun x y => beam_rank_leb (rank x) (rank y))) in Hx.
  assert (Hbest : not_nan (score_of best) = true).
  { rewrite Forall_forall in Hl. apply Hl. by apply head_sort_by in Hb. }
  destruct (by_rank l) as [|b rest]; [done|]. injection Hb as ->. apply StronglySorted_inv in Hs as [_ Hs].
  apply elem_of_cons in Hx as [->|Hx]; [by apply not_worse_refl|]. rewrite Forall_forall in Hs. by apply Hs.
Qed.
Lemma ranked_take n l x y : Forall (fun x => not_nan (score_of x) = true) l -> x ∈ take n (by_rank l) -> y ∈ drop n (by_rank l) ->
  not_worse (score_of x, tie x) (score_of y, tie y).
Proof.
  intros Hl. pose proof (ranked_sorted l Hl) as Hs. revert n Hs. induction (by_rank l) as [|a k IH]; intros [|n] Hs Hx Hy; cbn in *.
  1-3: by apply elem_of_nil in Hx.
  apply StronglySorted_inv in Hs as [Hs Ha]. apply elem_of_cons in Hx as [->|Hx]; [|by eapply IH].
  rewrite Forall_forall in Ha. apply Ha. rewrite <- (take_drop n k). apply elem_of_app. by right.
Qed.
End Ranked.

Definition line_score (c : _CompletedBeam) : spec_float * (Z * list string) :=
  (cb_cumulative_score c, (Z.of_nat (length (cb_plan c)), cb_sort_key c)).
Definition expansion_score (x : _ExpansionCandidate) : spec_float * (Z * list string) :=
  (ex_cumulative_score x, (Z.of_nat (length (ex_plan_path x)), ex_sort_key x)).

(** A round keeps at most [beam_width] of its expansions, none of the dropped
    ones better than one kept. *)
Lemma survivors_best config expansions :
  (length (survivors_of config expansions) <= Z.to_nat (beam_width config))%nat /\
  exists dropped, expansions ≡ₚ survivors_of config expansions ++ dropped /\
    (Forall (fun x => not_nan (ex_cumulative_score x) = true) expansions ->
     forall x y, x ∈ survivors_of config expansions -> y ∈ dropped -> not_worse (expansion_score x) (expansion_score y)).
Proof.
  split; [unfold survivors_of; rewrite length_take; lia|]. eexists. split.
  - unfold survivors_of. rewrite take_drop. by rewrite sort_by_Permutation.
  - intros Hn x y Hx Hy. exact (ranked_take ex_cumulative_score
      (fun x => (Z.of_nat (length (ex_plan_path x)), ex_sort_key x)) _ _ x y Hn Hx Hy).
Qed.

(** C19: the plan a beam search returns is that of one of the lines its rounds
    completed, or of a beam still active at the end, and as long as no summed
    score is a NaN no other line is better: none has a greater score, nor the
    same score with fewer steps, nor the same number of steps with smaller action
    keys. *)
Theorem beam_search_returns_best {P} {HD : BranchDispatcher P} {S} json_loads draws config
    (main_state_provider : option (M (@CoordState P) (MainLoopState S))) snapshot_state_loader context plan st st' :
  _beam_strategy json_loads draws config main_state_provider snapshot_state_loader context st
    = (Ok (Some (Returned (SearchSuccess plan))), st') ->
  exists lines best st1, ran json_loads draws config snapshot_state_loader context st st1 lines /\ best ∈ lines /\ plan = cb_plan best /\
    (Forall (fun c => not_nan (cb_cumulative_score c) = true) lines ->
     forall c, c ∈ lines -> not_worse (line_score best) (line_score c)).
Proof.
  intros (lines & best & st1 & Hran & -> & Hbest & _)%beam_success_spec.
  exists lines, best, st1. split_and!; [done|by apply head_sort_by in Hbest|done|]. intros Hn c Hc.
  exact (ranked_head cb_cumulative_score (fun c => (Z.of_nat (length (cb_plan c)), cb_sort_key c)) lines best c Hn Hbest Hc).
Qed.

(** * Rounds that fail *)

Lemma no_success_no_best entries fraction r :
  _success_entries entries = [] -> aggregate_hypothesis_results entries fraction = Ok r -> best_action r = None.
Proof.
  intros He H. destruct (best_action r) as [a|] eqn:Eb; [|done]. exfalso.
  pose proof (best_is_success true entries fraction r a H Eb) as Hin. rewrite He in Hin. by apply elem_of_nil in Hin.
Qed.

Section Rounds.
Context (json_loads : string -> Res pyval) (draws : nat).
Context {P : Type} {HD : BranchDispatcher P} (config : BeamSearchConfig) (snapshot_state_loader : pydict -> Res BattleState).

Lemma expand_hypothesis_beam k beam (p : Progress) st continuation subs ranked pruned o c st1 :
  build_candidate_pipeline_result (be_context beam) (width (coordinator config)) None
    = Ok (CandidatePipelineSuccess continuation subs ranked pruned o) ->
  _requires_hypothesis (be_context beam) (continuation :: subs) = Ok true ->
  _completed_hypothesis_round json_loads draws config beam (continuation :: subs) st = (Ok (Some c), st1) ->
  expand_beam json_loads draws config k beam p st = (Ok (Some (complete c (viable p))), st1).
Proof.
  intros Hpipe Hreq Hround. unfold expand_beam. rewrite Hpipe. erewrite M_run_Ok by reflexivity. cbv beta iota zeta.
  change (_candidate_batch continuation subs) with (continuation :: subs). rewrite Hreq. erewrite M_run_Ok by reflexivity.
  cbv beta iota. erewrite M_run_Ok by exact Hround. reflexivity.
Qed.
Lemma expand_one k beam p st p' st1 :
  expand_beam json_loads draws config k beam p st = (Ok (Some p'), st1) ->
  expand_beams json_loads draws config k [beam] p st = (Ok (Some p'), st1).
Proof. intros H. cbn [expand_beams]. by erewrite M_run_Ok by exact H. Qed.
(** A round without expansions ends the search. *)
Lemma rounds_end_at_once rounds k active p st p' st1 :
  expand_beams json_loads draws config k active
    {| round_expansions := []; completed := completed p; produced_any_viable := produced_any_viable p |} st = (Ok (Some p'), st1) ->
  round_expansions p' = [] ->
  search_rounds json_loads draws config snapshot_state_loader (Datatypes.S rounds) k active p st = (Ok (Some (active, p')), st1).
Proof. intros H Hn. cbn [search_rounds]. erewrite M_run_Ok by exact H. cbn. by rewrite Hn. Qed.
End Rounds.


(** * Examples *)

(** Two rounds on a board with two actions: one of them leads to a stable board
    from which an action ends the combat, the other to a victory at once. *)
Definition next_board : BattleState :=
  {| engine_state := []; is_terminal := false; outcome := "in_progress"; turn := 1; enemy_max_hps := [];
     shuffle_rng_seed := None;
     _cached_legal_actions := Some [search_action "choice_skip" "skip" 1; search_action "system" "end" 2];
     decision_frame := Some {| combat_session_id := Some "s"; step_index := 5; continuation_step_index := None |};
     combat_completion := None |}%string.
Definition beam_config : BeamSearchConfig :=
  {| coordinator := {| width := 8; hypothesis_count := 2; cfg_min_coverage_fraction := f_half 1; worker_count := 1;
                       max_retries := 0; request_timeout_s := f_of_Z 1 |};
     beam_width := 2; max_rounds := 2 |}.
Definition beam_start (script : list BattleState) : @CoordState SearchPool := (lease_pool script, None).
Definition beam_script : list BattleState :=
  [search_board; next_board; search_board; terminal_board; next_board; terminal_board; next_board; terminal_board].
Local Notation run_beam provider context script :=
  (@_beam_strategy no_json 10 SearchPool SearchDispatcher unit beam_config provider (fun _ => Ok next_board) context
     (beam_start script)).

Definition beam_outcome : option StrategyOutcome :=
  Eval vm_compute in returned (run_beam (Some (live_provider search_board)) search_context beam_script).
Definition plan_or (o : option StrategyOutcome) : list PlannedStep :=
  match o with Some (Returned (SearchSuccess plan)) => plan | _ => [] end.
Lemma beam_runs :
  run_beam (Some (live_provider search_board)) search_context beam_script
  = (Ok (Some (Returned (SearchSuccess (plan_or beam_outcome)))),
     (run_beam (Some (live_provider search_board)) search_context beam_script).2).
Proof. apply returned_run. vm_compute. reflexivity. Qed.


Definition beam_rounds : Res (option (list _BeamEntry * Progress)) * @CoordState SearchPool :=
  @search_rounds no_json 10 SearchPool SearchDispatcher beam_config (fun _ => Ok next_board) (Z.to_nat (max_rounds beam_config)) 0
    [{| be_context := search_context; be_cumulative_score := f_of_Z 0; be_sort_key := [] |}]
    {| round_expansions := []; completed := []; produced_any_viable := false |} (beam_start beam_script).
Definition lines_of (r : Res (option (list _BeamEntry * Progress))) : list _CompletedBeam :=
  match r with Ok (Some (active, p)) => completed p ++ exhausted active | _ => [] end.
Definition beam_lines : list _CompletedBeam := Eval vm_compute in lines_of beam_rounds.1.

Lemma beam_rounds_lines : lines_of beam_rounds.1 = beam_lines.
Proof. vm_compute. reflexivity. Qed.
Lemma beam_ran st1 lines :
  @ran no_json 10 SearchPool SearchDispatcher beam_config (fun _ => Ok next_board) search_context (beam_start beam_script) st1 lines ->
  lines = beam_lines.
Proof.
  intros (active & p & Hrounds & _ & ->). rewrite <- beam_rounds_lines. unfold beam_rounds. rewrite Hrounds. reflexivity.
Qed.

Lemma beam_search_returns_best_witness :
  length beam_lines = 3%nat /\
  exists best, best ∈ beam_lines /\ plan_or beam_outcome = cb_plan best /\
    forall c, c ∈ beam_lines -> not_worse (line_score best) (line_score c).
Proof.
  split; [reflexivity|].
  destruct (@beam_search_returns_best SearchPool SearchDispatcher unit no_json 10 beam_config
    (Some (live_provider search_board)) (fun _ => Ok next_board) search_context _ _ _ beam_runs)
    as (lines & best & st1 & ->%beam_ran & Hbest & Hplan & Hmax).
  exists best. split; [exact Hbest|]. split; [exact Hplan|]. apply Hmax. repeat constructor.
Defined.

(** A start of combat, whose branches all fail: the pool has no board to
    replay. *)
Definition start_context : DecisionContext :=
  from_combat_start_pending [("seed", VInt 5)]%string (example_board 4) (current_context_signature search_context).
Definition start_ranked : PipelineCandidateRef * list PipelineCandidateRef *
    (list ScoredCandidate * list ScoredCandidate * OrderMaskedObservation) := Eval vm_compute in
  match build_candidate_pipeline_result start_context 8 None with
  | Ok (CandidatePipelineSuccess c subs ranked pruned o) => (c, subs, (ranked, pruned, o))
  | _ => search_pipeline
  end.
Definition start_items : list WorkItem := Eval vm_compute in
  match _hypothesis_work_items_with_coverage no_json 10 (coordinator beam_config) start_context
          (start_ranked.1.1 :: start_ranked.1.2) with
  | Some (Ok (items, _)) => items
  | _ => []
  end.
Definition start_run : Res (list (WorkItem * BranchResult * string)) * @CoordState SearchPool :=
  @_dispatch_work_items_until_final SearchPool SearchDispatcher (coordinator beam_config) start_items (beam_start []).
Definition start_finals : list (WorkItem * BranchResult * string) := Eval vm_compute in from_ok start_run.1 [].
Definition start_entries : list BranchDecisionLogEntry := Eval vm_compute in from_ok (log_entries start_finals None) [].
Definition start_aggregation : option AggregationResult := Eval vm_compute in
  match aggregate_hypothesis_results start_entries (cfg_min_coverage_fraction (coordinator beam_config)) with
  | Ok a => Some a
  | Raise _ => None
  end.

