(* ===== verification/BranchManager.v ===== *)
(** The branch state machine over a worker pool
    (Combat/search/branch_manager.py): submission, polling, cancellation with
    cascade, and release. *)

From S2P Require Export Leases.

Inductive BranchState :=
  | BRANCH_STATE_QUEUED
  | BRANCH_STATE_RUNNING
  | BRANCH_STATE_COMPLETED
  | BRANCH_STATE_PARTIAL
  | BRANCH_STATE_CANCELLED
  | BRANCH_STATE_FAULTED
  | BRANCH_STATE_RELEASED.

#[global] Instance BranchState_eq_dec : EqDecision BranchState.
Proof. solve_decision. Defined.

Definition state_text (s : BranchState) : string :=
  match s with
  | BRANCH_STATE_QUEUED => "queued" | BRANCH_STATE_RUNNING => "running"
  | BRANCH_STATE_COMPLETED => "completed" | BRANCH_STATE_PARTIAL => "partial"
  | BRANCH_STATE_CANCELLED => "cancelled" | BRANCH_STATE_FAULTED => "faulted"
  | BRANCH_STATE_RELEASED => "released"
  end.

(** [state in _ACTIVE_STATES] and [state in _TERMINAL_STATES]. *)
Definition is_active (s : BranchState) : bool :=
  match s with BRANCH_STATE_QUEUED | BRANCH_STATE_RUNNING => true | _ => false end.
Definition is_terminal_state (s : BranchState) : bool :=
  match s with
  | BRANCH_STATE_COMPLETED | BRANCH_STATE_PARTIAL | BRANCH_STATE_CANCELLED
  | BRANCH_STATE_FAULTED | BRANCH_STATE_RELEASED => true
  | _ => false
  end.
Definition is_dead (s : BranchState) : bool :=
  match s with BRANCH_STATE_CANCELLED | BRANCH_STATE_RELEASED => true | _ => false end.

Record BranchRecord := {
  br_branch_id : string;
  br_work_item : option WorkItem;
  br_state : BranchState;
  parent_branch_id : option string;
  child_branch_ids : list string;
  br_worker_id : option Z;
  br_worker_generation : option Z;
  br_request_id : option Z;
  br_execution_mode : option string;
  br_result : option BranchResult;
}.

(** The manager with the lease table and the pool it drives: each worker's
    generation, the last request id, whether the pool is closed, and the
    requests handed to workers. *)
Record Manager := {
  max_branches : Z;
  records : list (string * BranchRecord);
  request_id_to_branch_id : list (Z * string);
  next_serial : Z;
  next_bootstrap_index : Z;
  lease_registry : LeaseRegistry;
  pool_workers : list (Z * Z);
  pool_next_request_id : Z;
  pool_closed : bool;
  pool_sent : list (Z * (Z * WorkerExecutionRequest));
}.

Definition set_records (recs : list (string * BranchRecord)) (m : Manager) : Manager :=
  {| max_branches := max_branches m; records := recs;
     request_id_to_branch_id := request_id_to_branch_id m; next_serial := next_serial m;
     next_bootstrap_index := next_bootstrap_index m; lease_registry := lease_registry m;
     pool_workers := pool_workers m; pool_next_request_id := pool_next_request_id m;
     pool_closed := pool_closed m; pool_sent := pool_sent m |}.
Definition set_leases (reg : LeaseRegistry) (m : Manager) : Manager :=
  {| max_branches := max_branches m; records := records m;
     request_id_to_branch_id := request_id_to_branch_id m; next_serial := next_serial m;
     next_bootstrap_index := next_bootstrap_index m; lease_registry := reg;
     pool_workers := pool_workers m; pool_next_request_id := pool_next_request_id m;
     pool_closed := pool_closed m; pool_sent := pool_sent m |}.
Definition set_request_map (d : list (Z * string)) (m : Manager) : Manager :=
  {| max_branches := max_branches m; records := records m; request_id_to_branch_id := d;
     next_serial := next_serial m; next_bootstrap_index := next_bootstrap_index m;
     lease_registry := lease_registry m; pool_workers := pool_workers m;
     pool_next_request_id := pool_next_request_id m; pool_closed := pool_closed m;
     pool_sent := pool_sent m |}.
Definition set_serial (n : Z) (m : Manager) : Manager :=
  {| max_branches := max_branches m; records := records m;
     request_id_to_branch_id := request_id_to_branch_id m; next_serial := n;
     next_bootstrap_index := next_bootstrap_index m; lease_registry := lease_registry m;
     pool_workers := pool_workers m; pool_next_request_id := pool_next_request_id m;
     pool_closed := pool_closed m; pool_sent := pool_sent m |}.
Definition set_bootstrap_index (n : Z) (m : Manager) : Manager :=
  {| max_branches := max_branches m; records := records m;
     request_id_to_branch_id := request_id_to_branch_id m; next_serial := next_serial m;
     next_bootstrap_index := n; lease_registry := lease_registry m;
     pool_workers := pool_workers m; pool_next_request_id := pool_next_request_id m;
     pool_closed := pool_closed m; pool_sent := pool_sent m |}.
Definition set_pool (ws : list (Z * Z)) (next : Z) (sent : list (Z * (Z * WorkerExecutionRequest)))
    (m : Manager) : Manager :=
  {| max_branches := max_branches m; records := records m;
     request_id_to_branch_id := request_id_to_branch_id m; next_serial := next_serial m;
     next_bootstrap_index := next_bootstrap_index m; lease_registry := lease_registry m;
     pool_workers := ws; pool_next_request_id := next;
     pool_closed := pool_closed m; pool_sent := sent |}.

(** Dictionaries keyed by integers. *)
Fixpoint zget {A} (k : Z) (d : list (Z * A)) : option A :=
  match d with
  | [] => None
  | (k', v) :: d' => if k =? k' then Some v else zget k d'
  end.
Fixpoint zset {A} (k : Z) (v : A) (d : list (Z * A)) : list (Z * A) :=
  match d with
  | [] => [(k, v)]
  | (k', v') :: d' => if k =? k' then (k', v) :: d' else (k', v') :: zset k v d'
  end.
Definition zdel {A} (k : Z) (d : list (Z * A)) : list (Z * A) :=
  List.filter (fun p => negb (k =? p.1)) d.

(** A field update of one record. *)
Definition set_state (s : BranchState) (r : BranchRecord) : BranchRecord :=
  {| br_branch_id := br_branch_id r; br_work_item := br_work_item r; br_state := s;
     parent_branch_id := parent_branch_id r; child_branch_ids := child_branch_ids r;
     br_worker_id := br_worker_id r; br_worker_generation := br_worker_generation r;
     br_request_id := br_request_id r; br_execution_mode := br_execution_mode r;
     br_result := br_result r |}.
Definition set_result (res : option BranchResult) (r : BranchRecord) : BranchRecord :=
  {| br_branch_id := br_branch_id r; br_work_item := br_work_item r; br_state := br_state r;
     parent_branch_id := parent_branch_id r; child_branch_ids := child_branch_ids r;
     br_worker_id := br_worker_id r; br_worker_generation := br_worker_generation r;
     br_request_id := br_request_id r; br_execution_mode := br_execution_mode r;
     br_result := res |}.
Definition set_links (parent : option string) (children : list string) (r : BranchRecord) : BranchRecord :=
  {| br_branch_id := br_branch_id r; br_work_item := br_work_item r; br_state := br_state r;
     parent_branch_id := parent; child_branch_ids := children;
     br_worker_id := br_worker_id r; br_worker_generation := br_worker_generation r;
     br_request_id := br_request_id r; br_execution_mode := br_execution_mode r;
     br_result := br_result r |}.

(** [record.field = ...] on the record of a branch. *)
Definition update_record (branch_id : string) (f : BranchRecord -> BranchRecord) (m : Manager) : Manager :=
  match dget branch_id (records m) with
  | Some r => set_records (dset branch_id (f r) (records m)) m
  | None => m
  end.

Definition UnknownBranchError (branch_id : string) : pyexn :=
  PyExc "UnknownBranchError" (repr_str branch_id).

Definition find_record (branch_id : string) : M Manager BranchRecord :=
  m ← getS;
  match dget branch_id (records m) with
  | Some r => mret r
  | None => raiseM (UnknownBranchError branch_id)
  end.

(** * Submission *)

Definition branch_name (serial : Z) : string := "branch-" +:+ pretty serial.

Definition _new_branch_id : M Manager string :=
  m ← getS;
  let serial := next_serial m + 1 in
  _ ← putS (set_serial serial m);
  mret (branch_name serial).

Definition active_branch_count (m : Manager) : Z :=
  Z.of_nat (length (List.filter (fun kr => is_active (br_state kr.2)) (records m))).

Definition new_record (branch_id : string) (w : WorkItem) (parent : option string) : BranchRecord :=
  {| br_branch_id := branch_id; br_work_item := Some w; br_state := BRANCH_STATE_QUEUED;
     parent_branch_id := parent; child_branch_ids := []; br_worker_id := None;
     br_worker_generation := None; br_request_id := None; br_execution_mode := None;
     br_result := None |}.

(** The loops of [submit_many]: the parent checks, the new records, their
    registration and their links. *)
Fixpoint check_parents (entries : list (WorkItem * option string)) : M Manager unit :=
  match entries with
  | [] => mret tt
  | (_, parent) :: rest =>
      m ← getS;
      match parent with
      | Some p => if dmem p (records m) then check_parents rest else raiseM (UnknownBranchError p)
      | None => check_parents rest
      end
  end.

Fixpoint make_records (entries : list (WorkItem * option string)) : M Manager (list BranchRecord) :=
  match entries with
  | [] => mret []
  | (w, parent) :: rest =>
      branch_id ← _new_branch_id;
      recs ← make_records rest;
      mret (new_record branch_id w parent :: recs)
  end.

Definition register (r : BranchRecord) (m : Manager) : Manager :=
  set_records (dset (br_branch_id r) r (records m)) m.
Definition link_parent (r : BranchRecord) (m : Manager) : Manager :=
  match parent_branch_id r with
  | Some p => update_record p (fun pr => set_links (parent_branch_id pr)
                (child_branch_ids pr ++ [br_branch_id r]) pr) m
  | None => m
  end.

Definition submit_many (entries : list (WorkItem * option string)) : M Manager (list string) :=
  _ ← check_parents entries;
  m ← getS;
  if max_branches m <? active_branch_count m + Z.of_nat (length entries) then
    raiseM (PyExc "BranchLimitExceededError"
      ("submitting " +:+ pretty (Z.of_nat (length entries)) +:+
       " Branch(es) would exceed max_branches=" +:+ pretty (max_branches m) +:+
       " (currently " +:+ pretty (active_branch_count m) +:+ " active)"))
  else
    new_records ← make_records entries;
    _ ← modS (fun m => foldl (fun m r => register r m) m new_records);
    _ ← modS (fun m => foldl (fun m r => link_parent r m) m new_records);
    mret (map br_branch_id new_records).

Definition submit (work_items : list WorkItem) (parent : option string) : M Manager (list string) :=
  submit_many (map (fun w => (w, parent)) work_items).

(** * The pool as the manager uses it *)

Definition pool_generation (worker_id : Z) (m : Manager) : option Z := zget worker_id (pool_workers m).
Definition pool_generations (m : Manager) : gmap Z Z := list_to_map (pool_workers m).

(** [BranchWorkerPool.respawn_worker]. *)
Definition pool_respawn (worker_id : Z) : M Manager unit :=
  m ← getS;
  if pool_closed m then raiseM (PyExc "RuntimeError" "BranchWorkerPool is closed")
  else
    match pool_generation worker_id m with
    | None => raiseM (PyExc "KeyError" (pretty worker_id))
    | Some generation =>
        _ ← modS (fun m => set_pool (zset worker_id (generation + 1) (pool_workers m))
                             (pool_next_request_id m) (pool_sent m) m);
        modS (fun m => set_leases (reg_invalidate_worker worker_id (lease_registry m)) m)
    end.

(** [BranchWorkerPool._submit]. *)
Definition pool_submit (worker_id : Z) (request : WorkerExecutionRequest) : M Manager Z :=
  m ← getS;
  if pool_closed m then raiseM (PyExc "RuntimeError" "BranchWorkerPool is closed")
  else
    match pool_generation worker_id m with
    | None => raiseM (PyExc "KeyError" (pretty worker_id))
    | Some _ =>
        let request_id := pool_next_request_id m + 1 in
        _ ← putS (set_pool (pool_workers m) request_id
                    (pool_sent m ++ [(request_id, (worker_id, request))]) m);
        mret request_id
    end.

(** * Status *)

Fixpoint status_loop (branch_ids : list string) (statuses : list (string * string)) :
    M Manager (list (string * string)) :=
  match branch_ids with
  | [] => mret statuses
  | b :: rest => r ← find_record b; status_loop rest (dset b (state_text (br_state r)) statuses)
  end.
Definition get_branch_status (branch_ids : list string) : M Manager (list (string * string)) :=
  status_loop branch_ids [].

Definition get_branch_result (branch_id : string) : M Manager BranchResult :=
  r ← find_record branch_id;
  match br_state r with
  | BRANCH_STATE_RELEASED =>
      raiseM (PyExc "BranchReleasedError"
        ("Branch " +:+ branch_id +:+ "'s result was released and must not be reused"))
  | st =>
      match br_result r with
      | None => raiseM (PyExc "RuntimeError"
          ("Branch " +:+ branch_id +:+ " has no result yet (state='" +:+ state_text st +:+ "')"))
      | Some res => mret res
      end
  end.

(** * Cancel *)

Definition drop_established_lease (r : BranchRecord) (m : Manager) : Manager :=
  match br_result r with
  | Some res =>
      match established_lease res with
      | Some l => set_leases (reg_invalidate_lease l (lease_registry m)) m
      | None => m
      end
  | None => m
  end.

Definition _cancel_one (branch_id : string) : M Manager BranchState :=
  r ← find_record branch_id;
  match br_state r with
  | BRANCH_STATE_CANCELLED | BRANCH_STATE_RELEASED => mret (br_state r)
  | BRANCH_STATE_QUEUED =>
      _ ← modS (update_record branch_id (set_state BRANCH_STATE_CANCELLED));
      mret BRANCH_STATE_CANCELLED
  | BRANCH_STATE_RUNNING =>
      match br_worker_id r with
      | None => raiseM (PyExc "AssertionError" "")
      | Some worker_id =>
          _ ← pool_respawn worker_id;
          _ ← modS (fun m => match br_request_id r with
                             | Some q => set_request_map (zdel q (request_id_to_branch_id m)) m
                             | None => m
                             end);
          _ ← modS (update_record branch_id (set_state BRANCH_STATE_CANCELLED));
          mret BRANCH_STATE_CANCELLED
      end
  | _ =>
      _ ← modS (drop_established_lease r);
      _ ← modS (update_record branch_id (fun r => set_state BRANCH_STATE_CANCELLED (set_result None r)));
      mret BRANCH_STATE_CANCELLED
  end.

(** The worklist of [cancel_branches]: the last element is taken first. *)
Fixpoint cancel_loop (fuel : nat) (to_visit : list string) (visited : list (string * BranchState)) :
    M Manager (list (string * BranchState)) :=
  match fuel with
  | O => mret visited
  | Datatypes.S fuel' =>
      match last to_visit with
      | None => mret visited
      | Some branch_id =>
          let to_visit := removelast to_visit in
          if dmem branch_id visited then cancel_loop fuel' to_visit visited
          else
            r ← find_record branch_id;
            st ← _cancel_one branch_id;
            cancel_loop fuel' (to_visit ++ child_branch_ids r) (dset branch_id st visited)
      end
  end.

(** Every visit of an id that is not yet visited adds its children once. *)
Definition cancel_fuel (branch_ids : list string) (m : Manager) : nat :=
  Datatypes.S (length branch_ids +
    foldr (fun kr n => length (child_branch_ids kr.2) + n) 0 (records m))%nat.

Definition cancel_branches (branch_ids : list string) : M Manager (list (string * BranchState)) :=
  m ← getS;
  cancel_loop (cancel_fuel branch_ids m) branch_ids [].

(** * Release *)

(** [list.remove], an absent element ignored. *)
Fixpoint list_remove_first (x : string) (l : list string) : list string :=
  match l with
  | [] => []
  | y :: l' => if String.eqb x y then l' else y :: list_remove_first x l'
  end.

(** [_prune_released_leaf_from_parent]: climbs while released leaves have
    parents. *)
Fixpoint prune_loop (fuel : nat) (branch_id : string) (m : Manager) : Manager :=
  match fuel with
  | O => m
  | Datatypes.S fuel' =>
      match dget branch_id (records m) with
      | None => m
      | Some r =>
          match br_state r, child_branch_ids r, parent_branch_id r with
          | BRANCH_STATE_RELEASED, [], Some p =>
              match dget p (records m) with
              | None => update_record branch_id (fun r => set_links None (child_branch_ids r) r) m
              | Some _ =>
                  let m := update_record p (fun pr => set_links (parent_branch_id pr)
                             (list_remove_first branch_id (child_branch_ids pr)) pr) m in
                  let m := update_record branch_id (fun r => set_links None (child_branch_ids r) r) m in
                  prune_loop fuel' p m
              end
          | _, _, _ => m
          end
      end
  end.

(** Each climb clears one parent link. *)
Definition _prune_released_leaf_from_parent (branch_id : string) (m : Manager) : Manager :=
  prune_loop (Datatypes.S (length (records m))) branch_id m.

(** Whether a released record still links to this child. *)
Definition retains_child (m : Manager) (child_id : string) : bool :=
  match dget child_id (records m) with
  | None => false
  | Some c => negb (bool_decide (br_state c = BRANCH_STATE_RELEASED)) ||
              match child_branch_ids c with [] => false | _ => true end
  end.

Definition clear_execution (r : BranchRecord) : BranchRecord :=
  {| br_branch_id := br_branch_id r; br_work_item := None; br_state := br_state r;
     parent_branch_id := parent_branch_id r; child_branch_ids := child_branch_ids r;
     br_worker_id := None; br_worker_generation := None; br_request_id := None;
     br_execution_mode := None; br_result := None |}.

Definition _compact_released_record (branch_id : string) (m : Manager) : Manager :=
  let m := update_record branch_id clear_execution m in
  let m := update_record branch_id (fun r =>
             set_links (parent_branch_id r) (List.filter (retains_child m) (child_branch_ids r)) r) m in
  _prune_released_leaf_from_parent branch_id m.

Definition release_one (branch_id : string) : M Manager BranchState :=
  r ← find_record branch_id;
  _ ← (if bool_decide (br_state r = BRANCH_STATE_RELEASED) then mret tt
       else
         _ ← (if is_active (br_state r) || negb (is_terminal_state (br_state r))
              then _ ← _cancel_one branch_id; mret tt
              else modS (drop_established_lease r));
         modS (update_record branch_id (set_state BRANCH_STATE_RELEASED)));
  _ ← modS (_compact_released_record branch_id);
  r ← find_record branch_id;
  mret (br_state r).

Fixpoint release_loop (branch_ids : list string) (statuses : list (string * BranchState)) :
    M Manager (list (string * BranchState)) :=
  match branch_ids with
  | [] => mret statuses
  | b :: rest => st ← release_one b; release_loop rest (dset b st statuses)
  end.
Definition release_branches (branch_ids : list string) : M Manager (list (string * BranchState)) :=
  release_loop branch_ids [].

Definition close_all : M Manager unit :=
  m ← getS;
  match dkeys (records m) with
  | [] => mret tt
  | all_ids => _ ← cancel_branches all_ids; _ ← release_branches all_ids; mret tt
  end.

(** [try: cancel finally: release]. *)
Definition _quarantine_poll_branches (branch_ids : list string) : M Manager unit :=
  m ← getS;
  match List.filter (fun b => dmem b (records m)) branch_ids with
  | [] => mret tt
  | known =>
      _ ← tryM (_ ← cancel_branches known; mret tt)
            (fun e => _ ← release_branches known; raiseM e);
      _ ← release_branches known;
      mret tt
  end.

(** * Poll *)

Definition _finish (branch_id : string) (result : BranchResult) : M Manager unit :=
  r ← find_record branch_id;
  match br_work_item r with
  | None => raiseM (PyExc "RuntimeError" ("active Branch " +:+ branch_id +:+ " has no WorkItem"))
  | Some w =>
      let st := if String.eqb (status result) BRANCH_STATUS_SUCCESS then BRANCH_STATE_COMPLETED
                else BRANCH_STATE_FAULTED in
      _ ← modS (update_record branch_id (fun r => set_state st (set_result (Some result) r)));
      modS (fun m => set_leases (apply_result w result (lease_registry m)) m)
  end.

(** The local state of one [poll]: branches still queued, the branch of each
    live request, its worker, each busy worker's request and deadline, and the
    results so far. *)
Record PollState := {
  waiting : list string;
  running_by_request_id : list (Z * string);
  request_worker_ids : list (Z * Z);
  worker_request_ids : list (Z * Z);
  worker_deadlines : list (Z * spec_float);
  poll_results : list (string * BranchResult);
}.

Definition set_waiting (w : list string) (p : PollState) : PollState :=
  {| waiting := w; running_by_request_id := running_by_request_id p;
     request_worker_ids := request_worker_ids p; worker_request_ids := worker_request_ids p;
     worker_deadlines := worker_deadlines p; poll_results := poll_results p |}.
Definition add_poll_result (b : string) (r : BranchResult) (p : PollState) : PollState :=
  {| waiting := waiting p; running_by_request_id := running_by_request_id p;
     request_worker_ids := request_worker_ids p; worker_request_ids := worker_request_ids p;
     worker_deadlines := worker_deadlines p; poll_results := dset b r (poll_results p) |}.
(** The request [q] on worker [wid] is no longer live. *)
Definition drop_request (q wid : Z) (p : PollState) : PollState :=
  {| waiting := waiting p; running_by_request_id := zdel q (running_by_request_id p);
     request_worker_ids := zdel q (request_worker_ids p);
     worker_request_ids := zdel wid (worker_request_ids p);
     worker_deadlines := zdel wid (worker_deadlines p); poll_results := poll_results p |}.
(** The branch [b] was handed to worker [wid] as request [q]. *)
Definition add_request (b : string) (q wid : Z) (deadline : spec_float) (p : PollState) : PollState :=
  {| waiting := list_remove_first b (waiting p);
     running_by_request_id := zset q b (running_by_request_id p);
     request_worker_ids := zset q wid (request_worker_ids p);
     worker_request_ids := zset wid q (worker_request_ids p);
     worker_deadlines := zset wid deadline (worker_deadlines p); poll_results := poll_results p |}.

(** What the result queue yields: a result for a request, or nothing before
    the timeout, with the clock read then. *)
Inductive QueueEvent :=
  | Received (received_id : Z) (result : BranchResult)
  | QueueEmpty (now : spec_float).

Section Poll.
(** The transported form of a work item, whether the pool needs it, the text
    of [traceback.format_exc()], the clock when a request was submitted, and
    the timeout of this poll. *)
Context (work_item_for_ipc : WorkItem -> WorkItem) (requires_ipc_serialization : bool)
  (format_exc : pyexn -> string) (submitted_at : Z -> spec_float) (timeout : spec_float).

Definition free_workers (p : PollState) (m : Manager) : list Z :=
  List.filter (fun w => match zget w (worker_request_ids p) with Some _ => false | None => true end)
    (map fst (pool_workers m)).

(** A continuation whose valid lease names a busy worker stays queued. *)
Definition waits_for_holder (w : WorkItem) (free : list Z) (m : Manager) : bool :=
  if String.eqb (work_kind w) WORK_KIND_CONTINUATION then
    match reg_get (wi_context_id w) (wi_hypothesis w) (lease_registry m) with
    | Some lease =>
        match pool_generation (lease_worker_id lease) m with
        | Some generation => is_valid_for lease w (Some generation) &&
                             negb (existsb (Z.eqb (lease_worker_id lease)) free)
        | None => false
        end
    | None => false
    end
  else false.

(** Routing on the manager's lease table. *)
Definition route_leases (w : WorkItem) (free : list Z) : M Manager (WorkerExecutionRequest * Z * Z) := fun m =>
  let '(r, reg) := _route_work_item w free (pool_generations m) (next_bootstrap_index m)
                     (lease_registry m) in
  (r, set_leases reg m).

(** The guarded part: route, serialize, submit. *)
Definition route_and_submit (branch_id : string) (w : WorkItem) (free : list Z) :
    M Manager (WorkerExecutionRequest * Z * Z * Z) :=
  routed ← route_leases w free;
  let '(request, worker_id, next_index) := routed in
  if negb (existsb (Z.eqb worker_id) free) then
    raiseM (PyExc "RuntimeError" ("routing selected busy worker " +:+ pretty worker_id +:+
      " for Branch " +:+ branch_id))
  else
    let ipc_work_item := if requires_ipc_serialization then work_item_for_ipc w else w in
    request_id ← pool_submit worker_id
      {| req_work_item := ipc_work_item; req_execution_mode := req_execution_mode request;
         expected_lease := expected_lease request |};
    mret (request, worker_id, next_index, request_id).

(** On an exception the bootstrap index and the lease table are restored. *)
Definition submit_or_restore (branch_id : string) (w : WorkItem) (free : list Z) :
    M Manager (WorkerExecutionRequest * Z * Z * Z) :=
  m ← getS;
  tryM (route_and_submit branch_id w free) (fun e =>
    _ ← modS (set_bootstrap_index (next_bootstrap_index m));
    _ ← modS (set_leases (lease_registry m));
    raiseM e).

Definition mark_running (worker_id : Z) (generation : option Z) (request_id : Z) (mode : string)
    (r : BranchRecord) : BranchRecord :=
  {| br_branch_id := br_branch_id r; br_work_item := br_work_item r;
     br_state := BRANCH_STATE_RUNNING; parent_branch_id := parent_branch_id r;
     child_branch_ids := child_branch_ids r; br_worker_id := Some worker_id;
     br_worker_generation := generation; br_request_id := Some request_id;
     br_execution_mode := Some mode; br_result := br_result r |}.

(** One pass over the waiting branches: dispatches at most one; the flag says
    whether it did. *)
Fixpoint dispatch_pass (candidates : list string) (free : list Z) (p : PollState) :
    M Manager (bool * PollState) :=
  match candidates with
  | [] => mret (false, p)
  | b :: rest =>
      r ← find_record b;
      if negb (bool_decide (br_state r = BRANCH_STATE_QUEUED))
      then dispatch_pass rest free (set_waiting (list_remove_first b (waiting p)) p)
      else
        match br_work_item r with
        | None => raiseM (PyExc "RuntimeError" ("queued Branch " +:+ b +:+ " has no WorkItem"))
        | Some w =>
            m ← getS;
            if waits_for_holder w free m then dispatch_pass rest free p
            else
              submitted ← submit_or_restore b w free;
              let '(request, worker_id, next_index, request_id) := submitted in
              _ ← modS (set_bootstrap_index next_index);
              _ ← modS (fun m => update_record b
                    (mark_running worker_id (pool_generation worker_id m) request_id
                       (req_execution_mode request)) m);
              _ ← modS (fun m => set_request_map (zset request_id b (request_id_to_branch_id m)) m);
              mret (true, add_request b request_id worker_id
                            (f_add (submitted_at request_id) timeout) p)
        end
  end.

(** [_dispatch_available]: a pass per dispatched branch. *)
Fixpoint dispatch_available (fuel : nat) (p : PollState) : M Manager PollState :=
  match fuel with
  | O => mret p
  | Datatypes.S fuel' =>
      match waiting p with
      | [] => mret p
      | _ =>
          m ← getS;
          match free_workers p m with
          | [] => mret p
          | free =>
              passed ← dispatch_pass (waiting p) free p;
              if passed.1 : bool then dispatch_available fuel' passed.2 else mret passed.2
          end
      end
  end.
Definition _dispatch_available (p : PollState) : M Manager PollState :=
  dispatch_available (length (waiting p)) p.

(** One expired worker: its request is given up, and its branch faulted on a
    respawned worker unless it was cancelled meanwhile. *)
Definition expire_worker (p : PollState) (wid : Z) : M Manager PollState :=
  match zget wid (worker_request_ids p) with
  | None => raiseM (PyExc "KeyError" (pretty wid))
  | Some q =>
      match zget q (running_by_request_id p) with
      | None => raiseM (PyExc "KeyError" (pretty q))
      | Some b =>
          let p := drop_request q wid p in
          _ ← modS (fun m => set_request_map (zdel q (request_id_to_branch_id m)) m);
          r ← find_record b;
          if is_dead (br_state r) then mret p
          else
            match br_work_item r with
            | None => raiseM (PyExc "RuntimeError" ("running Branch " +:+ b +:+ " has no WorkItem"))
            | Some w =>
                m ← getS;
                let stale_generation := pool_generation wid m in
                _ ← pool_respawn wid;
                fault ← liftR (_fault_result format_exc w
                  (match br_execution_mode r with Some mode => mode | None => ""%string end)
                  (Some wid) stale_generation
                  (PyExc "TimeoutError" ("timed out waiting for Branch " +:+ br_branch_id r))
                  "task_timeout");
                _ ← _finish b fault;
                mret (add_poll_result b fault p)
            end
      end
  end.

Fixpoint expire_workers (p : PollState) (wids : list Z) : M Manager PollState :=
  match wids with
  | [] => mret p
  | wid :: rest => p' ← expire_worker p wid; expire_workers p' rest
  end.

(** A result off the queue; one of no live request is dropped. *)
Definition receive (p : PollState) (received_id : Z) (result : BranchResult) : M Manager PollState :=
  match zget received_id (running_by_request_id p) with
  | None => mret p
  | Some b =>
      match zget received_id (request_worker_ids p) with
      | None => raiseM (PyExc "KeyError" (pretty received_id))
      | Some wid =>
          let p := drop_request received_id wid p in
          _ ← modS (fun m => set_request_map (zdel received_id (request_id_to_branch_id m)) m);
          r ← find_record b;
          if is_dead (br_state r) then _dispatch_available p
          else
            let result := match br_work_item r with
                          | Some w => restore_result_for_caller_work_item w result
                          | None => result
                          end in
            _ ← _finish b result;
            _dispatch_available (add_poll_result b result p)
      end
  end.

Definition poll_event (p : PollState) (ev : QueueEvent) : M Manager PollState :=
  match ev with
  | QueueEmpty now =>
      let expired := List.filter (fun wd => f_leb wd.2 now) (worker_deadlines p) in
      p' ← expire_workers p (map fst expired);
      _dispatch_available p'
  | Received received_id result => receive p received_id result
  end.

(** The loop of [poll] over the events of the result queue; [None]: it is
    still waiting for the next one. *)
Fixpoint poll_loop (events : list QueueEvent) (p : PollState) :
    M Manager (option (list (string * BranchResult))) :=
  match waiting p, running_by_request_id p with
  | [], [] => mret (Some (poll_results p))
  | _, running =>
      p ← match running with
          | [] =>
              p' ← _dispatch_available p;
              match running_by_request_id p' with
              | [] => raiseM (PyExc "RuntimeError" "queued Branches could not be routed to any worker")
              | _ => mret p'
              end
          | _ => mret p
          end;
      match events with
      | [] => mret None
      | ev :: rest => p' ← poll_event p ev; poll_loop rest p'
      end
  end.

Fixpoint select_branches (branch_ids seen : list string) : M Manager (list string) :=
  match branch_ids with
  | [] => mret []
  | b :: rest =>
      if str_in b seen then select_branches rest seen
      else
        r ← find_record b;
        if negb (bool_decide (br_state r = BRANCH_STATE_QUEUED)) then
          raiseM (PyExc "RuntimeError" ("Branch " +:+ b +:+
            " must be queued when explicitly polled, got state='" +:+ state_text (br_state r) +:+ "'"))
        else out ← select_branches rest (b :: seen); mret (b :: out)
  end.

Definition poll (branch_ids : option (list string)) (events : list QueueEvent) :
    M Manager (option (list (string * BranchResult))) :=
  if f_leb timeout (f_of_Z 0) then raiseM (PyExc "ValueError" "timeout must be positive")
  else
    m ← getS;
    poll_branch_ids ← match branch_ids with
      | None => mret (map fst (List.filter
                  (fun kr => bool_decide (br_state kr.2 = BRANCH_STATE_QUEUED)) (records m)))
      | Some ids => select_branches ids []
      end;
    let p := {| waiting := poll_branch_ids; running_by_request_id := []; request_worker_ids := [];
                worker_request_ids := []; worker_deadlines := []; poll_results := [] |} in
    tryM (p' ← _dispatch_available p; poll_loop events p')
      (fun e => _ ← _quarantine_poll_branches poll_branch_ids; raiseM e).
End Poll.

(** * Records under updates *)

Definition rec_of (b : string) (m : Manager) : option BranchRecord := dget b (records m).

Lemma rec_of_update b f b' m :
  rec_of b' (update_record b f m) = if String.eqb b' b then f <$> rec_of b m else rec_of b' m.
Proof.
  unfold rec_of, update_record. destruct (dget b (records m)) as [r|] eqn:E; cbn.
  - rewrite dget_dset. by destruct (String.eqb b' b).
  - destruct (String.eqb_spec b' b) as [->|]; [by rewrite E|done].
Qed.

Lemma update_keys b f m : dkeys (records (update_record b f m)) = dkeys (records m).
Proof.
  unfold update_record. destruct (dget b (records m)) as [r|] eqn:E; [|done].
  cbn [records set_records]. rewrite dkeys_dset. unfold dmem. by rewrite E.
Qed.

(** Everything of the manager but its records. *)
Definition frame_of (m : Manager) : Manager := set_records [] m.

Lemma frame_update b f m : frame_of (update_record b f m) = frame_of m.
Proof. unfold update_record. by destruct (dget b (records m)). Qed.

(** A known branch keeps its identity and links. *)
Definition links_of (r : BranchRecord) : string * option string * list string :=
  (br_branch_id r, parent_branch_id r, child_branch_ids r).

(** * The manager's invariant *)

Definition known (b : string) (m : Manager) : Prop := is_Some (rec_of b m).

Record record_ok (m : Manager) (b : string) (r : BranchRecord) : Prop := {
  ok_id : br_branch_id r = b;
  ok_serial : exists k, 1 <= k <= next_serial m /\ b = branch_name k;
  ok_children : forall c, c ∈ child_branch_ids r -> known c m;
  ok_parent : forall p, parent_branch_id r = Some p -> known p m;
  ok_work : is_active (br_state r) = true -> is_Some (br_work_item r);
  ok_worker : br_state r = BRANCH_STATE_RUNNING ->
    exists w g, br_worker_id r = Some w /\ pool_generation w m = Some g;
  ok_tombstone : br_state r = BRANCH_STATE_RELEASED -> clear_execution r = r;
}.

Record mgr_ok (m : Manager) : Prop := {
  ok_open : pool_closed m = false;
  ok_nodup : NoDup (dkeys (records m));
  ok_serial_nonneg : 0 <= next_serial m;
  ok_records : forall b r, rec_of b m = Some r -> record_ok m b r;
}.

Lemma known_dmem b m : dmem b (records m) = true ↔ known b m.
Proof. unfold dmem, known, rec_of. destruct (dget b (records m)); split; try done; intros [? ?]; done. Qed.

Lemma find_record_known b m r : rec_of b m = Some r -> find_record b m = (Ok r, m).
Proof. intros H. unfold find_record. erewrite M_run_Ok by reflexivity. unfold rec_of in H. by rewrite H. Qed.

Lemma find_record_unknown b m : rec_of b m = None -> find_record b m = (Raise (UnknownBranchError b), m).
Proof. intros H. unfold find_record. erewrite M_run_Ok by reflexivity. unfold rec_of in H. by rewrite H. Qed.

Lemma zget_zset {A} k k' (v : A) d : zget k (zset k' v d) = if k =? k' then Some v else zget k d.
Proof.
  induction d as [|[k0 v0] d IH]; simpl.
  - by destruct (k =? k').
  - destruct (Z.eqb_spec k' k0) as [->|]; simpl; [by destruct (k =? k0)|].
    rewrite IH. destruct (Z.eqb_spec k k0) as [->|]; [|done].
    destruct (Z.eqb_spec k0 k'); [congruence|done].
Qed.

(** * Cancelling one branch *)

(** What cancelling [b] does to the records: [b] is dead afterwards, with the
    same links, and no other record changes. *)
Record cancelled_one (b : string) (m m' : Manager) : Prop := {
  co_keys : dkeys (records m') = dkeys (records m);
  co_other : forall b', b' ≠ b -> rec_of b' m' = rec_of b' m;
  co_self : forall r, rec_of b m = Some r -> exists r', rec_of b m' = Some r' /\
    is_dead (br_state r') = true /\ links_of r' = links_of r /\
    (is_dead (br_state r) = true \/ br_state r' = BRANCH_STATE_RELEASED -> r' = r);
  co_serial : next_serial m' = next_serial m;
  co_max : max_branches m' = max_branches m;
  co_open : pool_closed m' = pool_closed m;
  co_workers : forall w, is_Some (pool_generation w m) -> is_Some (pool_generation w m');
}.

Lemma update_cancelled_one b f m m0 :
  records m0 = records m -> next_serial m0 = next_serial m -> max_branches m0 = max_branches m ->
  pool_closed m0 = pool_closed m ->
  (forall w, is_Some (pool_generation w m) -> is_Some (pool_generation w m0)) ->
  (forall r, br_state (f r) = BRANCH_STATE_CANCELLED /\ links_of (f r) = links_of r) ->
  (forall r, rec_of b m = Some r -> is_dead (br_state r) = false) ->
  cancelled_one b m (update_record b f m0).
Proof.
  intros Hr Hs Hm Hc Hw Hf Hd.
  pose proof (frame_update b f m0) as Hfr. unfold frame_of, set_records in Hfr. injection Hfr as ?????????.
  constructor; try congruence.
  - by rewrite update_keys, Hr.
  - intros b' Hne. rewrite rec_of_update. apply String.eqb_neq in Hne as ->. unfold rec_of. by rewrite Hr.
  - intros r Hr0. exists (f r). rewrite rec_of_update, String.eqb_refl. unfold rec_of in *. rewrite Hr, Hr0.
    destruct (Hf r) as [Hst ?]. rewrite Hst. split_and!; try done.
    intros [Hdead|]; [|done]. by rewrite (Hd r Hr0) in Hdead.
  - intros w Hin. unfold pool_generation in *. replace (pool_workers (update_record b f m0)) with (pool_workers m0)
      by congruence. by apply Hw.
Qed.

Lemma pool_respawn_run wid g m :
  pool_closed m = false -> pool_generation wid m = Some g ->
  exists m', pool_respawn wid m = (Ok tt, m') /\ records m' = records m /\
    next_serial m' = next_serial m /\ max_branches m' = max_branches m /\
    pool_closed m' = pool_closed m /\ request_id_to_branch_id m' = request_id_to_branch_id m /\
    forall w, is_Some (pool_generation w m) -> is_Some (pool_generation w m').
Proof.
  intros Hc Hg. unfold pool_respawn. erewrite M_run_Ok by reflexivity. rewrite Hc, Hg.
  erewrite M_run_Ok by reflexivity. eexists. split; [reflexivity|]. cbn.
  split_and!; try done. intros w. unfold pool_generation. cbn. rewrite zget_zset.
  destruct (w =? wid); [by eexists|done].
Qed.

Lemma cancel_one_ok b r m :
  mgr_ok m -> rec_of b m = Some r ->
  exists st m', _cancel_one b m = (Ok st, m') /\ cancelled_one b m m' /\
    (exists r', rec_of b m' = Some r' /\ br_state r' = st).
Proof.
  intros Hok Hr. pose proof (ok_records _ Hok b r Hr) as Hrec. unfold _cancel_one.
  erewrite M_run_Ok by (by apply find_record_known).
  assert (Hsimple : forall f m0, records m0 = records m -> next_serial m0 = next_serial m ->
    max_branches m0 = max_branches m -> pool_closed m0 = pool_closed m ->
    (forall w, is_Some (pool_generation w m) -> is_Some (pool_generation w m0)) ->
    (forall r, br_state (f r) = BRANCH_STATE_CANCELLED /\ links_of (f r) = links_of r) ->
    is_dead (br_state r) = false ->
    cancelled_one b m (update_record b f m0) /\
    exists r', rec_of b (update_record b f m0) = Some r' /\ br_state r' = BRANCH_STATE_CANCELLED).
  { intros f m0 H1 H2 H3 H4 H5 Hf Hd. split.
    - apply update_cancelled_one; try done. intros r0 Hr0. congruence.
    - exists (f r). rewrite rec_of_update, String.eqb_refl. unfold rec_of in *. rewrite H1, Hr.
      split; [done|]. apply Hf. }
  destruct (br_state r) eqn:Est.
  - eexists _, _. split; [reflexivity|]. apply Hsimple; by try rewrite Est.
  - destruct (ok_worker _ _ _ Hrec Est) as (w & g & -> & Hg).
    destruct (pool_respawn_run w g m (ok_open _ Hok) Hg) as (m1 & Hrun & R1 & R2 & R3 & R4 & R5 & R6).
    erewrite M_run_Ok by exact Hrun.
    eexists _, _. split; [reflexivity|].
    destruct (br_request_id r); apply Hsimple; try done; by rewrite Est.
  - eexists _, _. split; [reflexivity|]. unfold drop_established_lease.
    destruct (br_result r) as [res|]; [destruct (established_lease res)|]; apply Hsimple; try done; by rewrite Est.
  - eexists _, _. split; [reflexivity|]. unfold drop_established_lease.
    destruct (br_result r) as [res|]; [destruct (established_lease res)|]; apply Hsimple; try done; by rewrite Est.
  - eexists _, _. split; [reflexivity|]. split.
    + constructor; try done. intros r0 Hr0. exists r0. simplify_eq. rewrite Est. split_and!; done.
    + by exists r.
  - eexists _, _. split; [reflexivity|]. unfold drop_established_lease.
    destruct (br_result r) as [res|]; [destruct (established_lease res)|]; apply Hsimple; try done; by rewrite Est.
  - eexists _, _. split; [reflexivity|]. split.
    + constructor; try done. intros r0 Hr0. exists r0. simplify_eq. rewrite Est. split_and!; done.
    + by exists r.
Qed.

Lemma cancelled_one_links b m m' :
  cancelled_one b m m' -> forall x, links_of <$> rec_of x m' = links_of <$> rec_of x m.
Proof.
  intros [Hk Ho Hs _ _ _ _] x. destruct (decide (x = b)) as [->|]; [|by rewrite Ho].
  destruct (rec_of b m) as [r|] eqn:E.
  - destruct (Hs r eq_refl) as (r' & -> & _ & Hl & _). cbn. by rewrite Hl.
  - unfold rec_of in *. apply dget_None_keys in E. rewrite <- Hk in E. apply dget_None_keys in E.
    by rewrite E.
Qed.

Lemma known_links m m' x :
  (forall x, links_of <$> rec_of x m' = links_of <$> rec_of x m) -> known x m -> known x m'.
Proof.
  intros H [r Hr]. specialize (H x). rewrite Hr in H. destruct (rec_of x m') eqn:E; [|done].
  unfold known. rewrite E. by eexists.
Qed.

Lemma cancelled_one_mgr_ok b m m' : mgr_ok m -> cancelled_one b m m' -> mgr_ok m'.
Proof.
  intros Hok Hc. pose proof (cancelled_one_links _ _ _ Hc) as Hlinks.
  destruct Hc as [Hk Ho Hs Hse Hm Hcl Hw]. constructor.
  - by rewrite Hcl, (ok_open _ Hok).
  - rewrite Hk. apply ok_nodup, Hok.
  - rewrite Hse. apply ok_serial_nonneg, Hok.
  - assert (Hframe : forall x r, record_ok m x r -> record_ok m' x r).
    { intros x r [H1 H2 H3 H4 H5 H6 H7]. constructor; try done.
      - by rewrite Hse.
      - intros c Hin. eapply known_links; [exact Hlinks|by apply H3].
      - intros p Hp. eapply known_links; [exact Hlinks|by apply H4].
      - intros Hrun. destruct (H6 Hrun) as (w & g & Hw1 & Hg). destruct (Hw w) as [g' Hg'].
        { rewrite Hg. by eexists. }
        by exists w, g'. }
    intros x r' Hr'. destruct (decide (x = b)) as [->|Hne].
    + assert (Hkn : known b m).
      { apply known_dmem, dmem_keys. rewrite <- Hk. apply dmem_keys, known_dmem. by exists r'. }
      destruct Hkn as [r Hr]. destruct (Hs r Hr) as (r2 & Hr2 & Hdead & Hl & Hsame).
      assert (r2 = r') as -> by congruence.
      pose proof (Hframe b r (ok_records _ Hok b r Hr)) as [H1 H2 H3 H4 H5 H6 H7].
      unfold links_of in Hl. injection Hl as Hl1 Hl2 Hl3. constructor.
      * congruence.
      * done.
      * by rewrite Hl3.
      * by rewrite Hl2.
      * by destruct (br_state r').
      * by destruct (br_state r').
      * intros Hrel. pose proof (Hsame (or_intror Hrel)) as Heq. rewrite Heq in Hrel |- *. by apply H7.
    + apply Hframe. apply (ok_records _ Hok). by rewrite <- Ho.
Qed.

(** * The cascade *)

Definition child_of (m : Manager) (a b : string) : Prop :=
  exists r, rec_of a m = Some r /\ b ∈ child_branch_ids r.

(** The children still to be pushed. *)
Definition unvisited_children (recs : list (string * BranchRecord)) (visited : list (string * BranchState)) : nat :=
  foldr (fun kr n => (if dmem kr.1 visited then 0 else length (child_branch_ids kr.2)) + n)%nat 0%nat recs.

Lemma unvisited_step recs visited b st r :
  NoDup (dkeys recs) -> dget b recs = Some r -> dmem b visited = false ->
  (unvisited_children recs (dset b st visited) + length (child_branch_ids r)
   = unvisited_children recs visited)%nat.
Proof.
  intros Hnd Hr Hv. induction recs as [|[k r0] recs IH]; [done|].
  unfold dkeys in Hnd. rewrite fmap_cons in Hnd. apply NoDup_cons in Hnd as [Hni Hnd].
  cbn [unvisited_children foldr fst snd]. fold (unvisited_children recs (dset b st visited)).
  fold (unvisited_children recs visited). cbn [dget] in Hr.
  assert (Hm : forall k, dmem k (dset b st visited) = if String.eqb k b then true else dmem k visited).
  { intros k0. unfold dmem. rewrite dget_dset. by destruct (String.eqb k0 b). }
  rewrite Hm. destruct (String.eqb_spec b k) as [->|Hne].
  - injection Hr as ->. rewrite String.eqb_refl, Hv.
    assert (Hsame : unvisited_children recs (dset k st visited) = unvisited_children recs visited).
    { clear -Hni Hm. induction recs as [|[k' r'] recs IH]; [done|].
      unfold dkeys in Hni. rewrite fmap_cons in Hni. apply not_elem_of_cons in Hni as [Hne Hni].
      cbn [unvisited_children foldr fst snd]. fold (unvisited_children recs (dset k st visited)).
      fold (unvisited_children recs visited). rewrite (IH Hni), Hm. cbn in Hne.
      destruct (String.eqb_spec k' k) as [->|]; [done|]. done. }
    lia.
  - rewrite (String.eqb_sym k b). apply String.eqb_neq in Hne as ->. rewrite <- (IH Hnd Hr). lia.
Qed.

Lemma dmem_dset {A} k b (v : A) d : dmem k (dset b v d) = String.eqb k b || dmem k d.
Proof. unfold dmem. rewrite dget_dset. by destruct (String.eqb k b). Qed.

(** The result of a cascade from [ids]: exactly the branches reachable through
    child links were visited; each is cancelled or released and no other
    record changed. *)
Record cascade (ids : list string) (m m' : Manager) (visited : list (string * BranchState)) : Prop := {
  ca_ok : mgr_ok m';
  ca_reach : forall b, dmem b visited = true ↔ exists a, a ∈ ids /\ rtc (child_of m) a b;
  ca_dead : forall b st, dget b visited = Some st -> is_dead st = true /\
    exists r', rec_of b m' = Some r' /\ br_state r' = st;
  ca_other : forall b, dmem b visited = false -> rec_of b m' = rec_of b m;
  ca_links : forall b, links_of <$> rec_of b m' = links_of <$> rec_of b m;
  ca_keys : dkeys (records m') = dkeys (records m);
}.

(** The invariant of the worklist. *)
Record cascade_inv (ids : list string) (m0 m : Manager) (to_visit : list string)
    (visited : list (string * BranchState)) : Prop := {
  ci_ok : mgr_ok m;
  ci_links : forall b, links_of <$> rec_of b m = links_of <$> rec_of b m0;
  ci_keys : dkeys (records m) = dkeys (records m0);
  ci_dead : forall b st, dget b visited = Some st -> is_dead st = true /\
    exists r', rec_of b m = Some r' /\ br_state r' = st;
  ci_other : forall b, dmem b visited = false -> rec_of b m = rec_of b m0;
  ci_reach : forall b, dmem b visited = true \/ b ∈ to_visit ->
    exists a, a ∈ ids /\ rtc (child_of m0) a b;
  ci_known : forall b, b ∈ to_visit -> known b m0;
  ci_start : forall a, a ∈ ids -> dmem a visited = true \/ a ∈ to_visit;
  ci_closed : forall a b, dmem a visited = true -> child_of m0 a b ->
    dmem b visited = true \/ b ∈ to_visit;
}.

Lemma cascade_inv_skip ids m0 m l b visited :
  cascade_inv ids m0 m (l ++ [b]) visited -> dmem b visited = true -> cascade_inv ids m0 m l visited.
Proof.
  intros [] Hv. assert (Hweak : forall x, dmem x visited = true \/ x ∈ l ++ [b] ->
      dmem x visited = true \/ x ∈ l).
  { intros x [?|Hin]; [by left|]. apply elem_of_app in Hin as [?| ->%list_elem_of_singleton]; [by right|by left]. }
  constructor; try done.
  - intros x [?|?]; apply ci_reach0; [by left|right; set_solver].
  - intros x Hx. apply ci_known0. set_solver.
  - intros a Ha. by apply Hweak, ci_start0.
  - intros a x Ha Hx. by eapply Hweak, ci_closed0.
Qed.

Lemma cascade_inv_visit ids m0 m m' l b r st visited :
  mgr_ok m0 ->
  cascade_inv ids m0 m (l ++ [b]) visited -> dmem b visited = false ->
  rec_of b m = Some r -> cancelled_one b m m' ->
  (exists r', rec_of b m' = Some r' /\ br_state r' = st) ->
  cascade_inv ids m0 m' (l ++ child_branch_ids r) (dset b st visited).
Proof.
  intros Hok0 [] Hv Hr Hc (r1 & Hr1 & Hst).
  pose proof (cancelled_one_links _ _ _ Hc) as Hlinks.
  assert (Hr0 : rec_of b m0 = Some r) by (by rewrite <- ci_other0).
  constructor.
  - by eapply cancelled_one_mgr_ok.
  - intros x. by rewrite Hlinks.
  - by rewrite (co_keys _ _ _ Hc).
  - intros x s. rewrite dget_dset. destruct (String.eqb_spec x b) as [->|Hne].
    + intros [= <-]. split; [|by exists r1].
      destruct (co_self _ _ _ Hc r Hr) as (r2 & Hr2 & Hd & _). congruence.
    + intros Hx. rewrite (co_other _ _ _ Hc x Hne). by apply ci_dead0.
  - intros x. rewrite dmem_dset, orb_false_iff. intros [Hne Hx]. apply String.eqb_neq in Hne.
    rewrite (co_other _ _ _ Hc x Hne). by apply ci_other0.
  - assert (Hb : exists a, a ∈ ids /\ rtc (child_of m0) a b) by (apply ci_reach0; right; set_solver).
    intros x. rewrite dmem_dset, orb_true_iff, elem_of_app.
    intros [[->%String.eqb_eq|Hx]|[Hx|Hx]].
    + done.
    + apply ci_reach0. by left.
    + apply ci_reach0. right. set_solver.
    + destruct Hb as (a & Ha & Hab). exists a. split; [done|]. eapply rtc_r; [exact Hab|]. by exists r.
  - intros x [Hx|Hx]%elem_of_app; [apply ci_known0; set_solver|].
    pose proof (ok_records _ Hok0 b r Hr0) as Hrec. by eapply ok_children.
  - intros a Ha. rewrite dmem_dset, orb_true_iff, elem_of_app.
    destruct (ci_start0 a Ha) as [?|[?| ->%list_elem_of_singleton]%elem_of_app]; auto.
    left. left. apply String.eqb_refl.
  - intros a x. rewrite !dmem_dset, !orb_true_iff, elem_of_app. intros [->%String.eqb_eq|Ha] Hx.
    + destruct Hx as (r' & Hr' & Hin). assert (r' = r) as -> by congruence. auto.
    + destruct (ci_closed0 a x Ha Hx) as [?|[?| ->%list_elem_of_singleton]%elem_of_app]; auto.
      left. left. apply String.eqb_refl.
Qed.

Lemma cascade_inv_done ids m0 m visited :
  cascade_inv ids m0 m [] visited -> cascade ids m0 m visited.
Proof.
  intros []. constructor; try done. intros b. split.
  - intros Hb. apply ci_reach0. by left.
  - intros (a & Ha & Hab).
    assert (Hav : dmem a visited = true) by (destruct (ci_start0 a Ha) as [?|?%elem_of_nil]; done).
    clear Ha. induction Hab as [a|a x b Hax _ IH]; [done|]. apply IH.
    destruct (ci_closed0 a x Hav Hax) as [?|?%elem_of_nil]; done.
Qed.

Lemma removelast_last_app {A} (l : list A) x : last l = Some x -> l = removelast l ++ [x].
Proof.
  intros H. rewrite (app_removelast_last x) at 1; [|by intros ->].
  f_equal. f_equal. revert H. induction l as [|y l IH]; [done|]. destruct l as [|z l]; [by intros [= ->]|].
  exact IH.
Qed.

Lemma cancel_loop_cascade ids m0 fuel : mgr_ok m0 -> forall m to_visit visited,
  cascade_inv ids m0 m to_visit visited ->
  (length to_visit + unvisited_children (records m0) visited < fuel)%nat ->
  exists visited' m', cancel_loop fuel to_visit visited m = (Ok visited', m') /\
    cascade ids m0 m' visited'.
Proof.
  intros Hok0. induction fuel as [|fuel IH]; intros m to_visit visited Hinv Hf; [lia|].
  cbn [cancel_loop]. destruct (last to_visit) as [b|] eqn:El.
  2:{ apply last_None in El as ->. eexists _, _. split; [reflexivity|]. by apply cascade_inv_done. }
  pose proof (removelast_last_app _ _ El) as Heq. set (l := removelast to_visit) in *. clearbody l.
  subst to_visit. rewrite length_app in Hf. cbn [length] in Hf.
  destruct (dmem b visited) eqn:Ev.
  - apply IH; [by eapply cascade_inv_skip|lia].
  - assert (Hk : known b m0) by (eapply ci_known; [exact Hinv|set_solver]).
    destruct Hk as [r Hr0].
    assert (Hr : rec_of b m = Some r) by (by rewrite (ci_other _ _ _ _ _ Hinv b Ev)).
    destruct (cancel_one_ok b r m (ci_ok _ _ _ _ _ Hinv) Hr) as (st & m' & Hrun & Hc & Hst).
    erewrite M_run_Ok by (by apply find_record_known). erewrite M_run_Ok by exact Hrun.
    apply IH; [by eapply cascade_inv_visit|].
    rewrite length_app. pose proof (unvisited_step (records m0) visited b st r (ok_nodup _ Hok0) Hr0 Ev). lia.
Qed.

Lemma cancel_branches_run m ids :
  mgr_ok m -> (forall b, b ∈ ids -> known b m) ->
  exists visited m', cancel_branches ids m = (Ok visited, m') /\ cascade ids m m' visited.
Proof.
  intros Hok Hk. unfold cancel_branches. erewrite M_run_Ok by reflexivity.
  apply (cancel_loop_cascade ids m (cancel_fuel ids m) Hok m ids []).
  - constructor; try done.
    + intros b [?|Hb]; [done|]. exists b. split; [done|apply rtc_refl].
    + intros a Ha. by right.
  - unfold cancel_fuel, unvisited_children. cbn. lia.
Qed.


(** * Submission is atomic *)

Fixpoint recs_from (s : Z) (entries : list (WorkItem * option string)) : list BranchRecord :=
  match entries with
  | [] => []
  | (w, p) :: rest => new_record (branch_name (s + 1)) w p :: recs_from (s + 1) rest
  end.

Lemma branch_name_inj j k : branch_name j = branch_name k -> j = k.
Proof. intros H. apply (str_app_inv_l "branch-") in H. by apply (inj pretty) in H. Qed.

Lemma check_parents_run entries m :
  (check_parents entries m = (Ok tt, m) /\ forall w p, (w, Some p) ∈ entries -> known p m) \/
  exists p, check_parents entries m = (Raise (UnknownBranchError p), m) /\ ¬ known p m.
Proof.
  induction entries as [|[w [p|]] rest IH]; cbn [check_parents].
  - left. split; [done|]. by intros w p ?%elem_of_nil.
  - erewrite M_run_Ok by reflexivity. destruct (dmem p (records m)) eqn:E.
    + apply known_dmem in E. destruct IH as [[H1 H2]|IH]; [left|by right].
      split; [done|]. intros w' p' [[= _ ->]|H]%elem_of_cons; [done|by eapply H2].
    + right. exists p. split; [done|]. rewrite <- known_dmem. congruence.
  - erewrite M_run_Ok by reflexivity. destruct IH as [[H1 H2]|IH]; [left|by right].
    split; [done|]. intros w' p' [[=]|H]%elem_of_cons. by eapply H2.
Qed.

Lemma make_records_run entries m :
  make_records entries m =
  (Ok (recs_from (next_serial m) entries), set_serial (next_serial m + Z.of_nat (length entries)) m).
Proof.
  revert m. induction entries as [|[w p] rest IH]; intros m; cbn [make_records recs_from].
  - f_equal. cbn. rewrite Z.add_0_r. by destruct m.
  - unfold _new_branch_id. erewrite M_run_Ok by reflexivity. erewrite M_run_Ok by apply IH.
    cbn [next_serial set_serial length].
    replace (next_serial m + Z.of_nat (Datatypes.S (length rest)))
      with (next_serial m + 1 + Z.of_nat (length rest)) by lia. reflexivity.
Qed.

Lemma recs_from_facts s entries :
  length (recs_from s entries) = length entries /\
  (forall r, r ∈ recs_from s entries -> exists k, s < k <= s + Z.of_nat (length entries) /\
     br_branch_id r = branch_name k) /\
  NoDup (map br_branch_id (recs_from s entries)) /\
  forall i w p, entries !! i = Some (w, p) ->
    exists b, recs_from s entries !! i = Some (new_record b w p).
Proof.
  revert s. induction entries as [|[w p] rest IH]; intros s; cbn [recs_from length map].
  - split_and!; [done|by intros r ?%elem_of_nil|constructor|done].
  - destruct (IH (s + 1)) as (H1 & H2 & H3 & H4). split_and!.
    + by rewrite H1.
    + intros r [-> |Hin]%elem_of_cons; [exists (s + 1); split; [lia|done]|].
      destruct (H2 r Hin) as (k & Hk & ->). exists k. split; [lia|done].
    + apply NoDup_cons. split; [|done]. intros (r & Hr & Hin)%list_elem_of_fmap.
      destruct (H2 r Hin) as (k & Hk & Hb). cbn in Hr. rewrite Hb in Hr.
      apply branch_name_inj in Hr. lia.
    + intros [|i] w' p'; cbn; [intros [= -> ->]; by eexists|apply H4].
Qed.

Lemma register_fold recs m :
  NoDup (map br_branch_id recs) -> (forall r, r ∈ recs -> ¬ known (br_branch_id r) m) ->
  foldl (fun m r => register r m) m recs
  = set_records (records m ++ map (fun r => (br_branch_id r, r)) recs) m.
Proof.
  revert m. induction recs as [|r recs IH]; intros m Hnd Hf; cbn [foldl map].
  - rewrite app_nil_r. by destruct m.
  - cbn [map] in Hnd. apply NoDup_cons in Hnd as [Hni Hnd].
    assert (Hfr : br_branch_id r ∉ dkeys (records m)).
    { intros Hin. apply (Hf r); [left|]. by apply known_dmem, dmem_keys. }
    assert (Hreg : register r m = set_records (records m ++ [(br_branch_id r, r)]) m)
      by (unfold register; by rewrite dset_fresh).
    rewrite Hreg, IH; [|done|].
    + cbn [records set_records]. by rewrite <- app_assoc.
    + intros r' Hin. rewrite <- known_dmem, dmem_keys. cbn [records set_records].
      unfold dkeys. rewrite fmap_app, elem_of_app. cbn. rewrite list_elem_of_singleton.
      intros [Hk|Heq].
      * apply (Hf r'); [by right|]. by apply known_dmem, dmem_keys.
      * apply Hni. rewrite <- Heq. by apply list_elem_of_fmap_2.
Qed.

Definition has_parent (b : string) (r : BranchRecord) : bool :=
  match parent_branch_id r with Some p => String.eqb p b | None => false end.

Lemma link_fold recs b m :
  rec_of b (foldl (fun m r => link_parent r m) m recs) =
  (fun r => set_links (parent_branch_id r)
     (child_branch_ids r ++ map br_branch_id (List.filter (has_parent b) recs)) r) <$> rec_of b m.
Proof.
  revert m. induction recs as [|r recs IH]; intros m; cbn [foldl List.filter].
  - destruct (rec_of b m) as [[]|]; cbn; [|done]. by rewrite app_nil_r.
  - rewrite IH. unfold link_parent, has_parent at 2. destruct (parent_branch_id r) as [p|]; [|done].
    rewrite rec_of_update, (String.eqb_sym p b). destruct (String.eqb_spec b p) as [->|]; [|done].
    destruct (rec_of p m); cbn; [|done]. by rewrite <- app_assoc.
Qed.

Lemma link_fold_frame recs m :
  let m' := foldl (fun m r => link_parent r m) m recs in
  dkeys (records m') = dkeys (records m) /\ frame_of m' = frame_of m /\
  active_branch_count m' = active_branch_count m.
Proof.
  revert m. induction recs as [|r recs IH]; intros m; cbn [foldl]; [done|].
  destruct (IH (link_parent r m)) as (-> & -> & ->). unfold link_parent.
  destruct (parent_branch_id r) as [p|]; [|done].
  split_and!; [apply update_keys|apply frame_update|].
  unfold update_record. destruct (dget p (records m)) as [pr|] eqn:E; [|done].
  unfold active_branch_count. cbn [records set_records]. f_equal. clear IH.
  induction (records m) as [|[k r0] l IHl]; [done|]. cbn [dget] in E. cbn [dset].
  destruct (String.eqb p k).
  - injection E as ->. cbn [List.filter]. cbn. by destruct (is_active (br_state pr)).
  - cbn [List.filter]. destruct (is_active _); cbn [length]; by rewrite IHl.
Qed.

Lemma rec_of_app b recs m :
  rec_of b (set_records (records m ++ map (fun r => (br_branch_id r, r)) recs) m) =
  match rec_of b m with
  | Some r => Some r
  | None => List.find (fun r => String.eqb b (br_branch_id r)) recs
  end.
Proof.
  unfold rec_of. cbn [records set_records]. induction (records m) as [|[k r] l IH]; cbn [app dget].
  - induction recs as [|r recs IH]; [done|]. cbn. by destruct (String.eqb b (br_branch_id r)).
  - by destruct (String.eqb b k).
Qed.

(** The manager after a successful submission. *)
Definition submitted (entries : list (WorkItem * option string)) (m : Manager) : Manager :=
  let recs := recs_from (next_serial m) entries in
  foldl (fun m r => link_parent r m)
    (set_records (records m ++ map (fun r => (br_branch_id r, r)) recs)
       (set_serial (next_serial m + Z.of_nat (length entries)) m)) recs.

Lemma new_ids_unknown m entries r :
  mgr_ok m -> r ∈ recs_from (next_serial m) entries -> ¬ known (br_branch_id r) m.
Proof.
  intros Hok Hin [r0 Hr0]. destruct (recs_from_facts (next_serial m) entries) as (_ & H & _).
  destruct (H r Hin) as (k & Hk & Hb). rewrite Hb in Hr0.
  destruct (ok_serial _ _ _ (ok_records _ Hok _ _ Hr0)) as (j & Hj & Heq).
  apply branch_name_inj in Heq. lia.
Qed.

Lemma submit_many_run m entries :
  mgr_ok m ->
  (forall w p, (w, Some p) ∈ entries -> known p m) ->
  active_branch_count m + Z.of_nat (length entries) <= max_branches m ->
  submit_many entries m =
  (Ok (map br_branch_id (recs_from (next_serial m) entries)), submitted entries m).
Proof.
  intros Hok Hp Hcap. unfold submit_many.
  destruct (check_parents_run entries m) as [[Hc _]|(p & Hc & Hn)].
  2:{ exfalso. clear Hcap. revert Hc. induction entries as [|[w [q|]] rest IH]; cbn [check_parents].
      - done.
      - erewrite M_run_Ok by reflexivity.
        assert (known q m) as ->%known_dmem by (eapply Hp; by left).
        apply IH. intros w' p' H. eapply Hp. by right.
      - erewrite M_run_Ok by reflexivity. apply IH. intros w' p' H. eapply Hp. by right. }
  erewrite M_run_Ok by exact Hc. erewrite M_run_Ok by reflexivity.
  replace (max_branches m <? _) with false by (symmetry; apply Z.ltb_ge; exact Hcap).
  erewrite M_run_Ok by apply make_records_run. erewrite M_run_Ok by reflexivity.
  rewrite register_fold.
  - erewrite M_run_Ok by reflexivity. reflexivity.
  - apply recs_from_facts.
  - intros r Hin. pose proof (new_ids_unknown m entries r Hok Hin) as Hn. exact Hn.
Qed.

Lemma submitted_rec entries m b :
  rec_of b (submitted entries m) =
  (fun r => set_links (parent_branch_id r)
     (child_branch_ids r ++ map br_branch_id
        (List.filter (has_parent b) (recs_from (next_serial m) entries))) r) <$>
  match rec_of b m with
  | Some r => Some r
  | None => List.find (fun r => String.eqb b (br_branch_id r)) (recs_from (next_serial m) entries)
  end.
Proof. unfold submitted. rewrite link_fold. f_equal. exact (rec_of_app b _ (set_serial _ m)). Qed.

Lemma submitted_known entries m b : known b m -> known b (submitted entries m).
Proof. intros [r Hr]. unfold known. rewrite submitted_rec, Hr. by eexists. Qed.

Lemma find_new_record s entries r :
  r ∈ recs_from s entries ->
  List.find (fun r' => String.eqb (br_branch_id r) (br_branch_id r')) (recs_from s entries) = Some r.
Proof.
  destruct (recs_from_facts s entries) as (_ & _ & Hnd & _). revert Hnd.
  induction (recs_from s entries) as [|r0 l IH]; intros Hnd Hin; [by apply elem_of_nil in Hin|].
  cbn [map] in Hnd. apply NoDup_cons in Hnd as [Hni Hnd]. cbn [List.find].
  apply elem_of_cons in Hin as [->|Hin]; [by rewrite String.eqb_refl|].
  destruct (String.eqb_spec (br_branch_id r) (br_branch_id r0)) as [Heq|]; [|by apply IH].
  destruct Hni. rewrite <- Heq. by apply list_elem_of_fmap_2.
Qed.

Lemma new_known entries m r :
  mgr_ok m -> r ∈ recs_from (next_serial m) entries -> known (br_branch_id r) (submitted entries m).
Proof.
  intros Hok Hin. unfold known. rewrite submitted_rec.
  destruct (rec_of (br_branch_id r) m) eqn:E; [by eexists|].
  rewrite find_new_record by done. by eexists.
Qed.

Lemma recs_from_elem s entries r :
  r ∈ recs_from s entries -> exists b w p, r = new_record b w p /\ (w, p) ∈ entries.
Proof.
  revert s. induction entries as [|[w p] rest IH]; intros s; cbn [recs_from].
  - by intros ?%elem_of_nil.
  - intros [-> |Hin]%elem_of_cons; [eexists _, _, _; split; [done|left]|].
    destruct (IH _ Hin) as (b & w' & p' & -> & H). eexists _, _, _. split; [done|by right].
Qed.

Lemma submitted_ok entries m :
  mgr_ok m -> (forall w p, (w, Some p) ∈ entries -> known p m) -> mgr_ok (submitted entries m).
Proof.
  intros Hok Hp. set (recs := recs_from (next_serial m) entries).
  set (m1 := set_records (records m ++ map (fun r => (br_branch_id r, r)) recs)
       (set_serial (next_serial m + Z.of_nat (length entries)) m)).
  destruct (link_fold_frame recs m1) as (Hkeys & Hfr & _). fold recs in Hkeys, Hfr.
  change (foldl (fun m r => link_parent r m) m1 recs) with (submitted entries m) in Hkeys, Hfr.
  unfold frame_of, set_records in Hfr. injection Hfr as Hm1 Hm2 Hm3 Hm4 Hm5 Hm6 Hm7 Hm8 Hm9.
  cbn in Hm3, Hm6, Hm8. destruct (recs_from_facts (next_serial m) entries) as (Hlen & Hids & Hnd & _).
  fold recs in Hlen, Hids, Hnd. constructor.
  - rewrite Hm8. apply ok_open, Hok.
  - rewrite Hkeys. subst m1. unfold dkeys. cbn [records set_records]. rewrite fmap_app. apply NoDup_app.
    split_and!; [apply ok_nodup, Hok| |].
    + intros b Hb ([k r] & -> & (r' & [= -> ->] & Hin)%list_elem_of_fmap)%list_elem_of_fmap.
      apply (new_ids_unknown m entries r' Hok); [done|]. by apply known_dmem, dmem_keys.
    + assert (Heq : fst <$> map (fun r => (br_branch_id r, r)) recs = map br_branch_id recs)
        by (clear; induction recs; cbn; congruence). by rewrite Heq.
  - rewrite Hm3. pose proof (ok_serial_nonneg _ Hok). lia.
  - intros b r'. rewrite submitted_rec. fold recs. intros Hr'. apply fmap_Some in Hr' as (r & Hr & ->).
    assert (Hnewkids : forall c, c ∈ map br_branch_id (List.filter (has_parent b) recs) ->
      known c (submitted entries m)).
    { intros c (r0 & -> & Hin)%list_elem_of_fmap. apply new_known; [done|].
      apply list_elem_of_In, filter_In in Hin as [Hin _]. by apply list_elem_of_In. }
    destruct (rec_of b m) as [r0|] eqn:E.
    + injection Hr as ->. destruct (ok_records _ Hok b r E) as [H1 H2 H3 H4 H5 H6 H7]. constructor; cbn.
      * done.
      * destruct H2 as (k & Hk & ->). exists k. split; [rewrite Hm3; lia|done].
      * intros c [Hc|Hc]%elem_of_app; [by apply submitted_known, H3|by apply Hnewkids].
      * intros p Hpp. by apply submitted_known, H4.
      * done.
      * intros Hrun. destruct (H6 Hrun) as (w & g & Hw & Hg). exists w, g. split; [done|].
        unfold pool_generation. by rewrite Hm6.
      * intros Hrel. specialize (H7 Hrel). destruct r. unfold clear_execution, set_links in *. cbn in *. congruence.
    + apply find_some in Hr as [Hin Hbe]. apply String.eqb_eq in Hbe. apply list_elem_of_In in Hin.
      destruct (Hids r Hin) as (k & Hk & Hbk). destruct (recs_from_elem _ _ _ Hin) as (b0 & w & p & -> & Hwp).
      cbn in Hbe, Hbk. subst b0. constructor; cbn; try done.
      * exists k. split; [rewrite Hm3; pose proof (ok_serial_nonneg _ Hok); lia|done].
      * intros q ->. apply submitted_known. by eapply Hp.
Qed.

Lemma submitted_active entries m :
  active_branch_count (submitted entries m) = active_branch_count m + Z.of_nat (length entries).
Proof.
  unfold submitted. set (recs := recs_from (next_serial m) entries).
  set (m1 := set_records _ _). destruct (link_fold_frame recs m1) as (_ & _ & ->). subst m1.
  unfold active_branch_count. cbn [records set_records]. rewrite List.filter_app, length_app, Nat2Z.inj_add.
  f_equal. f_equal. subst recs. generalize (next_serial m). induction entries as [|[w p] rest IH]; intros s; [done|].
  cbn. by rewrite IH.
Qed.

Lemma submitted_max entries m : max_branches (submitted entries m) = max_branches m.
Proof.
  unfold submitted. match goal with |- context [foldl _ ?m1 ?l] =>
    destruct (link_fold_frame l m1) as (_ & Hfr & _) end.
  exact (f_equal max_branches Hfr).
Qed.

(** submitting a batch is all or nothing: if a parent is unknown or the
    active branches would exceed the cap, it raises and the manager is
    unchanged; otherwise every entry becomes a queued branch under a fresh id,
    linked from its parent, the number of active branches grows by exactly the
    batch within the cap, existing branches keep everything but added children,
    and the manager stays well-formed. *)
Theorem submit_many_atomic m entries :
  mgr_ok m ->
  match submit_many entries m with
  | (Raise _, m') => m' = m /\
      ((exists w p, (w, Some p) ∈ entries /\ ¬ known p m) \/
       max_branches m < active_branch_count m + Z.of_nat (length entries))
  | (Ok ids, m') =>
      mgr_ok m' /\ NoDup ids /\ length ids = length entries /\ (forall b, b ∈ ids -> ¬ known b m) /\
      active_branch_count m' = active_branch_count m + Z.of_nat (length entries) /\
      active_branch_count m' <= max_branches m' /\
      (forall i w p, entries !! i = Some (w, p) -> exists b r, ids !! i = Some b /\
         rec_of b m' = Some r /\ br_state r = BRANCH_STATE_QUEUED /\ br_work_item r = Some w /\
         parent_branch_id r = p /\
         forall q, p = Some q -> exists pr, rec_of q m' = Some pr /\ b ∈ child_branch_ids pr) /\
      (forall b r, rec_of b m = Some r -> exists added,
         rec_of b m' = Some (set_links (parent_branch_id r) (child_branch_ids r ++ added) r))
  end.
Proof.
  intros Hok. destruct (check_parents_run entries m) as [[Hc Hp]|(p & Hc & Hn)].
  2:{ unfold submit_many. erewrite M_run_Raise by exact Hc. split; [done|]. left.
      revert Hc. clear Hok. induction entries as [|[w [q|]] rest IH]; cbn [check_parents].
      - done.
      - erewrite M_run_Ok by reflexivity. destruct (dmem q (records m)) eqn:E.
        + intros Hc. destruct (IH Hc) as (w' & p' & Hin & ?). exists w', p'. split; [by right|done].
        + intros _. exists w, q. split; [left|]. rewrite <- known_dmem. congruence.
      - erewrite M_run_Ok by reflexivity. intros Hc. destruct (IH Hc) as (w' & p' & Hin & ?).
        exists w', p'. split; [by right|done]. }
  destruct (Z.lt_ge_cases (max_branches m) (active_branch_count m + Z.of_nat (length entries))) as [Hcap|Hcap].
  { unfold submit_many. erewrite M_run_Ok by exact Hc. erewrite M_run_Ok by reflexivity.
    replace (max_branches m <? _) with true by (symmetry; apply Z.ltb_lt; exact Hcap).
    cbn. auto. }
  rewrite submit_many_run by done.
  destruct (recs_from_facts (next_serial m) entries) as (Hlen & Hids & Hnd & Hat).
  split_and!.
  - by apply submitted_ok.
  - done.
  - by rewrite length_map.
  - intros b (r & -> & Hin)%list_elem_of_fmap. by eapply new_ids_unknown.
  - apply submitted_active.
  - rewrite submitted_active, submitted_max. exact Hcap.
  - intros i w p He. destruct (Hat i w p He) as (b & Hb).
    assert (Hin : new_record b w p ∈ recs_from (next_serial m) entries) by (by eapply list_elem_of_lookup_2).
    exists b. eexists. rewrite list_lookup_fmap, Hb. split; [done|].
    rewrite submitted_rec. pose proof (new_ids_unknown m entries _ Hok Hin) as Hunk. cbn in Hunk.
    destruct (rec_of b m) eqn:E; [by destruct Hunk; eexists|].
    pose proof (find_new_record _ _ _ Hin) as Hf. cbn in Hf. rewrite Hf. cbn.
    split; [reflexivity|]. split_and!; try done. intros q ->.
    destruct (Hp w q) as [pr Hpr]; [by eapply list_elem_of_lookup_2|].
    eexists. rewrite submitted_rec, Hpr. split; [reflexivity|]. cbn. apply elem_of_app. right.
    apply list_elem_of_fmap. exists (new_record b w (Some q)). split; [done|].
    apply list_elem_of_In, filter_In. split; [by apply list_elem_of_In|].
    unfold has_parent. cbn. apply String.eqb_refl.
  - intros b r Hr. eexists. rewrite submitted_rec, Hr. reflexivity.
Qed.

(** * Release *)

(** A record without its links. *)
Definition core (r : BranchRecord) : BranchRecord := set_links None [] r.

Definition is_released (b : string) (m : Manager) : Prop :=
  exists r, rec_of b m = Some r /\ br_state r = BRANCH_STATE_RELEASED.

Lemma is_released_core b m m' :
  core <$> rec_of b m' = core <$> rec_of b m -> is_released b m -> is_released b m'.
Proof.
  intros Hc (r & Hr & Hs). rewrite Hr in Hc. destruct (rec_of b m') as [r'|] eqn:E; [|done].
  exists r'. split; [done|]. injection Hc as _ _ Hst _ _ _ _ _. congruence.
Qed.

(** What removing links may do: cores stay, child lists shrink, parent links
    are cleared, and every branch that is not released is reached from where
    it was. *)
Record thinned (m m' : Manager) : Prop := {
  th_keys : dkeys (records m') = dkeys (records m);
  th_frame : frame_of m' = frame_of m;
  th_core : forall x, core <$> rec_of x m' = core <$> rec_of x m;
  th_links : forall x r', rec_of x m' = Some r' -> exists r, rec_of x m = Some r /\
    (forall c, c ∈ child_branch_ids r' -> c ∈ child_branch_ids r) /\
    (parent_branch_id r' = parent_branch_id r \/ parent_branch_id r' = None);
  th_reach : forall a b, ¬ is_released b m -> rtc (child_of m) a b -> rtc (child_of m') a b;
}.

Lemma thinned_refl m : thinned m m.
Proof. constructor; try done. intros x r Hr. exists r. auto. Qed.

Lemma thinned_trans m1 m2 m3 : thinned m1 m2 -> thinned m2 m3 -> thinned m1 m3.
Proof.
  intros [K1 F1 C1 L1 R1] [K2 F2 C2 L2 R2]. constructor; try congruence.
  - intros x r3 H3. destruct (L2 x r3 H3) as (r2 & H2 & Hc2 & Hp2).
    destruct (L1 x r2 H2) as (r1 & H1 & Hc1 & Hp1). exists r1. split_and!; [done|auto|].
    destruct Hp2 as [->| ->]; auto.
  - intros a b Hb Hr. apply R2; [|by apply R1]. intros Hrel. apply Hb.
    eapply is_released_core; [|exact Hrel]. by rewrite C1.
Qed.

Lemma thinned_reach_back m m' a b : thinned m m' -> rtc (child_of m') a b -> rtc (child_of m) a b.
Proof.
  intros Ht. apply rtc_subrel. intros x y (r' & Hr' & Hy).
  destruct (th_links _ _ Ht x r' Hr') as (r & Hr & Hc & _). exists r. auto.
Qed.

(** Dropping links to released leaves. *)
Lemma thinned_update m b p' l' :
  (forall r, rec_of b m = Some r ->
     (p' r = parent_branch_id r \/ p' r = None) /\
     (forall c, c ∈ l' r -> c ∈ child_branch_ids r) /\
     (forall c, c ∈ child_branch_ids r -> c ∉ l' r -> is_Some (rec_of c m) ->
        is_released c m /\ forall y, ¬ child_of m c y)) ->
  (forall r c, rec_of b m = Some r -> c ∈ child_branch_ids r -> is_Some (rec_of c m)) ->
  thinned m (update_record b (fun r => set_links (p' r) (l' r) r) m).
Proof.
  intros H Hk. constructor.
  - apply update_keys.
  - apply frame_update.
  - intros x. rewrite rec_of_update. destruct (String.eqb_spec x b) as [->|]; [|done].
    by destruct (rec_of b m).
  - intros x r'. rewrite rec_of_update. destruct (String.eqb_spec x b) as [->|].
    + intros (r & Hr & ->)%fmap_Some. exists r. split; [done|]. cbn. destruct (H r Hr) as (? & ? & _). auto.
    + intros Hr. exists r'. auto.
  - intros a y Hy Hr. induction Hr as [a|a x y Hax Hxy IH]; [apply rtc_refl|].
    destruct Hax as (r & Hr & Hx). eapply rtc_l; [|by apply IH]. unfold child_of. setoid_rewrite rec_of_update.
    destruct (String.eqb_spec a b) as [->|]; [|by exists r].
    rewrite Hr. eexists. split; [reflexivity|]. cbn. destruct (H r Hr) as (_ & _ & Hdrop).
    destruct (decide (x ∈ l' r)) as [|Hn]; [done|]. exfalso.
    destruct (Hdrop x Hx Hn) as [Hrel Hleaf]; [by eapply Hk|].
    inversion Hxy as [|? z ? Hxz]; subst; [done|]. by apply (Hleaf z).
Qed.

Lemma list_remove_first_in x y l : y ∈ list_remove_first x l -> y ∈ l.
Proof.
  induction l as [|z l IH]; cbn; [done|]. destruct (String.eqb x z); [by right|].
  intros [->|]%elem_of_cons; [left|right; auto].
Qed.
Lemma list_remove_first_out x y l : y ∈ l -> y ∉ list_remove_first x l -> y = x.
Proof.
  induction l as [|z l IH]; cbn; [by intros ?%elem_of_nil|]. destruct (String.eqb_spec x z) as [->|].
  - by intros [->|]%elem_of_cons.
  - intros [->|]%elem_of_cons; intros Hn; [destruct Hn; left|]. apply IH; [done|]. intros ?. destruct Hn. by right.
Qed.

Lemma thinned_mgr_ok m m' : mgr_ok m -> thinned m m' -> mgr_ok m'.
Proof.
  intros Hok [Hk Hf Hc Hl _]. unfold frame_of, set_records in Hf. injection Hf as F1 F2 F3 F4 F5 F6 F7 F8 F9.
  assert (Hkn : forall x, known x m -> known x m').
  { intros x ?%known_dmem%dmem_keys. apply known_dmem, dmem_keys. by rewrite Hk. }
  constructor.
  - rewrite F8. apply ok_open, Hok.
  - rewrite Hk. apply ok_nodup, Hok.
  - rewrite F3. apply ok_serial_nonneg, Hok.
  - intros b r' Hr'. destruct (Hl b r' Hr') as (r & Hr & Hch & Hp). specialize (Hc b).
    rewrite Hr, Hr' in Hc. destruct (ok_records _ Hok b r Hr) as [H1 H2 H3 H4 H5 H6 H7].
    destruct r, r'. cbn in *. unfold core, set_links in Hc. cbn in Hc. injection Hc as <- <- <- <- <- <- <- <-.
    constructor; cbn; try done.
    + by rewrite F3.
    + intros c Hin. by apply Hkn, H3, Hch.
    + intros p ->. destruct Hp as [<-|]; [|done]. by apply Hkn, H4.
    + intros Hrun. destruct (H6 Hrun) as (w & g & ? & ?). exists w, g. unfold pool_generation. by rewrite F6.
    + intros Hrel. specialize (H7 Hrel). injection H7 as H71 H72 H73 H74 H75 H76.
      unfold clear_execution. cbn. congruence.
Qed.

Lemma prune_loop_thinned fuel : forall b m, mgr_ok m -> thinned m (prune_loop fuel b m).
Proof.
  induction fuel as [|fuel IH]; intros b m Hok; [apply thinned_refl|]. cbn [prune_loop].
  destruct (dget b (records m)) as [r|] eqn:Er; [|apply thinned_refl].
  pose proof (ok_records _ Hok b r Er) as Hrec.
  destruct (br_state r) eqn:Es; try apply thinned_refl.
  destruct (child_branch_ids r) as [|? ?] eqn:Ec; [|apply thinned_refl].
  destruct (parent_branch_id r) as [p|] eqn:Ep; [|apply thinned_refl].
  destruct (ok_parent _ _ _ Hrec p Ep) as [pr Hpr]. unfold rec_of in Hpr. rewrite Hpr.
  assert (Hkids : forall m1, mgr_ok m1 -> forall x r c, rec_of x m1 = Some r ->
      c ∈ child_branch_ids r -> is_Some (rec_of c m1)).
  { intros m1 Hok1 x r1 c Hr1 Hc. by eapply ok_children; [apply (ok_records _ Hok1 x r1 Hr1)|]. }
  set (m1 := update_record p _ m).
  assert (H1 : thinned m m1).
  { apply (thinned_update m p parent_branch_id (fun pr => list_remove_first b (child_branch_ids pr)));
      [|by apply Hkids].
    intros r1 Hr1. split_and!; [by left|by intros c ?%list_remove_first_in|].
    intros c Hc Hn _. rewrite (list_remove_first_out b c (child_branch_ids r1) Hc Hn).
    split; [by exists r|]. intros y (r2 & Hr2 & Hy). unfold rec_of in Hr2. rewrite Er in Hr2.
    injection Hr2 as <-. rewrite Ec in Hy. by apply elem_of_nil in Hy. }
  pose proof (thinned_mgr_ok _ _ Hok H1) as Hok1.
  assert (H2 : thinned m1 (update_record b (fun r => set_links None (child_branch_ids r) r) m1)).
  { apply (thinned_update m1 b (fun _ => None) child_branch_ids); [|by apply Hkids].
    intros r1 _. split_and!; [by right|done|done]. }
  eapply thinned_trans; [exact H1|]. eapply thinned_trans; [exact H2|].
  apply IH. by eapply thinned_mgr_ok.
Qed.

(** Compacting a released record whose execution state is already cleared
    only removes links. *)
Lemma compact_links_thinned b m :
  mgr_ok m ->
  thinned m (_prune_released_leaf_from_parent b
    (update_record b (fun r => set_links (parent_branch_id r)
       (List.filter (retains_child m) (child_branch_ids r)) r) m)).
Proof.
  intros Hok.
  assert (H1 : thinned m (update_record b (fun r => set_links (parent_branch_id r)
       (List.filter (retains_child m) (child_branch_ids r)) r) m)).
  { apply (thinned_update m b parent_branch_id
      (fun r => List.filter (retains_child m) (child_branch_ids r))).
    - intros r Hr. split_and!; [by left| |].
      + intros c Hc. apply list_elem_of_In, filter_In in Hc as [Hc _]. by apply list_elem_of_In.
      + intros c Hc Hn [rc Hrc]. assert (Hret : retains_child m c = false).
        { apply not_true_iff_false. intros Ht. apply Hn. apply list_elem_of_In, filter_In.
          split; [by apply list_elem_of_In|done]. }
        unfold retains_child in Hret. unfold rec_of in Hrc. rewrite Hrc in Hret.
        apply orb_false_iff in Hret as [Hst Hch].
        apply negb_false_iff, bool_decide_eq_true in Hst. split; [by exists rc|].
        intros y (r2 & Hr2 & Hy). unfold rec_of in Hr2. rewrite Hrc in Hr2. injection Hr2 as <-.
        destruct (child_branch_ids rc); [by apply elem_of_nil in Hy|done].
    - intros r c Hr Hc. by eapply ok_children; [apply (ok_records _ Hok b r Hr)|]. }
  eapply thinned_trans; [exact H1|]. apply prune_loop_thinned. by eapply thinned_mgr_ok.
Qed.

(** What releasing [ids] does. *)
Record released_many (ids : list string) (m m' : Manager) : Prop := {
  rm_ok : mgr_ok m';
  rm_keys : dkeys (records m') = dkeys (records m);
  rm_state : forall b, b ∈ ids -> is_released b m';
  rm_other : forall b, b ∉ ids -> core <$> rec_of b m' = core <$> rec_of b m;
  rm_mono : forall b, is_released b m -> is_released b m';
  rm_reach : forall a b, ¬ is_released b m' -> rtc (child_of m) a b ↔ rtc (child_of m') a b;
  rm_child : forall a c, child_of m' a c -> child_of m a c;
}.

Lemma released_many_trans b ids m1 m2 m3 :
  released_many [b] m1 m2 -> released_many ids m2 m3 -> released_many (b :: ids) m1 m3.
Proof.
  intros [O1 K1 S1 C1 M1 R1 H1] [O2 K2 S2 C2 M2 R2 H2]. constructor; try done; try congruence; auto.
  - intros x [->|Hx]%elem_of_cons; [apply M2, S1; left|by apply S2].
  - intros x Hx. apply not_elem_of_cons in Hx as [Hne Hx]. rewrite C2 by done. apply C1. set_solver.
  - intros a x Hx. rewrite R1, R2; [done|done|]. intros Hrel. by apply Hx, M2.
Qed.

Lemma drop_lease_facts r m :
  let m' := drop_established_lease r m in
  records m' = records m /\ next_serial m' = next_serial m /\ pool_closed m' = pool_closed m /\
  pool_workers m' = pool_workers m.
Proof.
  unfold drop_established_lease. destruct (br_result r) as [res|]; [destruct (established_lease res)|]; done.
Qed.

Lemma mgr_ok_same m m' :
  records m' = records m -> next_serial m' = next_serial m -> pool_closed m' = pool_closed m ->
  pool_workers m' = pool_workers m -> mgr_ok m -> mgr_ok m'.
Proof.
  intros Hr Hs Hc Hw [H1 H2 H3 H4]. constructor; try congruence.
  intros b r Hb. unfold rec_of in *. rewrite Hr in Hb. destruct (H4 b r Hb) as [K1 K2 K3 K4 K5 K6 K7].
  constructor; try done.
  - by rewrite Hs.
  - intros c Hin. unfold known, rec_of. rewrite Hr. by apply K3.
  - intros p Hp. unfold known, rec_of. rewrite Hr. by apply K4.
  - unfold pool_generation. by rewrite Hw.
Qed.

(** The step that turns a record into a tombstone. *)
Record tombstoned (b : string) (m m' : Manager) : Prop := {
  tb_keys : dkeys (records m') = dkeys (records m);
  tb_frame : frame_of m' = frame_of m;
  tb_self : forall r, rec_of b m = Some r ->
    rec_of b m' = Some (clear_execution (set_state BRANCH_STATE_RELEASED r));
  tb_other : forall x, x ≠ b -> rec_of x m' = rec_of x m;
}.

Lemma tombstone_update b m f :
  (forall r, rec_of b m = Some r -> f r = clear_execution (set_state BRANCH_STATE_RELEASED r)) ->
  tombstoned b m (update_record b f m).
Proof.
  intros H. constructor.
  - apply update_keys.
  - apply frame_update.
  - intros r Hr. rewrite rec_of_update, String.eqb_refl, Hr. cbn. by rewrite H.
  - intros x Hx. rewrite rec_of_update. by apply String.eqb_neq in Hx as ->.
Qed.

Lemma update_update b f g m : update_record b f (update_record b g m) = update_record b (fun r => f (g r)) m.
Proof.
  unfold update_record. destruct (dget b (records m)) as [r|] eqn:E; [|by rewrite E].
  cbn [records set_records]. rewrite dget_dset, String.eqb_refl. unfold set_records. cbn. f_equal.
  clear E. induction (records m) as [|[k v] l IH]; cbn.
  - by rewrite String.eqb_refl.
  - destruct (String.eqb b k) eqn:Ek; cbn; rewrite Ek; [done|by rewrite IH].
Qed.

Lemma tombstoned_released b m m' :
  mgr_ok m -> known b m -> tombstoned b m m' -> released_many [b] m m'.
Proof.
  intros Hok [r Hr] [Hk Hf Hs Ho]. unfold frame_of, set_records in Hf. injection Hf as F1 F2 F3 F4 F5 F6 F7 F8 F9.
  assert (Hkn : forall x, known x m -> known x m').
  { intros x ?%known_dmem%dmem_keys. apply known_dmem, dmem_keys. by rewrite Hk. }
  assert (Hrel : is_released b m') by (eexists; split; [by apply Hs|done]).
  assert (Hchild : forall x y, child_of m x y ↔ child_of m' x y).
  { intros x y. unfold child_of. destruct (decide (x = b)) as [->|]; [|by rewrite Ho].
    rewrite (Hs r Hr), Hr. split; intros (r0 & [= <-] & Hy); eexists; (split; [reflexivity|exact Hy]). }
  assert (Hrec : forall x rx, record_ok m x rx -> record_ok m' x rx).
  { intros x rx [H1 H2 H3 H4 H5 H6 H7]. constructor; try done; [by rewrite F3|auto|auto|].
    unfold pool_generation. by rewrite F6. }
  constructor; try done.
  - constructor.
    + rewrite F8. apply ok_open, Hok.
    + rewrite Hk. apply ok_nodup, Hok.
    + rewrite F3. apply ok_serial_nonneg, Hok.
    + intros x rx Hx. destruct (decide (x = b)) as [->|Hne].
      * rewrite (Hs r Hr) in Hx. injection Hx as <-. destruct (Hrec b r (ok_records _ Hok b r Hr)).
        constructor; cbn; done.
      * rewrite Ho in Hx by done. by apply Hrec, (ok_records _ Hok).
  - by intros x ->%list_elem_of_singleton.
  - intros x Hx%not_elem_of_cons. destruct Hx as [Hne _]. by rewrite Ho.
  - intros x Hx. destruct (decide (x = b)) as [->|Hne]; [done|]. eapply is_released_core; [|exact Hx].
    by rewrite Ho.
  - intros a x _. split; apply rtc_subrel; intros ? ?; apply Hchild.
  - intros a c. apply Hchild.
Qed.

Lemma thinned_released m m' : mgr_ok m -> thinned m m' -> released_many [] m m'.
Proof.
  intros Hok Ht. constructor.
  - by eapply thinned_mgr_ok.
  - apply th_keys, Ht.
  - by intros b ?%elem_of_nil.
  - intros b _. apply th_core, Ht.
  - intros b Hb. eapply is_released_core; [|exact Hb]. apply th_core, Ht.
  - intros a b Hb. split.
    + apply th_reach; [done|]. intros Hr. apply Hb. eapply is_released_core; [|exact Hr]. apply th_core, Ht.
    + by apply thinned_reach_back.
  - intros a c (r' & Hr' & Hc). destruct (th_links _ _ Ht a r' Hr') as (r & Hr & Hsub & _). exists r. auto.
Qed.

(** The cancellation inside a release changes only the branch itself. *)
Lemma cancelled_then_released b m m1 m2 :
  cancelled_one b m m1 -> known b m -> released_many [b] m1 m2 -> released_many [b] m m2.
Proof.
  intros Hc Hkn [O K S C M R H]. pose proof (cancelled_one_links _ _ _ Hc) as Hl.
  assert (Hchild : forall x y, child_of m x y ↔ child_of m1 x y).
  { intros x y. unfold child_of. specialize (Hl x).
    destruct (rec_of x m1) as [r1|], (rec_of x m) as [r|]; cbn in Hl; try done.
    injection Hl as _ _ Hl. split; intros (r0 & [= <-] & Hy); eexists; (split; [reflexivity|]); congruence. }
  constructor; try done.
  - by rewrite K, (co_keys _ _ _ Hc).
  - intros x Hx. rewrite C by done. rewrite (co_other _ _ _ Hc); [done|]. set_solver.
  - intros x Hx. destruct (decide (x = b)) as [->|Hne]; [apply S; left|]. apply M.
    eapply is_released_core; [|exact Hx]. by rewrite (co_other _ _ _ Hc).
  - intros a x Hx. rewrite <- R by done. split; apply rtc_subrel; intros ? ?; apply Hchild.
  - intros a c Hac. by apply Hchild, H.
Qed.


Lemma compact_tombstone b m m1 :
  mgr_ok m -> known b m -> records m1 = records m -> mgr_ok m1 ->
  forall f, (forall r, rec_of b m = Some r -> f r = set_state BRANCH_STATE_RELEASED r) ->
  released_many [b] m1 (_compact_released_record b (update_record b f m1)).
Proof.
  intros Hok Hkn Hrec Hok1 f Hf. unfold _compact_released_record. rewrite (update_update b clear_execution f).
  assert (Hkn1 : known b m1) by (unfold known, rec_of in *; by rewrite Hrec).
  assert (Htb : tombstoned b m1 (update_record b (fun r => clear_execution (f r)) m1)).
  { apply tombstone_update. intros r Hr. rewrite Hf; [done|]. unfold rec_of in *. by rewrite <- Hrec. }
  pose proof (tombstoned_released _ _ _ Hok1 Hkn1 Htb) as Hrel.
  set (m2 := update_record b (fun r => clear_execution (f r)) m1) in *.
  apply (released_many_trans b [] m1 m2); [done|]. apply thinned_released; [apply Hrel|].
  apply compact_links_thinned, Hrel.
Qed.

Lemma update_id b m : update_record b (fun r => r) m = m.
Proof.
  unfold update_record. destruct (dget b (records m)) as [r|] eqn:E; [|done].
  destruct m. cbn in *. unfold set_records. cbn. f_equal.
  induction records0 as [|[k v] l IH]; [done|]. cbn in *. destruct (String.eqb b k); [congruence|].
  by rewrite IH.
Qed.

Lemma release_one_ok b m :
  mgr_ok m -> known b m ->
  exists m', release_one b m = (Ok BRANCH_STATE_RELEASED, m') /\ released_many [b] m m'.
Proof.
  intros Hok Hkn. pose proof Hkn as [r Hr]. unfold release_one.
  erewrite M_run_Ok by (by apply find_record_known).
  assert (Hrun : exists m1 m2, (if bool_decide (br_state r = BRANCH_STATE_RELEASED) then mret tt
       else
         _ ← (if is_active (br_state r) || negb (is_terminal_state (br_state r))
              then _ ← _cancel_one b; mret tt
              else modS (drop_established_lease r));
         modS (update_record b (set_state BRANCH_STATE_RELEASED))) m = (Ok tt, m1) /\
     m2 = _compact_released_record b m1 /\ released_many [b] m m2).
  { destruct (bool_decide_reflect (br_state r = BRANCH_STATE_RELEASED)) as [Hrel|Hrel].
    - exists m. eexists. split_and!; [reflexivity|reflexivity|]. rewrite <- (update_id b m) at 2.
      apply (compact_tombstone b m m); try done. intros r0 Hr0. rewrite Hr0 in Hr. injection Hr as ->.
      destruct r. cbn in *. by subst.
    - destruct (is_active (br_state r) || negb (is_terminal_state (br_state r))) eqn:Ea.
      + destruct (cancel_one_ok b r m Hok Hr) as (st & m1 & Hrun & Hc & _).
        eexists _, _. split_and!; [|reflexivity|].
        { erewrite M_run_Ok; [reflexivity|]. erewrite M_run_Ok by exact Hrun. reflexivity. }
        eapply cancelled_then_released; [exact Hc|done|].
        pose proof (cancelled_one_mgr_ok _ _ _ Hok Hc) as Hok1.
        apply (compact_tombstone b m1 m1); try done.
        apply known_dmem, dmem_keys. rewrite (co_keys _ _ _ Hc). by apply dmem_keys, known_dmem.
      + destruct (drop_lease_facts r m) as (F1 & F2 & F3 & F4).
        eexists _, _. split_and!; [|reflexivity|].
        { erewrite M_run_Ok by reflexivity. reflexivity. }
        assert (Hok1 : mgr_ok (drop_established_lease r m)) by (by eapply mgr_ok_same).
        pose proof (compact_tombstone b m (drop_established_lease r m) Hok Hkn F1 Hok1
          (set_state BRANCH_STATE_RELEASED) (fun _ _ => eq_refl)) as [O K S C M R H].
        assert (Hchild : forall x y, child_of (drop_established_lease r m) x y ↔ child_of m x y).
        { intros x y. unfold child_of, rec_of. by rewrite F1. }
        constructor; try done.
        * by rewrite K, F1.
        * intros x Hx. rewrite C by done. unfold rec_of. by rewrite F1.
        * intros x (rx & Hx & ?). apply M. exists rx. unfold rec_of in *. by rewrite F1.
        * intros a x Hx. rewrite <- R by done. split; apply rtc_subrel; intros ? ?; apply Hchild.
        * intros a c Hac. by apply Hchild, H. }
  destruct Hrun as (m1 & m2 & Hrun & -> & Hrm). exists (_compact_released_record b m1). split; [|done].
  erewrite M_run_Ok by exact Hrun. erewrite M_run_Ok by reflexivity.
  destruct (rm_state _ _ _ Hrm b) as (r' & Hr' & Hs); [left|].
  erewrite M_run_Ok by (apply find_record_known, Hr'). cbn. by rewrite Hs.
Qed.

Lemma release_loop_ok ids : forall m statuses,
  mgr_ok m -> (forall b, b ∈ ids -> known b m) ->
  exists m' st', release_loop ids statuses m = (Ok st', m') /\ released_many ids m m' /\
    forall b, dget b st' = if str_in b ids then Some BRANCH_STATE_RELEASED else dget b statuses.
Proof.
  induction ids as [|b ids IH]; intros m statuses Hok Hk; cbn [release_loop].
  - eexists _, _. split_and!; [reflexivity|by apply thinned_released, thinned_refl|done].
  - destruct (release_one_ok b m Hok) as (m1 & Hrun & Hrm); [apply Hk; left|].
    destruct (IH m1 (dset b BRANCH_STATE_RELEASED statuses)) as (m2 & st & Hrun2 & Hrm2 & Hst).
    + apply Hrm.
    + intros x Hx. apply known_dmem, dmem_keys. rewrite (rm_keys _ _ _ Hrm). apply dmem_keys, known_dmem, Hk.
      by right.
    + exists m2, st. split_and!.
      * erewrite M_run_Ok by exact Hrun. exact Hrun2.
      * by eapply released_many_trans.
      * intros x. rewrite Hst, dget_dset. unfold str_in. cbn [existsb]. rewrite orb_comm.
        by destruct (existsb (String.eqb x) ids), (String.eqb x b).
Qed.

(** releasing known branches never fails: each becomes a tombstone that
    reports released, holds neither work item nor result and whose result can
    no longer be read; every other branch keeps everything but links; and the
    links pruned on the way never cut a path to a branch that is not released,
    so a later cancel of an ancestor still cascades to it. *)
Theorem release_branches_tombstones m ids :
  mgr_ok m -> (forall b, b ∈ ids -> known b m) ->
  exists st m', release_branches ids m = (Ok st, m') /\ mgr_ok m' /\
    (forall b, dget b st = if str_in b ids then Some BRANCH_STATE_RELEASED else None) /\
    (forall b, b ∈ ids ->
       (exists r, rec_of b m' = Some r /\ br_state r = BRANCH_STATE_RELEASED /\
          br_work_item r = None /\ br_result r = None) /\
       get_branch_result b m' = (Raise (PyExc "BranchReleasedError"
         ("Branch " +:+ b +:+ "'s result was released and must not be reused")), m')) /\
    (forall b, b ∉ ids -> core <$> rec_of b m' = core <$> rec_of b m) /\
    (forall a b, ¬ is_released b m' -> rtc (child_of m) a b ↔ rtc (child_of m') a b).
Proof.
  intros Hok Hk. destruct (release_loop_ok ids m [] Hok Hk) as (m' & st & Hrun & [O K S C _ R _] & Hst).
  exists st, m'. split_and!; try done. intros b Hb. destruct (S b Hb) as (r & Hr & Hs). split.
  - exists r. pose proof (ok_tombstone _ _ _ (ok_records _ O b r Hr) Hs) as Ht.
    split_and!; [done|done|exact (eq_sym (f_equal br_work_item Ht))|exact (eq_sym (f_equal br_result Ht))].
  - unfold get_branch_result. erewrite M_run_Ok by (by apply find_record_known). by rewrite Hs.
Qed.

(** closing the manager cancels and releases every branch it knows, without
    an error and whatever their states. *)
Theorem close_all_releases m :
  mgr_ok m ->
  exists m', close_all m = (Ok tt, m') /\ mgr_ok m' /\ dkeys (records m') = dkeys (records m) /\
    forall b r, rec_of b m' = Some r -> br_state r = BRANCH_STATE_RELEASED /\ br_work_item r = None.
Proof.
  intros Hok. unfold close_all. erewrite M_run_Ok by reflexivity.
  destruct (dkeys (records m)) as [|b0 bs] eqn:Ek.
  { exists m. split_and!; try done. intros b r Hr. assert (Hin : b ∈ dkeys (records m)) by (apply dmem_keys, known_dmem; by exists r).
    rewrite Ek in Hin. by apply elem_of_nil in Hin. }
  rewrite <- Ek. assert (Hk : forall b, b ∈ dkeys (records m) -> known b m)
    by (intros b Hb; by apply known_dmem, dmem_keys).
  destruct (cancel_branches_run m (dkeys (records m)) Hok Hk) as (v & m1 & Hrun & Hca).
  destruct (release_loop_ok (dkeys (records m)) m1 []) as (m2 & st & Hrun2 & [O K S _ _ _ _] & _).
  { apply Hca. }
  { intros b Hb. apply known_dmem, dmem_keys. by rewrite (ca_keys _ _ _ _ Hca). }
  exists m2. split_and!.
  - erewrite M_run_Ok by exact Hrun. unfold release_branches. erewrite M_run_Ok by exact Hrun2. reflexivity.
  - done.
  - by rewrite K, (ca_keys _ _ _ _ Hca).
  - intros b r Hr. assert (Hb : b ∈ dkeys (records m)).
    { rewrite <- (ca_keys _ _ _ _ Hca), <- K. apply dmem_keys, known_dmem. by exists r. }
    destruct (S b Hb) as (r' & Hr' & Hs). assert (r' = r) as -> by congruence. split; [done|].
    pose proof (ok_tombstone _ _ _ (ok_records _ O b r Hr) Hs) as Ht.
    exact (eq_sym (f_equal br_work_item Ht)).
Qed.

(** A manager of one worker with no branch yet. *)
Definition empty_manager : Manager :=
  {| max_branches := 4; records := []; request_id_to_branch_id := []; next_serial := 0;
     next_bootstrap_index := 0; lease_registry := ∅; pool_workers := [(0, 1)];
     pool_next_request_id := 0; pool_closed := false; pool_sent := [] |}.

Lemma empty_manager_ok : mgr_ok empty_manager.
Proof. constructor; done || constructor. Qed.

(** It with a branch and two children. *)
Definition family : Manager :=
  submitted [(lease_item "b" 0, Some "branch-1"); (lease_item "c" 0, Some "branch-1")]%string
    (submitted [(lease_item "a" 0, None)] empty_manager).

Lemma family_ok : mgr_ok family.
Proof.
  apply submitted_ok; [apply submitted_ok; [apply empty_manager_ok|]|].
  - intros w p Hin. by apply list_elem_of_singleton in Hin.
  - intros w p Hin. exists (new_record "branch-1" (lease_item "a" 0) None).
    repeat (apply elem_of_cons in Hin as [[= _ ->]|Hin]; [reflexivity|]). by apply elem_of_nil in Hin.
Qed.


Lemma in_family b : str_in b ["branch-1"; "branch-2"; "branch-3"]%string = true -> known b family.
Proof. intros H. apply known_dmem, dmem_keys, str_in_elem. exact H. Qed.


Lemma release_branches_tombstones_witness :
  exists st m', release_branches ["branch-2"; "branch-1"]%string family = (Ok st, m') /\
    dget "branch-1" st = Some BRANCH_STATE_RELEASED.
Proof.
  destruct (release_branches_tombstones family ["branch-2"; "branch-1"]%string) as (st & m' & Hrun & _ & Hst & _).
  - exact family_ok.
  - intros b Hb. apply in_family. repeat (apply elem_of_cons in Hb as [->|Hb]; [reflexivity|]).
    by apply elem_of_nil in Hb.
  - exists st, m'. split; [exact Hrun|]. by rewrite Hst.
Defined.

Lemma close_all_releases_witness :
  exists m', close_all family = (Ok tt, m') /\ mgr_ok m'.
Proof.
  destruct (close_all_releases family family_ok) as (m' & Hrun & Hok & _).
  exists m'. split; [exact Hrun|exact Hok].
Defined.

(** Three active branches and a cap of four: two more do not fit, one does. *)
Lemma submit_many_atomic_witness :
  (submit_many [(lease_item "d" 0, None); (lease_item "e" 0, None)]%string family).2 = family /\
  exists ids m', submit_many [(lease_item "d" 0, Some "branch-3")]%string family = (Ok ids, m') /\ mgr_ok m'.
Proof.
  split.
  - exact (proj1 (submit_many_atomic family [(lease_item "d" 0, None); (lease_item "e" 0, None)]%string family_ok)).
  - pose proof (submit_many_atomic family [(lease_item "d" 0, Some "branch-3")]%string family_ok) as H.
    assert (Hok : match (submit_many [(lease_item "d" 0, Some "branch-3")]%string family).1 with
                  | Ok _ => true | Raise _ => false end = true) by (vm_compute; reflexivity).
    destruct (submit_many _ family) as [[ids|e] m']; [|discriminate Hok].
    exists ids, m'. split; [reflexivity|exact (proj1 H)].
Defined.
