(* ===== verification/BranchPoll.v ===== *)
(** The correctness of [BranchManager.poll] (Combat/search/branch_manager.py):
    the selected branches are settled or, after an exception, released, and no
    other branch is touched. *)

From S2P Require Export BranchManager.

(** * What a poll may do to the manager at any moment *)

(** Changes outside the records: the lease table, the request map, the pool's
    counters; workers never disappear. *)
Record same_records (m m' : Manager) : Prop := {
  sr_records : records m' = records m;
  sr_serial : next_serial m' = next_serial m;
  sr_closed : pool_closed m' = pool_closed m;
  sr_workers : forall w, is_Some (pool_generation w m) -> is_Some (pool_generation w m');
  sr_request : pool_next_request_id m <= pool_next_request_id m';
}.

Lemma same_records_refl m : same_records m m.
Proof. constructor; done. Qed.
Lemma same_records_trans m1 m2 m3 : same_records m1 m2 -> same_records m2 m3 -> same_records m1 m3.
Proof. intros [] []. constructor; [congruence..|auto|lia]. Qed.

Lemma rec_of_same m m' b : same_records m m' -> rec_of b m' = rec_of b m.
Proof. intros [H _ _ _ _]. unfold rec_of. by rewrite H. Qed.

(** Well-formed, with the identities and links the poll began with, and only
    the selected branches changed. *)
Record contained (ids : list string) (m0 m : Manager) : Prop := {
  cn_ok : mgr_ok m;
  cn_keys : dkeys (records m) = dkeys (records m0);
  cn_links : forall b, links_of <$> rec_of b m = links_of <$> rec_of b m0;
  cn_other : forall b, b ∉ ids -> rec_of b m = rec_of b m0;
}.

Lemma contained_refl ids m : mgr_ok m -> contained ids m m.
Proof. intros. by constructor. Qed.

Lemma record_ok_same m m' b r : same_records m m' -> record_ok m b r -> record_ok m' b r.
Proof.
  intros Hs [H1 H2 H3 H4 H5 H6 H7]. constructor; try done.
  - by rewrite (sr_serial _ _ Hs).
  - intros c Hc. unfold known. rewrite (rec_of_same _ _ _ Hs). by apply H3.
  - intros p Hp. unfold known. rewrite (rec_of_same _ _ _ Hs). by apply H4.
  - intros Hr. destruct (H6 Hr) as (w & g & Hw & Hg).
    destruct (sr_workers _ _ Hs w) as [g' Hg']; [by eexists|]. by exists w, g'.
Qed.

Lemma same_records_contained ids m0 m m' : same_records m m' -> contained ids m0 m -> contained ids m0 m'.
Proof.
  intros Hs [O K L T]. constructor.
  - constructor.
    + rewrite (sr_closed _ _ Hs). apply ok_open, O.
    + rewrite (sr_records _ _ Hs). apply ok_nodup, O.
    + rewrite (sr_serial _ _ Hs). apply ok_serial_nonneg, O.
    + intros b r. rewrite (rec_of_same _ _ _ Hs). intros Hr.
      eapply record_ok_same; [exact Hs|by apply (ok_records _ O)].
  - by rewrite (sr_records _ _ Hs).
  - intros b. by rewrite (rec_of_same _ _ _ Hs).
  - intros b Hb. rewrite (rec_of_same _ _ _ Hs). by apply T.
Qed.

(** A record of a selected branch may be replaced by any well-formed one with
    the same links. *)
Lemma contained_update ids m0 m b r f :
  contained ids m0 m -> b ∈ ids -> rec_of b m = Some r -> links_of (f r) = links_of r ->
  record_ok m b (f r) -> contained ids m0 (update_record b f m).
Proof.
  intros [O K L T] Hb Hr Hl Hok.
  assert (Hlinks : forall x, links_of <$> rec_of x (update_record b f m) = links_of <$> rec_of x m).
  { intros x. rewrite rec_of_update. destruct (String.eqb_spec x b) as [->|]; [|done].
    rewrite Hr. cbn. by rewrite Hl. }
  pose proof (frame_update b f m) as Hfr. unfold frame_of, set_records in Hfr. injection Hfr as F1 F2 F3 F4 F5 F6 F7 F8 F9.
  assert (Hrec : forall x rx, record_ok m x rx -> record_ok (update_record b f m) x rx).
  { intros x rx [H1 H2 H3 H4 H5 H6 H7]. constructor; try done.
    - by rewrite F3.
    - intros c Hc. eapply known_links; [exact Hlinks|by apply H3].
    - intros p Hp. eapply known_links; [exact Hlinks|by apply H4].
    - unfold pool_generation. by rewrite F6. }
  constructor.
  - constructor.
    + rewrite F8. apply ok_open, O.
    + rewrite update_keys. apply ok_nodup, O.
    + rewrite F3. apply ok_serial_nonneg, O.
    + intros x rx. rewrite rec_of_update. destruct (String.eqb_spec x b) as [->|].
      * rewrite Hr. intros [= <-]. by apply Hrec.
      * intros Hx. by apply Hrec, (ok_records _ O).
  - by rewrite update_keys.
  - intros x. by rewrite Hlinks.
  - intros x Hx. rewrite rec_of_update. destruct (String.eqb_spec x b) as [->|]; [done|by apply T].
Qed.

(** * The bookkeeping of one poll *)

Lemma zget_zdel {A} k k' (d : list (Z * A)) : zget k (zdel k' d) = if k =? k' then None else zget k d.
Proof.
  unfold zdel. induction d as [|[k0 v0] d IH]; cbn; [by destruct (k =? k')|].
  destruct (Z.eqb_spec k' k0) as [->|]; cbn; rewrite IH.
  - by destruct (k =? k0).
  - destruct (Z.eqb_spec k k0) as [->|]; [|done]. by destruct (Z.eqb_spec k0 k').
Qed.

Lemma zset_keys {A B} k v w (d : list (Z * A)) (e : list (Z * B)) :
  map fst d = map fst e -> map fst (zset k v d) = map fst (zset k w e).
Proof.
  revert e. induction d as [|[k1 v1] d IH]; intros [|[k2 w2] e]; cbn; try done. intros [= -> He].
  destruct (k =? k2); cbn; [by rewrite He|]. by rewrite (IH e).
Qed.
Lemma zdel_keys {A B} k (d : list (Z * A)) (e : list (Z * B)) :
  map fst d = map fst e -> map fst (zdel k d) = map fst (zdel k e).
Proof.
  unfold zdel. revert e. induction d as [|[k1 v1] d IH]; intros [|[k2 w2] e]; cbn; try done. intros [= -> He].
  destruct (k =? k2); cbn; rewrite (IH e) by done; done.
Qed.
Lemma length_zset {A} k v (d : list (Z * A)) : (length (zset k v d) <= S (length d))%nat.
Proof. induction d as [|[k' v'] d IH]; cbn; [lia|]. destruct (k =? k'); cbn; lia. Qed.
Lemma length_zdel {A} k (d : list (Z * A)) : (length (zdel k d) <= length d)%nat.
Proof. unfold zdel. induction d as [|x d IH]; cbn; [lia|]. destruct (negb _); cbn; lia. Qed.
Lemma length_zdel_lt {A} k v (d : list (Z * A)) : zget k d = Some v -> (length (zdel k d) < length d)%nat.
Proof.
  induction d as [|[k' v'] d IH]; cbn; [done|]. pose proof (length_zdel k d) as Hle. unfold zdel in *.
  destruct (k =? k'); cbn; [lia|]. intros H%IH. lia.
Qed.
Lemma Forall_zset {A} (P : Z * A -> Prop) k v d : Forall P d -> P (k, v) -> Forall P (zset k v d).
Proof.
  intros Hd Hkv. induction Hd as [|[k' v'] d Hp Hd IH]; cbn; [by constructor|].
  destruct (Z.eqb_spec k k') as [->|]; by constructor.
Qed.
Lemma Forall_zdel {A} (P : Z * A -> Prop) k d : Forall P d -> Forall P (zdel k d).
Proof. unfold zdel. induction 1; cbn; [done|]. by destruct (negb _); [constructor|]. Qed.

(** The state a result leaves its branch in. *)
Definition finish_state (res : BranchResult) : BranchState :=
  if String.eqb (status res) BRANCH_STATUS_SUCCESS then BRANCH_STATE_COMPLETED else BRANCH_STATE_FAULTED.

(** Each selected branch is waiting, live under exactly one request on exactly
    one worker, or settled with its result; each worker has at most one live
    request. *)
Record book (ids : list string) (m : Manager) (p : PollState) : Prop := {
  bk_where : forall b, b ∈ ids -> b ∈ waiting p \/
    (exists q, zget q (running_by_request_id p) = Some b) \/ dmem b (poll_results p) = true;
  bk_waiting : forall b, b ∈ waiting p -> b ∈ ids /\
    exists r, rec_of b m = Some r /\ br_state r = BRANCH_STATE_QUEUED;
  bk_nodup : NoDup (waiting p);
  bk_running : forall q b, zget q (running_by_request_id p) = Some b -> b ∈ ids /\
    q <= pool_next_request_id m /\
    (exists r, rec_of b m = Some r /\ br_state r = BRANCH_STATE_RUNNING /\ br_request_id r = Some q) /\
    exists wid, zget q (request_worker_ids p) = Some wid /\ zget wid (worker_request_ids p) = Some q;
  bk_workers : forall wid q, zget wid (worker_request_ids p) = Some q ->
    zget q (request_worker_ids p) = Some wid /\ is_Some (zget q (running_by_request_id p));
  bk_results : forall b res, dget b (poll_results p) = Some res -> b ∈ ids /\
    exists r, rec_of b m = Some r /\ br_state r = finish_state res /\ br_result r = Some res;
  bk_deadlines : map fst (worker_deadlines p) = map fst (worker_request_ids p);
}.

Lemma book_same ids m m' p : same_records m m' -> book ids m p -> book ids m' p.
Proof.
  intros Hs [H1 H2 H3 H4 H5 H6 H7]. assert (Hrec : forall b, rec_of b m' = rec_of b m) by (intros; exact (rec_of_same _ _ _ Hs)).
  constructor; try done.
  - intros b Hb. rewrite Hrec. by apply H2.
  - intros q b Hq. rewrite Hrec. destruct (H4 q b Hq) as (? & ? & ? & ?). pose proof (sr_request _ _ Hs).
    split_and!; [done|lia|done|done].
  - intros b res Hb. rewrite Hrec. by apply H6.
Qed.

Lemma list_remove_first_iff b x l :
  NoDup l -> x ∈ list_remove_first b l ↔ x ∈ l /\ x ≠ b.
Proof.
  induction l as [|y l IH]; cbn; [rewrite elem_of_nil; tauto|]. intros [Hni Hnd]%NoDup_cons.
  destruct (String.eqb_spec b y) as [->|]; rewrite elem_of_cons; [|rewrite elem_of_cons, IH by done]; naive_solver.
Qed.
Lemma length_list_remove_first b l : b ∈ l -> S (length (list_remove_first b l)) = length l.
Proof.
  induction l as [|y l IH]; cbn; [by intros ?%elem_of_nil|]. destruct (String.eqb_spec b y) as [->|Hne]; [done|].
  intros [->|Hb]%elem_of_cons; [done|]. cbn. by rewrite IH.
Qed.
Lemma list_remove_first_NoDup b l : NoDup l -> NoDup (list_remove_first b l).
Proof.
  induction l as [|y l IH]; cbn; [done|]. intros [Hni Hnd]%NoDup_cons. destruct (String.eqb b y); [done|].
  apply NoDup_cons. split; [|by apply IH]. by intros ?%list_remove_first_in.
Qed.

(** Dispatching a waiting branch to a free worker under a fresh request. *)
Lemma book_dispatch ids m m' p b r q wid dl :
  book ids m p -> b ∈ waiting p -> zget wid (worker_request_ids p) = None ->
  pool_next_request_id m < q <= pool_next_request_id m' ->
  rec_of b m' = Some r -> br_state r = BRANCH_STATE_RUNNING -> br_request_id r = Some q ->
  (forall x, x ≠ b -> rec_of x m' = rec_of x m) ->
  book ids m' (add_request b q wid dl p).
Proof.
  intros [H1 H2 H3 H4 H5 H6 H7] Hb Hw Hq Hr Hst Hrq Ho.
  destruct (H2 b Hb) as (Hin & r0 & Hr0 & Hst0).
  assert (Hnr : forall q' b', zget q' (running_by_request_id p) = Some b' -> b' ≠ b /\ q' ≠ q).
  { intros q' b' Hq'. destruct (H4 q' b' Hq') as (_ & Hle & (r' & Hr' & Hst' & _) & _).
    split; [intros ->; congruence|lia]. }
  constructor; cbn.
  - intros x Hx. rewrite (list_remove_first_iff b x) by done.
    destruct (decide (x = b)) as [->|Hne].
    + right. left. exists q. by rewrite zget_zset, Z.eqb_refl.
    + destruct (H1 x Hx) as [?|[[q' Hq']|?]]; [by left| |by right; right].
      right. left. exists q'. rewrite zget_zset. destruct (Hnr q' x Hq') as [_ Hneq].
      apply Z.eqb_neq in Hneq. by rewrite Hneq.
  - intros x. rewrite (list_remove_first_iff b x) by done. intros [Hx Hne].
    destruct (H2 x Hx) as (? & ?). rewrite Ho by done. done.
  - by apply list_remove_first_NoDup.
  - intros q' b'. rewrite zget_zset. destruct (Z.eqb_spec q' q) as [->|Hneq].
    + intros [= <-]. split_and!; [done|lia|by exists r|]. exists wid.
      by rewrite !zget_zset, !Z.eqb_refl.
    + intros Hq'. destruct (H4 q' b' Hq') as (? & ? & ? & w' & Hrw & Hwr). destruct (Hnr q' b' Hq') as [Hneb _].
      rewrite Ho by done. split_and!; [done|lia|done|]. exists w'. rewrite !zget_zset.
      apply Z.eqb_neq in Hneq. rewrite Hneq. split; [done|]. destruct (Z.eqb_spec w' wid) as [->|]; [congruence|done].
  - intros w' q'. rewrite !zget_zset. destruct (Z.eqb_spec w' wid) as [->|Hnew].
    + intros [= <-]. rewrite Z.eqb_refl. by split; [|eexists].
    + intros Hq'. destruct (H5 w' q' Hq') as (Hrw & [b' Hb']). destruct (Hnr q' b' Hb') as [_ Hneq].
      apply Z.eqb_neq in Hneq. rewrite Hneq, Hb'. by split; [|eexists].
  - intros x res Hx. destruct (H6 x res Hx) as (? & rx & Hrx & Hsx & ?). split; [done|].
    rewrite Ho; [by exists rx|]. intros ->. rewrite Hr0 in Hrx. injection Hrx as <-. unfold finish_state in Hsx.
    rewrite Hst0 in Hsx. by destruct (String.eqb (status res) BRANCH_STATUS_SUCCESS).
  - by apply zset_keys.
Qed.

(** Settling a live request. *)
Lemma book_settle ids m m' p b r q wid res :
  book ids m p -> zget q (running_by_request_id p) = Some b ->
  zget q (request_worker_ids p) = Some wid ->
  pool_next_request_id m <= pool_next_request_id m' ->
  rec_of b m' = Some r -> br_state r = finish_state res -> br_result r = Some res ->
  (forall x, x ≠ b -> rec_of x m' = rec_of x m) ->
  book ids m' (add_poll_result b res (drop_request q wid p)).
Proof.
  intros [H1 H2 H3 H4 H5 H6 H7] Hq Hw Hle Hr Hst Hres Ho.
  destruct (H4 q b Hq) as (Hin & _ & (r0 & Hr0 & Hst0 & Hrq0) & wid' & Hw1 & Hw2).
  assert (wid' = wid) as -> by congruence.
  assert (Huniq : forall q' b', q' ≠ q -> zget q' (running_by_request_id p) = Some b' -> b' ≠ b).
  { intros q' b' Hne Hq' ->. destruct (H4 q' b Hq') as (_ & _ & (r' & Hr' & _ & Hrq') & _). congruence. }
  assert (Hnotb : forall x, x ∈ waiting p -> x ≠ b).
  { intros x Hx ->. destruct (H2 b Hx) as (_ & r' & Hr' & Hs'). congruence. }
  constructor; cbn.
  - intros x Hx. rewrite dmem_dset. destruct (String.eqb_spec x b) as [->|Hne]; [by right; right|].
    destruct (H1 x Hx) as [?|[[q' Hq']|?]]; [by left| |by right; right].
    right. left. exists q'. rewrite zget_zdel. destruct (Z.eqb_spec q' q) as [->|]; [congruence|done].
  - intros x Hx. rewrite Ho by auto. by apply H2.
  - done.
  - intros q' b'. rewrite zget_zdel. destruct (Z.eqb_spec q' q) as [->|Hne]; [done|]. intros Hq'.
    destruct (H4 q' b' Hq') as (? & ? & ? & w' & Hrw & Hwr). rewrite Ho by (by eapply Huniq).
    split_and!; [done|lia|done|]. exists w'. rewrite !zget_zdel. apply Z.eqb_neq in Hne as Hneb. rewrite Hneb.
    split; [done|]. destruct (Z.eqb_spec w' wid) as [->|]; [congruence|done].
  - intros w' q'. rewrite !zget_zdel. destruct (Z.eqb_spec w' wid) as [->|Hne]; [done|]. intros Hq'.
    destruct (H5 w' q' Hq') as [Hrw Hrun]. destruct (Z.eqb_spec q' q) as [->|]; [congruence|done].
  - intros x resx. rewrite dget_dset. destruct (String.eqb_spec x b) as [->|Hne].
    + intros [= <-]. split; [done|]. by exists r.
    + intros Hx. rewrite Ho by done. by apply H6.
  - by apply zdel_keys.
Qed.

(** * Every step keeps the bookkeeping *)

Lemma pool_submit_posts wid req m :
  posts (pool_submit wid req) m
    (fun q m' => same_records m m' /\ pool_next_request_id m < q <= pool_next_request_id m' /\
       is_Some (pool_generation wid m'))
    (fun m' => m' = m).
Proof.
  unfold pool_submit. eapply posts_step; [reflexivity|]. destruct (pool_closed m) eqn:Ec; [done|].
  destruct (pool_generation wid m) as [g|] eqn:Eg; [|done]. eapply posts_step; [reflexivity|].
  apply posts_ret. split_and!; cbn; [constructor; cbn; [done|done|done|done|lia]|lia|lia|].
  exists g. exact Eg.
Qed.

Lemma route_leases_posts w free m : posts (route_leases w free) m (fun _ m' => same_records m m') (same_records m).
Proof.
  unfold posts, route_leases. destruct (_route_work_item _ _ _ _ _) as [[x|e] reg]; by constructor.
Qed.

(** Selected branches hold their records, so their work items are found. *)
Lemma finish_posts ids m0 m b r res :
  contained ids m0 m -> b ∈ ids -> rec_of b m = Some r -> is_active (br_state r) = true ->
  posts (_finish b res) m
    (fun _ m' => contained ids m0 m' /\
       rec_of b m' = Some (set_state (finish_state res) (set_result (Some res) r)) /\
       (forall x, x ≠ b -> rec_of x m' = rec_of x m) /\
       pool_next_request_id m <= pool_next_request_id m')
    (fun _ => False).
Proof.
  intros Hc Hb Hr Ha. unfold _finish. eapply posts_step; [by apply find_record_known|].
  pose proof (ok_records _ (cn_ok _ _ _ Hc) b r Hr) as Hrec.
  destruct (ok_work _ _ _ Hrec Ha) as [w ->]. eapply posts_step; [reflexivity|]. apply posts_mod.
  fold (finish_state res). set (f := fun r => set_state (finish_state res) (set_result (Some res) r)).
  set (m1 := update_record b f m).
  assert (Hs : same_records m1 (set_leases (apply_result w res (lease_registry m1)) m1)) by done.
  pose proof (frame_update b f m) as Hfr. unfold frame_of, set_records in Hfr.
  split_and!.
  - eapply same_records_contained; [exact Hs|]. eapply contained_update; try done.
    destruct Hrec as [H1 H2 H3 H4 H5 H6 H7]. unfold f, finish_state.
    destruct (String.eqb (status res) BRANCH_STATUS_SUCCESS); constructor; cbn; try done.
  - unfold rec_of. cbn [records set_leases]. fold (rec_of b m1). unfold m1.
    rewrite rec_of_update, String.eqb_refl. by rewrite Hr.
  - intros x Hx. unfold rec_of. cbn [records set_leases]. fold (rec_of x m1). unfold m1.
    rewrite rec_of_update. apply String.eqb_neq in Hx. by rewrite Hx.
  - cbn. pose proof (f_equal pool_next_request_id Hfr) as E. cbn in E. unfold m1. rewrite E. lia.
Qed.

Section Steps.
Context (work_item_for_ipc : WorkItem -> WorkItem) (requires_ipc_serialization : bool)
  (format_exc : pyexn -> string) (submitted_at : Z -> spec_float) (timeout : spec_float).
Context (ids : list string) (m0 : Manager).

Local Notation dispatch_pass := (dispatch_pass work_item_for_ipc requires_ipc_serialization submitted_at timeout).
Local Notation dispatch_available := (dispatch_available work_item_for_ipc requires_ipc_serialization submitted_at timeout).
Local Notation receive := (receive work_item_for_ipc requires_ipc_serialization submitted_at timeout).
Local Notation poll_event := (poll_event work_item_for_ipc requires_ipc_serialization format_exc submitted_at timeout).
Local Notation poll_loop := (poll_loop work_item_for_ipc requires_ipc_serialization format_exc submitted_at timeout).

(** The deadlines are those of requests of this poll. *)
Definition due (p : PollState) : Prop :=
  Forall (fun wd => exists q, wd.2 = f_add (submitted_at q) timeout) (worker_deadlines p).
(** Requests left: one to make and one to answer for a waiting branch. *)
Definition weight (p : PollState) : nat := 2 * length (waiting p) + length (running_by_request_id p).
Definition lighter (p p' : PollState) : Prop := due p' /\ (weight p' <= weight p)%nat.
Lemma lighter_refl p : due p -> lighter p p.
Proof. by split. Qed.
Lemma lighter_trans p1 p2 p3 : lighter p1 p2 -> lighter p2 p3 -> lighter p1 p3.
Proof. unfold lighter. intros [_ ?] [? ?]. split; [done|lia]. Qed.
Lemma lighter_dispatch p b q wid :
  due p -> b ∈ waiting p -> lighter p (add_request b q wid (f_add (submitted_at q) timeout) p).
Proof.
  intros Hd Hb. unfold lighter, due, weight. cbn. split; [apply Forall_zset; [done|by exists q]|].
  pose proof (length_list_remove_first b _ Hb). pose proof (length_zset q b (running_by_request_id p)). lia.
Qed.
Lemma drop_weight p b q wid res :
  due p -> zget q (running_by_request_id p) = Some b ->
  due (add_poll_result b res (drop_request q wid p)) /\
  (weight (add_poll_result b res (drop_request q wid p)) < weight p)%nat.
Proof.
  intros Hd Hq. unfold due, weight. cbn. split; [by apply Forall_zdel|].
  pose proof (length_zdel_lt q b _ Hq). lia.
Qed.

(** What every call of the poll's body guarantees. *)
Definition keeps (p : PollState) (c : M Manager PollState) (m : Manager) : Prop :=
  posts c m (fun p' m' => contained ids m0 m' /\ book ids m' p' /\ lighter p p') (contained ids m0).

Lemma submit_posts b w free m :
  posts (submit_or_restore work_item_for_ipc requires_ipc_serialization b w free) m
    (fun routed m' => same_records m m' /\ routed.1.1.2 ∈ free /\
       pool_next_request_id m < routed.2 <= pool_next_request_id m' /\
       is_Some (pool_generation routed.1.1.2 m'))
    (same_records m).
Proof.
  unfold submit_or_restore. eapply posts_step; [reflexivity|].
  eapply (posts_try _ _ _ _ (same_records m)).
  2:{ intros e m1 [H1 H2 H3 H4 H5]. eapply posts_step; [reflexivity|]. eapply posts_step; [reflexivity|].
      apply posts_raise. by constructor. }
  unfold route_and_submit. eapply posts_bind; [apply route_leases_posts|].
  intros [[request wid] ni] m1 Hm1. cbn [fst snd].
  destruct (existsb (Z.eqb wid) free) eqn:Ef; cbn [negb]; [|by apply posts_raise].
  eapply posts_bind.
  { eapply posts_weaken; [apply pool_submit_posts| |].
    - intros q m2 H. exact H.
    - intros m2 ->. exact Hm1. }
  intros q m2 (Hs & Hq & Hg). apply posts_ret. cbn. split_and!.
  - by eapply same_records_trans.
  - apply existsb_exists in Ef as (x & Hx & ->%Z.eqb_eq). by apply list_elem_of_In.
  - pose proof (sr_request _ _ Hm1). lia.
  - lia.
  - done.
Qed.

Lemma mark_running_ok m b r wid g q mode :
  record_ok m b r -> pool_generation wid m = Some g -> br_state r = BRANCH_STATE_QUEUED ->
  record_ok m b (mark_running wid (Some g) q mode r).
Proof.
  intros [H1 H2 H3 H4 H5 H6 H7] Hg Hst. constructor; cbn; try done.
  - intros _. apply H5. by rewrite Hst.
  - intros _. by exists wid, g.
Qed.

Lemma dispatch_pass_posts free candidates : forall p m,
  contained ids m0 m -> book ids m p -> (forall b, b ∈ candidates -> b ∈ waiting p) ->
  (forall wid, wid ∈ free -> zget wid (worker_request_ids p) = None) -> due p ->
  posts (dispatch_pass candidates free p) m
    (fun r m' => contained ids m0 m' /\ book ids m' r.2 /\ lighter p r.2) (contained ids m0).
Proof.
  induction candidates as [|b rest IH]; intros p m Hc Hbk Hw Hf Hd; cbn [BranchManager.dispatch_pass];
    [by apply posts_ret; split_and!; [| |apply lighter_refl]|].
  assert (Hb : b ∈ waiting p) by (apply Hw; left).
  destruct (bk_waiting _ _ _ Hbk b Hb) as (Hin & r & Hr & Hst).
  eapply posts_step; [by apply find_record_known|]. rewrite bool_decide_eq_true_2 by done. cbn [negb].
  pose proof (ok_records _ (cn_ok _ _ _ Hc) b r Hr) as Hrec.
  destruct (ok_work _ _ _ Hrec) as [w Hwk]; [by rewrite Hst|]. rewrite Hwk.
  eapply posts_step; [reflexivity|]. destruct (waits_for_holder w free m).
  { apply IH; try done. intros x Hx. apply Hw. by right. }
  eapply posts_bind.
  { eapply posts_weaken; [apply submit_posts| |].
    - intros routed m1 H. exact H.
    - intros m1 Hs. by eapply same_records_contained. }
  intros [[[request wid] ni] q] m1 (Hs & Hfree & Hq & g & Hg). cbn [fst snd] in *.
  eapply posts_step; [reflexivity|]. eapply posts_step; [reflexivity|]. eapply posts_step; [reflexivity|].
  apply posts_ret. cbn [snd].
  set (m2 := set_bootstrap_index ni m1).
  assert (Hs2 : same_records m m2) by (eapply same_records_trans; [exact Hs|done]).
  change (pool_generation wid m2) with (pool_generation wid m1). rewrite Hg.
  set (f := mark_running wid (Some g) q (req_execution_mode request)). set (m3 := update_record b f m2).
  assert (Hr2 : rec_of b m2 = Some r) by (by rewrite (rec_of_same _ _ _ Hs2)).
  assert (Hc3 : contained ids m0 m3).
  { eapply contained_update; [by eapply same_records_contained|done|exact Hr2|done|].
    apply mark_running_ok; [by eapply record_ok_same|exact Hg|done]. }
  set (m4 := set_request_map _ m3). assert (Hs4 : same_records m3 m4) by done.
  split; [by eapply same_records_contained|]. split; [|by apply lighter_dispatch]. eapply (book_same _ m3); [done|].
  eapply (book_dispatch ids m m3 p b (f r)); try done.
  - by apply Hf.
  - unfold m3. pose proof (frame_update b f m2) as Hfr. apply (f_equal pool_next_request_id) in Hfr. cbn in Hfr.
    rewrite Hfr. done.
  - unfold m3. by rewrite rec_of_update, String.eqb_refl, Hr2.
  - intros x Hx. unfold m3. rewrite rec_of_update. apply String.eqb_neq in Hx. rewrite Hx.
    by rewrite (rec_of_same _ _ _ Hs2).
Qed.

Lemma dispatch_available_keeps fuel : forall p m,
  contained ids m0 m -> book ids m p -> due p -> keeps p (dispatch_available fuel p) m.
Proof.
  induction fuel as [|fuel IH]; intros p m Hc Hbk Hd; cbn [BranchManager.dispatch_available];
    [by apply posts_ret; split_and!; [| |apply lighter_refl]|].
  assert (Hret : posts (mret p) m (fun p' m' => contained ids m0 m' /\ book ids m' p' /\ lighter p p') (contained ids m0))
    by (by apply posts_ret; split_and!; [| |apply lighter_refl]).
  destruct (waiting p) as [|b0 bs] eqn:Ew; [exact Hret|]. rewrite <- Ew.
  unfold keeps. eapply posts_step; [reflexivity|].
  destruct (free_workers p m) as [|w0 ws] eqn:Ef; [exact Hret|]. rewrite <- Ef.
  eapply posts_bind.
  { apply dispatch_pass_posts; [done|done|done| |done]. intros wid Hin.
    unfold free_workers in Hin. apply list_elem_of_In, filter_In in Hin as [_ Hin].
    by destruct (zget wid (worker_request_ids p)). }
  intros [[|] p'] m' (Hc' & Hbk' & Hl); cbn [fst snd] in *; [|by apply posts_ret].
  eapply posts_weaken; [apply IH; [done|done|apply Hl]| |done].
  intros p2 m2 (? & ? & ?). split_and!; [done|done|by eapply lighter_trans].
Qed.

Lemma respawn_posts wid m :
  posts (pool_respawn wid) m (fun _ m' => same_records m m') (fun m' => m' = m).
Proof.
  unfold pool_respawn. eapply posts_step; [reflexivity|]. destruct (pool_closed m); [done|].
  destruct (pool_generation wid m) as [g|]; [|done]. eapply posts_step; [reflexivity|]. apply posts_mod.
  constructor; cbn; try done. intros w [g' Hg']. unfold pool_generation in *. cbn. rewrite zget_zset.
  destruct (w =? wid); [by eexists|by exists g'].
Qed.

(** Settling the branch of a live request with a result. *)
Lemma settle_posts {A} p m m1 q b wid res (k : unit -> M Manager A) Q :
  contained ids m0 m -> book ids m p -> zget q (running_by_request_id p) = Some b ->
  zget q (request_worker_ids p) = Some wid -> same_records m m1 ->
  (forall m', contained ids m0 m' -> book ids m' (add_poll_result b res (drop_request q wid p)) ->
     posts (k tt) m' Q (contained ids m0)) ->
  posts (u ← _finish b res; k u) m1 Q (contained ids m0).
Proof.
  intros Hc Hbk Hq Hw Hs Hk. destruct (bk_running _ _ _ Hbk q b Hq) as (Hin & _ & (r & Hr & Hst & _) & _).
  eapply posts_bind.
  { eapply posts_weaken; [eapply (finish_posts ids m0 m1 b r res)|intros u m' H; exact H|done].
    - by eapply same_records_contained.
    - done.
    - by rewrite (rec_of_same _ _ _ Hs).
    - by rewrite Hst. }
  intros [] m2 (Hc2 & Hr2 & Ho & Hle). apply Hk; [done|].
  eapply (book_settle ids m m2 p b _ q wid res); try done.
  - pose proof (sr_request _ _ Hs). lia.
  - intros x Hx. by rewrite Ho, (rec_of_same _ _ _ Hs).
Qed.

(** The record of a live request is found running. *)
Lemma live_record p m m1 q b :
  contained ids m0 m -> book ids m p -> zget q (running_by_request_id p) = Some b -> same_records m m1 ->
  exists r w, find_record b m1 = (Ok r, m1) /\ is_dead (br_state r) = false /\ br_work_item r = Some w.
Proof.
  intros Hc Hbk Hq Hs. destruct (bk_running _ _ _ Hbk q b Hq) as (_ & _ & (r & Hr & Hst & _) & _).
  pose proof (ok_records _ (cn_ok _ _ _ Hc) b r Hr) as Hrec.
  destruct (ok_work _ _ _ Hrec) as [w Hw]; [by rewrite Hst|]. exists r, w. split_and!; [|by rewrite Hst|done].
  apply find_record_known. by rewrite (rec_of_same _ _ _ Hs).
Qed.

Lemma receive_keeps p m q res :
  contained ids m0 m -> book ids m p -> due p -> keeps p (receive p q res) m.
Proof.
  intros Hc Hbk Hd. unfold keeps, BranchManager.receive.
  destruct (zget q (running_by_request_id p)) as [b|] eqn:Eq; [|by apply posts_ret; split_and!; [| |apply lighter_refl]].
  destruct (zget q (request_worker_ids p)) as [wid|] eqn:Ew; [|by apply posts_raise].
  eapply posts_step; [reflexivity|]. set (m1 := set_request_map _ m).
  assert (Hs : same_records m m1) by done.
  destruct (live_record p m m1 q b Hc Hbk Eq Hs) as (r & w & Hr & Hdead & Hw).
  eapply posts_step; [exact Hr|]. rewrite Hdead, Hw.
  eapply settle_posts; try done. intros m' Hc' Hbk'.
  match goal with |- context [add_poll_result _ ?res' _] => destruct (drop_weight p b q wid res' Hd Eq) as [Hd' Hlt] end.
  eapply posts_weaken; [by apply dispatch_available_keeps| |done].
  intros p2 m2 (? & ? & ? & ?). split_and!; [done|done|split; [done|lia]].
Qed.

Lemma expire_worker_keeps p m wid :
  contained ids m0 m -> book ids m p -> due p ->
  posts (expire_worker format_exc p wid) m
    (fun p' m' => contained ids m0 m' /\ book ids m' p' /\ due p' /\ (weight p' < weight p)%nat) (contained ids m0).
Proof.
  intros Hc Hbk Hd. unfold expire_worker.
  destruct (zget wid (worker_request_ids p)) as [q|] eqn:Ew; [|by apply posts_raise].
  destruct (zget q (running_by_request_id p)) as [b|] eqn:Eq; [|by apply posts_raise].
  destruct (bk_workers _ _ _ Hbk wid q Ew) as [Hrw _].
  eapply posts_step; [reflexivity|]. set (m1 := set_request_map _ m).
  assert (Hs : same_records m m1) by done.
  destruct (live_record p m m1 q b Hc Hbk Eq Hs) as (r & w & Hr & Hdead & Hw).
  eapply posts_step; [exact Hr|]. rewrite Hdead, Hw. eapply posts_step; [reflexivity|].
  eapply posts_bind.
  { eapply posts_weaken; [apply respawn_posts|intros u m' H; exact H|].
    intros m' ->. by eapply same_records_contained. }
  intros ? m2 Hs2. assert (Hs' : same_records m m2) by (by eapply same_records_trans).
  destruct (_fault_result _ _ _ _ _ _ _) as [fault|e].
  2:{ eapply (posts_bind _ _ _ (fun _ _ => False)); [by eapply same_records_contained|done]. }
  eapply posts_step; [reflexivity|]. eapply settle_posts; try done. intros m' Hc' Hbk'. apply posts_ret.
  split; [done|]. split; [done|]. by apply drop_weight.
Qed.

(** Expiring workers settles their requests: at least one, when any expired. *)
Lemma expire_workers_keeps wids : forall p m,
  contained ids m0 m -> book ids m p -> due p ->
  posts (expire_workers format_exc p wids) m
    (fun p' m' => contained ids m0 m' /\ book ids m' p' /\ due p' /\
       (weight p' + (if wids then 0 else 1) <= weight p)%nat) (contained ids m0).
Proof.
  induction wids as [|wid rest IH]; intros p m Hc Hbk Hd; cbn [expire_workers];
    [apply posts_ret; split_and!; [done|done|done|lia]|].
  eapply posts_bind; [by apply expire_worker_keeps|]. intros p' m' (Hc' & Hbk' & Hd' & Hlt).
  eapply posts_weaken; [by apply IH| |done]. intros p2 m2 (? & ? & ? & Hle). split_and!; [done|done|done|].
  destruct rest; lia.
Qed.

(** A timeout after every deadline settles at least one live request. *)
Lemma timeout_event p m now :
  contained ids m0 m -> book ids m p -> due p ->
  posts (poll_event p (QueueEmpty now)) m
    (fun p' m' => contained ids m0 m' /\ book ids m' p' /\ lighter p p' /\
       ((forall q, f_leb (f_add (submitted_at q) timeout) now = true) -> running_by_request_id p <> [] ->
        (weight p' < weight p)%nat)) (contained ids m0).
Proof.
  intros Hc Hbk Hd. cbn [BranchManager.poll_event].
  set (expired := List.filter _ _). eapply posts_bind; [by apply expire_workers_keeps|].
  intros p' m' (Hc' & Hbk' & Hd' & Hle).
  eapply posts_weaken; [by apply dispatch_available_keeps| |done].
  intros p2 m2 (Hc2 & Hbk2 & Hd2 & Hle2). split; [done|]. split; [done|]. split; [split; [done|lia]|].
  intros Hpast Hrun. destruct (map fst expired) as [|w0 ws] eqn:Ee; [exfalso|lia].
  destruct (running_by_request_id p) as [|[q0 b0] rest] eqn:Er; [done|].
  destruct (bk_running _ _ _ Hbk q0 b0) as (_ & _ & _ & wid & _ & Hw); [by rewrite Er; cbn; rewrite Z.eqb_refl|].
  assert (Hall : expired = worker_deadlines p).
  { unfold expired. clear -Hd Hpast. unfold due in Hd. induction Hd as [|[w d] l [q Hq] _ IH]; [done|].
    cbn in Hq |- *. subst d. rewrite Hpast. by f_equal. }
  pose proof (bk_deadlines _ _ _ Hbk) as Hkeys. rewrite Hall in Ee. rewrite Ee in Hkeys.
  destruct (worker_request_ids p); [discriminate Hw|discriminate Hkeys].
Qed.

Lemma poll_event_keeps p m ev :
  contained ids m0 m -> book ids m p -> due p -> keeps p (poll_event p ev) m.
Proof.
  intros Hc Hbk Hd. destruct ev as [q res|now]; [by apply receive_keeps|].
  eapply posts_weaken; [by apply timeout_event| |done]. intros p' m' (? & ? & ? & _). done.
Qed.

(** The poll reports a result for exactly the selected branches, and each
    holds it, in the state it implies. *)
Definition all_settled (results : list (string * BranchResult)) (m : Manager) : Prop :=
  forall b, match dget b results with
  | Some res => b ∈ ids /\ exists r, rec_of b m = Some r /\ br_state r = finish_state res /\
                  br_result r = Some res
  | None => b ∉ ids
  end.

Lemma book_done m p :
  book ids m p -> waiting p = [] -> running_by_request_id p = [] -> all_settled (poll_results p) m.
Proof.
  intros [H1 _ _ _ _ H6 _] Hw Hr b. destruct (dget b (poll_results p)) as [res|] eqn:E; [by apply H6|].
  intros Hb. destruct (H1 b Hb) as [Hin|[[q Hq]|Hd]].
  - rewrite Hw in Hin. by apply elem_of_nil in Hin.
  - by rewrite Hr in Hq.
  - unfold dmem in Hd. by rewrite E in Hd.
Qed.

(** One turn of the loop up to the queue: some request is live then. *)
Definition before_queue (p : PollState) : M Manager PollState :=
  match running_by_request_id p with
  | [] => p' ← dispatch_available (length (waiting p)) p;
          match running_by_request_id p' with
          | [] => raiseM (PyExc "RuntimeError" "queued Branches could not be routed to any worker")
          | _ => mret p'
          end
  | _ => mret p
  end.
Lemma before_queue_posts p m :
  contained ids m0 m -> book ids m p -> due p ->
  posts (before_queue p) m
    (fun p' m' => contained ids m0 m' /\ book ids m' p' /\ lighter p p' /\ running_by_request_id p' <> [])
    (contained ids m0).
Proof.
  intros Hc Hbk Hd. unfold before_queue. destruct (running_by_request_id p) as [|r rs] eqn:Er.
  - eapply posts_bind; [by apply dispatch_available_keeps|]. intros p' m' (Hc' & Hbk' & Hl).
    destruct (running_by_request_id p') eqn:Er'; [by apply posts_raise|]. apply posts_ret. by rewrite Er'.
  - apply posts_ret. split_and!; [done|done|by apply lighter_refl|by rewrite Er].
Qed.

Lemma poll_loop_turn events p :
  poll_loop events p =
  match waiting p, running_by_request_id p with
  | [], [] => mret (Some (poll_results p))
  | _, _ => p ← before_queue p;
            match events with
            | [] => mret None
            | ev :: rest => p' ← poll_event p ev; poll_loop rest p'
            end
  end.
Proof.
  destruct events; cbn [BranchManager.poll_loop]; unfold before_queue, _dispatch_available;
    by destruct (waiting p), (running_by_request_id p).
Qed.

Lemma poll_loop_posts events : forall p m,
  contained ids m0 m -> book ids m p -> due p ->
  posts (poll_loop events p) m
    (fun out m' => contained ids m0 m' /\ forall results, out = Some results -> all_settled results m')
    (contained ids m0).
Proof.
  induction events as [|ev rest IH]; intros p m Hc Hbk Hd; rewrite poll_loop_turn;
    (destruct (waiting p) as [|b0 bs] eqn:Ew, (running_by_request_id p) as [|q0 qs] eqn:Er;
     [apply posts_ret; split; [done|]; intros ? [= <-]; by apply book_done| | |]);
    (eapply posts_bind; [by apply before_queue_posts|]; intros p' m' (Hc' & Hbk' & Hl & _));
    try (by apply posts_ret);
    (eapply posts_bind; [apply poll_event_keeps; [done|done|apply Hl]|]; intros p2 m2 (? & ? & Hl2); apply IH;
     [done|done|apply Hl2]).
Qed.

(** Once only timeouts past every deadline are left, the loop ends. *)
Lemma poll_loop_returns now events : forall n p m,
  contained ids m0 m -> book ids m p -> due p ->
  (forall q, f_leb (f_add (submitted_at q) timeout) now = true) -> (weight p < n)%nat ->
  posts (poll_loop (events ++ repeat (QueueEmpty now) n) p) m (fun out _ => is_Some out) (fun _ => True).
Proof.
  induction events as [|ev rest IHe].
  - cbn [app]. intros n. induction n as [|n IH]; intros p m Hc Hbk Hd Hpast Hlt; [lia|]. rewrite poll_loop_turn. cbn [repeat].
    destruct (waiting p) as [|b0 bs] eqn:Ew, (running_by_request_id p) as [|q0 qs] eqn:Er; [by apply posts_ret| | |];
      (eapply posts_bind;
         [eapply posts_weaken; [by apply before_queue_posts|intros p' m' H; exact H|done]|];
       intros p' m' (Hc' & Hbk' & [Hd' Hle] & Hrun);
       eapply posts_bind;
         [eapply posts_weaken; [by apply (timeout_event p' m' now)|intros p2 m2 H; exact H|done]|];
       intros p2 m2 (Hc2 & Hbk2 & [Hd2 _] & Hlt2); apply IH; [done|done|done|done|specialize (Hlt2 Hpast Hrun); lia]).
  - intros n p m Hc Hbk Hd Hpast Hlt. rewrite poll_loop_turn. cbn [app].
    destruct (waiting p) as [|b0 bs] eqn:Ew, (running_by_request_id p) as [|q0 qs] eqn:Er; [by apply posts_ret| | |];
      (eapply posts_bind;
         [eapply posts_weaken; [by apply before_queue_posts|intros p' m' H; exact H|done]|];
       intros p' m' (Hc' & Hbk' & [Hd' Hle] & Hrun);
       eapply posts_bind;
         [eapply posts_weaken; [by apply (poll_event_keeps p' m' ev)|intros p2 m2 H; exact H|done]|];
       intros p2 m2 (Hc2 & Hbk2 & [Hd2 Hle2]); apply IHe; [done|done|done|done|lia]).
Qed.
End Steps.

(** * Selection and quarantine *)

Definition queued (b : string) (m : Manager) : Prop :=
  exists r, rec_of b m = Some r /\ br_state r = BRANCH_STATE_QUEUED.

(** What [branch_ids] selects: every queued branch, or exactly the branches
    listed, each queued. *)
Definition selection (sel : option (list string)) (m : Manager) (ids : list string) : Prop :=
  NoDup ids /\
  match sel with
  | None => forall b, b ∈ ids ↔ queued b m
  | Some l => (forall b, b ∈ ids ↔ b ∈ l) /\ forall b, b ∈ l -> queued b m
  end.

Lemma selection_queued sel m ids b : selection sel m ids -> b ∈ ids -> queued b m.
Proof. destruct sel as [l|]; intros [_ H] Hb; [destruct H as [Hi Hq]; by apply Hq, Hi|by apply H]. Qed.

Lemma select_branches_posts m l : forall seen,
  posts (select_branches l seen) m
    (fun ids m' => m' = m /\ NoDup ids /\ (forall b, b ∈ ids ↔ b ∈ l /\ b ∉ seen) /\
       forall b, b ∈ ids -> queued b m)
    (fun m' => m' = m).
Proof.
  induction l as [|b l IH]; intros seen; cbn [select_branches].
  - apply posts_ret. split_and!; [done|constructor| |by intros b ?%elem_of_nil].
    intros b. split; [by intros ?%elem_of_nil|by intros [?%elem_of_nil _]].
  - destruct (str_in b seen) eqn:Es.
    + apply str_in_elem in Es. eapply posts_weaken; [apply IH| |done].
      intros ids m' (-> & Hnd & Hi & Hq). split_and!; [done|done| |done].
      intros x. rewrite Hi, elem_of_cons. split; [tauto|]. by intros [[->|?] ?].
    + assert (Hns : b ∉ seen) by (rewrite <- str_in_elem; congruence).
      destruct (rec_of b m) as [r|] eqn:Er.
      2:{ eapply (posts_bind _ _ _ (fun _ _ => False)); [|done]. unfold posts. by rewrite find_record_unknown. }
      eapply posts_step; [by apply find_record_known|].
      destruct (bool_decide_reflect (br_state r = BRANCH_STATE_QUEUED)); [|by apply posts_raise]. cbn [negb].
      eapply posts_bind; [apply IH|]. intros ids m' (-> & Hnd & Hi & Hq). apply posts_ret. split_and!.
      * done.
      * apply NoDup_cons. split; [|done]. rewrite Hi. intros [_ Hn]. apply Hn. left.
      * intros x. rewrite !elem_of_cons, Hi, elem_of_cons. destruct (decide (x = b)) as [->|]; tauto.
      * intros x [->|Hx]%elem_of_cons; [by exists r|by apply Hq].
Qed.

Lemma all_queued_selection m :
  mgr_ok m ->
  selection None m (map fst (List.filter
    (fun kr => bool_decide (br_state kr.2 = BRANCH_STATE_QUEUED)) (records m))).
Proof.
  intros Hok. pose proof (ok_nodup _ Hok) as Hnd. unfold selection, queued, rec_of. clear Hok.
  induction (records m) as [|[k r] l IH].
  - split; [constructor|]. intros b. cbn. split; [by intros ?%elem_of_nil|by intros (r & ? & _)].
  - unfold dkeys in Hnd. rewrite fmap_cons in Hnd. apply NoDup_cons in Hnd as [Hni Hnd].
    destruct (IH Hnd) as [Hnd' Hiff]. cbn [List.filter snd].
    assert (Hsub : forall b, b ∈ map fst (List.filter
       (fun kr => bool_decide (br_state kr.2 = BRANCH_STATE_QUEUED)) l) -> b ≠ k).
    { intros b (r' & Hr' & _)%Hiff ->. apply Hni, dmem_keys. unfold dmem. cbn [fst]. by rewrite Hr'. }
    case_bool_decide as Hs; cbn [map fst]; split.
    + apply NoDup_cons. split; [|done]. intros Hin. by apply (Hsub k).
    + intros b. rewrite elem_of_cons, Hiff. cbn [dget]. destruct (String.eqb_spec b k) as [->|Hne]; [|tauto].
      split; [intros _; by exists r|by left].
    + done.
    + intros b. rewrite Hiff. cbn [dget]. destruct (String.eqb_spec b k) as [->|Hne]; [|done].
      split; [|by intros (r' & [= <-] & ?)]. intros Hin. destruct (Hsub k); [by apply Hiff|done].
Qed.

(** The cleanup after an exception. *)
(** What a failed poll does to the manager: the selected branches end released,
    and only their descendants lose anything but links. *)
Record quarantined (ids : list string) (m m' : Manager) : Prop := {
  qu_ok : mgr_ok m';
  qu_released : forall b, b ∈ ids -> is_released b m';
  qu_child : forall a c, child_of m' a c -> child_of m a c;
  qu_keys : dkeys (records m') = dkeys (records m);
  qu_core : forall b, ¬ (exists a, a ∈ ids /\ rtc (child_of m) a b) -> core <$> rec_of b m' = core <$> rec_of b m;
}.

Lemma quarantine_posts ids m0 m :
  mgr_ok m0 -> contained ids m0 m -> (forall b, b ∈ ids -> known b m0) ->
  exists m', _quarantine_poll_branches ids m = (Ok tt, m') /\ quarantined ids m0 m'.
Proof.
  intros Hok0 Hc Hk0.
  assert (Hk : forall b, b ∈ ids -> known b m).
  { intros b Hb. apply known_dmem, dmem_keys. rewrite (cn_keys _ _ _ Hc). by apply dmem_keys, known_dmem, Hk0. }
  assert (Hself : forall b, ¬ (exists a, a ∈ ids /\ rtc (child_of m0) a b) -> b ∉ ids).
  { intros b Hn Hb. apply Hn. exists b. split; [done|apply rtc_refl]. }
  assert (Hall : List.filter (fun b => dmem b (records m)) ids = ids).
  { clear -Hk. induction ids as [|b l IH]; [done|]. cbn.
    assert (dmem b (records m) = true) as -> by (apply known_dmem, Hk; left).
    f_equal. apply IH. intros x Hx. apply Hk. by right. }
  unfold _quarantine_poll_branches. erewrite M_run_Ok by reflexivity. rewrite Hall.
  assert (Hchild : forall x y, child_of m x y -> child_of m0 x y).
  { intros x y (r & Hr & Hy). pose proof (cn_links _ _ _ Hc x) as Hl. rewrite Hr in Hl.
    destruct (rec_of x m0) as [r0|] eqn:E; [|done]. cbn in Hl. injection Hl as _ _ Hl. exists r0. split; [done|congruence]. }
  destruct ids as [|b0 bs] eqn:Eids.
  { exists m. split; [done|]. constructor; [apply Hc|by intros b ?%elem_of_nil|done|apply Hc|]. intros b Hn.
    by rewrite (cn_other _ _ _ Hc b (Hself b Hn)). }
  rewrite <- Eids in *. clear Eids b0 bs Hall.
  destruct (cancel_branches_run m ids (cn_ok _ _ _ Hc) Hk) as (v & m1 & Hrun & Hca).
  destruct (release_loop_ok ids m1 [] (ca_ok _ _ _ _ Hca)) as (m2 & st & Hrun2 & [O K S C _ _ H] & _).
  { intros b Hb. apply known_dmem, dmem_keys. rewrite (ca_keys _ _ _ _ Hca). by apply dmem_keys, known_dmem, Hk. }
  assert (Hcancel : forall x y, child_of m1 x y -> child_of m x y).
  { intros x y (r & Hr & Hy). pose proof (ca_links _ _ _ _ Hca x) as Hl. rewrite Hr in Hl.
    destruct (rec_of x m) as [r0|] eqn:E; [|done]. cbn in Hl. injection Hl as _ _ Hl. exists r0. split; [done|congruence]. }
  exists m2. split; [|constructor; [done|done| | |]].
  - erewrite M_run_Ok.
    2:{ unfold tryM. erewrite M_run_Ok by exact Hrun. reflexivity. }
    unfold release_branches. erewrite M_run_Ok by exact Hrun2. reflexivity.
  - intros a c Hac. by apply Hchild, Hcancel, H.
  - by rewrite K, (ca_keys _ _ _ _ Hca), (cn_keys _ _ _ Hc).
  - intros b Hn. rewrite C by auto. rewrite (ca_other _ _ _ _ Hca), (cn_other _ _ _ Hc); [done|by apply Hself|].
    apply not_true_iff_false. intros Hv. apply (ca_reach _ _ _ _ Hca) in Hv as (a & Ha & Hab). apply Hn.
    exists a. split; [done|]. eapply rtc_subrel; [|exact Hab]. apply Hchild.
Qed.

(** * The poll *)

Lemma initial_due submitted_at timeout ids :
  due submitted_at timeout {| waiting := ids; running_by_request_id := []; request_worker_ids := [];
                worker_request_ids := []; worker_deadlines := []; poll_results := [] |}.
Proof. constructor. Qed.

Lemma known_queued b m : queued b m -> known b m.
Proof. intros (r & Hr & _). by exists r. Qed.

Lemma initial_book sel m ids :
  selection sel m ids ->
  book ids m {| waiting := ids; running_by_request_id := []; request_worker_ids := [];
                worker_request_ids := []; worker_deadlines := []; poll_results := [] |}.
Proof.
  intros Hsel. constructor; cbn; try done.
  - by left.
  - intros b Hb. split; [done|]. by eapply selection_queued.
  - apply Hsel.
Qed.

(** The selection at the start of a poll. *)
Lemma selecting sel m :
  mgr_ok m ->
  posts (match sel with
         | None => mret (map fst (List.filter
                     (fun kr => bool_decide (br_state kr.2 = BRANCH_STATE_QUEUED)) (records m)))
         | Some l => select_branches l []
         end) m (fun ids m' => m' = m /\ selection sel m ids) (fun m' => m' = m).
Proof.
  intros Hok. destruct sel as [l|]; [|apply posts_ret; split; [done|by apply all_queued_selection]].
  eapply posts_weaken; [apply select_branches_posts| |done].
  intros ids m' (-> & Hnd & Hi & Hq). split; [done|]. split; [done|]. split.
  - intros b. rewrite Hi. split; [tauto|]. intros Hb. split; [done|apply not_elem_of_nil].
  - intros b Hb. apply Hq, Hi. split; [done|apply not_elem_of_nil].
Qed.

Lemma selection_length sel m ids : selection sel m ids -> (length ids <= length (records m))%nat.
Proof.
  intros Hsel. rewrite <- (length_map fst (records m)). apply submseteq_length, NoDup_submseteq; [apply Hsel|].
  intros b Hb. apply dmem_keys, known_dmem, known_queued. by eapply selection_queued.
Qed.

Lemma poll_posts work_item_for_ipc requires_ipc format_exc submitted_at timeout sel events m :
  mgr_ok m ->
  posts (poll work_item_for_ipc requires_ipc format_exc submitted_at timeout sel events) m
    (fun out m' => exists ids, selection sel m ids /\ contained ids m m' /\
       forall results, out = Some results -> all_settled ids results m')
    (fun m' => m' = m \/ exists ids, selection sel m ids /\ quarantined ids m m').
Proof.
  intros Hok. unfold poll. destruct (f_leb timeout (f_of_Z 0)); [by apply posts_raise; left|].
  eapply posts_step; [reflexivity|].
  eapply posts_bind; [eapply posts_weaken; [by apply selecting|intros ids m' H; exact H|intros m' ->; by left]|].
  intros ids m1 [-> Hsel]. pose proof (initial_book _ _ _ Hsel) as Hbk.
  eapply (posts_try _ _ _ _ (contained ids m)).
  - eapply posts_weaken.
    + eapply posts_bind; [exact (dispatch_available_keeps _ _ _ _ ids m _ _ m (contained_refl ids m Hok) Hbk (initial_due _ _ ids))|].
      intros p m' (Hc' & Hbk' & [Hd' _]). exact (poll_loop_posts _ _ _ _ _ ids m events p m' Hc' Hbk' Hd').
    + intros out m' [Hc Hs]. exists ids. exact (conj Hsel (conj Hc Hs)).
    + intros m' Hc. exact Hc.
  - intros e m' Hc. destruct (quarantine_posts ids m m' Hok Hc) as (m2 & Hrun & Hq).
    { intros b Hb. by eapply known_queued, selection_queued. }
    eapply posts_step; [exact Hrun|]. apply posts_raise. right. exists ids. split; [done|exact Hq].
Qed.


(** C10: a poll ends: whatever results and timeouts come first, once only
    timeouts past every deadline are left - two per record and one more are
    enough - the poll has returned its results or raised; it never waits for a
    worker that stays silent. *)
Theorem poll_returns work_item_for_ipc requires_ipc format_exc submitted_at timeout sel events now m :
  mgr_ok m -> (forall q, f_leb (f_add (submitted_at q) timeout) now = true) ->
  fst (poll work_item_for_ipc requires_ipc format_exc submitted_at timeout sel
    (events ++ repeat (QueueEmpty now) (2 * length (records m) + 1)) m) <> Ok None.
Proof.
  intros Hok Hpast. cut (posts (poll work_item_for_ipc requires_ipc format_exc submitted_at timeout sel
    (events ++ repeat (QueueEmpty now) (2 * length (records m) + 1))) m (fun out _ => is_Some out) (fun _ => True)).
  { unfold posts. destruct (poll _ _ _ _ _ _ _ m) as [[out|e] m']; [|done]. by intros [x ->]. }
  unfold poll. destruct (f_leb timeout (f_of_Z 0)); [by apply posts_raise|]. eapply posts_step; [reflexivity|].
  eapply posts_bind; [eapply posts_weaken; [by apply selecting|intros ids m' H; exact H|done]|].
  intros ids m1 [-> Hsel]. pose proof (initial_book _ _ _ Hsel) as Hbk. pose proof (selection_length _ _ _ Hsel) as Hlen.
  eapply (posts_try _ _ _ _ (fun _ => True)).
  - eapply posts_bind.
    { eapply posts_weaken;
        [exact (dispatch_available_keeps _ _ _ _ ids m _ _ m (contained_refl ids m Hok) Hbk (initial_due _ _ ids))
        |intros p m' H; exact H|done]. }
    intros p m' (Hc' & Hbk' & [Hd' Hle]). unfold weight in Hle. cbn in Hle.
    eapply poll_loop_returns; [exact Hc'|done|done|done|unfold weight; lia].
  - intros e m' _. unfold posts, mbind, M_bind. destruct (_quarantine_poll_branches ids m') as [[u|e'] m2]; done.
Qed.


(** A worker that never answers: the poll of the family's root ends with a
    fault after one timeout. *)
Lemma poll_returns_witness :
  fst (poll (fun w => w) false exn_str (fun _ => f_of_Z 0) (f_of_Z 1) (Some ["branch-1"%string])
    ([] ++ repeat (QueueEmpty (f_of_Z 2)) (2 * length (records family) + 1)) family) <> Ok None /\
  match poll (fun w => w) false exn_str (fun _ => f_of_Z 0) (f_of_Z 1) (Some ["branch-1"%string])
    [QueueEmpty (f_of_Z 2)] family with
  | (Ok (Some results), _) => map (fun r => status r.2) results = [BRANCH_STATUS_FAULT]
  | _ => False
  end.
Proof.
  split; [|vm_compute; reflexivity].
  apply (poll_returns (fun w => w) false exn_str (fun _ => f_of_Z 0) (f_of_Z 1) (Some ["branch-1"%string]) []
    (f_of_Z 2) family); [exact family_ok|reflexivity].
Defined.
