(* ===== verification/Dto.v ===== *)
(** The wire vocabulary of API/dto.py, the fault response of API/faults.py and
    the terminal-outcome check of API/terminal_outcome.py. *)

From S2P Require Export PyValue.

Definition SCHEMA_VERSION : string := "0.8".
Definition SUPPORTED_SCHEMA_VERSIONS : list string := [SCHEMA_VERSION].
Definition DTO_VERSION : string := "emulator-fca2f06".
Definition MASK_VERSION : string := "1.2".

Definition OP_START_INSTANCE : string := "start_instance".
Definition OP_GET_DECISION : string := "get_decision".
Definition OP_COMMIT_ACTION : string := "commit_action".
Definition OP_EMULATE_ACTION : string := "emulate_action".
Definition OP_EMULATE_ACTIONS : string := "emulate_actions".
Definition OP_CANCEL_BRANCHES : string := "cancel_branches".
Definition OP_RELEASE_BRANCHES : string := "release_branches".
Definition OP_GET_BRANCH_STATUS : string := "get_branch_status".
Definition OP_CLOSE_INSTANCE : string := "close_instance".

Definition OPERATIONS : list string :=
  [OP_START_INSTANCE; OP_GET_DECISION; OP_COMMIT_ACTION; OP_EMULATE_ACTION;
   OP_EMULATE_ACTIONS; OP_CANCEL_BRANCHES; OP_RELEASE_BRANCHES;
   OP_GET_BRANCH_STATUS; OP_CLOSE_INSTANCE].

Definition STATUS_COMPLETED : string := "completed".
Definition STATUS_PARTIAL : string := "partial".
Definition STATUS_QUEUED : string := "queued".
Definition STATUS_RUNNING : string := "running".
Definition STATUS_CANCELLED : string := "cancelled".
Definition STATUS_REJECTED : string := "rejected".
Definition STATUS_FAULTED : string := "faulted".
Definition STATUS_RELEASED : string := "released".

Definition STATUSES : list string :=
  [STATUS_COMPLETED; STATUS_PARTIAL; STATUS_QUEUED; STATUS_RUNNING;
   STATUS_CANCELLED; STATUS_REJECTED; STATUS_FAULTED; STATUS_RELEASED].

Definition FAULT_TASK_TIMEOUT : string := "task_timeout".
Definition FAULT_EMULATOR_ERROR : string := "emulator_error".
Definition FAULT_INVALID_REQUEST : string := "invalid_request".
Definition FAULT_UNKNOWN_INSTANCE : string := "unknown_instance".
Definition FAULT_SESSION_SEQUENCE_CONFLICT : string := "session_sequence_conflict".
Definition FAULT_SESSION_SEQUENCE_GAP : string := "session_sequence_gap".
Definition FAULT_SESSION_CAPACITY : string := "session_capacity_exceeded".
Definition FAULT_SESSION_INSTANCE_CONFLICT : string := "session_instance_conflict".

Definition INSTANCE_TYPE_WHOLE_RUN : string := "whole_run".
Definition INSTANCE_TYPE_COMBAT : string := "combat".

Definition ROOT_BRANCH_ID : string := "root".
Definition ROOT_RNG_ID : Z := 0.

Definition request_id_for (client_session_id : string) (request_seq : Z) : string :=
  client_session_id +:+ ":" +:+ pretty request_seq.


(** An optional string as a JSON value. *)
Definition opt_str (o : option string) : pyval :=
  match o with Some s => VStr s | None => VNone end.

(** API/faults.py: the response of an unexpected exception. *)
Definition fault_response (payload : pyval) (exc : pyexn) : pydict :=
  let request := match payload with VDict d => d | _ => [] end in
  let response :=
    [("schema_version", VStr SCHEMA_VERSION);
     ("client_session_id", dget_none "client_session_id" request);
     ("request_seq", dget_none "request_seq" request);
     ("request_id", dget_none "request_id" request);
     ("operation", dget_none "operation" request);
     ("status", VStr STATUS_FAULTED);
     ("error", VStr (exn_class exc +:+ ": " +:+ exn_str exc));
     ("fault_kind", VStr FAULT_EMULATOR_ERROR)] in
  match dget_none "instance_id" request with
  | VNone => response
  | v => dset "instance_id" v response
  end.

(** API/terminal_outcome.py. *)
Definition VALID_TERMINAL_OUTCOMES : list string := ["victory"; "defeat"].
Definition VALID_COMBAT_TERMINAL_OUTCOMES : list string := VALID_TERMINAL_OUTCOMES.
Definition VALID_WHOLE_RUN_TERMINAL_OUTCOMES : list string :=
  VALID_COMBAT_TERMINAL_OUTCOMES ++ ["run_victory"].

Definition require_terminal_outcome (value : pyval) (context : string)
    (valid_outcomes : list string) : Res string :=
  match value with
  | VStr s =>
      if str_in s valid_outcomes then Ok s
      else Raise (PyExc "RuntimeError"
        (context +:+ " reached a terminal boundary without a valid outcome: " +:+ py_repr value))
  | _ => Raise (PyExc "RuntimeError"
        (context +:+ " reached a terminal boundary without a valid outcome: " +:+ py_repr value))
  end.

