(* ===== verification/Validation.v ===== *)
(** Request validation (API/validation.py). *)

From S2P Require Export Dto.

(** The types [_require] is called with. *)
Inductive pytype := TStr | TInt | TList | TDict.

Definition pytype_name (t : pytype) : string :=
  match t with TStr => "str" | TInt => "int" | TList => "list" | TDict => "dict" end.

Definition isinstance (v : pyval) (t : pytype) : bool :=
  match t, v with
  | TStr, VStr _ => true
  | TInt, (VInt _ | VBool _) => true
  | TList, VList _ => true
  | TDict, VDict _ => true
  | _, _ => false
  end.

Definition _require (payload : pydict) (field : string) (expected_type : pytype) : Res pyval :=
  match dget field payload with
  | None => reject ("missing required field " +:+ repr_str field)
  | Some value =>
      if (match expected_type with TInt => true | _ => false end) && is_bool value then
        reject ("field " +:+ repr_str field +:+ " must be an integer, got bool")
      else if negb (isinstance value expected_type) then
        reject ("field " +:+ repr_str field +:+ " must be of type " +:+
                pytype_name expected_type +:+ ", got " +:+ py_type_name value)
      else if (match expected_type with TStr => true | _ => false end) && negb (truthy value) then
        reject ("field " +:+ repr_str field +:+ " must not be empty")
      else Ok value
  end.

Definition _OPTIONAL_SIMULATION_OPTION_TYPES : list (string * pytype) :=
  [("stop_condition", TStr); ("max_depth", TInt); ("max_steps", TInt);
   ("max_time_ms", TInt); ("max_hypotheses", TInt)].

Definition _SUPPORTED_STOP_CONDITIONS : list string :=
  ["next_decision"; "combat_end"; "room_end"; "run_end"].

(** A positive integer that is not a boolean. *)
Definition is_positive_int (v : pyval) : bool :=
  match v with VInt z => 0 <? z | _ => false end.

Definition check_simulation_option (kv : string * pyval) : Res unit :=
  let '(key, value) := kv in
  match dget key _OPTIONAL_SIMULATION_OPTION_TYPES with
  | None => Ok tt
  | Some expected =>
      if is_none value then Ok tt
      else match expected with
      | TInt =>
          if is_positive_int value then Ok tt
          else reject ("simulation_options." +:+ repr_str key +:+ " must be a positive integer")
      | _ =>
          if isinstance value expected then Ok tt
          else reject ("simulation_options." +:+ repr_str key +:+ " must be of type " +:+
                       pytype_name expected)
      end
  end.

Definition _validate_simulation_options (payload : pydict) : Res unit :=
  match dget_none "simulation_options" payload with
  | VNone => Ok tt
  | VDict options =>
      foldR (fun _ kv => check_simulation_option kv) options tt;;
      match dget_none "stop_condition" options with
      | VNone => Ok tt
      | VStr s =>
          if str_in s _SUPPORTED_STOP_CONDITIONS then Ok tt
          else reject ("simulation_options.stop_condition " +:+ repr_str s +:+ " is not supported")
      | v => reject ("simulation_options.stop_condition " +:+ py_repr v +:+ " is not supported")
      end
  | _ => reject "field 'simulation_options' must be an object"
  end.

Definition _EMULATE_ACTIONS_ITEM_STR_FIELDS : list string :=
  ["parent_branch_id"; "branch_id"; "decision_point_id"; "action_id"].

Definition is_nonempty_str (v : pyval) : bool :=
  match v with VStr s => negb (String.eqb s "") | _ => false end.

Definition item_text (index : nat) : string :=
  "emulate_actions.items[" +:+ pretty index +:+ "]".

(** One pass of the loop over the items: the branch ids seen so far. *)
Definition check_emulate_actions_item (st : nat * list string) (item : pyval)
    : Res (nat * list string) :=
  let '(index, seen) := st in
  match item with
  | VDict d =>
      foldR (fun _ field =>
               if is_nonempty_str (dget_none field d) then Ok tt
               else reject (item_text index +:+ "." +:+ field +:+ " must be a non-empty string"))
        _EMULATE_ACTIONS_ITEM_STR_FIELDS tt;;
      if negb (is_positive_int (dget_none "rng_id" d)) then
        reject (item_text index +:+ ".rng_id must be a positive integer")
      else match dget_none "branch_id" d with
      | VStr branch_id =>
          if str_in branch_id seen then
            reject (item_text index +:+ ".branch_id " +:+ repr_str branch_id +:+
                    " is duplicated within this batch")
          else Ok (S index, branch_id :: seen)
      | _ => reject (item_text index +:+ ".branch_id must be a non-empty string")
      end
  | _ => reject (item_text index +:+ " must be an object")
  end.

Definition _validate_emulate_actions_items (payload : pydict) : Res unit :=
  items ← _require payload "items" TList;
  match items with
  | VList [] => reject "emulate_actions.items must be a non-empty list"
  | VList l => foldR check_emulate_actions_item l (0%nat, []);; Ok tt
  | _ => Ok tt
  end.

(** [_require(payload, field, int)] as an integer. *)
Definition require_int (payload : pydict) (field : string) : Res Z :=
  v ← _require payload field TInt;
  match v with VInt z => Ok z | _ => reject "" end.
Definition require_str (payload : pydict) (field : string) : Res string :=
  v ← _require payload field TStr;
  match v with VStr s => Ok s | _ => reject "" end.

(** The part of [validate_request] that depends on the operation. *)
Definition validate_operation (payload : pydict) (operation : string) : Res unit :=
  if String.eqb operation OP_START_INSTANCE then
    cfg ← _require payload "instance_config" TDict;
    match cfg with
    | VDict c =>
        if negb (dmem "instance_type" c) then
          reject "instance_config.instance_type is required"
        else match dget "god_mode" c with
        | Some v => if is_bool v then Ok tt
                    else reject "instance_config.god_mode must be of type bool"
        | None => Ok tt
        end
    | _ => Ok tt
    end
  else if String.eqb operation OP_GET_DECISION then
    _require payload "branch_id" TStr;; Ok tt
  else if String.eqb operation OP_COMMIT_ACTION then
    b ← require_str payload "branch_id";
    if negb (String.eqb b ROOT_BRANCH_ID) then
      reject ("commit_action.branch_id must be " +:+ repr_str ROOT_BRANCH_ID)
    else
      r ← require_int payload "rng_id";
      if negb (r =? ROOT_RNG_ID) then
        reject ("commit_action.rng_id must be " +:+ pretty ROOT_RNG_ID)
      else
        _require payload "decision_point_id" TStr;;
        _require payload "action_id" TStr;; Ok tt
  else if String.eqb operation OP_EMULATE_ACTION then
    _require payload "parent_branch_id" TStr;;
    _require payload "branch_id" TStr;;
    r ← require_int payload "rng_id";
    if r <=? 0 then reject "emulate_action.rng_id must be positive"
    else
      _require payload "decision_point_id" TStr;;
      _require payload "action_id" TStr;;
      _validate_simulation_options payload
  else if String.eqb operation OP_EMULATE_ACTIONS then
    _validate_emulate_actions_items payload;;
    _validate_simulation_options payload
  else if str_in operation [OP_CANCEL_BRANCHES; OP_RELEASE_BRANCHES; OP_GET_BRANCH_STATUS] then
    ids ← _require payload "branch_ids" TList;
    match ids with
    | VList [] => reject "branch_ids must be a non-empty list"
    | VList l =>
        if forallb is_nonempty_str l then Ok tt
        else reject "every entry in branch_ids must be a non-empty string"
    | _ => Ok tt
    end
  else Ok tt.

Definition validate_request (payload : pyval) : Res pydict :=
  match payload with
  | VDict d =>
      schema_version ← require_str d "schema_version";
      if negb (str_in schema_version SUPPORTED_SCHEMA_VERSIONS) then
        reject ("unsupported schema_version " +:+ repr_str schema_version)
      else
      session_id ← require_str d "client_session_id";
      request_seq ← require_int d "request_seq";
      if request_seq <=? 0 then reject "request_seq must be a positive integer" else
      request_id ← require_str d "request_id";
      let expected_request_id := request_id_for session_id request_seq in
      if negb (String.eqb request_id expected_request_id) then
        reject ("request_id must equal " +:+ repr_str expected_request_id +:+
                " for this session/sequence")
      else
      operation ← require_str d "operation";
      if negb (str_in operation OPERATIONS) then
        reject ("unknown operation " +:+ repr_str operation)
      else
      (if negb (String.eqb operation OP_START_INSTANCE)
       then _require d "instance_id" TStr;; Ok tt else Ok tt);;
      validate_operation d operation;;
      Ok d
  | _ => reject "request must be a JSON object (dict)"
  end.

(** * What a valid request is

    The declarative contract of [validate_request]: field by field, with no
    order of checks. *)

Definition has_str (d : pydict) (k : string) : Prop :=
  exists s, dget k d = Some (VStr s) /\ s ≠ "".
Definition has_opt (P : pyval -> Prop) (d : pydict) (k : string) : Prop :=
  match dget k d with None | Some VNone => True | Some v => P v end.

Definition option_wf (kv : string * pyval) : Prop :=
  match dget kv.1 _OPTIONAL_SIMULATION_OPTION_TYPES with
  | None => True
  | Some TInt => kv.2 = VNone \/ exists n, kv.2 = VInt n /\ 0 < n
  | Some t => kv.2 = VNone \/ isinstance kv.2 t = true
  end.

Definition options_wf (d : pydict) : Prop :=
  dget_none "simulation_options" d = VNone \/
  exists o, dget_none "simulation_options" d = VDict o /\ Forall option_wf o /\
    (dget_none "stop_condition" o = VNone \/
     exists s, dget_none "stop_condition" o = VStr s /\ s ∈ _SUPPORTED_STOP_CONDITIONS).

Definition item_wf (item : pyval) (branch_id : string) : Prop :=
  exists d, item = VDict d /\
    Forall (has_str d) _EMULATE_ACTIONS_ITEM_STR_FIELDS /\
    (exists r, dget "rng_id" d = Some (VInt r) /\ 0 < r) /\
    dget "branch_id" d = Some (VStr branch_id).

(** The items of a batch, with the branch ids they create: no id twice. *)
Definition items_wf (d : pydict) : Prop :=
  exists l ids, dget "items" d = Some (VList l) /\ l ≠ [] /\
    Forall2 item_wf l ids /\ NoDup ids.

Inductive operation_wf (d : pydict) : string -> Prop :=
  | wf_start c :
      dget "instance_config" d = Some (VDict c) ->
      "instance_type" ∈ dkeys c ->
      (forall v, dget "god_mode" c = Some v -> exists b, v = VBool b) ->
      operation_wf d OP_START_INSTANCE
  | wf_get : has_str d "branch_id" -> operation_wf d OP_GET_DECISION
  | wf_commit :
      dget "branch_id" d = Some (VStr ROOT_BRANCH_ID) ->
      dget "rng_id" d = Some (VInt ROOT_RNG_ID) ->
      has_str d "decision_point_id" -> has_str d "action_id" ->
      operation_wf d OP_COMMIT_ACTION
  | wf_emulate r :
      has_str d "parent_branch_id" -> has_str d "branch_id" ->
      dget "rng_id" d = Some (VInt r) -> 0 < r ->
      has_str d "decision_point_id" -> has_str d "action_id" ->
      options_wf d -> operation_wf d OP_EMULATE_ACTION
  | wf_emulate_batch :
      items_wf d -> options_wf d -> operation_wf d OP_EMULATE_ACTIONS
  | wf_branches op ids :
      op ∈ [OP_CANCEL_BRANCHES; OP_RELEASE_BRANCHES; OP_GET_BRANCH_STATUS] ->
      dget "branch_ids" d = Some (VList ids) -> ids ≠ [] ->
      Forall (fun v => exists s, v = VStr s /\ s ≠ "") ids ->
      operation_wf d op
  | wf_close : operation_wf d OP_CLOSE_INSTANCE.

Record request_wf (d : pydict) (session : string) (seq : Z) (op : string) : Prop := {
  wf_schema : dget "schema_version" d = Some (VStr SCHEMA_VERSION);
  wf_session : dget "client_session_id" d = Some (VStr session);
  wf_session_nonempty : session ≠ "";
  wf_seq : dget "request_seq" d = Some (VInt seq);
  wf_seq_pos : 0 < seq;
  wf_request_id : dget "request_id" d = Some (VStr (request_id_for session seq));
  wf_op : dget "operation" d = Some (VStr op);
  wf_op_known : op ∈ OPERATIONS;
  wf_instance : op = OP_START_INSTANCE \/ has_str d "instance_id";
  wf_operation : operation_wf d op;
}.


(** * Lemmas: each check is equivalent to its clause *)

Lemma require_str_spec d k s :
  require_str d k = Ok s ↔ dget k d = Some (VStr s) /\ s ≠ "".
Proof.
  unfold require_str, _require. destruct (dget k d) as [[]|]; simpl; try naive_solver.
  destruct (String.eqb_spec s0 "") as [->|]; simpl; naive_solver.
Qed.

Lemma require_TStr_spec d k :
  (exists v, _require d k TStr = Ok v) ↔ has_str d k.
Proof.
  unfold has_str, _require. destruct (dget k d) as [[]|]; simpl; try naive_solver.
  destruct (String.eqb_spec s "") as [->|]; simpl; naive_solver.
Qed.

Lemma require_int_spec d k z :
  require_int d k = Ok z ↔ dget k d = Some (VInt z).
Proof.
  unfold require_int, _require. destruct (dget k d) as [[]|]; simpl; naive_solver.
Qed.

Lemma require_list_spec d k v :
  _require d k TList = Ok v ↔ exists l, v = VList l /\ dget k d = Some (VList l).
Proof. unfold _require. destruct (dget k d) as [[]|]; simpl; naive_solver. Qed.

Lemma require_dict_spec d k v :
  _require d k TDict = Ok v ↔ exists c, v = VDict c /\ dget k d = Some (VDict c).
Proof. unfold _require. destruct (dget k d) as [[]|]; simpl; naive_solver. Qed.

Lemma is_positive_int_spec v : is_positive_int v = true ↔ exists n, v = VInt n /\ 0 < n.
Proof.
  destruct v; simpl; try (split; [discriminate|by intros (? & ? & ?)]). rewrite Z.ltb_lt. naive_solver.
Qed.

Lemma is_nonempty_str_spec v : is_nonempty_str v = true ↔ exists s, v = VStr s /\ s ≠ "".
Proof.
  destruct v; simpl; try (split; [discriminate|by intros (? & ? & ?)]). rewrite negb_true_iff, String.eqb_neq. naive_solver.
Qed.

Lemma has_str_get d k : has_str d k ↔ is_nonempty_str (dget_none k d) = true.
Proof.
  unfold has_str, dget_none. destruct (dget k d) as [v|]; simpl.
  - rewrite is_nonempty_str_spec. naive_solver.
  - naive_solver.
Qed.

Lemma check_simulation_option_spec kv :
  check_simulation_option kv = Ok tt ↔ option_wf kv.
Proof.
  destruct kv as [k v]. unfold option_wf, check_simulation_option, fst, snd.
  destruct (dget k _OPTIONAL_SIMULATION_OPTION_TYPES) as [t|]; [|by split].
  destruct (decide (v = VNone)) as [->|Hv]; [destruct t; naive_solver|].
  replace (is_none v) with false by (by destruct v).
  assert (Hi := is_positive_int_spec v). destruct t; repeat case_match; naive_solver.
Qed.

Lemma validate_options_spec d : _validate_simulation_options d = Ok tt ↔ options_wf d.
Proof.
  unfold _validate_simulation_options, options_wf.
  destruct (dget_none "simulation_options" d) as [| | | | | |o];
    [by split; [left|]|split; [discriminate|intros [?|(? & ? & _)]; discriminate]..|].
  rewrite bind_Ok.
  assert (Hf : foldR (fun _ kv => check_simulation_option kv) o tt = Ok tt ↔ Forall option_wf o).
  { apply foldR_Ok_unit, check_simulation_option_spec. }
  split.
  - intros ([] & H1 & H2). right. exists o. split_and!; [done|by apply Hf|].
    destruct (dget_none "stop_condition" o) as [| | | |s| |] eqn:Es; try discriminate;
      [by left|].
    right. exists s. destruct (str_in s _SUPPORTED_STOP_CONDITIONS) eqn:E; [|discriminate].
    split; [done|by apply str_in_elem].
  - intros [|(o' & [= <-] & Ho & Hs)]; [done|]. exists tt. split; [by apply Hf|].
    destruct Hs as [->|(s & -> & ->%str_in_elem)]; done.
Qed.

Lemma check_item_spec i seen item st :
  check_emulate_actions_item (i, seen) item = Ok st ↔
  exists b, item_wf item b /\ b ∉ seen /\ st = (S i, b :: seen).
Proof.
  unfold check_emulate_actions_item, item_wf.
  destruct item as [| | | | | |d];
    [split; [discriminate|intros (? & (? & ? & _) & _); discriminate]..|].
  rewrite bind_Ok.
  assert (Hf : forall f, foldR (fun _ field =>
       if is_nonempty_str (dget_none field d) then Ok tt else reject (f field))
     _EMULATE_ACTIONS_ITEM_STR_FIELDS tt = Ok tt ↔
     Forall (has_str d) _EMULATE_ACTIONS_ITEM_STR_FIELDS).
  { intros f. apply foldR_Ok_unit. intros k. rewrite has_str_get.
    destruct (is_nonempty_str (dget_none k d)); naive_solver. }
  split.
  - intros ([] & H1%Hf & H2).
    destruct (is_positive_int (dget_none "rng_id" d)) eqn:Er; [|done]. simpl in H2.
    apply is_positive_int_spec in Er as (r & Er & Hr).
    unfold dget_none in *. destruct (dget "branch_id" d) as [[]|] eqn:Eb; try done.
    destruct (str_in s seen) eqn:Es; [done|]. exists s. split_and!.
    + exists d. split_and!; try done. exists r. split; [|done].
      by destruct (dget "rng_id" d); simplify_eq.
    + intros Hs%str_in_elem. congruence.
    + congruence.
  - intros (b & (d' & [= <-] & Ha & (r & Er & Hr) & Eb) & Hb & ->).
    exists tt. split; [by apply Hf|]. unfold dget_none. rewrite Er, Eb. simpl.
    rewrite (proj2 (Z.ltb_lt 0 r) Hr). simpl.
    destruct (str_in b seen) eqn:Es; [|done]. by apply str_in_elem in Es.
Qed.

Lemma check_items_spec l i seen :
  (exists st, foldR check_emulate_actions_item l (i, seen) = Ok st) ↔
  exists ids, Forall2 item_wf l ids /\ NoDup ids /\ (forall b, b ∈ ids -> b ∉ seen).
Proof.
  revert i seen. induction l as [|x l IH]; intros i seen.
  - simpl. split; [intros _; exists []|by eauto]. split_and!; [constructor..|set_solver].
  - cbn [foldR]. setoid_rewrite bind_Ok. setoid_rewrite check_item_spec. split.
    + intros (st & st' & (b & Hb & Hni & ->) & Hst).
      destruct (proj1 (IH _ _) (ex_intro _ _ Hst)) as (ids & H2 & Hnd & Hd).
      exists (b :: ids). split_and!; [by constructor|constructor; [|done]|].
      * intros Hin. apply (Hd _ Hin). left.
      * intros b' [->|Hin]%elem_of_cons; [done|]. specialize (Hd _ Hin). set_solver.
    + intros (ids & H2 & Hnd & Hd). inversion H2 as [|? b ? ids' Hb H2']; subst.
      inversion Hnd as [|? ? Hni Hnd']; subst.
      destruct (proj2 (IH (S i) (b :: seen))) as (st & Hst).
      { exists ids'. split_and!; [done..|]. intros b' Hin. specialize (Hd b').
        rewrite not_elem_of_cons. split; [by intros ->|]. apply Hd. by right. }
      exists st, (S i, b :: seen). split; [|done]. exists b. split_and!; [done| |done].
      apply Hd. left.
Qed.

Lemma validate_items_spec d : _validate_emulate_actions_items d = Ok tt ↔ items_wf d.
Proof.
  unfold _validate_emulate_actions_items, items_wf. rewrite bind_Ok. split.
  - intros (v & (l & -> & Hl)%require_list_spec & H).
    destruct l as [|x l]; [done|]. rewrite bind_Ok in H. destruct H as (st & H & _).
    destruct (proj1 (check_items_spec _ _ _) (ex_intro _ _ H)) as (ids & ? & ? & _).
    by exists (x :: l), ids.
  - intros (l & ids & Hl & Hne & H2 & Hnd). exists (VList l).
    split; [apply require_list_spec; eauto|].
    destruct l as [|x l]; [done|]. rewrite bind_Ok.
    destruct (proj2 (check_items_spec (x :: l) 0 [])) as (st & Hst).
    { exists ids. split_and!; [done..|set_solver]. }
    by exists st.
Qed.

Lemma bind_require_str d k {B} (r : Res B) b :
  (_require d k TStr;; r) = Ok b ↔ has_str d k /\ r = Ok b.
Proof.
  rewrite bind_Ok, <- require_TStr_spec. naive_solver.
Qed.

Lemma wf_operation_inv d op :
  validate_operation d op = Ok tt -> op ∈ OPERATIONS -> operation_wf d op.
Proof.
  unfold validate_operation. intros H Hop.
  destruct (String.eqb_spec op OP_START_INSTANCE) as [Eop|?].
  { subst op. rewrite bind_Ok in H. destruct H as (? & (c & -> & Hc)%require_dict_spec & H).
    destruct (dmem "instance_type" c) eqn:Ht; [|done]. apply dmem_keys in Ht.
    eapply wf_start; [done..|]. intros v Hv. rewrite Hv in H. simpl in H.
    destruct v; simpl in H; try done. by eexists. }
  destruct (String.eqb_spec op OP_GET_DECISION) as [Eop|?].
  { subst op. apply bind_require_str in H as [? _]. by apply wf_get. }
  destruct (String.eqb_spec op OP_COMMIT_ACTION) as [Eop|?].
  { subst op. rewrite bind_Ok in H. destruct H as (b & [Hb _]%require_str_spec & H).
    destruct (String.eqb_spec b ROOT_BRANCH_ID) as [->|]; [|done]. simpl in H.
    rewrite bind_Ok in H. destruct H as (r & Hr%require_int_spec & H).
    destruct (Z.eqb_spec r ROOT_RNG_ID) as [->|]; [|done]. simpl in H.
    rewrite !bind_require_str in H. destruct H as (? & ? & _). by apply wf_commit. }
  destruct (String.eqb_spec op OP_EMULATE_ACTION) as [Eop|?].
  { subst op. rewrite !bind_require_str, bind_Ok in H.
    destruct H as (? & ? & r & Hr%require_int_spec & H).
    destruct (Z.leb_spec r 0); [done|]. rewrite !bind_require_str in H.
    destruct H as (? & ? & ?%validate_options_spec). by eapply wf_emulate. }
  destruct (String.eqb_spec op OP_EMULATE_ACTIONS) as [Eop|?].
  { subst op. rewrite bind_Ok in H. destruct H as ([] & ?%validate_items_spec & ?%validate_options_spec).
    by apply wf_emulate_batch. }
  destruct (str_in op [OP_CANCEL_BRANCHES; OP_RELEASE_BRANCHES; OP_GET_BRANCH_STATUS]) eqn:E.
  { apply str_in_elem in E. rewrite bind_Ok in H.
    destruct H as (? & (l & -> & Hl)%require_list_spec & H).
    destruct l as [|x l]; [done|].
    destruct (forallb is_nonempty_str (x :: l)) eqn:Ef; [|done].
    eapply wf_branches; [done..|]. apply Forall_forall. intros v Hv%list_elem_of_In.
    apply is_nonempty_str_spec. by apply (proj1 (forallb_forall _ _) Ef). }
  assert (op = OP_CLOSE_INSTANCE) as ->; [|apply wf_close].
  assert (op ∉ [OP_CANCEL_BRANCHES; OP_RELEASE_BRANCHES; OP_GET_BRANCH_STATUS]).
  { intros Hin%str_in_elem. congruence. }
  unfold OPERATIONS in Hop. set_solver.
Qed.

(** Decides the comparisons of the dispatch on a known operation. *)
Ltac dispatch_op :=
  unfold validate_operation;
  repeat match goal with
  | |- context [String.eqb ?a ?b] =>
      let r := eval vm_compute in (String.eqb a b) in change (String.eqb a b) with r
  | |- context [str_in ?a [OP_CANCEL_BRANCHES; OP_RELEASE_BRANCHES; OP_GET_BRANCH_STATUS]] =>
      change (str_in a [OP_CANCEL_BRANCHES; OP_RELEASE_BRANCHES; OP_GET_BRANCH_STATUS]) with true
  end; cbv iota.

Lemma branch_ids_ok d ids :
  dget "branch_ids" d = Some (VList ids) -> ids ≠ [] ->
  Forall (fun v => exists s, v = VStr s /\ s ≠ "") ids ->
  (ids0 ← _require d "branch_ids" TList;
   match ids0 with
   | VList [] => reject "branch_ids must be a non-empty list"
   | VList l => if forallb is_nonempty_str l then Ok tt
       else reject "every entry in branch_ids must be a non-empty string"
   | _ => Ok tt
   end) = Ok tt.
Proof.
  intros Hids Hne Hall. rewrite bind_Ok. exists (VList ids).
  split; [apply require_list_spec; eauto|].
  destruct ids as [|x l]; [done|]. rewrite (proj2 (forallb_forall _ _)); [done|].
  intros v Hv%list_elem_of_In. apply is_nonempty_str_spec. by eapply Forall_forall in Hall.
Qed.

Lemma wf_operation_ok d op : operation_wf d op -> validate_operation d op = Ok tt.
Proof.
  intros Hwf.
  case Hwf; clear Hwf op; [intros c Hc Ht Hg|intros Hb|intros Hb Hr Hd Ha
    |intros r Hp Hb Hr Hpos Hd Ha Ho|intros Hi Ho|intros op ids Hop Hids Hne Hall|].
  - dispatch_op. rewrite bind_Ok. exists (VDict c). split; [apply require_dict_spec; eauto|].
    apply dmem_keys in Ht. rewrite Ht. simpl.
    destruct (dget "god_mode" c) eqn:E; [|done]. by destruct (Hg _ eq_refl) as [b ->].
  - dispatch_op. by rewrite bind_require_str.
  - dispatch_op. rewrite bind_Ok. exists ROOT_BRANCH_ID. split; [by apply require_str_spec|].
    rewrite String.eqb_refl. simpl. rewrite bind_Ok. exists ROOT_RNG_ID.
    split; [by apply require_int_spec|]. simpl. by rewrite !bind_require_str.
  - dispatch_op. rewrite !bind_require_str, bind_Ok. split_and!; [done..|]. exists r.
    split; [by apply require_int_spec|]. rewrite (proj2 (Z.leb_gt r 0) Hpos).
    rewrite !bind_require_str. by rewrite validate_options_spec.
  - dispatch_op. rewrite bind_Ok. exists tt.
    by rewrite validate_items_spec, validate_options_spec.
  - rewrite !elem_of_cons in Hop.
    destruct Hop as [->|[->|[->|[]%elem_of_nil]]]; dispatch_op; by apply (branch_ids_ok d ids).
  - done.
Qed.

Lemma validate_request_inv v d :
  validate_request v = Ok d -> v = VDict d /\ exists s n op, request_wf d s n op.
Proof.
  destruct v as [| | | | | |d']; try done. unfold validate_request.
  rewrite bind_Ok. intros (sv & [Hsv _]%require_str_spec & H).
  destruct (str_in sv SUPPORTED_SCHEMA_VERSIONS) eqn:Esv; [|done]. cbn [negb] in H.
  apply str_in_elem, list_elem_of_singleton in Esv as ->.
  rewrite bind_Ok in H. destruct H as (s & [Hs Hs0]%require_str_spec & H).
  rewrite bind_Ok in H. destruct H as (n & Hn%require_int_spec & H).
  destruct (Z.leb_spec n 0) as [|Hpos]; [done|].
  rewrite bind_Ok in H. destruct H as (r & [Hr Hr0]%require_str_spec & H).
  destruct (String.eqb_spec r (request_id_for s n)) as [->|]; [|done]. cbn [negb] in H.
  rewrite bind_Ok in H. destruct H as (op & [Ho Ho0]%require_str_spec & H).
  destruct (str_in op OPERATIONS) eqn:Eop; [|done]. cbn [negb] in H. apply str_in_elem in Eop.
  rewrite bind_Ok in H. destruct H as ([] & Hi & H).
  rewrite bind_Ok in H. destruct H as ([] & Hv & [= ->]).
  split; [done|]. exists s, n, op. split; try done; [|by apply wf_operation_inv].
  destruct (String.eqb_spec op OP_START_INSTANCE); [by left|right].
  simpl in Hi. by apply bind_require_str in Hi as [? _].
Qed.

Lemma validate_request_complete d s n op :
  request_wf d s n op -> validate_request (VDict d) = Ok d.
Proof.
  intros [Hsv Hs Hs0 Hn Hpos Hr Ho Hop Hi Hw]. unfold validate_request.
  rewrite bind_Ok. exists SCHEMA_VERSION. split; [by apply require_str_spec|].
  change (str_in SCHEMA_VERSION SUPPORTED_SCHEMA_VERSIONS) with true. cbn [negb].
  rewrite bind_Ok. exists s. split; [by apply require_str_spec|].
  rewrite bind_Ok. exists n. split; [by apply require_int_spec|].
  rewrite (proj2 (Z.leb_gt n 0) Hpos).
  rewrite bind_Ok. exists (request_id_for s n). split.
  { apply require_str_spec. split; [done|]. unfold request_id_for. by destruct s. }
  rewrite String.eqb_refl. cbn [negb].
  rewrite bind_Ok. exists op. split.
  { apply require_str_spec. split; [done|]. intros ->. by apply str_in_elem in Hop. }
  rewrite (proj2 (str_in_elem op OPERATIONS) Hop). cbn [negb].
  rewrite (wf_operation_ok _ _ Hw).
  destruct (String.eqb_spec op OP_START_INSTANCE); [done|]. destruct Hi as [|Hi]; [done|].
  simpl. rewrite bind_Ok. exists tt. split; [|done]. by rewrite bind_require_str.
Qed.

(** * Errors: nothing but a rejection *)

(** A result that is a value or a [RequestRejected] with no fault kind. *)
Definition rejects_only {A} (r : Res A) : Prop :=
  match r with Ok _ => True | Raise e => exists m, e = RequestRejected m None end.

Lemma rejects_only_bind {A B} (m : Res A) (f : A -> Res B) :
  rejects_only m -> (forall a, rejects_only (f a)) -> rejects_only (m ≫= f).
Proof. destruct m; simpl; auto. Qed.

Lemma rejects_only_foldR {A S} (f : S -> A -> Res S) l s :
  (forall s x, rejects_only (f s x)) -> rejects_only (foldR f l s).
Proof.
  intros Hf. revert s. induction l as [|x l IH]; intros s; simpl; [done|].
  by apply rejects_only_bind.
Qed.

Lemma rejects_only_reject {A} m : rejects_only (@reject A m).
Proof. by eexists. Qed.
Lemma rejects_only_Ok {A} (a : A) : rejects_only (Ok a).
Proof. done. Qed.

Lemma rejects_only_require d k t : rejects_only (_require d k t).
Proof. unfold _require. repeat case_match; try done; by eexists. Qed.


(** Walks a definition by its binds and tests. *)
Ltac rejects :=
  repeat first
    [ progress intros
    | apply rejects_only_reject | apply rejects_only_Ok | apply rejects_only_require
    | apply rejects_only_foldR | apply rejects_only_bind
    | case_match ].

Lemma rejects_only_validate v : rejects_only (validate_request v).
Proof.
  unfold validate_request, require_str, require_int, validate_operation,
    _validate_emulate_actions_items, _validate_simulation_options,
    check_emulate_actions_item, check_simulation_option, require_str, require_int.
  rejects.
Qed.

(** * Properties *)

(** [validate_request] accepts a payload exactly when it is an object that
    meets the declarative contract [request_wf]: known schema version and
    operation, positive integer (not boolean) sequence number, the request id
    computed from session and sequence, and the operation's own fields (root
    branch and rng id 0 for a commit, positive rng id for an emulation, no
    branch id twice in a batch, typed and positive simulation options); and it
    hands the payload on unchanged. *)
Theorem validate_request_exact (v : pyval) (d : pydict) :
  validate_request v = Ok d ↔ v = VDict d /\ exists s n op, request_wf d s n op.
Proof.
  split; [apply validate_request_inv|].
  intros [-> (s & n & op & H)]. by eapply validate_request_complete.
Qed.

(** [validate_request] fails in one way only: on any JSON value that it does
    not accept it raises [RequestRejected] without a fault kind (which the server
    turns into a rejected response), never another exception. *)
Theorem validate_request_rejects (v : pyval) :
  match validate_request v with
  | Ok d => v = VDict d
  | Raise e => exists msg, e = RequestRejected msg None
  end.
Proof.
  pose proof (rejects_only_validate v) as H. destruct (validate_request v) eqn:E; [|done].
  by apply validate_request_inv in E as [-> _].
Qed.
