(* ===== verification/Identifiers.v ===== *)
(** Identifier lifecycles (API/identifiers.py): the request ledger of a client
    session, the branch-id and decision-point registries and the table of RNG
    hypotheses. Each class is a record of its fields and each method a state
    transformer. *)

From S2P Require Export Sha256 Dto.

Definition _payload_digest (payload : pydict) : string :=
  sha256_hex (json_dumps false (VDict payload)).

(** A rejection with a fault kind. *)
Definition reject_kind {S A} (msg kind : string) : M S A :=
  raiseM (RequestRejected msg (Some kind)).

Module SessionLedger.

Record t := mk {
  last_seq : Z;
  last_digest : option string;
  last_response : option pydict;
  active_instance_id : option string;
}.

Definition init : t := mk 0 None None None.

(** [begin]: the cached response, or [None] when the request is to be
    executed. [request_seq] is an integer by [validate_request]; a number
    equal to the expected one is stored as that integer. *)
Definition begin (payload : pydict) : M t (option pydict) := fun self =>
  match dget "request_seq" payload with
  | None => raiseM (PyExc "KeyError" "'request_seq'") self
  | Some seq =>
      let digest := _payload_digest payload in
      if py_eqb seq (VInt (last_seq self)) then
        if negb (bool_decide (last_digest self = Some digest)) then
          reject_kind ("request_seq " +:+ py_str seq +:+ " reused with different content")
            FAULT_SESSION_SEQUENCE_CONFLICT self
        else match last_response self with
        | None =>
            reject_kind ("request_seq " +:+ py_str seq +:+ " is already in flight")
              FAULT_SESSION_SEQUENCE_CONFLICT self
        | Some r => (Ok (Some r), self)
        end
      else
        let expected := last_seq self + 1 in
        if negb (py_eqb seq (VInt expected)) then
          reject_kind ("request_seq must be " +:+ pretty expected +:+ ", got " +:+ py_str seq)
            FAULT_SESSION_SEQUENCE_GAP self
        else (Ok None, mk expected (Some digest) None (active_instance_id self))
  end.

Definition complete (response : pydict) : M t unit :=
  modS (fun self => mk (last_seq self) (last_digest self) (Some response)
                      (active_instance_id self)).

End SessionLedger.

Module BranchIdRegistry.

(** [_ever_used]. *)
Definition t := gset string.
Definition init : t := {[ROOT_BRANCH_ID]}.

Definition register (branch_id : string) : M t unit := fun self =>
  if bool_decide (branch_id ∈ self) then
    (reject ("branch_id " +:+ repr_str branch_id +:+
             " already used (branch IDs are never reusable)"), self)
  else (Ok tt, self ∪ {[branch_id]}).

Definition rollback_registration (branch_id : string) : M t unit := fun self =>
  if negb (String.eqb branch_id ROOT_BRANCH_ID)
  then (Ok tt, self ∖ {[branch_id]}) else (Ok tt, self).

Definition is_known (branch_id : string) (self : t) : bool := bool_decide (branch_id ∈ self).

End BranchIdRegistry.

Module DecisionPointRegistry.

Record t := mk {
  _counter : N;
  _current : gmap string string;
}.

Definition init : t := mk 1 ∅.

Definition decision_point_id (branch_id : string) (n : N) : string :=
  "d-" +:+ branch_id +:+ "-" +:+ zero_pad 6 n.

Definition issue (branch_id : string) : M t string := fun self =>
  let id := decision_point_id branch_id (_counter self) in
  (Ok id, mk (_counter self + 1) (<[branch_id := id]> (_current self))).

Definition current (branch_id : string) (self : t) : option string :=
  _current self !! branch_id.

Definition validate (branch_id given : string) (self : t) : Res unit :=
  match _current self !! branch_id with
  | None => reject ("branch_id " +:+ repr_str branch_id +:+ " has no active decision_point_id")
  | Some cur =>
      if String.eqb cur given then Ok tt
      else reject ("stale decision_point_id for branch_id " +:+ repr_str branch_id +:+
                   ": given=" +:+ repr_str given +:+ " current=" +:+ repr_str cur)
  end.

Definition clear (branch_id : string) : M t unit :=
  modS (fun self => mk (_counter self) (delete branch_id (_current self))).

Definition restore_current (branch_id : string) (id : option string) : M t unit :=
  modS (fun self => mk (_counter self)
    (match id with
     | None => delete branch_id (_current self)
     | Some d => <[branch_id := d]> (_current self)
     end)).

End DecisionPointRegistry.

Module RngHypothesisTable.

Definition RngKey : Type := string * string * Z.

(** [_index_by_key] in insertion order, newest last; [popitem] takes the
    last. *)
Record t := mk {
  _index_by_key : list (RngKey * Z);
  _next_index_by_parent_decision : gmap (string * string) Z;
}.

Definition init : t := mk [] ∅.

Fixpoint lookup_key (key : RngKey) (l : list (RngKey * Z)) : option Z :=
  match l with
  | [] => None
  | (k, i) :: l' => if decide (key = k) then Some i else lookup_key key l'
  end.

Definition hypothesis_index_for (parent decision : string) (rng_id : Z) : M t Z := fun self =>
  let key := (parent, decision, rng_id) in
  match lookup_key key (_index_by_key self) with
  | Some i => (Ok i, self)
  | None =>
      let next := default 0 (_next_index_by_parent_decision self !! (parent, decision)) in
      (Ok next,
       mk (_index_by_key self ++ [(key, next)])
          (<[(parent, decision) := next + 1]> (_next_index_by_parent_decision self)))
  end.

Definition snapshot (self : t) : Z := Z.of_nat (length (_index_by_key self)).

(** One pass of the loop of [restore]. *)
Definition popitem (self : t) : t :=
  match last (_index_by_key self) with
  | None => self
  | Some ((parent, decision, _), index) =>
      mk (removelast (_index_by_key self))
         (if index =? 0
          then delete (parent, decision) (_next_index_by_parent_decision self)
          else <[(parent, decision) := index]> (_next_index_by_parent_decision self))
  end.

(** [while len(self._index_by_key) > snapshot], each pass one shorter. *)
Fixpoint restore_loop (fuel : nat) (snapshot : Z) (self : t) : t :=
  match fuel with
  | O => self
  | S fuel' =>
      if snapshot <? Z.of_nat (length (_index_by_key self))
      then restore_loop fuel' snapshot (popitem self) else self
  end.

Definition restore (marker : pyval) : M t unit := fun self =>
  match marker with
  | VInt snapshot =>
      let n := length (_index_by_key self) in
      if (snapshot <? 0) || (Z.of_nat n <? snapshot) then
        raiseM (PyExc "ValueError"
          "RNG rollback snapshot is outside the current allocation history") self
      else (Ok tt, restore_loop n snapshot self)
  | _ => raiseM (PyExc "TypeError" "RNG rollback snapshot must be an integer marker") self
  end.

End RngHypothesisTable.

(** * Decimal text *)

(** The number a string of digits reads as, after [acc]. *)
Fixpoint dec_value (acc : N) (s : string) : N :=
  match s with
  | EmptyString => acc
  | String a s' => dec_value (acc * 10 + (Ascii.N_of_ascii a - 48)) s'
  end.

Lemma pretty_N_char_value x : (x < 10)%N -> (Ascii.N_of_ascii (pretty_N_char x) - 48 = x)%N.
Proof.
  intros Hx. assert (Hin : In x [0;1;2;3;4;5;6;7;8;9]%N) by (simpl; lia).
  simpl in Hin. by decompose [or] Hin; subst.
Qed.

Lemma dec_value_go x s : dec_value 0 (pretty_N_go x s) = dec_value x s.
Proof.
  revert s. induction (N.lt_wf_0 x) as [x _ IH]. intros s.
  destruct (decide (0 < x)%N) as [Hx|Hx].
  - rewrite pretty_N_go_step, IH by (try apply N.div_lt; lia). simpl.
    rewrite pretty_N_char_value by (apply N.mod_lt; lia).
    f_equal. rewrite (N.div_mod x 10) at 3 by lia. lia.
  - assert (x = 0%N) as -> by lia. by rewrite pretty_N_go_0.
Qed.

Lemma dec_value_pretty n : dec_value 0 (pretty n) = n.
Proof.
  unfold pretty, pretty_N. case_decide as Hn; [by subst|]. by rewrite dec_value_go.
Qed.

Lemma zero_pad_value w n : dec_value 0 (zero_pad w n) = n.
Proof.
  unfold zero_pad. generalize (w - String.length (pretty n))%nat as k.
  induction k as [|k IH]; simpl; [apply dec_value_pretty|done].
Qed.

Definition dash : Ascii.ascii := Ascii.ascii_of_N 45.

(** A character does not occur in a string. *)
Definition no_char (a : Ascii.ascii) (s : string) : Prop :=
  a ∉ String.list_ascii_of_string s.

Lemma pretty_N_char_no_dash x : pretty_N_char x ≠ dash.
Proof. unfold pretty_N_char. by repeat case_match. Qed.

Lemma no_dash_cons a s : a ≠ dash -> no_char dash s -> no_char dash (String a s).
Proof. unfold no_char. simpl. rewrite not_elem_of_cons. naive_solver. Qed.

Lemma no_dash_go x s : no_char dash s -> no_char dash (pretty_N_go x s).
Proof.
  revert s. induction (N.lt_wf_0 x) as [x _ IH]. intros s Hs.
  destruct (decide (0 < x)%N) as [Hx|Hx].
  - rewrite pretty_N_go_step by done. apply IH; [apply N.div_lt; lia|].
    apply no_dash_cons; [apply pretty_N_char_no_dash|done].
  - assert (x = 0%N) as -> by lia. by rewrite pretty_N_go_0.
Qed.

Lemma no_dash_zero_pad w n : no_char dash (zero_pad w n).
Proof.
  unfold zero_pad. assert (Hp : no_char dash (pretty n)).
  { unfold pretty, pretty_N. case_decide; [|apply no_dash_go]; unfold no_char; set_solver. }
  induction (w - String.length (pretty n))%nat as [|k IH]; simpl; [done|].
  by apply no_dash_cons.
Qed.

Lemma last_segment_inj (c : Ascii.ascii) (l1 l2 t1 t2 : list Ascii.ascii) :
  l1 ++ c :: t1 = l2 ++ c :: t2 -> c ∉ t1 -> c ∉ t2 -> t1 = t2.
Proof.
  revert l2. induction l1 as [|x l1 IH]; intros [|y l2] H H1 H2; simplify_eq/=; try done.
  - set_solver.
  - set_solver.
  - eauto.
Qed.

Lemma list_ascii_app s t :
  String.list_ascii_of_string (s +:+ t)
  = String.list_ascii_of_string s ++ String.list_ascii_of_string t.
Proof. induction s as [|a s IH]; simpl; [done|]. by rewrite IH. Qed.

(** * Decision-point identifiers *)

Lemma decision_point_id_inj b1 b2 n1 n2 :
  DecisionPointRegistry.decision_point_id b1 n1
  = DecisionPointRegistry.decision_point_id b2 n2 -> n1 = n2.
Proof.
  unfold DecisionPointRegistry.decision_point_id. intros H.
  apply (f_equal String.list_ascii_of_string) in H. rewrite !list_ascii_app in H. simpl in H.
  simplify_eq H. intros H'. apply last_segment_inj in H'; [|apply no_dash_zero_pad..].
  apply (f_equal String.string_of_list_ascii) in H'.
  rewrite !String.string_of_list_ascii_of_string in H'.
  by rewrite <- (zero_pad_value 6 n1), H', zero_pad_value.
Qed.

Module DecisionHistory.
Import DecisionPointRegistry.

(** The calls an instance makes on its registry. *)
Inductive op :=
  | OpIssue (branch_id : string)
  | OpClear (branch_id : string)
  | OpRestore (branch_id : string) (id : option string).

(** The ids issued by a history of calls, and the registry after it. *)
Fixpoint run (ops : list op) (self : t) : list string * t :=
  match ops with
  | [] => ([], self)
  | OpIssue b :: ops' =>
      match issue b self with
      | (Ok id, s) => let '(ids, s') := run ops' s in (id :: ids, s')
      | (Raise _, s) => run ops' s
      end
  | OpClear b :: ops' => run ops' (clear b self).2
  | OpRestore b id :: ops' => run ops' (restore_current b id self).2
  end.

Lemma run_counter ops self :
  (_counter self <= _counter (run ops self).2)%N.
Proof.
  revert self. induction ops as [|[b|b|b id] ops IH]; intros self; simpl; [lia| | |].
  - pose proof (IH (mk (_counter self + 1)
      (<[b := decision_point_id b (_counter self)]> (_current self)))) as H.
    destruct (run ops _); simpl in *. lia.
  - apply (IH (clear b self).2).
  - apply (IH (restore_current b id self).2).
Qed.

Lemma run_ids ops self :
  NoDup (run ops self).1 /\
  Forall (fun id => exists b n, id = decision_point_id b n /\
    (_counter self <= n < _counter (run ops self).2)%N) (run ops self).1.
Proof.
  revert self. induction ops as [|[b|b|b id] ops IH]; intros self; simpl.
  - split; constructor.
  - set (s' := mk (_counter self + 1)
      (<[b := decision_point_id b (_counter self)]> (_current self))).
    destruct (IH s') as [Hnd Hall]. pose proof (run_counter ops s') as Hc.
    destruct (run ops s') as [ids s'']. simpl in *. split.
    + constructor; [|done]. intros Hin. eapply Forall_forall in Hall; [|done].
      destruct Hall as (b' & n & Heq%decision_point_id_inj & Hn). lia.
    + constructor; [exists b, (_counter self); split; [done|lia]|].
      eapply Forall_impl; [exact Hall|]. intros x (b' & n & ? & ?).
      exists b', n. split; [done|lia].
  - apply (IH (clear b self).2).
  - apply (IH (restore_current b id self).2).
Qed.

End DecisionHistory.

(** Whatever calls an instance makes on its decision-point registry
    (issuing, clearing, rolling a current id back), no decision-point id is
    issued twice; and after any such history, issuing an id for a branch makes
    that branch accept exactly the new id, every earlier issued one being
    rejected. *)
Theorem decision_ids_fresh (ops : list DecisionHistory.op) (branch : string) :
  let '(ids, s) := DecisionHistory.run ops DecisionPointRegistry.init in
  match DecisionPointRegistry.issue branch s with
  | (Ok id, s') =>
      NoDup (ids ++ [id]) /\
      (forall given, DecisionPointRegistry.validate branch given s' = Ok tt ↔ given = id) /\
      (forall old, old ∈ ids ->
         exists msg, DecisionPointRegistry.validate branch old s' = reject msg)
  | (Raise _, _) => False
  end.
Proof.
  pose proof (DecisionHistory.run_ids ops DecisionPointRegistry.init) as [Hnd Hall].
  destruct (DecisionHistory.run ops DecisionPointRegistry.init) as [ids s]. simpl in *.
  set (id := DecisionPointRegistry.decision_point_id branch _).
  assert (Hni : id ∉ ids).
  { intros Hin. eapply Forall_forall in Hall; [|done].
    destruct Hall as (b & n & Heq%decision_point_id_inj & Hn). lia. }
  unfold DecisionPointRegistry.validate. simpl. setoid_rewrite lookup_insert_eq. split_and!.
  - apply NoDup_app. split_and!; [done|set_solver|apply NoDup_singleton].
  - intros given. destruct (String.eqb_spec id given) as [->|]; naive_solver.
  - intros old Hold. destruct (String.eqb_spec id old) as [->|]; [done|by eexists].
Qed.

(** * Branch identifiers *)

Module BranchHistory.
Import BranchIdRegistry.

Inductive op := OpRegister (branch_id : string) | OpRollback (branch_id : string).

(** A history of calls: the ids whose registration succeeded and was not
    rolled back later, newest first, and the registry. *)
Fixpoint run (ops : list op) (live : list string) (self : t) : list string * t :=
  match ops with
  | [] => (live, self)
  | OpRegister b :: ops' =>
      match register b self with
      | (Ok _, s) => run ops' (b :: live) s
      | (Raise _, s) => run ops' live s
      end
  | OpRollback b :: ops' =>
      run ops' (if String.eqb b ROOT_BRANCH_ID then live else filter (fun x => x ≠ b) live)
        (rollback_registration b self).2
  end.

Lemma run_exact ops live self :
  NoDup live -> (forall b, b ∈ live \/ b = ROOT_BRANCH_ID ↔ b ∈ self) ->
  ROOT_BRANCH_ID ∉ live ->
  let '(live', s) := run ops live self in
  NoDup live' /\ (forall b, b ∈ live' \/ b = ROOT_BRANCH_ID ↔ b ∈ s) /\ ROOT_BRANCH_ID ∉ live'.
Proof.
  revert live self. induction ops as [|[b|b] ops IH]; intros live self Hnd Heq Hroot; simpl.
  - done.
  - unfold register. case_bool_decide as Hb; simpl; [by apply IH|].
    apply IH.
    + constructor; [|done]. intros Hin. apply Hb, Heq. by left.
    + intros x. rewrite elem_of_cons, elem_of_union, elem_of_singleton, <- Heq. naive_solver.
    + rewrite elem_of_cons. intros [<-|?]; [|done]. apply Hb, Heq. by right.
  - unfold rollback_registration. destruct (String.eqb_spec b ROOT_BRANCH_ID) as [->|Hne]; simpl.
    + by apply IH.
    + apply IH.
      * by apply NoDup_filter.
      * intros x. rewrite list_elem_of_filter, elem_of_difference, elem_of_singleton, <- Heq.
        naive_solver.
      * rewrite list_elem_of_filter. naive_solver.
Qed.

End BranchHistory.

(** A branch id can be registered exactly when it is not the root's and is
    not the id of an earlier registration that still stands: over every
    history of registrations and rollbacks, a standing id is refused for ever,
    the root's id is never registrable (its rollback is ignored), and a refused
    registration leaves the registry unchanged. *)
Theorem branch_ids_not_reusable (ops : list BranchHistory.op) (b : string) :
  let '(live, s) := BranchHistory.run ops [] BranchIdRegistry.init in
  NoDup live /\
  (BranchIdRegistry.register b s = (Ok tt, s ∪ {[b]}) ↔ b ∉ live /\ b ≠ ROOT_BRANCH_ID) /\
  (b ∈ live \/ b = ROOT_BRANCH_ID ->
   exists msg, BranchIdRegistry.register b s = (reject msg, s)).
Proof.
  pose proof (BranchHistory.run_exact ops [] BranchIdRegistry.init) as H.
  destruct (BranchHistory.run ops [] BranchIdRegistry.init) as [live s].
  destruct H as (Hnd & Heq & Hroot); [constructor|set_solver|set_solver|].
  unfold BranchIdRegistry.register. split_and!; [done| |].
  - case_bool_decide as Hb; [apply Heq in Hb|rewrite <- Heq in Hb]; naive_solver.
  - intros Hb%Heq. rewrite bool_decide_true by done. by eexists.
Qed.

(** * The RNG hypothesis table *)

Module RngTable.
Import RngHypothesisTable.

(** The allocations of one parent decision, oldest first. *)
Definition entries (pd : string * string) (l : list (RngKey * Z)) : list (RngKey * Z) :=
  filter (fun e => e.1.1 = pd) l.

(** Each parent decision's indices are 0, 1, 2, ... in allocation order, its
    counter is their number, and no key is allocated twice. *)
Record wf (self : t) : Prop := {
  wf_keys : NoDup (_index_by_key self).*1;
  wf_indices : forall pd,
    (entries pd (_index_by_key self)).*2
    = seqZ 0 (Z.of_nat (length (entries pd (_index_by_key self))));
  wf_next : forall pd,
    _next_index_by_parent_decision self !! pd
    = match entries pd (_index_by_key self) with
      | [] => None | l => Some (Z.of_nat (length l)) end;
}.

Lemma lookup_key_None key l : lookup_key key l = None ↔ key ∉ l.*1.
Proof.
  induction l as [|[k i] l IH]; simpl; [set_solver|].
  rewrite not_elem_of_cons. case_decide; [naive_solver|]. rewrite IH. naive_solver.
Qed.

Lemma lookup_key_app key l l' :
  lookup_key key (l ++ l')
  = match lookup_key key l with Some i => Some i | None => lookup_key key l' end.
Proof. induction l as [|[k i] l IH]; simpl; [done|]. by case_decide. Qed.

Lemma entries_snoc pd l k i :
  entries pd (l ++ [(k, i)]) = entries pd l ++ (if decide (k.1 = pd) then [(k, i)] else []).
Proof.
  unfold entries. by rewrite filter_app.
Qed.

Lemma wf_init : wf init.
Proof. split; simpl; [constructor|done|done]. Qed.

(** Allocating a new key keeps the table well formed. *)
Lemma wf_snoc self key :
  wf self -> lookup_key key (_index_by_key self) = None ->
  wf (mk (_index_by_key self
            ++ [(key, default 0 (_next_index_by_parent_decision self !! key.1))])
         (<[key.1 := default 0 (_next_index_by_parent_decision self !! key.1) + 1]>
            (_next_index_by_parent_decision self))).
Proof.
  intros [Hk Hi Hn] Hl%lookup_key_None.
  assert (Hd : default 0 (_next_index_by_parent_decision self !! key.1)
               = Z.of_nat (length (entries key.1 (_index_by_key self)))).
  { rewrite Hn. by destruct (entries key.1 (_index_by_key self)). }
  rewrite Hd. split; simpl.
  - rewrite fmap_app. apply NoDup_app. split_and!; [done|set_solver|apply NoDup_singleton].
  - intros pd. rewrite entries_snoc. case_decide as E; [subst pd|by rewrite app_nil_r].
    rewrite fmap_app, Hi, length_app, Nat2Z.inj_add, seqZ_app by lia.
    do 2 f_equal; simpl; lia.
  - intros pd. rewrite entries_snoc. case_decide as E; [subst pd|].
    + rewrite lookup_insert_eq. destruct (entries key.1 _); simpl; [done|].
      f_equal. rewrite length_app. simpl. lia.
    + by rewrite lookup_insert_ne, app_nil_r.
Qed.

Lemma popitem_snoc l k i next :
  popitem (mk (l ++ [(k, i)]) next)
  = mk l (if i =? 0 then delete k.1 next else <[k.1 := i]> next).
Proof.
  unfold popitem. simpl. rewrite last_snoc, removelast_last. by destruct k as [[p d] r].
Qed.

Lemma lookup_key_elem key i l : lookup_key key l = Some i -> (key, i) ∈ l.
Proof.
  induction l as [|[k j] l IH]; simpl; [done|].
  case_decide; intros; simplify_eq; [left|right; auto].
Qed.

(** Taking back the newest allocation undoes it exactly. *)
Lemma popitem_snoc_undo self key :
  wf self ->
  popitem (mk (_index_by_key self
            ++ [(key, default 0 (_next_index_by_parent_decision self !! key.1))])
         (<[key.1 := default 0 (_next_index_by_parent_decision self !! key.1) + 1]>
            (_next_index_by_parent_decision self))) = self.
Proof.
  intros [_ _ Hn]. rewrite popitem_snoc. specialize (Hn key.1).
  destruct self as [l next]; simpl in *. f_equal. rewrite Hn.
  destruct (entries key.1 l) as [|e es] eqn:E; simpl.
  - rewrite delete_insert_eq. by apply delete_id.
  - rewrite insert_insert_eq. by apply insert_id.
Qed.

Lemma wf_popitem self : wf self -> wf (popitem self).
Proof.
  intros [Hk Hi Hn]. destruct self as [l next]. simpl in *.
  destruct l as [|[k i] l _] using rev_ind; [by split|].
  rewrite popitem_snoc. rewrite fmap_app in Hk. apply NoDup_app in Hk as (Hk & _ & _).
  assert (Hki : i = Z.of_nat (length (entries k.1 l)) /\
                (entries k.1 l).*2 = seqZ 0 (Z.of_nat (length (entries k.1 l)))).
  { specialize (Hi k.1). rewrite entries_snoc, decide_True in Hi by done.
    rewrite fmap_app, length_app, Nat2Z.inj_add, seqZ_app in Hi by lia.
    simpl in Hi. apply app_inj_tail in Hi as [? ?]. split; [lia|done]. }
  destruct Hki as [-> Hki]. split; simpl; [done| |].
  - intros pd. destruct (decide (k.1 = pd)) as [<-|Hne]; [done|].
    specialize (Hi pd). by rewrite entries_snoc, decide_False, app_nil_r in Hi.
  - intros pd. destruct (decide (k.1 = pd)) as [<-|Hne].
    + destruct (entries k.1 l); simpl; [by rewrite lookup_delete_eq|by rewrite lookup_insert_eq].
    + specialize (Hn pd). rewrite entries_snoc, decide_False, app_nil_r in Hn by done.
      by destruct (_ =? 0); rewrite ?lookup_delete_ne, ?lookup_insert_ne.
Qed.

Lemma wf_restore_loop fuel n self : wf self -> wf (restore_loop fuel n self).
Proof.
  revert self. induction fuel as [|fuel IH]; intros self Hwf; simpl; [done|].
  case_match; [|done]. by apply IH, wf_popitem.
Qed.

(** The effect of one lookup: the table as it is, or one new key. *)
Lemma index_for_cases p d r self i s' :
  hypothesis_index_for p d r self = (Ok i, s') ->
  lookup_key (p, d, r) (_index_by_key s') = Some i /\
  (s' = self \/
   lookup_key (p, d, r) (_index_by_key self) = None /\
   s' = mk (_index_by_key self ++ [((p, d, r), i)])
           (<[(p, d) := i + 1]> (_next_index_by_parent_decision self)) /\
   i = default 0 (_next_index_by_parent_decision self !! (p, d))).
Proof.
  unfold hypothesis_index_for. destruct (lookup_key (p, d, r) (_index_by_key self)) eqn:E;
    intros [= <- <-]; [by split; [|left]|]. simpl. split; [|by right].
  rewrite lookup_key_app, E. simpl. by rewrite decide_True.
Qed.

Lemma index_for_ok p d r self : exists i s', hypothesis_index_for p d r self = (Ok i, s').
Proof. unfold hypothesis_index_for. destruct (lookup_key _ _); by eexists _, _. Qed.

Lemma wf_index_for p d r self : wf self -> wf (hypothesis_index_for p d r self).2.
Proof.
  intros Hwf. destruct (index_for_ok p d r self) as (i & s' & H). rewrite H. simpl.
  apply index_for_cases in H as (_ & [->|(Hl & -> & ->)]); [done|].
  by apply (wf_snoc self (p, d, r)).
Qed.

(** A batch of lookups, as one request makes them. *)
Definition alloc (keys : list RngKey) (self : t) : t :=
  foldl (fun s k => (hypothesis_index_for k.1.1 k.1.2 k.2 s).2) self keys.

Lemma alloc_snoc keys k self :
  alloc (keys ++ [k]) self = (hypothesis_index_for k.1.1 k.1.2 k.2 (alloc keys self)).2.
Proof. unfold alloc. by rewrite foldl_app. Qed.

Lemma wf_alloc keys self : wf self -> wf (alloc keys self).
Proof.
  revert self. induction keys as [|k keys IH]; intros self Hwf; simpl; [done|].
  by apply IH, wf_index_for.
Qed.

Lemma length_alloc keys self :
  (length (_index_by_key self) <= length (_index_by_key (alloc keys self)))%nat.
Proof.
  revert self. induction keys as [|[[p d] r] keys IH]; intros self; simpl; [done|].
  etrans; [|apply IH]. destruct (index_for_ok p d r self) as (i & s' & H). rewrite H. simpl.
  apply index_for_cases in H as (_ & [->|(_ & -> & _)]); simpl; [done|].
  rewrite length_app. lia.
Qed.

Lemma restore_loop_alloc keys self :
  wf self ->
  restore_loop (length (_index_by_key (alloc keys self))) (snapshot self) (alloc keys self)
  = self.
Proof.
  intros Hwf. induction keys as [|[[p d] r] keys IH] using rev_ind; simpl.
  - unfold snapshot. destruct (length (_index_by_key self)) eqn:E; simpl; [done|].
    by rewrite E, Z.ltb_irrefl.
  - rewrite alloc_snoc. simpl. remember (alloc keys self) as s eqn:Es.
    destruct (index_for_ok p d r s) as (i & s' & H). rewrite H. simpl.
    apply index_for_cases in H as (_ & [->|(Hl & -> & ->)]); [done|]. simpl.
    assert (Hlen : (length (_index_by_key self) <= length (_index_by_key s))%nat)
      by (rewrite Es; apply length_alloc).
    rewrite length_app, Nat.add_comm. simpl.
    rewrite (proj2 (Z.ltb_lt _ _)) by (unfold snapshot; rewrite length_app; simpl; lia).
    pose proof (popitem_snoc_undo s (p, d, r)) as Hu. simpl in Hu.
    rewrite Hu; [done|]. rewrite Es. by apply wf_alloc.
Qed.

Lemma lookup_key_stable keys self key i :
  lookup_key key (_index_by_key self) = Some i ->
  lookup_key key (_index_by_key (alloc keys self)) = Some i.
Proof.
  revert self. induction keys as [|[[p d] r] keys IH]; intros self Hl; simpl; [done|].
  apply IH. destruct (index_for_ok p d r self) as (j & s' & H). rewrite H. simpl.
  apply index_for_cases in H as (_ & [->|(_ & -> & _)]); [done|]. simpl.
  by rewrite lookup_key_app, Hl.
Qed.

(** The tables an instance can reach: lookups, and restores to any marker. *)
Inductive reachable : t -> Prop :=
  | reach_init : reachable init
  | reach_index p d r s : reachable s -> reachable (hypothesis_index_for p d r s).2
  | reach_restore m s : reachable s -> reachable (restore m s).2.

Lemma reachable_wf s : reachable s -> wf s.
Proof.
  induction 1 as [|p d r s _ IH|m s _ IH].
  - apply wf_init.
  - by apply wf_index_for.
  - unfold restore. destruct m; try done. case_match; [done|]. by apply wf_restore_loop.
Qed.

End RngTable.

(** In every reachable RNG table (lookups and restores to arbitrary
    markers), the hypothesis indices of one parent decision are 0, 1, 2, ... in
    the order their rng ids were first used, no key has two indices, and a
    lookup's answer is kept by any later batch of lookups. *)
Theorem rng_indices_contiguous_and_stable (s : RngHypothesisTable.t) (p d : string) (r : Z)
    (later : list RngHypothesisTable.RngKey) (Hs : RngTable.reachable s) :
  let '(res, s1) := RngHypothesisTable.hypothesis_index_for p d r s in
  let es := RngTable.entries (p, d) (RngHypothesisTable._index_by_key s1) in
  NoDup (es.*1) /\ es.*2 = seqZ 0 (Z.of_nat (length es)) /\
  (exists i, res = Ok i /\ 0 <= i < Z.of_nat (length es) /\
     RngHypothesisTable.hypothesis_index_for p d r (RngTable.alloc later s1)
     = (Ok i, RngTable.alloc later s1)).
Proof.
  pose proof (RngTable.wf_index_for p d r s (RngTable.reachable_wf s Hs)) as Hwf.
  destruct (RngTable.index_for_ok p d r s) as (i & s1 & H). rewrite H in *. simpl in Hwf.
  apply RngTable.index_for_cases in H as [Hl _]. destruct Hwf as [Hk Hi _]. split_and!.
  - by apply NoDup_fmap_filter.
  - apply Hi.
  - exists i. split; [done|].
    assert (Hin : ((p, d, r), i) ∈ RngTable.entries (p, d) (RngHypothesisTable._index_by_key s1)).
    { apply list_elem_of_filter. split; [done|]. by apply RngTable.lookup_key_elem. }
    apply (list_elem_of_fmap_2 snd) in Hin. rewrite Hi in Hin. apply elem_of_seqZ in Hin.
    split; [simpl in Hin; lia|]. unfold RngHypothesisTable.hypothesis_index_for.
    by rewrite (RngTable.lookup_key_stable later s1 _ i).
Qed.

Lemma rng_indices_contiguous_and_stable_witness :
  let '(res, s1) := RngHypothesisTable.hypothesis_index_for "root" "d-root-000001" 7
    (RngHypothesisTable.hypothesis_index_for "root" "d-root-000001" 9 RngHypothesisTable.init).2 in
  let es := RngTable.entries ("root", "d-root-000001") (RngHypothesisTable._index_by_key s1) in
  NoDup (es.*1) /\ es.*2 = seqZ 0 (Z.of_nat (length es)) /\
  (exists i, res = Ok i /\ 0 <= i < Z.of_nat (length es) /\
     RngHypothesisTable.hypothesis_index_for "root" "d-root-000001" 7
       (RngTable.alloc [("root", "x", 1)] s1)
     = (Ok i, RngTable.alloc [("root", "x", 1)] s1)).
Proof.
  apply (rng_indices_contiguous_and_stable _ "root" "d-root-000001" 7 [("root", "x", 1)]).
  apply RngTable.reach_index, RngTable.reach_init.
Defined.

Lemma restore_alloc (s : RngHypothesisTable.t) (batch : list RngHypothesisTable.RngKey) :
  RngTable.wf s ->
  RngHypothesisTable.restore (VInt (RngHypothesisTable.snapshot s)) (RngTable.alloc batch s) = (Ok tt, s).
Proof.
  intros Hs. pose proof (RngTable.length_alloc batch s) as Hlen. unfold RngHypothesisTable.restore.
  replace ((RngHypothesisTable.snapshot s <? 0) || _) with false.
  - by rewrite RngTable.restore_loop_alloc.
  - symmetry. apply orb_false_iff. unfold RngHypothesisTable.snapshot.
    split; apply Z.ltb_ge; lia.
Qed.

(** A batch of hypothesis lookups is undone exactly by restoring the marker
    taken before it: the round trip gives back the same table, so that a
    request that fails leaves no trace in the hypothesis numbering. *)
Theorem rng_restore_roundtrip (s : RngHypothesisTable.t) (batch : list RngHypothesisTable.RngKey)
    (Hs : RngTable.reachable s) :
  RngHypothesisTable.restore (VInt (RngHypothesisTable.snapshot s)) (RngTable.alloc batch s)
  = (Ok tt, s).
Proof. by apply restore_alloc, RngTable.reachable_wf. Qed.

Lemma rng_restore_roundtrip_witness :
  RngHypothesisTable.restore (VInt (RngHypothesisTable.snapshot RngHypothesisTable.init))
    (RngTable.alloc [("root", "d", 7); ("root", "d", 9); ("b", "d", 7)] RngHypothesisTable.init)
  = (Ok tt, RngHypothesisTable.init).
Proof. apply rng_restore_roundtrip. apply RngTable.reach_init. Defined.
