(* ===== verification/Server.v ===== *)
(** The request dispatcher (API/server.py): [RLApiServer], over an interface of
    instances. Sessions are request ledgers by client session id, instances an
    insertion-ordered dictionary by instance id. *)

From S2P Require Export Identifiers Validation.

(** What an instance (combat or whole run) promises the server: its methods
    read and write its own state [I] and the engine outside of it, [W]. *)
Class ApiInstance (I W : Type) := {
  instance_type : I -> option string;
  (** [CombatInstance(id, config, **kwargs)], [WholeRunInstance(...)]. *)
  new_instance : string -> string -> pydict -> M W I;
  start_instance_response : M (I * W) pyval;
  get_decision : pyval -> M (I * W) pyval;
  commit_action : pyval -> pyval -> M (I * W) pyval;
  emulate_action (parent_branch_id branch_id rng_id decision_point_id action_id
    simulation_options : pyval) : M (I * W) pyval;
  emulate_actions (items simulation_options : pyval) : M (I * W) pyval;
  cancel_branches : pyval -> M (I * W) pyval;
  release_branches : pyval -> M (I * W) pyval;
  get_branch_status : pyval -> M (I * W) pyval;
  close : M (I * W) unit;
}.

Definition DEFAULT_MAX_SESSIONS : Z := 4096.

Definition _OPERATION_INSTANCE_TYPES : list (string * list string) :=
  [(OP_EMULATE_ACTIONS, [INSTANCE_TYPE_COMBAT; INSTANCE_TYPE_WHOLE_RUN])].

Section Server.
Context {I W : Type} {HI : ApiInstance I W}.
Context (server_epoch : string) (max_sessions : Z).

Record server := Server {
  _sessions : gmap string SessionLedger.t;
  _instances : list (string * I);
  _instance_serial : N;
  engine : W;
}.

(** [__init__]. *)
Definition server_init (w : W) : Res server :=
  if max_sessions <=? 0 then Raise (PyExc "ValueError" "max_sessions must be positive")
  else Ok (Server ∅ [] 1 w).

Definition instance_count (s : server) : nat := length (_instances s).
Definition session_count (s : server) : nat := size (_sessions s).

(** A method of the session's ledger. *)
Definition on_ledger {A} (sid : string) (m : M SessionLedger.t A) : M server A := fun s =>
  let '(r, l) := m (default SessionLedger.init (_sessions s !! sid)) in
  (r, Server (<[sid := l]> (_sessions s)) (_instances s) (_instance_serial s) (engine s)).

Definition set_active (o : option string) : M SessionLedger.t unit :=
  modS (fun l => SessionLedger.mk (SessionLedger.last_seq l) (SessionLedger.last_digest l)
                   (SessionLedger.last_response l) o).

(** A method of a registered instance. *)
Definition on_instance {A} (iid : string) (m : M (I * W) A) : M server A := fun s =>
  match dget iid (_instances s) with
  | None => (Raise (PyExc "KeyError" (repr_str iid)), s)
  | Some i =>
      let '(r, (i', w)) := m (i, engine s) in
      (r, Server (_sessions s) (dset iid i' (_instances s)) (_instance_serial s) w)
  end.

Definition on_engine {A} (m : M W A) : M server A := fun s =>
  let '(r, w) := m (engine s) in
  (r, Server (_sessions s) (_instances s) (_instance_serial s) w).

Definition pop_instance (iid : string) : M server unit :=
  modS (fun s => Server (_sessions s) (ddel iid (_instances s)) (_instance_serial s) (engine s)).

(** [try: m except Exception: pass]. *)
Definition ignore {S} (m : M S unit) : M S unit := tryM m (fun _ => mret tt).

(** [close_all]: every instance is closed in registration order, whatever the
    earlier ones raise. *)
Fixpoint close_each (ids : list string) : M server unit :=
  match ids with
  | [] => mret tt
  | i :: ids' => ignore (on_instance i close);; close_each ids'
  end.
Definition close_all : M server unit := fun s =>
  let '(_, s') := close_each (dkeys (_instances s)) s in
  (Ok tt, Server ∅ [] (_instance_serial s') (engine s')).

Definition instance_name (n : N) : string := "inst-" +:+ zero_pad 6 n.

(** [next(self._instance_serial)]. *)
Definition next_serial : M server N := fun s =>
  (Ok (_instance_serial s),
   Server (_sessions s) (_instances s) (_instance_serial s + 1) (engine s)).

Definition add_instance (iid : string) (i : I) : M server unit :=
  modS (fun s => Server (_sessions s) (dset iid i (_instances s)) (_instance_serial s) (engine s)).

(** The check of the start response inside the [try]. *)
Definition start_response (iid : string) : M server pydict :=
  response ← on_instance iid start_instance_response;
  match response with
  | VDict d =>
      if veq_str (dget_none "status" d) STATUS_COMPLETED
      then mret (dset "instance_id" (VStr iid) d)
      else raiseM (PyExc "TypeError" "start_instance_response must return a completed response")
  | _ => raiseM (PyExc "TypeError" "start_instance_response must return a completed response")
  end.

Definition _handle_start_instance (payload : pydict) : M server pydict :=
  config ← liftR (dindex "instance_config" payload);
  match config with
  | VDict instance_config =>
      let ty := dget_none "instance_type" instance_config in
      serial ← next_serial;
      let iid := instance_name serial in
      i ← (if veq_str ty INSTANCE_TYPE_COMBAT
           then on_engine (new_instance INSTANCE_TYPE_COMBAT iid instance_config)
           else if veq_str ty INSTANCE_TYPE_WHOLE_RUN
           then on_engine (new_instance INSTANCE_TYPE_WHOLE_RUN iid instance_config)
           else raiseM (RequestRejected
             ("unknown instance_config.instance_type " +:+ py_repr ty) None));
      add_instance iid i;;
      tryM (start_response iid) (fun e =>
        ignore (on_instance iid close);; pop_instance iid;; raiseM e)
  | v => raiseM (PyExc "AttributeError"
           ("'" +:+ py_type_name v +:+ "' object has no attribute 'get'"))
  end.

Definition _handle_close_instance (sid iid : string) : M server pyval :=
  response ← tryM
    (on_instance iid close;; mret [("status", VStr STATUS_COMPLETED)])
    (fun exc =>
       let fault := fault_response (VDict [("instance_id", VStr iid)]) exc in
       mret [("status", VStr STATUS_FAULTED);
             ("error", dget_none "error" fault);
             ("fault_kind", dget_none "fault_kind" fault)]);
  pop_instance iid;;
  on_ledger sid (set_active None);;
  mret (VDict response).

(** The method call of an operation on one instance. *)
Definition dispatch_method (i : I) (operation : string) (payload : pydict) : M (I * W) pyval :=
  let arg k := liftR (dindex k payload) in
  let opts := dget_none "simulation_options" payload in
  if (match dget operation _OPERATION_INSTANCE_TYPES with
      | Some allowed =>
          match instance_type i with Some ty => negb (str_in ty allowed) | None => true end
      | None => false
      end)
  then raiseM (RequestRejected
    ("operation " +:+ repr_str operation +:+ " is not supported for instance_type " +:+
     repr_opt (instance_type i)) None)
  else if String.eqb operation OP_GET_DECISION then
    b ← arg "branch_id"; get_decision b
  else if String.eqb operation OP_COMMIT_ACTION then
    d ← arg "decision_point_id"; a ← arg "action_id"; commit_action d a
  else if String.eqb operation OP_EMULATE_ACTION then
    p ← arg "parent_branch_id"; b ← arg "branch_id"; r ← arg "rng_id";
    d ← arg "decision_point_id"; a ← arg "action_id";
    emulate_action p b r d a opts
  else if String.eqb operation OP_EMULATE_ACTIONS then
    items ← arg "items"; emulate_actions items opts
  else if String.eqb operation OP_CANCEL_BRANCHES then
    ids ← arg "branch_ids"; cancel_branches ids
  else if String.eqb operation OP_RELEASE_BRANCHES then
    ids ← arg "branch_ids"; release_branches ids
  else if String.eqb operation OP_GET_BRANCH_STATUS then
    ids ← arg "branch_ids"; get_branch_status ids
  else raiseM (RequestRejected ("unhandled operation " +:+ repr_str operation) None).

Definition _dispatch (iid : string) (i : I) (operation : string) (payload : pydict)
    : M server pyval :=
  on_instance iid (dispatch_method i operation payload).

Definition _execute_new_request (sid : string) (payload : pydict) : M server pyval :=
  s ← getS;
  let ledger := default SessionLedger.init (_sessions s !! sid) in
  operation ← liftR (dindex "operation" payload);
  if veq_str operation OP_START_INSTANCE then
    match SessionLedger.active_instance_id ledger with
    | Some active =>
        reject_kind ("session already owns active instance " +:+ repr_str active)
          FAULT_SESSION_INSTANCE_CONFLICT
    | None =>
        response ← _handle_start_instance payload;
        match dget_none "instance_id" response with
        | VStr iid =>
            if negb (String.eqb iid "") then
              on_ledger sid (set_active (Some iid));; mret (VDict response)
            else mret (VDict response)
        | _ => mret (VDict response)
        end
    end
  else
    v ← liftR (dindex "instance_id" payload);
    match SessionLedger.active_instance_id ledger, v with
    | Some active, VStr iid =>
        if negb (String.eqb active iid) then
          reject_kind ("instance_id " +:+ py_repr v +:+ " is not owned by this client session")
            FAULT_SESSION_INSTANCE_CONFLICT
        else match dget iid (_instances s) with
        | None =>
            reject_kind ("unknown instance_id " +:+ py_repr v) FAULT_UNKNOWN_INSTANCE
        | Some i =>
            if veq_str operation OP_CLOSE_INSTANCE then _handle_close_instance sid iid
            else _dispatch iid i (py_str operation) payload
        end
    | _, _ =>
        reject_kind ("instance_id " +:+ py_repr v +:+ " is not owned by this client session")
          FAULT_SESSION_INSTANCE_CONFLICT
    end.

Definition _get_or_create_session (sid : string) (request_seq : Z) : M server unit := fun s =>
  match _sessions s !! sid with
  | Some _ => (Ok tt, s)
  | None =>
      if negb (request_seq =? 1) then
        reject_kind ("request_seq must be 1 for a new session, got " +:+ pretty request_seq)
          FAULT_SESSION_SEQUENCE_GAP s
      else if max_sessions <=? Z.of_nat (size (_sessions s)) then
        reject_kind "RL session capacity exhausted; restart RL or reuse an existing client session"
          FAULT_SESSION_CAPACITY s
      else (Ok tt, Server (<[sid := SessionLedger.init]> (_sessions s)) (_instances s)
                     (_instance_serial s) (engine s))
  end.

(** The fields written last. *)
Definition wrap_fields (d : pydict) : pydict :=
  [("schema_version", VStr SCHEMA_VERSION);
   ("server_epoch", VStr server_epoch);
   ("client_session_id", dget_none "client_session_id" d);
   ("request_seq", dget_none "request_seq" d);
   ("request_id", dget_none "request_id" d);
   ("operation", dget_none "operation" d)].

Definition _wrap (payload : pyval) (response : pydict) : Res pydict :=
  match payload with
  | VDict d =>
      let wrapped := dupdate response (wrap_fields d) in
      Ok (match dget_none "instance_id" d with
          | VNone => wrapped
          | v => dset "instance_id" v wrapped
          end)
  | v => Raise (PyExc "AttributeError"
           ("'" +:+ py_type_name v +:+ "' object has no attribute 'get'"))
  end.

Definition _rejected (payload : pyval) (error : string) (fault_kind : option string)
    : Res pydict :=
  _wrap payload
    [("status", VStr STATUS_REJECTED); ("error", VStr error); ("fault_kind", opt_str fault_kind)].

(** The response of an executed request: a rejection or a fault when the handler
    raised, and a fault when its status is not one of [STATUSES]. *)
Definition handler_response (payload : pydict) (r : Res pyval) : pydict :=
  let response := match r with
    | Ok v => v
    | Raise (RequestRejected error k) =>
        VDict [("status", VStr STATUS_REJECTED); ("error", VStr error);
               ("fault_kind", opt_str k)]
    | Raise exc => VDict (fault_response (VDict payload) exc)
    end in
  let invalid status := fault_response (VDict payload)
    (PyExc "TypeError" ("RL handler returned invalid response status " +:+ py_repr status)) in
  match response with
  | VDict d =>
      match dget_none "status" d with
      | VStr st => if str_in st STATUSES then d else invalid (VStr st)
      | status => invalid status
      end
  | _ => invalid VNone
  end.

(** The body of the second [try] of [handle_request]. *)
Definition handle_valid (payload : pydict) (sid : string) (request_seq : Z) : M server pydict :=
  _get_or_create_session sid request_seq;;
  cached ← on_ledger sid (SessionLedger.begin payload);
  match cached with
  | Some response => mret response
  | None => fun s =>
      let '(r, s') := _execute_new_request sid payload s in
      (response ← liftR (_wrap (VDict payload) (handler_response payload r));
       on_ledger sid (SessionLedger.complete response);;
       mret response) s'
  end.

Definition handle_request (payload : pyval) : M server pydict :=
  match validate_request payload with
  | Raise (RequestRejected error k) =>
      liftR (_rejected payload error
        (Some (match k with Some f => if String.eqb f "" then FAULT_INVALID_REQUEST else f
                          | None => FAULT_INVALID_REQUEST end)))
  | Raise e => raiseM e
  | Ok d =>
      match dget_none "client_session_id" d, dget_none "request_seq" d with
      | VStr sid, VInt request_seq =>
          tryM (handle_valid d sid request_seq) (fun e =>
            match e with
            | RequestRejected error k => liftR (_rejected payload error k)
            | _ => raiseM e
            end)
      | _, _ => raiseM (PyExc "TypeError" "unhashable type")
      end
  end.

End Server.

(** * The effect of one executed request *)

Section ServerProofs.
Context {I W : Type} {HI : ApiInstance I W}.
Context (server_epoch : string) (max_sessions : Z).
Implicit Types (s : @server I W) (l : SessionLedger.t).

Definition ledger_of (sid : string) s : SessionLedger.t :=
  default SessionLedger.init (_sessions s !! sid).
Definition with_active (o : option string) l : SessionLedger.t :=
  SessionLedger.mk (SessionLedger.last_seq l) (SessionLedger.last_digest l)
    (SessionLedger.last_response l) o.

(** What executing a request of session [sid] may change. *)
Inductive exec_effect (sid : string) s : @server I W -> Prop :=
  | eff_engine n w :
      n = _instance_serial s \/ n = (_instance_serial s + 1)%N ->
      exec_effect sid s (Server (_sessions s) (_instances s) n w)
  | eff_start_failed w :
      exec_effect sid s (Server (_sessions s)
        (ddel (instance_name (_instance_serial s)) (_instances s)) (_instance_serial s + 1) w)
  | eff_started i w :
      SessionLedger.active_instance_id (ledger_of sid s) = None ->
      exec_effect sid s (Server
        (<[sid := with_active (Some (instance_name (_instance_serial s))) (ledger_of sid s)]>
           (_sessions s))
        (dset (instance_name (_instance_serial s)) i (_instances s)) (_instance_serial s + 1) w)
  | eff_called iid i i' w :
      SessionLedger.active_instance_id (ledger_of sid s) = Some iid ->
      dget iid (_instances s) = Some i ->
      exec_effect sid s (Server (_sessions s) (dset iid i' (_instances s)) (_instance_serial s) w)
  | eff_closed iid i w :
      SessionLedger.active_instance_id (ledger_of sid s) = Some iid ->
      dget iid (_instances s) = Some i ->
      exec_effect sid s (Server (<[sid := with_active None (ledger_of sid s)]> (_sessions s))
        (ddel iid (_instances s)) (_instance_serial s) w).

Lemma on_instance_eq {A} iid i (m : M (I * W) A) s :
  dget iid (_instances s) = Some i ->
  exists r i' w, on_instance iid m s
    = (r, Server (_sessions s) (dset iid i' (_instances s)) (_instance_serial s) w).
Proof.
  intros Hi. unfold on_instance. rewrite Hi. destruct (m (i, engine s)) as [r [i' w]].
  by eexists _, _, _.
Qed.

Lemma ignore_on_instance iid i (m : M (I * W) unit) s :
  dget iid (_instances s) = Some i ->
  exists i' w, ignore (on_instance iid m) s
    = (Ok tt, Server (_sessions s) (dset iid i' (_instances s)) (_instance_serial s) w).
Proof.
  intros Hi. destruct (on_instance_eq iid i m s Hi) as (r & i' & w & H).
  exists i', w. unfold ignore, tryM. rewrite H. by destruct r as [[]|].
Qed.

(** Starting: either nothing is registered, or the new instance is. *)
Lemma start_effect d s :
  let iid := instance_name (_instance_serial s) in
  match _handle_start_instance (HI:=HI) d s with
  | (Ok resp, s') => dget "instance_id" resp = Some (VStr iid) /\
      exists i w, s' = Server (_sessions s) (dset iid i (_instances s)) (_instance_serial s + 1) w
  | (Raise _, s') => (exists n w, (n = _instance_serial s \/ n = (_instance_serial s + 1)%N) /\
        s' = Server (_sessions s) (_instances s) n w) \/
      exists w, s' = Server (_sessions s) (ddel iid (_instances s)) (_instance_serial s + 1) w
  end.
Proof.
  simpl. unfold _handle_start_instance, mbind, M_bind, liftR.
  destruct (dindex "instance_config" d) as [[| | | | | |c]|e] eqn:Ec;
    try (left; exists (_instance_serial s), (engine s); split; [by left|by destruct s]).
  simpl. unfold next_serial. simpl. set (iid := instance_name (_instance_serial s)).
  set (ctor := if veq_str _ _ then _ else _). set (s1 := Server _ _ _ _).
  assert (Hc : exists r w, ctor s1
    = (r, Server (_sessions s) (_instances s) (_instance_serial s + 1) w)).
  { unfold ctor, on_engine, raiseM. repeat case_match; eexists _, _; done. }
  destruct Hc as (r & w & ->). destruct r as [i|e]; [|left; eexists _, _; by split; [right|]].
  unfold add_instance, modS. simpl. set (s2 := Server _ (dset iid i _) _ w).
  assert (Hi2 : dget iid (_instances s2) = Some i) by apply dget_dset_eq.
  unfold tryM at 1.
  assert (Hsr : exists r i' w', start_response iid s2
    = (r, Server (_sessions s) (dset iid i' (_instances s)) (_instance_serial s + 1) w') /\
      (forall resp, r = Ok resp -> dget "instance_id" resp = Some (VStr iid))).
  { unfold start_response, mbind, M_bind.
    destruct (on_instance_eq iid i start_instance_response s2 Hi2) as (r & i' & w' & ->).
    simpl. rewrite dset_dset. unfold raiseM, mret, M_ret.
    destruct r as [[]|]; repeat case_match; simplify_eq; eexists _, _, _; (split; [done|]);
      intros ? [= <-]; apply dget_dset_eq. }
  destruct Hsr as (r & i' & w' & -> & Hr). destruct r as [resp|e].
  { simpl. split; [by apply Hr|]. by eexists _, _. }
  set (s3 := Server _ (dset iid i' _) _ w').
  assert (Hi3 : dget iid (_instances s3) = Some i') by apply dget_dset_eq.
  destruct (ignore_on_instance iid i' close s3 Hi3) as (i'' & w'' & ->).
  right. exists w''. simpl. by rewrite !ddel_dset.
Qed.

Lemma eff_refl sid s : exec_effect sid s s.
Proof.
  pose proof (eff_engine sid s (_instance_serial s) (engine s) (or_introl eq_refl)) as H.
  by destruct s.
Qed.

Lemma close_effect sid iid i s :
  SessionLedger.active_instance_id (ledger_of sid s) = Some iid ->
  dget iid (_instances s) = Some i ->
  exec_effect sid s (_handle_close_instance (HI:=HI) sid iid s).2.
Proof.
  intros Ha Hi. unfold _handle_close_instance, mbind, M_bind, tryM.
  destruct (on_instance_eq iid i close s Hi) as (r & i' & w & ->).
  assert (He := eff_closed sid s iid i w Ha Hi).
  destruct r; simpl; unfold on_ledger; simpl; by rewrite ddel_dset.
Qed.

Lemma exec_effect_ok sid d s : exec_effect sid s (_execute_new_request (HI:=HI) sid d s).2.
Proof.
  unfold _execute_new_request, mbind, M_bind, getS, liftR. fold (ledger_of sid s).
  destruct (dindex "operation" d) as [op|]; [|apply eff_refl].
  destruct (veq_str op OP_START_INSTANCE).
  - destruct (SessionLedger.active_instance_id (ledger_of sid s)) as [a|] eqn:Ha;
      [apply eff_refl|].
    pose proof (start_effect d s) as H. destruct (_handle_start_instance d s) as [[resp|e] s'].
    + destruct H as (Hd & i & w & ->). unfold dget_none. rewrite Hd. simpl.
      by apply eff_started.
    + destruct H as [(n & w & Hn & ->)|(w & ->)]; [by apply eff_engine|apply eff_start_failed].
  - destruct (dindex "instance_id" d) as [v|]; [|apply eff_refl].
    destruct (SessionLedger.active_instance_id (ledger_of sid s)) as [a|] eqn:Ha;
      [|apply eff_refl].
    destruct v; try apply eff_refl.
    destruct (String.eqb_spec a s0) as [->|]; simpl; [|apply eff_refl].
    destruct (dget s0 (_instances s)) as [i|] eqn:Hi; [|apply eff_refl].
    destruct (veq_str op OP_CLOSE_INSTANCE); [by eapply close_effect|].
    unfold _dispatch. destruct (on_instance_eq s0 i (dispatch_method i (py_str op) d) s Hi)
      as (r & i' & w & ->). by eapply eff_called.
Qed.

(** The ledger a request left behind keeps its transport part. *)
Definition same_transport l l' : Prop :=
  SessionLedger.last_seq l' = SessionLedger.last_seq l /\
  SessionLedger.last_digest l' = SessionLedger.last_digest l /\
  SessionLedger.last_response l' = SessionLedger.last_response l.

Lemma effect_ledgers sid s s' :
  exec_effect sid s s' ->
  (forall sid', sid' ≠ sid -> _sessions s' !! sid' = _sessions s !! sid') /\
  same_transport (ledger_of sid s) (ledger_of sid s').
Proof.
  intros He. destruct He; split; try done; try (by intros; apply lookup_insert_ne);
    unfold ledger_of at 2; simpl; by rewrite lookup_insert_eq.
Qed.

(** * The outcome of a request *)

(** The state in which request [d] of session [sid] is executed. *)
Definition begun (sid : string) (d : pydict) (seq : Z) s : @server I W :=
  Server (<[sid := SessionLedger.mk seq (Some (_payload_digest d)) None
                    (SessionLedger.active_instance_id (ledger_of sid s))]> (_sessions s))
    (_instances s) (_instance_serial s) (engine s).

Inductive valid_outcome (sid : string) (d : pydict) (seq : Z) s :
    Res pydict * @server I W -> Prop :=
  | out_refused msg k :
      k = FAULT_SESSION_SEQUENCE_GAP \/ k = FAULT_SESSION_CAPACITY \/
      k = FAULT_SESSION_SEQUENCE_CONFLICT ->
      (k = FAULT_SESSION_SEQUENCE_CONFLICT ->
       exists l, _sessions s !! sid = Some l /\ SessionLedger.last_seq l = seq) ->
      valid_outcome sid d seq s (Raise (RequestRejected msg (Some k)), s)
  | out_replayed l resp :
      _sessions s !! sid = Some l ->
      SessionLedger.last_seq l = seq ->
      SessionLedger.last_digest l = Some (_payload_digest d) ->
      SessionLedger.last_response l = Some resp ->
      valid_outcome sid d seq s (Ok resp, s)
  | out_executed r s2 resp :
      seq = SessionLedger.last_seq (ledger_of sid s) + 1 ->
      (_sessions s !! sid = None -> Z.of_nat (size (_sessions s)) < max_sessions) ->
      _execute_new_request sid d (begun sid d seq s) = (r, s2) ->
      _wrap server_epoch (VDict d) (handler_response d r) = Ok resp ->
      valid_outcome sid d seq s (Ok resp, (on_ledger sid (SessionLedger.complete resp) s2).2).

Lemma on_ledger_same {A} sid l (m : M SessionLedger.t A) s r :
  _sessions s !! sid = Some l -> m l = (r, l) -> on_ledger sid m s = (r, s).
Proof.
  intros Hl Hm. unfold on_ledger. rewrite Hl. simpl. rewrite Hm, insert_id by done.
  by destruct s.
Qed.

Lemma execute_outcome sid d seq s s1 :
  seq = SessionLedger.last_seq (ledger_of sid s) + 1 ->
  (_sessions s !! sid = None -> Z.of_nat (size (_sessions s)) < max_sessions) ->
  s1 = begun sid d seq s ->
  valid_outcome sid d seq s
    ((fun s => let '(r, s') := _execute_new_request sid d s in
      (response ← liftR (_wrap server_epoch (VDict d) (handler_response d r));
       on_ledger sid (SessionLedger.complete response);; mret response) s') s1).
Proof.
  intros Hseq Hcap ->. destruct (_execute_new_request sid d (begun sid d seq s)) as [r s2] eqn:E.
  unfold mbind, M_bind, liftR.
  destruct (_wrap server_epoch (VDict d) (handler_response d r)) as [resp|] eqn:Ew; [|done].
  pose proof (out_executed sid d seq s r s2 resp Hseq Hcap E Ew) as H.
  exact H.
Qed.

Lemma handle_valid_outcome sid d seq s :
  dget "request_seq" d = Some (VInt seq) ->
  valid_outcome sid d seq s (handle_valid server_epoch max_sessions d sid seq s).
Proof.
  intros Hd. unfold handle_valid, _get_or_create_session. unfold mbind, M_bind at 1.
  destruct (_sessions s !! sid) as [l|] eqn:Hl.
  - assert (Hlo : ledger_of sid s = l) by (unfold ledger_of; by rewrite Hl).
    simpl. unfold M_bind, on_ledger. rewrite Hl. simpl. unfold SessionLedger.begin.
    rewrite Hd. simpl.
    destruct (Z.eqb_spec seq (SessionLedger.last_seq l)) as [->|Hne].
    + case_bool_decide as Hdg; simpl.
      * destruct (SessionLedger.last_response l) as [resp|] eqn:Hr; simpl.
        -- rewrite insert_id by done. unfold mret, M_ret. destruct s. by eapply out_replayed.
        -- rewrite insert_id by done. destruct s. apply out_refused; [tauto|eauto].
      * rewrite insert_id by done. destruct s. apply out_refused; [tauto|eauto].
    + destruct (Z.eqb_spec seq (SessionLedger.last_seq l + 1)) as [Heq|]; simpl.
      * apply execute_outcome; [by rewrite Hlo|congruence|].
        unfold begun. by rewrite Hlo, Heq.
      * rewrite insert_id by done. destruct s. by apply out_refused; [tauto|].
  - assert (Hlo : ledger_of sid s = SessionLedger.init) by (unfold ledger_of; by rewrite Hl).
    destruct (Z.eqb_spec seq 1) as [->|]; simpl; [|by apply out_refused; [tauto|]].
    destruct (Z.leb_spec max_sessions (Z.of_nat (size (_sessions s)))); simpl;
      [by apply out_refused; [tauto|]|].
    unfold M_bind, on_ledger. simpl. rewrite lookup_insert_eq. simpl.
    unfold SessionLedger.begin. rewrite Hd. simpl. rewrite insert_insert_eq.
    apply execute_outcome; [by rewrite Hlo|done|]. unfold begun. by rewrite Hlo.
Qed.

Lemma wrap_dict d resp : exists r, _wrap server_epoch (VDict d) resp = Ok r.
Proof. by eexists. Qed.

Inductive request_outcome (p : pyval) s : Res pydict * @server I W -> Prop :=
  | ro_invalid msg k :
      validate_request p = Raise (RequestRejected msg k) ->
      request_outcome p s
        (_rejected server_epoch p msg (Some FAULT_INVALID_REQUEST), s)
  | ro_refused d sid seq op msg k resp :
      p = VDict d -> request_wf d sid seq op ->
      _rejected server_epoch p msg k = Ok resp ->
      request_outcome p s (Ok resp, s)
  | ro_replayed d sid seq op l resp :
      p = VDict d -> request_wf d sid seq op ->
      _sessions s !! sid = Some l ->
      SessionLedger.last_seq l = seq ->
      SessionLedger.last_digest l = Some (_payload_digest d) ->
      SessionLedger.last_response l = Some resp ->
      request_outcome p s (Ok resp, s)
  | ro_executed d sid seq op r s2 resp :
      p = VDict d -> request_wf d sid seq op ->
      seq = SessionLedger.last_seq (ledger_of sid s) + 1 ->
      (_sessions s !! sid = None -> Z.of_nat (size (_sessions s)) < max_sessions) ->
      _execute_new_request sid d (begun sid d seq s) = (r, s2) ->
      _wrap server_epoch (VDict d) (handler_response d r) = Ok resp ->
      request_outcome p s (Ok resp, (on_ledger sid (SessionLedger.complete resp) s2).2).

(** A valid request reaches [handle_valid] with its session and sequence. *)
Lemma handle_request_valid d sid seq op s :
  request_wf d sid seq op ->
  handle_request server_epoch max_sessions (VDict d) s
  = match handle_valid server_epoch max_sessions d sid seq s with
    | (Raise (RequestRejected m k), s') => (_rejected server_epoch (VDict d) m k, s')
    | x => x
    end.
Proof.
  intros Hwf. unfold handle_request. rewrite (validate_request_complete _ _ _ _ Hwf).
  destruct Hwf as [_ Hs _ Hn _ _ _ _ _ _]. unfold dget_none. rewrite Hs, Hn. unfold tryM.
  by destruct (handle_valid _ _ d sid seq s) as [[|[]] s'].
Qed.

Lemma handle_request_outcome p s :
  request_outcome p s (handle_request server_epoch max_sessions p s).
Proof.
  destruct (validate_request p) as [d|e] eqn:Ev.
  - apply validate_request_inv in Ev as (-> & sid & seq & op & Hwf).
    rewrite (handle_request_valid d sid seq op s Hwf).
    pose proof (handle_valid_outcome sid d seq s (wf_seq _ _ _ _ Hwf)) as Ho.
    destruct Ho as [msg k _ _|l resp|r s2 resp].
    + by eapply ro_refused.
    + by eapply ro_replayed.
    + by eapply ro_executed.
  - pose proof (rejects_only_validate p) as H. rewrite Ev in H. destruct H as [m ->].
    unfold handle_request. rewrite Ev. by eapply ro_invalid.
Qed.

(** The ledger of the executing session afterwards. *)
Lemma executed_ledger sid d seq s r s2 resp :
  _execute_new_request sid d (begun sid d seq s) = (r, s2) ->
  let s' := (on_ledger sid (SessionLedger.complete resp) s2).2 in
  exists a, _sessions s' !! sid
    = Some (SessionLedger.mk seq (Some (_payload_digest d)) (Some resp) a) /\
    (forall sid', sid' ≠ sid -> _sessions s' !! sid' = _sessions s !! sid').
Proof.
  intros He. pose proof (exec_effect_ok sid d (begun sid d seq s)) as Heff. rewrite He in Heff.
  apply effect_ledgers in Heff as [Ho (H1 & H2 & H3)]. simpl in *.
  unfold ledger_of, begun in H1, H2. simpl in H1, H2.
  rewrite lookup_insert_eq in H1, H2. simpl in H1, H2.
  rewrite lookup_insert_eq, H1, H2.
  eexists. split; [done|]. intros sid' Hne.
  rewrite lookup_insert_ne, Ho by done. unfold begun. simpl. by rewrite lookup_insert_ne.
Qed.

Lemma handle_valid_replay d sid seq s l resp :
  dget "request_seq" d = Some (VInt seq) ->
  _sessions s !! sid = Some l ->
  SessionLedger.last_seq l = seq ->
  SessionLedger.last_digest l = Some (_payload_digest d) ->
  SessionLedger.last_response l = Some resp ->
  handle_valid server_epoch max_sessions d sid seq s = (Ok resp, s).
Proof.
  intros Hd Hl Hs Hdg Hr. unfold handle_valid, _get_or_create_session.
  unfold mbind, M_bind at 1. rewrite Hl. unfold M_bind.
  rewrite (on_ledger_same sid l _ s (Ok (Some resp)) Hl); [done|].
  unfold SessionLedger.begin. rewrite Hd. simpl. rewrite Hs, Z.eqb_refl, Hdg.
  rewrite bool_decide_true by done. simpl. by rewrite Hr.
Qed.

(** * Ownership *)

Definition owns s (sid iid : string) : Prop :=
  exists l, _sessions s !! sid = Some l /\ SessionLedger.active_instance_id l = Some iid.

(** Every registered instance is owned by exactly one session, every owned
    instance is registered, instance ids are serials handed out before, and the
    session table is bounded. *)
Record server_inv s : Prop := {
  inv_registered : forall sid iid, owns s sid iid -> iid ∈ dkeys (_instances s);
  inv_owned : forall iid, iid ∈ dkeys (_instances s) -> exists sid, owns s sid iid;
  inv_exclusive : forall sid1 sid2 iid, owns s sid1 iid -> owns s sid2 iid -> sid1 = sid2;
  inv_nodup : NoDup (dkeys (_instances s));
  inv_serial : forall iid, iid ∈ dkeys (_instances s) ->
    exists n, iid = instance_name n /\ (n < _instance_serial s)%N;
  inv_capacity : Z.of_nat (size (_sessions s)) <= Z.max max_sessions 0;
}.

Lemma instance_name_inj n m : instance_name n = instance_name m -> n = m.
Proof.
  unfold instance_name. intros [= H].
  change (zero_pad 6 n = zero_pad 6 m) in H.
  by rewrite <- (zero_pad_value 6 n), H, zero_pad_value.
Qed.

Lemma inv_fresh s : server_inv s -> instance_name (_instance_serial s) ∉ dkeys (_instances s).
Proof. intros [_ _ _ _ Hs _] (n & ->%instance_name_inj & Hn)%Hs. lia. Qed.

(** The invariant only reads ownership, the keys, the serial and the size. *)
Lemma inv_ext s s' :
  server_inv s ->
  (forall sid iid, owns s' sid iid ↔ owns s sid iid) ->
  dkeys (_instances s') = dkeys (_instances s) ->
  (_instance_serial s <= _instance_serial s')%N ->
  Z.of_nat (size (_sessions s')) <= Z.max max_sessions 0 ->
  server_inv s'.
Proof.
  intros [H1 H2 H3 H4 H5 H6] Ho Hk Hser Hsz.
  split; rewrite ?Hk; try setoid_rewrite Ho; try done.
  intros iid (n & -> & Hn)%H5. exists n. split; [done|lia].
Qed.

(** Replacing the ledger of one session. *)
Lemma owns_insert s s' sid l :
  _sessions s' = <[sid := l]> (_sessions s) ->
  forall sid' iid, owns s' sid' iid ↔
    (sid' = sid /\ SessionLedger.active_instance_id l = Some iid) \/ (sid' ≠ sid /\ owns s sid' iid).
Proof.
  intros Hs sid' iid. unfold owns. rewrite Hs. destruct (decide (sid' = sid)) as [->|Hne].
  - rewrite lookup_insert_eq. naive_solver.
  - rewrite lookup_insert_ne by done. naive_solver.
Qed.

Lemma owns_ledger s sid iid :
  owns s sid iid ↔ SessionLedger.active_instance_id (ledger_of sid s) = Some iid.
Proof.
  unfold owns, ledger_of. destruct (_sessions s !! sid); simpl; naive_solver.
Qed.

Lemma owns_same_active s s' sid l :
  _sessions s' = <[sid := l]> (_sessions s) ->
  SessionLedger.active_instance_id l = SessionLedger.active_instance_id (ledger_of sid s) ->
  forall sid' iid, owns s' sid' iid ↔ owns s sid' iid.
Proof.
  intros Hs Ha sid' iid. rewrite (owns_insert s s' sid l Hs), Ha, <- owns_ledger.
  destruct (decide (sid' = sid)) as [->|]; naive_solver.
Qed.

Lemma size_insert_present {A} (m : gmap string A) k v :
  is_Some (m !! k) -> size (<[k := v]> m) = size m.
Proof. intros [x Hx]. by rewrite map_size_insert, Hx. Qed.

Lemma inv_effect sid s s' :
  server_inv s -> is_Some (_sessions s !! sid) -> exec_effect sid s s' -> server_inv s'.
Proof.
  intros Hinv Hin He. pose proof (inv_fresh s Hinv) as Hfr.
  assert (Hcap := inv_capacity s Hinv).
  destruct He as [n w Hn|w|i w Ha|iid i i' w Ha Hi|iid i w Ha Hi].
  - apply (inv_ext s); try done. destruct Hn; simpl; lia.
  - apply (inv_ext s); try done; simpl; [by rewrite ddel_fresh|lia].
  - destruct Hinv as [H1 H2 H3 H4 H5 H6].
    assert (Ho := owns_insert s (Server (<[sid:=with_active
      (Some (instance_name (_instance_serial s))) (ledger_of sid s)]> (_sessions s))
      (dset (instance_name (_instance_serial s)) i (_instances s)) (_instance_serial s + 1) w)
      sid _ eq_refl). simpl in Ho.
    assert (Hns : forall x, ¬ owns s sid x) by (intros x; rewrite owns_ledger; congruence).
    split; simpl; rewrite ?dset_fresh by done; unfold dkeys; rewrite ?fmap_app;
      try setoid_rewrite Ho; try setoid_rewrite elem_of_app; simpl.
    + intros sid' iid [[-> [= <-]]|[_ Hx]]; [right; left|left; by eapply H1].
    + intros iid [Hx| ->%list_elem_of_singleton]; [|by exists sid; left].
      destruct (H2 _ Hx) as [sid' Hs']. exists sid'. right. split; [|done].
      intros ->. by eapply Hns.
    + intros sid1 sid2 iid [[-> E1]|[? Hx]] [[-> E2]|[? Hy]]; try done.
      * injection E1 as <-. by apply H1 in Hy.
      * injection E2 as <-. by apply H1 in Hx.
      * by eapply H3.
    + apply NoDup_app. split_and!; [done|set_solver|apply NoDup_singleton].
    + intros iid [(n & -> & Hn)%H5| ->%list_elem_of_singleton]; eexists; (split; [done|lia]).
    + by rewrite size_insert_present.
  - apply (inv_ext s); try done; simpl. rewrite dkeys_dset. unfold dmem. by rewrite Hi.
  - destruct Hinv as [H1 H2 H3 H4 H5 H6]. apply owns_ledger in Ha.
    assert (Ho := owns_insert s (Server (<[sid:=with_active None (ledger_of sid s)]>
      (_sessions s)) (ddel iid (_instances s)) (_instance_serial s) w) sid _ eq_refl).
    simpl in Ho.
    split; simpl; rewrite ?dkeys_ddel; try setoid_rewrite Ho;
      try setoid_rewrite list_elem_of_filter.
    + intros sid' x [[_ ?]|[Hne Hx]]; [done|]. split; [|by eapply H1].
      intros ->. by apply Hne, (H3 _ _ iid).
    + intros x [Hne Hx]. destruct (H2 _ Hx) as [sid' Hs']. exists sid'. right. split; [|done].
      intros ->. apply Hne. rewrite owns_ledger in Ha, Hs'. congruence.
    + intros sid1 sid2 x [[_ ?]|[_ Hx]] [[_ ?]|[_ Hy]]; try done. by eapply H3.
    + by apply NoDup_filter.
    + intros x [_ Hx]. by apply H5.
    + by rewrite size_insert_present.
Qed.

Lemma inv_begun sid d seq s :
  server_inv s -> (_sessions s !! sid = None -> Z.of_nat (size (_sessions s)) < max_sessions) ->
  server_inv (begun sid d seq s).
Proof.
  intros Hinv Hcap. apply (inv_ext s); try done.
  - by apply (owns_same_active s (begun sid d seq s) sid _ eq_refl).
  - assert (Hc := inv_capacity s Hinv). unfold begun. simpl. rewrite map_size_insert.
    destruct (_sessions s !! sid); simpl; [done|]. specialize (Hcap eq_refl). lia.
Qed.

Lemma effect_keeps_session sid s s' :
  exec_effect sid s s' -> is_Some (_sessions s !! sid) -> is_Some (_sessions s' !! sid).
Proof. destruct 1; simpl; rewrite ?lookup_insert_eq; eauto. Qed.

Lemma inv_complete sid resp s :
  server_inv s -> is_Some (_sessions s !! sid) ->
  server_inv (on_ledger sid (SessionLedger.complete resp) s).2.
Proof.
  intros Hinv Hin. apply (inv_ext s); try done.
  - eapply owns_same_active; [done|]. done.
  - simpl. rewrite size_insert_present by done. by apply inv_capacity.
Qed.

Lemma inv_handle p s :
  server_inv s -> server_inv (handle_request server_epoch max_sessions p s).2.
Proof.
  intros Hinv. destruct (handle_request_outcome p s) as [| | |d sid seq op r s2 resp _ _ _ Hcap He _];
    try done. simpl.
  pose proof (exec_effect_ok sid d (begun sid d seq s)) as Heff. rewrite He in Heff.
  assert (is_Some (_sessions (begun sid d seq s) !! sid)) as Hb.
  { simpl. rewrite lookup_insert_eq. by eexists. }
  apply inv_complete; [|by eapply effect_keeps_session].
  eapply inv_effect; [|exact Hb|exact Heff]. by apply inv_begun.
Qed.

(** The states of a server: requests in any order, and [close_all]. *)
Inductive server_reachable : @server I W -> Prop :=
  | sreach_init w s : server_init max_sessions w = Ok s -> server_reachable s
  | sreach_request p s : server_reachable s ->
      server_reachable (handle_request server_epoch max_sessions p s).2
  | sreach_close_all s : server_reachable s -> server_reachable (close_all s).2.

Lemma reachable_inv s : server_reachable s -> server_inv s.
Proof.
  induction 1 as [w s H|p s _ IH|s _ IH].
  - unfold server_init in H. case_match; [done|]. simplify_eq.
    split; simpl; try (by intros; set_solver).
    + intros sid iid (l & Hl & _). simpl in Hl. by rewrite lookup_empty in Hl.
    + intros sid1 sid2 iid (l & Hl & _). simpl in Hl. by rewrite lookup_empty in Hl.
    + constructor.
    + rewrite map_size_empty. lia.
  - by apply inv_handle.
  - unfold close_all. destruct (close_each (dkeys (_instances s)) s) as [r s'].
    split; simpl; try (by intros; set_solver).
    + intros sid iid (l & Hl & _). simpl in Hl. by rewrite lookup_empty in Hl.
    + intros sid1 sid2 iid (l & Hl & _). simpl in Hl. by rewrite lookup_empty in Hl.
    + constructor.
    + rewrite map_size_empty. lia.
Qed.

(** What the response of a request that is not a replay carries. *)
Definition envelope_of (d resp : pydict) : Prop :=
  dget "schema_version" resp = Some (VStr SCHEMA_VERSION) /\
  dget "server_epoch" resp = Some (VStr server_epoch) /\
  dget "client_session_id" resp = Some (dget_none "client_session_id" d) /\
  dget "request_seq" resp = Some (dget_none "request_seq" d) /\
  dget "request_id" resp = Some (dget_none "request_id" d) /\
  dget "operation" resp = Some (dget_none "operation" d) /\
  (dget_none "instance_id" d ≠ VNone ->
   dget "instance_id" resp = Some (dget_none "instance_id" d)) /\
  exists st, dget "status" resp = Some (VStr st) /\ st ∈ STATUSES.

Lemma wrap_envelope d response resp st :
  _wrap server_epoch (VDict d) response = Ok resp ->
  dget "status" response = Some (VStr st) -> st ∈ STATUSES -> envelope_of d resp.
Proof.
  unfold _wrap. intros [= <-] Hst Hin.
  assert (Hnd : NoDup (dkeys (wrap_fields server_epoch d))) by (apply (bool_decide_unpack _); by vm_compute).
  assert (Hd : forall k, k ≠ "instance_id" ->
    dget k (match dget_none "instance_id" d with
            | VNone => dupdate response (wrap_fields server_epoch d)
            | v => dset "instance_id" v (dupdate response (wrap_fields server_epoch d)) end)
    = match dget k (wrap_fields server_epoch d) with Some v => Some v | None => dget k response end).
  { intros k Hk. rewrite <- (dget_dupdate k response (wrap_fields server_epoch d) Hnd).
    destruct (dget_none "instance_id" d); try apply dget_dset_ne; done. }
  split_and!; try (rewrite Hd by done; reflexivity).
  - intros Hne. destruct (dget_none "instance_id" d); try done; apply dget_dset_eq.
  - exists st. rewrite Hd by done. done.
Qed.

Lemma fault_status p e : dget "status" (fault_response p e) = Some (VStr STATUS_FAULTED).
Proof. unfold fault_response. case_match; try done; by rewrite dget_dset_ne. Qed.

Lemma handler_response_status d r :
  exists st, dget "status" (handler_response d r) = Some (VStr st) /\ st ∈ STATUSES.
Proof.
  assert (Hf : forall e, exists st,
    dget "status" (fault_response (VDict d) e) = Some (VStr st) /\ st ∈ STATUSES).
  { intros e. exists STATUS_FAULTED. rewrite fault_status. split; [done|].
    by apply str_in_elem. }
  unfold handler_response. cbv zeta.
  match goal with |- context [match ?x with VDict _ => _ | _ => _ end] => destruct x end;
    try apply Hf.
  unfold dget_none. destruct (dget "status" d0) as [[]|] eqn:E; try apply Hf.
  destruct (str_in s STATUSES) eqn:Es; [|apply Hf].
  exists s. split; [done|by apply str_in_elem].
Qed.

(** C1: Retrying is safe: sending any payload again, in whatever state the
    server was and whether the first attempt was executed, replayed or refused,
    returns the very same answer and changes nothing - no instance method runs
    a second time, no session or instance is created. *)
Theorem server_retry_idempotent (p : pyval) (s : @server I W) :
  let '(r, s') := handle_request server_epoch max_sessions p s in
  handle_request server_epoch max_sessions p s' = (r, s').
Proof.
  destruct (handle_request server_epoch max_sessions p s) as [r s'] eqn:E.
  pose proof (handle_request_outcome p s) as Ho. rewrite E in Ho.
  remember (r, s') as x eqn:Ex.
  destruct Ho as [| | |d sid seq op r0 s2 resp Hp Hwf Hseq Hcap He Hw];
    assert (Hr := f_equal fst Ex); assert (Hs' := f_equal snd Ex); cbn [fst snd] in Hr, Hs'; [subst; exact E..|]. subst p r.
  rewrite (handle_request_valid d sid seq op s' Hwf).
  destruct (executed_ledger sid d seq s r0 s2 resp He) as (a & Hl & _). rewrite Hs' in Hl.
  by rewrite (handle_valid_replay d sid seq s' _ resp (wf_seq _ _ _ _ Hwf) Hl).
Qed.

(** C2: A request has an effect only as the next request of its session: every
    call either leaves the whole server (sessions, instances, engine)
    untouched, or it is a valid request of a session [sid] whose sequence number
    is exactly one more than the last executed one of that session (one for a
    new session), which then becomes its last executed request, with the
    returned response stored for retries and every other session's ledger as it
    was. So each sequence number of a session is executed at most once, in
    order. *)
Theorem server_executes_in_sequence (p : pyval) (s : @server I W) :
  let '(r, s') := handle_request server_epoch max_sessions p s in
  s' = s \/
  exists d sid seq op resp a,
    p = VDict d /\ request_wf d sid seq op /\ r = Ok resp /\
    seq = SessionLedger.last_seq (ledger_of sid s) + 1 /\
    _sessions s' !! sid
      = Some (SessionLedger.mk seq (Some (_payload_digest d)) (Some resp) a) /\
    (forall sid', sid' ≠ sid -> _sessions s' !! sid' = _sessions s !! sid').
Proof.
  destruct (handle_request server_epoch max_sessions p s) as [r s'] eqn:E.
  pose proof (handle_request_outcome p s) as Ho. rewrite E in Ho.
  remember (r, s') as x eqn:Ex.
  destruct Ho as [| | |d sid seq op r0 s2 resp Hp Hwf Hseq Hcap He Hw];
    assert (Hr := f_equal fst Ex); assert (Hs' := f_equal snd Ex); cbn [fst snd] in Hr, Hs'; [by left..|]. right.
  destruct (executed_ledger sid d seq s r0 s2 resp He) as (a & Hl & Hoth).
  rewrite Hs' in Hl, Hoth. by exists d, sid, seq, op, resp, a.
Qed.

(** In every reachable server, sessions and instances are matched one to
    one: each registered instance is the active instance of exactly one
    session, each session's active instance is registered, instance ids are
    pairwise distinct serials already handed out (a new instance never takes
    over an old id), and the session table never exceeds its capacity. *)
Theorem server_ownership_invariant (s : @server I W) (Hs : server_reachable s) :
  (forall iid, iid ∈ dkeys (_instances s) ↔ exists sid, owns s sid iid) /\
  (forall sid1 sid2 iid, owns s sid1 iid -> owns s sid2 iid -> sid1 = sid2) /\
  NoDup (dkeys (_instances s)) /\
  instance_name (_instance_serial s) ∉ dkeys (_instances s) /\
  Z.of_nat (session_count s) <= Z.max max_sessions 0.
Proof.
  apply reachable_inv in Hs. pose proof (inv_fresh s Hs) as Hf.
  destruct Hs as [H1 H2 H3 H4 _ H6]. split_and!; try done.
  intros iid. split; [apply H2|]. intros [sid Hx]. by eapply H1.
Qed.

(** C24: Isolation: in a reachable server, a request of session [sid] leaves
    every instance owned by another session exactly as it was - same id, same
    state - and the other session still owns it; only the request's own
    instance can be called, closed or created. *)
Theorem server_isolation (s : @server I W) (d : pydict) (sid other iid : string)
    (Hs : server_reachable s)
    (Hsid : dget "client_session_id" d = Some (VStr sid))
    (Hother : other ≠ sid) (Hown : owns s other iid) :
  let s' := (handle_request server_epoch max_sessions (VDict d) s).2 in
  owns s' other iid /\ dget iid (_instances s') = dget iid (_instances s).
Proof.
  simpl. destruct (handle_request_outcome (VDict d) s)
    as [| | |d' sid' seq op r s2 resp [= <-] Hwf Hseq Hcap He Hw]; try done.
  assert (sid' = sid) as ->.
  { destruct Hwf as [_ Hx _ _ _ _ _ _ _ _]. congruence. }
  apply reachable_inv in Hs. destruct (executed_ledger sid d seq s r s2 resp He) as (a & _ & Hoth).
  split.
  { destruct Hown as (l & Hl & Ha). exists l. split; [|done]. by rewrite Hoth. }
  simpl. pose proof (exec_effect_ok sid d (begun sid d seq s)) as Heff. rewrite He in Heff.
  simpl in Heff.
  assert (Hkey : iid ∈ dkeys (_instances s)) by (by eapply inv_registered).
  assert (Hnew : iid ≠ instance_name (_instance_serial s)).
  { intros ->. by eapply inv_fresh. }
  assert (Hact : forall x, SessionLedger.active_instance_id (ledger_of sid (begun sid d seq s))
                   = Some x -> iid ≠ x).
  { intros x Hx ->. apply Hother. eapply (inv_exclusive s Hs); [exact Hown|].
    apply owns_ledger. unfold ledger_of at 1 in Hx. simpl in Hx.
    by rewrite lookup_insert_eq in Hx. }
  destruct Heff as [n w Hn|w|i w Ha|x i i' w Ha Hi|x i w Ha Hi]; simpl; try done.
  - by apply dget_ddel_ne.
  - by apply dget_dset_ne.
  - apply dget_dset_ne. by apply Hact.
  - apply dget_ddel_ne. by apply Hact.
Qed.

(** Every object sent to the server is answered (no exception escapes), and
    the answer is either the stored response of that same session and sequence
    number, or carries the server's own envelope: schema version, epoch and the
    request's session, sequence, id, operation and instance id, whatever the
    instance's response contained under those keys, with a status of the
    published list. *)
Theorem server_answers_with_envelope (d : pydict) (s : @server I W) :
  exists resp, (handle_request server_epoch max_sessions (VDict d) s).1 = Ok resp /\
    (envelope_of d resp \/
     exists sid l seq op, request_wf d sid seq op /\ _sessions s !! sid = Some l /\
       SessionLedger.last_seq l = seq /\ SessionLedger.last_response l = Some resp).
Proof.
  assert (Hrej : forall msg k resp, _rejected server_epoch (VDict d) msg k = Ok resp ->
    envelope_of d resp).
  { intros msg k resp Hr. eapply wrap_envelope; [exact Hr|done|]. by apply str_in_elem. }
  destruct (handle_request_outcome (VDict d) s)
    as [msg k Hv|d' sid seq op msg k resp [= <-] Hwf Hr|d' sid seq op l resp [= <-] Hwf
       Hl Hseq Hdg Hresp|d' sid seq op r s2 resp [= <-] Hwf Hseq Hcap He Hw].
  - eexists. split; [done|]. left. by eapply Hrej.
  - exists resp. split; [done|]. left. by eapply Hrej.
  - exists resp. split; [done|]. right. by exists sid, l, seq, op.
  - exists resp. split; [done|]. left. destruct (handler_response_status d r) as (st & ? & ?).
    by eapply wrap_envelope.
Qed.

End ServerProofs.

(** * A small instance *)

(** An instance that counts its calls, and faults when closed twice. *)
#[local] Instance counting : ApiInstance nat unit := {|
  instance_type _ := Some INSTANCE_TYPE_COMBAT;
  new_instance _ _ _ := mret 0%nat;
  start_instance_response := mret (VDict [("status", VStr STATUS_COMPLETED)]);
  get_decision _ := fun '(n, u) => (Ok (VDict [("status", VStr STATUS_COMPLETED)]), (S n, u));
  commit_action _ _ := mret (VList []);
  emulate_action _ _ _ _ _ _ := raiseM (PyExc "RuntimeError" "no branch");
  emulate_actions _ _ := raiseM (RequestRejected "busy" (Some "resource_unavailable"));
  cancel_branches _ := mret VNone;
  release_branches _ := mret VNone;
  get_branch_status _ := mret VNone;
  close := mret tt;
|}.

Definition demo_start (sid : string) : pydict :=
  [("schema_version", VStr "0.8"); ("client_session_id", VStr sid); ("request_seq", VInt 1);
   ("request_id", VStr (sid +:+ ":1")); ("operation", VStr OP_START_INSTANCE);
   ("instance_config", VDict [("instance_type", VStr INSTANCE_TYPE_COMBAT)])].

Definition demo_get (sid iid : string) : pydict :=
  [("schema_version", VStr "0.8"); ("client_session_id", VStr sid); ("request_seq", VInt 2);
   ("request_id", VStr (sid +:+ ":2")); ("operation", VStr OP_GET_DECISION);
   ("instance_id", VStr iid); ("branch_id", VStr ROOT_BRANCH_ID)].

(** Two sessions, an instance each. *)
Definition demo_server : @server nat unit :=
  (handle_request "epoch" 2 (VDict (demo_start "b"))
    (handle_request "epoch" 2 (VDict (demo_start "a")) (Server ∅ [] 1 tt)).2).2.

Lemma demo_reachable : server_reachable "epoch" 2 demo_server.
Proof. do 2 apply sreach_request. by apply (sreach_init _ _ tt). Qed.

Lemma server_ownership_invariant_witness :
  (forall iid, iid ∈ dkeys (_instances demo_server) ↔ exists sid, owns demo_server sid iid) /\
  (forall sid1 sid2 iid, owns demo_server sid1 iid -> owns demo_server sid2 iid -> sid1 = sid2) /\
  NoDup (dkeys (_instances demo_server)) /\
  instance_name (_instance_serial demo_server) ∉ dkeys (_instances demo_server) /\
  Z.of_nat (session_count demo_server) <= Z.max 2 0.
Proof. apply (server_ownership_invariant "epoch" 2 demo_server demo_reachable). Defined.

(** Session "b" asks for the decision of the instance of session "a": refused,
    the instance untouched. *)
Lemma server_isolation_witness :
  let s' := (handle_request "epoch" 2 (VDict (demo_get "b" "inst-000001")) demo_server).2 in
  owns s' "a" "inst-000001" /\
  dget "inst-000001" (_instances s') = dget "inst-000001" (_instances demo_server).
Proof.
  apply (server_isolation "epoch" 2 demo_server (demo_get "b" "inst-000001") "b" "a"
    "inst-000001" demo_reachable); [reflexivity|discriminate|].
  apply owns_ledger. vm_compute. reflexivity.
Defined.
