(* ===== verification/History.v ===== *)
(** The history of rooms, events and encounters of one line of play
    (API/history_builder.py). *)

From S2P Require Export PyValue.

Module HistoryBuilder.

Record HistoryEntry := { kind : string; detail : pydict }.

(** [_seen_coordinates] is a set of pairs; equal elements are kept once. *)
Record t := mk {
  _entries : list HistoryEntry;
  _seen_coordinates : list (pyval * pyval);
}.
Definition init : t := mk [] [].

Definition to_public_dict (e : HistoryEntry) : pydict :=
  dupdate [("kind", VStr (kind e))]%string (detail e).

(** A copy of both collections; entries are frozen. *)
Definition fork (self : t) : t := mk (_entries self) (_seen_coordinates self).

Definition append (entries : list HistoryEntry) (self : t) : t :=
  mk (_entries self ++ entries) (_seen_coordinates self).

Definition seen (column row : pyval) (self : t) : bool :=
  existsb (fun c => py_eqb c.1 column && py_eqb c.2 row) (_seen_coordinates self).

Definition observe_room_context (room_context : pydict) : M t unit :=
  match room_context with
  | [] => mret tt
  | _ =>
      if negb (truthy (dget_none "in_room" room_context)) then mret tt
      else
        let column := dget_none "column" room_context in
        let row := dget_none "row" room_context in
        if is_none column || is_none row then mret tt
        else
          _ ← liftR (hashable column);
          _ ← liftR (hashable row);
          self ← getS;
          if seen column row self then mret tt
          else
            let room_type := dget_none "room_type" room_context in
            let where_ := [("column", column); ("row", row); ("room_type", room_type)]%string in
            let important := veq_str room_type "Elite" || veq_str room_type "Boss" in
            putS (append ([{| kind := "room_visited"; detail := where_ |}] ++
                          (if important then [{| kind := "elite_or_boss"; detail := where_ |}] else []))
                    (mk (_entries self) (_seen_coordinates self ++ [(column, row)])))
  end.

Definition observe_event_option_selected (event_id option_id : option string) (self : t) : t :=
  match event_id, option_id with
  | None, None => self
  | _, _ =>
      let text o := match o with Some s => VStr s | None => VNone end in
      append [{| kind := "event_option_selected";
                 detail := [("event_id", text event_id); ("option_id", text option_id)]%string |}] self
  end.

Definition observe_encounter_completed (monster_ids : list pyval) (self : t) : t :=
  match monster_ids with
  | [] => self
  | _ => append [{| kind := "encounter_completed"; detail := [("monster_ids", VList monster_ids)]%string |}] self
  end.

Definition to_public_list (self : t) : list pyval := map (fun e => VDict (to_public_dict e)) (_entries self).

(** The coordinates of the visited rooms, in order. *)
Definition visited (self : t) : list (pyval * pyval) :=
  map (fun e => (dget_none "column" (detail e), dget_none "row" (detail e)))
    (List.filter (fun e => String.eqb (kind e) "room_visited") (_entries self)).

(** Entries are only appended, and each coordinate is recorded with exactly one
    visit. *)
Lemma visited_once room_context self r self' :
  visited self = _seen_coordinates self -> observe_room_context room_context self = (r, self') ->
  visited self' = _seen_coordinates self' /\ exists added, _entries self' = _entries self ++ added.
Proof.
  intros Hv. assert (Hsame : visited self = _seen_coordinates self /\ exists added, _entries self = _entries self ++ added)
    by (split; [done|exists []; by rewrite app_nil_r]).
  unfold observe_room_context. destruct room_context as [|kv rc]; [by intros [= _ <-]|].
  destruct (negb _); [by intros [= _ <-]|]. destruct (is_none _ || is_none _); [by intros [= _ <-]|].
  unfold mbind, M_bind, liftR. destruct (hashable (dget_none "column" _)); [|by intros [= _ <-]].
  destruct (hashable (dget_none "row" _)); [|by intros [= _ <-]]. cbn -[seen dget_none veq_str].
  destruct (seen _ _ _); [by intros [= _ <-]|]. intros [= _ <-]. split; [|by eexists].
  unfold visited, append. cbn -[dget_none veq_str List.filter]. rewrite List.filter_app, map_app. fold (visited self). rewrite Hv. f_equal.
  destruct (_ || _); reflexivity.
Qed.
End HistoryBuilder.
