(* ===== verification/CombatPhase.v ===== *)
(** The combat phase behind the combat facades (API/combat_phase.py): the live
    session with its replay anchor, the branch manager and the table of RNG
    hypotheses; and the one work item an [rng_id] selects
    (API/combat_rng_mapping.py). *)

From S2P Require Export Search BranchPoll Identifiers.

(** * One hypothesis of a decision *)

(** [l[index]]. *)
Definition list_index {A} (l : list A) (index : Z) : Res A :=
  match (if index <? 0 then None else l !! Z.to_nat index) with
  | Some a => Ok a
  | None => Raise (PyExc "IndexError" "list index out of range")
  end.

Section SingleHypothesis.
Context (json_loads : string -> Res pyval) (draws : nat).

(** The belief at [hypothesis_index], read off the root's snapshot; [None] when
    the belief sampler rejects all its first [draws] draws. *)
Definition belief_context (root : Root) (decision_context : DecisionContext) (hypothesis_index : Z) :
    option (Res DecisionContext) :=
  match root_attributes root ≫= (fun s => r ← shuffle_rng s; Ok (s, r)) with
  | Raise e => Some (Raise e)
  | Ok (snapshot, rng) =>
      hypotheses ← generate_belief_hypotheses draws (compute_public_multiset snapshot) (hypothesis_index + 1)
                     (fun _ => Ok rng);
      Some (hypotheses ← hypotheses;
            hypothesis ← list_index hypotheses hypothesis_index;
            apply_hypothesis_to_context decision_context hypothesis)
  end.

Definition single_hypothesis_context (decision_context : DecisionContext) (hypothesis_index : Z) :
    option (Res DecisionContext) :=
  match search_root (root_snapshot decision_context) with
  | Raise e => Some (Raise e)
  | Ok (RoomEntryReplayRoot _ _) =>
      Some (if negb (hypothesis_index =? 0) then
              Raise (value_error ("root RoomEntryReplayRoot supports only the observed line; hypothesis_index=" +:+
                pretty hypothesis_index +:+ " has no meaning for it"))
            else Ok decision_context)
  | Ok (CombatStartReplayRoot spec) =>
      Some (roots ← derive_combat_start_replay_roots spec (hypothesis_index + 1);
            derived ← list_index roots hypothesis_index;
            Ok (with_search_hypothesis (with_root (derived_replay_root derived) decision_context)
                  (Some (derived_hypothesis derived))))
  | Ok root => belief_context root decision_context hypothesis_index
  end.

Definition build_single_hypothesis_work_item (decision_context : DecisionContext) (candidate : PipelineCandidateRef)
    (hypothesis_index : Z) (work_kind : string) : option (Res WorkItem) :=
  context ← single_hypothesis_context decision_context hypothesis_index;
  Some (context ← context; from_candidate_ref json_loads context candidate work_kind None None).
End SingleHypothesis.

(** * The pool of branch workers *)

Definition DEFAULT_MAX_TIME_MS : Z := 20000.
Definition DEFAULT_ALC_WORKER_COUNT : Z := 8.
Definition START_PENDING_UNSUPPORTED : string :=
  "CombatInstance does not yet support a Start-of-Combat Pending root - see main_loop.py's CombatStartReplayRoot handling for the mechanism this would need".
Definition ROOT_BRANCHING_UNAVAILABLE_NO_STABLE_ANCHOR : string :=
  "root is not branchable: no stable snapshot anchor is established".
Definition ROOT_BRANCHING_UNAVAILABLE_NO_ROOM_ENTRY_ANCHOR : string :=
  "root is not branchable: combat entered pending without map snapshot and room id".

Definition positive_workers : pyexn := value_error "STS2_COMBAT_ALC_WORKERS must be a positive integer".
Definition _alc_worker_count_from_env (environ : string -> option string) : Res (option Z) :=
  match environ "STS2_COMBAT_ALC_WORKERS"%string with
  | None => Ok None
  | Some raw =>
      if String.eqb (strip raw) "" then Ok None
      else match int_of_str raw with
           | None => Raise positive_workers
           | Some worker_count => if worker_count <=? 0 then Raise positive_workers else Ok (Some worker_count)
           end
  end.

(** The backend and the number of its workers. *)
Inductive BranchPool :=
  | BranchWorkerPool (worker_count : Z)
  | AlcBranchWorkerPool (worker_count : Z).

Definition or_str (a b : option string) : option string :=
  match a with Some ""%string | None => b | Some s => Some s end.

Definition _make_branch_pool (environ : string -> option string) (worker_count : option Z)
    (worker_pool_backend : option string) : Res BranchPool :=
  let chosen := default "multiprocessing"%string
    (or_str (or_str worker_pool_backend (environ "STS2_COMBAT_BRANCH_POOL"%string)) (Some "multiprocessing"%string)) in
  let backend := str_lower (strip chosen) in
  let positive n pool := if n <=? 0 then Raise (value_error "worker_count must be positive") else Ok pool in
  if str_in backend ["multiprocessing"; "process"; "processes"; "mp"; "branch_worker_pool"]%string then
    let n := default 2 worker_count in positive n (BranchWorkerPool n)
  else if str_in backend ["alc"; "assemblyloadcontext"; "assembly_load_context"; "isolated"]%string then
    n ← (match worker_count with
         | Some n => Ok n
         | None => n ← _alc_worker_count_from_env environ; Ok (default DEFAULT_ALC_WORKER_COUNT n)
         end);
    positive n (AlcBranchWorkerPool n)
  else Raise (value_error ("unknown combat branch worker pool backend " +:+ repr_str backend)).

Definition pool_count (pool : BranchPool) : Z :=
  match pool with BranchWorkerPool n | AlcBranchWorkerPool n => n end.
Definition requires_ipc (pool : BranchPool) : bool :=
  match pool with BranchWorkerPool _ => true | AlcBranchWorkerPool _ => false end.

(** [BranchManager.__init__] over a fresh pool, whose workers have generation
    1. *)
Definition new_manager (pool : BranchPool) (max_branches : Z) : Res Manager :=
  if max_branches <=? 0 then Raise (value_error "max_branches must be a positive integer")
  else Ok {| max_branches := max_branches; records := []; request_id_to_branch_id := []; next_serial := 0;
             next_bootstrap_index := 0; lease_registry := ∅;
             pool_workers := map (fun i => (i, 1)) (indices_below (pool_count pool)); pool_next_request_id := 0;
             pool_closed := false; pool_sent := [] |}.

(** [BranchWorkerPool.close]. *)
Definition pool_close (m : Manager) : Manager :=
  {| max_branches := max_branches m; records := records m;
     request_id_to_branch_id := request_id_to_branch_id m; next_serial := next_serial m;
     next_bootstrap_index := next_bootstrap_index m; lease_registry := lease_registry m;
     pool_workers := pool_workers m; pool_next_request_id := pool_next_request_id m;
     pool_closed := true; pool_sent := pool_sent m |}.

(** * The phase *)

(** What the phase uses of its host: the sessions and workers of the engine,
    the environment variables, and, for one poll, the results and timeouts of
    the worker queue, the clock when each request was submitted, and a reading
    of the clock after all of them. *)
Class CombatHost (S W : Type) {HS : CombatSession S} := {
  new_live_session : M W S;
  session_close : M S unit;
  environ : W -> string -> option string;
  start_workers : BranchPool -> M W unit;
  queue_events : Manager -> list string -> spec_float -> W ->
    (list QueueEvent * (Z -> spec_float) * spec_float) * W;
}.

Record CombatPhase (S : Type) := {
  _session : S;
  _root_state : BattleState;
  _adopted_into_run : bool;
  _held_stable_snapshot : option pydict;
  _held_room_entry_root : option (string * Z);
  _replay_prefix : list ReplayPrefixEntry;
  _pool : BranchPool;
  _branch_manager : Manager;
  _rng_table : RngHypothesisTable.t;
  _root_commit_advanced : bool;
}.
Arguments _session {S}. Arguments _root_state {S}. Arguments _adopted_into_run {S}.
Arguments _held_stable_snapshot {S}. Arguments _held_room_entry_root {S}. Arguments _replay_prefix {S}.
Arguments _pool {S}. Arguments _branch_manager {S}. Arguments _rng_table {S}. Arguments _root_commit_advanced {S}.

Definition _semantic_action_for (action : pydict) : Res SemanticAction :=
  kind ← dindex "action_type" action;
  Ok {| action_type := kind; semantic_key := dget_or "semantic_key" (VStr "") action |}.

Definition _target_params (action : pydict) : Res (option Z * option Z) :=
  let params := py_or (dget_none "parameters" action) (VDict []) in
  target ← (v ← py_get "targetIndex" params; _int_or_none v);
  enemy ← (v ← py_get "enemyIndex" params; _int_or_none v);
  Ok (target, enemy).

Section Phase.
Context (json_loads : string -> Res pyval) (format_exc : pyexn -> string) (work_item_for_ipc : WorkItem -> WorkItem)
  (draws : nat).
Context {S W : Type} {HS : CombatSession S} {HH : CombatHost S W}.

Definition with_session (s : S) (p : CombatPhase S) : CombatPhase S :=
  {| _session := s; _root_state := _root_state p; _adopted_into_run := _adopted_into_run p;
     _held_stable_snapshot := _held_stable_snapshot p; _held_room_entry_root := _held_room_entry_root p;
     _replay_prefix := _replay_prefix p; _pool := _pool p; _branch_manager := _branch_manager p;
     _rng_table := _rng_table p; _root_commit_advanced := _root_commit_advanced p |}.
Definition with_root_state (st : BattleState) (advanced : bool) (p : CombatPhase S) : CombatPhase S :=
  {| _session := _session p; _root_state := st; _adopted_into_run := _adopted_into_run p;
     _held_stable_snapshot := _held_stable_snapshot p; _held_room_entry_root := _held_room_entry_root p;
     _replay_prefix := _replay_prefix p; _pool := _pool p; _branch_manager := _branch_manager p;
     _rng_table := _rng_table p; _root_commit_advanced := advanced |}.
Definition with_anchor (held : option pydict) (room : option (string * Z)) (prefix : list ReplayPrefixEntry)
    (p : CombatPhase S) : CombatPhase S :=
  {| _session := _session p; _root_state := _root_state p; _adopted_into_run := _adopted_into_run p;
     _held_stable_snapshot := held; _held_room_entry_root := room; _replay_prefix := prefix;
     _pool := _pool p; _branch_manager := _branch_manager p; _rng_table := _rng_table p;
     _root_commit_advanced := _root_commit_advanced p |}.
Definition with_manager (m : Manager) (p : CombatPhase S) : CombatPhase S :=
  {| _session := _session p; _root_state := _root_state p; _adopted_into_run := _adopted_into_run p;
     _held_stable_snapshot := _held_stable_snapshot p; _held_room_entry_root := _held_room_entry_root p;
     _replay_prefix := _replay_prefix p; _pool := _pool p; _branch_manager := m; _rng_table := _rng_table p;
     _root_commit_advanced := _root_commit_advanced p |}.
Definition with_table (t : RngHypothesisTable.t) (p : CombatPhase S) : CombatPhase S :=
  {| _session := _session p; _root_state := _root_state p; _adopted_into_run := _adopted_into_run p;
     _held_stable_snapshot := _held_stable_snapshot p; _held_room_entry_root := _held_room_entry_root p;
     _replay_prefix := _replay_prefix p; _pool := _pool p; _branch_manager := _branch_manager p; _rng_table := t;
     _root_commit_advanced := _root_commit_advanced p |}.

(** The methods of the parts, as methods of the phase. *)
Definition with_live {A} (c : M S A) : M (CombatPhase S) A := fun p =>
  let '(r, s) := c (_session p) in (r, with_session s p).
Definition with_branches {A} (c : M Manager A) : M (CombatPhase S) A := fun p =>
  let '(r, m) := c (_branch_manager p) in (r, with_manager m p).
Definition with_hypotheses {A} (c : M RngHypothesisTable.t A) : M (CombatPhase S) A := fun p =>
  let '(r, t) := c (_rng_table p) in (r, with_table t p).

Definition _establish_stable_anchor : M (CombatPhase S) unit :=
  snapshot ← with_live capture_snapshot;
  modS (with_anchor (Some snapshot) None start_new_replay_prefix_from_stable).

Definition root_decision (p : CombatPhase S) : Res (list pydict * option DecisionContext * string) :=
  legal ← (if is_terminal (_root_state p) then Ok []
           else match _cached_legal_actions (_root_state p) with
                | None | Some [] => Raise (PyExc "RuntimeError" "non-terminal combat state has no cached legal actions")
                | Some legal => Ok legal
                end);
  boundary ← boundary_of_battle_state (_root_state p);
  match _held_stable_snapshot p, _held_room_entry_root p with
  | Some snapshot, _ =>
      context ← build_decision_context_from_held_stable (SnapshotRoot snapshot) (_replay_prefix p) (_root_state p);
      Ok (legal, Some context, boundary)
  | None, Some (map_snapshot, room_id) =>
      context ← build_decision_context_from_room_entry map_snapshot room_id (_replay_prefix p) (_root_state p);
      Ok (legal, Some context, boundary)
  | None, None => Ok (legal, None, boundary)
  end.

Definition has_anchor (p : CombatPhase S) : bool :=
  is_some (_held_stable_snapshot p) || is_some (_held_room_entry_root p).
Definition root_branching_unavailable_reason (p : CombatPhase S) : option string :=
  if has_anchor p then None
  else Some (if _adopted_into_run p then ROOT_BRANCHING_UNAVAILABLE_NO_ROOM_ENTRY_ANCHOR
             else ROOT_BRANCHING_UNAVAILABLE_NO_STABLE_ANCHOR).

(** The entry recorded for a committed action that left a choice pending. *)
Definition committed_entry (action : SemanticAction) (observed : DecisionSignature) (target enemy : option Z)
    (evidence : VisibleDrawTransitionEvidence) : ReplayPrefixEntry :=
  {| entry_semantic_action := action; expected_signature := observed; entry_target_index := target;
     entry_target_enemy_index := enemy; visible_draw_constraints := constraints evidence;
     visible_draw_tracking_blocked := blocks_later_pinning evidence;
     visible_draw_tracking_error := tracking_error evidence |}.

Definition commit_root_action (chosen : pydict) : M (CombatPhase S) unit :=
  p ← getS;
  _ ← modS (with_root_state (_root_state p) false);
  targets ← liftR (_target_params chosen);
  let pre_state := _root_state p in
  next_state ← with_live (step pre_state chosen targets.1 targets.2);
  _ ← modS (with_root_state next_state true);
  action ← liftR (_semantic_action_for chosen);
  observed ← liftR (from_battle_state next_state action chosen targets.1 targets.2 None);
  boundary ← liftR (boundary_of_battle_state next_state);
  if String.eqb boundary BOUNDARY_STABLE then _establish_stable_anchor
  else if String.eqb boundary BOUNDARY_PENDING && has_anchor p then
    let evidence := visible_draw_transition_evidence_from_committed_transition
      visible_draw_tracking_blocked visible_draw_constraints next_state (_replay_prefix p) pre_state in
    modS (with_anchor (_held_stable_snapshot p) (_held_room_entry_root p)
            (append_replay_prefix_entry (_replay_prefix p) (committed_entry action observed targets.1 targets.2 evidence)))
  else mret tt.

Definition phase_candidate (context : DecisionContext) (action : SemanticAction) (targets : option Z * option Z) :
    PipelineCandidateRef :=
  {| ref_current_context_signature := current_context_signature context; ref_semantic_action := action;
     ref_target_index := targets.1; ref_target_enemy_index := targets.2; ref_score := f_of_Z 0;
     ref_choice_kind := VStr ""; ref_choice_scope := "" |}.

(** [None] when the belief sampler does not settle. *)
Definition build_work_item (context : DecisionContext) (chosen : pydict) (parent_key decision_key : string)
    (rng_id : Z) : M (CombatPhase S) (option WorkItem) :=
  targets ← liftR (_target_params chosen);
  action ← liftR (_semantic_action_for chosen);
  hypothesis_index ← with_hypotheses (RngHypothesisTable.hypothesis_index_for parent_key decision_key rng_id);
  match build_single_hypothesis_work_item json_loads draws context (phase_candidate context action targets)
          hypothesis_index WORK_KIND_SUB_BRANCH with
  | None => mret None
  | Some w => w ← liftR w; mret (Some w)
  end.

Definition snapshot_rng_hypotheses (p : CombatPhase S) : Z := RngHypothesisTable.snapshot (_rng_table p).
Definition restore_rng_hypotheses (snapshot : Z) : M (CombatPhase S) unit :=
  with_hypotheses (RngHypothesisTable.restore (VInt snapshot)).

Definition phase_submit (work_items : list WorkItem) (parent_internal_id : option string) :
    M (CombatPhase S) (list string) := with_branches (submit work_items parent_internal_id).
Definition phase_submit_many (entries : list (WorkItem * option string)) : M (CombatPhase S) (list string) :=
  with_branches (submit_many entries).

(** Workers that stay silent time out: after the events of the host only
    timeouts come, enough of them for the poll to end. *)
Definition phase_poll (timeout : spec_float) (branch_ids : list string) :
    M (CombatPhase S * W) (option (list (string * BranchResult))) := fun st =>
  let '((events, submitted_at, late), w) := queue_events (_branch_manager st.1) branch_ids timeout st.2 in
  let m := _branch_manager st.1 in
  let '(r, p) := with_branches (poll work_item_for_ipc (requires_ipc (_pool st.1)) format_exc submitted_at timeout
                   (Some branch_ids) (events ++ repeat (QueueEmpty late) (2 * length (records m) + 1))) st.1 in
  (r, (p, w)).

Definition branch_status (internal_id : string) : M (CombatPhase S) string :=
  statuses ← with_branches (get_branch_status [internal_id]);
  match dget internal_id statuses with
  | Some s => mret s
  | None => raiseM (PyExc "KeyError" (repr_str internal_id))
  end.
Definition phase_active_branch_count (p : CombatPhase S) : Z := active_branch_count (_branch_manager p).
Definition phase_max_branches (p : CombatPhase S) : Z := max_branches (_branch_manager p).
Definition phase_cancel (internal_ids : list string) : M (CombatPhase S) unit :=
  _ ← with_branches (cancel_branches internal_ids); mret tt.
Definition phase_release (internal_ids : list string) : M (CombatPhase S) unit :=
  _ ← with_branches (release_branches internal_ids); mret tt.

Definition phase_close : M (CombatPhase S) unit :=
  finallyM (with_branches close_all)
    (finallyM (modS (fun p => with_manager (pool_close (_branch_manager p)) p)) (with_live session_close)).

(** [_initialize_live_combat]: the anchor before the pool, the pool before the
    manager. *)
Definition _initialize_live_combat (s : S) (root_state : BattleState) (worker_count : option Z)
    (max_branches : Z) (worker_pool_backend : option string) (map_snapshot : option string)
    (room_id : option Z) (adopted_into_run : bool) : M W (CombatPhase S) :=
  boundary ← liftR (boundary_of_battle_state root_state);
  anchor ← (if String.eqb boundary BOUNDARY_STABLE then
              match capture_snapshot s with
              | (Ok snapshot, s') => mret (s', Some snapshot, None)
              | (Raise e, _) => raiseM e
              end
            else mret (s, None, match map_snapshot, room_id with
                                | Some m, Some r => Some (m, r)
                                | _, _ => None
                                end));
  w ← getS;
  pool ← liftR (_make_branch_pool (environ w) worker_count worker_pool_backend);
  _ ← start_workers pool;
  manager ← liftR (new_manager pool max_branches);
  mret {| _session := anchor.1.1; _root_state := root_state; _adopted_into_run := adopted_into_run;
          _held_stable_snapshot := anchor.1.2; _held_room_entry_root := anchor.2; _replay_prefix := [];
          _pool := pool; _branch_manager := manager; _rng_table := RngHypothesisTable.init;
          _root_commit_advanced := false |}.

(** [CombatPhase(...)] and [CombatPhase.adopt]. *)
Definition new_combat_phase (scenario_spec : pydict) (worker_count : option Z) (max_branches : Z)
    (worker_pool_backend : option string) (map_snapshot : option string) (room_id : option Z) :
    M W (CombatPhase S) :=
  s ← new_live_session;
  match start_combat scenario_spec s with
  | (Ok root_state, s') =>
      _initialize_live_combat s' root_state worker_count max_branches worker_pool_backend map_snapshot room_id false
  | (Raise e, _) => raiseM e
  end.
Definition adopt (s : S) (root_state : BattleState) (worker_count : option Z) (max_branches : Z)
    (worker_pool_backend : option string) (map_snapshot : option string) (room_id : option Z) :
    M W (CombatPhase S) :=
  _initialize_live_combat s root_state worker_count max_branches worker_pool_backend map_snapshot room_id true.
End Phase.

(** * The selected hypothesis is the one a full search would try *)

Lemma indices_below_take k n : 0 <= k <= n -> take (Z.to_nat k) (indices_below n) = indices_below k.
Proof.
  intros H. unfold indices_below. rewrite <- fmap_take, take_seq. do 2 f_equal. lia.
Qed.
Lemma length_indices_below n : length (indices_below n) = Z.to_nat n.
Proof. unfold indices_below. by rewrite length_map, length_seq. Qed.

Lemma generate_from_take draws cards src k : forall indices hs,
  generate_from draws cards src indices = Some (Ok hs) ->
  generate_from draws cards src (take k indices) = Some (Ok (take k hs)) /\ length hs = length indices.
Proof.
  induction k as [|k IH]; intros indices.
  - induction indices as [|i indices IHi]; intros hs H; [by injection H as <-|].
    cbn [generate_from] in H. destruct (src i ≫= _rng_from_like) as [rng|]; [|discriminate].
    destruct (shuffle draws cards _) as [ordered|]; [|discriminate]. cbn [mbind option_bind] in H.
    destruct (generate_from draws cards src indices) as [[rest|]|] eqn:E; [|discriminate..].
    injection H as <-. destruct (IHi _ eq_refl) as [_ Hl]. cbn. by rewrite Hl.
  - destruct indices as [|i indices]; intros hs H; [by injection H as <-|].
    cbn [take generate_from] in *. destruct (src i ≫= _rng_from_like) as [rng|]; [|discriminate].
    destruct (shuffle draws cards _) as [ordered|]; [|discriminate]. cbn [mbind option_bind] in *.
    destruct (generate_from draws cards src indices) as [[rest|]|] eqn:E; [|discriminate..].
    injection H as <-. destruct (IH indices rest E) as [-> Hl]. cbn. by rewrite Hl.
Qed.

(** Fewer beliefs are a prefix of more. *)
Lemma beliefs_take draws multiset src k n hs :
  0 <= k <= n -> generate_belief_hypotheses draws multiset n src = Some (Ok hs) ->
  generate_belief_hypotheses draws multiset k src = Some (Ok (take (Z.to_nat k) hs)) /\ length hs = Z.to_nat n.
Proof.
  intros Hk. unfold generate_belief_hypotheses.
  destruct (Z.ltb_spec n 0); [discriminate|]. destruct (Z.ltb_spec k 0); [lia|].
  destruct (_canonical_cards_from_multiset multiset) as [cards|]; [|discriminate].
  intros [Ht Hl]%(generate_from_take draws cards src (Z.to_nat k)). rewrite indices_below_take in Ht by done.
  by rewrite Hl, length_indices_below.
Qed.

Lemma combat_start_roots_take spec k n roots :
  0 <= k <= n -> derive_combat_start_replay_roots spec n = Ok roots ->
  derive_combat_start_replay_roots spec k = Ok (take (Z.to_nat k) roots) /\ length roots = Z.to_nat n.
Proof.
  intros Hk. unfold derive_combat_start_replay_roots.
  destruct (Z.ltb_spec n 0); [discriminate|]. destruct (Z.ltb_spec k 0); [lia|].
  intros (seed & -> & [= <-])%bind_Ok. cbn. rewrite <- (indices_below_take k n) by done.
  by rewrite length_map, length_indices_below, <- fmap_take.
Qed.

Lemma list_index_take {A} (l : list A) i :
  0 <= i -> (Z.to_nat i < length l)%nat -> exists a, l !! Z.to_nat i = Some a /\
    list_index (take (Z.to_nat (i + 1)) l) i = Ok a.
Proof.
  intros Hi [a Ha]%lookup_lt_is_Some. exists a. split; [done|]. unfold list_index.
  destruct (Z.ltb_spec i 0); [lia|]. rewrite lookup_take_lt, Ha by lia. done.
Qed.

Lemma mapR_lookup {A B} (f : A -> Res B) l ys i x :
  mapR f l = Ok ys -> l !! i = Some x -> exists y, ys !! i = Some y /\ f x = Ok y.
Proof.
  intros H%mapR_Ok_inv Hx. destruct (Forall2_lookup_l _ _ _ _ _ H Hx) as (y & ? & ?). by exists y.
Qed.
Lemma mapR_length {A B} (f : A -> Res B) l ys : mapR f l = Ok ys -> length ys = length l.
Proof. intros H%mapR_Ok_inv. symmetry. by eapply Forall2_length. Qed.

(** A table read row by row. *)
Lemma concat_lookup {A} (rows : list (list A)) n j i row :
  Forall (fun r => length r = n) rows -> rows !! j = Some row -> (i < n)%nat ->
  concat rows !! (j * n + i)%nat = row !! i.
Proof.
  intros Hall. revert j. induction Hall as [|r rows Hr Hall IH]; intros [|j] Hj Hi; cbn in *; try done.
  - injection Hj as ->. rewrite lookup_app_l by lia. done.
  - rewrite lookup_app_r by lia. rewrite <- (IH j Hj Hi). f_equal. lia.
Qed.

Lemma rows_length {A B C} (f : A -> B -> Res C) (columns : list B) (l : list A) rows :
  mapR (fun x => mapR (f x) columns) l = Ok rows -> Forall (fun r => length r = length columns) rows.
Proof.
  intros H. apply Forall_forall. intros row Hrow. destruct (mapR_elem _ _ _ row H Hrow) as (x & _ & Hx).
  by apply mapR_length in Hx.
Qed.
Lemma table_lookup {A B C} (f : A -> B -> Res C) (columns : list B) (l : list A) rows j i x y :
  mapR (fun x => mapR (f x) columns) l = Ok rows -> l !! j = Some x -> columns !! i = Some y ->
  exists z, concat rows !! (j * length columns + i)%nat = Some z /\ f x y = Ok z.
Proof.
  intros H Hj Hi. destruct (mapR_lookup _ _ _ j x H Hj) as (row & Hrow & Hr).
  destruct (mapR_lookup _ _ _ i y Hr Hi) as (z & Hz & Hf). exists z. split; [|done].
  rewrite (concat_lookup rows (length columns) j i row); [done|by eapply rows_length|done|].
  by eapply lookup_lt_Some.
Qed.

Lemma row_indices_lookup (candidates : list PipelineCandidateRef) n j i :
  (j < length candidates)%nat -> (i < n)%nat -> row_indices candidates n !! (j * n + i)%nat = Some j.
Proof.
  intros Hj Hi. unfold row_indices. destruct (lookup_lt_is_Some_2 _ _ Hj) as [c Hc].
  rewrite (concat_lookup _ n j i (repeat j n)).
  - clear -Hi. revert i Hi. induction n as [|n IH]; intros [|i] Hi; cbn; [lia..|done|]. apply IH. lia.
  - apply Forall_forall. intros r (k & x & -> & _)%elem_of_lookup_imap_1. apply repeat_length.
  - rewrite list_lookup_imap, Hc. done.
  - done.
Qed.

Lemma grid_items_lookup json_loads context snapshot candidates hypotheses items j i candidate h :
  grid_items json_loads context snapshot candidates hypotheses = Ok items ->
  candidates !! j = Some candidate -> hypotheses !! i = Some h ->
  exists w, items !! (j * length hypotheses + i)%nat = Some w /\
    (context ← apply_hypothesis_to_context context h;
     from_candidate_ref json_loads context candidate (kind_at j) None None) = Ok w.
Proof.
  unfold grid_items. intros (cells & Hcells & Hitems)%bind_Ok Hj Hi.
  unfold build_grid in Hcells. apply bind_Ok in Hcells as (rows & Hrows & [= <-]).
  destruct (table_lookup _ _ _ _ j i _ _ Hrows Hj Hi) as (cell & Hcell & (s & _ & [= Hc])%bind_Ok).
  destruct (mapR_lookup _ _ _ (j * length hypotheses + i) (j, cell) Hitems) as (w & Hw & Hf).
  - apply lookup_zip_Some. split; [|exact Hcell].
    apply row_indices_lookup; by eapply lookup_lt_Some.
  - exists w. split; [exact Hw|]. rewrite <- Hc in Hf. exact Hf.
Qed.

Lemma belief_items_lookup json_loads draws root context config candidates items coverage j candidate index :
  match root_attributes root ≫= (fun s => r ← shuffle_rng s; Ok (s, r)) with
  | Raise e => Some (Raise e)
  | Ok (snapshot, rng) =>
      hypotheses ← generate_belief_hypotheses draws (compute_public_multiset snapshot)
                     (hypothesis_count config) (fun _ => Ok rng);
      Some (hypotheses ← hypotheses;
            items ← grid_items json_loads context snapshot candidates hypotheses;
            Ok (items, public_multiset_coverage))
  end = Some (Ok (items, coverage)) ->
  candidates !! j = Some candidate -> 0 <= index < hypothesis_count config ->
  exists w, items !! (j * Z.to_nat (hypothesis_count config) + Z.to_nat index)%nat = Some w /\
    (context ← belief_context draws root context index;
     Some (context ← context; from_candidate_ref json_loads context candidate (kind_at j) None None)) = Some (Ok w).
Proof.
  intros H Hj Hi. unfold belief_context. destruct (root_attributes root ≫= _) as [[snapshot rng]|e]; [|discriminate].
  destruct (generate_belief_hypotheses draws _ (hypothesis_count config) _) as [[hs|e]|] eqn:E; [|discriminate..].
  cbn [mbind option_bind Res_bind] in H. injection H as (its & Hits & [= -> _])%bind_Ok.
  apply (beliefs_take _ _ _ (index + 1)) in E as [-> Hl]; [|lia].
  destruct (list_index_take hs index) as (h & Hh & Hx); [lia..|]. cbn [mbind option_bind Res_bind]. rewrite Hx.
  destruct (grid_items_lookup _ _ _ _ _ _ j _ _ _ Hits Hj Hh) as (w & Hw & Hf). rewrite Hl in Hw.
  exists w. split; [done|]. f_equal. exact Hf.
Qed.

Lemma combat_start_items_lookup json_loads context config spec candidates items j candidate index :
  combat_start_items json_loads config context spec candidates = Ok items ->
  candidates !! j = Some candidate -> 0 <= index < hypothesis_count config ->
  exists w d roots, items !! (j * Z.to_nat (hypothesis_count config) + Z.to_nat index)%nat = Some w /\
    derive_combat_start_replay_roots spec (index + 1) = Ok roots /\ list_index roots index = Ok d /\
    from_candidate_ref json_loads (with_search_hypothesis (with_root (derived_replay_root d) context)
      (Some (derived_hypothesis d))) candidate (kind_at j) None None = Ok w.
Proof.
  intros (roots & Hroots & (rows & Hrows & [= <-])%bind_Ok)%bind_Ok Hj Hi.
  apply (combat_start_roots_take _ (index + 1)) in Hroots as [Ht Hl]; [|lia].
  destruct (list_index_take roots index) as (d & Hd & Hx); [lia..|].
  destruct (table_lookup (fun (p : nat * PipelineCandidateRef) derived => from_candidate_ref json_loads
      (with_search_hypothesis (with_root (derived_replay_root derived) context) (Some (derived_hypothesis derived)))
      p.2 (kind_at p.1) None None) roots _ rows j (Z.to_nat index) (j, candidate) d Hrows) as (w & Hw & Hf); [|exact Hd|].
  - by rewrite list_lookup_imap, Hj.
  - rewrite Hl in Hw. by exists w, d, (take (Z.to_nat (index + 1)) roots).
Qed.

(** C14: the work item of the hypothesis an [rng_id] selects is, whatever number
    of hypotheses a full search expands, the item that search gives the same
    candidate in that hypothesis' column: beliefs and derived roots of fewer
    hypotheses are a prefix of those of more. *)
Theorem single_hypothesis_is_searched json_loads draws config context candidates items coverage j candidate index :
  _hypothesis_work_items_with_coverage json_loads draws config context candidates = Some (Ok (items, coverage)) ->
  candidates !! j = Some candidate -> 0 <= index < hypothesis_count config ->
  exists w, items !! (j * Z.to_nat (hypothesis_count config) + Z.to_nat index)%nat = Some w /\
    build_single_hypothesis_work_item json_loads draws context candidate index (kind_at j) = Some (Ok w).
Proof.
  unfold _hypothesis_work_items_with_coverage, build_single_hypothesis_work_item, single_hypothesis_context.
  intros H Hj Hi. destruct (search_root (root_snapshot context)) as [root|e]; [|discriminate].
  pose proof (belief_items_lookup json_loads draws root context config candidates items coverage j candidate index) as Hb.
  destruct root; try exact (Hb H Hj Hi); [|discriminate H]. clear Hb.
  injection H as (its & Hits & [= -> _])%bind_Ok.
  destruct (combat_start_items_lookup _ _ _ _ _ _ _ _ _ Hits Hj Hi) as (w & d & roots & Hw & Hr & Hd & Hf).
  exists w. split; [done|]. rewrite Hr. cbn [mbind option_bind Res_bind]. rewrite Hd. cbn. f_equal. exact Hf.
Qed.

(** A start of combat: two candidates under two derived seeds, and the second
    candidate's work item under the second. *)
Definition start_context : DecisionContext :=
  from_combat_start_pending [("seed", VInt 5)]%string (current_decision_result demo_context)
    (current_context_signature demo_context).
Definition phase_ref (target : Z) : PipelineCandidateRef :=
  lease_candidate target (current_context_signature start_context).
Definition two_hypotheses : SearchCoordinatorConfig :=
  {| width := 8; hypothesis_count := 2; cfg_min_coverage_fraction := f_half 1; worker_count := 1;
     max_retries := 0; request_timeout_s := f_of_Z 1 |}.
Definition grid_of_two : list WorkItem := Eval vm_compute in
  match _hypothesis_work_items_with_coverage no_json 100 two_hypotheses start_context [phase_ref 0; phase_ref 1] with
  | Some (Ok (items, _)) => items
  | _ => []
  end.
Lemma single_hypothesis_is_searched_witness :
  length grid_of_two = 4%nat /\
  exists w, grid_of_two !! 3%nat = Some w /\
    build_single_hypothesis_work_item no_json 100 start_context (phase_ref 1) 1 WORK_KIND_SUB_BRANCH = Some (Ok w).
Proof.
  assert (H : _hypothesis_work_items_with_coverage no_json 100 two_hypotheses start_context [phase_ref 0; phase_ref 1] =
    Some (Ok (grid_of_two, public_multiset_coverage))) by (vm_compute; reflexivity).
  split; [reflexivity|].
  exact (single_hypothesis_is_searched no_json 100 two_hypotheses start_context [phase_ref 0; phase_ref 1] grid_of_two
    public_multiset_coverage 1 (phase_ref 1) 1 H eq_refl ltac:(split; [discriminate|reflexivity])).
Defined.

(** * The root's context replays to the live board *)

Section PhaseReplays.
Context {S W : Type} {HS : CombatSession S} {HH : CombatHost S W} (json_loads : string -> Res pyval)
  {HR : ReplayableSession S json_loads}.

(** The session shows the root's board and, unless the combat is over, the held
    snapshot with the recorded prefix replays to it. *)
Definition phase_inv (p : CombatPhase S) : Prop :=
  live (_session p) (_root_state p) /\
  (boundary_of_battle_state (_root_state p) <> Ok BOUNDARY_TERMINAL ->
   forall d, _held_stable_snapshot p = Some d -> replays json_loads d (_replay_prefix p) (_session p) (_root_state p)).

Lemma boundary_cases st b : boundary_of_battle_state st = Ok b ->
  b = BOUNDARY_STABLE \/ b = BOUNDARY_PENDING \/ b = BOUNDARY_TERMINAL.
Proof.
  unfold boundary_of_battle_state. destruct (is_terminal st); [intros [= <-]; tauto|].
  intros (p & _ & H)%bind_Ok. case_match; injection H as <-; tauto.
Qed.

Lemma establish_inv (p : CombatPhase S) :
  live (_session p) (_root_state p) -> boundary_of_battle_state (_root_state p) = Ok BOUNDARY_STABLE ->
  posts _establish_stable_anchor p (fun _ p' => phase_inv p') (fun _ => True).
Proof.
  intros Hl Hb. unfold _establish_stable_anchor. eapply posts_bind with
    (Q' := fun d p' => capture_snapshot (_session p) = (Ok d, _session p') /\ _root_state p' = _root_state p).
  { unfold posts, with_live. by destruct (capture_snapshot (_session p)) as [[d|e] s'] eqn:E. }
  intros d p' [Hcap Hroot]. apply posts_mod. unfold phase_inv. cbn. rewrite Hroot.
  split; [by eapply live_capture|]. intros _ d' [= <-]. by eapply captured_replays.
Qed.

(** The chosen action is the one its semantic key names among the legal ones. *)
Definition names_itself (chosen : pydict) (st : BattleState) : Prop :=
  forall a, _semantic_action_for chosen = Ok a -> resolve a (_legal_actions_from_current_result st) = Ok chosen.

Lemma commit_root_inv chosen (p : CombatPhase S) :
  phase_inv p -> boundary_of_battle_state (_root_state p) <> Ok BOUNDARY_TERMINAL -> names_itself chosen (_root_state p) ->
  posts (commit_root_action chosen) p (fun _ p' => phase_inv p') (fun _ => True).
Proof.
  intros [Hl Hr] Hb Hn. specialize (Hr Hb). unfold commit_root_action.
  eapply posts_step; [reflexivity|]. eapply posts_step; [reflexivity|].
  eapply posts_bind with (Q' := fun t p' => p' = with_root_state (_root_state p) false p).
  { unfold posts, liftR. by destruct (_target_params chosen). }
  intros [x y] p1 ->. cbn [fst snd].
  eapply posts_bind with (Q' := fun next p' => exists s1, step (_root_state p) chosen x y (_session p) = (Ok next, s1) /\
    p' = with_session s1 (with_root_state (_root_state p) false p)).
  { unfold posts, with_live. cbn. destruct (step _ _ _ _ (_session p)) as [[next|e] s1]; [by exists s1|done]. }
  intros next p1 (s1 & Hs & ->). eapply posts_step; [reflexivity|]. set (p2 := with_root_state next true _).
  eapply posts_bind with (Q' := fun a p' => p' = p2 /\ _semantic_action_for chosen = Ok a).
  { unfold posts, liftR. by destruct (_semantic_action_for chosen). }
  intros a p3 [-> Ha]. specialize (Hn a Ha).
  eapply posts_bind with (Q' := fun o p' => p' = p2 /\ from_battle_state next a chosen x y None = Ok o).
  { unfold posts, liftR. by destruct (from_battle_state _ _ _ _ _ _). }
  intros o p3 [-> Ho].
  eapply posts_bind with (Q' := fun b p' => p' = p2 /\ boundary_of_battle_state next = Ok b).
  { unfold posts, liftR. by destruct (boundary_of_battle_state next). }
  intros b p3 [-> Hnext]. assert (Hl2 : live (_session p2) (_root_state p2)) by (by eapply live_step).
  destruct (String.eqb_spec b BOUNDARY_STABLE) as [->|Hstable]; [by apply establish_inv|].
  destruct (String.eqb_spec b BOUNDARY_PENDING) as [->|Hpending]; cbn [andb].
  - destruct (has_anchor p) eqn:Eanchor.
    + apply posts_mod. split; [exact Hl2|]. intros _ d Hd. cbn in *.
      exact (replays_step json_loads d (_replay_prefix p) (_session p) (_root_state p)
        {| ps_semantic_action := a; ps_target_index := x; ps_target_enemy_index := y; ps_expected_signature := None |}
        chosen next s1 o (Some _) (Hr d Hd) Hn Hs Ho).
    + apply posts_ret. split; [exact Hl2|]. intros _ d Hd. unfold has_anchor in Eanchor. cbn in Hd. by rewrite Hd in Eanchor.
  - apply posts_ret. split; [exact Hl2|]. intros Hne. cbn in Hne. destruct (boundary_cases _ _ Hnext) as [?|[?|?]]; congruence.
Qed.

(** A committed action: one of the legal actions of the root's decision. *)
Definition root_commits (p p' : CombatPhase S) : Prop :=
  exists legal context boundary chosen, root_decision p = Ok (legal, context, boundary) /\ chosen ∈ legal /\
    names_itself chosen (_root_state p) /\ commit_root_action chosen p = (Ok tt, p').

Lemma root_commits_inv p p' : phase_inv p -> rtc root_commits p p' -> phase_inv p'.
Proof.
  intros Hinv. induction 1 as [|p p1 p' (legal & c & b & chosen & Hd & Hc & Hn & Hrun) _ IH]; [done|]. apply IH.
  assert (Hb : boundary_of_battle_state (_root_state p) <> Ok BOUNDARY_TERMINAL).
  { unfold root_decision in Hd. unfold boundary_of_battle_state. destruct (is_terminal (_root_state p)) eqn:Et.
    - cbn in Hd. apply bind_Ok in Hd as (? & _ & Hd). exfalso.
      destruct (_held_stable_snapshot p), (_held_room_entry_root p) as [[]|];
        try (apply bind_Ok in Hd as (? & _ & Hd)); injection Hd as <- _ _; by apply elem_of_nil in Hc.
    - intros (? & _ & H)%bind_Ok. by case_match. }
  pose proof (commit_root_inv chosen p Hinv Hb Hn) as H. unfold posts in H. by rewrite Hrun in H.
Qed.
End PhaseReplays.

(** Operations on branches and hypotheses leave the root alone. *)
Definition same_root {S} (p p' : CombatPhase S) : Prop :=
  _session p' = _session p /\ _root_state p' = _root_state p /\ _held_stable_snapshot p' = _held_stable_snapshot p /\
  _held_room_entry_root p' = _held_room_entry_root p /\ _replay_prefix p' = _replay_prefix p.

(** The phase over its life: the root commits an action, or something else
    happens. *)
Definition phase_moves {S} {HS : CombatSession S} (p p' : CombatPhase S) : Prop := root_commits p p' \/ same_root p p'.

Lemma phase_moves_inv {S} {HS : CombatSession S} json_loads {HR : ReplayableSession S json_loads} (p p' : CombatPhase S) :
  phase_inv json_loads p -> rtc phase_moves p p' -> phase_inv json_loads p'.
Proof.
  intros Hinv. induction 1 as [|p p1 p' [Hc|(E1 & E2 & E3 & _ & E5)] _ IH]; [done|..]; apply IH.
  - eapply root_commits_inv; [exact Hinv|by apply rtc_once].
  - unfold phase_inv. by rewrite E1, E2, E3, E5.
Qed.

Lemma initialize_inv {S W} {HS : CombatSession S} {HH : CombatHost S W} json_loads {HR : ReplayableSession S json_loads}
    s root_state workers branches backend map_snapshot room_id adopted (w w' : W) (p : CombatPhase S) :
  live s root_state ->
  _initialize_live_combat s root_state workers branches backend map_snapshot room_id adopted w = (Ok p, w') ->
  phase_inv json_loads p.
Proof.
  intros Hl. unfold _initialize_live_combat. intros (b & w1 & (Hb & ->)%liftR_Ok & H)%M_bind_Ok.
  apply M_bind_Ok in H as (anchor & w2 & Ha & (w3 & ? & _ & (pool & ? & _ & (? & ? & _ & (m & ? & _ & [= <- _])%M_bind_Ok)%M_bind_Ok)%M_bind_Ok)%M_bind_Ok).
  destruct (String.eqb_spec b BOUNDARY_STABLE) as [->|].
  - destruct (capture_snapshot s) as [[d|e] s'] eqn:Ecap; [|discriminate Ha]. injection Ha as <- <-.
    split; [by eapply live_capture|]. intros _ d' [= <-]. by eapply captured_replays.
  - injection Ha as <- <-. by split.
Qed.


(** A host with one silent worker, over the endless script of boards. *)
Definition SilentHost (events : list QueueEvent) : @CombatHost Z unit EndlessSession :=
  {| new_live_session := mret 0; session_close := mret tt; environ := fun _ _ => None;
     start_workers := fun _ => mret tt;
     queue_events := fun _ _ _ w => ((events, fun _ => f_of_Z 0, f_of_Z 100), w) |}.
Definition idle_phase : CombatPhase Z :=
  {| _session := 0; _root_state := example_board 0; _adopted_into_run := false; _held_stable_snapshot := None;
     _held_room_entry_root := None; _replay_prefix := []; _pool := BranchWorkerPool 1;
     _branch_manager := {| max_branches := 4; records := []; request_id_to_branch_id := []; next_serial := 0;
       next_bootstrap_index := 0; lease_registry := ∅; pool_workers := [(0, 1)]; pool_next_request_id := 0;
       pool_closed := false; pool_sent := [] |};
     _rng_table := RngHypothesisTable.init; _root_commit_advanced := false |}.
Definition phase_or (r : Res (CombatPhase Z)) : CombatPhase Z := from_ok r idle_phase.
Definition endless_phase : CombatPhase Z := Eval vm_compute in
  phase_or (fst (@_initialize_live_combat Z unit EndlessSession (SilentHost []) 0 (example_board 0) (Some 1) 4 None None
    None false tt)).
Definition committed_phase : CombatPhase Z := Eval vm_compute in
  snd (@commit_root_action Z EndlessSession example_action endless_phase).
Definition committed_context : DecisionContext := Eval vm_compute in
  match root_decision committed_phase with Ok (_, Some c, _) => c | _ => demo_context end.
