(* ===== verification/Tcp.v ===== *)
(** The TCP transport (API/tcp_server.py): one NDJSON stream per client, bound
    to one session by its hello, over a handler whose calls are serialised by
    the handler lock; and the options of the combat instance factory. *)

From S2P Require Export Dto.

Definition newline : Ascii.ascii := Ascii.ascii_of_N 10.

Fixpoint ends_with_newline (s : string) : bool :=
  match s with
  | EmptyString => false
  | String a EmptyString => Ascii.eqb a newline
  | String _ s' => ends_with_newline s'
  end.

(** What [reader.readline()] gives: bytes (none at the end of the stream), or
    the limit exceptions. *)
Inductive read := RData (line : string) | RLimit.

Section Tcp.
Context {S : Type}.
(** The handler ([RLApiServer.handle_request]) and [json.loads]. *)
Context (handler : pydict -> M S pyval) (json_loads : string -> string + pyval).
Context (server_epoch : string) (max_message_bytes : Z).

(** [_handle_hello]: the response and the session the stream is bound to. *)
Definition _handle_hello (payload : pydict) (current : option string) : pydict * option string :=
  let required := ["transport_operation"; "schema_version"; "client_session_id"] in
  if negb (forallb (fun k => dmem k payload) required &&
           forallb (fun k => str_in k required) (dkeys payload)) then
    ([("transport_error", VStr "invalid_hello");
      ("error", VStr "hello must contain exactly transport_operation, schema_version, and client_session_id")],
     None)
  else match dget_none "client_session_id" payload with
  | VStr session_id =>
      if String.eqb session_id "" then
        ([("transport_error", VStr "invalid_hello");
          ("error", VStr "client_session_id must be a non-empty string")], None)
      else if negb (veq_str (dget_none "schema_version" payload) SCHEMA_VERSION) then
        ([("transport_error", VStr "unsupported_schema");
          ("requested_schema_version", dget_none "schema_version" payload);
          ("supported_schema_version", VStr SCHEMA_VERSION)], None)
      else if (match current with Some c => negb (String.eqb session_id c) | None => false end) then
        ([("transport_error", VStr "session_mismatch");
          ("error", VStr "one TCP stream may bind only one client_session_id")], None)
      else
        ([("transport_operation", VStr "hello");
          ("schema_version", VStr SCHEMA_VERSION);
          ("server_epoch", VStr server_epoch);
          ("client_session_id", VStr session_id)], Some session_id)
  | _ =>
      ([("transport_error", VStr "invalid_hello");
        ("error", VStr "client_session_id must be a non-empty string")], None)
  end.

(** What one line leads to: a transport response, with the binding after it, or
    a call of the handler. *)
Inductive routed :=
  | Respond (response : pydict) (hello : option string)
  | CallHandler (payload : pydict).

Definition route (hello : option string) (line : string) : routed :=
  match json_loads line with
  | inl error => Respond [("transport_error", VStr "invalid_json"); ("error", VStr error)] hello
  | inr (VDict payload) =>
      if py_eqb (VDict payload) (VDict [("transport_operation", VStr "ping")]) then
        Respond [("transport_operation", VStr "pong"); ("server_epoch", VStr server_epoch)] hello
      else if veq_str (dget_none "transport_operation" payload) "hello" then
        let '(response, bound) := _handle_hello payload hello in
        Respond response (match bound with Some b => Some b | None => hello end)
      else match hello with
      | None =>
          Respond [("transport_error", VStr "hello_required");
                   ("error", VStr "send transport hello before API traffic")] hello
      | Some bound =>
          if negb (veq_str (dget_none "client_session_id" payload) bound) then
            Respond [("transport_error", VStr "session_mismatch");
                     ("error", VStr "API client_session_id differs from stream hello")] hello
          else CallHandler payload
      end
  | inr _ =>
      Respond [("transport_error", VStr "invalid_message");
               ("error", VStr "top-level JSON value must be an object")] hello
  end.

(** The handler under the lock, and what the stream sends for its result. *)
Definition _call_handler (payload : pydict) (s : S) : pydict * S :=
  let '(r, s') := handler payload s in
  (match r with
   | Ok (VDict d) => d
   | Ok _ => fault_response (VDict payload)
               (PyExc "TypeError" "RL handler returned a non-dict response")
   | Raise exc => fault_response (VDict payload) exc
   end, s').

Definition handle_line (hello : option string) (line : string) (s : S)
    : pydict * option string * S :=
  match route hello line with
  | Respond response hello' => (response, hello', s)
  | CallHandler payload => let '(response, s') := _call_handler payload s in (response, hello, s')
  end.

(** [_read_line]: the bytes of a line (empty: stop), and what it sends. *)
Definition _read_line (r : read) : string * list pydict :=
  let too_large :=
    [[("transport_error", VStr "message_too_large"); ("direction", VStr "request");
      ("max_message_bytes", VInt max_message_bytes)]] in
  match r with
  | RData line =>
      if String.eqb line "" then ("", [])
      else if Z.of_nat (String.length line) <=? max_message_bytes then
        if ends_with_newline line then (line, []) else ("", [])
      else ("", too_large)
  | RLimit => ("", too_large)
  end.

(** [_handle_client] on the reads of its stream: the responses in the order they
    are sent, the binding at the end and the handler's state. *)
Fixpoint _handle_client (reads : list read) (hello : option string) (s : S)
    : list pydict * option string * S :=
  match reads with
  | [] => ([], hello, s)
  | r :: reads' =>
      let '(line, sent) := _read_line r in
      if String.eqb line "" then (sent, hello, s)
      else
        let '(response, hello', s') := handle_line hello line s in
        let '(responses, hello'', s'') := _handle_client reads' hello' s' in
        (sent ++ response :: responses, hello'', s'')
  end.

(** [AsyncioTcpServer.__init__]. *)
Definition tcp_init (host : string) (port : Z) : Res unit :=
  if String.eqb host "" then Raise (PyExc "ValueError" "host must not be empty")
  else if negb ((0 <=? port) && (port <=? 65535)) then
    Raise (PyExc "ValueError" "port must be between 0 and 65535")
  else if max_message_bytes <=? 0 then
    Raise (PyExc "ValueError" "max_message_bytes must be positive")
  else Ok tt.

(** * Several clients

    The tasks of the clients interleave at their awaits; a handler call runs to
    its end under the lock. *)
Record conn := Conn {
  c_reads : list read;
  c_hello : option string;
  c_sent : list pydict;
}.

Record net := Net {
  conns : gmap nat conn;
  handler_state : S;
  (** The calls of the handler so far, with the client that made them. *)
  calls : list (nat * pydict);
}.

Definition routed_call (i : nat) (hello : option string) (line : string) : list (nat * pydict) :=
  match route hello line with CallHandler p => [(i, p)] | Respond _ _ => [] end.

Inductive net_step : net -> net -> Prop :=
  | net_connect n i reads :
      conns n !! i = None ->
      net_step n (Net (<[i := Conn reads None []]> (conns n)) (handler_state n) (calls n))
  | net_line n i r reads hello sent line out response hello' s' :
      conns n !! i = Some (Conn (r :: reads) hello sent) ->
      _read_line r = (line, out) -> line ≠ "" ->
      handle_line hello line (handler_state n) = (response, hello', s') ->
      net_step n (Net (<[i := Conn reads hello' (sent ++ out ++ [response])]> (conns n)) s'
                    (calls n ++ routed_call i hello line))
  | net_stop n i r reads hello sent out :
      conns n !! i = Some (Conn (r :: reads) hello sent) ->
      _read_line r = ("", out) ->
      net_step n (Net (<[i := Conn [] hello (sent ++ out)]> (conns n)) (handler_state n) (calls n)).

End Tcp.

(** * The options of the instance factory *)

Definition _positive_int_from_env (env : string -> option string) (name : string)
    : Res (option Z) :=
  match env name with
  | None => Ok None
  | Some raw =>
      if String.eqb (strip raw) "" then Ok None
      else match int_of_str raw with
      | None => Raise (PyExc "ValueError" (name +:+ " must be a positive integer"))
      | Some value =>
          if value <=? 0 then Raise (PyExc "ValueError" (name +:+ " must be a positive integer"))
          else Ok (Some value)
      end
  end.

(** Keyword values that are given. *)
Definition opt_kw {A} (k : string) (f : A -> pyval) (o : option A) : pydict :=
  match o with Some a => [(k, f a)] | None => [] end.

Definition _combat_instance_factory_kwargs (env : string -> option string)
    (worker_pool_backend : option string) (worker_count max_branches : option Z)
    : Res (option pydict) :=
  let backend := match worker_pool_backend with
    | Some b => if String.eqb b "" then env "STS2_COMBAT_BRANCH_POOL" else Some b
    | None => env "STS2_COMBAT_BRANCH_POOL"
    end in
  let backend_key := str_lower (strip (default "" backend)) in
  let alc_selected := str_in backend_key
    ["alc"; "assemblyloadcontext"; "assembly_load_context"; "isolated"] in
  resolved_worker_count ←
    (match worker_count with
     | None => if alc_selected then _positive_int_from_env env "STS2_COMBAT_ALC_WORKERS" else Ok None
     | w => Ok w
     end);
  resolved_max_branches ←
    (match max_branches with
     | None => _positive_int_from_env env "STS2_COMBAT_MAX_BRANCHES"
     | m => Ok m
     end);
  let kept_backend := match backend with
    | Some b => if String.eqb (strip b) "" then None else Some b
    | None => None
    end in
  let combat_kwargs :=
    opt_kw "worker_pool_backend" VStr kept_backend ++
    opt_kw "worker_count" VInt resolved_worker_count ++
    opt_kw "max_branches" VInt resolved_max_branches in
  match combat_kwargs with
  | [] => Ok None
  | _ => Ok (Some [("combat", VDict combat_kwargs)])
  end.

(** * Lemmas *)

Section TcpProofs.
Context {S : Type}.
Context (handler : pydict -> M S pyval) (json_loads : string -> string + pyval).
Context (server_epoch : string) (max_message_bytes : Z).

Notation route := (route json_loads server_epoch).
Notation handle_line := (handle_line handler json_loads server_epoch).
Notation _handle_client := (_handle_client handler json_loads server_epoch max_message_bytes).
Notation net_step := (net_step handler json_loads server_epoch max_message_bytes).
Notation _read_line := (_read_line max_message_bytes).

Lemma veq_str_spec v t : veq_str v t = true ↔ v = VStr t.
Proof.
  destruct v; simpl; try (split; discriminate).
  rewrite String.eqb_eq. split; [by intros ->|by intros [= ->]].
Qed.

Lemma dget_none_str k d t : dget_none k d = VStr t ↔ dget k d = Some (VStr t).
Proof. unfold dget_none. destruct (dget k d); naive_solver. Qed.

(** A call of the handler names the session the stream is bound to. *)
Lemma route_call hello line p :
  route hello line = CallHandler p ->
  exists sid, hello = Some sid /\ dget "client_session_id" p = Some (VStr sid).
Proof.
  unfold Tcp.route. intros H. repeat case_match; simplify_eq.
  eexists. split; [done|]. apply dget_none_str, veq_str_spec. by apply negb_false_iff.
Qed.

(** A hello cannot move a bound stream to another session. *)
Lemma hello_keeps payload current resp sid b :
  _handle_hello server_epoch payload current = (resp, Some sid) -> current = Some b -> sid = b.
Proof.
  unfold _handle_hello. intros H ->. repeat case_match; simplify_eq.
  match goal with H : negb (String.eqb ?a ?b) = false |- _ =>
    apply negb_false_iff, String.eqb_eq in H end. done.
Qed.

Lemma route_keeps_binding hello line resp hello' b :
  route hello line = Respond resp hello' -> hello = Some b -> hello' = Some b.
Proof.
  unfold Tcp.route. intros H ->.
  destruct (json_loads line) as [e|[| | | | | |payload]]; simplify_eq; try done.
  case_match; simplify_eq; [done|]. case_match.
  - destruct (_handle_hello server_epoch payload (Some b)) as [r [sid|]] eqn:Eh; simplify_eq; [|done].
    f_equal. by eapply hello_keeps.
  - case_match; by simplify_eq.
Qed.

Lemma handle_line_keeps hello line s resp hello' s' b :
  handle_line hello line s = (resp, hello', s') -> hello = Some b -> hello' = Some b.
Proof.
  unfold Tcp.handle_line. intros H Hb. destruct (route hello line) eqn:E.
  - simplify_eq. by eapply route_keeps_binding.
  - case_match. by simplify_eq.
Qed.

Lemma step_keeps_binding n n' i c b :
  net_step n n' -> conns n !! i = Some c -> c_hello c = Some b ->
  exists c', conns n' !! i = Some c' /\ c_hello c' = Some b.
Proof.
  intros Hs Hc Hb. destruct Hs as [n j reads Hj|n j r reads hello sent line out response hello' s' Hj Hr Hl Hh
    |n j r reads hello sent out Hj Hr]; simpl.
  - rewrite lookup_insert_ne by congruence. eauto.
  - destruct (decide (j = i)) as [->|]; [|rewrite lookup_insert_ne by done; eauto].
    rewrite lookup_insert_eq. eexists. split; [done|]. simpl.
    rewrite Hj in Hc. simplify_eq. by eapply handle_line_keeps.
  - destruct (decide (j = i)) as [->|]; [|rewrite lookup_insert_ne by done; eauto].
    rewrite lookup_insert_eq. eexists. split; [done|]. simpl. rewrite Hj in Hc. by simplify_eq.
Qed.

(** Every call was made by a client bound to the session the payload names. *)
Definition calls_bound (n : @net S) : Prop :=
  forall i p, (i, p) ∈ calls n ->
    exists c sid, conns n !! i = Some c /\ c_hello c = Some sid /\
      dget "client_session_id" p = Some (VStr sid).

Lemma step_calls_bound n n' : net_step n n' -> calls_bound n -> calls_bound n'.
Proof.
  intros Hs Hb i p Hin.
  assert (Hold : (i, p) ∈ calls n -> exists c sid, conns n' !! i = Some c /\
    c_hello c = Some sid /\ dget "client_session_id" p = Some (VStr sid)).
  { intros (c & sid & Hc & Hh & Hp)%Hb.
    destruct (step_keeps_binding n n' i c sid Hs Hc Hh) as (c' & ? & ?). by exists c', sid. }
  destruct Hs as [n j reads Hj|n j r reads hello sent line out response hello' s' Hj Hr Hl Hh
    |n j r reads hello sent out Hj Hr]; try by apply Hold.
  simpl in Hin. apply elem_of_app in Hin as [Hin|Hin]; [by apply Hold|].
  unfold routed_call in Hin. destruct (route hello line) eqn:E; [by apply elem_of_nil in Hin|].
  apply list_elem_of_singleton in Hin. simplify_eq.
  destruct (route_call _ _ _ E) as (sid & -> & Hp). simpl.
  rewrite lookup_insert_eq. eexists _, sid. split_and!; [done| |done]. simpl.
  by eapply handle_line_keeps.
Qed.

Lemma steps_keep_binding n n' i c b :
  rtc net_step n n' -> conns n !! i = Some c -> c_hello c = Some b ->
  exists c', conns n' !! i = Some c' /\ c_hello c' = Some b.
Proof.
  intros Hs. revert c. induction Hs as [|x y z Hxy _ IH]; intros c Hc Hb; [eauto|].
  destruct (step_keeps_binding x y i c b Hxy Hc Hb) as (c' & ? & ?). eauto.
Qed.

Lemma steps_calls_bound n n' : rtc net_step n n' -> calls_bound n -> calls_bound n'.
Proof.
  induction 1 as [|x y z Hxy _ IH]; [done|]. intros Hx. by apply IH, (step_calls_bound x y).
Qed.

(** However the clients' streams interleave, the handler is only called for a
    client whose stream said hello, with the session id of that hello, and a
    stream once bound stays bound to that session for ever. *)
Theorem tcp_calls_only_bound_session (n n' : @net S) (s : S)
    (Hn : rtc net_step (Net ∅ s []) n) (Hn' : rtc net_step n n') :
  (forall i p, (i, p) ∈ calls n ->
     exists c sid, conns n !! i = Some c /\ c_hello c = Some sid /\
       dget "client_session_id" p = Some (VStr sid)) /\
  (forall i c sid, conns n !! i = Some c -> c_hello c = Some sid ->
     exists c', conns n' !! i = Some c' /\ c_hello c' = Some sid).
Proof.
  split.
  - apply (steps_calls_bound _ _ Hn). intros i p []%elem_of_nil.
  - intros i c sid. by apply steps_keep_binding.
Qed.

(** * One stream *)

(** A read that carries a line. *)
Definition framed (r : read) : bool := negb (String.eqb (_read_line r).1 "").

Lemma framed_no_output r : framed r = true -> (_read_line r).2 = [].
Proof. unfold framed, Tcp._read_line. destruct r; repeat case_match; done. Qed.

(** A stream answers each line with exactly one response, in order, before
    the next line is handled: a stream that starts with [k] complete lines of
    acceptable size sends exactly [k] responses for them, what follows is served
    from the binding and the handler state they left, and after the first read
    that is no such line (end of stream, truncated line, oversized message)
    nothing more is read or handled. *)
Theorem tcp_one_response_per_line (lines rest : list read) (hello : option string) (s : S)
    (Hlines : Forall (fun r => framed r = true) lines) :
  let '(r1, h1, s1) := _handle_client lines hello s in
  let '(r2, h2, s2) := _handle_client rest h1 s1 in
  length r1 = length lines /\
  _handle_client (lines ++ rest) hello s = (r1 ++ r2, h2, s2) /\
  (forall r, framed r = false ->
     _handle_client (lines ++ r :: rest) hello s = (r1 ++ (_read_line r).2, h1, s1)).
Proof.
  revert hello s. induction Hlines as [|r lines Hr Hlines IH]; intros hello s; simpl.
  - destruct (_handle_client rest hello s) as [[r2 h2] s2]. split_and!; [done..|].
    intros r Hr. unfold framed in Hr. apply negb_false_iff in Hr.
    destruct (_read_line r) as [line out]. simpl in Hr |- *. by rewrite Hr.
  - assert (Ho := framed_no_output r Hr). unfold framed in Hr. apply negb_true_iff in Hr.
    destruct (_read_line r) as [line out]. simpl in Hr, Ho. rewrite Hr, Ho. simpl.
    destruct (handle_line hello line s) as [[resp hello'] s'].
    specialize (IH hello' s'). destruct (_handle_client lines hello' s') as [[r1 h1] s1].
    destruct (_handle_client rest h1 s1) as [[r2 h2] s2]. destruct IH as (IH1 & IH2 & IH3).
    split_and!; [by rewrite length_cons, IH1|by rewrite IH2|].
    intros r' Hr'. by rewrite IH3.
Qed.

(** A hello binds a stream exactly when it has the three hello fields and no
    other, a non-empty session id, the supported schema version, and does not
    contradict an earlier binding; it then answers with the server epoch and
    that session. *)
Theorem tcp_hello_exact (payload : pydict) (current : option string) (sid : string) :
  (exists resp, _handle_hello server_epoch payload current = (resp, Some sid)) ↔
  (forall k, k ∈ dkeys payload ↔
     k ∈ ["transport_operation"; "schema_version"; "client_session_id"]) /\
  dget "client_session_id" payload = Some (VStr sid) /\ sid ≠ "" /\
  dget "schema_version" payload = Some (VStr SCHEMA_VERSION) /\
  (current = None \/ current = Some sid).
Proof.
  unfold _handle_hello. set (req := ["transport_operation"; "schema_version"; "client_session_id"]).
  assert (Hset : forallb (fun k => dmem k payload) req &&
                 forallb (fun k => str_in k req) (dkeys payload) = true ↔
                 forall k, k ∈ dkeys payload ↔ k ∈ req).
  { rewrite andb_true_iff, !forallb_forall. setoid_rewrite <- list_elem_of_In.
    setoid_rewrite str_in_elem. setoid_rewrite dmem_keys. split; [|naive_solver].
    intros [H1 H2] k. split; auto. }
  destruct (forallb _ req && _) eqn:E; cbn [negb].
  - assert (Hk := proj1 Hset eq_refl). destruct (dget_none "client_session_id" payload) as [| | | |t| |] eqn:Es;
      try (split; [by intros []|intros (_ & Hs & _); by apply dget_none_str in Hs; congruence]).
    apply dget_none_str in Es. rewrite Es.
    destruct (String.eqb_spec t "") as [->|Ht];
      [split; [by intros []|naive_solver]|].
    destruct (veq_str _ SCHEMA_VERSION) eqn:Ev; cbn [negb].
    + apply veq_str_spec, dget_none_str in Ev. rewrite Ev.
      destruct current as [c|]; [destruct (String.eqb_spec t c)|]; simpl; naive_solver.
    + split; [by intros []|]. intros (_ & _ & _ & Hs & _).
      by apply dget_none_str, veq_str_spec in Hs; congruence.
  - split; [by intros []|]. intros (Hk & _). by apply Hset in Hk.
Qed.

End TcpProofs.

(** * A small stream *)

(** A handler that counts its calls and a parser of two fixed lines. *)
Definition demo_line (t : string) : read := RData (t +:+ String newline EmptyString).
Definition demo_loads (s : string) : string + pyval :=
  if str_prefix "hello" s then inr (VDict [("transport_operation", VStr "hello");
    ("schema_version", VStr "0.8"); ("client_session_id", VStr "a")])
  else if str_prefix "req" s then inr (VDict [("client_session_id", VStr "a")])
  else inl "Expecting value".
Definition demo_handler (_ : pydict) : M nat pyval := fun n => (Ok (VDict [("status", VStr "completed")]), Datatypes.S n).

Lemma tcp_one_response_per_line_witness :
  let '(r1, h1, s1) := _handle_client demo_handler demo_loads "epoch" 100
     [demo_line "req"; demo_line "hello"; demo_line "req"] None 0%nat in
  let '(r2, h2, s2) := _handle_client demo_handler demo_loads "epoch" 100 [demo_line "x"] h1 s1 in
  length r1 = length [demo_line "req"; demo_line "hello"; demo_line "req"] /\
  _handle_client demo_handler demo_loads "epoch" 100
    ([demo_line "req"; demo_line "hello"; demo_line "req"] ++ [demo_line "x"]) None 0%nat
  = (r1 ++ r2, h2, s2) /\
  (forall r, framed 100 r = false ->
     _handle_client demo_handler demo_loads "epoch" 100
       ([demo_line "req"; demo_line "hello"; demo_line "req"] ++ r :: [demo_line "x"]) None 0%nat
     = (r1 ++ (_read_line 100 r).2, h1, s1)).
Proof.
  apply (tcp_one_response_per_line demo_handler demo_loads "epoch" 100
    [demo_line "req"; demo_line "hello"; demo_line "req"] [demo_line "x"] None 0%nat).
  repeat constructor.
Defined.

(** One client says hello and sends a request. *)
Definition demo_net : @net nat :=
  Net (<[0%nat := Conn [] (Some "a")
          [[("transport_operation", VStr "hello"); ("schema_version", VStr "0.8");
            ("server_epoch", VStr "epoch"); ("client_session_id", VStr "a")];
           [("status", VStr "completed")]]]> ∅)
    1%nat [(0%nat, [("client_session_id", VStr "a")])].

Lemma tcp_calls_only_bound_session_witness :
  (forall i p, (i, p) ∈ calls demo_net ->
     exists c sid, conns demo_net !! i = Some c /\ c_hello c = Some sid /\
       dget "client_session_id" p = Some (VStr sid)) /\
  (forall i c sid, conns demo_net !! i = Some c -> c_hello c = Some sid ->
     exists c', conns demo_net !! i = Some c' /\ c_hello c' = Some sid).
Proof.
  apply (tcp_calls_only_bound_session demo_handler demo_loads "epoch" 100 demo_net demo_net 0%nat);
    [|apply rtc_refl].
  eapply rtc_l; [apply (net_connect _ _ _ _ _ 0%nat [demo_line "hello"; demo_line "req"]); reflexivity|].
  eapply rtc_l; [eapply (net_line _ _ _ _ _ 0%nat); [reflexivity|reflexivity|discriminate|reflexivity]|].
  eapply rtc_l; [eapply (net_line _ _ _ _ _ 0%nat); [reflexivity|reflexivity|discriminate|reflexivity]|].
  apply rtc_refl.
Defined.
