(* ===== verification/Runtime.v ===== *)
(** The runtime as a process (API/api_runtime.py): a parent that calls and a
    child that serves, over a queue of requests and a queue of responses. *)

From S2P Require Export Server.

Section Runtime.
Context {I W : Type} {HI : ApiInstance I W} (server_epoch : string).
Local Notation server := (@server I W).

(** What the child answers to a request: the server's response, or a fault if
    anything is raised. *)
Definition runtime_serve (payload : pydict) (srv : server) : pydict * server :=
  match handle_request server_epoch DEFAULT_MAX_SESSIONS (VDict payload) srv with
  | (Ok response, srv') => (response, srv')
  | (Raise e, srv') => (fault_response (VDict payload) e, srv')
  end.

(** Both processes. [None] in the queue of requests asks the child to stop;
    [exited] once it has. *)
Record Runtime := {
  in_queue : list (option (Z * pydict));
  out_queue : list (Z * pydict);
  child_server : server;
  exited : bool;
  _next_internal_id : Z;
  rt_closed : bool;
}.
Definition runtime_start (srv : server) : Runtime :=
  {| in_queue := []; out_queue := []; child_server := srv; exited := false; _next_internal_id := 0; rt_closed := false |}.

(** One turn of the child's loop; nothing happens while it waits. *)
Definition child_step (s : Runtime) : Runtime :=
  if exited s then s else
  match in_queue s with
  | [] => s
  | None :: rest =>
      {| in_queue := rest; out_queue := out_queue s; child_server := snd (close_all (child_server s)); exited := true;
         _next_internal_id := _next_internal_id s; rt_closed := rt_closed s |}
  | Some (internal_id, payload) :: rest =>
      let '(response, srv) := runtime_serve payload (child_server s) in
      {| in_queue := rest; out_queue := out_queue s ++ [(internal_id, response)]; child_server := srv; exited := false;
         _next_internal_id := _next_internal_id s; rt_closed := rt_closed s |}
  end.
Definition _rl_runtime_process_main (turns : nat) (s : Runtime) : Runtime := Nat.iter turns child_step s.

(** [self._in_queue.put(...)] *)
Definition put_request (message : option (Z * pydict)) (internal_id : Z) (closed : bool) (s : Runtime) : Runtime :=
  {| in_queue := in_queue s ++ [message]; out_queue := out_queue s; child_server := child_server s; exited := exited s;
     _next_internal_id := internal_id; rt_closed := closed |}.
Definition set_responses (responses : list (Z * pydict)) (s : Runtime) : Runtime :=
  {| in_queue := in_queue s; out_queue := responses; child_server := child_server s; exited := exited s;
     _next_internal_id := _next_internal_id s; rt_closed := rt_closed s |}.
Definition kill (s : Runtime) : Runtime :=
  {| in_queue := in_queue s; out_queue := out_queue s; child_server := child_server s; exited := true;
     _next_internal_id := _next_internal_id s; rt_closed := rt_closed s |}.

Definition runtime_timeout (payload : pydict) : pydict :=
  let response :=
    [("schema_version", VStr SCHEMA_VERSION); ("request_id", dget_none "request_id" payload);
     ("operation", dget_none "operation" payload); ("status", VStr STATUS_FAULTED);
     ("error", VStr "RL Runtime process did not respond within request_timeout_s");
     ("fault_kind", VStr FAULT_TASK_TIMEOUT)]%string in
  match dget_none "instance_id" payload with
  | VNone => response
  | v => dset "instance_id" v response
  end.
Definition out_of_order : pyexn :=
  PyExc "RuntimeError" "RLApiServerProcess.call() received an out-of-order response".

(** [call], when the child makes [turns] turns before the time is up. *)
Definition call (turns : nat) (payload : pydict) : M Runtime pydict :=
  s ← getS;
  if rt_closed s then raiseM (PyExc "RuntimeError" "RLApiServerProcess is closed")
  else
    let internal_id := _next_internal_id s + 1 in
    _ ← modS (put_request (Some (internal_id, payload)) internal_id false);
    _ ← modS (_rl_runtime_process_main turns);
    s ← getS;
    match out_queue s with
    | [] => mret (runtime_timeout payload)
    | (received_id, response) :: rest =>
        _ ← modS (set_responses rest);
        if negb (received_id =? internal_id) then raiseM out_of_order else mret response
    end.

(** [close], when the child makes [turns] turns before it is terminated. *)
Definition runtime_close (turns : nat) : M Runtime unit :=
  s ← getS;
  if rt_closed s then mret tt
  else
    _ ← modS (put_request None (_next_internal_id s) true);
    _ ← modS (_rl_runtime_process_main turns);
    modS kill.

(** A closed runtime stays closed: its child has stopped, and calls are
    refused. *)
Lemma runtime_close_final n s : let s' := snd (runtime_close n s) in
  rt_closed s' = true /\ (rt_closed s = false -> exited s' = true) /\
  forall turns p, snd (runtime_close turns s') = s' /\ exists e, call turns p s' = (Raise e, s').
Proof.
  assert (Hclosed : forall k t, rt_closed (_rl_runtime_process_main k t) = rt_closed t).
  { induction k as [|k IH]; intros t; [done|]. cbn. unfold child_step. specialize (IH t).
    unfold _rl_runtime_process_main in IH. destruct (exited _); [done|]. destruct (in_queue _) as [|[[]|] ?]; [done| |done].
    by destruct (runtime_serve _ _). }
  assert (Hdone : forall t turns p, rt_closed t = true -> snd (runtime_close turns t) = t /\ exists e, call turns p t = (Raise e, t)).
  { intros t turns p Ht. unfold runtime_close, call. split; [erewrite M_run_Ok by reflexivity; by rewrite Ht|].
    eexists. erewrite M_run_Ok by reflexivity. by rewrite Ht. }
  assert (Hs : rt_closed (snd (runtime_close n s)) = true /\ (rt_closed s = false -> exited (snd (runtime_close n s)) = true)).
  { unfold runtime_close. erewrite M_run_Ok by reflexivity. destruct (rt_closed s) eqn:E; [by split|].
    do 2 erewrite M_run_Ok by reflexivity. cbn [modS snd kill rt_closed exited]. by rewrite Hclosed. }
  destruct Hs as [H1 H2]. split_and!; [done|done|]. intros turns p. by apply Hdone.
Qed.

(** * Calls and answers *)

(** A call: the turns the child makes before it and while it waits. *)
Record Call := { idle : nat; patience : nat; asked : pydict }.
Fixpoint run_calls (calls : list Call) (s : Runtime) : list (Res pydict) * Runtime :=
  match calls with
  | [] => ([], s)
  | c :: rest =>
      let '(r, s1) := call (patience c) (asked c) (_rl_runtime_process_main (idle c) s) in
      let '(rs, s2) := run_calls rest s1 in
      (r :: rs, s2)
  end.

(** The answers a server gives to requests in order. *)
Fixpoint answers (srv : server) (payloads : list pydict) : list pydict :=
  match payloads with
  | [] => []
  | p :: rest => fst (runtime_serve p srv) :: answers (snd (runtime_serve p srv)) rest
  end.
Fixpoint serve_all (srv : server) (payloads : list pydict) : server :=
  match payloads with
  | [] => srv
  | p :: rest => serve_all (snd (runtime_serve p srv)) rest
  end.
Fixpoint label {A} (n : Z) (l : list A) : list (Z * A) :=
  match l with [] => [] | x :: l => (n, x) :: label (n + 1) l end.

Lemma answers_app ps qs : forall srv, answers srv (ps ++ qs) = answers srv ps ++ answers (serve_all srv ps) qs.
Proof. induction ps as [|p ps IH]; intros srv; cbn; [done|]. by rewrite IH. Qed.
Lemma serve_all_app ps qs : forall srv, serve_all srv (ps ++ qs) = serve_all (serve_all srv ps) qs.
Proof. induction ps as [|p ps IH]; intros srv; cbn; [done|]. by rewrite IH. Qed.
Lemma answers_length ps : forall srv, length (answers srv ps) = length ps.
Proof. induction ps as [|p ps IH]; intros srv; cbn; [done|]. by rewrite IH. Qed.
Lemma label_app {A} (l l' : list A) : forall n, label n (l ++ l') = label n l ++ label (n + Z.of_nat (length l)) l'.
Proof.
  induction l as [|x l IH]; intros n; cbn [label app length]; [by rewrite Z.add_0_r|]. rewrite IH. do 2 f_equal. f_equal. lia.
Qed.

(** [s] after the requests [gone], [waiting] and [todo]: the first were
    answered and fetched, the second answered, the last are still queued. *)
Record tracks (srv : server) (gone waiting todo : list pydict) (s : Runtime) : Prop := {
  tr_in : in_queue s = map Some (label (1 + Z.of_nat (length (gone ++ waiting))) todo);
  tr_out : out_queue s = label (1 + Z.of_nat (length gone)) (answers (serve_all srv gone) waiting);
  tr_server : child_server s = serve_all srv (gone ++ waiting);
  tr_next : _next_internal_id s = Z.of_nat (length (gone ++ waiting ++ todo));
  tr_open : exited s = false /\ rt_closed s = false;
}.

Lemma tracks_start srv : tracks srv [] [] [] (runtime_start srv).
Proof. by constructor. Qed.

Lemma tracks_step srv gone waiting todo s : tracks srv gone waiting todo s ->
  exists moved todo', todo = moved ++ todo' /\ tracks srv gone (waiting ++ moved) todo' (child_step s).
Proof.
  intros H. pose proof H as [Hi Ho Hs Hn [He Hc]]. unfold child_step. rewrite He, Hi. destruct todo as [|p todo]; cbn [label map].
  { exists [], []. rewrite (app_nil_r waiting). by split. }
  exists [p], todo. split; [done|]. destruct (runtime_serve p (child_server s)) as [r srv'] eqn:E. rewrite Hs in E.
  constructor; cbn [in_queue out_queue child_server _next_internal_id exited rt_closed]; try done.
  - do 2 f_equal. rewrite !length_app. cbn [length]. lia.
  - rewrite Ho, answers_app, label_app, answers_length, <- serve_all_app. cbn [answers]. rewrite E. cbn [label fst].
    rewrite length_app. do 3 f_equal. lia.
  - rewrite app_assoc, (serve_all_app (gone ++ waiting)). cbn [serve_all]. by rewrite E.
  - rewrite Hn, !length_app. cbn [length]. lia.
Qed.
Lemma tracks_run n : forall srv gone waiting todo s, tracks srv gone waiting todo s ->
  exists moved todo', todo = moved ++ todo' /\ tracks srv gone (waiting ++ moved) todo' (_rl_runtime_process_main n s).
Proof.
  induction n as [|n IH]; intros srv gone waiting todo s H.
  { exists [], todo. rewrite (app_nil_r waiting). by split. }
  destruct (IH _ _ _ _ _ H) as (moved & todo1 & -> & H1). destruct (tracks_step _ _ _ _ _ H1) as (moved' & todo2 & -> & H2).
  exists (moved ++ moved'), todo2. split; [by rewrite <- app_assoc|]. by rewrite (app_assoc waiting).
Qed.

(** A call of a runtime that has answered everything is answered by the server
    or times out; one with a backlog is never answered, and the backlog stays. *)
Lemma call_tracks n p srv gone waiting todo s : tracks srv gone waiting todo s ->
  let '(r, s') := call n p s in
  exists gone' waiting' todo', tracks srv gone' waiting' todo' s' /\ gone' ++ waiting' ++ todo' = (gone ++ waiting ++ todo) ++ [p] /\
    ((waiting ++ todo = [] /\ waiting' ++ todo' = [] /\ r = Ok (fst (runtime_serve p (serve_all srv gone)))) \/
     (waiting' ++ todo' <> [] /\ (r = Ok (runtime_timeout p) \/ waiting ++ todo <> [] /\ r = Raise out_of_order))).
Proof.
  intros H. pose proof H as [Hi Ho Hs Hn [He Hc]].
  set (id := _next_internal_id s + 1). set (s1 := put_request (Some (id, p)) id false s).
  assert (H1 : tracks srv gone waiting (todo ++ [p]) s1).
  { constructor; cbn [in_queue out_queue child_server _next_internal_id exited rt_closed s1 put_request]; try done.
    - unfold s1. cbn [in_queue put_request]. rewrite Hi, label_app, map_app. cbn [label map]. unfold id. rewrite Hn, !length_app.
      do 4 f_equal. lia.
    - unfold s1, id. cbn [_next_internal_id put_request]. rewrite Hn, !length_app. cbn [length]. lia. }
  destruct (tracks_run n _ _ _ _ _ H1) as (moved & todo1 & Htodo & H2). set (s2 := _rl_runtime_process_main n s1) in *.
  assert (Hcall : call n p s = match out_queue s2 with
    | [] => (Ok (runtime_timeout p), s2)
    | (received_id, response) :: rest =>
        ((if negb (received_id =? id) then Raise out_of_order else Ok response), set_responses rest s2) end).
  { unfold call. erewrite M_run_Ok by reflexivity. rewrite Hc. do 2 erewrite M_run_Ok by reflexivity. erewrite M_run_Ok by reflexivity.
    fold id s1 s2. destruct (out_queue s2) as [|[received_id response] rest]; [done|]. erewrite M_run_Ok by reflexivity.
    by destruct (negb _). }
  rewrite Hcall. clear Hcall. pose proof H2 as [Hi2 Ho2 Hs2 Hn2 [He2 Hc2]]. rewrite Ho2.
  destruct (waiting ++ moved) as [|q ws] eqn:Ew; cbn [answers label].
  - exists gone, [], todo1. apply app_eq_nil in Ew as [-> ->]. split; [exact H2|]. cbn in *. subst todo1.
    split; [by rewrite app_assoc|]. right. split; [by destruct todo|by left].
  - exists (gone ++ [q]), ws, todo1. split_and!.
    + constructor; cbn; try done.
      * rewrite Hi2. by rewrite <- app_assoc.
      * rewrite length_app, serve_all_app. cbn. f_equal. lia.
      * rewrite Hs2. by rewrite <- app_assoc.
      * rewrite Hn2. by rewrite <- app_assoc.
    + rewrite <- app_assoc. cbn. rewrite <- (app_assoc gone), <- (app_assoc waiting), Htodo, (app_assoc waiting), Ew. done.
    + assert (Hid : id = 1 + Z.of_nat (length gone) + Z.of_nat (length (ws ++ todo1))).
      { change id with (_next_internal_id s1). rewrite (tr_next _ _ _ _ _ H1), Htodo, (app_assoc waiting), Ew.
        rewrite !length_app. cbn [length]. rewrite ?length_app. lia. }
      destruct (ws ++ todo1) as [|x l] eqn:El.
      * left. apply app_eq_nil in El as [-> ->]. cbn in Hid.
        assert (Hq : waiting ++ todo = [] /\ q = p).
        { assert (Hl : (waiting ++ todo) ++ [p] = [q]) by (rewrite <- app_assoc, Htodo, app_nil_r; exact Ew).
          apply app_eq_unit in Hl as [[? [= ->]]|[? [=]]]. done. }
        destruct Hq as [Hw ->]. split_and!; [done|done|]. replace (1 + _ =? id) with true by (symmetry; apply Z.eqb_eq; lia). done.
      * right. split; [done|]. right. replace (1 + _ =? id) with false by (symmetry; apply Z.eqb_neq; cbn in Hid; lia). split; [|done].
        intros Hnil. apply app_eq_nil in Hnil as [-> ->]. cbn in Htodo, Ew. subst moved. cbn in Htodo. injection Htodo as _ Hx.
        symmetry in Hx. by rewrite Hx in El.
Qed.

(** A call that got no answer: it timed out or received another's. *)
Definition lost (c : Call) (r : Res pydict) : Prop := r = Ok (runtime_timeout (asked c)) \/ r = Raise out_of_order.

Lemma backlog_stays srv calls : forall gone waiting todo s, tracks srv gone waiting todo s -> waiting ++ todo <> [] ->
  Forall2 lost calls (fst (run_calls calls s)).
Proof.
  induction calls as [|c calls IH]; intros gone waiting todo s H Hne; cbn [run_calls]; [constructor|].
  destruct (tracks_run (idle c) _ _ _ _ _ H) as (moved & todo1 & -> & H1).
  pose proof (call_tracks (patience c) (asked c) _ _ _ _ _ H1) as Hc.
  destruct (call (patience c) (asked c) (_rl_runtime_process_main (idle c) s)) as [r s1].
  destruct Hc as (gone' & waiting' & todo' & H2 & _ & [(Hnil & _)|(Hne' & Hr)]).
  { rewrite <- app_assoc in Hnil. done. }
  specialize (IH _ _ _ _ H2 Hne'). destruct (run_calls calls s1) as [rs s2]. constructor; [|exact IH].
  destruct Hr as [Hr|[_ Hr]]; [by left|by right].
Qed.

Lemma in_step_until_lost srv calls : forall gone s, tracks srv gone [] [] s -> exists m,
  let rs := fst (run_calls calls s) in
  take m rs = map Ok (take m (answers (serve_all srv gone) (map asked calls))) /\
  Forall2 lost (drop m calls) (drop m rs) /\
  forall c, head (drop m calls) = Some c -> head (drop m rs) = Some (Ok (runtime_timeout (asked c))).
Proof.
  induction calls as [|c calls IH]; intros gone s H; cbn [run_calls map answers]; [by exists 0%nat|].
  destruct (tracks_run (idle c) _ _ _ _ _ H) as (moved & todo1 & Hnil & H1). symmetry in Hnil. apply app_eq_nil in Hnil as [-> ->].
  pose proof (call_tracks (patience c) (asked c) _ _ _ _ _ H1) as Hc.
  destruct (call (patience c) (asked c) (_rl_runtime_process_main (idle c) s)) as [r s1].
  destruct Hc as (gone' & waiting' & todo' & H2 & Happ & [(_ & Hnil & ->)|(Hne & Hr)]).
  - apply app_eq_nil in Hnil as [-> ->]. cbn in Happ. rewrite !app_nil_r in Happ. subst gone'.
    destruct (IH _ _ H2) as (m & Ht & Hl & Hh). destruct (run_calls calls s1) as [rs s2]. exists (Datatypes.S m).
    cbn zeta in *. cbn [fst] in *. cbn [take drop map]. rewrite serve_all_app in Ht. cbn [serve_all] in Ht. rewrite Ht. by split.
  - pose proof (backlog_stays srv calls _ _ _ _ H2 Hne) as Hl. destruct (run_calls calls s1) as [rs s2]. exists 0%nat.
    destruct Hr as [->|[Hr _]]; [|by destruct Hr]. split; [done|]. split; [constructor; [by left|exact Hl]|]. by intros x [= ->].
Qed.

(** C25: the calls of the parent process are matched with the server's answers:
    whatever calls are made and however slow the child is, there is a number [m]
    such that the first [m] calls return exactly what the server answers to
    their requests in that order, the next call times out, and from then on no
    call ever returns an answer again - each times out or raises the
    out-of-order error, even if the child has long caught up. No call returns
    the answer to another request. *)
Theorem runtime_calls_in_step (srv : server) (calls : list Call) :
  exists m, let rs := fst (run_calls calls (runtime_start srv)) in
  take m rs = map Ok (take m (answers srv (map asked calls))) /\
  Forall2 lost (drop m calls) (drop m rs) /\
  forall c, head (drop m calls) = Some c -> head (drop m rs) = Some (Ok (runtime_timeout (asked c))).
Proof. exact (in_step_until_lost srv calls [] _ (tracks_start srv)). Qed.
End Runtime.
