(* ===== verification/ChoiceCard.v ===== *)
(** The public view of a pending card choice
    (API/choice_card_semantics.py): an explicit allowlist, with the mechanic's
    semantics kept only when the identity of every option is sound. *)

From S2P Require Export PyValue Dto.

Definition CHOICE_SEMANTICS_VERSION : Z := 1.

Definition CHOICE_OPERATIONS : list string :=
  ["gain"; "discard"; "exhaust"; "upgrade"; "retrieve"; "play"; "replay"; "remove";
   "transform"; "unknown"].
Definition CHOICE_EFFECTS : list string := ["move"; "modify"; "play"; "replace"].
Definition CHOICE_ZONES : list string :=
  ["hand"; "draw"; "draw_pile"; "discard"; "discard_pile"; "exhaust"; "exhaust_pile";
   "play"; "play_pile"; "deck"; "master_deck"; "reward"; "generated"; "none"; "unknown"].
Definition CHOICE_MODIFIERS : list string := ["upgrade"].

Definition PUBLIC_PENDING_CHOICE_KEYS : list string :=
  ["choiceType"; "scope"; "scenarioRestorable"; "minSelect"; "maxSelect"; "selectedCount";
   "choiceSemantics"; "sourceEffectId"; "selectedOptionIds"; "options"].
Definition PUBLIC_CHOICE_SEMANTICS_KEYS : list string :=
  ["version"; "operation"; "effect"; "sourceZone"; "destinationZone"; "modifier";
   "orderMatters"; "replacementAllowed"].

Definition _PUBLIC_SOURCE_EFFECT_PREFIXES : list string := ["card:"].

Definition _unknown_semantics : pydict :=
  [("version", VInt CHOICE_SEMANTICS_VERSION); ("operation", VStr "unknown")].

Definition _nonnegative_int_or_none (value : pyval) : option Z :=
  match value with VInt z => if z <? 0 then None else Some z | _ => None end.

(** [_OPAQUE_TOKEN_RE]: a letter or digit, then at most 127 of these characters. *)
Definition is_alnum (a : Ascii.ascii) : bool :=
  let n := Ascii.N_of_ascii a in
  ((48 <=? n) && (n <=? 57) || (65 <=? n) && (n <=? 90) || (97 <=? n) && (n <=? 122))%N.
Definition is_token_char (a : Ascii.ascii) : bool :=
  is_alnum a || existsb (N.eqb (Ascii.N_of_ascii a)) [46; 95; 58; 47; 45]%N.
Definition token_match (s : string) : bool :=
  match String.list_ascii_of_string s with
  | [] => false
  | a :: l => is_alnum a && forallb is_token_char l && (Z.of_nat (length l) <=? 127)
  end.

Definition _valid_token (value : pyval) : option string :=
  match value with VStr s => if token_match s then Some s else None | _ => None end.

Definition _safe_source_effect_id (value : pyval) : option string :=
  match _valid_token value with
  | None => None
  | Some s =>
      if existsb (fun p => str_prefix p s && (String.length p <? String.length s)%nat)
           _PUBLIC_SOURCE_EFFECT_PREFIXES
      then Some s else None
  end.

(** [_enum_or_none]: the outer [None] is the [ValueError]. *)
Definition _enum_or_none (value : pyval) (allowed : list string) : option (option string) :=
  match value with
  | VNone => Some None
  | VStr s => if str_in s allowed then Some (Some s) else None
  | _ => None
  end.
Definition bool_or_none (value : pyval) : option (option bool) :=
  match value with VNone => Some None | VBool b => Some (Some b) | _ => None end.

(** [if value is not None: result[key] = value], on a key not yet in the
    result. *)
Definition opt_field {A} (k : string) (f : A -> pyval) (o : option A) : pydict :=
  match o with Some a => [(k, f a)] | None => [] end.

Definition normalize_choice_semantics (raw : pyval) : pydict :=
  match raw with
  | VDict d =>
      match dget_none "version" d, dget_none "operation" d with
      | VInt version, VStr operation =>
          if negb (version =? CHOICE_SEMANTICS_VERSION) || negb (str_in operation CHOICE_OPERATIONS)
          then _unknown_semantics
          else if String.eqb operation "unknown" then _unknown_semantics
          else match _enum_or_none (dget_none "effect" d) CHOICE_EFFECTS,
                     _enum_or_none (dget_none "sourceZone" d) CHOICE_ZONES,
                     _enum_or_none (dget_none "destinationZone" d) CHOICE_ZONES,
                     _enum_or_none (dget_none "modifier" d) CHOICE_MODIFIERS,
                     bool_or_none (dget_none "orderMatters" d),
                     bool_or_none (dget_none "replacementAllowed" d) with
          | Some effect, Some source_zone, Some destination_zone, Some modifier,
            Some order_matters, Some replacement_allowed =>
              ("version", VInt CHOICE_SEMANTICS_VERSION) :: ("operation", VStr operation) ::
              opt_field "effect" VStr effect ++
              opt_field "sourceZone" VStr source_zone ++
              opt_field "destinationZone" VStr destination_zone ++
              opt_field "modifier" VStr modifier ++
              opt_field "orderMatters" VBool order_matters ++
              opt_field "replacementAllowed" VBool replacement_allowed
          | _, _, _, _, _, _ => _unknown_semantics
          end
      | _, _ => _unknown_semantics
      end
  | _ => _unknown_semantics
  end.

Definition str_or_none (value : pyval) : option string :=
  match value with VStr s => Some s | _ => None end.
Definition bool_only (value : pyval) : option bool :=
  match value with VBool b => Some b | _ => None end.

(** The loop over the selected ids: the valid ones, and whether all are. *)
Definition read_selected (raw : pyval) : option (list string) * bool :=
  match raw with
  | VList l => (Some (omap _valid_token l),
                forallb (fun v => match _valid_token v with Some _ => true | None => false end) l)
  | _ => (None, false)
  end.

(** The loop over the options: the kept objects, their valid ids, and whether
    all options were objects with valid ids. *)
Definition read_option (raw : pyval) : option (pydict * option string) :=
  match raw with
  | VDict d =>
      match _valid_token (dget_none "optionId" d) with
      | Some i => Some (d, Some i)
      | None => Some (ddel "optionId" d, None)
      end
  | _ => None
  end.
Definition read_options (raw : pyval) : option (list pydict) * list string * bool :=
  match raw with
  | VList l =>
      let opts := omap read_option l in
      (Some opts.*1, omap snd opts,
       forallb (fun v => match read_option v with Some (_, Some _) => true | _ => false end) l)
  | _ => (None, [], false)
  end.

Definition no_dup (l : list string) : bool := bool_decide (NoDup l).
Definition disjoint_from (l m : list string) : bool := forallb (fun x => negb (str_in x m)) l.

(** The public dictionary, in the order its keys are written. *)
Definition pending_fields (choice_type scope : option string) (restorable : option bool)
    (min_select max_select selected_count : option Z) (selected : option (list string))
    (options : option (list pydict)) (semantics : pydict) (effect_id : option string) : pydict :=
  opt_field "choiceType" VStr choice_type ++
  opt_field "scope" VStr scope ++
  opt_field "scenarioRestorable" VBool restorable ++
  opt_field "minSelect" VInt min_select ++
  opt_field "maxSelect" VInt max_select ++
  opt_field "selectedCount" VInt selected_count ++
  opt_field "selectedOptionIds" (fun l => VList (map VStr l)) selected ++
  opt_field "options" (fun l => VList (map VDict l)) options ++
  [("choiceSemantics", VDict semantics)] ++
  opt_field "sourceEffectId" VStr effect_id.

(** [semantics["operation"] != "unknown"]. *)
Definition known (semantics : pydict) : bool :=
  negb (veq_str (dget_none "operation" semantics) "unknown").

Definition normalize_pending_choice (raw_pending_choice : pyval) : pydict :=
  match raw_pending_choice with
  | VDict raw =>
      let get k := dget_none k raw in
      let selected_count := _nonnegative_int_or_none (get "selectedCount") in
      let semantics := normalize_choice_semantics (get "choiceSemantics") in
      let '(selected, selected_ok) := read_selected (get "selectedOptionIds") in
      let selected_ids := default [] selected in
      let '(options, option_ids, options_ok) := read_options (get "options") in
      let identity_valid :=
        selected_ok && options_ok &&
        (match selected_count with
         | Some n => n =? Z.of_nat (length selected_ids) | None => false end) &&
        no_dup selected_ids && no_dup option_ids && disjoint_from selected_ids option_ids in
      let semantics :=
        if negb identity_valid && known semantics then _unknown_semantics else semantics in
      pending_fields
        (str_or_none (get "choiceType")) (str_or_none (get "scope"))
        (bool_only (get "scenarioRestorable"))
        (_nonnegative_int_or_none (get "minSelect")) (_nonnegative_int_or_none (get "maxSelect"))
        selected_count selected options semantics
        (if known semantics then _safe_source_effect_id (get "sourceEffectId") else None)
  | _ => []
  end.

(** * Lemmas *)

Lemma dget_app {A} k (d e : list (string * A)) :
  dget k (d ++ e) = match dget k d with Some v => Some v | None => dget k e end.
Proof. induction d as [|[k' v] d IH]; simpl; [done|]. by destruct (String.eqb k k'). Qed.

Lemma dget_opt_field {A} k k' (f : A -> pyval) o :
  dget k (opt_field k' f o) = if String.eqb k k' then f <$> o else None.
Proof. destruct o; simpl; by destruct (String.eqb k k'). Qed.

Lemma dkeys_opt_field {A} k (f : A -> pyval) o k' : k' ∈ dkeys (opt_field k f o) -> k' = k.
Proof. destruct o; simpl; set_solver. Qed.

(** Reads a known key off a dictionary built from optional fields. *)
Ltac read_fields :=
  repeat (rewrite dget_app || rewrite dget_opt_field);
  repeat match goal with
  | |- context [String.eqb ?a ?b] =>
      let r := eval vm_compute in (String.eqb a b) in change (String.eqb a b) with r
  end; cbv iota beta.

(** The well-formed public descriptor of a mechanic. *)
Definition semantics_wf (s : pydict) : Prop :=
  dget "version" s = Some (VInt CHOICE_SEMANTICS_VERSION) /\
  (exists op, dget "operation" s = Some (VStr op) /\ op ∈ CHOICE_OPERATIONS) /\
  (forall k, k ∈ dkeys s -> k ∈ PUBLIC_CHOICE_SEMANTICS_KEYS) /\
  (forall k v, (k, v) ∈ s ->
     v = VInt CHOICE_SEMANTICS_VERSION \/ (exists b, v = VBool b) \/
     exists t, v = VStr t /\ t ∈ CHOICE_OPERATIONS ++ CHOICE_EFFECTS ++ CHOICE_ZONES ++ CHOICE_MODIFIERS).

Lemma unknown_wf : semantics_wf _unknown_semantics.
Proof.
  split_and!; [done| |set_solver|].
  - exists "unknown". split; [done|]. by apply str_in_elem.
  - intros k v Hin. apply elem_of_cons in Hin as [[= -> ->]|Hin]; [by left|].
    right; right. exists "unknown".
    apply list_elem_of_singleton in Hin as [= -> ->]. split; [done|]. by apply str_in_elem.
Qed.

Lemma enum_some v allowed t : _enum_or_none v allowed = Some (Some t) -> t ∈ allowed.
Proof.
  destruct v; simpl; try done. destruct (str_in s allowed) eqn:E; [|done].
  intros [= ->]. by apply str_in_elem.
Qed.

Lemma opt_field_elem {A} k v k' (f : A -> pyval) o :
  (k, v) ∈ opt_field k' f o -> exists a, o = Some a /\ v = f a.
Proof. destruct o; simpl; [|by intros []%elem_of_nil]. intros Hin%list_elem_of_singleton. simplify_eq. eauto. Qed.

Lemma normalize_semantics_wf raw : semantics_wf (normalize_choice_semantics raw).
Proof.
  destruct raw as [| | | | | |d]; try apply unknown_wf. unfold normalize_choice_semantics.
  destruct (dget_none "version" d) as [| |ver| | | |]; try apply unknown_wf.
  destruct (dget_none "operation" d) as [| | | |op| |]; try apply unknown_wf.
  destruct (_ || _) eqn:E; [apply unknown_wf|]. apply orb_false_iff in E as [_ Hop].
  apply negb_false_iff, str_in_elem in Hop. case_match; [apply unknown_wf|].
  destruct (_enum_or_none (dget_none "effect" d) _) as [e1|] eqn:E1; [|apply unknown_wf].
  destruct (_enum_or_none (dget_none "sourceZone" d) _) as [e2|] eqn:E2; [|apply unknown_wf].
  destruct (_enum_or_none (dget_none "destinationZone" d) _) as [e3|] eqn:E3; [|apply unknown_wf].
  destruct (_enum_or_none (dget_none "modifier" d) _) as [e4|] eqn:E4; [|apply unknown_wf].
  destruct (bool_or_none (dget_none "orderMatters" d)) as [e5|]; [|apply unknown_wf].
  destruct (bool_or_none (dget_none "replacementAllowed" d)) as [e6|]; [|apply unknown_wf].
  split_and!; [done|by exists op| |].
  - intros k. unfold dkeys. rewrite !fmap_cons, !fmap_app, !elem_of_cons, !elem_of_app.
    intros Hin. apply str_in_elem.
    destruct_or! Hin; try apply dkeys_opt_field in Hin; by rewrite Hin.
  - intros k v. rewrite !elem_of_cons, !elem_of_app. intros Hin.
    destruct Hin as [Hin|[Hin|Hin]]; [simplify_eq; by left
      |simplify_eq; right; right; exists op; split; [done|]; rewrite !elem_of_app; by left|].
    right. destruct_or! Hin; apply opt_field_elem in Hin as (a & -> & ->);
      try (by left; exists a); right; exists a; (split; [done|]); rewrite !elem_of_app;
      first [apply enum_some in E1; by auto|apply enum_some in E2; by auto
            |apply enum_some in E3; by auto|apply enum_some in E4; by auto].
Qed.

(** Reading a normalized descriptor gives it back. *)
Lemma enum_again (k : string) allowed v o :
  _enum_or_none v allowed = Some o ->
  _enum_or_none (match VStr <$> o with Some x => x | None => VNone end) allowed = Some o.
Proof.
  intros H. destruct o as [t|]; simpl; [|done]. apply enum_some, str_in_elem in H. by rewrite H.
Qed.

Lemma bool_again v o :
  bool_or_none v = Some o ->
  bool_or_none (match VBool <$> o with Some x => x | None => VNone end) = Some o.
Proof. by destruct o. Qed.

Lemma or_None {A} (o : option A) : match o with Some v => Some v | None => None end = o.
Proof. by destruct o. Qed.

Lemma normalize_semantics_idem raw :
  normalize_choice_semantics (VDict (normalize_choice_semantics raw))
  = normalize_choice_semantics raw.
Proof.
  destruct raw as [| | | | | |d]; try done. unfold normalize_choice_semantics at 2 3.
  destruct (dget_none "version" d) as [| |ver| | | |]; try done.
  destruct (dget_none "operation" d) as [| | | |op| |]; try done.
  destruct (_ || _) eqn:E; [done|]. apply orb_false_iff in E as [_ Hop].
  destruct (String.eqb op "unknown") eqn:Eu; [done|].
  destruct (_enum_or_none (dget_none "effect" d) _) as [e1|] eqn:E1; [|done].
  destruct (_enum_or_none (dget_none "sourceZone" d) _) as [e2|] eqn:E2; [|done].
  destruct (_enum_or_none (dget_none "destinationZone" d) _) as [e3|] eqn:E3; [|done].
  destruct (_enum_or_none (dget_none "modifier" d) _) as [e4|] eqn:E4; [|done].
  destruct (bool_or_none (dget_none "orderMatters" d)) as [e5|] eqn:E5; [|done].
  destruct (bool_or_none (dget_none "replacementAllowed" d)) as [e6|] eqn:E6; [|done].
  cbn [normalize_choice_semantics]. set (r := _ :: _).
  assert (Hr : forall k, k ≠ "version" -> k ≠ "operation" -> dget_none k r
    = match dget k (opt_field "effect" VStr e1 ++ opt_field "sourceZone" VStr e2 ++
        opt_field "destinationZone" VStr e3 ++ opt_field "modifier" VStr e4 ++
        opt_field "orderMatters" VBool e5 ++ opt_field "replacementAllowed" VBool e6)
      with Some v => v | None => VNone end).
  { intros k H1%String.eqb_neq H2%String.eqb_neq. unfold dget_none, r. simpl. by rewrite H1, H2. }
  change (dget_none "version" r) with (VInt CHOICE_SEMANTICS_VERSION).
  change (dget_none "operation" r) with (VStr op). cbv iota.
  rewrite Z.eqb_refl, Hop, Eu. cbn [negb orb]. rewrite !Hr by done. read_fields.
  rewrite !or_None.
  rewrite (enum_again "" _ _ _ E1), (enum_again "" _ _ _ E2), (enum_again "" _ _ _ E3),
    (enum_again "" _ _ _ E4), (bool_again _ _ E5), (bool_again _ _ E6).
  done.
Qed.

Lemma valid_token_some v t : _valid_token v = Some t -> v = VStr t /\ token_match t = true.
Proof. destruct v; simpl; try done. case_match; naive_solver. Qed.

Lemma omap_valid_again l :
  omap _valid_token (map VStr (omap _valid_token l)) = omap _valid_token l /\
  forallb (fun v => match _valid_token v with Some _ => true | None => false end)
    (map VStr (omap _valid_token l)) = true.
Proof.
  induction l as [|v l [IH1 IH2]]; simpl; [done|].
  destruct (_valid_token v) as [t|] eqn:E; simpl; [|done].
  apply valid_token_some in E as [-> E]. simpl. rewrite E. simpl.
  split; [f_equal; exact IH1|exact IH2].
Qed.

Lemma read_selected_again v :
  read_selected (match (fun l => VList (map VStr l)) <$> (read_selected v).1 with
                 | Some x => x | None => VNone end)
  = ((read_selected v).1, match (read_selected v).1 with Some _ => true | None => false end).
Proof.
  destruct v as [| | | | |l|]; try done. destruct (omap_valid_again l) as [H1 H2].
  unfold read_selected, fst, fmap, option_fmap, option_map. by rewrite H1, H2.
Qed.

Lemma read_option_again v d i : read_option v = Some (d, i) -> read_option (VDict d) = Some (d, i).
Proof.
  destruct v as [| | | | | |e]; simpl; try done.
  destruct (_valid_token (dget_none "optionId" e)) as [t|] eqn:E; intros [= <- <-]; [by rewrite E|].
  unfold dget_none. rewrite dget_ddel_eq. simpl. f_equal. f_equal.
  apply ddel_fresh. apply dget_None_keys, dget_ddel_eq.
Qed.

Lemma omap_options_again l :
  omap read_option (map VDict (omap read_option l).*1) = omap read_option l.
Proof.
  induction l as [|v l IH]; simpl; [done|].
  destruct (read_option v) as [[d i]|] eqn:E; simpl; [|done].
  apply read_option_again in E. simpl in E. rewrite E. f_equal. exact IH.
Qed.

Lemma read_options_again v :
  let '(o, ids, ok) := read_options v in
  exists ok', read_options (match (fun l => VList (map VDict l)) <$> o with
                 | Some x => x | None => VNone end) = (o, ids, ok') /\ (ok = true -> ok' = true).
Proof.
  destruct v as [| | | | |l|]; try by eexists.
  unfold read_options, fmap, option_fmap, option_map. rewrite omap_options_again. eexists. split; [done|]. intros Hok.
  induction l as [|v l IH]; simpl in *; [done|]. apply andb_true_iff in Hok as [H1 H2].
  destruct (read_option v) as [[d [t|]]|] eqn:E; try done. simpl.
  apply read_option_again in E. simpl in E. rewrite E. simpl. by apply IH.
Qed.

Lemma nonneg_again v :
  _nonnegative_int_or_none (match VInt <$> _nonnegative_int_or_none v with
    | Some x => x | None => VNone end) = _nonnegative_int_or_none v.
Proof. destruct v; simpl; try done. destruct (z <? 0) eqn:E; simpl; [done|by rewrite E]. Qed.

Lemma effect_id_str v t :
  _safe_source_effect_id v = Some t -> v = VStr t /\ str_prefix "card:" t = true.
Proof.
  unfold _safe_source_effect_id. destruct (_valid_token v) as [u|] eqn:E; [|done].
  apply valid_token_some in E as [-> E]. destruct (existsb _ _) eqn:Ex; [|done].
  intros [= ->]. split; [done|]. cbn [existsb _PUBLIC_SOURCE_EFFECT_PREFIXES] in Ex.
  rewrite orb_false_r in Ex. by apply andb_true_iff in Ex as [? _].
Qed.

Lemma effect_id_again v :
  _safe_source_effect_id (match VStr <$> _safe_source_effect_id v with
    | Some x => x | None => VNone end) = _safe_source_effect_id v.
Proof.
  destruct (_safe_source_effect_id v) as [t|] eqn:E; [|done].
  simpl. rewrite <- E. by apply effect_id_str in E as [-> _].
Qed.

(** [o] as a value of the dictionary, and as [get] reads it. *)
Definition as_val {A} (f : A -> pyval) (o : option A) : pyval :=
  match f <$> o with Some v => v | None => VNone end.

Section PendingFields.
Context (ct sc : option string) (sr : option bool) (mn mx cnt : option Z)
  (sel : option (list string)) (opts : option (list pydict)) (sem : pydict) (eff : option string).
#[local] Notation r := (pending_fields ct sc sr mn mx cnt sel opts sem eff).

Ltac field := unfold dget_none, as_val, pending_fields; read_fields; simpl; by rewrite ?or_None.

Lemma get_choice_type : dget_none "choiceType" r = as_val VStr ct.
Proof. field. Qed.
Lemma get_scope : dget_none "scope" r = as_val VStr sc.
Proof. field. Qed.
Lemma get_restorable : dget_none "scenarioRestorable" r = as_val VBool sr.
Proof. field. Qed.
Lemma get_min : dget_none "minSelect" r = as_val VInt mn.
Proof. field. Qed.
Lemma get_max : dget_none "maxSelect" r = as_val VInt mx.
Proof. field. Qed.
Lemma get_count : dget_none "selectedCount" r = as_val VInt cnt.
Proof. field. Qed.
Lemma get_selected : dget_none "selectedOptionIds" r = as_val (fun l => VList (map VStr l)) sel.
Proof. field. Qed.
Lemma get_options : dget_none "options" r = as_val (fun l => VList (map VDict l)) opts.
Proof. field. Qed.
Lemma get_semantics : dget_none "choiceSemantics" r = VDict sem.
Proof. field. Qed.
Lemma get_effect : dget_none "sourceEffectId" r = as_val VStr eff.
Proof. field. Qed.

Lemma pending_keys k : k ∈ dkeys r -> k ∈ PUBLIC_PENDING_CHOICE_KEYS.
Proof.
  unfold pending_fields, dkeys. rewrite !fmap_app, !elem_of_app. intros Hin.
  apply str_in_elem. destruct_or! Hin; try apply dkeys_opt_field in Hin;
    try apply (proj1 (list_elem_of_singleton k "choiceSemantics")) in Hin; by rewrite Hin.
Qed.
End PendingFields.

(** Normalizing a pending choice twice changes nothing: a published
    [pendingChoice] is a fixed point of the normalization, so no field is lost,
    repaired or re-attached by a second masking pass. *)
Theorem normalize_pending_choice_idempotent (d : pydict) :
  normalize_pending_choice (VDict (normalize_pending_choice (VDict d)))
  = normalize_pending_choice (VDict d).
Proof.
  unfold normalize_pending_choice at 2 3.
  pose proof (read_selected_again (dget_none "selectedOptionIds" d)) as Hs.
  destruct (read_selected (dget_none "selectedOptionIds" d)) as [sel sel_ok] eqn:Esel.
  pose proof (read_options_again (dget_none "options" d)) as Ho.
  destruct (read_options (dget_none "options" d)) as [[opts ids] opts_ok] eqn:Eopt.
  destruct Ho as (opts_ok' & Ho & Hok).
  set (valid := sel_ok && opts_ok && _ && _ && _ && _).
  set (sem := normalize_choice_semantics (dget_none "choiceSemantics" d)).
  set (sem' := if negb valid && _ then _ else _).
  assert (Hsem : normalize_choice_semantics (VDict sem') = sem').
  { unfold sem'. destruct (negb valid && _); [reflexivity|apply normalize_semantics_idem]. }
  unfold normalize_pending_choice.
  rewrite get_choice_type, get_scope, get_restorable, get_min, get_max, get_count,
    get_selected, get_options, get_semantics, get_effect, Hsem.
  unfold as_val. cbn [fst] in Hs. rewrite Hs, Ho, !nonneg_again.
  set (valid' := _ && opts_ok' && _ && _ && _ && _).
  assert (Hv : valid = true -> valid' = true).
  { unfold valid, valid'. rewrite !andb_true_iff. intros (((((H1 & H2) & H3) & H4) & H5) & H6).
    split_and!; auto. destruct sel; [done|].
    destruct (dget_none "selectedOptionIds" d); simplify_eq/=; done. }
  assert (Hsem' : (if negb valid' && known sem' then _unknown_semantics else sem') = sem').
  { destruct valid' eqn:E; [done|]. destruct (known sem') eqn:K; [|done]. exfalso.
    unfold sem' in K. destruct valid; [by specialize (Hv eq_refl)|]. simpl in K.
    by destruct (known sem) eqn:Ks; rewrite ?Ks in K. }
  rewrite Hsem'. f_equal.
  - by destruct (dget_none "choiceType" d).
  - by destruct (dget_none "scope" d).
  - by destruct (dget_none "scenarioRestorable" d).
  - destruct (known sem'); [apply effect_id_again|done].
Qed.

(** * What a normalized choice says *)

(** A known mechanic comes with a sound identity: the selected and the remaining
    options have valid ids, no id twice among all of them, and the count
    published is the number of selected ids. *)
Definition identity_sound (r : pydict) : Prop :=
  exists ids options oids,
    dget_none "selectedOptionIds" r = VList (map VStr ids) /\
    dget_none "selectedCount" r = VInt (Z.of_nat (length ids)) /\
    dget_none "options" r = VList (map VDict options) /\
    Forall2 (fun o i => dget "optionId" o = Some (VStr i)) options oids /\
    Forall (fun i => token_match i = true) (ids ++ oids) /\
    NoDup (ids ++ oids).

Lemma read_selected_ok v ids :
  read_selected v = (Some ids, true) -> Forall (fun i => token_match i = true) ids.
Proof.
  destruct v as [| | | | |l|]; try done. cbn [read_selected]. intros [= <- _].
  apply Forall_forall. intros i (w & _ & Hw)%list_elem_of_omap. by apply valid_token_some in Hw as [_ ?].
Qed.

Lemma read_options_ok v opts ids :
  read_options v = (Some opts, ids, true) ->
  Forall2 (fun o i => dget "optionId" o = Some (VStr i)) opts ids /\
  Forall (fun i => token_match i = true) ids.
Proof.
  destruct v as [| | | | |l|]; try done. cbn [read_options]. intros [= <- <- Hok].
  induction l as [|v l IH]; [by split|]. simpl in Hok. apply andb_true_iff in Hok as [H1 H2].
  destruct (IH H2) as [IH1 IH2]. simpl.
  destruct (read_option v) as [[o [i|]]|] eqn:E; try done. simpl.
  destruct v as [| | | | | |e]; try done. simpl in E.
  destruct (_valid_token (dget_none "optionId" e)) as [t|] eqn:Et; try done.
  injection E as <- <-. apply valid_token_some in Et as [Et Hm].
  split; constructor; try done. unfold dget_none in Et. by destruct (dget "optionId" e); simplify_eq.
Qed.

Lemma disjoint_nodup l m :
  no_dup l = true -> no_dup m = true -> disjoint_from l m = true -> NoDup (l ++ m).
Proof.
  unfold no_dup, disjoint_from. rewrite !bool_decide_eq_true, forallb_forall.
  intros H1 H2 H3. apply NoDup_app. split_and!; [done| |done].
  intros x Hx%list_elem_of_In Hm%str_in_elem. apply H3 in Hx. by rewrite Hm in Hx.
Qed.

(** What the public view of a pending choice may say: no key outside the
    allowlist; a semantic descriptor of version 1 with approved keys and
    enumeration values only, whatever the emulator sent; a mechanic other than
    "unknown" only together with a sound identity of all options (valid ids, no
    duplicates, count right); and a source effect only for a known mechanic and
    under a reviewed public prefix. *)
Theorem pending_choice_public (d : pydict) :
  let r := normalize_pending_choice (VDict d) in
  (forall k, k ∈ dkeys r -> k ∈ PUBLIC_PENDING_CHOICE_KEYS) /\
  exists s, dget_none "choiceSemantics" r = VDict s /\ semantics_wf s /\
    (dget_none "operation" s ≠ VStr "unknown" -> identity_sound r) /\
    (dget_none "sourceEffectId" r = VNone \/
     dget_none "operation" s ≠ VStr "unknown" /\
     exists t, dget_none "sourceEffectId" r = VStr t /\ str_prefix "card:" t = true).
Proof.
  cbv zeta. unfold normalize_pending_choice.
  destruct (read_selected (dget_none "selectedOptionIds" d)) as [sel sel_ok] eqn:Esel.
  destruct (read_options (dget_none "options" d)) as [[opts ids] opts_ok] eqn:Eopt.
  set (valid := sel_ok && opts_ok && _ && _ && _ && _).
  set (sem := normalize_choice_semantics (dget_none "choiceSemantics" d)).
  set (sem' := if negb valid && _ then _ else _).
  assert (Hk : forall s, dget_none "operation" s ≠ VStr "unknown" ↔ known s = true).
  { intros s. unfold known. destruct (dget_none "operation" s); simpl; try (by split).
    rewrite negb_true_iff, String.eqb_neq. naive_solver. }
  split; [apply pending_keys|]. exists sem'. rewrite get_semantics. split_and!; [done| | |].
  - unfold sem'. case_match; [apply unknown_wf|apply normalize_semantics_wf].
  - rewrite Hk. intros Hkn. assert (Hv : valid = true).
    { unfold sem' in Hkn. destruct valid; [done|]. simpl in Hkn.
      by destruct (known sem) eqn:E; rewrite ?E in Hkn. }
    unfold valid in Hv. rewrite !andb_true_iff in Hv.
    destruct Hv as (((((-> & ->) & Hc) & H1) & H2) & H3).
    destruct sel as [l|]; [|by destruct (dget_none "selectedOptionIds" d)].
    destruct opts as [o|]; [|by destruct (dget_none "options" d)].
    apply read_selected_ok in Esel. apply read_options_ok in Eopt as [Ho Hoi].
    exists l, o, ids. rewrite get_selected, get_count, get_options.
    destruct (_nonnegative_int_or_none (dget_none "selectedCount" d)) as [n|]; [|done].
    apply Z.eqb_eq in Hc as ->. split_and!; try done; [by apply Forall_app|].
    by apply disjoint_nodup.
  - rewrite get_effect, Hk. destruct (known sem'); [|by left].
    destruct (_safe_source_effect_id _) as [t|] eqn:E; [right|by left].
    split; [done|]. exists t. split; [done|]. by apply effect_id_str in E as [_ ?].
Qed.
