(* ===== verification/Masking.v ===== *)
(** The masked public state (API/masking.py): the recursive, name-driven scrub,
    the multiset view of the card piles and the published DTO. *)

From S2P Require Export ChoiceCard PyRepr.

Definition _FORBIDDEN_KEY_SUBSTRINGS : list string :=
  ["snapshot"; "savestate"; "save_state"; "replay"; "lease"; "worker"; "pid";
   "generation"; "combatsessionid"; "combat_session_id"; "sessionid"; "session_id";
   "context_id"; "contextid"; "rngstate"; "rng_state"; "runrng"; "run_rng"; "seed";
   "hypothesis"; "shuffle"; "cursor"; "eventqueue"; "event_queue"; "encounterqueue";
   "encounter_queue"; "futureevents"; "future_events"; "upcomingencounters";
   "upcoming_encounters"; "bossqueue"; "boss_queue"; "ancientqueue"; "ancient_queue";
   "unknown_fields"].
Definition _MULTISET_PILE_KEYS : list string := ["drawPile"; "discardPile"; "exhaustPile"].
Definition _DELETE_KEYS : list string := ["playPile"; "reward"].
Definition _ALLOWLISTED_METRICS_EXTRAS_INFO_KEYS : list string := [].
Definition _METRICS_EXTRAS_INFO_KEY_NAMES : list string := ["metrics"; "extras"; "info"].

(** * Piles as multisets *)

(** [entry.get(k, default)]. *)
Definition dget_or (k : string) (v : pyval) (d : pydict) : pyval :=
  match dget k d with Some x => x | None => v end.

Definition upgrade_level (entry : pydict) : Res Z :=
  py_int (py_or (dget_or "upgradeLevel" (VInt 0) entry) (VInt 0)).

Definition _card_identity_key (entry : pydict) : Res (list pyval) :=
  let enchantment := py_or (dget_none "enchantment" entry) (VDict []) in
  level ← upgrade_level entry;
  eid ← py_get "id" enchantment;
  amount ← py_get "amount" enchantment;
  status ← py_get "status" enchantment;
  Ok [dget_none "id" entry; dget_none "type" entry; dget_none "rarity" entry;
      dget_none "cost" entry; dget_none "targetType" entry;
      VBool (truthy (dget_or "upgraded" (VBool false) entry));
      VInt level;
      dget_none "tinkerTimeType" entry; dget_none "tinkerTimeRider" entry;
      eid; amount; status].

Definition _sort_key (identity_key : list pyval) : list string :=
  map (fun part => py_type_name part +:+ ":" +:+ py_repr part) identity_key.

(** Tuples of strings, compared left to right. *)
Fixpoint strs_leb (a b : list string) : bool :=
  match a, b with
  | [], _ => true
  | _ :: _, [] => false
  | x :: a', y :: b' => if String.eqb x y then strs_leb a' b' else String.leb x y
  end.

Fixpoint key_eqb (a b : list pyval) : bool :=
  match a, b with
  | [], [] => true
  | x :: a', y :: b' => py_eqb x y && key_eqb a' b'
  | _, _ => false
  end.

Definition _public_enchantment (enchantment : pyval) : pyval :=
  match enchantment with
  | VDict d => VDict [("id", dget_none "id" d); ("amount", dget_none "amount" d);
                      ("status", dget_none "status" d)]
  | _ => VNone
  end.

(** [counts] and [representatives]: a key, its count and its first entry. *)
Definition pile_counts : Type := list (list pyval * (Z * pydict)).

Fixpoint count_key (key : list pyval) (entry : pydict) (c : pile_counts) : pile_counts :=
  match c with
  | [] => [(key, (1, entry))]
  | (k, (n, e)) :: c' =>
      if key_eqb k key then (k, (n + 1, e)) :: c' else (k, (n, e)) :: count_key key entry c'
  end.

(** One pass of the loop over the pile. *)
Definition count_entry (c : pile_counts) (entry : pyval) : Res pile_counts :=
  match entry with
  | VDict d =>
      match dget_none "id" d with
      | VNone => Ok c
      | _ =>
          key ← _card_identity_key d;
          foldR (fun _ part => hashable part) key tt;;
          Ok (count_key key d c)
      end
  | _ => Ok c
  end.

Definition pile_record (row : list pyval * (Z * pydict)) : Res pyval :=
  let '(_, (n, entry)) := row in
  level ← upgrade_level entry;
  Ok (VDict
    [("id", dget_none "id" entry); ("type", dget_none "type" entry);
     ("rarity", dget_none "rarity" entry); ("cost", dget_none "cost" entry);
     ("targetType", dget_none "targetType" entry);
     ("upgraded", VBool (truthy (dget_or "upgraded" (VBool false) entry)));
     ("upgradeLevel", VInt level);
     ("tinkerTimeType", dget_none "tinkerTimeType" entry);
     ("tinkerTimeRider", dget_none "tinkerTimeRider" entry);
     ("enchantment", _public_enchantment (dget_none "enchantment" entry));
     ("count", VInt n)]).

Definition row_leb (a b : list pyval * (Z * pydict)) : bool :=
  strs_leb (_sort_key a.1) (_sort_key b.1).

Definition _multiset_of (pile : pyval) : Res (list pyval) :=
  match pile with
  | VList l =>
      counts ← foldR count_entry l [];
      mapR pile_record (sort_by row_leb counts)
  | _ => Ok []
  end.

(** * The scrub *)

Definition _is_forbidden_key (key : string) : bool :=
  existsb (fun pattern => str_contains pattern (str_lower key)) _FORBIDDEN_KEY_SUBSTRINGS.

(** One pass of the loop over a dictionary's items, [rec] being [_scrub]. *)
Definition scrub_entry (rec : pyval -> Res pyval) (scrubbed : pydict) (kv : string * pyval)
    : Res pydict :=
  let '(key, value) := kv in
  if _is_forbidden_key key then Ok scrubbed
  else if str_in key _DELETE_KEYS then Ok scrubbed
  else if str_in key _MULTISET_PILE_KEYS then
    pile ← _multiset_of value; Ok (dset key (VList pile) scrubbed)
  else if String.eqb key "pendingChoice" then
    v ← rec (VDict (normalize_pending_choice value)); Ok (dset key v scrubbed)
  else if str_in (str_lower key) _METRICS_EXTRAS_INFO_KEY_NAMES && is_dict value then
    match value with
    | VDict inner =>
        kept ← mapR (fun p => v ← rec p.2; Ok (p.1, v))
          (List.filter (fun p => str_in p.1 _ALLOWLISTED_METRICS_EXTRAS_INFO_KEYS) inner);
        Ok (dset key (VDict kept) scrubbed)
    | _ => Ok scrubbed
    end
  else v ← rec value; Ok (dset key v scrubbed).

(** The recursion on [pendingChoice] is on its normalization, not on a part of
    the input: [fuel] bounds the depth ([mask_weight] is enough). *)
Fixpoint _scrub (fuel : nat) (node : pyval) : Res pyval :=
  match fuel with
  | O => Raise (PyExc "RecursionError" "maximum recursion depth exceeded")
  | S fuel' =>
      match node with
      | VDict d => scrubbed ← foldR (scrub_entry (_scrub fuel')) d []; Ok (VDict scrubbed)
      | VList l => l' ← mapR (_scrub fuel') l; Ok (VList l')
      | _ => Ok node
      end
  end.

(** A bound on the recursion depth of [_scrub]: nesting, with room for the
    normalization under each [pendingChoice]. *)
Fixpoint mask_weight (v : pyval) : nat :=
  match v with
  | VList l => S ((fix go l := match l with [] => O | x :: l' => Nat.max (mask_weight x) (go l') end) l)
  | VDict d =>
      S ((fix go d := match d with
          | [] => O
          | (k, x) :: d' =>
              Nat.max (if String.eqb k "pendingChoice" then 4 + mask_weight x else mask_weight x)
                (go d')
          end) d)
  | _ => O
  end.

(** The value is copied, so the caller's own is not changed. *)
Definition mask_public_fragment (value : pyval) : Res pyval :=
  _scrub (S (mask_weight value)) value.

Definition is_true (v : pyval) : bool := match v with VBool true => true | _ => false end.

Definition build_masked_emulator_dto (raw_state : pydict) (extra : option pydict) : Res pydict :=
  let dict v := match v with VDict d => Ok d | _ => Ok [] end in
  masked ← (v ← mask_public_fragment (VDict raw_state); dict v);
  masked ← (match extra with
    | Some ((_ :: _) as e) => v ← mask_public_fragment (VDict e); e' ← dict v; Ok (dupdate masked e')
    | _ => Ok masked
    end);
  let combat_terminal := is_true (dget_none "terminal" masked) in
  let run_terminal := is_true (dget_none "run_terminal" masked) in
  if combat_terminal && run_terminal then
    Raise (PyExc "RuntimeError" "masked_emulator_dto cannot be both terminal and run_terminal")
  else
    let masked :=
      if combat_terminal then dset "legal_actions" (VList []) masked
      else if run_terminal && dmem "legal_actions" masked
      then dset "legal_actions" (VList []) masked else masked in
    Ok (dset "mask_version" (VStr MASK_VERSION) (dset "dto_version" (VStr DTO_VERSION) masked)).

Definition mask_legal_action (action : pydict) : Res pyval :=
  v ← mask_public_fragment (VDict action);
  match v with
  | VDict scrubbed =>
      match dget "action_id" scrubbed with
      | Some a => Ok (VDict (dset "action_id" (VStr (py_str a)) scrubbed))
      | None => Ok v
      end
  | _ => Ok v
  end.
Definition mask_legal_actions (legal_actions : list pydict) : Res (list pyval) :=
  mapR mask_legal_action legal_actions.

(** * Piles of well-typed cards *)

Definition opt_is_str (v : pyval) : bool := match v with VNone | VStr _ => true | _ => false end.
Definition opt_is_int (v : pyval) : bool := match v with VNone | VInt _ => true | _ => false end.

(** A card as the emulator publishes it. *)
Record card_wf (d : pydict) : Prop := {
  cw_id : exists s, dget_none "id" d = VStr s;
  cw_type : opt_is_str (dget_none "type" d) = true;
  cw_rarity : opt_is_str (dget_none "rarity" d) = true;
  cw_cost : opt_is_int (dget_none "cost" d) = true;
  cw_target : opt_is_str (dget_none "targetType" d) = true;
  cw_level : opt_is_int (dget_none "upgradeLevel" d) = true;
  cw_tinker : opt_is_str (dget_none "tinkerTimeType" d) = true;
  cw_rider : opt_is_str (dget_none "tinkerTimeRider" d) = true;
  cw_ench : dget_none "enchantment" d = VNone \/
    exists e s, dget_none "enchantment" d = VDict e /\ dget_none "id" e = VStr s /\
      opt_is_int (dget_none "amount" e) = true /\ opt_is_str (dget_none "status" e) = true;
}.

Definition entry_wf (v : pyval) : Prop := exists d, v = VDict d /\ card_wf d.

(** The types of the twelve parts of an identity key. *)
Definition key_shape : list (pyval -> bool) :=
  [opt_is_str; opt_is_str; opt_is_str; opt_is_int; opt_is_str; is_bool; opt_is_int;
   opt_is_str; opt_is_str; opt_is_str; opt_is_int; opt_is_str].
Definition key_typed (key : list pyval) : Prop := Forall2 (fun p v => p v = true) key_shape key.

Definition slot (p : pyval -> bool) : Prop := p = opt_is_str \/ p = opt_is_int \/ p = is_bool.

Lemma slot_eqb p v w : slot p -> p v = true -> p w = true -> py_eqb v w = true ↔ v = w.
Proof.
  intros [-> | [-> | ->]]; destruct v, w; simpl; try done; intros _ _.
  - rewrite String.eqb_eq. naive_solver.
  - rewrite Z.eqb_eq. naive_solver.
  - destruct b, b0; naive_solver.
Qed.

Lemma slot_plain p v : slot p -> p v = true -> plain v = true /\ hashable v = Ok tt.
Proof. intros [-> | [-> | ->]]; destruct v; done. Qed.

Lemma key_shape_slots : Forall slot key_shape.
Proof. unfold slot, key_shape. repeat (apply Forall_cons; split; [tauto|]). by apply Forall_nil. Qed.

Lemma key_eqb_typed k1 k2 : key_typed k1 -> key_typed k2 -> key_eqb k1 k2 = true ↔ k1 = k2.
Proof.
  unfold key_typed. pose proof key_shape_slots as Hs. revert k1 k2. generalize key_shape Hs.
  intros sh Hsh k1 k2 H1. revert Hsh k2. induction H1 as [|p v sh k1 Hp H1 IH]; intros Hsh k2 H2.
  - inversion H2; subst. done.
  - inversion H2 as [|? w ? k2' Hw H2']; subst. inversion Hsh; subst. simpl.
    rewrite andb_true_iff, (slot_eqb p v w), (IH ltac:(done) k2') by done. naive_solver.
Qed.

Lemma key_typed_plain k :
  key_typed k -> Forall (fun v => plain v = true) k /\
    foldR (fun _ part => hashable part) k tt = Ok tt.
Proof.
  intros H. rewrite (foldR_Ok_unit hashable (fun v => hashable v = Ok tt)) by done.
  unfold key_typed in H. pose proof key_shape_slots as Hs. revert Hs.
  induction H as [|p v sh k Hp H IH]; intros Hs; [by split|].
  inversion Hs; subst. destruct (slot_plain p v) as [? ?]; [done..|].
  destruct IH as [? ?]; [done|]. by split; constructor.
Qed.

(** What the published record of a well-typed card says, from its key. *)
Definition record_of_key (key : list pyval) (n : Z) : pyval :=
  match key with
  | [id; ty; rarity; cost; target; upgraded; level; tinker; rider; eid; amount; status] =>
      VDict [("id", id); ("type", ty); ("rarity", rarity); ("cost", cost);
        ("targetType", target); ("upgraded", upgraded); ("upgradeLevel", level);
        ("tinkerTimeType", tinker); ("tinkerTimeRider", rider);
        ("enchantment",
           if is_none eid then VNone
           else VDict [("id", eid); ("amount", amount); ("status", status)]);
        ("count", VInt n)]
  | _ => VNone
  end.

Lemma level_typed d : card_wf d -> exists z, upgrade_level d = Ok z.
Proof.
  intros H. unfold upgrade_level, dget_or. pose proof (cw_level d H) as Hl.
  unfold dget_none in Hl. destruct (dget "upgradeLevel" d) as [[]|]; try done; simpl;
    try by eexists.
  unfold py_or. case_match; by eexists.
Qed.

Lemma card_key d :
  card_wf d -> exists key, _card_identity_key d = Ok key /\ key_typed key /\
    (forall n, pile_record (key, (n, d)) = Ok (record_of_key key n)).
Proof.
  intros H. destruct (level_typed d H) as [z Hz]. unfold _card_identity_key, pile_record.
  rewrite Hz. unfold mbind, Res_bind.
  destruct H as [[s Hid] Hty Hra Hco Hta _ Hti Hri [He|(e & t & He & Het & Ha & Hst)]].
  - rewrite He. simpl. eexists. split; [done|]. split; [|done].
    rewrite Hid. by repeat (apply Forall2_cons; split; [done|]).
  - rewrite He. assert (Hor : py_or (VDict e) (VDict []) = VDict e) by (by destruct e).
    rewrite Hor. simpl. eexists. split; [done|]. rewrite Het. split; [|done].
    rewrite Hid. by repeat (apply Forall2_cons; split; [done|]).
Qed.

Lemma strs_leb_total a b : strs_leb a b = true \/ strs_leb b a = true.
Proof.
  revert b. induction a as [|x a IH]; intros [|y b]; simpl; auto.
  destruct (String.eqb_spec x y) as [->|Hne].
  - rewrite String.eqb_refl. apply IH.
  - destruct (String.eqb_spec y x) as [->|]; [done|]. apply String.leb_total.
Qed.

Lemma strs_leb_antisym a b : strs_leb a b = true -> strs_leb b a = true -> a = b.
Proof.
  revert b. induction a as [|x a IH]; intros [|y b]; simpl; try done.
  destruct (String.eqb_spec x y) as [->|Hne].
  - rewrite String.eqb_refl. intros H1 H2. by rewrite (IH b).
  - destruct (String.eqb_spec y x) as [->|]; [done|]. intros H1 H2.
    by destruct (Hne (String.leb_antisym _ _ H1 H2)).
Qed.

Lemma strs_leb_trans a b c : strs_leb a b = true -> strs_leb b c = true -> strs_leb a c = true.
Proof.
  revert b c. induction a as [|x a IH]; intros [|y b] [|z c]; simpl; try done.
  destruct (String.eqb_spec x y) as [->|Hxy], (String.eqb_spec y z) as [->|Hyz]; try done.
  - apply IH.
  - by destruct (String.eqb_spec x z).
  - intros H1 H2. destruct (String.eqb_spec x z) as [->|].
    + by destruct (Hxy (String.leb_antisym _ _ H1 H2)).
    + exact (str_leb_trans x y z H1 H2).
Qed.

Lemma sort_key_inj k1 k2 : key_typed k1 -> key_typed k2 -> _sort_key k1 = _sort_key k2 -> k1 = k2.
Proof.
  intros H1%key_typed_plain H2%key_typed_plain. destruct H1 as [H1 _], H2 as [H2 _].
  revert k2 H2. induction H1 as [|v k1 Hv H1 IH]; intros [|w k2] H2 H; try done.
  inversion H2; subst. simpl in H. injection H as Ht H. fold (_sort_key k1) (_sort_key k2) in H.
  f_equal; [by apply typed_repr_inj|by apply IH].
Qed.

(** * Counting *)

Definition key_of (v : pyval) : list pyval :=
  match v with
  | VDict d => match _card_identity_key d with Ok k => k | Raise _ => [] end
  | _ => []
  end.

(** How often a card occurs in a pile. *)
Definition occurrences (k : list pyval) (l : list pyval) : Z :=
  Z.of_nat (length (filter (fun v => key_of v = k) l)).

Fixpoint lookup_count (k : list pyval) (c : pile_counts) : Z :=
  match c with
  | [] => 0
  | (k', (n, _)) :: c' => if decide (k = k') then n else lookup_count k c'
  end.

(** The number of cards the rows stand for. *)
Definition total_count (c : pile_counts) : Z := foldr (fun row n => row.2.1 + n) 0 c.

Lemma total_count_key key d c : total_count (count_key key d c) = total_count c + 1.
Proof.
  induction c as [|[k [n e]] c IH]; [done|]. cbn [count_key].
  destruct (key_eqb k key); unfold total_count in *; simpl in *; lia.
Qed.

(** The rows built from the cards [l], in whatever order they came. *)
Record counted (l : list pyval) (c : pile_counts) : Prop := {
  ct_nodup : NoDup c.*1;
  ct_rows : Forall (fun row => key_typed row.1 /\
    forall n, pile_record (row.1, (n, row.2.2)) = Ok (record_of_key row.1 n)) c;
  ct_keys : forall k, k ∈ c.*1 ↔ 0 < occurrences k l;
  ct_counts : forall k, lookup_count k c = occurrences k l;
  ct_total : total_count c = Z.of_nat (length l);
}.

Lemma count_key_typed key d c :
  key_typed key -> Forall (fun row => key_typed row.1) c ->
  (count_key key d c).*1 = (if decide (key ∈ c.*1) then c.*1 else c.*1 ++ [key]) /\
  (forall k, lookup_count k (count_key key d c)
     = lookup_count k c + (if decide (k = key) then 1 else 0)) /\
  (forall row, row ∈ count_key key d c ->
     (exists row', row' ∈ c /\ row.1 = row'.1 /\ row.2.2 = row'.2.2) \/
     row = (key, (1, d))).
Proof.
  intros Hk. induction c as [|[k' [n e]] c IH]; intros Hc; simpl.
  - split_and!; [done|intros k; repeat case_decide; lia|].
    intros row ->%list_elem_of_singleton. by right.
  - inversion Hc as [|? ? Hk' Hc']; subst. simpl in Hk'. specialize (IH Hc').
    destruct (key_eqb k' key) eqn:E.
    + apply key_eqb_typed in E as ->; [|done..]. simpl. split_and!.
      * by rewrite decide_True by (left).
      * intros k. repeat case_decide; try congruence; lia.
      * intros row [->|Hin]%elem_of_cons; left; [|by exists row; repeat split; right].
        exists (key, (n, e)). split_and!; [left|done..].
    + assert (k' ≠ key) by (intros ->; rewrite (proj2 (key_eqb_typed key key Hk Hk)) in E; done).
      destruct IH as (IH1 & IH2 & IH3). rewrite fmap_cons, IH1. split_and!.
      * destruct (decide (key ∈ c.*1)) as [Hin|Hni].
        -- by rewrite decide_True by (by right).
        -- rewrite decide_False; [done|]. rewrite not_elem_of_cons. auto.
      * intros k. simpl. specialize (IH2 k). repeat case_decide; try congruence; lia.
      * intros row [->|Hin]%elem_of_cons.
        -- left. exists (k', (n, e)). split_and!; [left|done..].
        -- destruct (IH3 row Hin) as [(row' & ? & ? & ?)|]; [left|by right].
           exists row'. split_and!; [by right|done..].
Qed.

Lemma occurrences_snoc k l v :
  occurrences k (l ++ [v]) = occurrences k l + (if decide (k = key_of v) then 1 else 0).
Proof.
  unfold occurrences. rewrite filter_app, length_app. simpl. rewrite filter_cons, filter_nil.
  repeat case_decide; simpl; try congruence; lia.
Qed.

Lemma counted_entry l c v :
  counted l c -> entry_wf v -> exists c', count_entry c v = Ok c' /\ counted (l ++ [v]) c'.
Proof.
  intros [Hnd Hrows Hkeys Hcnt Htot] (d & -> & Hw).
  destruct (card_key d Hw) as (key & Hkey & Hty & Hrec).
  destruct (key_typed_plain key Hty) as [_ Hhash]. simpl.
  destruct (cw_id d Hw) as [s ->]. rewrite Hkey. simpl. rewrite Hhash. simpl.
  eexists. split; [done|].
  assert (Hko : key_of (VDict d) = key) by (simpl; by rewrite Hkey).
  assert (Hf : Forall (fun row => key_typed row.1) c).
  { eapply Forall_impl; [exact Hrows|]. by intros ? [? _]. }
  destruct (count_key_typed key d c Hty Hf) as (H1 & H2 & H3).
  assert (Hpos : forall k, 0 <= occurrences k l) by (unfold occurrences; lia).
  split.
  - rewrite H1. case_decide as Hin; [done|]. apply NoDup_app.
    split_and!; [done|set_solver|apply NoDup_singleton].
  - apply Forall_forall. intros row Hin. rewrite Forall_forall in Hrows.
    destruct (H3 row Hin) as [(row' & Hin' & -> & ->)| ->]; [by apply Hrows|done].
  - intros k. rewrite H1, occurrences_snoc, Hko. specialize (Hpos k).
    assert (k ∈ (if decide (key ∈ c.*1) then c.*1 else c.*1 ++ [key]) ↔ k ∈ c.*1 \/ k = key) as ->.
    { case_decide; set_solver. }
    rewrite Hkeys. clear -Hpos. case_decide; split; [lia|by right|intros [?|?]; [lia|done]|left; lia].
  - intros k. by rewrite H2, Hcnt, occurrences_snoc, Hko.
  - rewrite total_count_key, Htot, length_app. simpl. lia.
Qed.

Lemma counted_pile l0 l c :
  counted l0 c -> Forall entry_wf l ->
  exists c', foldR count_entry l c = Ok c' /\ counted (l0 ++ l) c'.
Proof.
  intros Hc Hl. revert l0 c Hc. induction Hl as [|v l Hv Hl IH]; intros l0 c Hc; simpl.
  - exists c. by rewrite app_nil_r.
  - destruct (counted_entry l0 c v Hc Hv) as (c1 & -> & Hc1). simpl.
    destruct (IH _ _ Hc1) as (c2 & -> & Hc2). exists c2. by rewrite <- app_assoc in Hc2.
Qed.

Lemma counted_nil : counted [] [].
Proof.
  split; simpl; [constructor|constructor| |done|done].
  intros k. split; [by intros []%elem_of_nil|unfold occurrences; simpl; lia].
Qed.

(** Keys and counts, without the representative. *)
Definition row_key (row : list pyval * (Z * pydict)) : list pyval * Z := (row.1, row.2.1).

Lemma rows_by_key c :
  NoDup c.*1 -> map row_key c = map (fun k => (k, lookup_count k c)) c.*1.
Proof.
  intros Hnd. induction c as [|[k [n e]] c IH]; [done|]. inversion Hnd as [|? ? Hni Hnd']; subst.
  simpl. rewrite decide_True by done. unfold row_key at 1. simpl. f_equal.
  rewrite IH by done. apply map_ext_in. intros k' Hin%list_elem_of_In.
  rewrite decide_False; [done|]. by intros ->.
Qed.

Lemma counted_Permutation l1 l2 c1 c2 :
  l1 ≡ₚ l2 -> counted l1 c1 -> counted l2 c2 -> map row_key c1 ≡ₚ map row_key c2.
Proof.
  intros Hp [Hnd1 _ Hk1 Hc1 _] [Hnd2 _ Hk2 Hc2 _]. rewrite !rows_by_key by done.
  assert (Ho : forall k, occurrences k l1 = occurrences k l2).
  { intros k. unfold occurrences. by rewrite Hp. }
  assert (Hkeys : c1.*1 ≡ₚ c2.*1).
  { apply NoDup_Permutation; [done..|]. intros k. by rewrite Hk1, Hk2, Ho. }
  rewrite Hkeys. erewrite map_ext; [done|]. intros k. by rewrite Hc1, Hc2, Ho.
Qed.

(** The published view, as a function of keys and counts. *)
Definition key_leb (a b : list pyval * Z) : bool := strs_leb (_sort_key a.1) (_sort_key b.1).

Lemma view_of_rows l c :
  counted l c ->
  mapR pile_record (sort_by row_leb c)
  = Ok (map (fun kn => record_of_key kn.1 kn.2) (sort_by key_leb (map row_key c))).
Proof.
  intros [_ Hrows _ _ _].
  rewrite <- (sort_by_map row_key row_leb key_leb) by done. rewrite map_map.
  apply mapR_Ok. rewrite sort_by_Permutation.
  eapply Forall_impl; [exact Hrows|]. intros [k [n e]] [_ H]. apply H.
Qed.

Lemma sort_rows_unique l c c' :
  counted l c -> map row_key c ≡ₚ map row_key c' ->
  sort_by key_leb (map row_key c) = sort_by key_leb (map row_key c').
Proof.
  intros [Hnd Hrows _ _ _] Hp. apply sort_by_unique.
  - intros a b. apply strs_leb_total.
  - intros a b e. apply strs_leb_trans.
  - intros a b Ha Hb Hab Hba.
    apply list_elem_of_In, in_map_iff in Ha as ([k1 [n1 e1]] & <- & Ha%list_elem_of_In).
    apply list_elem_of_In, in_map_iff in Hb as ([k2 [n2 e2]] & <- & Hb%list_elem_of_In).
    rewrite Forall_forall in Hrows. destruct (Hrows _ Ha) as [Ht1 _], (Hrows _ Hb) as [Ht2 _].
    assert (k1 = k2) as <-.
    { apply sort_key_inj; [done..|]. by apply strs_leb_antisym. }
    unfold row_key. simpl. f_equal.
    assert (Hu : forall n1 n2 e1 e2, (k1, (n1, e1)) ∈ c -> (k1, (n2, e2)) ∈ c -> n1 = n2).
    { clear -Hnd. induction c as [|[k [n e]] c IH]; intros n1 n2 e1 e2 H1 H2;
        [by apply elem_of_nil in H1|].
      inversion Hnd as [|? ? Hni Hnd']; subst.
      apply elem_of_cons in H1 as [H1|H1], H2 as [H2|H2]; simplify_eq; try done;
        try (destruct Hni; by apply (list_elem_of_fmap_2 fst) in H1 || by apply (list_elem_of_fmap_2 fst) in H2).
      by eapply IH. }
    by eapply Hu.
  - exact Hp.
Qed.

(** The number a published pile claims to hold. *)
Definition published_total (view : list pyval) : Z :=
  foldr (fun r n => match r with VDict d => match dget "count" d with Some (VInt z) => z | _ => 0 end
                               | _ => 0 end + n) 0 view.

Lemma published_total_rows rows :
  Forall (fun kn => key_typed kn.1) rows ->
  published_total (map (fun kn => record_of_key kn.1 kn.2) rows) = foldr (fun kn n => kn.2 + n) 0 rows.
Proof.
  induction 1 as [|[k n] rows Hk _ IH]; [done|]. simpl in *. rewrite <- IH. f_equal.
  unfold key_typed, key_shape in Hk. simpl in Hk.
  repeat (match goal with H : Forall2 _ (_ :: _) _ |- _ => inversion H; clear H; subst end).
  by match goal with H : Forall2 _ [] _ |- _ => inversion H; subst end.
Qed.

Lemma foldr_sum_Permutation (r1 r2 : list (list pyval * Z)) :
  r1 ≡ₚ r2 -> foldr (fun kn n => kn.2 + n) 0 r1 = foldr (fun kn n => kn.2 + n) 0 r2.
Proof. induction 1; simpl; lia. Qed.

(** C39: The draw, discard and exhaust piles are published as multisets: for piles
    of well-typed cards the masked view is defined, does not depend on the order
    of the pile (any two orders of the same cards give the same view, so the
    draw order cannot leak), and the counts add up to the number of cards. *)
Theorem pile_view_hides_order (pile1 pile2 : list pyval)
    (Hwf : Forall entry_wf pile1) (Hperm : pile1 ≡ₚ pile2) :
  exists view, _multiset_of (VList pile1) = Ok view /\ _multiset_of (VList pile2) = Ok view /\
    published_total view = Z.of_nat (length pile1).
Proof.
  assert (Hwf2 : Forall entry_wf pile2) by (by rewrite <- Hperm).
  destruct (counted_pile [] pile1 [] counted_nil Hwf) as (c1 & E1 & H1).
  destruct (counted_pile [] pile2 [] counted_nil Hwf2) as (c2 & E2 & H2).
  simpl in H1, H2. unfold _multiset_of. rewrite E1, E2. simpl.
  rewrite (view_of_rows _ _ H1), (view_of_rows _ _ H2).
  assert (Hp := counted_Permutation _ _ _ _ Hperm H1 H2).
  rewrite <- (sort_rows_unique _ _ _ H1 Hp). eexists. split_and!; [done..|].
  rewrite published_total_rows.
  - rewrite (foldr_sum_Permutation _ _ (sort_by_Permutation key_leb (map row_key c1))).
    rewrite <- (ct_total _ _ H1). unfold total_count. clear.
    induction c1 as [|[k [n e]] c IH]; simpl; [done|]. by rewrite IH.
  - rewrite sort_by_Permutation. apply Forall_map.
    eapply Forall_impl; [apply (ct_rows _ _ H1)|]. by intros [k [n e]] [? _].
Qed.

Definition demo_card (id : string) (cost : Z) : pyval :=
  VDict [("id", VStr id); ("type", VStr "Attack"); ("cost", VInt cost); ("upgraded", VBool true)].

Lemma demo_card_wf id cost : entry_wf (demo_card id cost).
Proof. eexists. split; [done|]. split; try done; [by exists id|by left]. Qed.

Lemma pile_view_hides_order_witness :
  exists view,
    _multiset_of (VList [demo_card "Strike" 1; demo_card "Bash" 2; demo_card "Strike" 1]) = Ok view /\
    _multiset_of (VList [demo_card "Bash" 2; demo_card "Strike" 1; demo_card "Strike" 1]) = Ok view /\
    published_total view = 3.
Proof.
  apply (pile_view_hides_order
    [demo_card "Strike" 1; demo_card "Bash" 2; demo_card "Strike" 1]
    [demo_card "Bash" 2; demo_card "Strike" 1; demo_card "Strike" 1]).
  - repeat (apply Forall_cons; split; [apply demo_card_wf|]). apply Forall_nil. exact Logic.I.
  - apply Permutation_swap.
Defined.

(** * What the scrub lets through *)

(** No forbidden or deleted key at any depth. *)
Inductive clean : pyval -> Prop :=
  | clean_scalar v : hashable v = Ok tt -> clean v
  | clean_list l : Forall clean l -> clean (VList l)
  | clean_dict d :
      Forall (fun p => _is_forbidden_key p.1 = false /\ p.1 ∉ _DELETE_KEYS /\ clean p.2) d ->
      clean (VDict d).

(** Every published field of the entry is a scalar. *)
Definition entry_scalar (d : pydict) : Prop :=
  Forall (fun k => hashable (dget_none k d) = Ok tt)
    ["id"; "type"; "rarity"; "cost"; "targetType"; "tinkerTimeType"; "tinkerTimeRider"] /\
  forall e, dget_none "enchantment" d = VDict e ->
    Forall (fun k => hashable (dget_none k e) = Ok tt) ["id"; "amount"; "status"].

Lemma mapR_Forall {A B} (f : A -> Res B) (P : B -> Prop) l r :
  (forall x y, x ∈ l -> f x = Ok y -> P y) -> mapR f l = Ok r -> Forall P r.
Proof.
  revert r. induction l as [|x l IH]; intros r Hf H; simpl in H; [by simplify_eq|].
  apply bind_Ok in H as (y & Hy & H). apply bind_Ok in H as (ys & Hys & [= <-]).
  constructor; [apply (Hf x); [left|done]|]. apply IH; [|done].
  intros x' y' Hx'. apply Hf. by right.
Qed.

Lemma foldR_inv {A S} (f : S -> A -> Res S) (P : S -> Prop) l s s' :
  (forall s x s', x ∈ l -> P s -> f s x = Ok s' -> P s') ->
  foldR f l s = Ok s' -> P s -> P s'.
Proof.
  revert s. induction l as [|x l IH]; intros s Hf H Hs; simpl in H; [by simplify_eq|].
  apply bind_Ok in H as (s1 & H1 & H). apply (IH s1); [|done|].
  - intros s0 x0 s0' Hx0. apply Hf. by right.
  - apply (Hf s x s1); [left|done..].
Qed.

Lemma counted_entry_scalar d key :
  _card_identity_key d = Ok key -> foldR (fun _ part => hashable part) key tt = Ok tt ->
  entry_scalar d.
Proof.
  intros Hkey Hh. rewrite (foldR_Ok_unit hashable (fun v => hashable v = Ok tt)) in Hh by done.
  unfold _card_identity_key in Hkey. apply bind_Ok in Hkey as (lvl & _ & Hkey).
  apply bind_Ok in Hkey as (eid & Hi & Hkey). apply bind_Ok in Hkey as (am & Ha & Hkey).
  apply bind_Ok in Hkey as (st & Hst & [= <-]).
  rewrite !Forall_cons in Hh. destruct Hh as (?&?&?&?&?&_&_&?&?&He1&He2&He3&_).
  split; [by repeat (apply Forall_cons; split; [done|])|]. intros e He. rewrite He in *.
  destruct e as [|p e]; [by repeat (apply Forall_cons; split; [done|])|].
  simpl in Hi, Ha, Hst. simplify_eq. by repeat (apply Forall_cons; split; [done|]).
Qed.

Lemma count_key_scalar key d c :
  entry_scalar d -> Forall (fun row => entry_scalar row.2.2) c ->
  Forall (fun row => entry_scalar row.2.2) (count_key key d c).
Proof.
  intros Hd. induction 1 as [|[k [n e]] c He Hc IH]; simpl; [by apply Forall_singleton|].
  case_match; by constructor.
Qed.

Lemma clean_key_of_name v : hashable v = Ok tt -> clean v.
Proof. by constructor. Qed.

Lemma pile_record_clean key n d r : entry_scalar d -> pile_record (key, (n, d)) = Ok r -> clean r.
Proof.
  intros [Hs He]. unfold pile_record. intros H. apply bind_Ok in H as (lvl & _ & [= <-]).
  rewrite !Forall_cons in Hs. destruct Hs as (?&?&?&?&?&?&?&_).
  assert (Hench : clean (_public_enchantment (dget_none "enchantment" d))).
  { destruct (dget_none "enchantment" d) as [| | | | | |e]; try by constructor.
    specialize (He e eq_refl). rewrite !Forall_cons in He. destruct He as (?&?&?&_).
    apply clean_dict. repeat (apply Forall_cons; split; [split_and!; [done|set_solver|by constructor]|]).
    apply Forall_nil. exact Logic.I. }
  apply clean_dict. 
  repeat (apply Forall_cons; split; [split_and!;
    [done|intros Hin%str_in_elem; done|first [exact Hench|by constructor]]|]).
  apply Forall_nil. exact Logic.I.
Qed.

Lemma multiset_clean v l : _multiset_of v = Ok l -> Forall clean l.
Proof.
  destruct v as [| | | | |pile|]; simpl; intros H; try by simplify_eq.
  apply bind_Ok in H as (c & Hc & H).
  assert (Hrows : Forall (fun row => entry_scalar row.2.2) c).
  { apply (foldR_inv count_entry (fun c => Forall (fun row => entry_scalar row.2.2) c)
      pile [] c); [|exact Hc|constructor].
    intros c0 x c1 _ Hc0 Hx. destruct x as [| | | | | |d]; simpl in Hx; try by simplify_eq.
    destruct (dget_none "id" d); try (by simplify_eq);
      apply bind_Ok in Hx as (key & Hk & Hx); apply bind_Ok in Hx as ([] & Hh & [= <-]);
      (apply count_key_scalar; [by eapply counted_entry_scalar|done]). }
  revert H. apply mapR_Forall. intros [k [n d]] r Hin Hr.
  rewrite elem_of_sort_by in Hin. eapply pile_record_clean; [|exact Hr].
  by eapply (proj1 (Forall_forall _ _) Hrows (k, (n, d))).
Qed.

Lemma scrub_clean n v w : _scrub n v = Ok w -> clean w.
Proof.
  revert v w. induction n as [|n IH]; intros v w H; [done|]. cbn [_scrub] in H.
  destruct v as [| | | | |l|d]; try (simplify_eq; by constructor).
  - apply bind_Ok in H as (l' & Hl & [= <-]). apply clean_list.
    revert Hl. apply mapR_Forall. eauto.
  - apply bind_Ok in H as (d' & Hd & [= <-]). apply clean_dict.
    set (P := fun p : string * pyval =>
      _is_forbidden_key p.1 = false /\ p.1 ∉ _DELETE_KEYS /\ clean p.2).
    apply (foldR_inv (scrub_entry (_scrub n)) (Forall P) d [] d'); [|done|constructor].
    intros s [k x] s' _ Hs Hx. unfold scrub_entry in Hx.
    destruct (_is_forbidden_key k) eqn:Ef; [by simplify_eq|].
    destruct (str_in k _DELETE_KEYS) eqn:Ed; [by simplify_eq|].
    assert (Hp : forall y, clean y -> P (k, y)).
    { intros y Hy. split_and!; [done| |done]. intros Hin%str_in_elem. cbn [fst] in Hin. congruence. }
    destruct (str_in k _MULTISET_PILE_KEYS).
    { apply bind_Ok in Hx as (pile & Hpile & [= <-]). apply Forall_dset; [done|].
      apply Hp, clean_list. by eapply multiset_clean. }
    destruct (String.eqb k "pendingChoice").
    { apply bind_Ok in Hx as (y & Hy & [= <-]). apply Forall_dset; [done|]. by eapply Hp, IH. }
    destruct (str_in (str_lower k) _ && is_dict x).
    { destruct x as [| | | | | |inner]; try by simplify_eq.
      apply bind_Ok in Hx as (kept & Hkept & [= <-]). apply Forall_dset; [done|].
      apply Hp, clean_dict.
      assert (He : List.filter (fun p : string * pyval =>
        str_in p.1 _ALLOWLISTED_METRICS_EXTRAS_INFO_KEYS) inner = []).
      { clear. by induction inner. }
      rewrite He in Hkept. simpl in Hkept. injection Hkept as <-. constructor. }
    apply bind_Ok in Hx as (y & Hy & [= <-]). apply Forall_dset; [done|]. by eapply Hp, IH.
Qed.

(** * The fuel is enough *)

Definition entry_weight (p : string * pyval) : nat :=
  if String.eqb p.1 "pendingChoice" then 4 + mask_weight p.2 else mask_weight p.2.

Lemma weight_list l b :
  (mask_weight (VList l) <= S b)%nat ↔ Forall (fun v => (mask_weight v <= b)%nat) l.
Proof.
  cbn [mask_weight]. rewrite <- Nat.succ_le_mono.
  induction l as [|v l IH]; [split; [constructor|lia]|]. rewrite Forall_cons, <- IH. lia.
Qed.

Lemma weight_dict d b :
  (mask_weight (VDict d) <= S b)%nat ↔ Forall (fun p => (entry_weight p <= b)%nat) d.
Proof.
  cbn [mask_weight]. rewrite <- Nat.succ_le_mono.
  induction d as [|[k v] d IH]; [split; [constructor|lia]|].
  rewrite Forall_cons, <- IH. unfold entry_weight. cbn [fst snd]. lia.
Qed.

Lemma weight_list_elem l v : v ∈ l -> (mask_weight v < mask_weight (VList l))%nat.
Proof.
  intros Hin. destruct (mask_weight (VList l)) as [|b] eqn:E; [by destruct l|].
  assert (Hf := proj1 (weight_list l b) ltac:(lia)). rewrite Forall_forall in Hf.
  specialize (Hf v Hin). lia.
Qed.

Lemma weight_dict_elem d p : p ∈ d -> (entry_weight p < mask_weight (VDict d))%nat.
Proof.
  intros Hin. destruct (mask_weight (VDict d)) as [|b] eqn:E; [by destruct d|].
  assert (Hf := proj1 (weight_dict d b) ltac:(lia)). rewrite Forall_forall in Hf.
  specialize (Hf p Hin). lia.
Qed.

Lemma entry_weight_ge p : (mask_weight p.2 <= entry_weight p)%nat.
Proof. unfold entry_weight. destruct (String.eqb _ _); lia. Qed.

Lemma weight_opt_field {A} k (f : A -> pyval) o b :
  k ≠ "pendingChoice" -> (forall a, o = Some a -> (mask_weight (f a) <= b)%nat) ->
  Forall (fun p => (entry_weight p <= b)%nat) (opt_field k f o).
Proof.
  intros Hk Hf. destruct o as [a|]; simpl; [|constructor]. apply Forall_singleton.
  unfold entry_weight. simpl. apply String.eqb_neq in Hk as ->. by apply Hf.
Qed.

Lemma semantics_weight raw : (mask_weight (VDict (normalize_choice_semantics raw)) <= 1)%nat.
Proof.
  apply weight_dict, Forall_forall. intros [k v] Hin.
  destruct (normalize_semantics_wf raw) as (Hver & _ & Hkeys & Hvals).
  assert (Hk : k ∈ PUBLIC_CHOICE_SEMANTICS_KEYS) by (apply Hkeys; by apply (list_elem_of_fmap_2 fst) in Hin).
  unfold entry_weight. cbn [fst snd].
  destruct (String.eqb_spec k "pendingChoice") as [->|_]; [by apply str_in_elem in Hk|].
  destruct (Hvals k v Hin) as [->|[[b ->]|(t & -> & _)]]; simpl; lia.
Qed.

Lemma weight_ddel k d : (mask_weight (VDict (ddel k d)) <= mask_weight (VDict d))%nat.
Proof.
  destruct (mask_weight (VDict d)) as [|b] eqn:E; [by destruct d|].
  apply weight_dict. assert (Hf := proj1 (weight_dict d b) ltac:(lia)).
  rewrite Forall_forall in *. intros p Hin. apply Hf. unfold ddel in Hin.
  apply list_elem_of_In, filter_In in Hin as [Hin _]. by apply list_elem_of_In.
Qed.

Lemma option_weight v o i : read_option v = Some (o, i) -> (mask_weight (VDict o) <= mask_weight v)%nat.
Proof.
  destruct v as [| | | | | |e]; simpl; try done. case_match; intros [= <- <-]; [done|].
  apply (weight_ddel "optionId" e).
Qed.

Lemma options_elem v opts ids ok o :
  read_options v = (Some opts, ids, ok) -> o ∈ opts ->
  exists l w i, v = VList l /\ w ∈ l /\ read_option w = Some (o, i).
Proof.
  destruct v as [| | | | |l|]; try done. cbn [read_options]. intros [= <- _ _] Hin.
  apply list_elem_of_fmap in Hin as ([o' i] & -> & Hin).
  apply list_elem_of_omap in Hin as (w & Hw & Hr). by exists l, w, i.
Qed.

(** Normalizing a choice adds at most one level. *)
Lemma normalize_weight v :
  (mask_weight (VDict (normalize_pending_choice v)) <= S (mask_weight v))%nat.
Proof.
  destruct v as [| | | | | |d]; try (simpl; lia). unfold normalize_pending_choice.
  destruct (read_selected _) as [sel sel_ok] eqn:Es.
  destruct (read_options (dget_none "options" d)) as [[opts ids] ok] eqn:Eo.
  set (sem := if _ : bool then _unknown_semantics else _).
  assert (Hd : (1 <= mask_weight (VDict d))%nat) by (cbn [mask_weight]; lia).
  assert (Hsem : (mask_weight (VDict sem) <= 1)%nat).
  { unfold sem. case_match; [simpl; lia|apply semantics_weight]. }
  apply weight_dict. unfold pending_fields. rewrite !Forall_app.
  split_and!; try (apply weight_opt_field; [done|intros a _; simpl; lia]).
  - apply weight_opt_field; [done|]. intros l _. etrans; [|exact Hd].
    apply weight_list, Forall_forall. intros x Hx.
    apply list_elem_of_In, in_map_iff in Hx as (t & <- & _). simpl. lia.
  - apply weight_opt_field; [done|]. intros l ->.
    destruct (dget_none "options" d) as [| | | | |raw|] eqn:Er; try done.
    assert (Hraw : (mask_weight (VList raw) < mask_weight (VDict d))%nat).
    { unfold dget_none in Er. destruct (dget "options" d) eqn:Eg; [|done]. subst p.
      apply dget_Some_elem, weight_dict_elem in Eg. exact Eg. }
    etrans; [|apply Nat.lt_le_incl, Hraw].
    destruct (mask_weight (VList raw)) as [|b] eqn:Eb; [by destruct raw|].
    apply weight_list, Forall_forall. intros x Hx.
    apply list_elem_of_In, in_map_iff in Hx as (o & <- & Hx%list_elem_of_In).
    destruct (options_elem _ _ _ _ _ Eo Hx) as (l' & w & i & [= <-] & Hw & Hr).
    apply option_weight in Hr. apply weight_list_elem in Hw. lia.
  - apply Forall_singleton. unfold entry_weight. cbn [fst snd].
    change (String.eqb "choiceSemantics" "pendingChoice") with false. cbv iota. lia.
Qed.

Lemma foldR_ext {A S} (f g : S -> A -> Res S) l s :
  (forall x s, x ∈ l -> f s x = g s x) -> foldR f l s = foldR g l s.
Proof.
  revert s. induction l as [|x l IH]; intros s H; simpl; [done|].
  rewrite (H x) by left. destruct (g s x); simpl; [|done]. apply IH. intros y s' Hy. apply H. by right.
Qed.

(** The allowlist of metrics, extras and info is empty. *)
Lemma info_dropped (inner : pydict) :
  List.filter (fun p => str_in p.1 _ALLOWLISTED_METRICS_EXTRAS_INFO_KEYS) inner = [].
Proof. by induction inner. Qed.

Lemma scrub_entry_ext f g s p :
  f p.2 = g p.2 ->
  (p.1 = "pendingChoice" ->
   f (VDict (normalize_pending_choice p.2)) = g (VDict (normalize_pending_choice p.2))) ->
  scrub_entry f s p = scrub_entry g s p.
Proof.
  destruct p as [k v]. cbn [fst snd]. intros H1 H2. unfold scrub_entry.
  destruct (_is_forbidden_key k); [done|]. destruct (str_in k _DELETE_KEYS); [done|].
  destruct (str_in k _MULTISET_PILE_KEYS); [done|].
  destruct (String.eqb_spec k "pendingChoice"); [by rewrite H2|].
  destruct (str_in (str_lower k) _ && is_dict v); [|by rewrite H1].
  destruct v; try done. by rewrite !info_dropped.
Qed.

Lemma pending_weight d p :
  p ∈ d -> p.1 = "pendingChoice" ->
  (mask_weight (VDict (normalize_pending_choice p.2)) < mask_weight (VDict d))%nat.
Proof.
  intros Hin Hk. apply weight_dict_elem in Hin. unfold entry_weight in Hin. rewrite Hk in Hin.
  simpl in Hin. pose proof (normalize_weight p.2). simpl in *. lia.
Qed.

(** Beyond the weight of its argument, fuel does not change the result. *)
Lemma scrub_fuel b v n m :
  (mask_weight v <= b)%nat -> (mask_weight v < n)%nat -> (mask_weight v < m)%nat ->
  _scrub n v = _scrub m v.
Proof.
  revert v n m. induction b as [|b IH]; intros v [|n] [|m] Hb Hn Hm; try lia;
    cbn [_scrub]; destruct v as [| | | | |l|d]; try done; try (simpl in Hb; lia).
  - f_equal. apply mapR_ext. intros x Hx%weight_list_elem. apply IH; lia.
  - f_equal. apply foldR_ext. intros p s Hp. pose proof (weight_dict_elem _ _ Hp).
    pose proof (entry_weight_ge p). apply scrub_entry_ext; [apply IH; lia|].
    intros Hk. pose proof (pending_weight _ _ Hp Hk). apply IH; lia.
Qed.

(** * Totality *)

(** States whose piles can be counted, at every depth. *)
Inductive state_ok : pyval -> Prop :=
  | so_scalar v : hashable v = Ok tt -> state_ok v
  | so_list l : Forall state_ok l -> state_ok (VList l)
  | so_dict d :
      Forall (fun p => state_ok p.2 /\
        (p.1 ∈ _MULTISET_PILE_KEYS -> exists l, _multiset_of p.2 = Ok l)) d ->
      state_ok (VDict d).

Lemma state_ok_dict d :
  state_ok (VDict d) -> Forall (fun p => state_ok p.2 /\
    (p.1 ∈ _MULTISET_PILE_KEYS -> exists l, _multiset_of p.2 = Ok l)) d.
Proof. by inversion 1. Qed.
Lemma state_ok_list l : state_ok (VList l) -> Forall state_ok l.
Proof. by inversion 1. Qed.

Lemma state_ok_ddel k d : state_ok (VDict d) -> state_ok (VDict (ddel k d)).
Proof.
  intros H%state_ok_dict. apply so_dict. rewrite Forall_forall in *. intros p Hin. apply H.
  unfold ddel in Hin. apply list_elem_of_In, filter_In in Hin as [Hin _]. by apply list_elem_of_In.
Qed.

Lemma state_ok_option v o i : state_ok v -> read_option v = Some (o, i) -> state_ok (VDict o).
Proof.
  destruct v as [| | | | | |e]; simpl; try done. intros Hv. case_match; intros [= <- <-]; [done|].
  by apply state_ok_ddel.
Qed.

Lemma state_ok_opt_field {A} k (f : A -> pyval) o :
  k ∉ _MULTISET_PILE_KEYS -> (forall a, o = Some a -> state_ok (f a)) ->
  Forall (fun p => state_ok p.2 /\
    (p.1 ∈ _MULTISET_PILE_KEYS -> exists l, _multiset_of p.2 = Ok l)) (opt_field k f o).
Proof. intros Hk Hf. destruct o; simpl; [|constructor]. apply Forall_singleton. naive_solver. Qed.

Lemma semantics_state_ok raw : state_ok (VDict (normalize_choice_semantics raw)).
Proof.
  apply so_dict, Forall_forall. intros [k v] Hin. cbn [fst snd]. split.
  - pose proof (semantics_weight raw) as Hw. apply weight_dict in Hw.
    rewrite Forall_forall in Hw. specialize (Hw _ Hin). pose proof (entry_weight_ge (k, v)) as Hge.
    simpl in Hge. destruct v; try (by apply so_scalar); exfalso; cbn [mask_weight] in Hge; lia.
  - intros Hp. destruct (normalize_semantics_wf raw) as (_ & _ & Hkeys & _).
    apply (list_elem_of_fmap_2 fst) in Hin. apply Hkeys in Hin. exfalso. simpl in Hin, Hp. set_solver.
Qed.

Lemma state_ok_normalize v : state_ok v -> state_ok (VDict (normalize_pending_choice v)).
Proof.
  destruct v as [| | | | | |d]; try (intros _; apply so_dict; constructor). intros Hv.
  unfold normalize_pending_choice.
  destruct (read_selected _) as [sel sel_ok] eqn:Es.
  destruct (read_options (dget_none "options" d)) as [[opts ids] ok] eqn:Eo.
  set (sem := if _ : bool then _unknown_semantics else _).
  assert (Hsem : state_ok (VDict sem)).
  { unfold sem. case_match; [apply (semantics_state_ok VNone)|apply semantics_state_ok]. }
  apply so_dict. unfold pending_fields. rewrite !Forall_app.
  split_and!; try (apply state_ok_opt_field; [set_solver|intros a _; by apply so_scalar]).
  - apply state_ok_opt_field; [set_solver|]. intros l _. apply so_list, Forall_forall.
    intros x (t & <- & _)%list_elem_of_In%in_map_iff. by apply so_scalar.
  - apply state_ok_opt_field; [set_solver|]. intros l ->. apply so_list, Forall_forall.
    intros x (o & <- & Hx%list_elem_of_In)%list_elem_of_In%in_map_iff.
    destruct (options_elem _ _ _ _ _ Eo Hx) as (l' & w & i & Hraw & Hw & Hr).
    eapply state_ok_option; [|exact Hr].
    assert (Hl : state_ok (VList l')).
    { unfold dget_none in Hraw. destruct (dget "options" d) eqn:Eg; [|done]. subst p.
      apply dget_Some_elem in Eg. apply state_ok_dict in Hv. rewrite Forall_forall in Hv.
      by destruct (Hv _ Eg). }
    apply state_ok_list in Hl. rewrite Forall_forall in Hl. by apply Hl.
  - apply Forall_singleton. split; [done|]. intros Hp. exfalso. simpl in Hp. set_solver.
Qed.

Lemma foldR_total {A S} (f : S -> A -> Res S) l s :
  (forall x s, x ∈ l -> exists s', f s x = Ok s') -> exists s', foldR f l s = Ok s'.
Proof.
  revert s. induction l as [|x l IH]; intros s H; simpl; [eauto|].
  destruct (H x s) as [s' ->]; [left|]. simpl. apply IH. intros y s1 Hy. apply H. by right.
Qed.

Lemma mapR_total {A B} (f : A -> Res B) l :
  (forall x, x ∈ l -> exists y, f x = Ok y) -> exists ys, mapR f l = Ok ys.
Proof.
  induction l as [|x l IH]; intros H; simpl; [eauto|]. destruct (H x) as [y ->]; [left|].
  destruct IH as [ys ->]; [intros z Hz; apply H; by right|]. simpl. eauto.
Qed.

Lemma scrub_total n v : (mask_weight v < n)%nat -> state_ok v -> exists w, _scrub n v = Ok w.
Proof.
  revert v. induction n as [|n IH]; intros v Hn Hv; [lia|].
  destruct v as [| | | | |l|d]; cbn [_scrub]; try by eexists.
  - destruct (mapR_total (_scrub n) l) as [ys ->]; [|by eexists].
    intros x Hx. pose proof (weight_list_elem _ _ Hx). apply IH; [lia|].
    apply state_ok_list in Hv. rewrite Forall_forall in Hv. by apply Hv.
  - destruct (foldR_total (scrub_entry (_scrub n)) d []) as [ys ->]; [|by eexists].
    intros [k x] s Hp. pose proof (weight_dict_elem _ _ Hp). pose proof (entry_weight_ge (k, x)) as Hge.
    apply state_ok_dict in Hv. rewrite Forall_forall in Hv. destruct (Hv _ Hp) as [Hx Hpile].
    cbn [fst snd] in *. unfold scrub_entry.
    destruct (_is_forbidden_key k); [eauto|]. destruct (str_in k _DELETE_KEYS); [eauto|].
    destruct (str_in k _MULTISET_PILE_KEYS) eqn:Ek.
    { apply str_in_elem in Ek. destruct (Hpile Ek) as [l ->]. simpl. eauto. }
    destruct (String.eqb_spec k "pendingChoice") as [->|_].
    { pose proof (pending_weight _ _ Hp eq_refl). destruct (IH (VDict (normalize_pending_choice x)))
        as [w ->]; [simpl in *; lia|by apply state_ok_normalize|]. simpl. eauto. }
    destruct (IH x) as [w Hw]; [lia|done|].
    destruct (str_in (str_lower k) _ && is_dict x); [|rewrite Hw; simpl; eauto].
    destruct x; try (by eexists). rewrite info_dropped. simpl. eauto.
Qed.

(** Nothing secret survives the mask: in whatever masking returns - for any
    input, at any depth, through lists, dictionaries, pile records, metrics and
    pending-choice options - no dictionary has a key matching a forbidden
    pattern, nor a deleted key. *)
Theorem mask_removes_forbidden_keys (value masked : pyval)
    (Hm : mask_public_fragment value = Ok masked) : clean masked.
Proof. by eapply scrub_clean. Qed.

(** Masking terminates and is defined on every state whose piles hold
    well-typed cards (whatever else the state contains, however deep): it
    returns a value, and the recursion bound it is run with is enough - every
    larger bound gives the same result. *)
Theorem mask_total (value : pyval) (Hv : state_ok value) :
  exists masked, mask_public_fragment value = Ok masked /\
    forall n, (mask_weight value < n)%nat -> _scrub n value = Ok masked.
Proof.
  destruct (scrub_total (S (mask_weight value)) value) as [w Hw]; [lia|done|].
  exists w. split; [exact Hw|]. intros n Hn. rewrite <- Hw.
  apply (scrub_fuel (mask_weight value)); lia.
Qed.

(** A state with a pile, hidden fields and a pending choice. *)
Definition demo_state : pyval :=
  VDict [("hp", VInt 70); ("rngState", VInt 12345); ("playPile", VList []);
    ("drawPile", VList [demo_card "Bash" 2; demo_card "Strike" 1]);
    ("pendingChoice", VDict [("choiceType", VStr "hand"); ("cursorId", VInt 3);
       ("options", VList [VDict [("id", VStr "Bash"); ("shuffleIndex", VInt 0)]])])].

Lemma mask_removes_forbidden_keys_witness :
  clean (match mask_public_fragment demo_state with Ok v => v | Raise _ => VNone end).
Proof. apply (mask_removes_forbidden_keys demo_state). vm_compute. reflexivity. Defined.

(** Decides [state_ok] on a concrete state. *)
Ltac solve_state_ok :=
  match goal with
  | |- state_ok (VDict _) => apply so_dict; solve_state_ok
  | |- state_ok (VList _) => apply so_list; solve_state_ok
  | |- state_ok _ => apply so_scalar; reflexivity
  | |- Forall _ [] => apply Forall_nil; exact Logic.I
  | |- Forall _ (_ :: _) => apply Forall_cons; split; solve_state_ok
  | |- _ /\ _ => split; cbn [fst snd]; solve_state_ok
  | |- _ -> _ => intros _; eexists; vm_compute; reflexivity
  end.

Lemma mask_total_witness :
  exists masked, mask_public_fragment demo_state = Ok masked /\
    forall n, (mask_weight demo_state < n)%nat -> _scrub n demo_state = Ok masked.
Proof. apply (mask_total demo_state). unfold demo_state, demo_card. solve_state_ok. Defined.
