(* ===== verification/CombatInstance.v ===== *)
(** The combat instance behind the server (API/instance_combat.py): the public
    branch, decision-point and RNG identifiers over the branches of a combat
    phase, and the masked responses. *)

From S2P Require Export History CombatPhase Server Masking.

Definition _AMBIGUOUS_ACTION_INDEX : Z := -1.

(** * Views of a decision *)

Record _DecisionView := {
  legal_actions_raw : list pydict;
  view_context : option DecisionContext;
  view_battle_state : BattleState;
  view_boundary : string;
  public_id_by_index : list (string * Z);
}.

Definition public_ids (legal : list pydict) : list (string * Z) :=
  foldl (fun ids p =>
    let public_action_id := py_str (dget_or "action_id" (VInt (Z.of_nat p.1)) p.2) in
    dset public_action_id (if dmem public_action_id ids then _AMBIGUOUS_ACTION_INDEX else Z.of_nat p.1) ids)
    [] (imap pair legal).
Definition new_view (legal : list pydict) (context : option DecisionContext) (boundary : string)
    (battle_state : BattleState) : _DecisionView :=
  {| legal_actions_raw := legal; view_context := context; view_battle_state := battle_state;
     view_boundary := boundary; public_id_by_index := public_ids legal |}.

Definition resolve_action_id (public_action_id : string) (self : _DecisionView) : Res Z :=
  match dget public_action_id (public_id_by_index self) with
  | None => reject ("action_id " +:+ repr_str public_action_id +:+ " is not among current legal actions")
  | Some index =>
      if index =? _AMBIGUOUS_ACTION_INDEX
      then reject ("action_id " +:+ repr_str public_action_id +:+ " is ambiguous among current legal actions")
      else Ok index
  end.

(** The action the view has under a public id. *)
Definition chosen_action (public_action_id : string) (view : _DecisionView) : Res pydict :=
  index ← resolve_action_id public_action_id view; list_index (legal_actions_raw view) index.

(** * Bookkeeping of public branches *)

Record _BranchBookkeeping := {
  internal_id : string;
  parent_public_id : string;
  branch_log : list pyval;
  book_history : option HistoryBuilder.t;
  book_view : option _DecisionView;
  book_terminal : bool;
  book_outcome : option string;
  book_rng_id : Z;
}.

Definition new_book (internal parent : string) (log : list pyval) (history : option HistoryBuilder.t) (rng_id : Z) :
    _BranchBookkeeping :=
  {| internal_id := internal; parent_public_id := parent; branch_log := log; book_history := history;
     book_view := None; book_terminal := false; book_outcome := None; book_rng_id := rng_id |}.
Definition set_view (view : option _DecisionView) (b : _BranchBookkeeping) : _BranchBookkeeping :=
  {| internal_id := internal_id b; parent_public_id := parent_public_id b; branch_log := branch_log b;
     book_history := book_history b; book_view := view; book_terminal := book_terminal b;
     book_outcome := book_outcome b; book_rng_id := book_rng_id b |}.
Definition set_outcome (outcome : string) (b : _BranchBookkeeping) : _BranchBookkeeping :=
  {| internal_id := internal_id b; parent_public_id := parent_public_id b; branch_log := branch_log b;
     book_history := book_history b; book_view := book_view b; book_terminal := true;
     book_outcome := Some outcome; book_rng_id := book_rng_id b |}.
(** The tombstone of a released branch. *)
Definition compacted (b : _BranchBookkeeping) : _BranchBookkeeping :=
  {| internal_id := internal_id b; parent_public_id := parent_public_id b; branch_log := [];
     book_history := None; book_view := None; book_terminal := true;
     book_outcome := book_outcome b; book_rng_id := book_rng_id b |}.

Definition log_entry (depth : nat) (decision_point_id action_id : string) (rng_id : Z) : pyval :=
  VDict [("depth", VInt (Z.of_nat depth)); ("decision_point_id", VStr decision_point_id);
         ("action_id", VStr action_id); ("rng_id", VInt rng_id)]%string.

Definition _translate_branch_status (internal_status : string) : string :=
  match dget internal_status
    [("queued", STATUS_QUEUED); ("running", STATUS_RUNNING); ("completed", STATUS_COMPLETED);
     ("cancelled", STATUS_CANCELLED); ("faulted", STATUS_FAULTED); ("released", STATUS_RELEASED)]%string with
  | Some s => s
  | None => internal_status
  end.

(** [(simulation_options or {}).get(key, default)]. *)
Definition option_or (key : string) (default simulation_options : pyval) : Res pyval :=
  py_get_or key default (py_or simulation_options (VDict [])).
Definition check_stop_condition (simulation_options : pyval) : Res unit :=
  stop_condition ← option_or "stop_condition" VNone simulation_options;
  if is_none stop_condition || veq_str stop_condition "next_decision" then Ok tt
  else reject ("stop_condition " +:+ py_repr stop_condition +:+ " is not supported for combat instances").
(** The time limit in seconds: [max_time_ms / 1000.0]. *)
Definition poll_timeout (simulation_options : pyval) : Res spec_float :=
  max_time_ms ← option_or "max_time_ms" (VInt DEFAULT_MAX_TIME_MS) simulation_options;
  match max_time_ms with
  | VInt _ | VBool _ | VFloat _ => ms ← py_to_float max_time_ms; Ok (f_div ms (f_of_Z 1000))
  | v => Raise (PyExc "TypeError" ("unsupported operand type(s) for /: '" +:+ py_type_name v +:+ "' and 'float'"))
  end.

Record CombatInstance (S : Type) := {
  instance_id : string;
  _phase : CombatPhase S;
  _branch_ids : BranchIdRegistry.t;
  _decision_points : DecisionPointRegistry.t;
  _root_branch_log : list pyval;
  _root_history : HistoryBuilder.t;
  _bookkeeping : list (string * _BranchBookkeeping);
  _closed : bool;
}.
Arguments instance_id {S}. Arguments _phase {S}. Arguments _branch_ids {S}. Arguments _decision_points {S}.
Arguments _root_branch_log {S}. Arguments _root_history {S}. Arguments _bookkeeping {S}. Arguments _closed {S}.

(** * The operations *)

Module Combat.

Section Instance.
Context (json_loads : string -> Res pyval) (format_exc : pyexn -> string) (work_item_for_ipc : WorkItem -> WorkItem)
  (draws : nat).
Context {S W : Type} {HS : CombatSession S} {HH : CombatHost S W}.

(** An instance with the host outside of it. *)
Definition St : Type := CombatInstance S * W.

Definition with_phase (p : CombatPhase S) (i : CombatInstance S) : CombatInstance S :=
  {| instance_id := instance_id i; _phase := p; _branch_ids := _branch_ids i; _decision_points := _decision_points i;
     _root_branch_log := _root_branch_log i; _root_history := _root_history i; _bookkeeping := _bookkeeping i;
     _closed := _closed i |}.
Definition with_ids (ids : BranchIdRegistry.t) (i : CombatInstance S) : CombatInstance S :=
  {| instance_id := instance_id i; _phase := _phase i; _branch_ids := ids; _decision_points := _decision_points i;
     _root_branch_log := _root_branch_log i; _root_history := _root_history i; _bookkeeping := _bookkeeping i;
     _closed := _closed i |}.
Definition with_points (d : DecisionPointRegistry.t) (i : CombatInstance S) : CombatInstance S :=
  {| instance_id := instance_id i; _phase := _phase i; _branch_ids := _branch_ids i; _decision_points := d;
     _root_branch_log := _root_branch_log i; _root_history := _root_history i; _bookkeeping := _bookkeeping i;
     _closed := _closed i |}.
Definition with_log (log : list pyval) (i : CombatInstance S) : CombatInstance S :=
  {| instance_id := instance_id i; _phase := _phase i; _branch_ids := _branch_ids i; _decision_points := _decision_points i;
     _root_branch_log := log; _root_history := _root_history i; _bookkeeping := _bookkeeping i; _closed := _closed i |}.
Definition with_books (books : list (string * _BranchBookkeeping)) (i : CombatInstance S) : CombatInstance S :=
  {| instance_id := instance_id i; _phase := _phase i; _branch_ids := _branch_ids i; _decision_points := _decision_points i;
     _root_branch_log := _root_branch_log i; _root_history := _root_history i; _bookkeeping := books; _closed := _closed i |}.
Definition set_closed (i : CombatInstance S) : CombatInstance S :=
  {| instance_id := instance_id i; _phase := _phase i; _branch_ids := _branch_ids i; _decision_points := _decision_points i;
     _root_branch_log := _root_branch_log i; _root_history := _root_history i; _bookkeeping := _bookkeeping i;
     _closed := true |}.

Definition self : M St (CombatInstance S) := fun st => (Ok st.1, st).
Definition update (f : CombatInstance S -> CombatInstance S) : M St unit := modS (fun st => (f st.1, st.2)).
Definition on_phase {A} (c : M (CombatPhase S) A) : M St A := fun st =>
  let '(r, p) := c (_phase st.1) in (r, (with_phase p st.1, st.2)).
Definition on_phase_world {A} (c : M (CombatPhase S * W) A) : M St A := fun st =>
  let '(r, (p, w)) := c (_phase st.1, st.2) in (r, (with_phase p st.1, w)).
Definition on_branch_ids {A} (c : M BranchIdRegistry.t A) : M St A := fun st =>
  let '(r, ids) := c (_branch_ids st.1) in (r, (with_ids ids st.1, st.2)).
Definition on_points {A} (c : M DecisionPointRegistry.t A) : M St A := fun st =>
  let '(r, d) := c (_decision_points st.1) in (r, (with_points d st.1, st.2)).
Definition set_book (branch_id : string) (b : _BranchBookkeeping) : M St unit :=
  update (fun i => with_books (dset branch_id b (_bookkeeping i)) i).
Definition update_book (branch_id : string) (f : _BranchBookkeeping -> _BranchBookkeeping) : M St unit :=
  update (fun i => match dget branch_id (_bookkeeping i) with
                   | Some b => with_books (dset branch_id (f b) (_bookkeeping i)) i
                   | None => i
                   end).

Definition _ensure_open : M St unit :=
  i ← self;
  if _closed i then raiseM (RequestRejected "combat instance is closed after an unrecoverable cleanup failure" None)
  else mret tt.

Definition _root_view (i : CombatInstance S) : Res _DecisionView :=
  decision ← root_decision (_phase i);
  let '(legal, context, boundary) := decision in
  Ok (new_view legal context boundary (_root_state (_phase i))).

Definition _view_for (public_branch_id : string) (i : CombatInstance S) : Res _DecisionView :=
  if String.eqb public_branch_id ROOT_BRANCH_ID then _root_view i
  else match (b ← dget public_branch_id (_bookkeeping i); book_view b) with
       | Some view => Ok view
       | None => reject ("branch_id " +:+ repr_str public_branch_id +:+ " has no current Decision")
       end.

Definition _require_branchable (view : _DecisionView) (i : CombatInstance S) : Res DecisionContext :=
  match view_context view with
  | Some c => Ok c
  | None => reject (default ROOT_BRANCHING_UNAVAILABLE_NO_STABLE_ANCHOR (root_branching_unavailable_reason (_phase i)))
  end.

Definition current_point (public_branch_id : string) (i : CombatInstance S) : pyval :=
  opt_str (DecisionPointRegistry.current public_branch_id (_decision_points i)).

Definition _decision_response_fields (public_branch_id : string) (view : _DecisionView) (log : list pyval)
    (i : CombatInstance S) : Res pydict :=
  let battle_state := view_battle_state view in
  legal ← mask_legal_actions (legal_actions_raw view);
  extra ← (if is_terminal battle_state then
             o ← require_terminal_outcome (VStr (outcome battle_state)) "combat root decision" VALID_COMBAT_TERMINAL_OUTCOMES;
             Ok [("legal_actions", VList legal); ("terminal", VBool true); ("outcome", VStr o)]%string
           else Ok [("legal_actions", VList legal)]%string);
  masked ← build_masked_emulator_dto (engine_state battle_state) (Some extra);
  Ok [("branch_id", VStr public_branch_id); ("decision_point_id", current_point public_branch_id i);
      ("branch_log", VList log); ("masked_emulator_dto", VDict masked)]%string.

Definition completed (fields : pydict) : pydict := ("status"%string, VStr STATUS_COMPLETED) :: fields.

Definition start_instance_response : M St pydict :=
  _ ← _ensure_open;
  i ← self;
  view ← liftR (_root_view i);
  fields ← liftR (_decision_response_fields ROOT_BRANCH_ID view (_root_branch_log i) i);
  mret (("status", VStr STATUS_COMPLETED) :: ("instance_id", VStr (instance_id i)) ::
        ("max_emulate_actions_items", VInt (phase_max_branches (_phase i))) :: fields)%string.

(** The decision of a branch that ended. *)
Definition terminal_dto (o : string) : Res pydict :=
  build_masked_emulator_dto [("terminal", VBool true); ("outcome", VStr o)]%string None.

Definition root_decision_response : M St pydict :=
  i ← self;
  view ← liftR (_root_view i);
  fields ← liftR (_decision_response_fields ROOT_BRANCH_ID view (_root_branch_log i) i);
  mret (completed fields).

Definition get_decision (branch_id : string) : M St pydict :=
  _ ← _ensure_open;
  i ← self;
  if String.eqb branch_id ROOT_BRANCH_ID then root_decision_response
  else if negb (BranchIdRegistry.is_known branch_id (_branch_ids i)) then
    raiseM (RequestRejected ("unknown branch_id " +:+ repr_str branch_id) None)
  else match dget branch_id (_bookkeeping i) with
  | None => raiseM (RequestRejected ("branch_id " +:+ repr_str branch_id +:+
              " is unavailable after a failed branch operation") None)
  | Some book =>
      st ← on_phase (branch_status (internal_id book));
      let translated := _translate_branch_status st in
      if str_in translated [STATUS_QUEUED; STATUS_RUNNING; STATUS_CANCELLED; STATUS_FAULTED; STATUS_RELEASED] then
        mret [("status", VStr translated); ("branch_id", VStr branch_id)]%string
      else if book_terminal book then
        o ← liftR (require_terminal_outcome (opt_str (book_outcome book)) ("combat branch " +:+ repr_str branch_id)
                     VALID_COMBAT_TERMINAL_OUTCOMES);
        dto ← liftR (terminal_dto o);
        mret (completed [("branch_id", VStr branch_id); ("decision_point_id", current_point branch_id i);
                         ("branch_log", VList (branch_log book)); ("masked_emulator_dto", VDict dto)]%string)
      else
        view ← liftR (_view_for branch_id i);
        fields ← liftR (_decision_response_fields branch_id view (branch_log book) i);
        mret (completed fields)
  end.

(** [_compact_bookkeeping_for_release]. *)
Definition _compact_bookkeeping_for_release (public_branch_id : string) : M St unit :=
  i ← self;
  match dget public_branch_id (_bookkeeping i) with
  | None => mret tt
  | Some b =>
      _ ← set_book public_branch_id (compacted b);
      on_points (DecisionPointRegistry.clear public_branch_id)
  end.
Fixpoint compact_each (branch_ids : list string) : M St unit :=
  match branch_ids with
  | [] => mret tt
  | b :: rest => _ ← _compact_bookkeeping_for_release b; compact_each rest
  end.

Definition _cancel_and_release_all_branches : M St unit :=
  i ← self;
  let internal_ids := map (fun kb => internal_id kb.2) (_bookkeeping i) in
  _ ← (match internal_ids with [] => mret tt | _ => on_phase (phase_release internal_ids) end);
  compact_each (dkeys (_bookkeeping i)).

Definition faulted_response (e : pyexn) : pydict :=
  [("status", VStr STATUS_FAULTED); ("error", VStr (exn_str e)); ("fault_kind", VStr FAULT_EMULATOR_ERROR)]%string.

(** [commit_action]: [inr] carries on after the commit. *)
Definition commit_action (decision_point_id action_id : string) : M St pydict :=
  _ ← _ensure_open;
  i ← self;
  _ ← liftR (DecisionPointRegistry.validate ROOT_BRANCH_ID decision_point_id (_decision_points i));
  view ← liftR (_root_view i);
  chosen ← liftR (chosen_action action_id view);
  failed ← tryM (_ ← on_phase (commit_root_action chosen); mret None)
    (fun e =>
       i ← self;
       _ ← (if _root_commit_advanced (_phase i) then update set_closed else mret tt);
       mret (Some e));
  match failed with
  | Some e => mret (faulted_response e)
  | None =>
      _ ← update (fun i => with_log (_root_branch_log i ++
                    [log_entry (length (_root_branch_log i)) decision_point_id action_id ROOT_RNG_ID]) i);
      _ ← _cancel_and_release_all_branches;
      _ ← on_points (DecisionPointRegistry.issue ROOT_BRANCH_ID);
      root_decision_response
  end.

(** * Emulation *)

(** The extra fields of an emulation's response. *)
Definition lineage (branch_id parent_branch_id : string) (rng_id : Z) : pydict :=
  [("branch_id", VStr branch_id); ("parent_branch_id", VStr parent_branch_id); ("rng_id", VInt rng_id)]%string.

Definition no_attribute (name : string) : pyexn :=
  PyExc "AttributeError" ("'NoneType' object has no attribute '" +:+ name +:+ "'").

(** The next decision of a branch at a stable or pending boundary becomes its
    current view. *)
Definition publish_view (branch_id parent_branch_id : string) (rng_id : Z) (log : list pyval) (view : _DecisionView) :
    M St pydict :=
  _ ← update_book branch_id (set_view (Some view));
  _ ← on_points (DecisionPointRegistry.issue branch_id);
  i ← self;
  fields ← liftR (_decision_response_fields branch_id view log i);
  mret (completed (dupdate fields [("parent_branch_id", VStr parent_branch_id); ("rng_id", VInt rng_id)]%string)).

Definition _finalize_branch_result (branch_id parent_branch_id : string) (rng_id : Z) (log : list pyval)
    (result : BranchResult) : M St pydict :=
  if negb (String.eqb (status result) BRANCH_STATUS_SUCCESS) then
    let diag := diagnostics result in
    mret ([("status", VStr STATUS_FAULTED)]%string ++ lineage branch_id parent_branch_id rng_id ++
          [("error", dget_or "message" (VStr "branch execution faulted") diag);
           ("fault_kind", dget_or "fault_kind" (VStr FAULT_EMULATOR_ERROR) diag)]%string)
  else match result_signature result with
  | None => raiseM (no_attribute "boundary")
  | Some signature =>
      let boundary := sig_boundary signature in
      if String.eqb boundary BOUNDARY_PENDING then
        match pending_decision_context result with
        | None => raiseM (no_attribute "current_decision_result")
        | Some c =>
            let st := current_decision_result c in
            publish_view branch_id parent_branch_id rng_id log
              (new_view (_legal_actions_from_current_result st) (Some c) boundary st)
        end
      else if String.eqb boundary BOUNDARY_STABLE then
        let root := match child_snapshot result with Some d => SnapshotRoot d | None => ObjectRoot "None" None None end in
        match next_decision_result result with
        | None =>
            _ ← on_points (DecisionPointRegistry.issue branch_id);
            raiseM (no_attribute "engine_state")
        | Some st =>
            publish_view branch_id parent_branch_id rng_id log
              (new_view (default [] (next_legal_actions result)) (Some (from_main_stable_capture root st signature)) boundary st)
        end
      else if String.eqb boundary BOUNDARY_TERMINAL then
        o ← liftR (require_terminal_outcome
                     (match terminal_result result with Some t => VStr (bt_outcome t) | None => VNone end)
                     ("combat branch " +:+ repr_str branch_id) VALID_COMBAT_TERMINAL_OUTCOMES);
        _ ← update_book branch_id (fun b => set_view None (set_outcome o b));
        _ ← on_points (DecisionPointRegistry.issue branch_id);
        i ← self;
        dto ← liftR (terminal_dto o);
        mret (completed (lineage branch_id parent_branch_id rng_id ++
              [("decision_point_id", current_point branch_id i); ("branch_log", VList log);
               ("masked_emulator_dto", VDict dto)]%string))
      else raiseM (PyExc "RuntimeError" ("unexpected combat branch boundary: " +:+ repr_str boundary))
  end.

(** The parent of an emulation: known, alive, and extended under its own
    [rng_id]. *)
Definition check_parent (parent_branch_id : string) (rng_id : Z) : M St unit :=
  if String.eqb parent_branch_id ROOT_BRANCH_ID then mret tt
  else
    i ← self;
    match (if BranchIdRegistry.is_known parent_branch_id (_branch_ids i)
           then dget parent_branch_id (_bookkeeping i) else None) with
    | None => raiseM (RequestRejected ("parent_branch_id " +:+ repr_str parent_branch_id +:+ " does not exist") None)
    | Some book =>
        parent_status ← on_phase (branch_status (internal_id book));
        if str_in parent_status ["cancelled"; "released"; "faulted"]%string then
          raiseM (RequestRejected ("parent_branch_id " +:+ repr_str parent_branch_id +:+ " is " +:+ parent_status +:+
            " and cannot be extended") None)
        else if negb (rng_id =? book_rng_id book) then
          raiseM (RequestRejected ("non-root parent_branch_id " +:+ repr_str parent_branch_id +:+ " requires rng_id=" +:+
            pretty (book_rng_id book) +:+ " (its own lineage rng_id), got " +:+ pretty rng_id) None)
        else mret tt
    end.

(** The book of a parent that is not the root; one that is in no book here was
    refused before. *)
Definition parent_book (parent_branch_id : string) (i : CombatInstance S) : Res (option _BranchBookkeeping) :=
  if String.eqb parent_branch_id ROOT_BRANCH_ID then Ok None
  else match dget parent_branch_id (_bookkeeping i) with
       | None => Raise (PyExc "KeyError" (repr_str parent_branch_id))
       | Some b => Ok (Some b)
       end.
(** The history and log a branch inherits. *)
Definition inherited (parent_branch_id : string) (i : CombatInstance S) : Res (HistoryBuilder.t * list pyval) :=
  book ← parent_book parent_branch_id i;
  match book with
  | None => Ok (HistoryBuilder.fork (_root_history i), _root_branch_log i)
  | Some b =>
      match book_history b with
      | None => Raise (no_attribute "fork")
      | Some h => Ok (HistoryBuilder.fork h, branch_log b)
      end
  end.

(** [try: body except Exception: handler], where the handler reads the internal
    ids the body has assigned so far. *)
Definition Local : Type := St * list string.
Definition tryL {A} (body : M Local A) (handler : list string -> pyexn -> M St A) : M St A := fun st =>
  match body (st, []) with
  | (Ok a, (st', _)) => (Ok a, st')
  | (Raise e, (st', ids)) => handler ids e st'
  end.
Definition inst {A} (c : M St A) : M Local A := fun l => let '(r, st) := c l.1 in (r, (st, l.2)).
Definition assign (ids : list string) : M Local unit := modS (fun l => (l.1, ids)).

Definition close : M St unit :=
  i ← self;
  if _closed i then mret tt
  else _ ← update set_closed; on_phase phase_close.

(** The exception of a step that must not stop the cleanup. *)
Definition attempt (c : M St unit) : M St (list pyexn) := tryM (_ ← c; mret []) (fun e => mret [e]).

Fixpoint forget_each (branch_ids : list string) : M St unit :=
  match branch_ids with
  | [] => mret tt
  | b :: rest =>
      _ ← update (fun i => with_books (ddel b (_bookkeeping i)) i);
      _ ← on_points (DecisionPointRegistry.clear b);
      forget_each rest
  end.

Definition cleanup_failed (operation : string) : pyexn :=
  PyExc "RuntimeError" (operation +:+ " cleanup failed; combat instance was closed to prevent ghost Branch execution").

(** The handler of a failed emulation. *)
Definition clean_up {A} (operation : string) (branch_ids : list string) (rng_snapshot : Z)
    (internal_ids : list string) (original : pyexn) : M St A :=
  errors ← (match internal_ids with
            | [] => mret []
            | _ =>
                cancelled ← attempt (on_phase (phase_cancel internal_ids));
                released ← attempt (on_phase (phase_release internal_ids));
                mret (cancelled ++ released)
            end);
  _ ← forget_each branch_ids;
  _ ← on_phase (restore_rng_hypotheses rng_snapshot);
  match errors with
  | [] => raiseM original
  | _ => _ ← attempt close; raiseM (cleanup_failed operation)
  end.

Definition running_response (branch_id parent_branch_id : string) (rng_id : Z) : pydict :=
  [("status", VStr STATUS_RUNNING)]%string ++ lineage branch_id parent_branch_id rng_id.

(** The body of [emulate_action]'s [try]; [None] when it does not return. *)
Definition emulate_body (parent_branch_id branch_id : string) (rng_id : Z) (decision_point_id action_id : string)
    (simulation_options : pyval) (context : DecisionContext) (chosen : pydict) : M Local (option pydict) :=
  work_item ← inst (on_phase (build_work_item json_loads draws context chosen parent_branch_id decision_point_id rng_id));
  match work_item with
  | None => mret None
  | Some w =>
      i ← inst self;
      parent ← liftR (parent_book parent_branch_id i);
      ids ← inst (on_phase (phase_submit [w] (internal_id <$> parent)));
      match ids with
      | [internal] =>
          _ ← assign [internal];
          i ← inst self;
          line ← liftR (inherited parent_branch_id i);
          let log := line.2 ++ [log_entry (length line.2) decision_point_id action_id rng_id] in
          _ ← inst (set_book branch_id (new_book internal parent_branch_id log (Some line.1) rng_id));
          timeout ← liftR (poll_timeout simulation_options);
          results ← inst (on_phase_world (phase_poll format_exc work_item_for_ipc timeout [internal]));
          match results with
          | None => mret None
          | Some results =>
              match dget internal results with
              | None => mret (Some (running_response branch_id parent_branch_id rng_id))
              | Some result =>
                  response ← inst (_finalize_branch_result branch_id parent_branch_id rng_id log result);
                  mret (Some response)
              end
          end
      | _ => raiseM (value_error "not enough values to unpack (expected 1)")
      end
  end.

Definition emulate_action (parent_branch_id branch_id : string) (rng_id : Z) (decision_point_id action_id : string)
    (simulation_options : pyval) : M St (option pydict) :=
  _ ← _ensure_open;
  _ ← liftR (check_stop_condition simulation_options);
  _ ← check_parent parent_branch_id rng_id;
  i ← self;
  _ ← liftR (DecisionPointRegistry.validate parent_branch_id decision_point_id (_decision_points i));
  _ ← on_branch_ids (BranchIdRegistry.register branch_id);
  i ← self;
  view ← liftR (_view_for parent_branch_id i);
  context ← liftR (_require_branchable view i);
  chosen ← liftR (chosen_action action_id view);
  let rng_snapshot := snapshot_rng_hypotheses (_phase i) in
  tryL (emulate_body parent_branch_id branch_id rng_id decision_point_id action_id simulation_options context chosen)
    (clean_up "emulate_action" [branch_id] rng_snapshot).

(** * Batches *)

(** An item of a batch: the ids and texts its request has. *)
Record EmulateItem := {
  it_parent_branch_id : string;
  it_branch_id : string;
  it_rng_id : Z;
  it_decision_point_id : string;
  it_action_id : string;
}.
Record _AdmittedItem := {
  admitted_item : EmulateItem;
  parent_context : DecisionContext;
  candidate : pydict;
}.

Definition _validate_emulate_actions_item (item : EmulateItem) : M St _AdmittedItem :=
  i ← self;
  if BranchIdRegistry.is_known (it_branch_id item) (_branch_ids i) then
    raiseM (RequestRejected ("branch_id " +:+ repr_str (it_branch_id item) +:+
      " already used (branch IDs are never reusable)") None)
  else
    _ ← check_parent (it_parent_branch_id item) (it_rng_id item);
    i ← self;
    _ ← liftR (DecisionPointRegistry.validate (it_parent_branch_id item) (it_decision_point_id item) (_decision_points i));
    view ← liftR (_view_for (it_parent_branch_id item) i);
    context ← liftR (_require_branchable view i);
    chosen ← liftR (chosen_action (it_action_id item) view);
    mret {| admitted_item := item; parent_context := context; candidate := chosen |}.

Fixpoint admit_items (items : list EmulateItem) (seen_branch_ids : list string) : M St (list _AdmittedItem) :=
  match items with
  | [] => mret []
  | item :: rest =>
      if str_in (it_branch_id item) seen_branch_ids then
        raiseM (RequestRejected ("branch_id " +:+ repr_str (it_branch_id item) +:+ " is duplicated within this batch") None)
      else
        a ← _validate_emulate_actions_item item;
        rest ← admit_items rest (it_branch_id item :: seen_branch_ids);
        mret (a :: rest)
  end.

(** An item ready to be submitted: its work item, its parent's internal id and
    the book it will get but for its internal id. *)
Record Prepared := {
  pr_item : EmulateItem;
  pr_work_item : WorkItem;
  pr_parent : option string;
  pr_log : list pyval;
  pr_history : HistoryBuilder.t;
}.

Fixpoint prepare_each (admitted : list _AdmittedItem) : M St (option (list Prepared)) :=
  match admitted with
  | [] => mret (Some [])
  | a :: rest =>
      let item := admitted_item a in
      w ← on_phase (build_work_item json_loads draws (parent_context a) (candidate a) (it_parent_branch_id item)
                      (it_decision_point_id item) (it_rng_id item));
      match w with
      | None => mret None
      | Some w =>
          i ← self;
          parent ← liftR (parent_book (it_parent_branch_id item) i);
          line ← liftR (inherited (it_parent_branch_id item) i);
          let log := line.2 ++ [log_entry (length line.2) (it_decision_point_id item) (it_action_id item) (it_rng_id item)] in
          rest ← prepare_each rest;
          mret (rest ← rest;
                Some ({| pr_item := item; pr_work_item := w; pr_parent := internal_id <$> parent;
                         pr_log := log; pr_history := line.1 |} :: rest))
      end
  end.

Fixpoint register_each (items : list EmulateItem) : M St unit :=
  match items with
  | [] => mret tt
  | item :: rest => _ ← on_branch_ids (BranchIdRegistry.register (it_branch_id item)); register_each rest
  end.

Fixpoint book_each (prepared : list (Prepared * string)) : M St unit :=
  match prepared with
  | [] => mret tt
  | (p, internal) :: rest =>
      let item := pr_item p in
      _ ← set_book (it_branch_id item)
            (new_book internal (it_parent_branch_id item) (pr_log p) (Some (pr_history p)) (it_rng_id item));
      book_each rest
  end.

Fixpoint finalize_each (prepared : list (Prepared * string)) (results : list (string * BranchResult)) : M St pydict :=
  match prepared with
  | [] => mret []
  | (p, internal) :: rest =>
      let item := pr_item p in
      match dget internal results with
      | None => raiseM (PyExc "RuntimeError"
          ("BranchManager.poll() returned no terminal result for dispatched Branch " +:+ internal))
      | Some result =>
          response ← _finalize_branch_result (it_branch_id item) (it_parent_branch_id item) (it_rng_id item) (pr_log p) result;
          rest ← finalize_each rest results;
          mret ((it_branch_id item, VDict response) :: rest)
      end
  end.

(** The body of [emulate_actions]' [try]. *)
Definition emulate_batch (simulation_options : pyval) (admitted : list _AdmittedItem) : M Local (option pydict) :=
  prepared ← inst (prepare_each admitted);
  match prepared with
  | None => mret None
  | Some prepared =>
      ids ← inst (on_phase (phase_submit_many (map (fun p => (pr_work_item p, pr_parent p)) prepared)));
      _ ← assign ids;
      if negb (Nat.eqb (length prepared) (length ids)) then
        raiseM (value_error "zip() argument 2 differs in length from argument 1")
      else
        let pending := zip prepared ids in
        _ ← inst (register_each (map admitted_item admitted));
        _ ← inst (book_each pending);
        timeout ← liftR (poll_timeout simulation_options);
        results ← inst (on_phase_world (phase_poll format_exc work_item_for_ipc timeout ids));
        match results with
        | None => mret None
        | Some results =>
            branch_results ← inst (finalize_each pending results);
            mret (Some (completed [("branch_results", VDict branch_results)]%string))
        end
  end.

Definition emulate_actions (items : list EmulateItem) (simulation_options : pyval) : M St (option pydict) :=
  _ ← _ensure_open;
  _ ← liftR (check_stop_condition simulation_options);
  i ← self;
  let cap := phase_max_branches (_phase i) in
  match items with
  | [] => raiseM (RequestRejected "emulate_actions.items must be a non-empty list" None)
  | _ =>
      if cap <? Z.of_nat (length items) then
        raiseM (RequestRejected ("emulate_actions batch size " +:+ pretty (Z.of_nat (length items)) +:+
          " exceeds max batch size " +:+ pretty cap +:+ "; chunk the frontier into multiple requests") None)
      else
        admitted ← admit_items items [];
        i ← self;
        let active_count := phase_active_branch_count (_phase i) in
        if cap <? active_count + Z.of_nat (length admitted) then
          raiseM (RequestRejected ("submitting " +:+ pretty (Z.of_nat (length admitted)) +:+
            " Branch(es) would exceed max_branches=" +:+ pretty cap +:+ " (currently " +:+ pretty active_count +:+
            " active)") None)
        else
          tryL (emulate_batch simulation_options admitted)
            (clean_up "emulate_actions" (map it_branch_id items) (snapshot_rng_hypotheses (_phase i)))
  end.

(** * Branch lifecycle *)

Definition _internal_id_or_reject (public_branch_id : string) (i : CombatInstance S) : Res string :=
  if String.eqb public_branch_id ROOT_BRANCH_ID then reject "root cannot be Cancelled/Released"
  else match dget public_branch_id (_bookkeeping i) with
       | None => reject ("unknown branch_id " +:+ repr_str public_branch_id)
       | Some book => Ok (internal_id book)
       end.

Definition branch_statuses (statuses : list (string * string)) : pydict :=
  completed [("branch_statuses", VDict (map (fun ks => (ks.1, VStr ks.2)) statuses))]%string.
Definition all_at (st : string) (branch_ids : list string) : list (string * string) :=
  foldl (fun d b => dset b st d) [] branch_ids.

Definition cancel_branches (branch_ids : list string) : M St pydict :=
  _ ← _ensure_open;
  i ← self;
  internal_ids ← liftR (mapR (fun b => _internal_id_or_reject b i) branch_ids);
  _ ← on_phase (phase_cancel internal_ids);
  mret (branch_statuses (all_at STATUS_CANCELLED branch_ids)).

Definition release_branches (branch_ids : list string) : M St pydict :=
  _ ← _ensure_open;
  i ← self;
  internal_ids ← liftR (mapR (fun b => _internal_id_or_reject b i) branch_ids);
  _ ← on_phase (phase_release internal_ids);
  _ ← compact_each branch_ids;
  mret (branch_statuses (all_at STATUS_RELEASED branch_ids)).

Fixpoint statuses_of (branch_ids : list string) (statuses : list (string * string)) : M St (list (string * string)) :=
  match branch_ids with
  | [] => mret statuses
  | b :: rest =>
      if String.eqb b ROOT_BRANCH_ID then raiseM (RequestRejected "root has no Branch status" None)
      else
        i ← self;
        internal ← liftR (_internal_id_or_reject b i);
        st ← on_phase (branch_status internal);
        statuses_of rest (dset b (_translate_branch_status st) statuses)
  end.
Definition get_branch_status (branch_ids : list string) : M St pydict :=
  _ ← _ensure_open;
  statuses ← statuses_of branch_ids [];
  mret (branch_statuses statuses).

(** [CombatInstance(...)]. *)
Definition new_combat_instance (iid : string) (instance_config : pydict) (worker_count : option Z) (max_branches : Z)
    (worker_pool_backend : option string) : M W (CombatInstance S) :=
  p ← new_combat_phase (ddel "instance_type" instance_config) worker_count max_branches worker_pool_backend None None;
  match root_branching_unavailable_reason p with
  | Some _ =>
      match phase_close p with
      | (Ok _, _) => raiseM (PyExc "RuntimeError" START_PENDING_UNSUPPORTED)
      | (Raise e, _) => raiseM e
      end
  | None =>
      mret {| instance_id := iid; _phase := p; _branch_ids := BranchIdRegistry.init;
              _decision_points := snd (DecisionPointRegistry.issue ROOT_BRANCH_ID DecisionPointRegistry.init);
              _root_branch_log := []; _root_history := HistoryBuilder.init; _bookkeeping := []; _closed := false |}
  end.
End Instance.
End Combat.
