(* ===== verification/CombatLaws.v ===== *)
(** The combat instance keeps its identifiers and branches consistent
    (API/instance_combat.py): an emulation is isolated, a failed one leaves no
    trace, a commit invalidates every branch, and nothing hidden is published. *)

From S2P Require Export CombatInstance.

Local Notation known := BranchManager.known.
Local Notation next_serial := BranchManager.next_serial.

(** * New branches under a manager *)

(** [m] is [m0] with the leaf branches [new] added: existing branches keep
    everything but links. *)
Record grown (new : list string) (m0 m : Manager) : Prop := {
  gr_ok : mgr_ok m;
  gr_known : forall b, known b m <-> known b m0 \/ b ∈ new;
  gr_fresh : forall b, b ∈ new -> ¬ known b m0;
  gr_core : forall b, known b m0 -> core <$> rec_of b m = core <$> rec_of b m0;
  gr_leaf : forall a c, a ∈ new -> ¬ child_of m a c;
}.

Lemma grown_refl m : mgr_ok m -> grown [] m m.
Proof. intros Hok. constructor; try done; [set_solver|set_solver|intros a c []%elem_of_nil]. Qed.

(** A record of a submitted batch has a parent of the batch. *)
Lemma recs_from_parent s entries r : r ∈ recs_from s entries -> exists w, (w, parent_branch_id r) ∈ entries.
Proof.
  revert s. induction entries as [|[w p] rest IH]; intros s; cbn [recs_from]; [intros []%elem_of_nil|].
  intros [->|Hr]%elem_of_cons; [exists w; by left|]. destruct (IH _ Hr) as [w' ?]. exists w'. by right.
Qed.

Lemma recs_from_leaf s entries r : r ∈ recs_from s entries -> child_branch_ids r = [].
Proof.
  revert s. induction entries as [|[w p] rest IH]; intros s; cbn [recs_from]; [intros []%elem_of_nil|].
  intros [->|Hr]%elem_of_cons; [done|by eapply IH].
Qed.

Lemma submitted_grown m entries :
  mgr_ok m -> (forall w p, (w, Some p) ∈ entries -> known p m) ->
  grown (map br_branch_id (recs_from (next_serial m) entries)) m (submitted entries m).
Proof.
  intros Hok Hp. set (recs := recs_from (next_serial m) entries).
  assert (Hfresh : forall b, b ∈ map br_branch_id recs -> ¬ known b m).
  { intros b (r & -> & Hr)%list_elem_of_fmap. by eapply new_ids_unknown. }
  constructor; [by apply submitted_ok| |exact Hfresh| |].
  - intros b. unfold known. rewrite submitted_rec. fold recs. destruct (rec_of b m) as [r|] eqn:E; cbn.
    + split; [intros _; left; by eexists|intros _; by eexists].
    + split.
      * intros [r' Hr']. right. destruct (List.find _ recs) as [r|] eqn:Ef; [|done].
        apply find_some in Ef as [Hin ->%String.eqb_eq]. apply list_elem_of_fmap. exists r. by split; [|apply list_elem_of_In].
      * intros [[? ?]|Hb]; [done|]. apply list_elem_of_fmap in Hb as (r & -> & Hr). subst recs.
        rewrite (find_new_record _ _ _ Hr). by eexists.
  - intros b [r Hr]. rewrite submitted_rec, Hr. done.
  - intros a c Ha (r & Hr & Hc). pose proof (Hfresh a Ha) as Hunk. rewrite submitted_rec in Hr. fold recs in Hr.
    destruct (rec_of a m) as [r0|] eqn:E; [by apply Hunk; eexists|]. apply fmap_Some in Hr as (r1 & Hf & ->). cbn in Hc.
    apply find_some in Hf as [Hin _]. apply elem_of_app in Hc as [Hc|Hc].
    + apply list_elem_of_In, recs_from_leaf in Hin. rewrite Hin in Hc. by apply elem_of_nil in Hc.
    + apply list_elem_of_fmap in Hc as (r2 & _ & Hr2). apply list_elem_of_In, filter_In in Hr2 as [Hr2 Hpar].
      unfold has_parent in Hpar. apply list_elem_of_In in Hr2. apply recs_from_parent in Hr2 as [w Hw].
      destruct (parent_branch_id r2) as [p|]; [|done]. apply String.eqb_eq in Hpar as <-. by apply Hunk, (Hp w).
Qed.

Lemma submit_many_grown m entries :
  mgr_ok m ->
  posts (submit_many entries) m (fun ids m' => grown ids m m' /\ length ids = length entries /\ NoDup ids) (fun m' => m' = m).
Proof.
  intros Hok. unfold posts. destruct (check_parents_run entries m) as [[Hc Hp]|(p & Hc & _)].
  - destruct (Z.lt_ge_cases (max_branches m) (active_branch_count m + Z.of_nat (length entries))) as [Hcap|Hcap].
    + unfold submit_many. erewrite M_run_Ok by exact Hc. erewrite M_run_Ok by reflexivity.
      replace (max_branches m <? _) with true by (symmetry; apply Z.ltb_lt; exact Hcap). done.
    + rewrite submit_many_run by done. destruct (recs_from_facts (next_serial m) entries) as (Hlen & _ & Hnd & _).
      split; [by apply submitted_grown|]. by rewrite length_map.
  - unfold submit_many. by erewrite M_run_Raise by exact Hc.
Qed.

Lemma leaf_descendant m (new : list string) b : (forall a c, a ∈ new -> ¬ child_of m a c) -> (exists a, a ∈ new /\ rtc (child_of m) a b) -> b ∈ new.
Proof. intros Hleaf (a & Ha & Hab). inversion Hab as [|? c ? Hac]; subst; [done|]. by destruct (Hleaf a c). Qed.

Lemma known_keys m m' : dkeys (records m') = dkeys (records m) -> forall b, known b m' <-> known b m.
Proof. intros Hk b. rewrite <- !known_dmem, !dmem_keys. by rewrite Hk. Qed.
Lemma child_links m m' : (forall b, links_of <$> rec_of b m' = links_of <$> rec_of b m) -> forall a c, child_of m' a c -> child_of m a c.
Proof.
  intros Hl a c (r & Hr & Hc). specialize (Hl a). rewrite Hr in Hl. destruct (rec_of a m) as [r0|] eqn:E; [|done].
  cbn in Hl. injection Hl as _ _ Hl. exists r0. split; [done|congruence].
Qed.

(** A step that keeps the set of branches, adds no child links and changes only
    new branches, links aside. *)
Lemma grown_step new m0 m m' :
  grown new m0 m -> mgr_ok m' -> dkeys (records m') = dkeys (records m) ->
  (forall a c, child_of m' a c -> child_of m a c) ->
  (forall b, b ∉ new -> core <$> rec_of b m' = core <$> rec_of b m) -> grown new m0 m'.
Proof.
  intros [O K F C L] Hok Hk Hc Hcore. constructor; try done.
  - intros b. rewrite <- K. by apply known_keys.
  - intros b Hb. rewrite Hcore; [by apply C|]. intros Hn. by destruct (F b Hn).
  - intros a c Ha Hac. by eapply L, Hc.
Qed.

Lemma poll_grown work_item_for_ipc requires_ipc format_exc submitted_at timeout events new m0 m :
  grown new m0 m ->
  posts (poll work_item_for_ipc requires_ipc format_exc submitted_at timeout (Some new) events) m
    (fun _ m' => grown new m0 m') (fun m' => grown new m0 m').
Proof.
  intros Hg. eapply posts_weaken; [apply poll_posts, Hg| |].
  - intros out m' (ids & Hsel & Hc & _). destruct Hsel as (_ & Hin & _). eapply grown_step; [exact Hg|apply Hc|apply Hc| |].
    + apply child_links, Hc.
    + intros b Hb. rewrite (cn_other _ _ _ Hc); [done|]. intros H%Hin. done.
  - intros m' [->|(ids & Hsel & Hq)]; [done|]. destruct Hsel as (_ & Hin & _).
    eapply grown_step; [exact Hg|apply Hq|apply Hq|apply Hq|].
    intros b Hb. apply Hq. intros (a & Ha & Hab). apply Hb. eapply leaf_descendant; [apply (gr_leaf _ _ _ Hg)|].
    exists a. split; [by apply Hin|done].
Qed.

(** Cancelling and releasing the new branches cannot fail. *)
Lemma cancel_grown new m0 m :
  grown new m0 m -> exists v m', BranchManager.cancel_branches new m = (Ok v, m') /\ grown new m0 m'.
Proof.
  intros Hg. destruct (cancel_branches_run m new (gr_ok _ _ _ Hg)) as (v & m' & Hrun & Hca).
  { intros b Hb. apply (gr_known _ _ _ Hg). by right. }
  exists v, m'. split; [done|]. eapply grown_step; [exact Hg|apply Hca|apply Hca| |].
  - apply child_links, Hca.
  - intros b Hb. rewrite (ca_other _ _ _ _ Hca); [done|]. apply not_true_iff_false.
    intros Hv%(ca_reach _ _ _ _ Hca). apply Hb. eapply leaf_descendant; [apply (gr_leaf _ _ _ Hg)|done].
Qed.
Lemma release_grown new m0 m :
  grown new m0 m ->
  exists st m', BranchManager.release_branches new m = (Ok st, m') /\ grown new m0 m' /\ forall b, b ∈ new -> is_released b m'.
Proof.
  intros Hg. destruct (release_loop_ok new m [] (gr_ok _ _ _ Hg)) as (m' & st & Hrun & Hrm & _).
  { intros b Hb. apply (gr_known _ _ _ Hg). by right. }
  exists st, m'. split; [exact Hrun|]. split; [|apply Hrm]. eapply grown_step; [exact Hg|apply Hrm|apply Hrm|apply Hrm|apply Hrm].
Qed.

Lemma grown_trans new m0 m m' : grown [] m0 m -> grown new m m' -> grown new m0 m'.
Proof.
  intros [O K F C L] [O' K' F' C' L'].
  assert (Hk : forall b, known b m <-> known b m0) by (intros b; rewrite K, elem_of_nil; tauto).
  constructor; try done.
  - intros b. by rewrite K', Hk.
  - intros b Hb. rewrite <- Hk. by apply F'.
  - intros b Hb. rewrite C' by (by apply Hk). by apply C.
Qed.

(** * Postconditions through the layers of the instance *)

Lemma liftR_posts {St A} (r : Res A) (s : St) (Q : A -> St -> Prop) (E : St -> Prop) :
  (forall a, r = Ok a -> Q a s) -> E s -> posts (liftR r) s Q E.
Proof. unfold posts, liftR. destruct r as [a|e]; auto. Qed.

(** Entries of other keys. *)
Definition off {A} (ids : list string) (d : list (string * A)) : list (string * A) :=
  List.filter (fun kv => negb (str_in kv.1 ids)) d.

Lemma str_in_false b ids : b ∉ ids -> str_in b ids = false.
Proof. intros H. apply not_true_iff_false. by rewrite str_in_elem. Qed.

Lemma dget_off {A} ids b (d : list (string * A)) : b ∉ ids -> dget b (off ids d) = dget b d.
Proof.
  intros Hb. induction d as [|[k v] d IH]; cbn; [done|]. destruct (String.eqb_spec b k) as [->|Hne].
  - rewrite str_in_false by done. cbn. by rewrite String.eqb_refl.
  - destruct (negb _); cbn; [|done]. apply String.eqb_neq in Hne. by rewrite Hne.
Qed.
Lemma off_fresh {A} ids (d : list (string * A)) : (forall b, b ∈ ids -> b ∉ dkeys d) -> off ids d = d.
Proof.
  induction d as [|[k v] d IH]; intros H; cbn; [done|]. rewrite str_in_false.
  - cbn. f_equal. apply IH. intros b Hb Hin. apply (H b Hb). by right.
  - intros Hk. apply (H k Hk). by left.
Qed.
Lemma off_dset {A} ids b v (d : list (string * A)) : b ∈ ids -> off ids (dset b v d) = off ids d.
Proof.
  intros Hb%str_in_elem. induction d as [|[k w] d IH]; cbn; [by rewrite Hb|].
  destruct (String.eqb_spec b k) as [->|]; cbn; [by rewrite Hb|]. unfold off in IH. by rewrite IH.
Qed.
Lemma off_cons {A} b ids (d : list (string * A)) : off (b :: ids) d = off ids (ddel b d).
Proof.
  induction d as [|[k v] d IH]; [done|]. unfold off, ddel in *. cbn -[str_in]. unfold str_in at 1. cbn [existsb].
  rewrite (String.eqb_sym k b). destruct (String.eqb b k); cbn -[str_in]; [done|]. fold (str_in k ids). by rewrite IH.
Qed.

(** * The invariant of an instance, and an emulation under way *)

(** Current decision points were issued: they have numbers below the counter. *)
Definition numbered (d : DecisionPointRegistry.t) : Prop := forall b x, DecisionPointRegistry._current d !! b = Some x ->
  exists n, (n < DecisionPointRegistry._counter d)%N /\ x = DecisionPointRegistry.decision_point_id b n.

Lemma numbered_issue d b : numbered d -> numbered (DecisionPointRegistry.issue b d).2.
Proof.
  intros H x y. cbn. destruct (decide (b = x)) as [->|Hne].
  - rewrite lookup_insert_eq. intros [= <-]. eexists. split; [|reflexivity]. lia.
  - rewrite lookup_insert_ne by done. intros (n & Hn & ->)%H. exists n. split; [lia|done].
Qed.
Lemma numbered_clear d b : numbered d -> numbered (DecisionPointRegistry.clear b d).2.
Proof. intros H x y. cbn. intros [_ Hx]%lookup_delete_Some. by apply H. Qed.

Section Laws.
Context (json_loads : string -> Res pyval) (format_exc : pyexn -> string) (work_item_for_ipc : WorkItem -> WorkItem)
  (draws : nat).
Context {S W : Type} {HS : CombatSession S} {HH : CombatHost S W}.
Implicit Types (i : CombatInstance S) (st : @Combat.St S W).

Definition manager_of i : Manager := _branch_manager (_phase i).
Definition table_of i : RngHypothesisTable.t := _rng_table (_phase i).
Definition points_of i : gmap string string := DecisionPointRegistry._current (_decision_points i).

(** Public branches are registered, are not the root and own distinct internal
    branches the manager knows; only registered branches have a current
    decision point. *)
Record instance_inv i : Prop := {
  ii_manager : mgr_ok (manager_of i);
  ii_books : NoDup (dkeys (_bookkeeping i));
  ii_owned : forall b k, dget b (_bookkeeping i) = Some k ->
    b ∈ _branch_ids i /\ b <> ROOT_BRANCH_ID /\ known (internal_id k) (manager_of i);
  ii_distinct : forall b b' k k', dget b (_bookkeeping i) = Some k -> dget b' (_bookkeeping i) = Some k' ->
    internal_id k = internal_id k' -> b = b';
  ii_points : forall b, is_Some (points_of i !! b) -> b ∈ _branch_ids i;
  ii_root : ROOT_BRANCH_ID ∈ _branch_ids i;
  ii_numbered : numbered (_decision_points i);
  ii_table : RngTable.wf (table_of i);
}.

(** What clients see of the committed line, and whether the instance is closed. *)
Definition committed_part i : string * list pyval * HistoryBuilder.t * bool :=
  (instance_id i, _root_branch_log i, _root_history i, _closed i).

(** [i] is [i0] in the middle of an emulation of the public branches [names],
    which added the internal branches [new]. *)
Record emulating (names : list string) i0 (new : list string) i : Prop := {
  em_manager : grown new (manager_of i0) (manager_of i);
  em_table : exists keys, table_of i = RngTable.alloc keys (table_of i0);
  em_phase : same_root (_phase i0) (_phase i) /\ _pool (_phase i) = _pool (_phase i0);
  em_committed : committed_part i = committed_part i0;
  em_ids : (forall b, b ∈ _branch_ids i0 -> b ∈ _branch_ids i) /\
    forall b, b ∈ _branch_ids i -> b ∈ _branch_ids i0 \/ b ∈ names;
  em_books : off names (_bookkeeping i) = _bookkeeping i0;
  em_nodup : NoDup (dkeys (_bookkeeping i));
  em_own : forall b k, b ∈ names -> dget b (_bookkeeping i) = Some k -> b ∈ _branch_ids i /\ internal_id k ∈ new;
  em_distinct : forall b b' k k', b ∈ names -> b' ∈ names -> dget b (_bookkeeping i) = Some k ->
    dget b' (_bookkeeping i) = Some k' -> internal_id k = internal_id k' -> b = b';
  em_points : forall b, b ∉ names -> points_of i !! b = points_of i0 !! b;
  em_own_points : forall b, b ∈ names -> is_Some (points_of i !! b) -> b ∈ _branch_ids i;
  em_numbered : numbered (_decision_points i);
}.

(** The names of an emulation were never used. *)
Definition unused_names (names : list string) i : Prop := forall b, b ∈ names -> b ∉ _branch_ids i.

Lemma emulating_start names i : instance_inv i -> unused_names names i -> emulating names i [] i.
Proof.
  intros [O N K D P R U T] Hu. constructor; try done.
  - by apply grown_refl.
  - by exists [].
  - split; [done|]. by left.
  - apply off_fresh. intros b Hb Hin. apply dmem_keys in Hin. unfold dmem in Hin.
    destruct (dget b (_bookkeeping i)) as [k|] eqn:E; [|done]. by apply (Hu b Hb), (K b k).
  - intros b k Hb Hk. by destruct (Hu b Hb); eapply K.
  - intros b b' k k' Hb _ Hk. by destruct (Hu b Hb); eapply K.
  - intros b Hb Hp. by destruct (Hu b Hb); apply P.
Qed.

Lemma em_old_book names i0 new i b : emulating names i0 new i -> b ∉ names -> dget b (_bookkeeping i) = dget b (_bookkeeping i0).
Proof. intros H Hb. by rewrite <- (em_books _ _ _ _ H), dget_off. Qed.

Lemma emulating_inv names i0 new i :
  instance_inv i0 -> unused_names names i0 -> emulating names i0 new i -> instance_inv i.
Proof.
  intros [O N K D P R U T] Hu H. pose proof (em_manager _ _ _ _ H) as Hg.
  assert (Hold : forall b k, b ∉ names -> dget b (_bookkeeping i) = Some k -> dget b (_bookkeeping i0) = Some k)
    by (intros b k Hb Hk; by rewrite <- (em_old_book _ _ _ _ _ H Hb)).
  constructor.
  - apply Hg.
  - apply H.
  - intros b k Hk. destruct (decide (b ∈ names)) as [Hb|Hb].
    + destruct (em_own _ _ _ _ H b k Hb Hk) as [Hid Hn]. split_and!; [done| |apply (gr_known _ _ _ Hg); by right].
      intros ->. by apply (Hu _ Hb).
    + destruct (K b k (Hold b k Hb Hk)) as (H1 & H2 & H3). split_and!; [by apply H|done|apply (gr_known _ _ _ Hg); by left].
  - intros b b' k k' Hk Hk' He. destruct (decide (b ∈ names)) as [Hb|Hb], (decide (b' ∈ names)) as [Hb'|Hb'].
    + by eapply (em_distinct _ _ _ _ H).
    + destruct (em_own _ _ _ _ H b k Hb Hk) as [_ Hn]. destruct (K b' k' (Hold _ _ Hb' Hk')) as (_ & _ & Hkn).
      rewrite He in Hn. by destruct (gr_fresh _ _ _ Hg _ Hn).
    + destruct (em_own _ _ _ _ H b' k' Hb' Hk') as [_ Hn]. destruct (K b k (Hold _ _ Hb Hk)) as (_ & _ & Hkn).
      rewrite <- He in Hn. by destruct (gr_fresh _ _ _ Hg _ Hn).
    + eapply D; [by apply Hold|by apply Hold|done].
  - intros b Hp. destruct (decide (b ∈ names)) as [Hb|Hb]; [by apply (em_own_points _ _ _ _ H)|].
    rewrite (em_points _ _ _ _ H b Hb) in Hp. by apply H, P.
  - by apply H.
  - apply H.
  - destruct (em_table _ _ _ _ H) as [keys ->]. by apply RngTable.wf_alloc.
Qed.

(** * Steps of an emulation *)

Section Steps.
Context (names : list string) (i0 : CombatInstance S).
Local Notation em := (emulating names i0).

Lemma em_grow new new' i m :
  em new i -> grown new' (manager_of i0) m -> (forall b, b ∈ new -> b ∈ new') ->
  em new' (Combat.with_phase (with_manager m (_phase i)) i).
Proof.
  intros [G T P C I B N O D Q R U] Hg Hsub. constructor; try done.
  intros b k Hb Hk. destruct (O b k Hb Hk). auto.
Qed.
Lemma em_alloc new i key :
  em new i -> em new (Combat.with_phase (with_table
    (RngHypothesisTable.hypothesis_index_for key.1.1 key.1.2 key.2 (table_of i)).2 (_phase i)) i).
Proof.
  intros [G [keys T] P C I B N O D Q R U]. constructor; try done. exists (keys ++ [key]).
  by rewrite RngTable.alloc_snoc, <- T.
Qed.
Lemma em_register new i b : em new i -> b ∈ names -> em new (Combat.with_ids (_branch_ids i ∪ {[b]}) i).
Proof.
  intros [G T P C [I1 I2] B N O D Q R U] Hb. constructor; try done; cbn.
  - split; [set_solver|]. intros x. rewrite elem_of_union, elem_of_singleton. intros [?| ->]; auto.
  - intros x k Hx Hk. destruct (O x k Hx Hk). split; [set_solver|done].
  - intros x Hx Hp. specialize (R x Hx Hp). set_solver.
Qed.
Lemma em_issue new i b :
  em new i -> b ∈ names -> b ∈ _branch_ids i ->
  em new (Combat.with_points (DecisionPointRegistry.issue b (_decision_points i)).2 i).
Proof.
  intros [G T P C I B N O D Q R U] Hb Hid. constructor; try done; unfold points_of in *; cbn.
  - intros x Hx. rewrite lookup_insert_ne; [by apply Q|]. by intros <-.
  - intros x Hx Hp. destruct (decide (x = b)) as [->|Hne]; [done|].
    rewrite lookup_insert_ne in Hp by done. by apply R.
  - by apply numbered_issue.
Qed.
Lemma em_set_book new i b k :
  em new i -> b ∈ names -> b ∈ _branch_ids i -> internal_id k ∈ new ->
  (forall b' k', b' ∈ names -> b' <> b -> dget b' (_bookkeeping i) = Some k' -> internal_id k' <> internal_id k) ->
  em new (Combat.with_books (dset b k (_bookkeeping i)) i).
Proof.
  intros [G T P C I B N O D Q R U] Hb Hid Hn Hother. constructor; try done; cbn.
  - exact (eq_trans (off_dset names b k (_bookkeeping i) Hb) B).
  - by apply NoDup_dkeys_dset.
  - intros x kx Hx. rewrite dget_dset. destruct (String.eqb_spec x b) as [->|]; [by intros [= <-]|by apply O].
  - intros x y kx ky Hx Hy. rewrite !dget_dset.
    destruct (String.eqb_spec x b) as [->|Hxb], (String.eqb_spec y b) as [->|Hyb]; try done.
    + intros [= <-] Hky He. by destruct (Hother y ky).
    + intros Hkx [= <-] He. by destruct (Hother x kx).
    + by apply D.
Qed.
Lemma em_update_book new i b k f :
  em new i -> b ∈ names -> dget b (_bookkeeping i) = Some k -> internal_id (f k) = internal_id k ->
  em new (Combat.with_books (dset b (f k) (_bookkeeping i)) i).
Proof.
  intros H Hb Hk Hf. destruct (em_own _ _ _ _ H b k Hb Hk) as [Hid Hn]. apply em_set_book; try done.
  - by rewrite Hf.
  - intros b' k' Hb' Hne Hk' He. apply Hne. rewrite Hf in He. by eapply (em_distinct _ _ _ _ H).
Qed.

(** Registered names and books stay. *)
Definition kept i i' : Prop := _branch_ids i' = _branch_ids i /\ dkeys (_bookkeeping i') = dkeys (_bookkeeping i).

Lemma kept_refl i : kept i i.
Proof. by split. Qed.
Lemma kept_trans i1 i2 i3 : kept i1 i2 -> kept i2 i3 -> kept i1 i3.
Proof. intros [H1 H2] [H3 H4]. split; congruence. Qed.
Lemma kept_book b i i' k : kept i i' -> dget b (_bookkeeping i) = Some k -> exists k', dget b (_bookkeeping i') = Some k'.
Proof.
  intros [_ Hk] Hb. assert (Hm : dmem b (_bookkeeping i') = true).
  { apply dmem_keys. rewrite Hk. apply dmem_keys. unfold dmem. by rewrite Hb. }
  unfold dmem in Hm. destruct (dget b (_bookkeeping i')) as [k'|]; [by exists k'|done].
Qed.

Lemma update_book_run b f k i (w : W) :
  dget b (_bookkeeping i) = Some k ->
  Combat.update_book b f (i, w) = (Ok tt, (Combat.with_books (dset b (f k) (_bookkeeping i)) i, w)).
Proof. intros H. unfold Combat.update_book, Combat.update, modS. cbn. by rewrite H. Qed.
Lemma kept_update b f k i : dget b (_bookkeeping i) = Some k -> kept i (Combat.with_books (dset b (f k) (_bookkeeping i)) i).
Proof.
  intros H. split; [done|]. change (dkeys (dset b (f k) (_bookkeeping i)) = dkeys (_bookkeeping i)).
  rewrite dkeys_dset. unfold dmem. by rewrite H.
Qed.

(** Registered names with a book. *)
Definition booked b i : Prop := b ∈ _branch_ids i /\ exists k, dget b (_bookkeeping i) = Some k.
Lemma booked_kept b i i' : kept i i' -> booked b i -> booked b i'.
Proof. intros Hk [H1 [k H2]]. split; [by destruct Hk as [-> _]|by eapply kept_book]. Qed.

Lemma em_update_and_issue new i b f (w : W) :
  em new i -> b ∈ names -> booked b i -> (forall k, internal_id (f k) = internal_id k) ->
  exists i', (_ ← Combat.update_book b f; Combat.on_points (DecisionPointRegistry.issue b)) (i, w) =
    (Ok (DecisionPointRegistry.decision_point_id b (DecisionPointRegistry._counter (_decision_points i))), (i', w)) /\
    em new i' /\ kept i i'.
Proof.
  intros H Hb [Hid [k Hk]] Hf. erewrite M_run_Ok by (by apply update_book_run).
  eexists. split; [reflexivity|]. split; [|by eapply kept_trans; [apply kept_update|]].
  apply (em_issue new (Combat.with_books (dset b (f k) (_bookkeeping i)) i) b); [by apply em_update_book|done|done].
Qed.

Lemma publish_posts new i b parent rng log view (w : W) :
  em new i -> b ∈ names -> booked b i ->
  posts (Combat.publish_view b parent rng log view) (i, w) (fun _ st' => em new st'.1 /\ kept i st'.1) (fun st' => em new st'.1).
Proof.
  intros H Hb Hk. destruct (em_update_and_issue new i b (set_view (Some view)) w H Hb Hk) as (i' & Hrun & H' & Hkept); [done|].
  apply M_bind_Ok in Hrun as (u & st1 & Hr1 & Hr2). unfold Combat.publish_view.
  eapply posts_step; [exact Hr1|]. eapply posts_step; [exact Hr2|]. eapply posts_step; [reflexivity|].
  eapply posts_bind; [apply (liftR_posts _ _ (fun _ st' => st' = (i', w))); [done|exact H']|]. intros fields st' ->. by apply posts_ret.
Qed.

Lemma finalize_posts new i b parent rng log result (w : W) :
  em new i -> b ∈ names -> booked b i ->
  posts (Combat._finalize_branch_result b parent rng log result) (i, w)
    (fun _ st' => em new st'.1 /\ kept i st'.1) (fun st' => em new st'.1).
Proof.
  intros H Hb Hk. unfold Combat._finalize_branch_result. destruct (negb _); [by apply posts_ret|].
  destruct (result_signature result) as [signature|]; [|by apply posts_raise].
  destruct (String.eqb _ BOUNDARY_PENDING).
  { destruct (pending_decision_context result); [by apply publish_posts|by apply posts_raise]. }
  destruct (String.eqb _ BOUNDARY_STABLE).
  { destruct (next_decision_result result); [by apply publish_posts|].
    eapply posts_step; [reflexivity|]. apply posts_raise. apply em_issue; [done|done|apply Hk]. }
  destruct (String.eqb _ BOUNDARY_TERMINAL); [|by apply posts_raise].
  eapply posts_bind; [apply (liftR_posts _ _ (fun _ st' => st' = (i, w))); [done|exact H]|]. intros o st' ->.
  destruct (em_update_and_issue new i b (fun b => set_view None (set_outcome o b)) w H Hb Hk) as (i' & Hrun & H' & Hkept); [done|].
  apply M_bind_Ok in Hrun as (u & st1 & Hr1 & Hr2).
  eapply posts_step; [exact Hr1|]. eapply posts_step; [exact Hr2|]. eapply posts_step; [reflexivity|].
  eapply posts_bind; [apply (liftR_posts _ _ (fun _ st' => st' = (i', w))); [done|exact H']|]. intros dto st' ->. by apply posts_ret.
Qed.

(** The phase's branches and hypotheses. *)
Lemma on_branches_posts {A} (c : M Manager A) i (w : W) (Q : A -> @Combat.St S W -> Prop) (E : @Combat.St S W -> Prop) :
  posts c (manager_of i) (fun a m => Q a (Combat.with_phase (with_manager m (_phase i)) i, w))
    (fun m => E (Combat.with_phase (with_manager m (_phase i)) i, w)) ->
  posts (Combat.on_phase (with_branches c)) (i, w) Q E.
Proof. unfold posts, Combat.on_phase, with_branches, manager_of. cbn. by destruct (c (_branch_manager (_phase i))) as [[a|e] m]. Qed.

Lemma build_posts i new context chosen parent decision rng (w : W) :
  em new i ->
  posts (Combat.on_phase (build_work_item json_loads draws context chosen parent decision rng)) (i, w)
    (fun _ st' => em new st'.1 /\ _branch_ids st'.1 = _branch_ids i /\ _bookkeeping st'.1 = _bookkeeping i)
    (fun st' => em new st'.1).
Proof.
  intros H. unfold posts, Combat.on_phase, build_work_item, mbind, M_bind, liftR. cbn -[RngHypothesisTable.hypothesis_index_for].
  assert (Hsame : em new (Combat.with_phase (_phase i) i)) by (by destruct i).
  destruct (_target_params chosen) as [targets|]; [|exact Hsame].
  destruct (_semantic_action_for chosen) as [action|]; [|exact Hsame].
  unfold with_hypotheses. pose proof (em_alloc new i (parent, decision, rng) H) as H'. cbn [fst snd] in H'. unfold table_of in H'.
  destruct (RngHypothesisTable.hypothesis_index_for parent decision rng (_rng_table (_phase i))) as [[index|e] t]; [|exact H'].
  cbn [snd] in H'. destruct (build_single_hypothesis_work_item _ _ _ _ _ _) as [[w0|]|]; first [exact H'|exact (conj H' (conj eq_refl eq_refl))].
Qed.

Lemma em_submit_posts entries i (w : W) :
  em [] i ->
  posts (Combat.on_phase (phase_submit_many entries)) (i, w)
    (fun ids st' => em ids st'.1 /\ length ids = length entries /\ NoDup ids /\
       _branch_ids st'.1 = _branch_ids i /\ _bookkeeping st'.1 = _bookkeeping i)
    (fun st' => em [] st'.1).
Proof.
  intros H. apply on_branches_posts. pose proof (em_manager _ _ _ _ H) as Hg.
  eapply posts_weaken; [apply submit_many_grown, Hg| |].
  - intros ids m (Hgrown & Hlen & Hnd). split_and!; [|done|done|done|done].
    eapply em_grow; [exact H|by eapply grown_trans|by intros b ?%elem_of_nil].
  - intros m ->. eapply em_grow; [exact H|exact Hg|done].
Qed.

Lemma poll_keeps new timeout i (w : W) :
  em new i ->
  posts (Combat.on_phase_world (phase_poll format_exc work_item_for_ipc timeout new)) (i, w)
    (fun _ st' => em new st'.1 /\ kept i st'.1) (fun st' => em new st'.1).
Proof.
  intros H. unfold posts, Combat.on_phase_world, phase_poll. cbn [fst snd].
  destruct (queue_events _ _ _ _) as [[[events submitted_at] late] w']. unfold with_branches.
  pose proof (poll_grown work_item_for_ipc (requires_ipc (_pool (_phase i))) format_exc submitted_at timeout
    (events ++ repeat (QueueEmpty late) (2 * length (records (_branch_manager (_phase i))) + 1)) new _ _ (em_manager _ _ _ _ H)) as Hp.
  unfold posts, manager_of in Hp. destruct (poll _ _ _ _ _ _ _ (_branch_manager (_phase i))) as [[out|e] m].
  - split; [by eapply em_grow|done].
  - by eapply em_grow.
Qed.

(** A state of the body of a [try], with the internal ids it has assigned. *)
Definition em_local (l : @Combat.Local S W) : Prop := em l.2 l.1.1.

Lemma inst_posts {A} (c : M (@Combat.St S W) A) (l : @Combat.Local S W) (Q : A -> @Combat.Local S W -> Prop) (E : @Combat.Local S W -> Prop) :
  posts c l.1 (fun a st' => Q a (st', l.2)) (fun st' => E (st', l.2)) -> posts (Combat.inst c) l Q E.
Proof. unfold posts, Combat.inst. by destruct (c l.1) as [[a|e] st']. Qed.

Lemma lift_local {A} (r : Res A) (l : @Combat.Local S W) Q :
  em_local l -> (forall a, r = Ok a -> Q a l) -> posts (liftR r) l Q em_local.
Proof. intros H Hq. by apply liftR_posts. Qed.

Lemma emulate_body_posts b parent rng dp action opts context chosen i (w : W) :
  names = [b] -> em [] i -> b ∈ _branch_ids i ->
  posts (Combat.emulate_body json_loads format_exc work_item_for_ipc draws parent b rng dp action opts context chosen)
    ((i, w), [])
    (fun r l => em_local l /\ (is_some r = true -> booked b l.1.1)) em_local.
Proof.
  intros Hn H Hid. assert (Hb : b ∈ names) by (rewrite Hn; by left). unfold Combat.emulate_body.
  eapply (posts_bind _ _ _ (fun _ l => em [] l.1.1 /\ _branch_ids l.1.1 = _branch_ids i /\ l.2 = [])).
  { apply inst_posts. eapply posts_weaken; [apply build_posts, H| |done]. intros a st' (? & ? & _). done. }
  intros [w0|] [[i1 w1] ids1]; cbn [fst snd]; intros (H1 & E1 & ->); [|by apply posts_ret].
  eapply posts_step; [reflexivity|]. cbn [fst].
  eapply posts_bind; [apply (lift_local _ _ (fun _ l => l = ((i1, w1), []))); [exact H1|done]|]. intros pb l ->.
  eapply (posts_bind _ _ _ (fun ids l => em ids l.1.1 /\ length ids = 1%nat /\ _branch_ids l.1.1 = _branch_ids i1)).
  { apply inst_posts. unfold phase_submit, submit. eapply posts_weaken; [apply em_submit_posts, H1| |done].
    intros ids st' (? & ? & _ & ? & _). done. }
  intros [|internal [|? ?]] [[i2 w2] ids2]; cbn [fst snd]; intros (H2 & Hlen & E2); try discriminate Hlen.
  eapply posts_step; [reflexivity|]. eapply posts_step; [reflexivity|]. cbn [fst snd].
  eapply posts_bind; [apply (lift_local _ _ (fun _ l => l = ((i2, w2), [internal]))); [exact H2|done]|]. intros line l ->.
  eapply posts_step; [reflexivity|].
  set (book := new_book internal parent _ _ rng). set (i3 := Combat.with_books (dset b book (_bookkeeping i2)) i2).
  assert (H3 : em [internal] i3).
  { apply em_set_book; [done|done|by rewrite E2, E1|by left|]. intros b' k' Hb' Hne. exfalso. apply Hne.
    rewrite Hn in Hb'. by apply list_elem_of_singleton in Hb'. }
  assert (Hk3 : booked b i3).
  { split; [cbn; by rewrite E2, E1|]. exists book. cbn. by rewrite dget_dset, String.eqb_refl. }
  eapply posts_bind; [apply (lift_local _ _ (fun _ l => l = ((i3, w2), [internal]))); [exact H3|done]|]. intros timeout l ->.
  eapply (posts_bind _ _ _ (fun _ l => em [internal] l.1.1 /\ kept i3 l.1.1 /\ l.2 = [internal])).
  { apply inst_posts. eapply posts_weaken; [apply poll_keeps, H3| |done]. by intros a st' []. }
  intros [results|] [[i4 w4] ids4]; cbn [fst snd]; intros (H4 & Hk4 & ->); [|by apply posts_ret].
  pose proof (booked_kept _ _ _ Hk4 Hk3) as Hb4.
  destruct (dget internal results) as [result|]; [|by apply posts_ret].
  eapply (posts_bind _ _ _ (fun _ l => em [internal] l.1.1 /\ kept i4 l.1.1 /\ l.2 = [internal])).
  { apply inst_posts. eapply posts_weaken; [by apply finalize_posts| |done]. by intros a st' []. }
  intros response [[i5 w5] ids5]; cbn [fst snd]; intros (H5 & Hk5 & ->). apply posts_ret. split; [exact H5|].
  intros _. by eapply booked_kept.
Qed.

(** * The batch *)

Lemma prepare_posts admitted : forall i (w : W),
  em [] i ->
  posts (Combat.prepare_each json_loads draws admitted) (i, w)
    (fun r st' => em [] st'.1 /\ _branch_ids st'.1 = _branch_ids i /\ _bookkeeping st'.1 = _bookkeeping i /\
       forall l, r = Some l -> map Combat.pr_item l = map Combat.admitted_item admitted)
    (fun st' => em [] st'.1).
Proof.
  induction admitted as [|a rest IH]; intros i w H; cbn [Combat.prepare_each].
  { apply posts_ret. split_and!; [done|done|done|]. by intros l [= <-]. }
  eapply posts_bind; [apply build_posts, H|]. intros [w0|] [i1 w1]; cbn [fst]; intros (H1 & E1 & B1); [|by apply posts_ret].
  eapply posts_step; [reflexivity|].
  eapply posts_bind; [apply (liftR_posts _ _ (fun _ st => st = (i1, w1))); [done|exact H1]|]. intros parent st' ->.
  eapply posts_bind; [apply (liftR_posts _ _ (fun _ st => st = (i1, w1))); [done|exact H1]|]. intros line st' ->.
  eapply posts_bind; [apply IH, H1|]. intros r [i2 w2]; cbn [fst]; intros (H2 & E2 & B2 & Hr). apply posts_ret.
  cbn [fst]. split_and!; [exact H2|congruence|congruence|]. destruct r as [l|]; [|done]. intros l' [= <-]. cbn. by rewrite (Hr l).
Qed.

Lemma register_posts new items : forall i (w : W),
  em new i -> (forall item, item ∈ items -> Combat.it_branch_id item ∈ names) ->
  posts (Combat.register_each items) (i, w)
    (fun _ st' => em new st'.1 /\ _bookkeeping st'.1 = _bookkeeping i /\
       (forall b, b ∈ _branch_ids i -> b ∈ _branch_ids st'.1) /\
       forall item, item ∈ items -> Combat.it_branch_id item ∈ _branch_ids st'.1)
    (fun st' => em new st'.1).
Proof.
  induction items as [|item rest IH]; intros i w H Hin; cbn [Combat.register_each].
  { apply posts_ret. split_and!; [done|done|done|]. by intros item ?%elem_of_nil. }
  set (b := Combat.it_branch_id item) in *. assert (Hb : b ∈ names) by (apply Hin; by left).
  eapply (posts_bind _ _ _ (fun _ st => st = (Combat.with_ids (_branch_ids i ∪ {[b]}) i, w))).
  { unfold posts, Combat.on_branch_ids, BranchIdRegistry.register. cbn. case_bool_decide; [|done]. by destruct i. }
  intros u st' ->. eapply posts_weaken; [apply IH; [by apply em_register|]| |done].
  { intros x Hx. apply Hin. by right. }
  intros u' [i2 w2]; cbn [fst]. intros (H2 & B2 & K2 & R2). split_and!; [done|done| |].
  - intros x Hx. apply K2. cbn. set_solver.
  - intros x [->|Hx]%elem_of_cons; [apply K2; cbn; set_solver|by apply R2].
Qed.

Lemma book_posts new (pending : list (Combat.Prepared * string)) : forall i (w : W),
  em new i -> NoDup (map snd pending) ->
  (forall p x, (p, x) ∈ pending -> x ∈ new /\ Combat.it_branch_id (Combat.pr_item p) ∈ names /\
     Combat.it_branch_id (Combat.pr_item p) ∈ _branch_ids i) ->
  (forall b k, b ∈ names -> dget b (_bookkeeping i) = Some k -> internal_id k ∉ map snd pending) ->
  posts (Combat.book_each pending) (i, w)
    (fun _ st' => em new st'.1 /\ (forall b, booked b i -> booked b st'.1) /\
       forall p x, (p, x) ∈ pending -> booked (Combat.it_branch_id (Combat.pr_item p)) st'.1)
    (fun st' => em new st'.1).
Proof.
  induction pending as [|[p x] rest IH]; intros i w H Hnd Hp Hfresh; cbn [Combat.book_each].
  { apply posts_ret. split_and!; [done|done|]. by intros p x ?%elem_of_nil. }
  apply NoDup_cons in Hnd as [Hx Hnd]. destruct (Hp p x) as (Hxn & Hb & Hid); [by left|].
  set (b := Combat.it_branch_id (Combat.pr_item p)) in *. eapply posts_step; [reflexivity|].
  set (book := new_book x _ _ _ _). set (i1 := Combat.with_books (dset b book (_bookkeeping i)) i).
  assert (H1 : em new i1).
  { apply em_set_book; [done|done|done|done|]. intros b' k' Hb' _ Hk' He. apply (Hfresh b' k' Hb' Hk'). rewrite He. by left. }
  assert (Hk1 : forall y, booked y i -> booked y i1).
  { intros y [? [k Hk]]. split; [done|]. cbn. rewrite dget_dset. destruct (String.eqb y b); by eexists. }
  eapply posts_weaken; [apply IH; [exact H1|done| |]| |done].
  - intros q y Hq. apply (Hp q y). by right.
  - intros y k Hy. cbn. rewrite dget_dset. destruct (String.eqb_spec y b) as [->|]; [by intros [= <-]|].
    intros Hk Hin. apply (Hfresh y k Hy Hk). by right.
  - intros u [i2 w2]; cbn [fst]. intros (H2 & K2 & B2). split_and!; [done|auto|].
    intros q y [[= -> ->]|Hq]%elem_of_cons; [|by eapply B2]. apply K2. split; [done|].
    exists book. cbn. by rewrite dget_dset, String.eqb_refl.
Qed.

Lemma finalize_each_posts new pending results : forall i (w : W),
  em new i ->
  (forall p x, (p, x) ∈ pending -> Combat.it_branch_id (Combat.pr_item p) ∈ names /\ booked (Combat.it_branch_id (Combat.pr_item p)) i) ->
  posts (Combat.finalize_each pending results) (i, w) (fun _ st' => em new st'.1 /\ kept i st'.1) (fun st' => em new st'.1).
Proof.
  induction pending as [|[p x] rest IH]; intros i w H Hp; cbn [Combat.finalize_each]; [by apply posts_ret|].
  destruct (Hp p x) as [Hb Hk]; [by left|]. destruct (dget x results) as [result|]; [|by apply posts_raise].
  eapply posts_bind; [by apply finalize_posts|]. intros response [i1 w1]; cbn [fst]. intros [H1 Hk1].
  eapply posts_bind; [apply IH; [exact H1|]|].
  { intros q y Hq. destruct (Hp q y) as [? ?]; [by right|]. split; [done|by eapply booked_kept]. }
  intros rs [i2 w2]; cbn [fst]. intros [H2 Hk2]. apply posts_ret. split; [done|by eapply kept_trans].
Qed.

Lemma emulate_batch_posts opts admitted i (w : W) :
  names = map (fun a => Combat.it_branch_id (Combat.admitted_item a)) admitted -> em [] i ->
  posts (Combat.emulate_batch json_loads format_exc work_item_for_ipc draws opts admitted) ((i, w), [])
    (fun r l => em_local l /\ (is_some r = true -> forall b, b ∈ names -> booked b l.1.1)) em_local.
Proof.
  intros Hn H. unfold Combat.emulate_batch.
  eapply (posts_bind _ _ _ (fun r l => em [] l.1.1 /\ l.2 = [] /\ forall ps, r = Some ps -> map Combat.pr_item ps = map Combat.admitted_item admitted)).
  { apply inst_posts. eapply posts_weaken; [apply prepare_posts, H| |done]. intros r st' (? & _ & _ & ?). done. }
  intros [ps|] [[i1 w1] ids1]; cbn [fst snd]; intros (H1 & -> & Hps); [|by apply posts_ret]. specialize (Hps ps eq_refl).
  eapply (posts_bind _ _ _ (fun ids l => em ids l.1.1 /\ length ids = length ps /\ NoDup ids /\ _bookkeeping l.1.1 = _bookkeeping i1)).
  { apply inst_posts. eapply posts_weaken; [apply em_submit_posts, H1| |done].
    intros ids st' (? & Hlen & ? & _ & ?). rewrite length_map in Hlen. done. }
  intros ids [[i2 w2] ids2]; cbn [fst snd]; intros (H2 & Hlen & Hnd & B2). eapply posts_step; [reflexivity|]. cbn [fst snd].
  rewrite Hlen, Nat.eqb_refl. cbn [negb]. set (pending := zip ps ids).
  assert (Hsnd : map snd pending = ids) by (apply snd_zip; lia).
  assert (Hpend : forall p x, (p, x) ∈ pending -> x ∈ ids /\ Combat.it_branch_id (Combat.pr_item p) ∈ names /\
    Combat.pr_item p ∈ map Combat.admitted_item admitted).
  { intros p x Hp. pose proof (elem_of_zip_l _ _ _ _ Hp) as Hl. pose proof (elem_of_zip_r _ _ _ _ Hp) as Hr.
    assert (Hi : Combat.pr_item p ∈ map Combat.admitted_item admitted) by (rewrite <- Hps; apply list_elem_of_fmap; by exists p).
    split_and!; [done| |done]. rewrite Hn. apply list_elem_of_fmap in Hi as (a & -> & Ha). apply list_elem_of_fmap. by exists a. }
  eapply (posts_bind _ _ _ (fun _ l => em ids l.1.1 /\ _bookkeeping l.1.1 = _bookkeeping i2 /\ l.2 = ids /\
    forall item, item ∈ map Combat.admitted_item admitted -> Combat.it_branch_id item ∈ _branch_ids l.1.1)).
  { apply inst_posts. eapply posts_weaken; [apply register_posts; [exact H2|]| |done].
    - intros item (a & -> & Ha)%list_elem_of_fmap. rewrite Hn. apply list_elem_of_fmap. by exists a.
    - intros u st' (? & ? & _ & ?). done. }
  intros u [[i3 w3] ids3]; cbn [fst snd]; intros (H3 & B3 & -> & R3).
  eapply (posts_bind _ _ _ (fun _ l => em ids l.1.1 /\ l.2 = ids /\
    forall p x, (p, x) ∈ pending -> booked (Combat.it_branch_id (Combat.pr_item p)) l.1.1)).
  { apply inst_posts. eapply posts_weaken; [apply book_posts; [exact H3|by rewrite Hsnd| |]| |done].
    - intros p x Hp. destruct (Hpend p x Hp) as (? & ? & ?). by split_and!; [| |apply R3].
    - intros b k Hb Hk _. rewrite B3, B2 in Hk. destruct (em_own _ _ _ _ H1 b k Hb Hk) as [_ ?]. by apply (elem_of_nil (internal_id k)).
    - intros v st' (? & _ & ?). done. }
  intros v [[i4 w4] ids4]; cbn [fst snd]; intros (H4 & -> & B4).
  eapply posts_bind; [apply (lift_local _ _ (fun _ l => l = ((i4, w4), ids))); [exact H4|done]|]. intros timeout l ->.
  eapply (posts_bind _ _ _ (fun _ l => em ids l.1.1 /\ kept i4 l.1.1 /\ l.2 = ids)).
  { apply inst_posts. eapply posts_weaken; [apply poll_keeps, H4| |done]. by intros a st' []. }
  intros [results|] [[i5 w5] ids5]; cbn [fst snd]; intros (H5 & Hk5 & ->); [|by apply posts_ret].
  eapply (posts_bind _ _ _ (fun _ l => em ids l.1.1 /\ kept i5 l.1.1 /\ l.2 = ids)).
  { apply inst_posts. eapply posts_weaken; [apply finalize_each_posts; [exact H5|]| |done]; [|by intros a st' []].
    intros p x Hp. destruct (Hpend p x Hp) as (_ & ? & _). split; [done|]. eapply booked_kept; [exact Hk5|by eapply B4]. }
  intros rs [[i6 w6] ids6]; cbn [fst snd]; intros (H6 & Hk6 & ->). apply posts_ret. split; [exact H6|]. intros _ b Hb.
  eapply booked_kept; [exact Hk6|]. eapply booked_kept; [exact Hk5|].
  rewrite Hn in Hb. apply list_elem_of_fmap in Hb as (a & -> & Ha).
  assert (Hi : Combat.admitted_item a ∈ map Combat.pr_item ps) by (rewrite Hps; apply list_elem_of_fmap; by exists a).
  apply list_elem_of_fmap in Hi as (p & -> & Hp). apply list_elem_of_lookup in Hp as [n Hp].
  destruct (lookup_lt_is_Some_2 ids n) as [x Hx]; [rewrite Hlen; by eapply lookup_lt_Some|].
  apply (B4 p x). apply list_elem_of_lookup. exists n. by apply lookup_zip_Some.
Qed.

(** * The cleanup of a failed emulation *)

Lemma attempt_cancel new i (w : W) :
  em new i -> exists i', Combat.attempt (Combat.on_phase (phase_cancel new)) (i, w) = (Ok [], (i', w)) /\ em new i'.
Proof.
  intros H. destruct (cancel_grown _ _ _ (em_manager _ _ _ _ H)) as (v & m & Hrun & Hg).
  exists (Combat.with_phase (with_manager m (_phase i)) i). split; [|by eapply em_grow].
  unfold Combat.attempt, Combat.on_phase, phase_cancel, with_branches, tryM, mbind, M_bind. cbn -[BranchManager.cancel_branches].
  unfold manager_of in Hrun. by rewrite Hrun.
Qed.
Lemma attempt_release new i (w : W) :
  em new i -> exists i', Combat.attempt (Combat.on_phase (phase_release new)) (i, w) = (Ok [], (i', w)) /\ em new i' /\
    forall b, b ∈ new -> is_released b (manager_of i').
Proof.
  intros H. destruct (release_grown _ _ _ (em_manager _ _ _ _ H)) as (v & m & Hrun & Hg & Hr).
  exists (Combat.with_phase (with_manager m (_phase i)) i). split; [|by split; [eapply em_grow|]].
  unfold Combat.attempt, Combat.on_phase, phase_release, with_branches, tryM, mbind, M_bind. cbn -[BranchManager.release_branches].
  unfold manager_of in Hrun. by rewrite Hrun.
Qed.
End Steps.

Lemma forget_each_run ids : forall i (w : W), exists i', Combat.forget_each ids (i, w) = (Ok tt, (i', w)) /\
  _phase i' = _phase i /\ _branch_ids i' = _branch_ids i /\ committed_part i' = committed_part i /\
  _bookkeeping i' = off ids (_bookkeeping i) /\
  (numbered (_decision_points i) -> numbered (_decision_points i')) /\
  forall b, points_of i' !! b = if str_in b ids then None else points_of i !! b.
Proof.
  induction ids as [|x ids IH]; intros i w; cbn [Combat.forget_each].
  { exists i. split_and!; try done. symmetry. apply off_fresh. by intros b ?%elem_of_nil. }
  set (i1 := Combat.with_points (DecisionPointRegistry.clear x (_decision_points i)).2
               (Combat.with_books (ddel x (_bookkeeping i)) i)).
  destruct (IH i1 w) as (i' & Hrun & P & I & C & B & U & Q). exists i'. split_and!; [exact Hrun|exact P|exact I|exact C| | |].
  - by rewrite off_cons.
  - intros Hn. by apply U, numbered_clear.
  - intros b. rewrite Q. unfold points_of. cbn. rewrite (orb_comm (String.eqb b x)). fold (str_in b ids).
    destruct (str_in b ids); [done|]. cbn. destruct (String.eqb_spec b x) as [->|Hne]; [by rewrite lookup_delete_eq|].
    rewrite lookup_delete_ne; [done|]. by intros <-.
Qed.

(** [i'] publishes what [i] does: nothing of an emulation of [names] is left
    but used-up names and branches that are released. *)
Record no_trace (names : list string) i i' : Prop := {
  nt_books : _bookkeeping i' = _bookkeeping i;
  nt_points : points_of i' = points_of i;
  nt_table : table_of i' = table_of i;
  nt_phase : same_root (_phase i) (_phase i') /\ _pool (_phase i') = _pool (_phase i);
  nt_committed : committed_part i' = committed_part i;
  nt_ids : (forall b, b ∈ _branch_ids i -> b ∈ _branch_ids i') /\
    forall b, b ∈ _branch_ids i' -> b ∈ _branch_ids i \/ b ∈ names;
  nt_branches : exists new, grown new (manager_of i) (manager_of i') /\ forall b, b ∈ new -> is_released b (manager_of i');
}.

Lemma no_trace_refl names i : mgr_ok (manager_of i) -> no_trace names i i.
Proof.
  intros Hok. constructor; try done; [split; [done|by left]|]. exists []. split; [by apply grown_refl|]. by intros b ?%elem_of_nil.
Qed.
Lemma no_trace_registered names i b :
  mgr_ok (manager_of i) -> b ∈ names -> no_trace names i (Combat.with_ids (_branch_ids i ∪ {[b]}) i).
Proof.
  intros Hok Hb. destruct (no_trace_refl names i Hok) as [B Q T P C _ G]. constructor; try done; cbn.
  split; [set_solver|]. intros x. rewrite elem_of_union, elem_of_singleton. intros [?| ->]; auto.
Qed.

(** With nothing hidden left to stop, the original exception is raised and the
    instance stays open. *)
Lemma clean_up_run {A} operation names i0 new i e (w : W) :
  instance_inv i0 -> unused_names names i0 -> emulating names i0 new i ->
  exists i', @Combat.clean_up S W HS HH A operation names (snapshot_rng_hypotheses (_phase i0)) new e (i, w) = (Raise e, (i', w)) /\
    instance_inv i' /\ no_trace names i0 i'.
Proof.
  intros Hinv Hu H.
  assert (Hstop : exists i1, match new with
      | [] => mret []
      | _ => cancelled ← Combat.attempt (Combat.on_phase (phase_cancel new));
             released ← Combat.attempt (Combat.on_phase (phase_release new));
             mret (cancelled ++ released)
      end (i, w) = (Ok [], (i1, w)) /\ emulating names i0 new i1 /\ forall b, b ∈ new -> is_released b (manager_of i1)).
  { destruct new as [|x new']; [exists i; split; [done|]; split; [done|by intros b ?%elem_of_nil]|].
    destruct (attempt_cancel _ _ _ _ w H) as (i1 & Hr1 & H1). destruct (attempt_release _ _ _ _ w H1) as (i2 & Hr2 & H2 & Hrel).
    exists i2. split; [|by split]. erewrite M_run_Ok by exact Hr1. by erewrite M_run_Ok by exact Hr2. }
  destruct Hstop as (i1 & Hrun1 & H1 & Hrel). destruct (forget_each_run names i1 w) as (i2 & Hrun2 & P2 & I2 & C2 & B2 & U2 & Q2).
  destruct (em_table _ _ _ _ H1) as [keys Hkeys]. pose proof (ii_table _ Hinv) as Hwf.
  set (i3 := Combat.with_phase (with_table (table_of i0) (_phase i2)) i2). exists i3.
  assert (Hb3 : _bookkeeping i3 = _bookkeeping i0) by (cbn; rewrite B2; apply H1).
  assert (Hq3 : points_of i3 = points_of i0).
  { apply map_eq. intros b. change (points_of i3) with (points_of i2). rewrite Q2. destruct (str_in b names) eqn:Eb.
    - symmetry. apply eq_None_not_Some. intros Hp. apply (Hu b); [by apply str_in_elem|by apply (ii_points _ Hinv)].
    - apply (em_points _ _ _ _ H1). intros ?%str_in_elem. congruence. }
  assert (Hm3 : manager_of i3 = manager_of i1) by (unfold manager_of; cbn; by rewrite P2).
  assert (Hnt : no_trace names i0 i3).
  { constructor; [exact Hb3|exact Hq3|reflexivity| | | |].
    - cbn. rewrite P2. apply H1.
    - unfold committed_part in *. cbn. rewrite C2. apply H1.
    - cbn. rewrite I2. apply H1.
    - exists new. rewrite Hm3. split; [apply H1|done]. }
  split.
  - unfold Combat.clean_up. erewrite M_run_Ok by exact Hrun1. erewrite M_run_Ok by exact Hrun2.
    erewrite M_run_Ok with (a := tt) (s1 := (i3, w)); [done|].
    unfold Combat.on_phase, restore_rng_hypotheses, with_hypotheses, snapshot_rng_hypotheses. cbn [fst snd].
    replace (_rng_table (_phase i2)) with (RngTable.alloc keys (table_of i0)) by (rewrite P2; symmetry; exact Hkeys).
    unfold table_of at 1. fold (table_of i0). rewrite (restore_alloc (table_of i0) keys Hwf). done.
  - split; [|exact Hnt]. destruct Hinv as [O N K D P R U T]. destruct Hnt as [_ _ _ _ _ [I _] (news & G & _)]. constructor.
    + apply G.
    + by rewrite Hb3.
    + intros b k. rewrite Hb3. intros Hk. destruct (K b k Hk) as (? & ? & ?). split_and!; [by apply I|done|].
      apply (gr_known _ _ _ G). by left.
    + rewrite Hb3. exact D.
    + intros b. rewrite Hq3. intros Hp. by apply I, P.
    + by apply I.
    + apply U2, H1.
    + exact T.
Qed.

(** * Requests that only read *)

Lemma status_reads x i (w : W) : exists r, Combat.on_phase (branch_status x) (i, w) = (r, (i, w)).
Proof.
  unfold Combat.on_phase, branch_status, with_branches, mbind, M_bind. cbn [fst snd].
  assert (H : exists r, BranchManager.get_branch_status [x] (_branch_manager (_phase i)) = (r, _branch_manager (_phase i))).
  { unfold BranchManager.get_branch_status. cbn [status_loop]. unfold find_record, mbind, M_bind, getS.
    destruct (dget x (records (_branch_manager (_phase i)))); by eexists. }
  destruct H as [[statuses|e] ->]; cbn.
  - assert (Hid : Combat.with_phase (with_manager (_branch_manager (_phase i)) (_phase i)) i = i) by (destruct i as [? []]; done).
    destruct (dget x statuses); eexists; cbn; by rewrite Hid.
  - eexists. f_equal. f_equal. by destruct i as [? []].
Qed.

(** [c] reads: it leaves the state as it is. *)
Definition reads {A} (c : M (@Combat.St S W) A) : Prop := forall st, exists r, c st = (r, st).

Lemma reads_bind {A B} (c : M (@Combat.St S W) A) (k : A -> M (@Combat.St S W) B) :
  reads c -> (forall a, reads (k a)) -> reads (c ≫= k).
Proof.
  intros Hc Hk st. destruct (Hc st) as [[a|e] E]; [|exists (Raise e); by erewrite M_run_Raise by exact E].
  destruct (Hk a st) as [r Er]. exists r. by erewrite M_run_Ok by exact E.
Qed.
Lemma reads_ret {A} (a : A) : reads (mret a).
Proof. intros st. by eexists. Qed.
Lemma reads_raise {A} e : reads (@raiseM (@Combat.St S W) A e).
Proof. intros st. by eexists. Qed.
Lemma reads_lift {A} (r : Res A) : reads (liftR r).
Proof. intros st. by eexists. Qed.
Lemma reads_self : reads (@Combat.self S W).
Proof. intros st. by eexists. Qed.
Lemma reads_status x : reads (@Combat.on_phase S W _ (branch_status x)).
Proof. intros [i w]. apply status_reads. Qed.
#[local] Hint Resolve reads_bind reads_ret reads_raise reads_lift reads_self reads_status : reads.

Lemma reads_open : reads (@Combat._ensure_open S W).
Proof. unfold Combat._ensure_open. apply reads_bind; [auto with reads|]. intros i. destruct (_closed i); auto with reads. Qed.
Lemma reads_parent parent rng : reads (@Combat.check_parent S W parent rng).
Proof.
  unfold Combat.check_parent. destruct (String.eqb _ _); [auto with reads|]. apply reads_bind; [auto with reads|]. intros i.
  match goal with |- reads (match ?o with _ => _ end) => destruct o end; [|auto with reads]. apply reads_bind; [auto with reads|]. intros s.
  destruct (str_in s _); [auto with reads|]. destruct (negb _); auto with reads.
Qed.
#[local] Hint Resolve reads_open reads_parent : reads.
Lemma reads_item (item : Combat.EmulateItem) : reads (@Combat._validate_emulate_actions_item S W item).
Proof.
  unfold Combat._validate_emulate_actions_item. apply reads_bind; [auto with reads|]. intros i.
  destruct (BranchIdRegistry.is_known _ _); [auto with reads|]. auto 12 with reads.
Qed.
Lemma reads_admit (items : list Combat.EmulateItem) : forall seen, reads (@Combat.admit_items S W items seen).
Proof.
  induction items as [|item rest IH]; intros seen; cbn [Combat.admit_items]; [auto with reads|].
  destruct (str_in _ _); [auto with reads|]. apply reads_bind; [apply reads_item|]. auto with reads.
Qed.

Lemma posts_reads {A} (c : M (@Combat.St S W) A) st (Q : A -> @Combat.St S W -> Prop) (E : @Combat.St S W -> Prop) :
  reads c -> (forall a, c st = (Ok a, st) -> Q a st) -> E st -> posts c st Q E.
Proof. intros Hc Hq He. unfold posts. destruct (Hc st) as [[a|e] Er]; rewrite Er; auto. Qed.

(** * Emulations are isolated *)

Lemma tryL_posts {A} (body : M (@Combat.Local S W) A) handler st (Q : A -> @Combat.St S W -> Prop) (E : @Combat.St S W -> Prop) :
  posts body (st, []) (fun a l => Q a l.1) (fun l => forall e, posts (handler l.2 e) l.1 Q E) -> posts (Combat.tryL body handler) st Q E.
Proof.
  unfold posts at 1. unfold Combat.tryL. destruct (body (st, [])) as [[a|e] [st' ids]] eqn:Eb; intros H.
  - unfold posts. by rewrite Eb.
  - specialize (H e). unfold posts in *. by rewrite Eb.
Qed.

(** What a call that emulates [names] may do to a well-formed instance: it
    returns in the middle of the emulation, with every name booked if it
    answers; or it raises and leaves no trace. *)
Definition isolated (names : list string) i (c : M (@Combat.St S W) (option pydict)) (w : W) : Prop :=
  posts c (i, w)
    (fun r st' => instance_inv st'.1 /\ (exists new, emulating names i new st'.1) /\
       (is_some r = true -> forall b, b ∈ names -> booked b st'.1))
    (fun st' => instance_inv st'.1 /\ no_trace names i st'.1).

Lemma try_isolated operation names i i1 (body : M (@Combat.Local S W) (option pydict)) (w : W) :
  instance_inv i -> unused_names names i -> emulating names i [] i1 ->
  posts body ((i1, w), []) (fun r l => em_local names i l /\ (is_some r = true -> forall b, b ∈ names -> booked b l.1.1)) (em_local names i) ->
  posts (Combat.tryL body (Combat.clean_up operation names (snapshot_rng_hypotheses (_phase i)))) (i1, w)
    (fun r st' => instance_inv st'.1 /\ (exists new, emulating names i new st'.1) /\
       (is_some r = true -> forall b, b ∈ names -> booked b st'.1))
    (fun st' => instance_inv st'.1 /\ no_trace names i st'.1).
Proof.
  intros Hinv Hu Hem Hbody. apply tryL_posts. eapply posts_weaken; [exact Hbody| |].
  - intros r [[i2 w2] new]; cbn [fst snd]. intros [H Hb]. split; [by eapply emulating_inv|]. split; [by exists new|exact Hb].
  - intros [[i2 w2] new] H e; cbn [fst snd] in *.
    destruct (clean_up_run (A := option pydict) operation names i new i2 e w2 Hinv Hu H) as (i3 & Hrun & Hinv3 & Hnt).
    unfold posts. rewrite Hrun. by split.
Qed.

Lemma emulate_action_isolated parent b rng dp action opts i (w : W) :
  instance_inv i ->
  isolated [b] i (Combat.emulate_action json_loads format_exc work_item_for_ipc draws parent b rng dp action opts) w.
Proof.
  intros Hinv. unfold isolated, Combat.emulate_action.
  assert (Hsame : instance_inv i /\ no_trace [b] i i) by (split; [done|by apply no_trace_refl, Hinv]).
  eapply posts_bind; [apply (posts_reads _ _ (fun _ st => st = (i, w))); [auto with reads|done|exact Hsame]|]. intros ? st ->.
  eapply posts_bind; [apply (posts_reads _ _ (fun _ st => st = (i, w))); [auto with reads|done|exact Hsame]|]. intros ? st ->.
  eapply posts_bind; [apply (posts_reads _ _ (fun _ st => st = (i, w))); [auto with reads|done|exact Hsame]|]. intros ? st ->.
  eapply posts_step; [reflexivity|]. cbn [fst].
  eapply posts_bind; [apply (posts_reads _ _ (fun _ st => st = (i, w))); [auto with reads|done|exact Hsame]|]. intros ? st ->.
  set (i1 := Combat.with_ids (_branch_ids i ∪ {[b]}) i).
  eapply (posts_bind _ _ _ (fun _ st => st = (i1, w) /\ b ∉ _branch_ids i)).
  { unfold posts, Combat.on_branch_ids, BranchIdRegistry.register. cbn. case_bool_decide; [|done]. by destruct i. }
  intros u st [-> Hfresh]. assert (Hu : unused_names [b] i) by (by intros x ->%list_elem_of_singleton).
  assert (Hb : b ∈ [b]) by by left.
  assert (H1 : emulating [b] i [] i1) by (by apply em_register; [apply emulating_start|]).
  assert (Hreg : instance_inv i1 /\ no_trace [b] i i1).
  { split; [by eapply emulating_inv|by apply no_trace_registered; [apply Hinv|]]. }
  eapply posts_step; [reflexivity|]. cbn [fst].
  eapply posts_bind; [apply (posts_reads _ _ (fun _ st => st = (i1, w))); [auto with reads|done|exact Hreg]|]. intros view st ->.
  eapply posts_bind; [apply (posts_reads _ _ (fun _ st => st = (i1, w))); [auto with reads|done|exact Hreg]|]. intros context st ->.
  eapply posts_bind; [apply (posts_reads _ _ (fun _ st => st = (i1, w))); [auto with reads|done|exact Hreg]|]. intros chosen st ->.
  change (snapshot_rng_hypotheses (_phase i1)) with (snapshot_rng_hypotheses (_phase i)).
  apply try_isolated; [done|done|exact H1|].
  eapply posts_weaken; [apply (emulate_body_posts [b] i); [done|exact H1|cbn; set_solver]| |done].
  intros r l [Hl Hk]. split; [exact Hl|]. intros Hr x ->%list_elem_of_singleton. by apply Hk.
Qed.

Lemma admit_names (items : list Combat.EmulateItem) : forall seen adm i (w : W),
  Combat.admit_items items seen (i, w) = (Ok adm, (i, w)) ->
  map Combat.admitted_item adm = items /\ forall item, item ∈ items -> Combat.it_branch_id item ∉ _branch_ids i.
Proof.
  induction items as [|item rest IH]; intros seen adm i w; cbn [Combat.admit_items].
  { intros [= <-]. split; [done|]. by intros item ?%elem_of_nil. }
  destruct (str_in _ _); [discriminate|]. intros (a & st1 & Ha & (as_ & st2 & Hrest & [= <- ->])%M_bind_Ok)%M_bind_Ok.
  destruct (reads_item item (i, w)) as [r Hr]. rewrite Hr in Ha. injection Ha as -> <-.
  destruct (reads_admit rest (Combat.it_branch_id item :: seen) (i, w)) as [r' Hr']. rewrite Hr' in Hrest. injection Hrest as ->.
  destruct (IH _ _ _ _ Hr') as [Hm Hf].
  assert (Hitem : Combat.admitted_item a = item /\ Combat.it_branch_id item ∉ _branch_ids i).
  { unfold Combat._validate_emulate_actions_item in Hr. erewrite M_run_Ok in Hr by reflexivity. cbn [fst] in Hr.
    unfold BranchIdRegistry.is_known in Hr. case_bool_decide as Hk; [discriminate|]. split; [|done].
    apply M_bind_Ok in Hr as (? & ? & _ & (? & ? & _ & (? & ? & _ & (? & ? & _ & (? & ? & _ & (? & ? & _ & [= <- _])%M_bind_Ok)%M_bind_Ok)%M_bind_Ok)%M_bind_Ok)%M_bind_Ok).
    done. }
  destruct Hitem as [H1 H2]. split; [cbn; by rewrite H1, Hm|]. intros x [->|Hx]%elem_of_cons; [done|by apply Hf].
Qed.

Lemma posts_nonempty {A X} (xs : list X) (c d : M (@Combat.St S W) A) st Q E :
  posts c st Q E -> posts d st Q E -> posts (match xs with [] => c | _ => d end) st Q E.
Proof. by destruct xs. Qed.

Lemma emulate_actions_isolated (items : list Combat.EmulateItem) opts i (w : W) :
  instance_inv i ->
  isolated (map Combat.it_branch_id items) i (Combat.emulate_actions json_loads format_exc work_item_for_ipc draws items opts) w.
Proof.
  intros Hinv. unfold isolated, Combat.emulate_actions. set (names := map Combat.it_branch_id items).
  assert (Hsame : instance_inv i /\ no_trace names i i) by (split; [done|by apply no_trace_refl, Hinv]).
  eapply posts_bind; [apply (posts_reads _ _ (fun _ st => st = (i, w))); [auto with reads|done|exact Hsame]|]. intros ? st ->.
  eapply posts_bind; [apply (posts_reads _ _ (fun _ st => st = (i, w))); [auto with reads|done|exact Hsame]|]. intros ? st ->.
  eapply posts_step; [reflexivity|]. cbn [fst]. apply posts_nonempty; [by apply posts_raise|].
  destruct (_ <? _); [by apply posts_raise|].
  eapply posts_bind.
  { apply (posts_reads _ _ (fun adm st => st = (i, w) /\ Combat.admit_items items [] (i, w) = (Ok adm, (i, w)))); [apply reads_admit|done|exact Hsame]. }
  intros adm st [-> Hadm]. destruct (admit_names _ _ _ _ _ Hadm) as [Hm Hf].
  eapply posts_step; [reflexivity|]. cbn [fst]. destruct (_ <? _); [by apply posts_raise|].
  assert (Hu : unused_names names i) by (intros b (x & -> & Hx)%list_elem_of_fmap; by apply Hf).
  assert (Hem : emulating names i [] i) by (by apply emulating_start).
  apply try_isolated; [done|done|exact Hem|]. apply emulate_batch_posts; [|exact Hem].
  unfold names. rewrite <- Hm. by rewrite map_map.
Qed.
End Laws.
