(* ===== verification/CombatCommit.v ===== *)
(** Committing an action on the root of a combat instance, and the theorems on
    the whole instance (API/instance_combat.py): a commit makes every branch
    unusable, an emulation is isolated, a failed one leaves no trace. *)

From S2P Require Import Materialize.
From S2P Require Export CombatLaws.

Local Notation known := BranchManager.known.

(** * Operations of the phase that leave its branches alone *)

Definition branching {S} (p : CombatPhase S) : Manager * RngHypothesisTable.t * BranchPool :=
  (_branch_manager p, _rng_table p, _pool p).
Definition keeps_branching {S A} (c : M (CombatPhase S) A) : Prop := forall p, branching (c p).2 = branching p.

Section Keeps.
Context {S : Type} {HS : CombatSession S}.
Implicit Types p : CombatPhase S.

Lemma keeps_bind {A B} (c : M (CombatPhase S) A) (k : A -> M (CombatPhase S) B) :
  keeps_branching c -> (forall a, keeps_branching (k a)) -> keeps_branching (c ≫= k).
Proof.
  intros Hc Hk p. specialize (Hc p). unfold mbind, M_bind. destruct (c p) as [[a|e] p1]; [|exact Hc].
  by rewrite (Hk a p1).
Qed.
Lemma keeps_ret {A} (a : A) : keeps_branching (S := S) (mret a).
Proof. done. Qed.
Lemma keeps_lift {A} (r : Res A) : keeps_branching (S := S) (liftR r).
Proof. done. Qed.
Lemma keeps_get : keeps_branching (S := S) getS.
Proof. done. Qed.
Lemma keeps_live {A} (c : M S A) : keeps_branching (with_live c).
Proof. intros p. unfold with_live. by destruct (c (_session p)). Qed.
Lemma keeps_root st advanced : keeps_branching (S := S) (modS (with_root_state st advanced)).
Proof. done. Qed.
Lemma keeps_anchor held room prefix : keeps_branching (S := S) (modS (with_anchor held room prefix)).
Proof. done. Qed.
#[local] Hint Resolve keeps_bind keeps_ret keeps_lift keeps_get keeps_live keeps_root keeps_anchor : keeps.

Lemma commit_keeps_branching chosen : keeps_branching (S := S) (commit_root_action chosen).
Proof.
  unfold commit_root_action, _establish_stable_anchor.
  repeat first [apply keeps_bind; [solve [auto with keeps]|intros ?] | case_match | solve [auto with keeps]].
Qed.
End Keeps.

(** * What a commit does to the instance *)

Section Commit.
Context {S W : Type} {HS : CombatSession S} {HH : CombatHost S W}.
Implicit Types (i : CombatInstance S) (st : @Combat.St S W).

(** [i'] is [i] after the commit of [action_id] at decision point [dp]: the
    decision point was the current one and is stale now, every branch is a
    released tombstone that nobody can extend, and the committed line has one
    more entry. *)
Record committed (dp action_id : string) i i' : Prop := {
  cm_current : DecisionPointRegistry.validate ROOT_BRANCH_ID dp (_decision_points i) = Ok tt;
  cm_stale : exists reason, DecisionPointRegistry.validate ROOT_BRANCH_ID dp (_decision_points i') = reject reason;
  cm_next : is_Some (points_of i' !! ROOT_BRANCH_ID);
  cm_phase : exists view chosen p, Combat._root_view i = Ok view /\ chosen_action action_id view = Ok chosen /\
    commit_root_action chosen (_phase i) = (Ok tt, p) /\ _phase i' = with_manager (manager_of i') p;
  cm_log : _root_branch_log i' =
    _root_branch_log i ++ [log_entry (length (_root_branch_log i)) dp action_id ROOT_RNG_ID];
  cm_books : forall b, dget b (_bookkeeping i') = compacted <$> dget b (_bookkeeping i);
  cm_points : forall b, is_Some (dget b (_bookkeeping i)) -> points_of i' !! b = None;
  cm_released : forall b k, dget b (_bookkeeping i) = Some k -> is_released (internal_id k) (manager_of i');
  cm_parents : forall b k rng (w : W), dget b (_bookkeeping i) = Some k ->
    exists reason, Combat.check_parent b rng (i', w) = (reject reason, (i', w));
}.

(** The bookkeeping of released branches. *)
Lemma compact_each_run ids : forall i (w : W),
  (forall b, b ∈ ids -> is_Some (dget b (_bookkeeping i))) -> exists i',
  Combat.compact_each ids (i, w) = (Ok tt, (i', w)) /\
  _phase i' = _phase i /\ _branch_ids i' = _branch_ids i /\ committed_part i' = committed_part i /\
  dkeys (_bookkeeping i') = dkeys (_bookkeeping i) /\
  (numbered (_decision_points i) -> numbered (_decision_points i')) /\
  (forall b, dget b (_bookkeeping i') = if str_in b ids then compacted <$> dget b (_bookkeeping i) else dget b (_bookkeeping i)) /\
  forall b, points_of i' !! b = if str_in b ids then None else points_of i !! b.
Proof.
  induction ids as [|x ids IH]; intros i w Hin; cbn [Combat.compact_each]; [by exists i|].
  destruct (Hin x) as [k Hk]; [by left|].
  set (i1 := Combat.with_points (DecisionPointRegistry.clear x (_decision_points i)).2
               (Combat.with_books (dset x (compacted k) (_bookkeeping i)) i)).
  assert (Hget : forall b, dget b (_bookkeeping i1) = if String.eqb b x then Some (compacted k) else dget b (_bookkeeping i)).
  { intros b. cbn. destruct (String.eqb_spec b x) as [->|Hne]; [apply dget_dset_eq|by apply dget_dset_ne]. }
  destruct (IH i1 w) as (i' & Hrun & P & I & C & K & U & B & Q).
  { intros b Hb. rewrite Hget. destruct (String.eqb b x); [by eexists|]. apply Hin. by right. }
  exists i'. split_and!; [|exact P|exact I|exact C| | | |].
  - unfold Combat._compact_bookkeeping_for_release. erewrite M_run_Ok; [exact Hrun|].
    erewrite M_run_Ok by reflexivity. cbn [fst]. rewrite Hk. reflexivity.
  - rewrite K. by apply (kept_update x compacted k i).
  - intros Hn. by apply U, numbered_clear.
  - intros b. rewrite B, !Hget. unfold str_in. cbn. destruct (String.eqb_spec b x) as [->|Hne]; cbn; [|done].
    rewrite Hk. by destruct (existsb _ _).
  - intros b. rewrite Q. unfold points_of, str_in. cbn. destruct (existsb _ _); [by rewrite orb_true_r|].
    destruct (String.eqb_spec b x) as [->|Hne]; cbn; [by rewrite lookup_delete_eq|].
    rewrite lookup_delete_ne; [done|]. by intros <-.
Qed.

Lemma same_manager i : Combat.with_phase (with_manager (manager_of i) (_phase i)) i = i.
Proof. by destruct i as [? []]. Qed.

(** Every branch of a well-formed instance can be released. *)
Lemma release_all_run i (w : W) : instance_inv i -> exists m i',
  Combat._cancel_and_release_all_branches (i, w) = (Ok tt, (i', w)) /\ released_many (map (fun kb => internal_id kb.2) (_bookkeeping i)) (manager_of i) m /\
  _phase i' = with_manager m (_phase i) /\ _branch_ids i' = _branch_ids i /\ committed_part i' = committed_part i /\
  dkeys (_bookkeeping i') = dkeys (_bookkeeping i) /\ numbered (_decision_points i') /\
  (forall b, dget b (_bookkeeping i') = compacted <$> dget b (_bookkeeping i)) /\
  forall b, points_of i' !! b = if dmem b (_bookkeeping i) then None else points_of i !! b.
Proof.
  intros Hinv. set (ids := map (fun kb => internal_id kb.2) (_bookkeeping i)).
  assert (Hknown : forall b, b ∈ ids -> known b (manager_of i)).
  { intros b ([x k] & -> & Hin)%list_elem_of_fmap. apply (ii_owned _ Hinv x k).
    by apply dget_elem_NoDup; [apply Hinv|]. }
  destruct (release_loop_ok ids (manager_of i) [] (ii_manager _ Hinv) Hknown) as (m & st & Hrun & Hrel & _).
  set (i1 := Combat.with_phase (with_manager m (_phase i)) i).
  destruct (compact_each_run (dkeys (_bookkeeping i)) i1 w) as (i' & Hc & P & I & C & K & U & B & Q).
  { intros b Hb%dmem_keys. unfold dmem in Hb. cbn. by destruct (dget b (_bookkeeping i)). }
  exists m, i'. split_and!; [|exact Hrel|exact P|exact I|exact C|exact K|by apply U, Hinv| |].
  - unfold Combat._cancel_and_release_all_branches. erewrite M_run_Ok by reflexivity. cbn [fst]. fold ids.
    destruct ids as [|x ids'] eqn:Eids.
    + injection Hrun as <- <-. erewrite M_run_Ok by reflexivity. unfold i1 in Hc. by rewrite same_manager in Hc.
    + erewrite M_run_Ok; [exact Hc|]. unfold Combat.on_phase, phase_release, with_branches, BranchManager.release_branches, mbind, M_bind.
      cbn [fst snd]. unfold manager_of in Hrun. by rewrite Hrun.
  - intros b. rewrite B, str_in_dkeys. unfold dmem. cbn. by destruct (dget b (_bookkeeping i)).
  - intros b. by rewrite Q, str_in_dkeys.
Qed.

Lemma same_branching_inv i p : instance_inv i -> branching p = branching (_phase i) -> instance_inv (Combat.with_phase p i).
Proof.
  intros [O N K D P R U T] [= Hm Ht _].
  constructor; unfold manager_of, table_of in *; cbn; rewrite ?Hm, ?Ht; done.
Qed.
Lemma set_closed_inv i : instance_inv i -> instance_inv (Combat.set_closed i).
Proof. by intros [O N K D P R U T]. Qed.

Lemma released_status b m : is_released b m -> BranchManager.get_branch_status [b] m = (Ok [(b, state_text BRANCH_STATE_RELEASED)], m).
Proof.
  intros (r & Hr & Hs). unfold BranchManager.get_branch_status. cbn [status_loop]. unfold find_record, mbind, M_bind, getS.
  unfold rec_of in Hr. rewrite Hr. cbn. by rewrite Hs.
Qed.
(** Nobody extends a released branch. *)
Lemma released_parent b k rng i (w : W) :
  b <> ROOT_BRANCH_ID -> dget b (_bookkeeping i) = Some k -> is_released (internal_id k) (manager_of i) ->
  exists reason, Combat.check_parent b rng (i, w) = (reject reason, (i, w)).
Proof.
  intros Hroot Hk Hrel. unfold Combat.check_parent. rewrite (proj2 (String.eqb_neq _ _)) by done.
  erewrite M_run_Ok by reflexivity. cbn [fst]. destruct (BranchIdRegistry.is_known b (_branch_ids i)); [|by eexists].
  rewrite Hk. eexists. erewrite M_run_Ok with (a := "released"%string) (s1 := (i, w)); [reflexivity|].
  unfold Combat.on_phase, branch_status, with_branches, mbind, M_bind. cbn [fst snd].
  change (_branch_manager (_phase i)) with (manager_of i). rewrite (released_status _ _ Hrel). cbn. rewrite String.eqb_refl.
  cbn. by rewrite same_manager.
Qed.

(** The state a successful commit leaves, from what its steps do. *)
Lemma committed_state dp action_id i p m i1 i' view chosen :
  instance_inv i -> DecisionPointRegistry.validate ROOT_BRANCH_ID dp (_decision_points i) = Ok tt ->
  Combat._root_view i = Ok view -> chosen_action action_id view = Ok chosen -> commit_root_action chosen (_phase i) = (Ok tt, p) ->
  released_many (map (fun kb => internal_id kb.2) (_bookkeeping i)) (manager_of i) m ->
  _phase i1 = with_manager m p -> _branch_ids i1 = _branch_ids i ->
  _root_branch_log i1 = _root_branch_log i ++ [log_entry (length (_root_branch_log i)) dp action_id ROOT_RNG_ID] ->
  dkeys (_bookkeeping i1) = dkeys (_bookkeeping i) -> numbered (_decision_points i1) ->
  (forall b, dget b (_bookkeeping i1) = compacted <$> dget b (_bookkeeping i)) ->
  (forall b, points_of i1 !! b = if dmem b (_bookkeeping i) then None else points_of i !! b) ->
  i' = Combat.with_points (DecisionPointRegistry.issue ROOT_BRANCH_ID (_decision_points i1)).2 i1 ->
  instance_inv i' /\ committed dp action_id i i'.
Proof.
  intros Hinv Hdp Hview Hchosen Hrun Hrel P I L K U B Q ->.
  assert (Hroot : dget ROOT_BRANCH_ID (_bookkeeping i) = None).
  { destruct (dget ROOT_BRANCH_ID (_bookkeeping i)) as [k|] eqn:E; [|done]. by destruct (ii_owned _ Hinv _ _ E) as (_ & [] & _). }
  assert (Hown : forall b k, dget b (_bookkeeping i) = Some k -> is_released (internal_id k) m).
  { intros b k Hk. apply (rm_state _ _ _ Hrel). apply list_elem_of_fmap. exists (b, k). split; [done|by apply dget_Some_elem]. }
  assert (Hback : forall b k, dget b (_bookkeeping i1) = Some k -> exists k0, dget b (_bookkeeping i) = Some k0 /\ k = compacted k0).
  { intros b k. rewrite B. intros (k0 & -> & ->)%fmap_Some. by eexists. }
  assert (Hm : manager_of i1 = m) by (unfold manager_of; by rewrite P).
  pose proof (commit_keeps_branching chosen (_phase i)) as Hkeep. rewrite Hrun in Hkeep. injection Hkeep as Hkm Hkt _.
  destruct Hinv as [O N Kn D Pt R Nu T]. split.
  - constructor; unfold points_of, manager_of, table_of in *; cbn; rewrite ?P; cbn; try done.
    + apply Hrel.
    + change (NoDup (dkeys (_bookkeeping i1))). by rewrite K.
    + intros b k (k0 & Hk & ->)%Hback. destruct (Kn b k0 Hk) as (H1 & H2 & H3). rewrite I. split_and!; [done|done|].
      by apply (known_keys _ m (rm_keys _ _ _ Hrel)).
    + intros b b' k k' (k0 & Hk & ->)%Hback (k1 & Hk' & ->)%Hback. exact (D b b' k0 k1 Hk Hk').
    + intros b Hb. rewrite I. destruct (decide (b = ROOT_BRANCH_ID)) as [->|Hne]; [done|].
      rewrite lookup_insert_ne, Q in Hb by done. destruct (dmem b _); [by destruct Hb|by apply Pt].
    + by rewrite I.
    + by apply numbered_issue.
    + by rewrite Hkt.
  - constructor; unfold points_of in *; cbn; try done.
    + unfold DecisionPointRegistry.validate. cbn. rewrite lookup_insert_eq.
      destruct (String.eqb_spec (DecisionPointRegistry.decision_point_id ROOT_BRANCH_ID (DecisionPointRegistry._counter (_decision_points i1))) dp)
        as [<-|_]; [|by eexists].
      unfold DecisionPointRegistry.validate in Hdp. specialize (Q ROOT_BRANCH_ID). unfold dmem in Q. rewrite Hroot in Q. rewrite <- Q in Hdp.
      destruct (DecisionPointRegistry._current (_decision_points i1) !! ROOT_BRANCH_ID) as [cur|] eqn:E; [|done].
      destruct (U _ _ E) as (n & Hn & ->). destruct (String.eqb_spec (DecisionPointRegistry.decision_point_id ROOT_BRANCH_ID n)
        (DecisionPointRegistry.decision_point_id ROOT_BRANCH_ID (DecisionPointRegistry._counter (_decision_points i1)))) as [He%decision_point_id_inj|_]; [lia|done].
    + rewrite lookup_insert_eq. by eexists.
    + exists view, chosen, p. split_and!; [done|done|done|]. unfold manager_of. cbn. by rewrite P.
    + intros b Hb. rewrite lookup_insert_ne by (intros <-; rewrite Hroot in Hb; by destruct Hb). rewrite Q.
      unfold dmem. by destruct (dget b (_bookkeeping i)); [|destruct Hb].
    + intros b k Hk. unfold manager_of. cbn. rewrite P. by eapply Hown.
    + intros b k rng w Hk. eapply released_parent with (k := compacted k).
      * by apply (Kn b k Hk).
      * cbn. by rewrite B, Hk.
      * unfold manager_of. cbn. rewrite P. by eapply Hown.
Qed.

(** The session refused the action: the branches stay, and the instance closes
    if the live combat moved. *)
Definition commit_faulted (action_id : string) (e : pyexn) i i' : Prop :=
  exists view chosen p, Combat._root_view i = Ok view /\ chosen_action action_id view = Ok chosen /\
    commit_root_action chosen (_phase i) = (Raise e, p) /\
    i' = if _root_commit_advanced p then Combat.set_closed (Combat.with_phase p i) else Combat.with_phase p i.

Lemma commit_posts dp action_id i (w : W) :
  instance_inv i ->
  posts (Combat.commit_action dp action_id) (i, w)
    (fun response st' => instance_inv st'.1 /\ (committed dp action_id i st'.1 \/
       exists e, response = Combat.faulted_response e /\ commit_faulted action_id e i st'.1))
    (fun st' => instance_inv st'.1 /\ (st' = (i, w) \/ committed dp action_id i st'.1)).
Proof.
  intros Hinv. unfold Combat.commit_action.
  assert (Hsame : instance_inv (i, w).1 /\ ((i, w) = (i, w) \/ committed dp action_id i (i, w).1)) by (split; [done|by left]).
  eapply posts_bind; [apply (posts_reads _ _ (fun _ st => st = (i, w))); [apply reads_open|done|exact Hsame]|]. intros ? st ->.
  eapply posts_step; [reflexivity|]. cbn [fst].
  eapply posts_bind; [apply (liftR_posts _ _ (fun u st => st = (i, w) /\ DecisionPointRegistry.validate ROOT_BRANCH_ID dp (_decision_points i) = Ok tt));
    [by intros [] ->|exact Hsame]|]. intros [] st [-> Hdp].
  eapply posts_bind; [apply (liftR_posts _ _ (fun view st => st = (i, w) /\ Combat._root_view i = Ok view)); [by intros view ->|exact Hsame]|].
  intros view st [-> Hview].
  eapply posts_bind; [apply (liftR_posts _ _ (fun chosen st => st = (i, w) /\ chosen_action action_id view = Ok chosen));
    [by intros chosen ->|exact Hsame]|]. intros chosen st [-> Hchosen].
  pose proof (commit_keeps_branching chosen (_phase i)) as Hkeep.
  destruct (commit_root_action chosen (_phase i)) as [[[]|e] p] eqn:Ecommit; cbn [snd] in Hkeep.
  - eapply posts_step with (a := None) (s' := (Combat.with_phase p i, w)).
    { unfold tryM, Combat.on_phase, mbind, M_bind. cbn [fst snd]. by rewrite Ecommit. }
    cbn iota. eapply posts_step; [reflexivity|]. cbn [fst snd].
    set (i1 := Combat.with_log _ _).
    assert (Hinv1 : instance_inv i1) by (apply (same_branching_inv _ p) in Hinv as [O N K D P R U T]; [by constructor|done]).
    destruct (release_all_run i1 w Hinv1) as (m & i2 & Hrun & Hrel & P & I & L & K & U & B & Q).
    eapply posts_step; [exact Hrun|]. eapply posts_step; [reflexivity|].
    set (i3 := Combat.with_points _ _). cbn [fst snd] in i3.
    assert (H3 : instance_inv i3 /\ committed dp action_id i i3).
    { eapply (committed_state dp action_id i p m i2); try done.
      - assert (manager_of i1 = manager_of i) as <- by (by injection Hkeep). exact Hrel.
      - by injection L. }
    unfold Combat.root_decision_response. eapply posts_step; [reflexivity|]. cbn [fst].
    eapply posts_bind; [apply (liftR_posts _ _ (fun _ st => st = (i3, w))); [done|split; [|right]; apply H3]|]. intros view' st ->.
    eapply posts_bind; [apply (liftR_posts _ _ (fun _ st => st = (i3, w))); [done|split; [|right]; apply H3]|]. intros fields st ->.
    apply posts_ret. split; [|left]; apply H3.
  - eapply posts_step with (a := Some e) (s' := (if _root_commit_advanced p then Combat.set_closed (Combat.with_phase p i) else Combat.with_phase p i, w)).
    { unfold tryM, Combat.on_phase, mbind, M_bind. cbn [fst snd]. rewrite Ecommit. cbn. by destruct (_root_commit_advanced p). }
    apply posts_ret. assert (Hp : instance_inv (Combat.with_phase p i)) by (by apply same_branching_inv). cbn [fst]. split.
    + destruct (_root_commit_advanced p); [by apply set_closed_inv|done].
    + right. exists e. split; [done|]. by exists view, chosen, p.
Qed.
End Commit.

(** * The invariant of the instance *)

Section Invariant.
Context (json_loads : string -> Res pyval) (format_exc : pyexn -> string) (work_item_for_ipc : WorkItem -> WorkItem)
  (draws : nat).
Context {S W : Type} {HS : CombatSession S} {HH : CombatHost S W}.
Implicit Types (i : CombatInstance S) (st : @Combat.St S W).

(** The requests an instance serves until it is closed. *)
Inductive serves : @Combat.St S W -> @Combat.St S W -> Prop :=
  | serves_start st st' r : Combat.start_instance_response st = (r, st') -> serves st st'
  | serves_decision b st st' r : Combat.get_decision b st = (r, st') -> serves st st'
  | serves_commit dp action_id st st' r : Combat.commit_action dp action_id st = (r, st') -> serves st st'
  | serves_emulate parent b rng dp action_id opts st st' r :
      Combat.emulate_action json_loads format_exc work_item_for_ipc draws parent b rng dp action_id opts st = (r, st') ->
      serves st st'
  | serves_emulate_batch items opts st st' r :
      Combat.emulate_actions json_loads format_exc work_item_for_ipc draws items opts st = (r, st') -> serves st st'
  | serves_cancel ids st st' r : Combat.cancel_branches ids st = (r, st') -> serves st st'
  | serves_release ids st st' r : Combat.release_branches ids st = (r, st') -> serves st st'
  | serves_status ids st st' r : Combat.get_branch_status ids st = (r, st') -> serves st st'.

Ltac reads_auto := repeat first
  [ apply reads_bind; [solve [apply reads_open | apply reads_self | apply reads_status | apply reads_lift]|intros ?]
  | apply reads_lift | apply reads_ret | apply reads_raise | apply reads_status | apply reads_self | case_match ].

Lemma reads_start : reads (@Combat.start_instance_response S W).
Proof. unfold Combat.start_instance_response. reads_auto. Qed.
Lemma reads_decision b : reads (@Combat.get_decision S W b).
Proof. unfold Combat.get_decision, Combat.root_decision_response. reads_auto. Qed.
Lemma reads_statuses ids : forall statuses, reads (@Combat.statuses_of S W ids statuses).
Proof. induction ids as [|b ids IH]; intros statuses; cbn [Combat.statuses_of]; reads_auto. apply IH. Qed.
Lemma reads_branch_status ids : reads (@Combat.get_branch_status S W ids).
Proof.
  unfold Combat.get_branch_status. apply reads_bind; [apply reads_open|]. intros u. apply reads_bind; [apply reads_statuses|]. intros ss. apply reads_ret.
Qed.

Lemma with_manager_inv i m :
  instance_inv i -> mgr_ok m -> dkeys (records m) = dkeys (records (manager_of i)) ->
  instance_inv (Combat.with_phase (with_manager m (_phase i)) i).
Proof.
  intros [O N K D P R U T] Hok Hkeys. constructor; try done.
  intros b k Hk. destruct (K b k Hk) as (? & ? & ?). split_and!; [done|done|]. by apply (known_keys _ _ Hkeys).
Qed.

(** Ids a client may cancel or release name booked branches. *)
Lemma internal_ids_known i : instance_inv i -> forall ids internal_ids,
  mapR (fun b => Combat._internal_id_or_reject b i) ids = Ok internal_ids ->
  (forall b, b ∈ internal_ids -> known b (manager_of i)) /\ forall b, b ∈ ids -> is_Some (dget b (_bookkeeping i)).
Proof.
  intros Hinv. induction ids as [|b ids IH]; intros internal_ids; cbn [mapR].
  { intros [= <-]. by split; intros ? ?%elem_of_nil. }
  intros (x & Hx & (xs & Hxs & [= <-])%bind_Ok)%bind_Ok. destruct (IH xs Hxs) as [H1 H2]. unfold Combat._internal_id_or_reject in Hx.
  destruct (String.eqb b ROOT_BRANCH_ID); [done|]. destruct (dget b (_bookkeeping i)) as [k|] eqn:Hk; [|done]. injection Hx as <-.
  split; intros y [->|Hy]%elem_of_cons; [by eapply (ii_owned _ Hinv)|by apply H1|by rewrite Hk|by apply H2].
Qed.

Lemma cancel_inv ids i (w : W) : instance_inv i ->
  posts (Combat.cancel_branches ids) (i, w) (fun _ st' => instance_inv st'.1) (fun st' => instance_inv st'.1).
Proof.
  intros Hinv. unfold Combat.cancel_branches.
  eapply posts_bind; [apply (posts_reads _ _ (fun _ st => st = (i, w))); [apply reads_open|done|exact Hinv]|]. intros ? st ->.
  eapply posts_step; [reflexivity|]. cbn [fst].
  eapply posts_bind; [apply (liftR_posts _ _ (fun xs st => st = (i, w) /\ mapR (fun b => Combat._internal_id_or_reject b i) ids = Ok xs));
    [by intros xs ->|exact Hinv]|]. intros xs st [-> Hxs]. destruct (internal_ids_known i Hinv _ _ Hxs) as [Hk _].
  destruct (cancel_branches_run (manager_of i) xs (ii_manager _ Hinv) Hk) as (v & m & Hrun & Hca).
  eapply posts_step with (a := tt) (s' := (Combat.with_phase (with_manager m (_phase i)) i, w)).
  { unfold Combat.on_phase, phase_cancel, with_branches, mbind, M_bind. cbn [fst snd]. unfold manager_of in Hrun. by rewrite Hrun. }
  apply posts_ret. apply with_manager_inv; [done|apply Hca|apply Hca].
Qed.

Lemma release_inv ids i (w : W) : instance_inv i ->
  posts (Combat.release_branches ids) (i, w) (fun _ st' => instance_inv st'.1) (fun st' => instance_inv st'.1).
Proof.
  intros Hinv. unfold Combat.release_branches.
  eapply posts_bind; [apply (posts_reads _ _ (fun _ st => st = (i, w))); [apply reads_open|done|exact Hinv]|]. intros ? st ->.
  eapply posts_step; [reflexivity|]. cbn [fst].
  eapply posts_bind; [apply (liftR_posts _ _ (fun xs st => st = (i, w) /\ mapR (fun b => Combat._internal_id_or_reject b i) ids = Ok xs));
    [by intros xs ->|exact Hinv]|]. intros xs st [-> Hxs]. destruct (internal_ids_known i Hinv _ _ Hxs) as [Hk Hin].
  destruct (release_loop_ok xs (manager_of i) [] (ii_manager _ Hinv) Hk) as (m & v & Hrun & Hrel & _).
  set (i1 := Combat.with_phase (with_manager m (_phase i)) i).
  assert (Hinv1 : instance_inv i1) by (apply with_manager_inv; [done|apply Hrel|apply Hrel]).
  eapply posts_step with (a := tt) (s' := (i1, w)).
  { unfold Combat.on_phase, phase_release, with_branches, BranchManager.release_branches, mbind, M_bind. cbn [fst snd].
    unfold manager_of in Hrun. by rewrite Hrun. }
  destruct (compact_each_run ids i1 w Hin) as (i2 & Hc & P & I & _ & K & U & B & Q).
  eapply posts_step; [exact Hc|]. apply posts_ret. cbn [fst]. destruct Hinv1 as [O N Kn D Pt R Nu T].
  assert (Hback : forall b k, dget b (_bookkeeping i2) = Some k -> exists k0, dget b (_bookkeeping i1) = Some k0 /\ internal_id k = internal_id k0).
  { intros b k. rewrite B. destruct (str_in b ids); [|by exists k]. intros (k0 & -> & ->)%fmap_Some. by exists k0. }
  constructor; unfold manager_of, table_of in *; rewrite ?P, ?K; auto.
  - intros b k (k0 & Hk0 & ->)%Hback. rewrite I. by apply Kn.
  - intros b b' k k' (k0 & Hk0 & ->)%Hback (k1 & Hk1 & ->)%Hback. by apply D.
  - intros b. rewrite Q, I. destruct (str_in b ids); [by intros []|]. apply Pt.
  - by rewrite I.
Qed.

Lemma new_manager_ok pool n m : new_manager pool n = Ok m -> mgr_ok m /\ records m = [].
Proof.
  unfold new_manager. destruct (n <=? 0); [done|]. intros [= <-]. split; [|done]. constructor; cbn; try done; constructor.
Qed.
Lemma initialize_branching (s : S) root_state count n backend map_snapshot room adopted (w w' : W) p :
  _initialize_live_combat s root_state count n backend map_snapshot room adopted w = (Ok p, w') ->
  mgr_ok (_branch_manager p) /\ _rng_table p = RngHypothesisTable.init.
Proof.
  unfold _initialize_live_combat. intros (b & w1 & _ & H)%M_bind_Ok. apply M_bind_Ok in H as (a & w2 & _ & H).
  apply M_bind_Ok in H as (a3 & w3 & _ & H). apply M_bind_Ok in H as (a4 & w4 & _ & H). apply M_bind_Ok in H as (a5 & w5 & _ & H).
  apply M_bind_Ok in H as (m & w6 & Hm & [= <- _]). split; [|done]. unfold liftR in Hm. injection Hm as Hm _.
  by eapply new_manager_ok.
Qed.

Lemma new_instance_inv iid config count n backend (w w' : W) i :
  Combat.new_combat_instance iid config count n backend w = (Ok i, w') -> instance_inv i.
Proof.
  unfold Combat.new_combat_instance. intros (p & w1 & Hp & H)%M_bind_Ok.
  destruct (root_branching_unavailable_reason p); [destruct (phase_close p) as [[|] ?]; discriminate H|]. injection H as <- _.
  unfold new_combat_phase in Hp. apply M_bind_Ok in Hp as (s & w2 & _ & Hp).
  destruct (start_combat _ s) as [[root_state|] s']; [|done]. apply initialize_branching in Hp as [Hok Ht].
  constructor; unfold manager_of, table_of, points_of; cbn; try done.
  - constructor.
  - intros b. destruct (decide (b = ROOT_BRANCH_ID)) as [->|]; [intros _; by apply elem_of_singleton|].
    rewrite lookup_insert_ne, lookup_empty by done. by intros [].
  - apply (numbered_issue DecisionPointRegistry.init). intros b x H. cbn in H. by rewrite lookup_empty in H.
  - rewrite Ht. apply RngTable.wf_init.
Qed.

Lemma serves_inv st st' : serves st st' -> instance_inv st.1 -> instance_inv st'.1.
Proof.
  assert (Hposts : forall A (c : M (@Combat.St S W) A) s s' r, c s = (r, s') ->
    posts c s (fun _ t => instance_inv t.1) (fun t => instance_inv t.1) -> instance_inv s'.1).
  { intros A c s s' r Hc. unfold posts. rewrite Hc. by destruct r. }
  assert (Hreads : forall A (c : M (@Combat.St S W) A) s s' r, c s = (r, s') -> reads c -> instance_inv s.1 -> instance_inv s'.1).
  { intros A c s s' r Hc Hr. destruct (Hr s) as [r' E]. rewrite E in Hc. by injection Hc as _ <-. }
  intros Hs Hinv. destruct Hs as [[i w] s' r H|b [i w] s' r H|dp a [i w] s' r H|pa b g dp a o [i w] s' r H|items o [i w] s' r H|
    ids [i w] s' r H|ids [i w] s' r H|ids [i w] s' r H]; cbn [fst] in Hinv.
  - eapply Hreads; [exact H|apply reads_start|done].
  - eapply Hreads; [exact H|apply reads_decision|done].
  - eapply Hposts; [exact H|]. eapply posts_weaken; [by apply commit_posts|by intros ? ? []|by intros ? []].
  - eapply Hposts; [exact H|]. eapply posts_weaken; [by apply emulate_action_isolated|by intros ? ? []|by intros ? []].
  - eapply Hposts; [exact H|]. eapply posts_weaken; [by apply emulate_actions_isolated|by intros ? ? []|by intros ? []].
  - eapply Hposts; [exact H|by apply cancel_inv].
  - eapply Hposts; [exact H|by apply release_inv].
  - eapply Hreads; [exact H|apply reads_branch_status|done].
Qed.
Lemma serves_all_inv st st' : rtc serves st st' -> instance_inv st.1 -> instance_inv st'.1.
Proof. induction 1 as [|st1 st2 st3 Hs _ IH]; [done|]. intros H. by apply IH, (serves_inv st1). Qed.
End Invariant.

(** * The properties of the combat instance *)

Section Properties.
Context (json_loads : string -> Res pyval) (format_exc : pyexn -> string) (work_item_for_ipc : WorkItem -> WorkItem)
  (draws : nat).
Context {S W : Type} {HS : CombatSession S} {HH : CombatHost S W}.
Implicit Types i : CombatInstance S.

(** emulating an action touches nothing but the emulated branch: on a
    well-formed instance [emulate_action] leaves the committed line, the live
    combat, every other branch and its decision point as they were, and keeps
    the instance well-formed; when it answers, the branch is registered and in
    the books; when it raises, at whatever step, no book, decision point or RNG
    hypothesis of it is left and every branch it had submitted is released. *)
Theorem emulation_isolated parent b rng dp action_id opts i (w : W) :
  instance_inv i ->
  isolated [b] i (Combat.emulate_action json_loads format_exc work_item_for_ipc draws parent b rng dp action_id opts) w.
Proof. apply emulate_action_isolated. Qed.


(** C3: a commit invalidates every branch: when [commit_action] advances the
    root, the decision point it was given was the current one and is stale
    afterwards, the committed line has one more entry, the internal branch of
    every book is released, its book is a tombstone without decision point, and
    any request that extends such a branch is rejected. A commit refused by the
    session answers with a fault and keeps the branches, closing the instance
    exactly if the live combat has moved; a rejected one changes nothing. *)
Theorem commit_invalidates_branches dp action_id i (w : W) :
  instance_inv i ->
  match Combat.commit_action dp action_id (i, w) with
  | (Ok response, (i', _)) => instance_inv i' /\
      (committed (W := W) dp action_id i i' \/
       exists e, response = Combat.faulted_response e /\ commit_faulted action_id e i i')
  | (Raise _, (i', w')) => instance_inv i' /\ ((i', w') = (i, w) \/ committed (W := W) dp action_id i i')
  end.
Proof.
  intros H. pose proof (commit_posts dp action_id i w H) as Hp. unfold posts in Hp.
  destruct (Combat.commit_action dp action_id (i, w)) as [[r|e] [i' w']]; exact Hp.
Qed.
End Properties.

(** * An instance at work *)

(** A live combat whose snapshot a hypothesis can be drawn from, with workers
    that stay silent. *)
Definition SnapshotSession : CombatSession Z :=
  {| start_combat := fun _ _ => (Ok (example_board 0), 0);
     bootstrap_room_entry := fun _ _ _ => (Ok (example_board 0), 0);
     restore_snapshot := fun _ n => (Ok (example_board n), n);
     get_legal_actions := mret []; step := fun _ _ _ _ n => (Ok (example_board (n + 1)), n + 1);
     capture_snapshot := fun n => (Ok lone_pile_dict, n) |}.
Definition SnapshotHost : @CombatHost Z unit SnapshotSession :=
  {| new_live_session := mret 0; session_close := mret tt; environ := fun _ _ => None;
     start_workers := fun _ => mret tt;
     queue_events := fun _ _ _ w => (([], fun _ => f_of_Z 0, f_of_Z 100), w) |}.
Definition unused_instance : CombatInstance Z :=
  {| instance_id := ""; _phase := idle_phase; _branch_ids := ∅; _decision_points := DecisionPointRegistry.init;
     _root_branch_log := []; _root_history := HistoryBuilder.init; _bookkeeping := []; _closed := false |}.
Definition start_demo : Res (CombatInstance Z) * unit :=
  @Combat.new_combat_instance Z unit SnapshotSession SnapshotHost "combat-1" [] (Some 1) 4 None tt.
Definition demo_instance : CombatInstance Z := Eval vm_compute in from_ok start_demo.1 unused_instance.
Definition demo_point : string := "d-root-000001".
Definition demo_emulate : M (@Combat.St Z unit) (option pydict) :=
  @Combat.emulate_action no_json (fun _ => "boom"%string) id 3 Z unit SnapshotSession SnapshotHost
    ROOT_BRANCH_ID "b-1" 1 demo_point "3" (VDict []).
Definition emulated_instance : CombatInstance Z := Eval vm_compute in (demo_emulate (demo_instance, tt)).2.1.
Definition demo_commit : M (@Combat.St Z unit) pydict :=
  @Combat.commit_action Z unit SnapshotSession demo_point "3".
Definition committed_instance : CombatInstance Z := Eval vm_compute in (demo_commit (emulated_instance, tt)).2.1.

Lemma start_demo_run : start_demo = (Ok demo_instance, tt).
Proof. vm_compute. reflexivity. Qed.
Lemma demo_emulate_run : exists response, demo_emulate (demo_instance, tt) = (Ok response, (emulated_instance, tt)).
Proof. eexists. vm_compute. reflexivity. Qed.
Lemma demo_commit_run : exists response, demo_commit (emulated_instance, tt) = (Ok response, (committed_instance, tt)).
Proof. eexists. vm_compute. reflexivity. Qed.
Lemma demo_instance_ok : instance_inv demo_instance.
Proof. eapply new_instance_inv, start_demo_run. Qed.
Lemma demo_emulated : rtc (@serves no_json (fun _ => "boom"%string) id 3 Z unit SnapshotSession SnapshotHost)
  (demo_instance, tt) (emulated_instance, tt).
Proof. destruct demo_emulate_run as [r Hr]. eapply rtc_once, serves_emulate, Hr. Qed.
Lemma emulated_instance_ok : instance_inv emulated_instance.
Proof. exact (serves_all_inv _ _ _ _ _ _ demo_emulated demo_instance_ok). Qed.

Lemma emulation_isolated_witness :
  instance_inv demo_instance /\ isolated ["b-1"%string] demo_instance demo_emulate tt /\
  (exists response, demo_emulate (demo_instance, tt) = (Ok response, (emulated_instance, tt))) /\
  dkeys (_bookkeeping emulated_instance) = ["b-1"%string].
Proof.
  split; [exact demo_instance_ok|]. split; [apply emulation_isolated; exact demo_instance_ok|].
  split; [exact demo_emulate_run|reflexivity].
Defined.

Definition demo_item (b : string) : Combat.EmulateItem :=
  {| Combat.it_parent_branch_id := ROOT_BRANCH_ID; Combat.it_branch_id := b; Combat.it_rng_id := 1;
     Combat.it_decision_point_id := demo_point; Combat.it_action_id := "3" |}.
Definition demo_batch : M (@Combat.St Z unit) (option pydict) :=
  @Combat.emulate_actions no_json (fun _ => "boom"%string) id 3 Z unit SnapshotSession SnapshotHost
    [demo_item "b-1"; demo_item "b-2"] (VDict []).

Lemma commit_invalidates_branches_witness : exists response,
  demo_commit (emulated_instance, tt) = (Ok response, (committed_instance, tt)) /\
  dkeys (_bookkeeping emulated_instance) = ["b-1"%string] /\
  committed (HS := SnapshotSession) (W := unit) demo_point "3" emulated_instance committed_instance.
Proof.
  destruct demo_commit_run as [response Hrun]. exists response. split; [exact Hrun|]. split; [reflexivity|].
  pose proof (@commit_invalidates_branches Z unit SnapshotSession demo_point "3" emulated_instance tt emulated_instance_ok) as H.
  fold demo_commit in H. rewrite Hrun in H. destruct H as [_ [H|(e & He & H)]]; [exact H|].
  destruct H as (v & chosen & p & Hv & Hc & Hr & _). exfalso. revert Hrun. rewrite He. clear. vm_compute. discriminate.
Defined.
