(* ===== verification/CombatServer.v ===== *)
(** Combat instances behind the request dispatcher: the class [ApiInstance] the
    server is proved over is implemented by the combat instance
    (API/instance_combat.py), beside any other kind of instance, and a promise
    of the instances is kept by the server (API/server.py). *)

From S2P Require Import Materialize.
From S2P Require Export CombatCommit.

(** * An invariant of instances is an invariant of the server *)

Section Promise.
Context {I W : Type} {HI : ApiInstance I W} (server_epoch : string) (max_sessions : Z) (P : I -> Prop).
Local Notation server := (@server I W).
Implicit Types s : server.

(** Every method but [close] keeps [P], and new instances have it. *)
Definition keeps_promise {A} (c : M (I * W) A) : Prop := forall i w, P i -> P (fst (snd (c (i, w)))).
Record promise : Prop := {
  pr_new : forall ty iid config w i w', new_instance ty iid config w = (Ok i, w') -> P i;
  pr_start : keeps_promise start_instance_response;
  pr_decision : forall b, keeps_promise (get_decision b);
  pr_commit : forall d a, keeps_promise (Server.commit_action d a);
  pr_emulate : forall p b r d a o, keeps_promise (Server.emulate_action p b r d a o);
  pr_batch : forall items o, keeps_promise (Server.emulate_actions items o);
  pr_cancel : forall ids, keeps_promise (Server.cancel_branches ids);
  pr_release : forall ids, keeps_promise (Server.release_branches ids);
  pr_status : forall ids, keeps_promise (Server.get_branch_status ids);
}.

Definition all_keep s : Prop := forall iid i, dget iid (_instances s) = Some i -> P i.
Definition others_keep (iid : string) s : Prop := forall x i, x <> iid -> dget x (_instances s) = Some i -> P i.
Definition safe {A} (c : M server A) : Prop := forall s, all_keep s -> posts c s (fun _ => all_keep) all_keep.

Lemma safe_bind {A B} (c : M server A) (k : A -> M server B) : safe c -> (forall a, safe (k a)) -> safe (c ≫= k).
Proof. intros Hc Hk s Hs. eapply posts_bind; [by apply Hc|]. intros a s' H. by apply Hk. Qed.
Lemma safe_ret {A} (a : A) : safe (mret a).
Proof. by intros s Hs. Qed.
Lemma safe_raise {A} e : safe (@raiseM _ A e).
Proof. by intros s Hs. Qed.
Lemma safe_lift {A} (r : Res A) : safe (liftR r).
Proof. intros s Hs. by destruct r. Qed.
Lemma safe_get : safe getS.
Proof. by intros s Hs. Qed.
Lemma safe_ledger {A} sid (m : M SessionLedger.t A) : safe (on_ledger sid m).
Proof. intros s Hs. unfold posts, on_ledger. by destruct (m _) as [[a|e] l]. Qed.
Lemma safe_serial : safe next_serial.
Proof. by intros s Hs. Qed.
Lemma safe_session sid n : safe (_get_or_create_session max_sessions sid n).
Proof. intros s Hs. unfold posts, _get_or_create_session. destruct (_sessions s !! sid); [exact Hs|]. destruct (negb _); [exact Hs|]. destruct (_ <=? _); exact Hs. Qed.
#[local] Hint Resolve safe_bind safe_ret safe_raise safe_lift safe_get safe_ledger safe_serial safe_session : safe.

Lemma all_keep_set iid i s w : all_keep s -> P i -> all_keep (Server (_sessions s) (dset iid i (_instances s)) (_instance_serial s) w).
Proof.
  intros Hs Hi x j. cbn. rewrite dget_dset. destruct (String.eqb x iid); [by intros [= <-]|apply Hs].
Qed.
Lemma safe_instance {A} iid (m : M (I * W) A) : keeps_promise m -> safe (on_instance iid m).
Proof.
  intros Hm s Hs. unfold posts, on_instance. destruct (dget iid (_instances s)) as [i|] eqn:Ei; [|done].
  specialize (Hm i (engine s) (Hs iid i Ei)). destruct (m (i, engine s)) as [[a|e] [i' w]]; by apply all_keep_set.
Qed.
(** Closing may leave the closed instance in any state. *)
Lemma closed_others iid s : others_keep iid s -> others_keep iid (snd (on_instance iid close s)).
Proof.
  intros Hs. unfold on_instance. destruct (dget iid (_instances s)) as [i|]; [|done].
  destruct (close (i, engine s)) as [r [i' w]]. intros x j Hx. cbn. rewrite dget_dset_ne by done. by apply Hs.
Qed.
Lemma popped iid s : others_keep iid s -> all_keep (snd (pop_instance iid s)).
Proof.
  intros Hs x i. cbn. destruct (decide (x = iid)) as [->|Hx]; [by rewrite dget_ddel_eq|].
  rewrite dget_ddel_ne by done. by apply Hs.
Qed.

Context (HP : promise).

Lemma safe_start payload : safe (_handle_start_instance payload).
Proof.
  unfold _handle_start_instance. apply safe_bind; [auto with safe|]. intros [| | | | | |config]; try apply safe_raise.
  apply safe_bind; [auto with safe|]. intros serial. set (iid := instance_name serial).
  assert (Hnew : forall ty s, all_keep s -> posts (on_engine (new_instance ty iid config)) s (fun i s' => P i /\ all_keep s') all_keep).
  { intros ty s Hs. unfold posts, on_engine. destruct (new_instance ty iid config (engine s)) as [[i|e] w] eqn:E; [|done].
    split; [by eapply HP|done]. }
  intros s Hs. eapply posts_bind with (Q' := fun i s' => P i /\ all_keep s').
  { destruct (veq_str _ INSTANCE_TYPE_COMBAT); [by apply Hnew|]. destruct (veq_str _ INSTANCE_TYPE_WHOLE_RUN); [by apply Hnew|done]. }
  clear s Hs. intros i s [Hi Hs]. eapply posts_bind with (Q' := fun _ => all_keep); [by apply all_keep_set|].
  clear s Hs. intros _ s Hs. eapply posts_try with (E' := all_keep).
  - unfold start_response. eapply posts_bind; [apply safe_instance; [apply HP|done]|]. intros r s' Hs'.
    destruct r as [| | | | | |d]; try done. by destruct (veq_str _ _).
  - intros e s' Hs'. assert (Ho : others_keep iid s') by (intros x j _; apply Hs').
    apply closed_others in Ho. unfold posts, ignore, tryM, mbind, M_bind. destruct (on_instance iid close s') as [[u|e'] s2]; by apply popped.
Qed.

Lemma safe_close sid iid : safe (_handle_close_instance sid iid).
Proof.
  intros s Hs. unfold _handle_close_instance.
  assert (Ho : others_keep iid (snd (on_instance iid close s))) by (apply closed_others; intros x j _; apply Hs).
  eapply posts_bind with (Q' := fun _ => others_keep iid).
  - unfold posts, tryM, mbind, M_bind. by destruct (on_instance iid close s) as [[u|e] s2].
  - intros r s1 H1. eapply posts_bind with (Q' := fun _ => all_keep); [by apply popped|].
    intros u s2 H2. by apply (safe_bind _ _ (safe_ledger _ _) (fun _ => safe_ret _)).
Qed.

Lemma kept_bind_lift {A B} (r : Res A) (k : A -> M (I * W) B) : (forall a, keeps_promise (k a)) -> keeps_promise (liftR r ≫= k).
Proof. intros Hk i w Hi. destruct r; [by apply Hk|done]. Qed.
Lemma dispatch_keeps i op payload : keeps_promise (dispatch_method i op payload).
Proof.
  unfold dispatch_method. destruct HP. cbn zeta. destruct (match dget op _ with Some _ => _ | None => _ end); [by intros j w Hj|].
  repeat (case_match; [repeat (apply kept_bind_lift; intros ?); auto|]). by intros j w Hj.
Qed.

Lemma safe_execute sid payload : safe (_execute_new_request sid payload).
Proof.
  unfold _execute_new_request. apply safe_bind; [auto with safe|]. intros s0. apply safe_bind; [auto with safe|]. intros operation.
  destruct (veq_str operation OP_START_INSTANCE).
  - destruct (SessionLedger.active_instance_id _); [apply safe_raise|]. apply safe_bind; [apply safe_start|]. intros response.
    repeat case_match; auto with safe.
  - apply safe_bind; [auto with safe|]. intros v.
    repeat case_match; try apply safe_raise; [apply safe_close|apply safe_instance, dispatch_keeps].
Qed.

Lemma safe_request payload : safe (handle_request server_epoch max_sessions payload).
Proof.
  unfold handle_request. destruct (validate_request payload) as [d|[error k|]]; [|apply safe_lift|apply safe_raise].
  destruct (dget_none "client_session_id" d) as [| | | |sid| |]; try apply safe_raise.
  destruct (dget_none "request_seq" d); try apply safe_raise.
  intros s Hs. eapply posts_try with (E' := all_keep); [|intros [error k|] s' Hs'; [by apply safe_lift|done]].
  unfold handle_valid. eapply posts_bind; [by apply safe_session|]. clear s Hs. intros u s Hs.
  eapply posts_bind; [by apply safe_ledger|]. clear s Hs. intros cached s Hs. destruct cached as [response|]; [done|].
  pose proof (safe_execute sid d s Hs) as Hx. unfold posts in Hx |- *. destruct (_execute_new_request sid d s) as [r s'].
  assert (Hs' : all_keep s') by (by destruct r).
  exact (safe_bind (liftR (_wrap server_epoch (VDict d) (handler_response d r))) _ (safe_lift _)
    (fun response => safe_bind (on_ledger sid (SessionLedger.complete response)) _ (safe_ledger _ _) (fun _ => safe_ret response)) s' Hs').
Qed.

(** Whatever is requested, every instance of the server keeps the promise. *)
Lemma served_promise s : server_reachable server_epoch max_sessions s -> all_keep s.
Proof.
  induction 1 as [w s H|p s _ IH|s _ IH].
  - unfold server_init in H. destruct (max_sessions <=? 0); [done|]. injection H as <-. by intros iid i.
  - pose proof (safe_request p s IH) as Hp. unfold posts in Hp.
    by destruct (handle_request server_epoch max_sessions p s) as [[r|e] s'].
  - unfold close_all. destruct (close_each _ s). by intros iid i.
Qed.
End Promise.

(** * The combat instance as an instance of the server *)

Section Serving.
Context (json_loads : string -> Res pyval) (format_exc : pyexn -> string) (work_item_for_ipc : WorkItem -> WorkItem)
  (draws : nat).
Context {S W : Type} {HS : CombatSession S} {HH : CombatHost S W}.
(** Instances of the other kind. *)
Context {R : Type} {HR : ApiInstance R W}.
(** [self._kwargs]: how combat instances are set up. *)
Context (worker_count : option Z) (max_branches : Z) (worker_pool_backend : option string).

(** Arguments at the types [validate_request] has checked; the other cases are
    not reached. *)
Definition str_arg (v : pyval) : Res string :=
  match v with VStr s => Ok s | v => Raise (PyExc "TypeError" ("str expected, got " +:+ py_type_name v)) end.
Definition int_arg (v : pyval) : Res Z :=
  match v with VInt z => Ok z | v => Raise (PyExc "TypeError" ("int expected, got " +:+ py_type_name v)) end.
Definition list_arg (v : pyval) : Res (list pyval) :=
  match v with VList l => Ok l | v => Raise (PyExc "TypeError" ("list expected, got " +:+ py_type_name v)) end.
Definition strs_arg (v : pyval) : Res (list string) := l ← list_arg v; mapR str_arg l.
Definition item_arg (v : pyval) : Res Combat.EmulateItem :=
  match v with
  | VDict d =>
      parent ← (v ← dindex "parent_branch_id" d; str_arg v);
      branch ← (v ← dindex "branch_id" d; str_arg v);
      rng ← (v ← dindex "rng_id" d; int_arg v);
      decision ← (v ← dindex "decision_point_id" d; str_arg v);
      action ← (v ← dindex "action_id" d; str_arg v);
      Ok {| Combat.it_parent_branch_id := parent; Combat.it_branch_id := branch; Combat.it_rng_id := rng;
            Combat.it_decision_point_id := decision; Combat.it_action_id := action |}
  | v => Raise (PyExc "TypeError" ("dict expected, got " +:+ py_type_name v))
  end.
Definition items_arg (v : pyval) : Res (list Combat.EmulateItem) := l ← list_arg v; mapR item_arg l.

(** An emulation that has run out of draws for its belief is reported, not
    waited for. *)
Definition draws_exhausted : pyexn := PyExc "OutOfDraws" "the belief sampler has rejected all its draws".
Definition settled (r : option pydict) : Res pyval :=
  match r with Some d => Ok (VDict d) | None => Raise draws_exhausted end.

Local Notation Hosted := (CombatInstance S + R)%type.
Definition either {A} (c : M (CombatInstance S * W) A) (o : M (R * W) A) : M (Hosted * W) A := fun st =>
  match st.1 with
  | inl i => let '(r, (i', w)) := c (i, st.2) in (r, (inl i', w))
  | inr i => let '(r, (i', w)) := o (i, st.2) in (r, (inr i', w))
  end.
Definition dict_of {St} (c : M St pydict) : M St pyval := d ← c; mret (VDict d).

#[export] Instance hosted_api : ApiInstance Hosted W := {|
  instance_type x := match x with inl _ => Some INSTANCE_TYPE_COMBAT | inr i => instance_type i end;
  new_instance ty iid config :=
    if String.eqb ty INSTANCE_TYPE_COMBAT then
      i ← Combat.new_combat_instance iid config worker_count max_branches worker_pool_backend; mret (inl i)
    else i ← new_instance ty iid config; mret (inr i);
  start_instance_response := either (dict_of Combat.start_instance_response) start_instance_response;
  get_decision b := either (b ← liftR (str_arg b); dict_of (Combat.get_decision b)) (get_decision b);
  commit_action d a :=
    either (d ← liftR (str_arg d); a ← liftR (str_arg a); dict_of (Combat.commit_action d a)) (Server.commit_action d a);
  emulate_action p b r d a opts :=
    either (p ← liftR (str_arg p); b ← liftR (str_arg b); r ← liftR (int_arg r); d ← liftR (str_arg d); a ← liftR (str_arg a);
            out ← Combat.emulate_action json_loads format_exc work_item_for_ipc draws p b r d a opts; liftR (settled out))
      (Server.emulate_action p b r d a opts);
  emulate_actions items opts :=
    either (items ← liftR (items_arg items);
            out ← Combat.emulate_actions json_loads format_exc work_item_for_ipc draws items opts; liftR (settled out))
      (Server.emulate_actions items opts);
  cancel_branches ids :=
    either (ids ← liftR (strs_arg ids); dict_of (Combat.cancel_branches ids)) (Server.cancel_branches ids);
  release_branches ids :=
    either (ids ← liftR (strs_arg ids); dict_of (Combat.release_branches ids)) (Server.release_branches ids);
  get_branch_status ids :=
    either (ids ← liftR (strs_arg ids); dict_of (Combat.get_branch_status ids)) (Server.get_branch_status ids);
  close := either Combat.close close;
|}.

(** ** What the validation has checked is what the methods expect *)

Lemma has_str_arg d k : has_str d k -> exists s, (v ← dindex k d; str_arg v) = Ok s.
Proof. intros (s & Hs & _). exists s. unfold dindex. by rewrite Hs. Qed.
Lemma item_wf_arg v b : item_wf v b -> exists item, item_arg v = Ok item /\ Combat.it_branch_id item = b.
Proof.
  intros (d & -> & Hstr & (r & Hr & _) & Hb).
  assert (Hk : forall k, k ∈ _EMULATE_ACTIONS_ITEM_STR_FIELDS -> exists s, dget k d = Some (VStr s)).
  { intros k Hin. eapply Forall_forall in Hstr as (s & Hs & _); [|exact Hin]. by exists s. }
  destruct (Hk "parent_branch_id"%string) as [p Hp]; [set_solver|]. destruct (Hk "decision_point_id"%string) as [x Hx]; [set_solver|].
  destruct (Hk "action_id"%string) as [a Ha]; [set_solver|].
  exists {| Combat.it_parent_branch_id := p; Combat.it_branch_id := b; Combat.it_rng_id := r;
            Combat.it_decision_point_id := x; Combat.it_action_id := a |}. split; [|reflexivity].
  unfold item_arg, dindex. rewrite Hp, Hb, Hr, Hx, Ha. reflexivity.
Qed.
(** A validated batch has items with distinct new branches. *)
Lemma items_wf_arg d : items_wf d -> exists v items, dget "items" d = Some v /\ items_arg v = Ok items /\
  items <> [] /\ NoDup (map Combat.it_branch_id items).
Proof.
  intros (l & ids & Hl & Hne & Hf & Hnd).
  assert (Hm : exists items, mapR item_arg l = Ok items /\ map Combat.it_branch_id items = ids).
  { clear Hl Hne Hnd. induction Hf as [|v b l ids Hv _ (items & Hm & Hi)]; [by exists []|].
    destruct (item_wf_arg v b Hv) as (item & Hitem & Hb). exists (item :: items). cbn. by rewrite Hitem, Hm, Hb, Hi. }
  destruct Hm as (items & Hm & <-). exists (VList l), items. split_and!; [done|exact Hm| |exact Hnd].
  intros ->. destruct l as [|v l]; [done|]. cbn in Hm. destruct (item_arg v); [|done]. cbn in Hm. by destruct (mapR item_arg l).
Qed.
Lemma branch_ids_arg ids : Forall (fun v => exists s, v = VStr s /\ s <> ""%string) ids -> exists xs, strs_arg (VList ids) = Ok xs.
Proof.
  unfold strs_arg. cbn. induction 1 as [|v ids (s & -> & _) _ [xs IH]]; [by exists []|]. exists (s :: xs). cbn. by rewrite IH.
Qed.

(** ** The promise of a combat instance *)

Definition hosted_ok (x : Hosted) : Prop := match x with inl i => instance_inv i | inr _ => True end.

Lemma either_keeps {A} (c : M (CombatInstance S * W) A) (o : M (R * W) A) :
  (forall i w, instance_inv i -> instance_inv (c (i, w)).2.1) -> keeps_promise hosted_ok (either c o).
Proof.
  intros Hc [i|i] w Hi; unfold either; cbn [fst snd].
  - specialize (Hc i w Hi). by destruct (c (i, w)) as [r [i' w']].
  - by destruct (o (i, w)) as [r [i' w']].
Qed.
Lemma lift_keeps {A B} (r : Res A) (k : A -> M (CombatInstance S * W) B) :
  (forall a i w, instance_inv i -> instance_inv (k a (i, w)).2.1) -> forall i w, instance_inv i -> instance_inv ((liftR r ≫= k) (i, w)).2.1.
Proof. intros Hk i w Hi. destruct r; [by apply Hk|done]. Qed.
Lemma then_keeps {A B} (c : M (CombatInstance S * W) A) (k : A -> Res B) :
  (forall i w, instance_inv i -> instance_inv (c (i, w)).2.1) ->
  forall i w, instance_inv i -> instance_inv ((a ← c; liftR (k a)) (i, w)).2.1.
Proof. intros Hc i w Hi. specialize (Hc i w Hi). unfold mbind, M_bind. destruct (c (i, w)) as [[a|e] st]; [by destruct (k a)|done]. Qed.

Lemma op_keeps {A} (c : M (CombatInstance S * W) A) :
  (forall st r st', c st = (r, st') -> serves json_loads format_exc work_item_for_ipc draws st st') ->
  forall i w, instance_inv i -> instance_inv (c (i, w)).2.1.
Proof. intros Hc i w Hi. destruct (c (i, w)) as [r st'] eqn:E. exact (serves_inv _ _ _ _ _ _ (Hc _ _ _ E) Hi). Qed.
Lemma dict_keeps (c : M (CombatInstance S * W) pydict) :
  (forall st r st', c st = (r, st') -> serves json_loads format_exc work_item_for_ipc draws st st') ->
  forall i w, instance_inv i -> instance_inv (dict_of c (i, w)).2.1.
Proof. intros Hc. apply (then_keeps c (fun d => Ok (VDict d))), op_keeps, Hc. Qed.

Lemma hosted_promise : @promise Hosted W hosted_api hosted_ok.
Proof.
  constructor.
  - intros ty iid config w x w'. cbn [new_instance hosted_api]. destruct (String.eqb ty INSTANCE_TYPE_COMBAT).
    + intros (i & w1 & Hnew & [= <- _])%M_bind_Ok. by eapply new_instance_inv.
    + by intros (i & w1 & _ & [= <- _])%M_bind_Ok.
  - apply either_keeps, dict_keeps. intros st r st'. apply serves_start.
  - intros b. apply either_keeps, lift_keeps. intros x. apply dict_keeps. intros st r st'. apply serves_decision.
  - intros d a. apply either_keeps, lift_keeps. intros x. apply lift_keeps. intros y. apply dict_keeps. intros st r st'. apply serves_commit.
  - intros p b r d a o. apply either_keeps. do 5 (apply lift_keeps; intros ?). apply then_keeps, op_keeps.
    intros st x st'. apply serves_emulate.
  - intros items o. apply either_keeps, lift_keeps. intros x. apply then_keeps, op_keeps. intros st r st'. apply serves_emulate_batch.
  - intros ids. apply either_keeps, lift_keeps. intros x. apply dict_keeps. intros st r st'. apply serves_cancel.
  - intros ids. apply either_keeps, lift_keeps. intros x. apply dict_keeps. intros st r st'. apply serves_release.
  - intros ids. apply either_keeps, lift_keeps. intros x. apply dict_keeps. intros st r st'. apply serves_status.
Qed.

End Serving.

(** * A served combat *)

(** No instances of the other kind. *)
Definition absurd {A} : M (Empty_set * unit) A := fun st => match (fst st : Empty_set) with end.
#[local] Instance no_other : ApiInstance Empty_set unit := {|
  instance_type x := match (x : Empty_set) with end;
  new_instance _ _ _ := raiseM (PyExc "RuntimeError" "no other instances");
  start_instance_response := absurd;
  get_decision _ := absurd;
  commit_action _ _ := absurd;
  emulate_action _ _ _ _ _ _ := absurd;
  emulate_actions _ _ := absurd;
  cancel_branches _ := absurd;
  release_branches _ := absurd;
  get_branch_status _ := absurd;
  close := absurd;
|}.
Definition demo_api : ApiInstance (CombatInstance Z + Empty_set) unit :=
  @hosted_api no_json (fun _ => "boom"%string) id 3 Z unit SnapshotSession SnapshotHost Empty_set no_other (Some 1) 4 None.
Definition demo_handle (d : pydict) (s : @server (CombatInstance Z + Empty_set) unit) : Res pydict * @server (CombatInstance Z + Empty_set) unit :=
  @handle_request _ _ demo_api "epoch" 2 (VDict d) s.
Definition combat_start : pydict :=
  [("schema_version", VStr "0.8"); ("client_session_id", VStr "a"); ("request_seq", VInt 1);
   ("request_id", VStr "a:1"); ("operation", VStr OP_START_INSTANCE);
   ("instance_config", VDict [("instance_type", VStr INSTANCE_TYPE_COMBAT)])]%string.
Definition combat_commit : pydict :=
  [("schema_version", VStr "0.8"); ("client_session_id", VStr "a"); ("request_seq", VInt 2);
   ("request_id", VStr "a:2"); ("operation", VStr OP_COMMIT_ACTION); ("instance_id", VStr "inst-000001");
   ("branch_id", VStr "root"); ("rng_id", VInt 0);
   ("decision_point_id", VStr "d-root-000001"); ("action_id", VStr "3")]%string.
Definition started_server : @server (CombatInstance Z + Empty_set) unit := Eval vm_compute in
  (demo_handle combat_start (Server ∅ [] 1 tt)).2.
Definition served_server : @server (CombatInstance Z + Empty_set) unit := Eval vm_compute in
  (demo_handle combat_commit started_server).2.
Definition served_instance : CombatInstance Z := Eval vm_compute in
  match dget "inst-000001" (_instances served_server) with Some (inl i) => i | _ => unused_instance end.
Lemma started_run : (demo_handle combat_start (Server ∅ [] 1 tt)).2 = started_server.
Proof. vm_compute. reflexivity. Qed.
Lemma served_run : (demo_handle combat_commit started_server).2 = served_server.
Proof. vm_compute. reflexivity. Qed.
Lemma served_server_reachable : @server_reachable _ _ demo_api "epoch" 2 served_server.
Proof.
  rewrite <- served_run, <- started_run. do 2 apply (@sreach_request _ _ demo_api). by apply (@sreach_init _ _ demo_api _ _ tt).
Qed.

