(* ===== verification/RunSession.v ===== *)
(** The session of a whole run and what the repository does with it on its own
    account: the identity of a legal action (Run/legal_action_identity.py), the
    trivial reward actions (Run/reward_auto_progress.py), the map's rooms as
    legal actions, and the filler policy (Run/whole_run_session.py). *)

From S2P Require Export Beliefs PyRepr.

(** * The session *)

(** [WholeRunSession]: a run of the engine. *)
Class RunSession (S : Type) := {
  rs_start_run : pyval -> pyval -> pyval -> M S unit;
  rs_load_state : string -> M S unit;
  rs_save_state : M S string;
  rs_choose_room : pyval -> M S pydict;
  rs_step : pyval -> M S pydict;
  rs_get_observation : M S pydict;
  rs_get_legal_actions : M S (list pydict);
  rs_get_map_rooms : M S (list pydict);
  rs_get_room_context : M S pydict;
  rs_get_run_state : M S pydict;
  rs_get_event_rng_state : M S pydict;
  rs_set_event_rng_state : pydict -> M S unit;
}.

Definition RUN_TERMINAL : string := "run_terminal".
Definition PENDING_CHOICE : string := "pending_choice".
Definition EVENT_CHOICE : string := "event_choice".
Definition MAP_SELECT : string := "map_select".
Definition STABLE : string := "stable".

(** * The identity of a legal action *)

Definition KEY_PARAMETER_NAMES : list string :=
  ["cardId"; "potionId"; "potionSlot"; "replacedPotionId"; "eventId"; "choiceId"; "enemyIndex"; "cost"; "optionId"]%string.

(** [repr] of a tuple of these elements. *)
Definition tuple_repr (l : list string) : string :=
  match l with
  | [x] => "(" +:+ x +:+ ",)"
  | _ => "(" +:+ str_concat ", " l +:+ ")"
  end.

Fixpoint present_params (names : list string) (params : pyval) : Res (list (string * pyval)) :=
  match names with
  | [] => Ok []
  | name :: rest =>
      here ← py_contains name params;
      if here : bool then v ← py_index name params; others ← present_params rest params; Ok ((name, v) :: others)
      else present_params rest params
  end.
Definition legal_action_semantic_key (action : pydict) : Res (pyval * pyval * list (string * pyval)) :=
  key_params ← present_params KEY_PARAMETER_NAMES (py_or (dget_none "parameters" action) (VDict []));
  Ok (dget_none "action_type" action, dget_none "label" action, sort_by key_leb key_params).
Definition legal_action_semantic_key_text (action : pydict) : Res string :=
  key ← legal_action_semantic_key action;
  Ok (tuple_repr [py_repr key.1.1; py_repr key.1.2;
                  tuple_repr (map (fun nv => tuple_repr [repr_str nv.1; py_repr nv.2]) key.2)]).

(** * The map's rooms as legal actions *)

Definition room_action (room : pydict) : Res pydict :=
  room_id ← dindex "room_id" room;
  point_type ← dindex "point_type" room;
  column ← dindex "column" room;
  row ← dindex "row" room;
  Ok [("action_id", room_id); ("action_type", VStr "map_room");
      ("label", VStr (py_str point_type +:+ "@" +:+ py_str column +:+ "," +:+ py_str row)); ("is_available", VBool true);
      ("parameters", VDict [("column", column); ("row", row); ("point_type", point_type)])]%string.

Section Session.
Context {S : Type} {HS : RunSession S}.

Definition _map_rooms_as_legal_actions : M S (list pydict) :=
  rooms ← rs_get_map_rooms; liftR (mapR room_action rooms).

(** * Trivial reward actions *)

Definition TRIVIAL_POTION_TAKE_ACTION : string := "choice_reward_potion_take".
Definition REWARD_SELECT : string := "reward_select".
Definition DEFAULT_MAX_AUTO_ACTIONS : Z := 32.

Record AutoDrainResult := {
  auto_action_ids : list Z;
  last_step_result : option pydict;
}.

Definition is_take (action : pydict) : bool :=
  truthy (dget_or "is_available" (VBool true) action) && veq_str (dget_none "action_type" action) TRIVIAL_POTION_TAKE_ACTION.
Definition at_reward (observation : pydict) : bool := veq_str (dget_none "boundary" observation) REWARD_SELECT.

(** What remains when [rounds] more actions may be taken. *)
Fixpoint drain_rounds (cap : Z) (rounds : nat) (consumed : list Z) (last : option pydict) : M S AutoDrainResult :=
  let done := mret {| auto_action_ids := consumed; last_step_result := last |} in
  observation ← rs_get_observation;
  if negb (at_reward observation) then done
  else
    legal_actions ← rs_get_legal_actions;
    match rounds, List.filter is_take legal_actions with
    | _, [] => done
    | O, _ => raiseM (PyExc "RuntimeError" ("trivial reward auto-drain exceeded safety cap " +:+ pretty cap +:+
                "; consumed=" +:+ py_repr (VList (map VInt consumed))))
    | Datatypes.S rounds, [take] =>
        action_id ← liftR (v ← dindex "action_id" take; py_int v);
        result ← rs_step (VInt action_id);
        drain_rounds cap rounds (consumed ++ [action_id]) (Some result)
    | Datatypes.S _, takes => raiseM (PyExc "RuntimeError"
        ("Emulator published multiple trivial Potion TAKE actions at one reward_select boundary: " +:+
         py_repr (VList (map (dget_none "action_id") takes))))
    end.
Definition drain_trivial_reward_frontier (max_auto_actions : Z) : M S AutoDrainResult :=
  if max_auto_actions <=? 0 then raiseM (value_error "max_auto_actions must be positive")
  else drain_rounds max_auto_actions (Z.to_nat max_auto_actions) [] None.
End Session.

(** * The filler policy *)

Definition ACTION_TYPE_PREFERENCE_ORDER : list string :=
  ["choice_target"; "card"; "potion"; "system"; "choice_shop_leave"; "choice_confirm"; "choice_skip"; "choice_reward_skip";
   "choice_event_option"; "choice_rest_option"; "choice_card"; "choice_reward_card"; "choice_shop_buy_relic";
   "choice_event_throw_potion"]%string.

Fixpoint available_of (legal_actions : list pydict) : Res (list pydict) :=
  match legal_actions with
  | [] => Ok []
  | a :: rest => v ← dindex "is_available" a; others ← available_of rest; Ok (if truthy v then a :: others else others)
  end.
Fixpoint first_of_type (action_type : string) (pool : list pydict) : Res (option pydict) :=
  match pool with
  | [] => Ok None
  | a :: rest => v ← dindex "action_type" a; if veq_str v action_type then Ok (Some a) else first_of_type action_type rest
  end.
Fixpoint first_preferred (order : list string) (pool : list pydict) (otherwise : pydict) : Res pydict :=
  match order with
  | [] => Ok otherwise
  | t :: rest => o ← first_of_type t pool; match o with Some a => Ok a | None => first_preferred rest pool otherwise end
  end.
Definition pick_default_action (legal_actions : list pydict) : Res pydict :=
  available ← available_of legal_actions;
  let pool := match available with [] => legal_actions | _ => available end in
  match pool with
  | [] => Raise (value_error "No legal actions to pick from.")
  | first :: _ => first_preferred ACTION_TYPE_PREFERENCE_ORDER pool first
  end.
