(* ===== verification/RunPool.v ===== *)
(** The pool of whole-run workers (Run/worker_pool.py): each worker process keeps
    one run session and reaches a choice by loading a map snapshot and replaying
    actions; the pool routes work items to workers over queues, and a registry
    says which worker holds which choice. *)

From S2P Require Export RunSession.

Module RunPool.

Definition WORK_KIND_CONTINUATION : string := "continuation".
Definition WORK_KIND_SUB_BRANCH : string := "sub_branch".
Definition WORK_KIND_VALUES : list string := [WORK_KIND_CONTINUATION; WORK_KIND_SUB_BRANCH].
Definition EXECUTION_MODE_BOOTSTRAP_STEP : string := "bootstrap_step".
Definition EXECUTION_MODE_HOLDER_STEP : string := "holder_step".
Definition EXECUTION_MODE_VALUES : list string := [EXECUTION_MODE_BOOTSTRAP_STEP; EXECUTION_MODE_HOLDER_STEP].
Definition BRANCH_STATUS_SUCCESS : string := "success".
Definition BRANCH_STATUS_FAULT : string := "fault".

(** A worker slot: ["main"], or the number of a branch worker. *)
Inductive Slot := MAIN_WORKER_SLOT | BranchSlot (n : Z).
#[global] Instance Slot_eq_dec : EqDecision Slot.
Proof. solve_decision. Defined.
Definition slot_repr (s : Slot) : string :=
  match s with MAIN_WORKER_SLOT => repr_str "main" | BranchSlot n => pretty n end.

Definition _json_digest (payload : pyval) : string := String.substring 0 16 (sha256_hex (json_dumps true payload)).
Definition derive_context_id (map_snapshot : string) (room_id : pyval) (action_prefix : list pyval)
    (choice_type : pyval) (relic_injection : option string) : string :=
  _json_digest (VDict [("map_snapshot_sha256", VStr (sha256_hex map_snapshot)); ("room_id", room_id);
    ("action_prefix", VList action_prefix); ("choice_type", choice_type);
    ("relic_injection", opt_json VStr relic_injection)]%string).

(** * Work items, leases, results *)

Record EventRngReplayPlan := {
  hypothesis_key : string * string * Z;
  override_state : pydict;
  apply_before_action_index : Z;
}.
Record ChoiceWorkItem := {
  work_id : string;
  context_id : string;
  choice_type : pyval;
  map_snapshot : string;
  room_id : pyval;
  action_prefix : list pyval;
  relic_injection : option string;
  target_boundary : pyval;
  work_kind : string;
  resolve_action_id : pyval;
  resolve_action_semantic_key : option string;
  resolve_action_ordinal : Z;
  event_rng_plan : option EventRngReplayPlan;
  discover_prefix : bool;
}.
Definition work_item_check (w : ChoiceWorkItem) : Res ChoiceWorkItem :=
  if str_in (work_kind w) WORK_KIND_VALUES then Ok w
  else Raise (value_error ("unknown work_kind " +:+ repr_str (work_kind w))).

Record Lease := {
  worker_slot : Slot;
  worker_generation : Z;
  lease_pid : Z;
  lease_context_id : string;
  lease_combat_session_id : pyval;
  run_seed : pyval;
  step_signature : string;
}.
Definition is_valid_for (work_item : ChoiceWorkItem) (generation : option Z) (l : Lease) : bool :=
  String.eqb (work_kind work_item) WORK_KIND_CONTINUATION && String.eqb (lease_context_id l) (context_id work_item) &&
  match generation with Some g => worker_generation l =? g | None => true end.

(** [LeaseRegistry]: the leases by context, in insertion order. *)
Definition Registry : Type := list (string * Lease).
Definition reg_set (l : Lease) (r : Registry) : Registry := dset (lease_context_id l) l r.
(** [==] of two leases. *)
Definition lease_eqb (a b : Lease) : bool :=
  bool_decide (worker_slot a = worker_slot b) && (worker_generation a =? worker_generation b) && (lease_pid a =? lease_pid b) &&
  String.eqb (lease_context_id a) (lease_context_id b) && py_eqb (lease_combat_session_id a) (lease_combat_session_id b) &&
  py_eqb (run_seed a) (run_seed b) && String.eqb (step_signature a) (step_signature b).
Definition invalidate_lease (l : Lease) (r : Registry) : Registry :=
  match dget (lease_context_id l) r with
  | Some current => if lease_eqb current l then ddel (lease_context_id l) r else r
  | None => r
  end.
Definition invalidate_worker_generation (slot : Slot) (generation : Z) (r : Registry) : Registry :=
  List.filter (fun kl => negb (bool_decide (worker_slot kl.2 = slot) && (worker_generation kl.2 =? generation))) r.
Definition invalidate_worker_all_generations (slot : Slot) (r : Registry) : Registry :=
  List.filter (fun kl => negb (bool_decide (worker_slot kl.2 = slot))) r.
Definition worker_slots_holding_leases (r : Registry) : list Slot := map (fun kl => worker_slot kl.2) r.

Record ChoiceReachResult := {
  reach_boundary : pyval;
  reach_choice_scope : pyval;
  reach_choice_kind : pyval;
  reach_legal_actions : list pydict;
  reach_room_context : pydict;
  reach_observation : pydict;
  reach_run_state : pydict;
  reach_event_rng_state : option pydict;
}.
Record ChoiceStepResult := {
  step_result : pydict;
  step_run_state : pydict;
  settled_observation : pydict;
  settled_legal_actions : list pydict;
  settled_room_context : pydict;
  step_auto_action_ids : list Z;
}.
Record BranchResult := {
  status : string;
  result_item : ChoiceWorkItem;
  execution_mode : string;
  result_slot : Slot;
  result_generation : option Z;
  result_pid : option Z;
  reach : option ChoiceReachResult;
  result_step : option ChoiceStepResult;
  established_lease : option Lease;
  discovered_action_prefix : option (list pyval);
  diagnostics : pydict;
}.
Record WorkerExecutionRequest := {
  req_item : ChoiceWorkItem;
  req_mode : string;
  expected_lease : option Lease;
}.

(** * Reaching a choice *)

(** [json.dumps(v)] with the separators it has by default. *)
Fixpoint json_dumps_plain (v : pyval) : string :=
  match v with
  | VList l => "[" +:+ str_concat ", " (map json_dumps_plain l) +:+ "]"
  | VDict d => "{" +:+ str_concat ", " (map (fun p => json_str true p.1 +:+ ": " +:+ json_dumps_plain p.2) d) +:+ "}"
  | v => json_dumps true v
  end.

Definition dict_at (k : string) (v : pyval) (f : pyval -> Res pyval) : Res pyval :=
  match v with
  | VDict d => x ← dindex k d; y ← f x; Ok (VDict (dset k y d))
  | _ => py_index k v
  end.
(** [data["Run"]["Run"]["players"][0]["relics"].append(...)]. *)
Definition append_relic (relic_id : string) (relics : pyval) : Res pyval :=
  match relics with
  | VList l => Ok (VList (l ++ [VDict [("id", VStr ("RELIC." +:+ relic_id)); ("floor_added_to_deck", VInt 1)]%string]))
  | v => Raise (PyExc "AttributeError" ("'" +:+ py_type_name v +:+ "' object has no attribute 'append'"))
  end.
Definition first_player (f : pyval -> Res pyval) (players : pyval) : Res pyval :=
  match players with
  | VList (p :: rest) => p ← f p; Ok (VList (p :: rest))
  | VList [] => Raise (PyExc "IndexError" "list index out of range")
  | v => Raise (PyExc "TypeError" ("'" +:+ py_type_name v +:+ "' object is not subscriptable"))
  end.
Definition inject_relic (json_loads : string -> Res pyval) (snapshot_json relic_id : string) : Res string :=
  data ← json_loads snapshot_json;
  data ← dict_at "Run" data (fun run => dict_at "Run" run (fun run =>
           dict_at "players" run (first_player (fun p => dict_at "relics" p (append_relic relic_id)))));
  Ok (json_dumps_plain data).

Section Worker.
Context (json_loads : string -> Res pyval) (format_exc : pyexn -> string).
Context {S : Type} {HS : RunSession S}.

Definition _apply_event_rng_override (event_rng_override : pydict) : M S unit :=
  rs_set_event_rng_state (List.filter (fun kv => negb (String.eqb kv.1 "event_id")) event_rng_override).

Definition _reach_result_from_session (choice_type : pyval) : M S ChoiceReachResult :=
  obs ← rs_get_observation;
  legal ← (if veq_str choice_type "map" then _map_rooms_as_legal_actions else rs_get_legal_actions);
  pending ← liftR (v ← py_get "pendingChoice" (py_or (dget_none "state" obs) (VDict [])); Ok (py_or v (VDict [])));
  boundary ← liftR (dindex "boundary" obs);
  event_rng_state ← (if veq_str boundary "event_choice" then s ← rs_get_event_rng_state; mret (Some s) else mret None);
  choice_scope ← liftR (dindex "choice_scope" obs);
  choice_kind ← liftR (py_get "choiceType" pending);
  room_context ← rs_get_room_context;
  run_state ← rs_get_run_state;
  mret {| reach_boundary := boundary; reach_choice_scope := choice_scope; reach_choice_kind := choice_kind;
          reach_legal_actions := legal; reach_room_context := room_context; reach_observation := obs;
          reach_run_state := run_state; reach_event_rng_state := event_rng_state |}.

(** The recorded actions from [index] on, the event streams being replaced right
    before the entry the plan names. *)
Fixpoint replay_prefix (plan : option EventRngReplayPlan) (index : Z) (action_prefix : list pyval) : M S unit :=
  match action_prefix with
  | [] => mret tt
  | action_id :: rest =>
      _ ← (match plan with
           | Some p => if apply_before_action_index p =? index then _apply_event_rng_override (override_state p) else mret tt
           | None => mret tt
           end);
      _ ← rs_step action_id;
      replay_prefix plan (index + 1) rest
  end.

(** Driving forward to the target, [rounds] more actions at most. *)
Fixpoint discover (rounds : nat) (target_boundary : pyval) (obs : pydict) (discovered : list pyval) : M S (list pyval) :=
  match rounds with
  | O => mret discovered
  | Datatypes.S rounds =>
      boundary ← liftR (dindex "boundary" obs);
      if py_eqb boundary target_boundary || veq_str boundary RUN_TERMINAL then mret discovered
      else
        actions ← rs_get_legal_actions;
        match actions with
        | [] => mret discovered
        | _ =>
            action ← liftR (pick_default_action actions);
            action_id ← liftR (dindex "action_id" action);
            _ ← rs_step action_id;
            auto ← drain_trivial_reward_frontier DEFAULT_MAX_AUTO_ACTIONS;
            obs ← rs_get_observation;
            discover rounds target_boundary obs (discovered ++ action_id :: map VInt (auto_action_ids auto))
        end
  end.

Definition or_snapshot (w : ChoiceWorkItem) : Res string :=
  match relic_injection w with
  | None | Some ""%string => Ok (map_snapshot w)
  | Some relic => inject_relic json_loads (map_snapshot w) relic
  end.

Definition _bootstrap_reach (w : ChoiceWorkItem) : M S (option (list pyval)) :=
  snapshot ← liftR (or_snapshot w);
  _ ← rs_load_state snapshot;
  if veq_str (choice_type w) "map" then mret None
  else if is_none (room_id w) then raiseM (PyExc "AssertionError" "")
  else
    _ ← rs_choose_room (room_id w);
    if negb (discover_prefix w) then _ ← replay_prefix (event_rng_plan w) 0 (action_prefix w); mret None
    else
      initial_auto ← drain_trivial_reward_frontier DEFAULT_MAX_AUTO_ACTIONS;
      obs ← rs_get_observation;
      discovered ← discover 400 (target_boundary w) obs (map VInt (auto_action_ids initial_auto));
      mret (Some discovered).

(** [_WorkerRuntime]. *)
Record _WorkerRuntime := {
  rt_slot : Slot;
  rt_generation : Z;
  rt_pid : Z;
  rt_session : S;
  current_context_id : option string;
}.
Definition set_context (c : option string) : M _WorkerRuntime unit :=
  modS (fun rt => {| rt_slot := rt_slot rt; rt_generation := rt_generation rt; rt_pid := rt_pid rt;
                     rt_session := rt_session rt; current_context_id := c |}).
Definition with_run {A} (c : M S A) : M _WorkerRuntime A := fun rt =>
  let '(r, s) := c (rt_session rt) in
  (r, {| rt_slot := rt_slot rt; rt_generation := rt_generation rt; rt_pid := rt_pid rt; rt_session := s;
         current_context_id := current_context_id rt |}).

Definition runtime_result (rt : _WorkerRuntime) (request : WorkerExecutionRequest) (st : string)
    (r : option ChoiceReachResult) (s : option ChoiceStepResult) (lease : option Lease)
    (discovered : option (list pyval)) (diag : pydict) : BranchResult :=
  {| status := st; result_item := req_item request; execution_mode := req_mode request; result_slot := rt_slot rt;
     result_generation := Some (rt_generation rt); result_pid := Some (rt_pid rt); reach := r; result_step := s;
     established_lease := lease; discovered_action_prefix := discovered; diagnostics := diag |}.

Definition opt_repr (o : option string) : string := match o with Some s => repr_str s | None => "None" end.

(** The state the request asks for: rebuilt, or still held. *)
Definition reach_state (request : WorkerExecutionRequest) : M _WorkerRuntime (option (list pyval)) :=
  let w := req_item request in
  if String.eqb (req_mode request) EXECUTION_MODE_BOOTSTRAP_STEP then
    discovered ← with_run (_bootstrap_reach w);
    _ ← set_context (Some (context_id w));
    mret discovered
  else if String.eqb (req_mode request) EXECUTION_MODE_HOLDER_STEP then
    match expected_lease request with
    | None => raiseM (PyExc "RuntimeError" "Holder Step request requires expected_lease")
    | Some lease =>
        rt ← getS;
        if negb (bool_decide (current_context_id rt = Some (context_id w))) then
          raiseM (PyExc "RuntimeError" ("Holder Step context mismatch: worker=" +:+ opt_repr (current_context_id rt) +:+
            " request=" +:+ repr_str (context_id w)))
        else if negb (worker_generation lease =? rt_generation rt) then
          raiseM (PyExc "RuntimeError" "Holder Step generation mismatch")
        else mret None
    end
  else raiseM (PyExc "RuntimeError" ("unknown execution mode " +:+ repr_str (req_mode request))).

Definition mismatch_diagnostics (w : ChoiceWorkItem) (r : ChoiceReachResult) : pydict :=
  [("fault_kind", VStr "replay_mismatch"); ("expected_boundary", target_boundary w); ("actual_boundary", reach_boundary r);
   ("actual_choice_scope", reach_choice_scope r); ("actual_choice_kind", reach_choice_kind r);
   ("actual_legal_actions", VList (map VDict (reach_legal_actions r)));
   ("actual_room_context", VDict (reach_room_context r)); ("actual_observation", VDict (reach_observation r))]%string.

(** The override of a plan that names the resolved action itself. *)
Definition override_at_resolve (w : ChoiceWorkItem) (r : ChoiceReachResult) : M _WorkerRuntime unit :=
  match event_rng_plan w with
  | Some plan =>
      if apply_before_action_index plan =? Z.of_nat (length (action_prefix w)) then
        if veq_str (reach_boundary r) "event_choice" then with_run (_apply_event_rng_override (override_state plan))
        else raiseM (PyExc "RuntimeError" ("event_rng_plan given but boundary is " +:+ py_repr (reach_boundary r) +:+
               ", not 'event_choice'"))
      else mret tt
  | None => mret tt
  end.

Definition lease_of (rt : _WorkerRuntime) (w : ChoiceWorkItem) (r : ChoiceReachResult) : Res Lease :=
  keys ← mapR legal_action_semantic_key_text (reach_legal_actions r);
  Ok {| worker_slot := rt_slot rt; worker_generation := rt_generation rt; lease_pid := rt_pid rt;
        lease_context_id := context_id w; lease_combat_session_id := dget_none "combat_session_id" (reach_observation r);
        run_seed := dget_none "seed" (reach_observation r);
        step_signature := _json_digest (VDict [("boundary", reach_boundary r); ("choice_scope", reach_choice_scope r);
          ("legal_keys", VList (map VStr (sort_by String.leb keys)))]%string) |}.

(** The actions with this identity. *)
Fixpoint ids_with_key (key : string) (legal_actions : list pydict) : Res (list pyval) :=
  match legal_actions with
  | [] => Ok []
  | a :: rest =>
      text ← legal_action_semantic_key_text a;
      if String.eqb text key then id ← dindex "action_id" a; others ← ids_with_key key rest; Ok (id :: others)
      else ids_with_key key rest
  end.
Definition resolved_id (w : ChoiceWorkItem) (r : ChoiceReachResult) : Res pyval :=
  match resolve_action_semantic_key w with
  | None | Some ""%string => Ok (resolve_action_id w)
  | Some key =>
      matches ← ids_with_key key (reach_legal_actions r);
      match (if resolve_action_ordinal w <? 0 then None else matches !! Z.to_nat (resolve_action_ordinal w)) with
      | Some id => Ok id
      | None => Raise (PyExc "RuntimeError" ("replay action semantic key ordinal did not resolve: key=" +:+ repr_str key +:+
                  ", ordinal=" +:+ pretty (resolve_action_ordinal w) +:+ ", matches=" +:+ py_repr (VList matches) +:+
                  ", legal_actions=" +:+ py_repr (VList (map VDict (reach_legal_actions r)))))
      end
  end.

(** The visible action, as a step of the session. *)
Definition take_action (w : ChoiceWorkItem) (action_id : pyval) : M S pydict :=
  if veq_str (choice_type w) "map" then
    entered ← rs_choose_room action_id;
    observation ← rs_get_observation;
    room_context ← rs_get_room_context;
    mret [("action_id", action_id); ("observation", VDict observation); ("room_context", VDict room_context);
          ("transition", VNone); ("info", dget_or "info" (VDict []) entered); ("room_enter_result", VDict entered)]%string
  else rs_step action_id.

(** The step and what the settled frontier shows. *)
Definition step_and_settle (w : ChoiceWorkItem) (action_id : pyval) :
    M S (pydict * AutoDrainResult * pydict * list pydict * pydict) :=
  result ← take_action w action_id;
  auto ← drain_trivial_reward_frontier DEFAULT_MAX_AUTO_ACTIONS;
  observation ← rs_get_observation;
  boundary ← liftR (dindex "boundary" observation);
  legal ← (if veq_str boundary "map_select" then _map_rooms_as_legal_actions else rs_get_legal_actions);
  room_context ← rs_get_room_context;
  mret (result, auto, observation, legal, room_context).

Definition execute_body (request : WorkerExecutionRequest) : M _WorkerRuntime BranchResult :=
  let w := req_item request in
  discovered ← reach_state request;
  r ← with_run (_reach_result_from_session (choice_type w));
  if negb (py_eqb (reach_boundary r) (target_boundary w)) then
    _ ← set_context None;
    rt ← getS;
    mret (runtime_result rt request BRANCH_STATUS_FAULT None None None None (mismatch_diagnostics w r))
  else
    _ ← override_at_resolve w r;
    rt ← getS;
    if is_none (resolve_action_id w) then
      lease ← liftR (lease_of rt w r);
      mret (runtime_result rt request BRANCH_STATUS_SUCCESS (Some r) None (Some lease) discovered [])
    else
      action_id ← liftR (resolved_id w r);
      settled ← with_run (step_and_settle w action_id);
      _ ← set_context None;
      run_state ← with_run rs_get_run_state;
      let '(result, auto, observation, legal, room_context) := settled in
      mret (runtime_result rt request BRANCH_STATUS_SUCCESS (Some r)
        (Some {| step_result := result; step_run_state := run_state; settled_observation := observation;
                 settled_legal_actions := legal; settled_room_context := room_context;
                 step_auto_action_ids := auto_action_ids auto |}) None None []).

Definition exception_diagnostics (e : pyexn) : pydict :=
  [("fault_kind", VStr "worker_exception"); ("exception_type", VStr (exn_class e)); ("message", VStr (exn_str e));
   ("traceback", VStr (format_exc e)); ("superseded", VBool (str_contains "superseded" (exn_str e)))]%string.

(** [_WorkerRuntime.execute]: any exception becomes a fault result, which
    [BranchResult.__post_init__] accepts for a known mode. *)
Definition execute (request : WorkerExecutionRequest) : M _WorkerRuntime BranchResult :=
  tryM (execute_body request) (fun e =>
    _ ← set_context None;
    rt ← getS;
    if str_in (req_mode request) EXECUTION_MODE_VALUES then
      mret (runtime_result rt request BRANCH_STATUS_FAULT None None None None (exception_diagnostics e))
    else raiseM (value_error ("unknown execution_mode " +:+ repr_str (req_mode request)))).
End Worker.
Arguments _WorkerRuntime : clear implicits.

(** * The pool *)

(** The messages of the shared result queue: what a worker sends when it is
    started, and its answers. *)
Inductive Message :=
  | StartupFault (slot : Slot) (generation : Z) (exc_type msg : string)
  | Ready (slot : Slot) (generation pid : Z)
  | Answer (request_id : Z) (result : BranchResult).

Record _WorkerHandle := {
  handle_generation : Z;
  handle_pid : option Z;
}.

(** The pool with the registry its calls are given. [arrivals] is what the
    result queue will yield, in order: a message, or a time-out; after them the
    workers stay silent. *)
Record Pool := {
  workers : list (Slot * _WorkerHandle);
  next_bootstrap_index : Z;
  next_request_id : Z;
  closed : bool;
  sent : list (Z * Slot * WorkerExecutionRequest);
  arrivals : list (option Message);
  registry : Registry;
}.
Definition with_workers (ws : list (Slot * _WorkerHandle)) (p : Pool) : Pool :=
  {| workers := ws; next_bootstrap_index := next_bootstrap_index p; next_request_id := next_request_id p; closed := closed p;
     sent := sent p; arrivals := arrivals p; registry := registry p |}.
Definition with_index (n : Z) (p : Pool) : Pool :=
  {| workers := workers p; next_bootstrap_index := n; next_request_id := next_request_id p; closed := closed p;
     sent := sent p; arrivals := arrivals p; registry := registry p |}.
Definition with_sent (id : Z) (slot : Slot) (request : WorkerExecutionRequest) (p : Pool) : Pool :=
  {| workers := workers p; next_bootstrap_index := next_bootstrap_index p; next_request_id := id; closed := closed p;
     sent := sent p ++ [(id, slot, request)]; arrivals := arrivals p; registry := registry p |}.
Definition with_arrivals (l : list (option Message)) (p : Pool) : Pool :=
  {| workers := workers p; next_bootstrap_index := next_bootstrap_index p; next_request_id := next_request_id p; closed := closed p;
     sent := sent p; arrivals := l; registry := registry p |}.
Definition with_registry (r : Registry) (p : Pool) : Pool :=
  {| workers := workers p; next_bootstrap_index := next_bootstrap_index p; next_request_id := next_request_id p; closed := closed p;
     sent := sent p; arrivals := arrivals p; registry := r |}.

Fixpoint handle_of (slot : Slot) (ws : list (Slot * _WorkerHandle)) : option _WorkerHandle :=
  match ws with
  | [] => None
  | (s, h) :: rest => if bool_decide (s = slot) then Some h else handle_of slot rest
  end.
Fixpoint set_handle (slot : Slot) (h : _WorkerHandle) (ws : list (Slot * _WorkerHandle)) : list (Slot * _WorkerHandle) :=
  match ws with
  | [] => [(slot, h)]
  | (s, h') :: rest => if bool_decide (s = slot) then (s, h) :: rest else (s, h') :: set_handle slot h rest
  end.
Definition generation_of (slot : Slot) (p : Pool) : option Z := handle_generation <$> handle_of slot (workers p).
Definition branch_worker_slots (p : Pool) : list Slot :=
  List.filter (fun s => negb (bool_decide (s = MAIN_WORKER_SLOT))) (map fst (workers p)).

(** [self._result_queue.get(timeout=...)]: [None] is [queue.Empty]. *)
Definition queue_get : M Pool (option Message) := fun p =>
  match arrivals p with
  | [] => (Ok None, p)
  | m :: rest => (Ok m, with_arrivals rest p)
  end.

Definition unpack_error (few : bool) (expected : Z) (got : Z) : pyexn :=
  if few then value_error ("not enough values to unpack (expected " +:+ pretty expected +:+ ", got " +:+ pretty got +:+ ")")
  else value_error ("too many values to unpack (expected " +:+ pretty expected +:+ ")").
Definition queue_empty : pyexn := PyExc "Empty" "".

Definition _spawn_worker (slot : Slot) (generation : Z) : M Pool unit :=
  modS (fun p => with_workers (set_handle slot {| handle_generation := generation; handle_pid := None |} (workers p)) p).

(** [_await_ready]: as many messages as it takes; anything but a ready message
    does not unpack into four values. *)
Fixpoint await_ready (fuel : nat) (pending : list Slot) : M Pool (option unit) :=
  match pending, fuel with
  | [], _ => mret (Some tt)
  | _, O => mret None
  | _, Datatypes.S fuel =>
      message ← queue_get;
      match message with
      | None => raiseM queue_empty
      | Some (StartupFault slot generation exc_type msg) =>
          raiseM (PyExc "RuntimeError" ("worker " +:+ slot_repr slot +:+ " gen " +:+ pretty generation +:+ " failed to start: " +:+
            exc_type +:+ ": " +:+ msg))
      | Some (Answer _ _) => raiseM (unpack_error true 4 3)
      | Some (Ready slot _ pid) =>
          p ← getS;
          match handle_of slot (workers p) with
          | None => raiseM (PyExc "KeyError" (slot_repr slot))
          | Some h =>
              _ ← modS (fun p => with_workers (set_handle slot {| handle_generation := handle_generation h;
                                                                  handle_pid := Some pid |} (workers p)) p);
              await_ready fuel (List.filter (fun s => negb (bool_decide (s = slot))) pending)
          end
      end
  end.
Definition _await_ready (slots : list Slot) : M Pool (option unit) := fun p =>
  await_ready (Datatypes.S (length (arrivals p))) slots p.

(** [respawn_worker]: [None] when the new worker never reports. *)
Definition respawn_worker (slot : Slot) : M Pool (option unit) :=
  p ← getS;
  let old_generation := default 0 (generation_of slot p) in
  _ ← _spawn_worker slot (old_generation + 1);
  ready ← _await_ready [slot];
  match ready with
  | None => mret None
  | Some _ => _ ← modS (fun p => with_registry (invalidate_worker_generation slot old_generation (registry p)) p); mret (Some tt)
  end.

Definition _submit (slot : Slot) (request : WorkerExecutionRequest) : M Pool Z :=
  p ← getS;
  if closed p then raiseM (PyExc "RuntimeError" "WholeRunWorkerPool is closed")
  else match handle_of slot (workers p) with
  | None => raiseM (PyExc "KeyError" (slot_repr slot))
  | Some _ => let id := next_request_id p + 1 in _ ← modS (with_sent id slot request); mret id
  end.

(** * Routing *)

Definition _choose_bootstrap_slot (branch_slots : list Slot) (r : Registry) (next_index : Z) : Res (Slot * Z) :=
  let leased := worker_slots_holding_leases r in
  let unleased := List.filter (fun s => negb (bool_decide (s ∈ leased))) branch_slots in
  let candidates := match unleased with [] => branch_slots | _ => unleased end in
  match candidates with
  | [] => Raise (PyExc "ZeroDivisionError" "integer modulo by zero")
  | first :: _ => Ok (default first (candidates !! Z.to_nat (next_index mod Z.of_nat (length candidates))), next_index + 1)
  end.

(** The index runs through the batch; the generations are those at its start. *)
Definition _route_choice_work_item (branch_slots : list Slot) (worker_generations : list (Slot * _WorkerHandle))
    (w : ChoiceWorkItem) (index : Z) (holder_slot : option Slot) : M Pool (WorkerExecutionRequest * Slot * Z) :=
  if String.eqb (work_kind w) WORK_KIND_CONTINUATION then
    p ← getS;
    let lease := dget (context_id w) (registry p) in
    let slot := match holder_slot with Some s => Some s | None => worker_slot <$> lease end in
    let routed := s ← slot; l ← lease; generation ← handle_generation <$> handle_of s worker_generations;
                  if is_valid_for w (Some generation) l then Some (l, s) else None in
    match routed with
    | Some (l, s) =>
        mret ({| req_item := w; req_mode := EXECUTION_MODE_HOLDER_STEP; expected_lease := Some l |}, s, index)
    | None =>
        _ ← (match lease with
             | Some l => modS (fun p => with_registry (invalidate_lease l (registry p)) p)
             | None => mret tt
             end);
        raiseM (PyExc "RuntimeError" ("no valid Lease/Holder for continuation context_id=" +:+ repr_str (context_id w)))
    end
  else
    p ← getS;
    chosen ← liftR (_choose_bootstrap_slot branch_slots (registry p) index);
    _ ← (if bool_decide (chosen.1 ∈ worker_slots_holding_leases (registry p))
         then modS (fun p => with_registry (invalidate_worker_all_generations chosen.1 (registry p)) p) else mret tt);
    mret ({| req_item := w; req_mode := EXECUTION_MODE_BOOTSTRAP_STEP; expected_lease := None |}, chosen.1, chosen.2).

(** A request in flight. *)
Record Pending := {
  pd_id : Z;
  pd_item : ChoiceWorkItem;
  pd_slot : Slot;
  pd_mode : string;
}.

Fixpoint submit_each (branch_slots : list Slot) (worker_generations : list (Slot * _WorkerHandle))
    (holder_slots : list (string * Slot)) (work_items : list ChoiceWorkItem) (index : Z) : M Pool (list Pending * Z) :=
  match work_items with
  | [] => mret ([], index)
  | w :: rest =>
      routed ← _route_choice_work_item branch_slots worker_generations w index (dget (work_id w) holder_slots);
      let '(request, slot, index) := routed in
      id ← _submit slot request;
      others ← submit_each branch_slots worker_generations holder_slots rest index;
      mret ({| pd_id := id; pd_item := w; pd_slot := slot; pd_mode := req_mode request |} :: others.1, others.2)
  end.

(** * Collecting the answers *)

Definition timed_out (d : Pending) (stale_generation : option Z) : BranchResult :=
  {| status := BRANCH_STATUS_FAULT; result_item := pd_item d; execution_mode := pd_mode d; result_slot := pd_slot d;
     result_generation := stale_generation; result_pid := None; reach := None; result_step := None;
     established_lease := None; discovered_action_prefix := None;
     diagnostics := [("fault_kind", VStr "task_timeout"); ("exception_type", VStr "TimeoutError");
                     ("message", VStr ("timed out waiting for worker request " +:+ pretty (pd_id d)))]%string |}.

(** The order in which a set of slots is visited. *)
Class SetOrder := {
  visit : list Slot -> list Slot;
  visit_spec : forall l, NoDup (visit l) /\ forall s, s ∈ visit l <-> s ∈ l;
}.

Section Dispatch.
Context {HO : SetOrder}.

Definition on_slot (slot : Slot) (d : Pending) : bool := bool_decide (pd_slot d = slot).
(** The hung workers are replaced one after the other, and their requests
    fail. *)
Fixpoint respawn_hung (slots : list Slot) (remaining : list Pending) (results : list (string * BranchResult)) :
    M Pool (option (list Pending * list (string * BranchResult))) :=
  match slots with
  | [] => mret (Some (remaining, results))
  | slot :: rest =>
      p ← getS;
      let stale_generation := generation_of slot p in
      ready ← respawn_worker slot;
      match ready with
      | None => mret None
      | Some _ =>
          respawn_hung rest (List.filter (fun d => negb (on_slot slot d)) remaining)
            (foldl (fun d x => dset (work_id (pd_item x)) (timed_out x stale_generation) d) results
               (List.filter (on_slot slot) remaining))
      end
  end.

(** The loop while requests remain; [None] when it does not end. *)
Fixpoint collect (fuel : nat) (remaining : list Pending) (results : list (string * BranchResult)) :
    M Pool (option (list (string * BranchResult))) :=
  match remaining, fuel with
  | [], _ => mret (Some results)
  | _, O => mret None
  | _, Datatypes.S fuel =>
      message ← queue_get;
      match message with
      | None =>
          r ← respawn_hung (visit (map pd_slot remaining)) remaining results;
          match r with
          | None => mret None
          | Some (remaining, results) => collect fuel remaining results
          end
      | Some (StartupFault _ _ _ _) => raiseM (unpack_error false 3 5)
      | Some (Ready _ _ _) => raiseM (unpack_error false 3 4)
      | Some (Answer id result) =>
          match List.find (fun d => pd_id d =? id) remaining with
          | None => collect fuel remaining results
          | Some d => collect fuel (List.filter (fun x => negb (pd_id x =? id)) remaining)
                        (dset (work_id (pd_item d)) result results)
          end
      end
  end.

(** What the results do to the leases, item by item. *)
Definition settle_lease (w : ChoiceWorkItem) (result : BranchResult) (r : Registry) : Registry :=
  let r := ddel (context_id w) r in
  if String.eqb (status result) BRANCH_STATUS_SUCCESS then
    match established_lease result with Some l => reg_set l r | None => r end
  else if String.eqb (status result) BRANCH_STATUS_FAULT then invalidate_worker_all_generations (result_slot result) r
  else r.
Fixpoint settle_each (work_items : list ChoiceWorkItem) (results_by_work_id : list (string * BranchResult)) :
    M Pool (list BranchResult) :=
  match work_items with
  | [] => mret []
  | w :: rest =>
      match dget (work_id w) results_by_work_id with
      | None => raiseM (PyExc "KeyError" (repr_str (work_id w)))
      | Some result =>
          _ ← modS (fun p => with_registry (settle_lease w result (registry p)) p);
          others ← settle_each rest results_by_work_id;
          mret (result :: others)
      end
  end.

Definition dispatch_choice_work_items (work_items : list ChoiceWorkItem) (holder_slots : list (string * Slot)) :
    M Pool (option (list BranchResult)) :=
  p ← getS;
  submitted ← submit_each (branch_worker_slots p) (workers p) holder_slots work_items (next_bootstrap_index p);
  p ← getS;
  results_by_work_id ← collect (Datatypes.S (length (arrivals p))) submitted.1 [];
  match results_by_work_id with
  | None => mret None
  | Some results_by_work_id =>
      results ← settle_each work_items results_by_work_id;
      _ ← modS (with_index submitted.2);
      mret (Some results)
  end.
End Dispatch.

(** [close]: the workers are told to stop, once. *)
Definition close (p : Pool) : Pool :=
  if closed p then p
  else {| workers := workers p; next_bootstrap_index := next_bootstrap_index p; next_request_id := next_request_id p;
          closed := true; sent := sent p; arrivals := arrivals p; registry := registry p |}.
End RunPool.

Import RunPool.

(** * The worker *)

Lemma M_bind_Ok_case {S A B} (m : M S A) (f : A -> M S B) s r s' :
  (m ≫= f) s = (r, s') -> (exists a s1, m s = (Ok a, s1) /\ f a s1 = (r, s')) \/ (exists e, m s = (Raise e, s') /\ r = Raise e).
Proof.
  unfold mbind, M_bind. destruct (m s) as [[a|e] s1]; [by left; exists a, s1|]. intros [= <- <-]. right. by exists e.
Qed.

(** ** The calls a session is sent *)

(** The calls that change a run. *)
Inductive Call :=
  | CStart
  | CLoad (snapshot : string)
  | CRoom (room_id : pyval)
  | CStep (action_id : pyval)
  | COverride (streams : pydict).

(** A session that records them. *)
Definition logged {S A} (calls : list Call) (c : M S A) : M (S * list Call) A := fun st =>
  let '(r, s) := c st.1 in (r, (s, st.2 ++ calls)).
Definition LoggedSession {S} (HS : RunSession S) : RunSession (S * list Call) :=
  {| rs_start_run := fun a b c => logged [CStart] (rs_start_run a b c);
     rs_load_state := fun s => logged [CLoad s] (rs_load_state s);
     rs_save_state := logged [] rs_save_state;
     rs_choose_room := fun r => logged [CRoom r] (rs_choose_room r);
     rs_step := fun a => logged [CStep a] (rs_step a);
     rs_get_observation := logged [] rs_get_observation;
     rs_get_legal_actions := logged [] rs_get_legal_actions;
     rs_get_map_rooms := logged [] rs_get_map_rooms;
     rs_get_room_context := logged [] rs_get_room_context;
     rs_get_run_state := logged [] rs_get_run_state;
     rs_get_event_rng_state := logged [] rs_get_event_rng_state;
     rs_set_event_rng_state := fun o => logged [COverride o] (rs_set_event_rng_state o) |}.

Section Makes.
Context {St : Type} (log : St -> list Call).

(** A computation that, when it returns, has made these calls. *)
Definition makes {A} (c : M St A) (Q : A -> list Call -> Prop) : Prop :=
  forall st a st', c st = (Ok a, st') -> exists calls, log st' = log st ++ calls /\ Q a calls.

Lemma makes_bind {A B} (c : M St A) (f : A -> M St B) (Q : A -> list Call -> Prop) (R : B -> list Call -> Prop) :
  makes c Q -> (forall a k, Q a k -> makes (f a) (fun b l => R b (k ++ l))) -> makes (c ≫= f) R.
Proof.
  intros Hc Hf st b st' (a & s1 & H1 & H2)%M_bind_Ok. destruct (Hc _ _ _ H1) as (k & E1 & HQ).
  destruct (Hf a k HQ _ _ _ H2) as (l & E2 & HR). exists (k ++ l). split; [by rewrite E2, E1, app_assoc|done].
Qed.
Lemma makes_mono {A} (c : M St A) (Q R : A -> list Call -> Prop) : makes c Q -> (forall a l, Q a l -> R a l) -> makes c R.
Proof. intros H HQ st a st' Hc. destruct (H _ _ _ Hc) as (l & ? & ?). eauto. Qed.
Lemma makes_ret {A} (a : A) : makes (mret a) (fun b l => b = a /\ l = []).
Proof. intros st b st' [= <- <-]. exists []. by rewrite app_nil_r. Qed.
Lemma makes_liftR {A} (r : Res A) : makes (liftR r) (fun a l => r = Ok a /\ l = []).
Proof. intros st b st' [H ->]%liftR_Ok. exists []. by rewrite app_nil_r. Qed.
Lemma makes_raise {A} e (Q : A -> list Call -> Prop) : makes (raiseM e) Q.
Proof. intros st a st' [=]. Qed.
Lemma makes_quiet {A B} (c : M St A) (f : A -> M St B) (R : B -> list Call -> Prop) :
  makes c (fun _ l => l = []) -> (forall a, makes (f a) R) -> makes (c ≫= f) R.
Proof. intros Hc Hf. eapply makes_bind; [exact Hc|]. intros a k ->. apply Hf. Qed.
Lemma makes_then {A B} calls (c : M St A) (f : A -> M St B) (R : B -> list Call -> Prop) :
  makes c (fun _ l => l = calls) -> (forall a, makes (f a) (fun b l => R b (calls ++ l))) -> makes (c ≫= f) R.
Proof. intros Hc Hf. eapply makes_bind; [exact Hc|]. intros a k ->. apply Hf. Qed.
Lemma quiet_ret {A} (a : A) : makes (mret a) (fun _ l => l = []).
Proof. eapply makes_mono; [apply makes_ret|]. by intros ? ? [_ ->]. Qed.
Lemma quiet_liftR {A} (r : Res A) : makes (liftR r) (fun _ l => l = []).
Proof. eapply makes_mono; [apply makes_liftR|]. by intros ? ? [_ ->]. Qed.

End Makes.

Section Calls.
Context (json_loads : string -> Res pyval) (format_exc : pyexn -> string).
Context {S : Type} (HS : RunSession S).
Notation L := (S * list Call)%type.
Local Notation on_run := (@snd S (list Call)).
Existing Instance LoggedSession.

Lemma makes_logged {A} calls (c : M S A) : makes on_run (logged calls c) (fun _ l => l = calls).
Proof. intros [s k] a st'. unfold logged. cbn. destruct (c s) as [r s1]. intros [= -> <-]. by exists calls. Qed.

Ltac quiet := repeat first
  [ apply quiet_ret | apply quiet_liftR | apply makes_raise | apply makes_logged
  | apply makes_quiet; [|intros ?] | case_match ].

Lemma quiet_rooms : makes on_run _map_rooms_as_legal_actions (fun _ l => l = []).
Proof. unfold _map_rooms_as_legal_actions. quiet. Qed.
Lemma quiet_reach t : makes on_run (_reach_result_from_session t) (fun _ l => l = []).
Proof. unfold _reach_result_from_session. quiet; apply quiet_rooms. Qed.

(** The streams an override sets. *)
Definition streams (p : EventRngReplayPlan) : pydict :=
  List.filter (fun kv => negb (String.eqb kv.1 "event_id")) (override_state p).

(** The reference: the steps of the list in order, the event streams replaced
    once, right before the entry the plan names. *)
Definition replayed_calls (plan : option EventRngReplayPlan) (actions : list pyval) : list Call :=
  match plan with
  | Some p =>
      let i := apply_before_action_index p in
      if (0 <=? i) && (i <? Z.of_nat (length actions)) then
        map CStep (take (Z.to_nat i) actions) ++ COverride (streams p) :: map CStep (drop (Z.to_nat i) actions)
      else map CStep actions
  | None => map CStep actions
  end.
Definition shifted (k : Z) (p : EventRngReplayPlan) : EventRngReplayPlan :=
  {| hypothesis_key := hypothesis_key p; override_state := override_state p;
     apply_before_action_index := apply_before_action_index p - k |}.

Lemma replayed_cons k p a l :
  replayed_calls (Some (shifted k p)) (a :: l)
  = (if apply_before_action_index p =? k then [COverride (streams p)] else []) ++
    CStep a :: replayed_calls (Some (shifted (k + 1) p)) l.
Proof.
  unfold replayed_calls. cbn [apply_before_action_index shifted length]. set (i := apply_before_action_index p).
  change (streams (shifted k p)) with (streams p). change (streams (shifted (k + 1) p)) with (streams p).
  destruct (Z.eqb_spec i k) as [->|].
  - rewrite Z.sub_diag. destruct (Z.ltb_spec 0 (Z.of_nat (Datatypes.S (length l)))); [|lia]. cbn.
    destruct (Z.leb_spec 0 (k - (k + 1))); [lia|]. done.
  - destruct (Z.leb_spec 0 (i - k)), (Z.leb_spec 0 (i - (k + 1))); cbn [andb app]; [|lia..|done].
    destruct (Z.ltb_spec (i - k) (Z.of_nat (Datatypes.S (length l)))), (Z.ltb_spec (i - (k + 1)) (Z.of_nat (length l)));
      [|lia..|done].
    replace (Z.to_nat (i - k)) with (Datatypes.S (Z.to_nat (i - (k + 1)))) by lia. done.
Qed.
Lemma shifted_0 plan actions : replayed_calls (shifted 0 <$> plan) actions = replayed_calls plan actions.
Proof. destruct plan as [p|]; [|done]. unfold replayed_calls. cbn. by rewrite Z.sub_0_r. Qed.

Lemma replay_prefix_calls plan l : forall k,
  makes on_run (replay_prefix plan k l) (fun _ calls => calls = replayed_calls (shifted k <$> plan) l).
Proof.
  induction l as [|a l IH]; intros k; cbn [replay_prefix].
  - eapply makes_mono; [apply quiet_ret|]. intros [] ? ->. destruct plan as [p|]; [|done].
    unfold replayed_calls. cbn [fmap option_fmap option_map length map].
    destruct (Z.leb_spec 0 (apply_before_action_index (shifted k p))), (Z.ltb_spec (apply_before_action_index (shifted k p)) (Z.of_nat 0));
      [lia|done..].
  - destruct plan as [p|]; cbn [fmap option_fmap option_map].
    + rewrite (replayed_cons k p a l). destruct (Z.eqb_spec (apply_before_action_index p) k).
      * eapply makes_then; [apply makes_logged|]. intros []. eapply makes_then; [apply makes_logged|]. intros r.
        eapply makes_mono; [apply IH|]. by intros [] ? ->.
      * eapply makes_quiet; [apply quiet_ret|]. intros []. eapply makes_then; [apply makes_logged|]. intros r.
        eapply makes_mono; [apply IH|]. by intros [] ? ->.
    + eapply makes_quiet; [apply quiet_ret|]. intros []. eapply makes_then; [apply makes_logged|]. intros r.
      eapply makes_mono; [apply IH|]. by intros [] ? ->.
Qed.

Definition auto_calls (ids : list Z) : list Call := map (fun i => CStep (VInt i)) ids.
Lemma drain_calls cap rounds : forall consumed last,
  makes on_run (drain_rounds cap rounds consumed last)
    (fun r calls => exists ids, auto_action_ids r = consumed ++ ids /\ calls = auto_calls ids).
Proof.
  assert (Hdone : forall consumed last, makes on_run (mret {| auto_action_ids := consumed; last_step_result := last |})
    (fun r calls => exists ids, auto_action_ids r = consumed ++ ids /\ calls = auto_calls ids)).
  { intros consumed last. eapply makes_mono; [apply makes_ret|]. intros r ? [-> ->]. exists []. by rewrite app_nil_r. }
  induction rounds as [|rounds IH]; intros consumed last; cbn [drain_rounds];
    (apply makes_quiet; [apply makes_logged|intros obs]); (destruct (negb _); [apply Hdone|]);
    (apply makes_quiet; [apply makes_logged|intros legal]);
    (destruct (List.filter is_take legal) as [|take [|take2 takes]]; [apply Hdone|..]); try apply makes_raise.
  apply makes_quiet; [apply quiet_liftR|intros id]. eapply makes_then; [apply makes_logged|]. intros r.
  eapply makes_mono; [apply IH|]. intros r' calls (ids & -> & ->). exists (id :: ids). by rewrite <- app_assoc.
Qed.

Lemma override_calls (p : EventRngReplayPlan) :
  makes on_run (_apply_event_rng_override (override_state p)) (fun _ l => l = [COverride (streams p)]).
Proof. apply makes_logged. Qed.
Lemma take_action_calls w id : veq_str (choice_type w) "map" = false ->
  makes on_run (take_action w id) (fun _ l => l = [CStep id]).
Proof. intros H. unfold take_action. rewrite H. apply makes_logged. Qed.
Lemma settle_calls w id : veq_str (choice_type w) "map" = false ->
  makes on_run (step_and_settle w id) (fun r l => l = CStep id :: auto_calls (auto_action_ids r.1.1.1.2)).
Proof.
  intros H. unfold step_and_settle. eapply makes_then; [by apply take_action_calls|]. intros r.
  eapply makes_bind; [apply drain_calls|]. intros auto k (ids & Hids & ->). cbn in Hids.
  do 2 (apply makes_quiet; [quiet|intros ?]). apply makes_quiet; [case_match; [apply quiet_rooms|apply makes_logged]|intros legal].
  apply makes_quiet; [quiet|intros room]. eapply makes_mono; [apply makes_ret|]. intros [[[[r' auto'] obs] l'] rc] ? [[= -> -> _ _ _] ->].
  cbn. by rewrite Hids, app_nil_r.
Qed.
Lemma bootstrap_calls w : veq_str (choice_type w) "map" = false -> discover_prefix w = false ->
  makes on_run (_bootstrap_reach json_loads w) (fun _ l => exists snapshot, or_snapshot json_loads w = Ok snapshot /\
    l = CLoad snapshot :: CRoom (room_id w) :: replayed_calls (event_rng_plan w) (action_prefix w)).
Proof.
  intros H Hd. unfold _bootstrap_reach. rewrite H, Hd. cbn [negb].
  eapply makes_bind; [apply makes_liftR|]. intros snapshot k [Hs ->]. eapply makes_then; [apply makes_logged|]. intros [].
  destruct (is_none _); [apply makes_raise|]. eapply makes_then; [apply makes_logged|]. intros room.
  eapply makes_then; [apply replay_prefix_calls|]. intros []. rewrite shifted_0. eapply makes_mono; [apply quiet_ret|].
  intros _ ? ->. exists snapshot. split; [done|]. cbn. by rewrite app_nil_r.
Qed.

(** ** The calls of a worker *)

Definition run_log (rt : _WorkerRuntime L) : list Call := (rt_session rt).2.
Lemma with_run_calls {A} (c : M L A) Q : makes on_run c Q -> makes run_log (with_run c) Q.
Proof.
  intros H rt a rt'. unfold with_run. destruct (c (rt_session rt)) as [r s1] eqn:E. intros [= -> <-].
  destruct (H _ _ _ E) as (l & Hl & HQ). exists l. by split.
Qed.
Lemma getS_calls : makes run_log getS (fun _ l => l = []).
Proof. intros rt a rt' [= _ <-]. exists []. by rewrite app_nil_r. Qed.
Lemma set_context_calls c : makes run_log (set_context c) (fun _ l => l = []).
Proof. intros rt a rt' [= _ <-]. exists []. by rewrite app_nil_r. Qed.

Lemma replayed_snoc plan prefix a :
  replayed_calls plan (prefix ++ [a])
  = replayed_calls plan prefix ++
    (match plan with
     | Some p => if apply_before_action_index p =? Z.of_nat (length prefix) then [COverride (streams p)] else []
     | None => []
     end) ++ [CStep a].
Proof.
  unfold replayed_calls. destruct plan as [p|]; [|by rewrite map_app]. set (i := apply_before_action_index p).
  rewrite length_app. cbn [length].
  destruct (Z.eqb_spec i (Z.of_nat (length prefix))) as [E|N].
  - destruct (Z.leb_spec 0 i), (Z.ltb_spec i (Z.of_nat (length prefix + 1))), (Z.ltb_spec i (Z.of_nat (length prefix))); try lia.
    cbn [andb]. rewrite E, Nat2Z.id, take_app_length, drop_app_length. done.
  - destruct (Z.leb_spec 0 i), (Z.ltb_spec i (Z.of_nat (length prefix + 1))), (Z.ltb_spec i (Z.of_nat (length prefix)));
      try lia; cbn [andb app]; try (by rewrite map_app).
    rewrite take_app_le, drop_app_le by lia. rewrite map_app, <- app_assoc. done.
Qed.

Lemma execute_body_calls request rt r rt' :
  execute_body json_loads request rt = (Ok r, rt') ->
  req_mode request = EXECUTION_MODE_BOOTSTRAP_STEP -> status r = BRANCH_STATUS_SUCCESS ->
  veq_str (choice_type (req_item request)) "map" = false -> discover_prefix (req_item request) = false ->
  is_none (resolve_action_id (req_item request)) = false ->
  exists snapshot id autos, or_snapshot json_loads (req_item request) = Ok snapshot /\
    run_log rt' = run_log rt ++ CLoad snapshot :: CRoom (room_id (req_item request)) ::
      replayed_calls (event_rng_plan (req_item request)) (action_prefix (req_item request) ++ [id]) ++ auto_calls autos.
Proof.
  intros Hrun Hmode Hst Hmap Hdisc Hres. set (w := req_item request) in *.
  assert (H : makes run_log (execute_body json_loads request) (fun r l => status r = BRANCH_STATUS_SUCCESS ->
    exists snapshot id autos, or_snapshot json_loads w = Ok snapshot /\
      l = CLoad snapshot :: CRoom (room_id w) :: replayed_calls (event_rng_plan w) (action_prefix w ++ [id]) ++ auto_calls autos)).
  2:{ destruct (H _ _ _ Hrun) as (l & Hl & Hq). destruct (Hq Hst) as (snapshot & id & autos & Hs & ->). by exists snapshot, id, autos. }
  clear Hrun Hst. unfold execute_body. fold w. eapply makes_bind.
  { unfold reach_state. rewrite Hmode, String.eqb_refl.
    eapply makes_bind; [apply with_run_calls, bootstrap_calls; done|]. intros d k Hk.
    apply makes_quiet; [apply set_context_calls|intros []]. eapply makes_mono; [apply quiet_ret|]. intros ? ? ->.
    rewrite app_nil_r. exact Hk. }
  intros d k (snapshot & Hs & ->). apply makes_quiet; [apply with_run_calls, quiet_reach|intros rr].
  destruct (negb _).
  { apply makes_quiet; [apply set_context_calls|intros []]. apply makes_quiet; [apply getS_calls|intros rt1].
    eapply makes_mono; [apply makes_ret|]. intros r' ? [-> _] Hst. discriminate Hst. }
  rewrite Hres. eapply makes_bind with (Q := fun _ l => l = match event_rng_plan w with
     | Some p => if apply_before_action_index p =? Z.of_nat (length (action_prefix w)) then [COverride (streams p)] else []
     | None => [] end).
  { unfold override_at_resolve. destruct (event_rng_plan w) as [p|]; [|apply quiet_ret].
    destruct (_ =? _); [|apply quiet_ret]. destruct (veq_str (reach_boundary rr) "event_choice"); [|apply makes_raise]. apply with_run_calls, override_calls. }
  intros [] k ->. apply makes_quiet; [apply getS_calls|intros rt1]. apply makes_quiet; [apply quiet_liftR|intros id].
  eapply makes_bind; [apply with_run_calls, settle_calls, Hmap|]. intros settled k ->.
  apply makes_quiet; [apply set_context_calls|intros []]. apply makes_quiet; [apply with_run_calls, makes_logged|intros run_state].
  destruct settled as [[[[result auto] obs] legal] room]. eapply makes_mono; [apply makes_ret|]. intros r' ? [-> ->] _.
  exists snapshot, id, (auto_action_ids auto). split; [done|]. rewrite replayed_snoc. cbn. rewrite app_nil_r, <- !app_assoc. done.
Qed.
End Calls.

(** * What a worker holds *)

Section Held.
Context (json_loads : string -> Res pyval) (format_exc : pyexn -> string).
Context {S : Type} {HS : RunSession S}.

(** The states in which a session waits at the choice [c]: it was rebuilt for
    it, and since then only looked at, or given event streams. *)
Inductive reached (c : string) : S -> Prop :=
  | reached_rebuilt w s d s' : context_id w = c -> _bootstrap_reach json_loads w s = (Ok d, s') -> reached c s'
  | reached_looked t s r s' : reached c s -> _reach_result_from_session t s = (Ok r, s') -> reached c s'
  | reached_primed o s s' : reached c s -> _apply_event_rng_override o s = (Ok tt, s') -> reached c s'.

(** The runtimes of a worker process. *)
Inductive worker_reachable : _WorkerRuntime S -> Prop :=
  | worker_fresh rt : current_context_id rt = None -> worker_reachable rt
  | worker_executed rt request result rt' : worker_reachable rt ->
      execute json_loads format_exc request rt = (Ok result, rt') -> worker_reachable rt'.

Definition holds_its_context (rt : _WorkerRuntime S) : Prop :=
  forall c, current_context_id rt = Some c -> reached c (rt_session rt).

Lemma with_run_Ok {A} (c : M S A) rt a rt' : with_run c rt = (Ok a, rt') ->
  c (rt_session rt) = (Ok a, rt_session rt') /\ current_context_id rt' = current_context_id rt /\ rt_generation rt' = rt_generation rt.
Proof. unfold with_run. destruct (c (rt_session rt)) as [r s]. by intros [= -> <-]. Qed.
Lemma getS_Ok (rt : _WorkerRuntime S) a rt' : getS rt = (Ok a, rt') -> a = rt /\ rt' = rt.
Proof. by intros [= <- <-]. Qed.
Lemma set_context_Ok c (rt : _WorkerRuntime S) a rt' : set_context c rt = (Ok a, rt') ->
  current_context_id rt' = c /\ rt_session rt' = rt_session rt /\ rt_generation rt' = rt_generation rt.
Proof. by intros [= _ <-]. Qed.

(** The state a request asks for is at hand. *)
Lemma reach_state_Ok request rt d rt' : holds_its_context rt -> reach_state json_loads request rt = (Ok d, rt') ->
  current_context_id rt' = Some (context_id (req_item request)) /\ reached (context_id (req_item request)) (rt_session rt') /\
  (req_mode request = EXECUTION_MODE_HOLDER_STEP ->
   rt' = rt /\ exists l, expected_lease request = Some l /\ worker_generation l = rt_generation rt).
Proof.
  intros Hh. unfold reach_state. destruct (String.eqb_spec (req_mode request) EXECUTION_MODE_BOOTSTRAP_STEP) as [E|N].
  - intros (d1 & rt1 & [H1 [_ _]]%with_run_Ok & (u & rt2 & (Hc & Hs & _)%set_context_Ok & [= <- <-])%M_bind_Ok)%M_bind_Ok.
    rewrite Hc, Hs. split; [done|]. split; [by eapply reached_rebuilt|]. rewrite E. discriminate.
  - destruct (String.eqb_spec (req_mode request) EXECUTION_MODE_HOLDER_STEP); [|done].
    destruct (expected_lease request) as [l|]; [|done]. intros (? & ? & [-> ->]%getS_Ok & H)%M_bind_Ok.
    case_bool_decide as Hc; [|done]. cbn [negb] in H. destruct (Z.eqb_spec (worker_generation l) (rt_generation rt)); [|done].
    injection H as <- <-. split; [done|]. split; [by apply Hh|]. intros _. split; [done|]. by exists l.
Qed.

Lemma override_Ok w r (rt : _WorkerRuntime S) u rt' c : reached c (rt_session rt) -> override_at_resolve w r rt = (Ok u, rt') ->
  reached c (rt_session rt') /\ current_context_id rt' = current_context_id rt.
Proof.
  intros Hr. unfold override_at_resolve. destruct (event_rng_plan w) as [p|]; [|by intros [= _ <-]].
  destruct (_ =? _); [|by intros [= _ <-]]. destruct (veq_str (reach_boundary r) _); [|done].
  destruct u. intros (Ho & Hc & _)%with_run_Ok. split; [|done]. by eapply reached_primed.
Qed.

Lemma execute_body_Ok request rt res rt' : holds_its_context rt -> execute_body json_loads request rt = (Ok res, rt') ->
  (forall c, current_context_id rt' = Some c -> c = context_id (req_item request) /\ reached c (rt_session rt')) /\
  (status res = BRANCH_STATUS_SUCCESS ->
   current_context_id rt' = if is_none (resolve_action_id (req_item request)) then Some (context_id (req_item request)) else None) /\
  (req_mode request = EXECUTION_MODE_HOLDER_STEP ->
   reached (context_id (req_item request)) (rt_session rt) /\
   exists l, expected_lease request = Some l /\ worker_generation l = rt_generation rt).
Proof.
  intros Hh. unfold execute_body. set (w := req_item request).
  intros (d & rt1 & H1 & (r & rt2 & (H2 & Hc2 & _)%with_run_Ok & H)%M_bind_Ok)%M_bind_Ok.
  destruct (reach_state_Ok _ _ _ _ Hh H1) as (Hc1 & Hr1 & Hhold). fold w in Hc1, Hr1.
  assert (Hr2 : reached (context_id w) (rt_session rt2)) by (by eapply reached_looked).
  assert (Hhold' : req_mode request = EXECUTION_MODE_HOLDER_STEP -> reached (context_id w) (rt_session rt) /\
    exists l, expected_lease request = Some l /\ worker_generation l = rt_generation rt).
  { intros E. destruct (Hhold E) as [-> Hl]. by split. }
  destruct (negb _).
  { apply M_bind_Ok in H as (u & rt3 & (Hc3 & _ & _)%set_context_Ok & (rt4 & rt5 & [-> ->]%getS_Ok & [= <- <-])%M_bind_Ok).
    split_and!; [rewrite Hc3; discriminate|discriminate|exact Hhold']. }
  apply M_bind_Ok in H as (u & rt3 & H3 & (rt4 & rt5 & [-> ->]%getS_Ok & H)%M_bind_Ok).
  destruct (override_Ok _ _ _ _ _ _ Hr2 H3) as [Hr3 Hc3]. destruct (is_none (resolve_action_id w)).
  - apply M_bind_Ok in H as (lease & rt6 & [_ ->]%liftR_Ok & [= <- <-]).
    assert (Hc : current_context_id rt3 = Some (context_id w)) by (by rewrite Hc3, Hc2). rewrite Hc.
    split_and!; [by intros c [= <-]|done|exact Hhold'].
  - apply M_bind_Ok in H as (id & rt6 & [_ ->]%liftR_Ok & (settled & rt7 & Hs & (u' & rt8 & (Hc8 & _ & _)%set_context_Ok & H)%M_bind_Ok)%M_bind_Ok).
    apply M_bind_Ok in H as (run_state & rt9 & (_ & Hc9 & _)%with_run_Ok & H). rewrite Hc8 in Hc9.
    destruct settled as [[[[result auto] obs] legal] room]. injection H as <- <-. rewrite Hc9.
    split_and!; [discriminate|done|exact Hhold'].
Qed.

Lemma execute_cases request rt res rt' : execute json_loads format_exc request rt = (Ok res, rt') ->
  execute_body json_loads request rt = (Ok res, rt') \/
  current_context_id rt' = None /\ status res = BRANCH_STATUS_FAULT.
Proof.
  unfold execute, tryM. destruct (execute_body json_loads request rt) as [[r|e] rt1]; [intros [= <- <-]; by left|].
  intros (u & rt2 & (Hc & _ & _)%set_context_Ok & (rt3 & rt4 & [-> ->]%getS_Ok & H)%M_bind_Ok)%M_bind_Ok.
  destruct (str_in _ _); [|done]. injection H as <- <-. by right.
Qed.

Lemma reachable_holds rt : worker_reachable rt -> holds_its_context rt.
Proof.
  induction 1 as [rt Hc|rt request result rt' _ IH H]; intros c Hc'; [congruence|].
  apply execute_cases in H as [H|[Hn _]]; [|congruence]. destruct (execute_body_Ok _ _ _ _ IH H) as [Hr _].
  by apply Hr.
Qed.

(** a worker continues only what it holds. Whatever requests its process was
    given before, when a holder step succeeds the session was still waiting at
    the choice of the request: it had been rebuilt for that choice, and only
    looked at since; the lease is one of this very process. After a step the
    worker holds nothing; when no action was resolved it goes on holding the
    choice. *)
Theorem holder_steps_on_the_held_choice request rt res rt' :
  worker_reachable rt -> execute json_loads format_exc request rt = (Ok res, rt') ->
  req_mode request = EXECUTION_MODE_HOLDER_STEP -> status res = BRANCH_STATUS_SUCCESS ->
  reached (context_id (req_item request)) (rt_session rt) /\
  (exists l, expected_lease request = Some l /\ worker_generation l = rt_generation rt) /\
  current_context_id rt' = (if is_none (resolve_action_id (req_item request)) then Some (context_id (req_item request)) else None).
Proof.
  intros Hr [H|[_ Hf]]%execute_cases Hm Hs; [|rewrite Hf in Hs; discriminate Hs].
  destruct (execute_body_Ok _ _ _ _ (reachable_holds _ Hr) H) as (_ & Hc & Hh).
  destruct (Hh Hm) as [H1 H2]. split_and!; [done|done|by apply Hc].
Qed.

End Held.


(** * The pool *)

Lemma handle_of_set s s' h ws : handle_of s (set_handle s' h ws) = if bool_decide (s' = s) then Some h else handle_of s ws.
Proof.
  induction ws as [|[t h'] ws IH]; cbn; [done|]. destruct (decide (t = s')) as [->|N].
  - rewrite (bool_decide_true (s' = s')) by done. cbn. by destruct (bool_decide (s' = s)).
  - rewrite (bool_decide_false (t = s')) by done. cbn. rewrite IH. destruct (decide (t = s)) as [->|]; [|by rewrite bool_decide_false].
    by rewrite (bool_decide_false (s' = s)), bool_decide_true by congruence.
Qed.

Definition wid (d : Pending) : string := work_id (pd_item d).

Section KeyedFold.
Context {V : Type} (f : Pending -> V).
Lemma dget_foldl_fresh k l : forall (acc : list (string * V)), k ∉ map wid l ->
  dget k (foldl (fun d x => dset (wid x) (f x) d) acc l) = dget k acc.
Proof.
  induction l as [|x l IH]; intros acc Hk; cbn; [done|]. cbn in Hk. rewrite not_elem_of_cons in Hk. destruct Hk as [Hx Hl].
  rewrite IH by done. by apply dget_dset_ne.
Qed.
Lemma dget_foldl_elem l : forall (acc : list (string * V)) x, NoDup (map wid l) -> x ∈ l ->
  dget (wid x) (foldl (fun d x => dset (wid x) (f x) d) acc l) = Some (f x).
Proof.
  induction l as [|y l IH]; intros acc x Hnd Hx; [by apply elem_of_nil in Hx|]. cbn in *. apply NoDup_cons in Hnd as [Hy Hnd].
  apply elem_of_cons in Hx as [->|Hx]; [|by apply IH]. rewrite dget_foldl_fresh by done. apply dget_dset_eq.
Qed.
End KeyedFold.

Lemma elem_of_List_filter {A} (P : A -> bool) x l : x ∈ List.filter P l <-> x ∈ l /\ P x = true.
Proof. rewrite !list_elem_of_In. apply filter_In. Qed.

(** ** Submitting *)

Lemma submit_Ok slot request p id p' : _submit slot request p = (Ok id, p') ->
  id = next_request_id p + 1 /\ p' = with_sent id slot request p /\ is_Some (handle_of slot (workers p)).
Proof.
  unfold _submit. intros (p0 & p1 & [= <- <-] & H)%M_bind_Ok. destruct (closed p); [done|].
  destruct (handle_of slot (workers p)) as [h|]; [|done]. injection H as <- <-. split_and!; [done|done|by exists h].
Qed.

(** A registry that only lost leases. *)
Definition fewer_leases (p' p : Pool) : Prop := forall cl, cl ∈ registry p' -> cl ∈ registry p.
#[global] Instance fewer_leases_preorder : PreOrder fewer_leases.
Proof. split; [by intros p cl|]. intros p q r H1 H2 cl H. by apply H2, H1. Qed.

Lemma invalidate_lease_elem l r cl : cl ∈ invalidate_lease l r -> cl ∈ r.
Proof.
  unfold invalidate_lease. destruct (dget _ r) as [l'|]; [|done]. destruct (lease_eqb l' l); [|done].
  unfold ddel. by intros [? _]%elem_of_List_filter.
Qed.

(** A request for the holder of a lease: the lease of its choice, of the
    generation its worker has. *)
Definition well_routed (ws : list (Slot * _WorkerHandle)) (r : Registry) (request : WorkerExecutionRequest) (slot : Slot) : Prop :=
  if String.eqb (work_kind (req_item request)) WORK_KIND_CONTINUATION then
    req_mode request = EXECUTION_MODE_HOLDER_STEP /\
    exists l, expected_lease request = Some l /\ dget (context_id (req_item request)) r = Some l /\
      lease_context_id l = context_id (req_item request) /\
      handle_generation <$> handle_of slot ws = Some (worker_generation l)
  else req_mode request = EXECUTION_MODE_BOOTSTRAP_STEP /\ expected_lease request = None.

Lemma route_Ok bs ws w index holder p request slot index' p' :
  _route_choice_work_item bs ws w index holder p = (Ok (request, slot, index'), p') ->
  req_item request = w /\ well_routed ws (registry p) request slot /\ fewer_leases p' p /\
  workers p' = workers p /\ arrivals p' = arrivals p /\ next_request_id p' = next_request_id p /\ sent p' = sent p.
Proof.
  unfold _route_choice_work_item, well_routed. destruct (String.eqb (work_kind w) WORK_KIND_CONTINUATION) eqn:Ek.
  - intros (p0 & p1 & [= <- <-] & H)%M_bind_Ok. set (s0 := match holder with Some s => Some s | None => _ end) in H.
    destruct s0 as [s|]; cbn [mbind option_bind] in H; [|by apply M_bind_Ok in H as (? & ? & _ & [=])].
    destruct (dget (context_id w) (registry p)) as [l|] eqn:El; cbn [mbind option_bind] in H;
      [|by apply M_bind_Ok in H as (? & ? & _ & [=])].
    destruct (handle_generation <$> handle_of s ws) as [g|] eqn:Eg; cbn [mbind option_bind] in H;
      [|by apply M_bind_Ok in H as (? & ? & _ & [=])].
    destruct (is_valid_for w (Some g) l) eqn:Ev; [|by apply M_bind_Ok in H as (? & ? & _ & [=])].
    injection H as <- <- <- <-. cbn [req_item req_mode expected_lease]. rewrite Ek. split_and!; try done.
    exists l. unfold is_valid_for in Ev. apply andb_true_iff in Ev as [Ev Hg]. apply andb_true_iff in Ev as [_ Hc].
    apply String.eqb_eq in Hc. apply Z.eqb_eq in Hg. split_and!; congruence.
  - intros (p0 & p1 & [= <- <-] & ([s i] & p2 & [_ ->]%liftR_Ok & (u & p3 & Hu & [= <- <- <- <-])%M_bind_Ok)%M_bind_Ok)%M_bind_Ok.
    cbn [req_item req_mode expected_lease]. rewrite Ek.
    case_bool_decide; injection Hu as _ <-; split_and!; try done. intros cl. cbn. by intros [? _]%elem_of_List_filter.
Qed.

(** What is in flight once a batch is submitted. *)
Record in_flight (p p' : Pool) (items : list ChoiceWorkItem) (pds : list Pending) : Prop := {
  fl_items : map pd_item pds = items;
  fl_workers : workers p' = workers p;
  fl_arrivals : arrivals p' = arrivals p;
  fl_ids : NoDup (map pd_id pds);
  fl_fresh : forall d, d ∈ pds -> next_request_id p < pd_id d;
  fl_handles : forall d, d ∈ pds -> is_Some (handle_of (pd_slot d) (workers p));
  fl_leases : fewer_leases p' p;
  fl_sent : exists new, sent p' = sent p ++ new /\
    Forall2 (fun d x => x.1 = (pd_id d, pd_slot d) /\ req_item x.2 = pd_item d /\
      exists r, (forall cl, cl ∈ r -> cl ∈ registry p) /\ well_routed (workers p) r x.2 (pd_slot d)) pds new;
}.

Lemma submit_each_Ok bs hs items : forall index p pds idx p',
  submit_each bs (workers p) hs items index p = (Ok (pds, idx), p') -> in_flight p p' items pds.
Proof.
  induction items as [|w items IH]; intros index p pds idx p'; cbn [submit_each].
  { intros [= <- _ <-]. split; try done; [constructor|by intros d ?%elem_of_nil..|]. exists []. by rewrite app_nil_r. }
  intros ([[request slot] i1] & p1 & Hr & (id & p2 & (-> & -> & Hh)%submit_Ok & ([others i2] & p3 & Ho & [= <- _ <-])%M_bind_Ok)%M_bind_Ok)%M_bind_Ok.
  destruct (route_Ok _ _ _ _ _ _ _ _ _ _ Hr) as (Hi & Hw & Hf & Ews & Ear & Eid & Es).
  rewrite Ews in Hh. rewrite <- Ews in Ho. set (p2 := with_sent _ _ _ p1) in *.
  change (workers p1) with (workers p2) in Ho. apply IH in Ho. destruct Ho as [H1 H2 H3 H4 H5 H6 H7 (new & H8 & H9)].
  cbn [p2 with_sent workers arrivals next_request_id sent registry] in *.
  split; cbn [map pd_item pd_id].
  - by rewrite H1.
  - by rewrite H2.
  - by rewrite H3.
  - apply NoDup_cons. split; [|done]. intros (d & Ed & Hd)%list_elem_of_fmap. apply H5 in Hd. lia.
  - intros d [->|Hd]%elem_of_cons; cbn; [lia|]. apply H5 in Hd. lia.
  - intros d [->|Hd]%elem_of_cons; [done|]. rewrite <- Ews. by apply H6.
  - etrans; [exact H7|exact Hf].
  - exists ((next_request_id p1 + 1, slot, request) :: new). split; [by rewrite H8, <- app_assoc, Es|]. constructor.
    + cbn. split_and!; [done|done|]. exists (registry p). by split.
    + eapply Forall2_impl; [exact H9|]. intros d x (E1 & E2 & r & Hr1 & Hr2). split_and!; [done|done|]. exists r.
      rewrite Ews in Hr2. split; [|done]. intros cl Hcl. by apply Hf, Hr1.
Qed.

(** ** Replacing workers *)

(** Nothing was sent, no lease gained. *)
Definition only_losses (p' p : Pool) : Prop := fewer_leases p' p /\ sent p' = sent p.
#[global] Instance only_losses_preorder : PreOrder only_losses.
Proof.
  split; [by intros p; split|]. intros p q r [H1 E1] [H2 E2]. split; [by etrans|congruence].
Qed.

(** What awaiting ready messages leaves as it was. *)
Definition only_pids (p p' : Pool) : Prop :=
  (forall s, generation_of s p' = generation_of s p) /\ registry p' = registry p /\ sent p' = sent p /\ (length (arrivals p') <= length (arrivals p))%nat.

Lemma queue_get_Ok p m p' : queue_get p = (Ok m, p') ->
  (forall s, generation_of s p' = generation_of s p) /\ registry p' = registry p /\ sent p' = sent p /\ workers p' = workers p /\
  ((arrivals p = [] /\ m = None /\ p' = p) \/ arrivals p = m :: arrivals p').
Proof.
  unfold queue_get. destruct (arrivals p) as [|m' rest] eqn:E; intros [= <- <-]; split_and!; try done; [left|right]; done.
Qed.

Lemma await_ready_spec fuel : forall pending p, (length (arrivals p) < fuel)%nat ->
  match await_ready fuel pending p with
  | (Ok (Some _), p') => only_pids p p'
  | (Ok None, _) => False
  | (Raise _, _) => True
  end.
Proof.
  induction fuel as [|fuel IH]; intros pending p Hf; [lia|]. destruct pending as [|s pending]; cbn [await_ready]; [done|].
  unfold mbind at 1, M_bind at 1. destruct (queue_get p) as [[m|e] p1] eqn:Eq; [|done].
  destruct (queue_get_Ok _ _ _ Eq) as (Hg & Hr & Hsent & Hw & [(_ & -> & ->)|Ha]); [done|].
  destruct m as [[slot g t msg|slot g pid|id r]|]; [done| |done..].
  erewrite M_run_Ok by reflexivity. destruct (handle_of slot (workers p1)) as [h|] eqn:Eh; [|exact I].
  erewrite M_run_Ok by reflexivity. set (p2 := with_workers _ p1).
  specialize (IH (List.filter (fun s => negb (bool_decide (s = slot))) (s :: pending)) p2).
  assert (H2 : forall t, generation_of t p2 = generation_of t p1).
  { intros t. unfold generation_of, p2. cbn. rewrite handle_of_set. case_bool_decide; [subst; by rewrite Eh|done]. }
  assert (Hlt : (length (arrivals p2) < fuel)%nat) by (rewrite Ha in Hf; cbn in Hf; cbn; lia). specialize (IH Hlt).
  destruct (await_ready fuel _ p2) as [[[[]|]|e] p']; [|done..]. destruct IH as (I1 & I2 & I4 & I3). split_and!.
  - intros t. by rewrite I1, H2, Hg.
  - by rewrite I2.
  - by rewrite I4.
  - rewrite Ha. cbn in *. lia.
Qed.

Lemma respawn_spec slot p :
  match respawn_worker slot p with
  | (Ok (Some _), p') => (forall s, generation_of s p' = if bool_decide (slot = s) then Some (default 0 (generation_of slot p) + 1)
                                                         else generation_of s p) /\
                         only_losses p' p /\ (length (arrivals p') <= length (arrivals p))%nat
  | (Ok None, _) => False
  | (Raise _, _) => True
  end.
Proof.
  unfold respawn_worker. do 2 (erewrite M_run_Ok by reflexivity). set (p1 := with_workers _ p).
  unfold mbind, M_bind, _await_ready.
  pose proof (await_ready_spec (Datatypes.S (length (arrivals p1))) [slot] p1 ltac:(lia)) as H.
  destruct (await_ready _ _ p1) as [[[[]|]|e] p2]; [|done..]. destruct H as (Hg & Hr & Hs & Ha). unfold modS. split_and!.
  - intros s. unfold generation_of. cbn [with_registry workers]. fold (generation_of s p2). rewrite Hg. unfold generation_of, p1.
    cbn. rewrite handle_of_set. by case_bool_decide.
  - split; [|exact Hs]. intros cl. cbn. rewrite Hr. by intros [? _]%elem_of_List_filter.
  - cbn. exact Ha.
Qed.

Section DispatchFacts.
Context {HO : SetOrder}.

Lemma respawn_hung_spec slots : forall remaining results p, NoDup slots -> NoDup (map wid remaining) ->
  match respawn_hung slots remaining results p with
  | (Ok (Some (rest, out)), p') =>
      (forall d, d ∈ rest <-> d ∈ remaining /\ pd_slot d ∉ slots) /\
      (forall s, generation_of s p' = if bool_decide (s ∈ slots) then Some (default 0 (generation_of s p) + 1) else generation_of s p) /\
      (forall d, d ∈ remaining -> pd_slot d ∈ slots -> dget (wid d) out = Some (timed_out d (generation_of (pd_slot d) p))) /\
      (forall k, k ∉ map wid (List.filter (fun d => bool_decide (pd_slot d ∈ slots)) remaining) -> dget k out = dget k results) /\
      only_losses p' p
  | (Ok None, _) => False
  | (Raise _, _) => True
  end.
Proof.
  induction slots as [|slot slots IH]; intros remaining results p Hs Hnd; cbn [respawn_hung].
  { cbn. split_and!.
    - intros d. split; [intros ?; split; [done|apply not_elem_of_nil]|tauto].
    - intros s. by rewrite bool_decide_false by apply not_elem_of_nil.
    - intros d _ []%elem_of_nil.
    - done.
    - done. }
  apply NoDup_cons in Hs as [Hni Hs]. erewrite M_run_Ok by reflexivity. unfold mbind at 1, M_bind at 1.
  pose proof (respawn_spec slot p) as Hr. destruct (respawn_worker slot p) as [[[[]|]|e] p1]; [|done..].
  destruct Hr as (Hg & Hl & _).
  set (rest := List.filter (fun d => negb (on_slot slot d)) remaining). set (here := List.filter (on_slot slot) remaining).
  assert (Hrest : forall d, d ∈ rest <-> d ∈ remaining /\ pd_slot d <> slot).
  { intros d. unfold rest, on_slot. rewrite elem_of_List_filter, negb_true_iff, bool_decide_eq_false. done. }
  assert (Hhere : forall d, d ∈ here <-> d ∈ remaining /\ pd_slot d = slot).
  { intros d. unfold here, on_slot. rewrite elem_of_List_filter, bool_decide_eq_true. done. }
  assert (Hndh : NoDup (map wid here)) by (by apply NoDup_map_filter).
  set (results1 := foldl _ results here).
  specialize (IH rest results1 p1 Hs (NoDup_map_filter _ _ _ Hnd)).
  assert (Hdisj : forall d d', d ∈ here -> d' ∈ rest -> wid d <> wid d').
  { intros d d' [Hd Es]%Hhere [Hd' Ns]%Hrest E. assert (d = d') as ->; [|done].
    clear -Hnd Hd Hd' E. induction remaining as [|x l IHl]; [by apply elem_of_nil in Hd|]. cbn in Hnd. apply NoDup_cons in Hnd as [Hx Hnd].
    apply elem_of_cons in Hd as [->|Hd]; apply elem_of_cons in Hd' as [->|Hd']; [done|..|by apply IHl].
    - destruct Hx. rewrite E. by apply list_elem_of_fmap_2.
    - destruct Hx. rewrite <- E. by apply list_elem_of_fmap_2. }
  destruct (respawn_hung slots rest results1 p1) as [[[[rest' out]|]|e] p']; [|done..].
  destruct IH as (I1 & I2 & I3 & I4 & I5). split_and!.
  - intros d. rewrite I1, Hrest, not_elem_of_cons. tauto.
  - intros s. rewrite I2, Hg. destruct (decide (s = slot)) as [->|N].
    + rewrite (bool_decide_false (slot ∈ slots)), !bool_decide_true by (done || by left). done.
    + rewrite (bool_decide_false (slot = s)) by congruence.
      destruct (decide (s ∈ slots)) as [H|H];
        [rewrite !bool_decide_true by (done || by right); done|rewrite !bool_decide_false; [done| |done]].
      by intros [?|?]%elem_of_cons.
  - intros d Hd Hin. destruct (decide (pd_slot d = slot)) as [E|N].
    + assert (Hdh : d ∈ here) by (by apply Hhere). rewrite I4.
      * rewrite E. exact (dget_foldl_elem (fun x => timed_out x (generation_of slot p)) here results d Hndh Hdh).
      * intros (d' & E' & Hd')%list_elem_of_fmap. apply elem_of_List_filter in Hd' as [Hd' _]. by eapply Hdisj.
    + apply elem_of_cons in Hin as [?|Hin]; [done|]. rewrite I3; [|by apply Hrest|done].
      do 2 f_equal. rewrite Hg. by rewrite bool_decide_false by congruence.
  - intros k Hk. rewrite I4.
    + apply (dget_foldl_fresh (fun x => timed_out x (generation_of slot p)) k here results). intros (d & -> & Hd)%list_elem_of_fmap. apply Hk, list_elem_of_fmap_2.
      apply elem_of_List_filter. apply Hhere in Hd as [Hd E]. split; [done|]. apply bool_decide_eq_true. rewrite E. by left.
    + intros (d & -> & Hd)%list_elem_of_fmap. apply Hk, list_elem_of_fmap_2. apply elem_of_List_filter in Hd as [Hd Hs'].
      apply elem_of_List_filter. apply Hrest in Hd as [Hd _]. split; [done|]. apply bool_decide_eq_true. right.
      by apply bool_decide_eq_true in Hs'.
  - etrans; [exact I5|exact Hl].
Qed.

(** ** Collecting the answers *)

(** A request settled: answered under its id, or failed by the time-out that
    replaced its worker. *)
Definition answered (p p' : Pool) (d : Pending) (r : BranchResult) : Prop :=
  Some (Answer (pd_id d) r) ∈ arrivals p \/
  r = timed_out d (generation_of (pd_slot d) p) /\
  generation_of (pd_slot d) p' = Some (default 0 (generation_of (pd_slot d) p) + 1).

Lemma find_pending id l d : List.find (fun d => pd_id d =? id) l = Some d -> d ∈ l /\ pd_id d = id.
Proof. intros [H1 H2%Z.eqb_eq]%find_some. by rewrite list_elem_of_In. Qed.

Lemma NoDup_map_inj {A B} (f : A -> B) l x y : NoDup (map f l) -> x ∈ l -> y ∈ l -> f x = f y -> x = y.
Proof.
  induction l as [|z l IH]; intros Hnd Hx Hy E; [by apply elem_of_nil in Hx|]. cbn in Hnd. apply NoDup_cons in Hnd as [Hz Hnd].
  apply elem_of_cons in Hx as [->|Hx]; apply elem_of_cons in Hy as [->|Hy]; [done|..|by apply IH].
  - destruct Hz. rewrite E. by apply list_elem_of_fmap_2.
  - destruct Hz. rewrite <- E. by apply list_elem_of_fmap_2.
Qed.

Lemma collect_spec fuel : forall remaining results p, (length (arrivals p) < fuel)%nat ->
  NoDup (map pd_id remaining) -> NoDup (map wid remaining) ->
  match collect fuel remaining results p with
  | (Ok (Some out), p') =>
      (forall k, k ∉ map wid remaining -> dget k out = dget k results) /\
      (forall d, d ∈ remaining -> exists r, dget (wid d) out = Some r /\ answered p p' d r) /\
      only_losses p' p
  | (Ok None, _) => False
  | (Raise _, _) => True
  end.
Proof.
  induction fuel as [|fuel IH]; intros remaining results p Hf Hid Hw; [lia|].
  destruct remaining as [|d0 l]; [cbn; split_and!; [done|by intros d ?%elem_of_nil|done]|].
  cbn [collect]. set (remaining := d0 :: l) in *. unfold mbind at 1, M_bind at 1.
  destruct (queue_get p) as [[m|e] p1] eqn:Eq; [|done].
  destruct (queue_get_Ok _ _ _ Eq) as (Hg & Hr & Hsent & Hws & Ha).
  destruct m as [[slot g t msg|slot g pid|id r]|]; [done..| |].
  - destruct Ha as [(_ & [=] & _)|Ha].
    assert (Hlt : (length (arrivals p1) < fuel)%nat) by (rewrite Ha in Hf; cbn in Hf; lia).
    assert (Hlift : forall p' d r, answered p1 p' d r -> answered p p' d r).
    { intros p' d r' [H|[-> H]]; [left; rewrite Ha; by right|right]. by rewrite !Hg in *. }
    assert (Hfew : only_losses p1 p) by (split; [intros cl; by rewrite Hr|done]).
    destruct (List.find _ remaining) as [d|] eqn:Ef.
    + destruct (find_pending _ _ _ Ef) as [Hd <-].
      set (rest := List.filter (fun x => negb (pd_id x =? pd_id d)) remaining).
      assert (Hrest : forall x, x ∈ rest <-> x ∈ remaining /\ pd_id x <> pd_id d).
      { intros x. unfold rest. rewrite elem_of_List_filter, negb_true_iff, Z.eqb_neq. done. }
      specialize (IH rest (dset (work_id (pd_item d)) r results) p1 Hlt (NoDup_map_filter _ _ _ Hid) (NoDup_map_filter _ _ _ Hw)).
      destruct (collect fuel rest _ p1) as [[[out|]|e] p']; [|done..]. destruct IH as (I1 & I2 & I3). split_and!.
      * intros k Hk. rewrite I1; [apply dget_dset_ne; intros ->; apply Hk; by apply (list_elem_of_fmap_2 wid)|].
        intros (x & -> & Hx)%list_elem_of_fmap. apply Hk, list_elem_of_fmap_2. by apply Hrest in Hx as [? _].
      * intros x Hx. destruct (decide (pd_id x = pd_id d)) as [E|N].
        -- assert (x = d) as -> by (by apply (NoDup_map_inj pd_id remaining)). exists r. split.
           ++ rewrite I1; [apply dget_dset_eq|]. intros (y & E' & Hy)%list_elem_of_fmap. apply Hrest in Hy as [Hy N].
              apply N. f_equal. by apply (NoDup_map_inj wid remaining).
           ++ left. rewrite Ha. by left.
        -- destruct (I2 x) as (r' & Hr' & Hans); [by apply Hrest|]. exists r'. split; [done|by apply Hlift].
      * etrans; [exact I3|exact Hfew].
    + specialize (IH remaining results p1 Hlt Hid Hw). destruct (collect fuel remaining _ p1) as [[[out|]|e] p']; [|done..].
      destruct IH as (I1 & I2 & I3). split_and!; [done| |etrans; [exact I3|exact Hfew]].
      intros x Hx. destruct (I2 x Hx) as (r' & ? & ?). exists r'. split; [done|by apply Hlift].
  - unfold mbind at 1, M_bind at 1. destruct (visit_spec (map pd_slot remaining)) as [Hvn Hv].
    pose proof (respawn_hung_spec (visit (map pd_slot remaining)) remaining results p1 Hvn Hw) as Hh.
    destruct (respawn_hung _ remaining results p1) as [[[[rest out]|]|e] p2]; [|done..].
    destruct Hh as (H1 & H2 & H3 & H4 & H5).
    assert (Hall : forall d, d ∈ remaining -> pd_slot d ∈ visit (map pd_slot remaining))
      by (intros d Hd; apply Hv; by apply list_elem_of_fmap_2).
    destruct rest as [|x rest]; [|exfalso; destruct (proj1 (H1 x)) as [Hx Hn]; [by left|]; by apply Hn, Hall].
    assert (Hdone : collect fuel [] out p2 = (Ok (Some out), p2)) by (by destruct fuel). rewrite Hdone. split_and!.
    + intros k Hk. apply H4. intros (d & -> & Hd)%list_elem_of_fmap. apply Hk, list_elem_of_fmap_2.
      by apply elem_of_List_filter in Hd as [? _].
    + intros d Hd. exists (timed_out d (generation_of (pd_slot d) p)). rewrite H3, Hg by auto. split; [done|]. right.
      rewrite H2, bool_decide_true by auto. by rewrite Hg.
    + etrans; [exact H5|]. split; [intros cl; by rewrite Hr|done].
Qed.

Lemma Forall2_strengthen {A B} (P Q : A -> B -> Prop) l k :
  Forall2 P l k -> (forall x y, x ∈ l -> P x y -> Q x y) -> Forall2 Q l k.
Proof.
  induction 1 as [|x y l k Hp _ IH]; intros Hq; constructor; [apply Hq; [by left|done]|].
  apply IH. intros ? ? ?. apply Hq. by right.
Qed.

(** ** The leases of the batch *)

Lemma dset_elem {V} k (v : V) d x : x ∈ dset k v d -> x = (k, v) \/ x ∈ d.
Proof.
  induction d as [|[k' v'] d IH]; cbn; [intros ->%list_elem_of_singleton; by left|]. destruct (String.eqb_spec k k') as [->|].
  - intros [->|H]%elem_of_cons; [by left|right; by right].
  - intros [->|H]%elem_of_cons; [right; by left|]. destruct (IH H); [by left|right; by right].
Qed.

Lemma settle_lease_elem w r reg cl : cl ∈ settle_lease w r reg ->
  (status r = BRANCH_STATUS_SUCCESS /\ established_lease r = Some cl.2 /\ cl.1 = lease_context_id cl.2) \/
  cl ∈ reg /\ cl.1 <> context_id w /\ (status r = BRANCH_STATUS_FAULT -> worker_slot cl.2 <> result_slot r).
Proof.
  unfold settle_lease. assert (Hd : forall cl, cl ∈ ddel (context_id w) reg -> cl ∈ reg /\ cl.1 <> context_id w).
  { intros x [? Hn%negb_true_iff]%elem_of_List_filter. split; [done|]. apply String.eqb_neq in Hn. congruence. }
  destruct (String.eqb_spec (status r) BRANCH_STATUS_SUCCESS) as [E|N].
  - rewrite E. destruct (established_lease r) as [l|].
    + intros [->|[? ?]%Hd]%dset_elem; [by left|right]. split_and!; [done|done|discriminate].
    + intros [? ?]%Hd. right. split_and!; [done|done|discriminate].
  - destruct (String.eqb_spec (status r) BRANCH_STATUS_FAULT) as [E|N'].
    + intros [[? ?]%Hd Hn%negb_true_iff]%elem_of_List_filter. right. split_and!; [done|done|]. intros _. by apply bool_decide_eq_false in Hn.
    + intros [? ?]%Hd. right. by split_and!.
Qed.

(** The leases a batch leaves: those its successes established, and of the
    earlier ones those of other choices on workers without a fault. *)
Definition leases_after (items : list ChoiceWorkItem) (results : list BranchResult) (reg reg' : Registry) : Prop :=
  forall cl, cl ∈ reg' ->
    (exists r, r ∈ results /\ status r = BRANCH_STATUS_SUCCESS /\ established_lease r = Some cl.2 /\ cl.1 = lease_context_id cl.2) \/
    cl ∈ reg /\ cl.1 ∉ map context_id items /\
    (forall r, r ∈ results -> status r = BRANCH_STATUS_FAULT -> worker_slot cl.2 <> result_slot r).

Lemma settle_each_Ok items out : forall p results p', settle_each items out p = (Ok results, p') ->
  Forall2 (fun w r => dget (work_id w) out = Some r) items results /\ (forall s, generation_of s p' = generation_of s p) /\ sent p' = sent p /\
  leases_after items results (registry p) (registry p').
Proof.
  induction items as [|w items IH]; intros p results p'; cbn [settle_each].
  { intros [= <- <-]. split_and!; [constructor|done|done|]. intros cl H. right. split_and!; [done|apply not_elem_of_nil|by intros r ?%elem_of_nil]. }
  destruct (dget (work_id w) out) as [r|] eqn:Er; [|done].
  intros (u & p1 & [= _ <-] & (others & p2 & H & [= <- <-])%M_bind_Ok)%M_bind_Ok. apply IH in H as (I1 & I2 & I4 & I3).
  split_and!; [by constructor|done|done|]. intros cl Hcl. destruct (I3 cl Hcl) as [(r' & ? & ?)|(Hin & Hni & Hf)].
  - left. exists r'. split; [by right|done].
  - cbn in Hin. apply settle_lease_elem in Hin as [(? & ? & ?)|(? & ? & ?)].
    + left. exists r. split_and!; [by left|done..].
    + right. split_and!; [done|cbn [map]; by rewrite not_elem_of_cons|]. intros r' [->|Hr']%elem_of_cons; [done|by apply Hf].
Qed.

(** C28: a dispatch ends, whatever arrives: unless it raises, each item of the
    batch has exactly one result, in order - what arrived under the id of its
    own request, or the fault of the time-out after which its worker was
    replaced by one of the next generation. Continuations were sent only to a
    worker of the generation their lease names. And no lease is invented: those
    registered afterwards were established by a success of the batch, or were
    there before, for another choice, on a worker without a fault. *)
Theorem dispatch_settles_every_item items holder_slots p :
  NoDup (map work_id items) ->
  match dispatch_choice_work_items items holder_slots p with
  | (Ok (Some results), p') =>
      (exists pds new, map pd_item pds = items /\ Forall2 (answered p p') pds results /\
         sent p' = sent p ++ new /\
         Forall2 (fun d x => x.1 = (pd_id d, pd_slot d) /\ req_item x.2 = pd_item d /\
           exists r, (forall cl, cl ∈ r -> cl ∈ registry p) /\ well_routed (workers p) r x.2 (pd_slot d)) pds new) /\
      leases_after items results (registry p) (registry p')
  | (Ok None, _) => False
  | (Raise _, _) => True
  end.
Proof.
  intros Hnd. unfold dispatch_choice_work_items. erewrite M_run_Ok by reflexivity. unfold mbind at 1, M_bind at 1.
  destruct (submit_each _ _ holder_slots items _ p) as [[[pds idx]|e] p1] eqn:Es; [|exact I].
  apply submit_each_Ok in Es as [H1 H2 H3 H4 H5 H6 H7 (new & H8 & H9)]. erewrite M_run_Ok by reflexivity. unfold mbind at 1, M_bind at 1.
  assert (Hw : NoDup (map wid pds)) by (unfold wid; rewrite <- (map_map pd_item work_id); by rewrite H1).
  pose proof (collect_spec (Datatypes.S (length (arrivals p1))) pds [] p1 ltac:(lia) H4 Hw) as Hc. cbn [fst].
  destruct (collect _ pds [] p1) as [[[out|]|e] p2]; [|exact Hc|exact I]. destruct Hc as (_ & C2 & [C3 C4]).
  unfold mbind at 1, M_bind at 1. destruct (settle_each items out p2) as [[results|e] p3] eqn:Ee; [|exact I].
  apply settle_each_Ok in Ee as (S1 & S2 & S4 & S3). erewrite M_run_Ok by reflexivity. cbv [mret M_ret]. cbn [snd].
  set (p' := with_index idx p3). split.
  - exists pds, new. split_and!; [done| | |exact H9].
    + rewrite <- H1 in S1. apply Forall2_fmap_l in S1. eapply Forall2_strengthen; [exact S1|]. intros d r Hd Hr.
      destruct (C2 d Hd) as (r' & Hr' & Ha). assert (r' = r) as -> by (unfold wid in Hr'; congruence).
      unfold answered in *. rewrite H3 in Ha. assert (Hg : generation_of (pd_slot d) p1 = generation_of (pd_slot d) p)
        by (unfold generation_of; by rewrite H2).
      rewrite Hg in Ha. destruct Ha as [Ha|[-> Ha]]; [by left|right]. split; [done|].
      change (generation_of (pd_slot d) p') with (generation_of (pd_slot d) p3). by rewrite S2.
    + change (sent p') with (sent p3). by rewrite S4, C4, H8.
  - intros cl Hcl. destruct (S3 cl Hcl) as [?|(? & ? & ?)]; [by left|right]. split_and!; [by apply H7, C3|done|done].
Qed.

(** C30: replacing a hung worker does not survive the others. When a batch times
    out and a worker answers while a replacement is awaited, the answer is taken
    for a ready message and the dispatch raises a [ValueError]: the results of
    the whole batch are lost. The ready message then still comes, and the next
    batch raises on it. *)
Theorem late_answer_breaks_dispatch items holder_slots p pds index p1 :
  submit_each (branch_worker_slots p) (workers p) holder_slots items (next_bootstrap_index p) p = (Ok (pds, index), p1) ->
  items <> [] ->
  (forall id result rest, arrivals p = None :: Some (Answer id result) :: rest ->
     exists p', dispatch_choice_work_items items holder_slots p
       = (Raise (PyExc "ValueError" "not enough values to unpack (expected 4, got 3)"), p')) /\
  (forall slot generation pid rest, arrivals p = Some (Ready slot generation pid) :: rest ->
     exists p', dispatch_choice_work_items items holder_slots p
       = (Raise (PyExc "ValueError" "too many values to unpack (expected 3)"), p')).
Proof.
  intros Hs Hne. pose proof (submit_each_Ok _ _ _ _ _ _ _ _ Hs) as [H1 _ H3 _ _ _ _ _].
  destruct pds as [|d l]; [by rewrite <- H1 in Hne|].
  assert (Hrun : forall r p2, collect (Datatypes.S (length (arrivals p1))) (d :: l) [] p1 = (Raise r, p2) ->
    dispatch_choice_work_items items holder_slots p = (Raise r, p2)).
  { intros r p2 Hc. unfold dispatch_choice_work_items. erewrite M_run_Ok by reflexivity. erewrite M_run_Ok by exact Hs.
    erewrite M_run_Ok by reflexivity. by erewrite M_run_Raise by exact Hc. }
  split.
  - intros id result rest E. rewrite <- H3 in E. destruct (visit_spec (map pd_slot (d :: l))) as [_ Hv].
    assert (Hd : pd_slot d ∈ visit (map pd_slot (d :: l))) by (apply Hv; by left).
    destruct (visit (map pd_slot (d :: l))) as [|s slots] eqn:Ev; [by apply elem_of_nil in Hd|].
    eexists. apply Hrun. cbn [collect]. erewrite M_run_Ok by (unfold queue_get; rewrite E; reflexivity). cbv beta iota.
    erewrite M_run_Raise; [reflexivity|]. rewrite Ev. cbn [respawn_hung].
    erewrite M_run_Ok by reflexivity. cbv beta zeta. erewrite M_run_Raise; [reflexivity|]. unfold respawn_worker.
    do 2 (erewrite M_run_Ok by reflexivity; cbv beta zeta). erewrite M_run_Raise; [reflexivity|]. unfold _await_ready. cbn [await_ready].
    erewrite M_run_Ok by (unfold queue_get; cbn; reflexivity). reflexivity.
  - intros slot generation pid rest E. rewrite <- H3 in E. eexists. apply Hrun. cbn [collect].
    erewrite M_run_Ok by (unfold queue_get; rewrite E; reflexivity). reflexivity.
Qed.
End DispatchFacts.

(** * Examples *)

(** A run that waits at an event. *)
Definition at_event : pydict :=
  [("boundary", VStr EVENT_CHOICE); ("choice_scope", VStr "event"); ("state", VDict [])]%string.
Definition event_option : pydict := [("action_id", VInt 7); ("action_type", VStr "choice_event_option"); ("label", VStr "Leave")]%string.
Definition EventRun : RunSession nat :=
  {| rs_start_run := fun _ _ _ => mret tt; rs_load_state := fun _ => mret tt; rs_save_state := mret ""%string;
     rs_choose_room := fun _ => mret []; rs_step := fun _ => mret []; rs_get_observation := mret at_event;
     rs_get_legal_actions := mret [event_option]; rs_get_map_rooms := mret []; rs_get_room_context := mret [];
     rs_get_run_state := mret []; rs_get_event_rng_state := mret []; rs_set_event_rng_state := fun _ => mret tt |}.
Definition no_loads (s : string) : Res pyval := Raise (value_error s).

Definition event_item (name : string) (kind : string) (resolve : pyval) (plan : option EventRngReplayPlan) : ChoiceWorkItem :=
  {| work_id := name; context_id := "c"; choice_type := VStr EVENT_CHOICE; map_snapshot := "map"; room_id := VInt 3;
     action_prefix := [VInt 1; VInt 2]; relic_injection := None; target_boundary := VStr EVENT_CHOICE; work_kind := kind;
     resolve_action_id := resolve; resolve_action_semantic_key := None; resolve_action_ordinal := 0; event_rng_plan := plan;
     discover_prefix := false |}.
Definition plan_at (i : Z) : EventRngReplayPlan :=
  {| hypothesis_key := ("root", "d", 1)%string; override_state := [("event_id", VStr "e"); ("rng", VInt 5)]%string;
     apply_before_action_index := i |}.
Definition fresh_worker {S} (s : S) : _WorkerRuntime S :=
  {| rt_slot := BranchSlot 0; rt_generation := 1; rt_pid := 100; rt_session := s; current_context_id := None |}.
Definition bootstrap (w : ChoiceWorkItem) : WorkerExecutionRequest :=
  {| req_item := w; req_mode := EXECUTION_MODE_BOOTSTRAP_STEP; expected_lease := None |}.


Definition held_worker : _WorkerRuntime nat := Eval vm_compute in
  (@execute no_loads exn_str _ EventRun (bootstrap (event_item "w" WORK_KIND_SUB_BRANCH VNone None)) (fresh_worker 0%nat)).2.
Definition event_lease : Lease := Eval vm_compute in
  match (@execute no_loads exn_str _ EventRun (bootstrap (event_item "w" WORK_KIND_SUB_BRANCH VNone None)) (fresh_worker 0%nat)).1 with
  | Ok r => default {| worker_slot := MAIN_WORKER_SLOT; worker_generation := 0; lease_pid := 0; lease_context_id := "";
                       lease_combat_session_id := VNone; run_seed := VNone; step_signature := "" |} (established_lease r)
  | Raise _ => {| worker_slot := MAIN_WORKER_SLOT; worker_generation := 0; lease_pid := 0; lease_context_id := "";
                  lease_combat_session_id := VNone; run_seed := VNone; step_signature := "" |}
  end.
Definition holder_request : WorkerExecutionRequest :=
  {| req_item := event_item "h" WORK_KIND_CONTINUATION (VInt 7) None; req_mode := EXECUTION_MODE_HOLDER_STEP;
     expected_lease := Some event_lease |}.
Lemma holder_steps_on_the_held_choice_witness :
  exists res rt', @execute no_loads exn_str _ EventRun holder_request held_worker = (Ok res, rt') /\
    status res = BRANCH_STATUS_SUCCESS /\ @reached no_loads _ EventRun "c" (rt_session held_worker) /\ current_context_id rt' = None.
Proof.
  destruct (@execute no_loads exn_str _ EventRun holder_request held_worker) as [[res|e] rt'] eqn:E; [|vm_compute in E; discriminate E].
  exists res, rt'. assert (Hs : status res = BRANCH_STATUS_SUCCESS) by (vm_compute in E; injection E as <- _; reflexivity).
  split; [reflexivity|]. split; [exact Hs|].
  destruct (@holder_steps_on_the_held_choice no_loads exn_str _ EventRun holder_request held_worker res rt') as (H1 & _ & H2);
    [|exact E|reflexivity|exact Hs|by split].
  eapply (worker_executed _ _ (fresh_worker 0%nat) (bootstrap (event_item "w" WORK_KIND_SUB_BRANCH VNone None)));
    [apply worker_fresh; reflexivity|vm_compute; reflexivity].
Defined.

(** Two branch workers and a batch of two items. *)
#[local] Instance InOrder : SetOrder.
Proof.
  refine {| visit := fun l => remove_dups l; visit_spec := _ |}. intros l. split; [apply NoDup_remove_dups|]. intros s. apply elem_of_remove_dups.
Defined.
Definition two_workers (events : list (option Message)) : Pool :=
  {| workers := [(BranchSlot 0, {| handle_generation := 1; handle_pid := Some 100 |});
                 (BranchSlot 1, {| handle_generation := 1; handle_pid := Some 101 |})];
     next_bootstrap_index := 0; next_request_id := 0; closed := false; sent := []; arrivals := events; registry := [] |}.
Definition two_items : list ChoiceWorkItem :=
  [event_item "a" WORK_KIND_SUB_BRANCH (VInt 7) None; event_item "b" WORK_KIND_SUB_BRANCH (VInt 7) None].
Definition an_answer : BranchResult := Eval vm_compute in
  match (@execute no_loads exn_str _ EventRun (bootstrap (event_item "a" WORK_KIND_SUB_BRANCH (VInt 7) None)) (fresh_worker 0%nat)).1 with
  | Ok r => r
  | Raise _ => timed_out {| pd_id := 0; pd_item := event_item "a" WORK_KIND_SUB_BRANCH VNone None; pd_slot := MAIN_WORKER_SLOT; pd_mode := "" |} None
  end.

(** The first answers; the second times out and is replaced. *)
Definition one_hangs : list (option Message) := [Some (Answer 1 an_answer); None; Some (Ready (BranchSlot 1) 2 102)].
Lemma dispatch_settles_every_item_witness :
  exists r1 r2 p', dispatch_choice_work_items two_items [] (two_workers one_hangs) = (Ok (Some [r1; r2]), p') /\
    status r1 = BRANCH_STATUS_SUCCESS /\ status r2 = BRANCH_STATUS_FAULT /\ generation_of (BranchSlot 1) p' = Some 2 /\
    leases_after two_items [r1; r2] [] (registry p').
Proof.
  pose proof (dispatch_settles_every_item two_items [] (two_workers one_hangs)
    ltac:(repeat constructor; [intros [[=]|[]%elem_of_nil]%elem_of_cons|intros []%elem_of_nil])) as H.
  destruct (dispatch_choice_work_items two_items [] (two_workers one_hangs)) as [[[results|]|e] p'] eqn:E; [|destruct H|vm_compute in E; discriminate E].
  destruct H as [_ H]. pose proof E as E'. vm_compute in E'. injection E' as Er Ep.
  destruct results as [|r1 [|r2 [|r3 results]]]; [discriminate Er..| |discriminate Er]. exists r1, r2, p'.
  split; [reflexivity|]. injection Er as <- <-. split; [reflexivity|]. split; [reflexivity|]. split; [by rewrite <- Ep|exact H].
Defined.

(** Both time out; while the first is replaced the second answers after all. *)
Definition late_answer : list (option Message) := [None; Some (Answer 2 an_answer)].
Lemma late_answer_breaks_dispatch_witness :
  exists p', dispatch_choice_work_items two_items [] (two_workers late_answer)
    = (Raise (PyExc "ValueError" "not enough values to unpack (expected 4, got 3)"), p').
Proof.
  destruct (submit_each (branch_worker_slots (two_workers late_answer)) (workers (two_workers late_answer)) [] two_items 0
    (two_workers late_answer)) as [[[pds index]|e] p1] eqn:E; [|vm_compute in E; discriminate E].
  destruct (late_answer_breaks_dispatch two_items [] (two_workers late_answer) pds index p1 E) as [H _]; [discriminate|].
  exact (H 2 an_answer [] eq_refl).
Defined.
