(* ===== verification/GameAccess.v ===== *)
(** Who may change the game (game_access.py): one process-wide game, and the
    lease that lets one holder at a time change it - the run or the combat
    played inside of it. *)

From S2P Require Export Beliefs.


Inductive LeaseState := RUN | COMBAT | TRANSFERRING | POISONED.
#[global] Instance LeaseState_eq_dec : EqDecision LeaseState.
Proof. solve_decision. Defined.
Definition state_value (s : LeaseState) : string :=
  match s with RUN => "RUN" | COMBAT => "COMBAT" | TRANSFERRING => "TRANSFERRING" | POISONED => "POISONED" end.

(** Holders are objects, compared by identity: their addresses; [None] is
    Python's. *)
Definition holder : Type := positive.
Record GameLease := {
  lease_holder : option holder;
  lease_state : LeaseState;
  lease_generation : Z;
}.
#[global] Instance GameLease_eq_dec : EqDecision GameLease.
Proof. solve_decision. Defined.

(** What [game_factory] makes - the game itself is not the program's code. *)
Section Access.
Context {Game : Type} (game_factory : Res Game).

Record t := {
  _game : option Game;
  _state : LeaseState;
  _holder : option holder;
  _generation : Z;
  _transfer_origin : option (LeaseState * option holder);
}.
Definition init : t :=
  {| _game := None; _state := RUN; _holder := None; _generation := 0; _transfer_origin := None |}.

Definition GameAccessError (msg : string) : pyexn := PyExc "GameAccessError" msg.

(** The next generation, with this state and holder. *)
Definition advance (s : LeaseState) (h : option holder) (origin : option (LeaseState * option holder)) (a : t) : t :=
  {| _game := _game a; _state := s; _holder := h; _generation := _generation a + 1; _transfer_origin := origin |}.
Definition issued_by (a : t) (h : option holder) : GameLease :=
  {| lease_holder := h; lease_state := _state a; lease_generation := _generation a |}.

(** [lease] is the current one. *)
Definition is_current (lease : GameLease) (a : t) : bool :=
  (lease_generation lease =? _generation a) && bool_decide (lease_holder lease = _holder a) &&
  bool_decide (lease_state lease = _state a).
Definition _validate_current (lease : GameLease) (a : t) : Res unit :=
  match _state a with
  | POISONED => Raise (GameAccessError "Game access is POISONED; mutating access is terminally rejected.")
  | TRANSFERRING => Raise (GameAccessError "Game access is TRANSFERRING; no holder may mutate it.")
  | s => if is_current lease a then Ok tt
         else Raise (GameAccessError ("Rejected mutating access: lease is not the current holder/generation (state=" +:+
                state_value s +:+ ", generation=" +:+ pretty (_generation a) +:+ ")."))
  end.
Definition _validate_transfer (transfer : GameLease) (a : t) : Res (LeaseState * option holder) :=
  let refused := Raise (GameAccessError "Rejected transfer completion: lease is not the current TRANSFERRING generation.") in
  match _transfer_origin a with
  | None => refused
  | Some origin =>
      if negb (bool_decide (_state a = TRANSFERRING)) || negb (bool_decide (lease_state transfer = TRANSFERRING)) ||
         negb (lease_generation transfer =? _generation a) || negb (bool_decide (lease_holder transfer = origin.2))
      then refused else Ok origin
  end.

Definition claim (h : holder) (s : LeaseState) : M t GameLease :=
  a ← getS;
  match _state a with
  | POISONED => raiseM (GameAccessError "Game access is POISONED; no mutation lease can be claimed.")
  | TRANSFERRING => raiseM (GameAccessError "Game access is TRANSFERRING; no mutation lease can be claimed.")
  | _ => let a' := advance s (Some h) (_transfer_origin a) a in _ ← putS a'; mret (issued_by a' (Some h))
  end.
Definition release (lease : GameLease) : M t unit :=
  a ← getS;
  _ ← liftR (_validate_current lease a);
  putS (advance (_state a) None (_transfer_origin a) a).
(** The game, made by the first that asks. *)
Definition observation_game : M t Game :=
  a ← getS;
  match _game a with
  | Some g => mret g
  | None =>
      g ← liftR game_factory;
      _ ← putS {| _game := Some g; _state := _state a; _holder := _holder a; _generation := _generation a;
                  _transfer_origin := _transfer_origin a |};
      mret g
  end.
(** The game for one mutating operation. *)
Definition mutating_game (lease : GameLease) : M t Game :=
  a ← getS; _ ← liftR (_validate_current lease a); observation_game.
Definition begin (lease : GameLease) : M t GameLease :=
  a ← getS;
  _ ← liftR (_validate_current lease a);
  let a' := advance TRANSFERRING (_holder a) (Some (_state a, _holder a)) a in
  _ ← putS a';
  mret (issued_by a' (lease_holder lease)).
Definition commit (transfer : GameLease) (target : LeaseState) (h : holder) : M t GameLease :=
  a ← getS;
  _ ← liftR (_validate_transfer transfer a);
  match target with
  | RUN | COMBAT => let a' := advance target (Some h) None a in _ ← putS a'; mret (issued_by a' (Some h))
  | _ => raiseM (value_error "A transfer can only commit to RUN or COMBAT.")
  end.
Definition rollback (transfer : GameLease) : M t GameLease :=
  a ← getS;
  origin ← liftR (_validate_transfer transfer a);
  let a' := advance origin.1 origin.2 None a in
  _ ← putS a';
  mret (issued_by a' origin.2).
Definition poison : M t unit := a ← getS; putS (advance POISONED None None a).

(** * Reachable states *)

(** An access with the leases it has given out. *)
Inductive access : t -> list GameLease -> Prop :=
  | access_init : access init []
  | access_claim a l h s lease a' : access a l -> s = RUN \/ s = COMBAT ->
      claim h s a = (Ok lease, a') -> access a' (lease :: l)
  | access_release a l lease a' : access a l -> lease ∈ l -> release lease a = (Ok tt, a') -> access a' l
  | access_begin a l lease transfer a' : access a l -> lease ∈ l -> begin lease a = (Ok transfer, a') -> access a' (transfer :: l)
  | access_commit a l transfer target h lease a' : access a l -> transfer ∈ l ->
      commit transfer target h a = (Ok lease, a') -> access a' (lease :: l)
  | access_rollback a l transfer lease a' : access a l -> transfer ∈ l -> rollback transfer a = (Ok lease, a') -> access a' (lease :: l)
  | access_poison a l : access a l -> access (poison a).2 l
  | access_observe a l g a' : access a l -> observation_game a = (Ok g, a') -> access a' l
  | access_mutate a l lease g a' : access a l -> lease ∈ l -> mutating_game lease a = (Ok g, a') -> access a' l.

(** The lease may be used for a mutation now. *)
Definition usable (lease : GameLease) (a : t) : Prop := exists g a', mutating_game lease a = (Ok g, a').

(** What the leases given out look like: generations are not reused, a lease
    has a holder, a transfer under way has an origin. *)
Record access_inv (a : t) (l : list GameLease) : Prop := {
  ai_old : forall lease, lease ∈ l -> lease_generation lease <= _generation a;
  ai_distinct : NoDup (map lease_generation l);
  ai_held : forall lease, lease ∈ l -> lease_holder lease <> None;
  ai_origin : _state a = TRANSFERRING <-> is_Some (_transfer_origin a);
  ai_origin_state : forall s h, _transfer_origin a = Some (s, h) -> (s = RUN \/ s = COMBAT) /\ h <> None /\ h = _holder a;
}.

Lemma validate_Ok lease a u :
  _validate_current lease a = Ok u -> (_state a = RUN \/ _state a = COMBAT) /\ is_current lease a = true.
Proof.
  unfold _validate_current. intros H. destruct (_state a); try discriminate H;
    (destruct (is_current lease a); [|discriminate H]); auto.
Qed.
Lemma usable_current lease a : usable lease a -> (_state a = RUN \/ _state a = COMBAT) /\ is_current lease a = true.
Proof. intros (g & a' & (a0 & a1 & [= <- <-] & (u & a2 & [Hv ->]%liftR_Ok & _)%M_bind_Ok)%M_bind_Ok). by eapply validate_Ok. Qed.
Lemma is_current_spec lease a :
  is_current lease a = true <-> lease_generation lease = _generation a /\ lease_holder lease = _holder a /\ lease_state lease = _state a.
Proof. unfold is_current. rewrite !andb_true_iff, !bool_decide_eq_true, Z.eqb_eq. tauto. Qed.

Lemma validate_transfer_Ok transfer a o : _validate_transfer transfer a = Ok o -> _transfer_origin a = Some o /\ _state a = TRANSFERRING.
Proof.
  unfold _validate_transfer. destruct (_transfer_origin a) as [o'|]; [|done].
  destruct (bool_decide (_state a = TRANSFERRING)) eqn:E; [|done]. apply bool_decide_eq_true in E. cbn [negb orb].
  destruct (_ || _ || _); [done|]. by intros [= ->].
Qed.

(** A fresh lease of the next generation. *)
Lemma fresh_inv a l s h origin lease :
  access_inv a l -> lease = issued_by (advance s h origin a) h -> h <> None ->
  (s = TRANSFERRING <-> is_Some origin) ->
  (forall s' h', origin = Some (s', h') -> (s' = RUN \/ s' = COMBAT) /\ h' <> None /\ h' = h) ->
  access_inv (advance s h origin a) (lease :: l).
Proof.
  intros [H1 H2 H3 H4 H5] -> Hh Hs Ho. split; cbn.
  - intros x [->|Hx%H1]%elem_of_cons; cbn; lia.
  - constructor; [|done]. intros (x & Ex & Hx%H1)%list_elem_of_fmap. cbn in Ex. lia.
  - intros x [->|Hx]%elem_of_cons; [done|by apply H3].
  - exact Hs.
  - exact Ho.
Qed.
Lemma older_inv a l s h : access_inv a l -> (s = TRANSFERRING -> False) -> access_inv (advance s h None a) l.
Proof.
  intros [H1 H2 H3 H4 H5] Hs. split; cbn.
  - intros x Hx%H1. lia.
  - exact H2.
  - exact H3.
  - split; [by intros ?%Hs|by intros [? ?]].
  - done.
Qed.

(** Making the game changes nothing of the lease. *)
Lemma observation_inv a l g a' : access_inv a l -> observation_game a = (Ok g, a') -> access_inv a' l.
Proof.
  intros [H1 H2 H3 H4 H5] H. unfold observation_game in H. erewrite M_run_Ok in H by reflexivity. cbv beta in H.
  destruct (_game a); [injection H as <- <-; by split|].
  apply M_bind_Ok in H as (g' & a1 & [_ ->]%liftR_Ok & (u & a2 & [= _ <-] & [= <- <-])%M_bind_Ok). by split.
Qed.

Lemma access_invariant a l : access a l -> access_inv a l.
Proof.
  assert (Hno : forall a l, access_inv a l -> (_state a = RUN \/ _state a = COMBAT) -> _transfer_origin a = None).
  { intros a0 l0 H Hs. destruct (_transfer_origin a0) eqn:E; [|done]. exfalso.
    assert (H' : _state a0 = TRANSFERRING) by (apply (ai_origin _ _ H); by rewrite E). rewrite H' in Hs. by destruct Hs. }
  induction 1 as [|a l h s lease a' _ IH Hs H|a l lease a' _ IH _ H|a l lease transfer a' _ IH Hin H|a l transfer target h lease a' _ IH Hin H
    |a l transfer lease a' _ IH _ H|a l _ IH
    |a l g a' _ IH H|a l lease g a' _ IH _ H].
  - split; cbn.
    + by intros ? ?%elem_of_nil.
    + constructor.
    + by intros ? ?%elem_of_nil.
    + split; [done|by intros [? ?]].
    + done.
  - unfold claim in H. erewrite M_run_Ok in H by reflexivity.
    assert (Hn : (_state a = RUN \/ _state a = COMBAT) /\
      (lease, a') = (issued_by (advance s (Some h) (_transfer_origin a) a) (Some h), advance s (Some h) (_transfer_origin a) a)).
    { destruct (_state a); try discriminate H; (split; [by auto|]); by injection H as <- <-. }
    destruct Hn as [Hn [= -> ->]]. rewrite (Hno _ _ IH Hn). apply fresh_inv; try done.
    split; [intros ->; by destruct Hs|by intros [? ?]].
  - apply M_bind_Ok in H as (a0 & a1 & [= <- <-] & (u & a2 & [Hv ->]%liftR_Ok & [= <-])%M_bind_Ok).
    apply validate_Ok in Hv as [Hs _]. rewrite (Hno _ _ IH Hs). apply older_inv; [done|].
    intros E. rewrite E in Hs. by destruct Hs.
  - apply M_bind_Ok in H as (a0 & a1 & [= <- <-] & (u & a2 & [Hv ->]%liftR_Ok & (u' & a3 & [= _ <-] & [= <- <-])%M_bind_Ok)%M_bind_Ok).
    apply validate_Ok in Hv as [Hs Hc]. apply is_current_spec in Hc as (_ & Hh & _).
    assert (Hne : _holder a <> None) by (rewrite <- Hh; by apply (ai_held _ _ IH)).
    rewrite Hh. apply fresh_inv; try done. intros s' h' [= <- <-]. by split_and!.
  - apply M_bind_Ok in H as (a0 & a1 & [= <- <-] & (o & a2 & [Hv ->]%liftR_Ok & H)%M_bind_Ok).
    destruct target; try discriminate H; apply M_bind_Ok in H as (u' & a3 & [= _ <-] & [= <- <-]); apply fresh_inv; try done;
      (split; [done|by intros [? ?]]).
  - apply M_bind_Ok in H as (a0 & a1 & [= <- <-] & (o & a2 & [Hv ->]%liftR_Ok & (u' & a3 & [= _ <-] & [= <- <-])%M_bind_Ok)%M_bind_Ok).
    apply validate_transfer_Ok in Hv as [Ho _]. destruct o as [s h]. destruct (ai_origin_state _ _ IH _ _ Ho) as (Hs & Hne & _).
    apply fresh_inv; try done. cbn. split; [intros ->; by destruct Hs|by intros [? ?]].
  - unfold poison. erewrite M_run_Ok by reflexivity. by apply older_inv.
  - by eapply observation_inv.
  - apply M_bind_Ok in H as (a0 & a1 & [= <- <-] & (u & a2 & [_ ->]%liftR_Ok & H)%M_bind_Ok). by eapply observation_inv.
Qed.

(** C33: the game has one writer. Of all the leases that were ever given out at
    most one may be used at any time, none while a hand-off is under way or
    after the access was poisoned; and a lease that was used is refused for
    good once the access has moved on to another generation. *)
Theorem one_writer_at_a_time a leases :
  access a leases ->
  (forall l1 l2, l1 ∈ leases -> l2 ∈ leases -> usable l1 a -> usable l2 a -> l1 = l2) /\
  (forall l, usable l a -> _state a = RUN \/ _state a = COMBAT) /\
  (forall l b leases', l ∈ leases -> access b leases' -> _generation a < _generation b -> ~ usable l b).
Proof.
  intros H%access_invariant. split_and!.
  - intros l1 l2 H1 H2 [_ (E1 & _ & _)%is_current_spec]%usable_current [_ (E2 & _ & _)%is_current_spec]%usable_current.
    assert (E : lease_generation l1 = lease_generation l2) by congruence. clear E1 E2.
    pose proof (ai_distinct _ _ H) as Hnd. clear H. induction leases as [|x l IH]; [by apply elem_of_nil in H1|].
    cbn in Hnd. apply NoDup_cons in Hnd as [Hx Hnd]. apply elem_of_cons in H1 as [->|H1]; apply elem_of_cons in H2 as [->|H2]; [done|..|by apply IH].
    + destruct Hx. rewrite E. by apply list_elem_of_fmap_2.
    + destruct Hx. rewrite <- E. by apply list_elem_of_fmap_2.
  - by intros l [? _]%usable_current.
  - intros l b leases' Hl _ Hlt [_ (E & _ & _)%is_current_spec]%usable_current.
    pose proof (ai_old _ _ H l Hl). lia.
Qed.
End Access.
Arguments t : clear implicits.

(** A run claims the game and hands it to a combat: the run is refused from then on. *)
Lemma one_writer_at_a_time_witness :
  exists run transfer combat (a1 a3 : t unit),
    access (Ok tt) a1 [run] /\ access (Ok tt) a3 [combat; transfer; run] /\
    usable (Ok tt) run a1 /\ usable (Ok tt) combat a3 /\ ~ usable (Ok tt) run a3.
Proof.
  assert (A1 : access (Ok tt) _ [_]) by (eapply (access_claim (Ok tt) init [] 1%positive RUN); [apply access_init|by left|vm_compute; reflexivity]).
  assert (A2 : access (Ok tt) _ [_; _]) by (eapply (access_begin (Ok tt)); [exact A1|by left|vm_compute; reflexivity]).
  assert (A3 : access (Ok tt) _ [_; _; _]) by (eapply (access_commit (Ok tt) _ _ _ COMBAT 2%positive); [exact A2|by left|vm_compute; reflexivity]).
  do 5 eexists. split_and!; [exact A1|exact A3|do 2 eexists; reflexivity|do 2 eexists; reflexivity|].
  eapply (one_writer_at_a_time (Ok tt) _ _ A1); [by left|exact A3|reflexivity].
Defined.
