(* ===== verification/PyRegex.v ===== *)
(** Regular expressions as the program uses them: the constructs of the patterns
    it compiles, matched by backtracking in Python's order of preference. *)

From S2P Require Export PyValue.

Inductive rx :=
  | RLit (s : string)
  | RPlus (p : Ascii.ascii -> bool)
  | RStar (p : Ascii.ascii -> bool)
  | RPlusLazy (p : Ascii.ascii -> bool)
  | RStarLazy (p : Ascii.ascii -> bool)
  | RGroup (name : string) (r : rx)
  | ROpt (r : rx)
  | RSeq (r q : rx).

Definition captures : Type := list (string * string).

Fixpoint star_greedy {R} (p : Ascii.ascii -> bool) (l : list Ascii.ascii) (k : list Ascii.ascii -> option R) : option R :=
  match l with
  | c :: l' => if p c then match star_greedy p l' k with Some r => Some r | None => k l end else k l
  | [] => k []
  end.
Fixpoint star_lazy {R} (p : Ascii.ascii -> bool) (l : list Ascii.ascii) (k : list Ascii.ascii -> option R) : option R :=
  match k l with
  | Some r => Some r
  | None => match l with c :: l' => if p c then star_lazy p l' k else None | [] => None end
  end.
Definition plus {R} (star : list Ascii.ascii -> (list Ascii.ascii -> option R) -> option R) (p : Ascii.ascii -> bool)
    (l : list Ascii.ascii) (k : list Ascii.ascii -> option R) : option R :=
  match l with c :: l' => if p c then star l' k else None | [] => None end.
Fixpoint literal (s : string) (l : list Ascii.ascii) : option (list Ascii.ascii) :=
  match s, l with
  | EmptyString, _ => Some l
  | String a s', c :: l' => if Ascii.eqb a c then literal s' l' else None
  | String _ _, [] => None
  end.

Fixpoint match_at {R} (r : rx) (l : list Ascii.ascii) (caps : captures)
    (k : list Ascii.ascii -> captures -> option R) : option R :=
  match r with
  | RLit s => match literal s l with Some l' => k l' caps | None => None end
  | RPlus p => plus (star_greedy p) p l (fun l' => k l' caps)
  | RStar p => star_greedy p l (fun l' => k l' caps)
  | RPlusLazy p => plus (star_lazy p) p l (fun l' => k l' caps)
  | RStarLazy p => star_lazy p l (fun l' => k l' caps)
  | RGroup name r => match_at r l caps (fun l' caps' =>
      k l' (dset name (String.string_of_list_ascii (take (length l - length l') l)) caps'))
  | ROpt r => match match_at r l caps k with Some x => Some x | None => k l caps end
  | RSeq r q => match_at r l caps (fun l' caps' => match_at q l' caps' k)
  end.
(** [pattern.search(s)]: the groups of the leftmost match. *)
Fixpoint search_from (r : rx) (l : list Ascii.ascii) : option captures :=
  match match_at r l [] (fun _ caps => Some caps) with
  | Some caps => Some caps
  | None => match l with _ :: l' => search_from r l' | [] => None end
  end.
Definition rx_search (r : rx) (s : string) : option captures := search_from r (String.list_ascii_of_string s).
Definition rx_seq (l : list rx) : rx := fold_right RSeq (RLit "") l.

Definition not_space (c : Ascii.ascii) : bool := negb (is_space c).
Definition is_digit (c : Ascii.ascii) : bool :=
  (48 <=? Z.of_N (Ascii.N_of_ascii c)) && (Z.of_N (Ascii.N_of_ascii c) <=? 57).
Definition any_char (c : Ascii.ascii) : bool := true.
(** [s.isdigit()]. *)
Definition str_isdigit (s : string) : bool :=
  negb (String.eqb s "") && forallb is_digit (String.list_ascii_of_string s).
