(* ===== verification/BattleEmulator.v ===== *)
(** The game of the engine as the combat code uses it, and the wrapper that
    makes board snapshots of its observations (Combat/battle_emulator.py,
    Combat/emulator_bridge.py). *)

From S2P Require Export Decision RunSession.

(** * The engine's game *)

Record ClrAction := {
  ActionId : Z;
  ActionType : string;
  Label : string;
  IsAvailable : bool;
  Parameters : pyval;
  SemanticKey : string;
}.
(** An observation with its [State] as plain data; [None] for an attribute the
    engine's object does not have. *)
Record GameObservation := {
  State : pydict;
  IsTerminal : bool;
  Outcome : string;
  CombatSessionId : option string;
  StepIndex : option Z;
  Turn : option Z;
}.
Record TransitionOutcome := { Kind : string; FinalObservation : GameObservation }.
Record StepResult := {
  Observation : GameObservation;
  LegalActions : list ClrAction;
  Transition : option TransitionOutcome;
}.
Record ResetResult := { ResetObservation : GameObservation; ResetLegalActions : list ClrAction }.

(** [GameInstance]. The scenarios of [ResetFromScenario] are objects of the
    engine, filled from a specification or from a board. *)
Class ClrGame (G : Type) := {
  Scenario : Type;
  build_scenario_from_spec : pydict -> Res Scenario;
  build_scenario_from_state : pydict -> option Z -> Res Scenario;
  ResetFromScenario : Scenario -> M G ResetResult;
  GetObservation : M G GameObservation;
  GetLegalActions : M G (list ClrAction);
  Step : pyval -> M G StepResult;
  RestoreSnapshot : Root -> M G ResetResult;
  CaptureSnapshotJson : M G string;
}.

Definition legal_action_to_dict (a : ClrAction) : pydict :=
  [("action_id", VInt (ActionId a)); ("action_type", VStr (ActionType a)); ("label", VStr (Label a));
   ("is_available", VBool (IsAvailable a)); ("parameters", Parameters a); ("semantic_key", VStr (SemanticKey a))]%string.
Definition legal_actions_to_list (actions : list ClrAction) : list pydict := map legal_action_to_dict actions.

(** * Board snapshots *)

Record BattleEmulator := { use_legal_action_cache : bool; whole_run_mode : bool }.

(** The key of an enemy index in [enemy_max_hps]: equal integers are equal
    keys, booleans among them. *)
Definition index_key (v : pyval) : Res string :=
  _ ← hashable v;
  Ok (match as_Z v with Some z => pretty z | None => py_repr v end).
Fixpoint max_hps_of (enemies : list pyval) (hps : pydict) : Res pydict :=
  match enemies with
  | [] => Ok hps
  | e :: rest =>
      index ← py_index "index" e; max_hp ← py_index "maxHp" e;
      k ← index_key index;
      max_hps_of rest (dset k max_hp hps)
  end.
Definition enemies_of (state : pydict) : Res (list pyval) := py_iter (py_or (dget_none "enemies" state) (VList [])).
Definition enemy_max_hps_of (state : pydict) : Res pydict := enemies ← enemies_of state; max_hps_of enemies [].

(** The enemy with its true maximum put back. *)
Definition patch_enemy (hps : pydict) (enemy : pyval) : Res pyval :=
  index ← py_get "index" enemy;
  k ← index_key index;
  match dget_none k hps, enemy with
  | VNone, _ => Ok enemy
  | true_max, VDict d => Ok (VDict (dset "maxHp" true_max d))
  | _, _ => Ok enemy
  end.
Definition patch_enemies (hps : pydict) (state : pydict) : Res pydict :=
  match py_or (dget_none "enemies" state) (VList []) with
  | VList [] => Ok state
  | enemies => l ← py_iter enemies; l ← mapR (patch_enemy hps) l; Ok (dset "enemies" (VList l) state)
  end.

Definition _wrap (obs : GameObservation) (turn : Z) (hps : pydict) (shuffle_rng_seed : option Z)
    (legal_actions : option (list pydict)) (completion : option CombatCompletion) : Res BattleState :=
  state ← patch_enemies hps (State obs);
  normalized ← coerce_terminal_observation state (IsTerminal obs) (Some (Outcome obs));
  Ok {| engine_state := state; is_terminal := normalized.1; outcome := normalized.2; turn := turn;
        enemy_max_hps := hps; shuffle_rng_seed := shuffle_rng_seed; _cached_legal_actions := legal_actions;
        decision_frame := Some {| combat_session_id := CombatSessionId obs; step_index := default 0 (StepIndex obs);
                                  continuation_step_index := None |};
        combat_completion := completion |}.

Definition with_shuffle_seed (b : BattleState) (seed : option Z) : BattleState :=
  {| engine_state := engine_state b; is_terminal := is_terminal b; outcome := outcome b; turn := turn b;
     enemy_max_hps := enemy_max_hps b; shuffle_rng_seed := seed; _cached_legal_actions := _cached_legal_actions b;
     decision_frame := decision_frame b; combat_completion := combat_completion b |}.
Definition with_cached_actions (legal : list pydict) (b : BattleState) : BattleState :=
  {| engine_state := engine_state b; is_terminal := is_terminal b; outcome := outcome b; turn := turn b;
     enemy_max_hps := enemy_max_hps b; shuffle_rng_seed := shuffle_rng_seed b; _cached_legal_actions := Some legal;
     decision_frame := decision_frame b; combat_completion := combat_completion b |}.

(** The candidate whose [enemyIndex] is the wanted one. *)
Fixpoint find_target (target : Z) (legal : list ClrAction) : Res (option ClrAction) :=
  match legal with
  | [] => Ok None
  | a :: rest =>
      i ← py_get "enemyIndex" (Parameters a);
      if py_eqb i (VInt target) then Ok (Some a) else find_target target rest
  end.
Definition target_gone (target : Z) (offered : list pyval) : pyexn :=
  value_error ("target_enemy_index=" +:+ pretty target +:+ " not among currently targetable enemies (offered enemyIndex values: " +:+
    py_repr (VList offered) +:+ ") - it may have already died").
Definition legacy_not_terminal : pyexn := PyExc "AssertionError"
  ("StepResult.Transition.Kind == 'combat_completed' but StepResult.Observation.IsTerminal is False - " +:+
   "legacy no-map mode's run_terminal-on-combat-conclusion contract no longer holds.").

Section Emulator.
Context (emulator : BattleEmulator) {G : Type} {HG : ClrGame G}.

(** The choice of a target, when the step asks for one. *)
Definition choose_target (result : StepResult) (target_index target_enemy_index : option Z) : M G StepResult :=
  match LegalActions result with
  | first :: _ =>
      if negb (String.eqb (ActionType first) "choice_target") then mret result
      else match target_enemy_index with
      | Some target =>
          found ← liftR (find_target target (LegalActions result));
          match found with
          | None => offered ← liftR (mapR (fun a => py_get "enemyIndex" (Parameters a)) (LegalActions result));
                    raiseM (target_gone target offered)
          | Some a => Step (VInt (ActionId a))
          end
      | None =>
          let idx := match target_index with
                     | None => 0
                     | Some i => Z.max 0 (Z.min i (Z.of_nat (length (LegalActions result)) - 1))
                     end in
          match LegalActions result !! Z.to_nat idx with
          | Some a => Step (VInt (ActionId a))
          | None => raiseM (PyExc "IndexError" "list index out of range")
          end
      end
  | [] => mret result
  end.

Definition completion_of (result : StepResult) (transition : TransitionOutcome) : CombatCompletion :=
  {| live_observation_state := State (Observation result); live_observation_is_terminal := IsTerminal (Observation result);
     live_observation_outcome := Outcome (Observation result); transition_kind := Kind transition |}.

Definition step_live_action (battle_state : BattleState) (action : pydict) (target_index target_enemy_index : option Z) :
    M G BattleState :=
  action_id ← liftR (dindex "action_id" action);
  result ← Step action_id;
  result ← choose_target result target_index target_enemy_index;
  kind ← liftR (dindex "action_type" action);
  let next_turn := if veq_str kind "system" then turn battle_state + 1 else turn battle_state in
  let wrap obs := liftR (_wrap obs next_turn (enemy_max_hps battle_state) (shuffle_rng_seed battle_state)
                                (Some (legal_actions_to_list (LegalActions result)))
                                (match Transition result with
                                 | Some t => if String.eqb (Kind t) "combat_completed" then Some (completion_of result t) else None
                                 | None => None
                                 end)) in
  match Transition result with
  | Some t =>
      if String.eqb (Kind t) "combat_completed" then
        if negb (whole_run_mode emulator) && negb (IsTerminal (Observation result)) then raiseM legacy_not_terminal
        else wrap (FinalObservation t)
      else wrap (Observation result)
  | None => wrap (Observation result)
  end.

Definition initialize (scenario_spec : pydict) : M G BattleState :=
  scenario ← liftR (build_scenario_from_spec scenario_spec);
  reset_result ← ResetFromScenario scenario;
  hps ← liftR (enemy_max_hps_of (State (ResetObservation reset_result)));
  liftR (_wrap (ResetObservation reset_result) 1 hps None (Some (legal_actions_to_list (ResetLegalActions reset_result))) None).

Definition _restore (battle_state : BattleState) : M G unit :=
  scenario ← liftR (build_scenario_from_state (engine_state battle_state) (shuffle_rng_seed battle_state));
  _ ← ResetFromScenario scenario; mret tt.

(** The legal actions, with the state that caches them. *)
Definition enumerate_legal_actions (battle_state : BattleState) : M G (list pydict * BattleState) :=
  if is_terminal battle_state then mret ([], battle_state)
  else
    continuation ← liftR (match _cached_legal_actions battle_state with
                          | Some l => if use_legal_action_cache emulator then is_action_continuation_pending_choice (engine_state battle_state)
                                      else Ok false
                          | None => Ok false
                          end);
    match _cached_legal_actions battle_state, continuation : bool with
    | Some l, true => mret (l, battle_state)
    | _, _ =>
        _ ← _restore battle_state;
        actions ← GetLegalActions;
        let legal_actions := legal_actions_to_list actions in
        mret (legal_actions, if use_legal_action_cache emulator then with_cached_actions legal_actions battle_state else battle_state)
    end.

(** * Continuations *)

(** The score of one option of a card choice. *)
Definition option_score (play_pile_ids : list pyval) (option : pyval) : Res spec_float :=
  rarity ← py_get "rarity" option;
  card_type ← py_get "type" option;
  cost ← py_get "cost" option;
  card_id ← py_get "id" option;
  _ ← hashable card_id;
  let score := f_of_Z 0 in
  let score := if existsb (py_eqb card_id) play_pile_ids then f_sub score (f_of_Z 50) else score in
  let score := if veq_str rarity "Rare" then f_add score (f_of_Z 4)
               else if veq_str rarity "Uncommon" then f_add score (f_of_Z 2)
               else if veq_str rarity "Common" then f_add score (f_of_Z 1) else score in
  let score := if veq_str card_type "Curse" then f_sub score (f_of_Z 100)
               else if veq_str card_type "Status" then f_sub score (f_of_Z 50)
               else if veq_str card_type "Attack" then f_add score (f_half 3)
               else if veq_str card_type "Skill" then f_add score (f_of_Z 1)
               else if veq_str card_type "Power" then f_add score (f_half 1) else score in
  match as_Z cost with
  | Some c => if is_int cost || is_bool cost then c ← py_float c; Ok (f_add score (f_max (f_of_Z 0) (f_sub (f_of_Z 3) c))) else Ok score
  | None => Ok score
  end.
Fixpoint best_of (play_pile_ids option_cards : list pyval) (card_actions : list pydict) (best : pydict)
    (best_score : option spec_float) : Res pydict :=
  match card_actions with
  | [] => Ok best
  | action :: rest =>
      option ← (match option_cards with
                | o :: _ => Ok o
                | [] => label ← dindex "label" action; Ok (VDict [("id"%string, label)])
                end);
      score ← option_score play_pile_ids option;
      if (match best_score with None => true | Some s => f_ltb s score end)
      then best_of play_pile_ids (tail option_cards) rest action (Some score)
      else best_of play_pile_ids (tail option_cards) rest best best_score
  end.
Definition _best_continuation_card_action (battle_state : BattleState) (pending_choice : pyval) (card_actions : list pydict) :
    Res pydict :=
  options ← py_get "options" pending_choice;
  option_cards ← py_iter (py_or options (VList []));
  pile ← py_iter (py_or (dget_none "playPile" (engine_state battle_state)) (VList []));
  play_pile_ids ← mapR (fun c => i ← py_get "id" c; _ ← hashable i; Ok i) pile;
  match card_actions with
  | [] => Raise (PyExc "IndexError" "list index out of range")
  | first :: _ => best_of play_pile_ids option_cards card_actions first None
  end.

Fixpoint all_of_type (action_type : string) (legal_actions : list pydict) : Res (list pydict) :=
  match legal_actions with
  | [] => Ok []
  | a :: rest =>
      v ← dindex "action_type" a;
      others ← all_of_type action_type rest;
      Ok (if veq_str v action_type then a :: others else others)
  end.

Definition _default_choose_action_continuation_live (battle_state : BattleState) (legal_actions : list pydict) : Res pydict :=
  match legal_actions with
  | [] => Raise (PyExc "RuntimeError" "ActionContinuation exposed no legal actions.")
  | first :: _ =>
      let pending := py_or (dget_none "pendingChoice" (engine_state battle_state)) (VDict []) in
      selected_count ← (v ← py_get "selectedCount" pending; py_int (py_or v (VInt 0)));
      min_select ← (v ← py_get "minSelect" pending; py_int (py_or v (VInt 0)));
      max_select ← py_get "maxSelect" pending;
      confirm ← first_of_type "choice_confirm" legal_actions;
      skip ← first_of_type "choice_skip" legal_actions;
      cards ← all_of_type "choice_card" legal_actions;
      match cards with
      | [] => Ok (match confirm, skip with Some a, _ => a | None, Some a => a | None, None => first end)
      | card :: _ =>
          if selected_count <? min_select then _best_continuation_card_action battle_state pending cards
          else
            full ← (if is_none max_select then Ok false else m ← py_int max_select; Ok (m <=? selected_count));
            if full : bool then Ok (match confirm, skip with Some a, _ => a | None, Some a => a | None, None => card end)
            else _best_continuation_card_action battle_state pending cards
      end
  end.

Definition Resolver : Type := BattleState -> list pydict -> M G pydict.
Definition default_resolver : Resolver := fun battle_state legal =>
  liftR (_default_choose_action_continuation_live battle_state legal).
Definition unresolved : pyexn := PyExc "RuntimeError" "ActionContinuation did not resolve within 50 continuation steps.".

(** The rest of a step while a continuation is pending, when [rounds] more
    actions may be taken. *)
Fixpoint continue_action (rounds : nat) (resolver : Resolver) (next_state : BattleState) : M G BattleState :=
  pending ← liftR (is_action_continuation_pending_choice (engine_state next_state));
  if negb pending then mret next_state
  else match rounds with
  | O => raiseM unresolved
  | S rounds =>
      legal ← enumerate_legal_actions next_state;
      continuation_action ← resolver legal.2 legal.1;
      next_state ← step_live_action legal.2 continuation_action None None;
      continue_action rounds resolver next_state
  end.

Definition apply_action (battle_state : BattleState) (action : pydict) (target_index target_enemy_index : option Z)
    (resolver : option Resolver) (live_game : bool) : M G BattleState :=
  if is_terminal battle_state then raiseM (PyExc "RuntimeError" "Cannot apply an action to a terminal BattleState.")
  else
    _ ← (if live_game then mret tt
         else
           pending ← liftR (is_action_continuation_pending_choice (engine_state battle_state));
           if pending : bool then raiseM (PyExc "RuntimeError"
             ("ActionContinuation must be resolved on the same live GameInstance; call apply_action() on the original action " +:+
              "with a continuation resolver, or pass live_game from that in-progress session."))
           else _restore battle_state);
    next_state ← step_live_action battle_state action target_index target_enemy_index;
    continue_action 50 (default default_resolver resolver) next_state.

(** The positions worth trying as the target of an action; [None] for the
    implicit one. *)
Definition target_candidates (battle_state : BattleState) (action : pydict) : Res (list (option Z)) :=
  kind ← dindex "action_type" action;
  if negb (veq_str kind "card" || veq_str kind "potion") then Ok [None]
  else
    parameters ← dindex "parameters" action;
    target ← py_get "targetType" parameters;
    if negb (veq_str target "AnyEnemy") then Ok [None]
    else
      enemies ← enemies_of (engine_state battle_state);
      alive ← mapR (py_get_or "isAlive" (VBool true)) enemies;
      let n := length (List.filter truthy alive) in
      Ok (if (n <=? 1)%nat then [None] else map (fun i => Some (Z.of_nat i)) (seq 0 n)).
End Emulator.
