(* ===== verification/LiveSession.v ===== *)
(** The sessions that share the one game of a process: the run
    (Run/whole_run_session.py), the live combat (Combat/live_combat_session.py),
    and the replay of a room entry that goes from one to the other
    (Combat/search/branch_worker_pool.py). *)

From S2P Require Export BattleEmulator GameAccess PyRegex Snapshot.

(** * The board *)

(** What the sessions of a process share: the access with the game inside, and
    the identities of the objects made so far. *)
Record Board (G : Type) := { board_access : GameAccess.t G; next_object : positive }.
Arguments board_access {G}. Arguments next_object {G}.

Section Board.
Context {G : Type} (game_factory : Res G).

(** [object()]. *)
Definition new_object : M (Board G) holder := fun b =>
  (Ok (next_object b), {| board_access := board_access b; next_object := Pos.succ (next_object b) |}).
Definition on_access {A} (c : M (GameAccess.t G) A) : M (Board G) A := fun b =>
  let '(r, a) := c (board_access b) in (r, {| board_access := a; next_object := next_object b |}).
Definition with_game (g : G) (a : GameAccess.t G) : GameAccess.t G :=
  {| _game := Some g; _state := _state a; _holder := _holder a; _generation := _generation a;
     _transfer_origin := _transfer_origin a |}.
(** A call of the game. *)
Definition on_game {A} (c : M G A) : M (Board G) A :=
  on_access (g ← observation_game game_factory;
             a ← getS;
             let '(r, g') := c g in
             _ ← putS (with_game g' a); liftR r).

(** * Holders of a lease *)

Record Handle := { handle_holder : holder; handle_lease : option GameLease }.
Definition Held : Type := Handle * Board G.
Definition with_lease (l : option GameLease) : M Held unit :=
  modS (fun h => ({| handle_holder := handle_holder h.1; handle_lease := l |}, h.2)).
Definition shared {A} (c : M (Board G) A) : M Held A := fun h => let '(r, b) := c h.2 in (r, (h.1, b)).
Definition leased {A} (c : M (GameAccess.t G) A) : M Held A := shared (on_access c).

(** The lease of the session, claimed if it has none. *)
Definition own_lease (s : LeaseState) : M Held GameLease :=
  h ← getS;
  match handle_lease h.1 with
  | Some l => mret l
  | None => l ← leased (claim (handle_holder h.1) s); _ ← with_lease (Some l); mret l
  end.
Definition _mutating_game (s : LeaseState) : M Held unit :=
  l ← own_lease s; _ ← leased (mutating_game game_factory l); mret tt.
Definition accept_transferred_lease (s : LeaseState) (wrong : string) (l : GameLease) : M Held unit :=
  h ← getS;
  if negb (bool_decide (lease_state l = s)) || negb (bool_decide (lease_holder l = Some (handle_holder h.1)))
  then raiseM (GameAccessError wrong)
  else _ ← leased (mutating_game game_factory l); with_lease (Some l).
(** [close]: a stale lease is not released. *)
Definition close_session : M Held unit :=
  h ← getS;
  _ ← with_lease None;
  match handle_lease h.1 with
  | None => mret tt
  | Some l => tryM (leased (release l))
                (fun e => if String.eqb (exn_class e) "GameAccessError" then mret tt else raiseM e)
  end.

(** * The run *)

Definition RunHandle : Type := Handle.
Definition new_run_session : M (Board G) RunHandle :=
  _ ← on_access (observation_game game_factory);
  o ← new_object;
  mret {| handle_holder := o; handle_lease := None |}.
Definition run_begin_lease_transfer : M Held GameLease :=
  l ← own_lease RUN; transfer ← leased (begin l); _ ← with_lease None; mret transfer.
Definition commit_lease_transfer (transfer : GameLease) (target : LeaseState) (h : holder) : M Held GameLease :=
  leased (commit transfer target h).
Definition rollback_lease_transfer (transfer : GameLease) : M Held unit :=
  l ← leased (rollback transfer);
  h ← getS;
  if negb (bool_decide (lease_state l = RUN)) || negb (bool_decide (lease_holder l = Some (handle_holder h.1)))
  then raiseM (GameAccessError "transfer rollback did not return the WholeRunSession RUN lease")
  else with_lease (Some l).
Definition run_accept : GameLease -> M Held unit :=
  accept_transferred_lease RUN "WholeRunSession received a lease for the wrong holder/state".
Definition poison_mutations : M Held unit := _ ← with_lease None; leased poison.
End Board.

(** The run session of a process, on the shared game. *)
Section RunGame.
Context {G : Type} (game_factory : Res G) {HR : RunSession G}.

Definition observing {A} (c : M G A) : M (@Held G) A := shared (on_game game_factory c).
Definition mutating {A} (c : M G A) : M (@Held G) A := _ ← _mutating_game game_factory RUN; observing c.
#[export] Instance SharedRun : RunSession (@Held G) := {|
  rs_start_run seed character ascension := mutating (rs_start_run seed character ascension);
  rs_load_state s := mutating (rs_load_state s);
  rs_save_state := observing rs_save_state;
  rs_choose_room r := mutating (rs_choose_room r);
  rs_step a := mutating (rs_step a);
  rs_get_observation := observing rs_get_observation;
  rs_get_legal_actions := observing rs_get_legal_actions;
  rs_get_map_rooms := observing rs_get_map_rooms;
  rs_get_room_context := observing rs_get_room_context;
  rs_get_run_state := observing rs_get_run_state;
  rs_get_event_rng_state := observing rs_get_event_rng_state;
  rs_set_event_rng_state o := mutating (rs_set_event_rng_state o);
|}.
End RunGame.

(** * The live combat *)

(** What the CLR's exceptions carry besides their message. *)
Class ClrErrors := {
  InnerException : pyexn -> option (string * string);
  clr_type_name : pyexn -> string;
  clr_list : pyexn -> string -> option (list string);
  clr_text : pyexn -> string -> option string;
}.

Definition QUIESCENT : string := "QuiescentBoundaryViolationException".
Definition ACTION_FAULTED : string := "ActionFaultedException".
Definition FAULTED_SESSION : string := "FaultedCombatSessionException".
Definition RESTORE_REJECTED : string := "SnapshotRestoreRejectedException".
Definition RESTORE_FAILED : string := "SnapshotRestoreFailedException".
Definition is_exn (cls : string) (e : pyexn) : bool := String.eqb (exn_class e) cls.

Definition FAULT_MESSAGE_RE : rx := rx_seq
  [RLit "combatSessionId="; RGroup "session" (RPlus not_space); RPlus is_space; RLit "stepIndex="; RGroup "step" (RPlus is_digit);
   RPlus is_space; RLit "actionId="; RGroup "action_id" (RPlus not_space); RPlus is_space;
   RLit "action="; RGroup "action_desc" (RPlusLazy any_char);
   ROpt (rx_seq [RPlus is_space; RLit "originalExceptionType="; RGroup "orig_type" (RPlus not_space); RPlus is_space;
                 RLit "originalMessage="; RGroup "orig_msg" (RStarLazy any_char)]);
   RLit "."; RStar is_space; RLit "The combat session is now faulted"].

Record ActionFaultContext := {
  fc_combat_session_id : option string;
  fc_step_index : option Z;
  fc_action_id : pyval;
  fc_action_type : pyval;
  fc_card_id : pyval;
  fc_target_index : option Z;
  fc_target_enemy_index : option Z;
  fc_action_description : option string;
  fc_original_exception_type : option string;
  fc_original_exception_message : option string;
  fc_was_canceled : bool;
  fc_raw_message : string;
}.

Definition opt_text (o : option string) : string := default "None" o.
Definition opt_number (o : option Z) : string := match o with Some z => pretty z | None => "None" end.
Definition number_of (s : string) : option Z := int_of_str s.

Section Live.
Context {CE : ClrErrors} (json_loads : string -> Res pyval).

Definition _build_fault_context (clr_exc : pyexn) (frame : option DecisionFrame) (action : pydict)
    (target_index target_enemy_index : option Z) : Res ActionFaultContext :=
  let raw_message := exn_str clr_exc in
  let m := rx_search FAULT_MESSAGE_RE raw_message in
  let group name := m ≫= dget name in
  let original :=
    match InnerException clr_exc with
    | Some (type_name, message) => (Some type_name, Some message, str_contains "OperationCanceledException" type_name)
    | None => (group "orig_type"%string, group "orig_msg"%string,
               match m with Some _ => negb (is_some (group "orig_type"%string)) | None => false end)
    end in
  card_id ← py_get "cardId" (py_or (dget_none "parameters" action) (VDict []));
  Ok {| fc_combat_session_id := match frame with Some f => combat_session_id f | None => group "session"%string end;
        fc_step_index := match frame with Some f => Some (step_index f) | None => group "step"%string ≫= number_of end;
        fc_action_id := match dget_none "action_id" action with
                        | VNone => match group "action_id"%string with
                                   | Some t => if str_isdigit t then match number_of t with Some z => VInt z | None => VNone end else VNone
                                   | None => VNone
                                   end
                        | v => v
                        end;
        fc_action_type := dget_none "action_type" action; fc_card_id := card_id; fc_target_index := target_index;
        fc_target_enemy_index := target_enemy_index; fc_action_description := group "action_desc"%string;
        fc_original_exception_type := original.1.1; fc_original_exception_message := original.1.2;
        fc_was_canceled := original.2; fc_raw_message := raw_message |}.
Definition ActionExecutionError (c : ActionFaultContext) : pyexn :=
  PyExc "ActionExecutionError"
    ("Action execution " +:+ (if fc_was_canceled c then "was canceled" else "faulted") +:+ ": combat_session_id=" +:+
     opt_text (fc_combat_session_id c) +:+ " step_index=" +:+ opt_number (fc_step_index c) +:+ " action_id=" +:+
     py_str (fc_action_id c) +:+ " action_type=" +:+ py_str (fc_action_type c) +:+ " card_id=" +:+ py_str (fc_card_id c) +:+
     " original_exception_type=" +:+ opt_text (fc_original_exception_type c) +:+ " original_exception_message=" +:+
     opt_text (fc_original_exception_message c)).

Definition str_list (l : option (list string)) : pyval := VList (map VStr (default [] l)).
Definition SnapshotRestoreRejectedError (exc : pyexn) : pyexn :=
  PyExc "SnapshotRestoreRejectedError"
    ("Snapshot restore rejected: rejection_codes=" +:+ py_repr (str_list (clr_list exc "Reasons")) +:+
     " unsupported_field_paths=" +:+ py_repr (str_list (clr_list exc "UnsupportedFieldPaths"))).
Definition SnapshotRestoreFailedError (exc : pyexn) : pyexn :=
  let field name := opt_text (clr_text exc name) in
  PyExc "SnapshotRestoreFailedError"
    ("Snapshot restore failed after teardown: restore_phase=" +:+ field "RestorePhase" +:+ " combat_session_id=" +:+
     field "CombatSessionId" +:+ " schema_version=" +:+ field "SchemaVersion" +:+ " contract_version=" +:+ field "ContractVersion" +:+
     " snapshot_id=" +:+ field "SnapshotId" +:+ " original_exception_type=" +:+ field "OriginalExceptionType" +:+
     " original_exception_message=" +:+ field "OriginalExceptionMessage").
Definition QuiescentBoundaryViolation (exc : pyexn) : pyexn := PyExc "QuiescentBoundaryViolation" (exn_str exc).

(** The living enemies without a current move. *)
Definition enemy_missing_move (enemy : pyval) : Res (option pyval) :=
  alive ← enemy_living enemy;
  if negb alive then Ok None
  else
    intent ← py_get "intent" enemy;
    state_id ← py_get "stateId" (py_or intent (VDict []));
    if negb (veq_str state_id "UNSET_MOVE") then Ok None
    else index ← py_get "index" enemy; id ← py_get "id" enemy; Ok (Some (VDict [("index", index); ("id", id)]%string)).
Definition _enemies_missing_current_move (engine_state : pydict) : Res (list pyval) :=
  enemies ← enemies_of engine_state; l ← mapR enemy_missing_move enemies; Ok (omap (M:=list) (fun o : option pyval => o) l).
Definition SnapshotRestoreMissingMoveError (missing : list pyval) : pyexn :=
  PyExc "SnapshotRestoreMissingMoveError"
    ("Refusing to execute End Turn: living enemies still lack a current Move (Intent.stateId == 'UNSET_MOVE'): " +:+
     py_repr (VList missing) +:+
     ". This is a known Emulator SnapshotRestorer gap (Intent/RollMove is never touched by Restore) - ending this turn would " +:+
     "hang waiting for a Move that will never be set (see MonsterMoveStateMachine/MoveState.cs's UnsetMove()).").

#[global] Instance DecisionFrame_eq_dec : EqDecision DecisionFrame.
Proof. solve_decision. Defined.

Record LiveCombatSession := {
  live_handle : Handle;
  _emulator : BattleEmulator;
  _current_frame : option DecisionFrame;
  last_step_resynchronized : bool;
  resynchronize_count : Z;
  step_count : Z;
  _session_faulted : bool;
  last_fault_context : option ActionFaultContext;
}.
Definition with_handle (h : Handle) (s : LiveCombatSession) : LiveCombatSession :=
  {| live_handle := h; _emulator := _emulator s; _current_frame := _current_frame s;
     last_step_resynchronized := last_step_resynchronized s; resynchronize_count := resynchronize_count s;
     step_count := step_count s; _session_faulted := _session_faulted s; last_fault_context := last_fault_context s |}.
(** The session at a frame that was reached. *)
Definition at_frame (f : option DecisionFrame) (faulted : bool) (steps : Z) (s : LiveCombatSession) : LiveCombatSession :=
  {| live_handle := live_handle s; _emulator := _emulator s; _current_frame := f;
     last_step_resynchronized := last_step_resynchronized s; resynchronize_count := resynchronize_count s;
     step_count := step_count s + steps; _session_faulted := faulted; last_fault_context := last_fault_context s |}.
Definition fresh_frame (f : option DecisionFrame) (s : LiveCombatSession) : LiveCombatSession := at_frame f false 0 s.
Definition mark_faulted (c : option ActionFaultContext) (s : LiveCombatSession) : LiveCombatSession :=
  {| live_handle := live_handle s; _emulator := _emulator s; _current_frame := _current_frame s;
     last_step_resynchronized := last_step_resynchronized s; resynchronize_count := resynchronize_count s;
     step_count := step_count s; _session_faulted := true;
     last_fault_context := match c with Some c => Some c | None => last_fault_context s end |}.
Definition resynchronized (b : bool) (s : LiveCombatSession) : LiveCombatSession :=
  {| live_handle := live_handle s; _emulator := _emulator s; _current_frame := _current_frame s;
     last_step_resynchronized := b; resynchronize_count := resynchronize_count s + (if b then 1 else 0);
     step_count := step_count s; _session_faulted := if b then false else _session_faulted s;
     last_fault_context := last_fault_context s |}.

Section Session.
Context {G : Type} (game_factory : Res G) {HC : ClrGame G}.

(** A live combat with the board outside of it. *)
Definition LiveSt : Type := LiveCombatSession * Board G.
Definition with_held {A} (c : M (@Held G) A) : M LiveSt A := fun st =>
  let '(r, (h, b)) := c (live_handle st.1, st.2) in (r, (with_handle h st.1, b)).
Definition on_board {A} (c : M (Board G) A) : M LiveSt A := fun st => let '(r, b) := c st.2 in (r, (st.1, b)).
Definition game {A} (c : M G A) : M LiveSt A := on_board (on_game game_factory c).
Definition set_session (f : LiveCombatSession -> LiveCombatSession) : M LiveSt unit := modS (fun st => (f st.1, st.2)).

Definition new_live_combat_session (use_cache whole_run : bool) : M (Board G) LiveCombatSession :=
  _ ← on_access (observation_game game_factory);
  o ← new_object;
  mret {| live_handle := {| handle_holder := o; handle_lease := None |};
          _emulator := {| use_legal_action_cache := use_cache; whole_run_mode := whole_run |};
          _current_frame := None; last_step_resynchronized := false; resynchronize_count := 0; step_count := 0;
          _session_faulted := false; last_fault_context := None |}.

Definition claim_game : M LiveSt unit := with_held (_mutating_game game_factory COMBAT).
Definition live_accept (l : GameLease) : M LiveSt unit :=
  with_held (accept_transferred_lease game_factory COMBAT "LiveCombatSession received a lease for the wrong holder/state" l).
Definition live_begin_lease_transfer : M LiveSt GameLease :=
  with_held (h ← getS;
             match handle_lease h.1 with
             | None => raiseM (GameAccessError "LiveCombatSession has no COMBAT lease to transfer")
             | Some l => transfer ← leased (begin l); _ ← with_lease None; mret transfer
             end).
Definition live_close : M LiveSt unit := with_held close_session.

Definition frame_session_id (s : LiveCombatSession) : string := opt_text (f ← _current_frame s; combat_session_id f).
Definition FaultedCombatSessionError (msg : string) : pyexn := PyExc "FaultedCombatSessionError" msg.
Definition _ensure_session_not_faulted : M LiveSt unit :=
  st ← getS;
  if _session_faulted st.1 then raiseM (FaultedCombatSessionError
    ("Rejected: this LiveCombatSession's combat session (combat_session_id=" +:+ frame_session_id st.1 +:+
     ") faulted on a previous action and must not be read from or continued - its state may be partially updated. Call " +:+
     "start_combat()/resume_from()/restore_snapshot()/restore_snapshot_json() to start a new combat."))
  else mret tt.

(** [try: c except CLR: raise ours], for the exceptions that only change type. *)
Definition quiescent_only {A} (c : M LiveSt A) : M LiveSt A :=
  tryM c (fun e => raiseM (if is_exn QUIESCENT e then QuiescentBoundaryViolation e else e)).
Definition reading {A} (c : M LiveSt A) : M LiveSt A :=
  tryM c (fun e => raiseM (if is_exn FAULTED_SESSION e then FaultedCombatSessionError (exn_str e) else e)).

(** The wrapped result of a reset or restore. *)
Definition wrap_result (turn : Z) (result : ResetResult) : Res BattleState :=
  hps ← enemy_max_hps_of (BattleEmulator.State (ResetObservation result));
  _wrap (ResetObservation result) turn hps None (Some (legal_actions_to_list (ResetLegalActions result))) None.
Definition turn_of (obs : GameObservation) : Z := match Turn obs with None | Some 0 => 1 | Some t => t end.

Definition live_start_combat (scenario_spec : pydict) : M LiveSt BattleState :=
  scenario ← liftR (build_scenario_from_spec scenario_spec);
  _ ← claim_game;
  result ← quiescent_only (game (ResetFromScenario scenario));
  battle_state ← liftR (wrap_result 1 result);
  _ ← set_session (fresh_frame (decision_frame battle_state));
  mret battle_state.

Definition live_restore_snapshot (snapshot : Root) : M LiveSt BattleState :=
  _ ← claim_game;
  result ← tryM (game (RestoreSnapshot snapshot))
    (fun e => if is_exn RESTORE_REJECTED e then raiseM (SnapshotRestoreRejectedError e)
              else if is_exn RESTORE_FAILED e then _ ← set_session (mark_faulted None); raiseM (SnapshotRestoreFailedError e)
              else raiseM (if is_exn QUIESCENT e then QuiescentBoundaryViolation e else e));
  battle_state ← liftR (wrap_result (turn_of (ResetObservation result)) result);
  _ ← set_session (fresh_frame (decision_frame battle_state));
  mret battle_state.

Definition resume_from (battle_state : BattleState) : M LiveSt BattleState :=
  _ ← claim_game;
  scenario ← liftR (build_scenario_from_state (engine_state battle_state) (shuffle_rng_seed battle_state));
  _ ← quiescent_only (game (ResetFromScenario scenario));
  legal_actions ← game GetLegalActions;
  obs ← game GetObservation;
  fresh_state ← liftR (_wrap obs (BattleState.turn battle_state) (enemy_max_hps battle_state) (shuffle_rng_seed battle_state)
                         (Some (legal_actions_to_list legal_actions)) None);
  _ ← set_session (fresh_frame (decision_frame fresh_state));
  mret fresh_state.

(** The maxima of the enemies that have an index and one. *)
Fixpoint known_max_hps (enemies : list pyval) (hps : pydict) : Res pydict :=
  match enemies with
  | [] => Ok hps
  | e :: rest =>
      index ← py_get "index" e;
      if is_none index then known_max_hps rest hps
      else
        max_hp ← py_get "maxHp" e;
        if is_none max_hp then known_max_hps rest hps
        else k ← index_key index; known_max_hps rest (dset k max_hp hps)
  end.
Definition state_keys (state : pydict) : string :=
  py_repr (VList (map VStr (sort_by String.leb (dkeys state)))).
Definition adopt_current_combat : M LiveSt BattleState :=
  obs ← game GetObservation;
  let state := BattleEmulator.State obs in
  hps ← liftR (enemies ← enemies_of state; known_max_hps enemies []);
  legal_actions ← game GetLegalActions;
  turn ← liftR (match dget "turnNumber" state with
                | None => Raise (PyExc "RuntimeError" ("cannot adopt current combat: adopted state has no turnNumber (state keys: " +:+
                            state_keys state +:+ ")"))
                | Some VNone => Raise (PyExc "RuntimeError" ("cannot adopt current combat: adopted state has a null turnNumber, " +:+
                            "which the combat state schema uses for a non-combat observation (state keys: " +:+ state_keys state +:+ ")"))
                | Some v => py_int v
                end);
  battle_state ← liftR (_wrap obs turn hps None (Some (legal_actions_to_list legal_actions)) None);
  _ ← set_session (fun s => at_frame (decision_frame battle_state) (_session_faulted s) 0 s);
  mret battle_state.

Definition live_get_observation : M LiveSt GameObservation :=
  _ ← _ensure_session_not_faulted; reading (game GetObservation).
Definition live_get_legal_actions : M LiveSt (list pydict) :=
  _ ← _ensure_session_not_faulted; l ← reading (game GetLegalActions); mret (legal_actions_to_list l).
Definition live_capture_snapshot : M LiveSt pydict :=
  _ ← _ensure_session_not_faulted;
  json_text ← tryM (game CaptureSnapshotJson)
    (fun e => raiseM (if is_exn QUIESCENT e then QuiescentBoundaryViolation e
                      else if is_exn FAULTED_SESSION e then FaultedCombatSessionError (exn_str e) else e));
  snapshot ← liftR (from_json json_loads json_text);
  liftR (match snapshot with VDict d => Ok d | _ => Raise (PyExc "TypeError" "not a snapshot") end).

Definition _is_still_current : M LiveSt bool :=
  obs ← game GetObservation;
  st ← getS;
  mret (match _current_frame st.1 with
        | Some f => bool_decide (CombatSessionId obs = combat_session_id f) && (default (-1) (StepIndex obs) =? step_index f)
        | None => false
        end).
Definition _resynchronize (battle_state : BattleState) : M LiveSt unit :=
  scenario ← liftR (build_scenario_from_state (engine_state battle_state) (shuffle_rng_seed battle_state));
  _ ← quiescent_only (_ ← claim_game; game (ResetFromScenario scenario));
  set_session (resynchronized true).

Definition _handle_action_fault (e : pyexn) (action : pydict) (target_index target_enemy_index : option Z) {A} : M LiveSt A :=
  st ← getS;
  c ← liftR (_build_fault_context e (_current_frame st.1) action target_index target_enemy_index);
  _ ← set_session (mark_faulted (Some c));
  raiseM (ActionExecutionError c).
(** One action of a step, with the engine's faults translated. *)
Definition guarded_step (battle_state : BattleState) (action : pydict) (target_index target_enemy_index : option Z) :
    M LiveSt BattleState :=
  st ← getS;
  tryM (game (step_live_action (_emulator st.1) battle_state action target_index target_enemy_index))
    (fun e => if is_exn QUIESCENT e then raiseM (QuiescentBoundaryViolation e)
              else if is_exn ACTION_FAULTED e then _handle_action_fault e action target_index target_enemy_index
              else if is_exn FAULTED_SESSION e then
                _ ← set_session (mark_faulted None); raiseM (FaultedCombatSessionError (exn_str e))
              else raiseM e).

Definition frame_repr (f : option DecisionFrame) : string :=
  match f with
  | None => "None"
  | Some f => "DecisionFrame(combat_session_id=" +:+ repr_opt (combat_session_id f) +:+ ", step_index=" +:+ pretty (step_index f) +:+
              ", continuation_step_index=" +:+ opt_number (continuation_step_index f) +:+ ")"
  end.

Definition MAX_CONTINUATION_STEPS : nat := 50.
(** The continuation of a step that does not stop at pending choices. *)
Fixpoint resolve_continuations (rounds : nat) (stop_at_pending : bool) (resolver : BattleState -> list pydict -> M G pydict)
    (next_state : BattleState) : M LiveSt BattleState :=
  pending ← liftR (is_action_continuation_pending_choice (engine_state next_state));
  if negb pending || stop_at_pending then mret next_state
  else match rounds with
  | O => raiseM unresolved
  | S rounds =>
      st ← getS;
      legal ← game (enumerate_legal_actions (_emulator st.1) next_state);
      continuation_action ← game (resolver legal.2 legal.1);
      next_state ← guarded_step legal.2 continuation_action None None;
      resolve_continuations rounds stop_at_pending resolver next_state
  end.

(** The checks of [step] that come before the game is touched. *)
Definition step_admitted (battle_state : BattleState) (action : pydict) : M LiveSt unit :=
  st ← getS;
  match _current_frame st.1 with
  | None => raiseM (PyExc "RuntimeError" "start_combat()/resume_from() must be called before step()")
  | Some frame =>
      _ ← _ensure_session_not_faulted;
      if negb (bool_decide (decision_frame battle_state = Some frame)) then raiseM (PyExc "DecisionFrameMismatchError"
        ("action submitted against stale DecisionFrame " +:+ frame_repr (decision_frame battle_state) +:+
         " - session's current frame is " +:+ frame_repr (Some frame)))
      else if veq_str (dget_none "action_type" action) "system" then
        missing ← liftR (_enemies_missing_current_move (engine_state battle_state));
        match missing with [] => mret tt | _ => raiseM (SnapshotRestoreMissingMoveError missing) end
      else mret tt
  end.
(** The game at the board of the step: rebuilt from the step's own state when
    something else has touched it. *)
Definition ready_board (battle_state : BattleState) : M LiveSt unit :=
  _ ← set_session (resynchronized false);
  _ ← claim_game;
  current ← _is_still_current;
  if current : bool then mret tt else _resynchronize battle_state.
Definition live_step (resolver : option (BattleState -> list pydict -> M G pydict)) (stop_at_pending : bool)
    (battle_state : BattleState) (action : pydict) (target_index target_enemy_index : option Z) : M LiveSt BattleState :=
  _ ← step_admitted battle_state action;
  _ ← ready_board battle_state;
  next_state ← guarded_step battle_state action target_index target_enemy_index;
  next_state ← resolve_continuations MAX_CONTINUATION_STEPS stop_at_pending (default default_resolver resolver) next_state;
  _ ← set_session (fun s => at_frame (decision_frame next_state) (_session_faulted s) 1 s);
  mret next_state.
End Session.

(** * Entering a room *)

Section RoomEntry.
Context {G : Type} (game_factory : Res G) {HC : ClrGame G} {HR : RunSession G}.

(** [RoomEntryWorkerBootstrap.bootstrap]: the combat session, the run session of
    the replay and the transfer under way, over the board. *)
Record Entry := { entry_combat : LiveCombatSession; entry_run : RunHandle; entry_transfer : option GameLease }.
Definition EntrySt : Type := Entry * Board G.
Definition with_combat {A} (c : M LiveSt A) : M EntrySt A := fun st =>
  let '(r, (s, b)) := c (entry_combat st.1, st.2) in
  (r, ({| entry_combat := s; entry_run := entry_run st.1; entry_transfer := entry_transfer st.1 |}, b)).
Definition with_run_session {A} (c : M (@Held G) A) : M EntrySt A := fun st =>
  let '(r, (h, b)) := c (entry_run st.1, st.2) in
  (r, ({| entry_combat := entry_combat st.1; entry_run := h; entry_transfer := entry_transfer st.1 |}, b)).
Definition set_transfer (t : option GameLease) : M EntrySt unit := modS (fun st =>
  ({| entry_combat := entry_combat st.1; entry_run := entry_run st.1; entry_transfer := t |}, st.2)).

Definition enter_room (map_snapshot : string) (room_id : Z) : M EntrySt BattleState :=
  let run {A} (c : M (@Held G) A) := with_run_session c in
  _ ← run (@rs_load_state _ (SharedRun game_factory) map_snapshot);
  entered ← run (@rs_choose_room _ (SharedRun game_factory) (VInt room_id));
  if negb (truthy (dget_none "is_combat" entered)) then raiseM (PyExc "RuntimeError"
    ("room-entry root selected non-combat room " +:+ pretty room_id +:+ ": " +:+ py_repr (dget_none "room_type" entered)))
  else
    obs ← run (observing game_factory GetObservation);
    hps ← liftR (enemy_max_hps_of (BattleEmulator.State obs));
    legal_actions ← run (observing game_factory GetLegalActions);
    state ← liftR (_wrap obs (turn_of obs) hps None (Some (legal_actions_to_list legal_actions)) None);
    transfer ← run run_begin_lease_transfer;
    _ ← set_transfer (Some transfer);
    st ← getS;
    combat_lease ← run (commit_lease_transfer transfer COMBAT (handle_holder (live_handle (entry_combat st.1))));
    _ ← with_combat (live_accept game_factory combat_lease);
    _ ← set_transfer None;
    _ ← with_combat (set_session (fresh_frame (decision_frame state)));
    mret state.
(** The handler: the run takes back a transfer that was not completed. *)
Definition abandon_entry (e : pyexn) : M EntrySt BattleState :=
  st ← getS;
  _ ← (match entry_transfer st.1 with
       | Some transfer => with_run_session (rollback_lease_transfer transfer)
       | None => mret tt
       end);
  raiseM e.
Definition room_entry_bootstrap (map_snapshot : string) (room_id : Z) : M LiveSt BattleState := fun st =>
  match new_run_session game_factory st.2 with
  | (Raise e, b) => (Raise e, (st.1, b))
  | (Ok run, b) =>
      let '(r, (entry, b')) :=
        finallyM
          (tryM (enter_room map_snapshot room_id) abandon_entry)
          (with_run_session close_session)
          ({| entry_combat := st.1; entry_run := run; entry_transfer := None |}, b) in
      (r, (entry_combat entry, b'))
  end.

(** The live session is the session of the search. *)
#[export] Instance LiveCombat : CombatSession LiveSt := {|
  start_combat := live_start_combat game_factory;
  bootstrap_room_entry := room_entry_bootstrap;
  restore_snapshot := live_restore_snapshot game_factory;
  get_legal_actions := live_get_legal_actions game_factory;
  step := live_step game_factory None true;
  capture_snapshot := live_capture_snapshot game_factory;
|}.
End RoomEntry.
End Live.
