(* ===== verification/LiveLaws.v ===== *)
(** What the sessions on the shared game guarantee each other: who holds the
    game after a replay of a room entry, and what a faulted combat still does. *)

From S2P Require Export LiveSession.
Ltac run_access := unfold mbind, M_bind, liftR, putS, mret, M_ret, raiseM, advance; cbn.

Section Laws.
Context {G : Type} (game_factory : Res G).

(** Only a lease can be refused for good: generations never go back. *)
Definition forward {A} (c : M (GameAccess.t G) A) : Prop := forall a, _generation a <= _generation (c a).2.
Lemma forward_bind {A B} (c : M (GameAccess.t G) A) (k : A -> M (GameAccess.t G) B) :
  forward c -> (forall a, forward (k a)) -> forward (c ≫= k).
Proof.
  intros Hc Hk a. unfold mbind, M_bind. specialize (Hc a). destruct (c a) as [[x|e] a1]; cbn in *; [|done].
  etransitivity; [exact Hc|apply Hk].
Qed.
Lemma forward_get : forward getS. Proof. intros a. cbn. lia. Qed.
Lemma forward_lift {A} (r : Res A) : forward (liftR r). Proof. intros a. cbn. lia. Qed.
Lemma forward_put f : (forall a, _generation a <= _generation (f a)) -> forward (a ← getS; putS (f a)).
Proof. intros H a. apply H. Qed.
Lemma forward_at {A} (f : GameAccess.t G -> M (GameAccess.t G) A) :
  (forall a, _generation a <= _generation (f a a).2) -> forward (a ← getS; f a).
Proof. intros H a. apply H. Qed.

Lemma forward_observation : forward (observation_game game_factory).
Proof.
  apply forward_at. intros a. destruct (_game a); [cbn; lia|]. run_access. destruct game_factory; cbn; lia.
Qed.
Lemma forward_mutating l : forward (mutating_game game_factory l).
Proof. apply forward_bind; [apply forward_get|]. intros a. apply forward_bind; [apply forward_lift|]. intros _. apply forward_observation. Qed.
Lemma forward_claim h s : forward (claim h s).
Proof. apply forward_at. intros a. destruct (_state a); run_access; lia. Qed.
Lemma forward_release l : forward (release l).
Proof. apply forward_at. intros a. run_access. destruct (_validate_current l a); cbn; lia. Qed.
Lemma forward_begin l : forward (begin l).
Proof. apply forward_at. intros a. run_access. destruct (_validate_current l a); cbn; lia. Qed.
Lemma forward_commit l s h : forward (commit l s h).
Proof.
  apply forward_at. intros a. run_access. destruct (_validate_transfer l a); [|cbn; lia].
  destruct s; cbn; lia.
Qed.
Lemma forward_rollback l : forward (rollback l).
Proof. apply forward_at. intros a. run_access. destruct (_validate_transfer l a); cbn; lia. Qed.
Lemma forward_on_access {A} (m : M (GameAccess.t G) A) b :
  forward m -> _generation (board_access b) <= _generation (board_access (on_access m b).2).
Proof. intros H. unfold on_access. specialize (H (board_access b)). destruct (m (board_access b)) as [r a]. exact H. Qed.
Lemma forward_on_game {A} (c : M G A) b :
  _generation (board_access b) <= _generation (board_access (on_game game_factory c b).2).
Proof.
  apply forward_on_access, forward_bind; [apply forward_observation|]. intros g. apply forward_at. intros a.
  destruct (c g) as [r g']. run_access. lia.
Qed.
End Laws.

Definition gen {X G} (st : X * Board G) : Z := _generation (board_access st.2).

(** Commands that do not take a lease back to an older generation, and that
    leave the lease of the combat session alone when they raise. *)
Section Entering.
Context {CE : ClrErrors} {G : Type} (game_factory : Res G) {HC : ClrGame G} {HR : RunSession G}.

Definition combat_lease (st : @EntrySt G) : option GameLease := handle_lease (live_handle (entry_combat st.1)).
Definition R (st st' : @EntrySt G) : Prop := combat_lease st' = combat_lease st /\ gen st <= gen st'.
Definition moves {A} (c : M (@EntrySt G) A) : Prop := forall st, R st (c st).2.
Lemma R_trans a b c : R a b -> R b c -> R a c.
Proof. intros [E1 ?] [E2 ?]. split; [congruence|lia]. Qed.
Lemma moves_bind {A B} (c : M (@EntrySt G) A) (k : A -> M (@EntrySt G) B) :
  moves c -> (forall a, moves (k a)) -> moves (c ≫= k).
Proof.
  intros Hc Hk st. unfold mbind, M_bind. specialize (Hc st). destruct (c st) as [[x|e] st1]; cbn in *; [|done].
  eapply R_trans; [exact Hc|apply Hk].
Qed.
Lemma moves_lift {A} (r : Res A) : moves (liftR r). Proof. intros st. split; cbn; [done|lia]. Qed.
Lemma moves_get : moves getS. Proof. intros st. split; cbn; [done|lia]. Qed.
Lemma moves_transfer t : moves (set_transfer t). Proof. intros st. split; cbn; [done|]. unfold gen. cbn. lia. Qed.

(** What a run session does. *)
Definition run_forward {A} (c : M (@Held G) A) : Prop := forall h, gen h <= gen (c h).2.
Lemma moves_run {A} (c : M (@Held G) A) : run_forward c -> moves (with_run_session c).
Proof.
  intros H st. unfold with_run_session. specialize (H (entry_run st.1, st.2)).
  destruct (c (entry_run st.1, st.2)) as [r [h b]]. split; [done|exact H].
Qed.
Lemma run_forward_bind {A B} (c : M (@Held G) A) (k : A -> M (@Held G) B) :
  run_forward c -> (forall a, run_forward (k a)) -> run_forward (c ≫= k).
Proof.
  intros Hc Hk h. unfold mbind, M_bind. specialize (Hc h). destruct (c h) as [[x|e] h1]; cbn in *; [|done].
  etransitivity; [exact Hc|apply Hk].
Qed.
Lemma run_forward_at {A} (f : @Held G -> M (@Held G) A) : (forall h, run_forward (f h)) -> run_forward (h ← getS; f h).
Proof. intros H. apply run_forward_bind; [intros h; cbn; lia|done]. Qed.
Lemma run_forward_pure {A} (r : Res A) : run_forward (liftR r). Proof. intros h. cbn. lia. Qed.
Lemma run_forward_lease l : run_forward (with_lease (G := G) l). Proof. intros h. unfold gen. cbn. lia. Qed.
Lemma run_forward_leased {A} (c : M (GameAccess.t G) A) : forward c -> run_forward (leased c).
Proof.
  intros H h. unfold leased, shared. pose proof (forward_on_access c h.2 H) as Hc.
  destruct (on_access c h.2) as [r b]. exact Hc.
Qed.
Lemma run_forward_observing {A} (c : M G A) : run_forward (observing game_factory c).
Proof.
  intros h. unfold observing, shared. pose proof (forward_on_game game_factory c h.2) as H.
  destruct (on_game game_factory c h.2) as [r b]. exact H.
Qed.
Lemma run_forward_own s : run_forward (own_lease (G := G) s).
Proof.
  apply run_forward_at. intros h. destruct (handle_lease h.1); [apply (run_forward_pure (Ok g))|].
  apply run_forward_bind; [apply run_forward_leased, forward_claim|]. intros l.
  apply run_forward_bind; [apply run_forward_lease|]. intros _. apply (run_forward_pure (Ok l)).
Qed.
Lemma run_forward_mutating {A} (c : M G A) : run_forward (mutating game_factory c).
Proof.
  apply run_forward_bind; [|intros _; apply run_forward_observing]. apply run_forward_bind; [apply run_forward_own|].
  intros l. apply run_forward_bind; [apply run_forward_leased, forward_mutating|]. intros _. apply (run_forward_pure (Ok tt)).
Qed.
Lemma run_forward_begin : run_forward (run_begin_lease_transfer (G := G)).
Proof.
  apply run_forward_bind; [apply run_forward_own|]. intros l.
  apply run_forward_bind; [apply run_forward_leased, forward_begin|]. intros t.
  apply run_forward_bind; [apply run_forward_lease|]. intros _. apply (run_forward_pure (Ok t)).
Qed.
Lemma run_forward_rollback t : run_forward (rollback_lease_transfer (G := G) t).
Proof.
  apply run_forward_bind; [apply run_forward_leased, forward_rollback|]. intros l. apply run_forward_at. intros h.
  destruct (_ || _); [apply (run_forward_pure (A := unit) (Raise _))|apply run_forward_lease].
Qed.
Lemma run_forward_close : run_forward (close_session (G := G)).
Proof.
  apply run_forward_at. intros h. apply run_forward_bind; [apply run_forward_lease|]. intros _.
  destruct (handle_lease h.1) as [l|]; [|apply (run_forward_pure (Ok tt))].
  intros h'. unfold tryM. pose proof (run_forward_leased _ (forward_release l) h') as H.
  destruct (leased (release l) h') as [[u|e] h1]; [exact H|]. cbn in H. by destruct (String.eqb _ _).
Qed.

Lemma moves_abandon e : moves (abandon_entry e).
Proof.
  apply moves_bind; [apply moves_get|]. intros st. apply moves_bind; [|intros _ st'; split; cbn; [done|lia]].
  destruct (entry_transfer st.1); [apply moves_run, run_forward_rollback|apply (moves_lift (Ok tt))].
Qed.

(** The same, of the commands that raise. *)
Definition raising {A} (c : M (@EntrySt G) A) : Prop := forall st e st', c st = (Raise e, st') -> R st st'.
Lemma moves_raising {A} (c : M (@EntrySt G) A) : moves c -> raising c.
Proof. intros H st e st' E. specialize (H st). by rewrite E in H. Qed.
Lemma raising_bind {A B} (c : M (@EntrySt G) A) (k : A -> M (@EntrySt G) B) :
  moves c -> (forall a, raising (k a)) -> raising (c ≫= k).
Proof.
  intros Hc Hk st e st' E. unfold mbind, M_bind in E. specialize (Hc st). destruct (c st) as [[x|e'] st1]; cbn in Hc.
  - eapply R_trans; [exact Hc|by eapply Hk].
  - by injection E as <- <-.
Qed.

Definition installed (l : GameLease) (state : BattleState) : M (@EntrySt G) BattleState :=
  _ ← with_combat (live_accept game_factory l);
  _ ← set_transfer None;
  _ ← with_combat (set_session (fresh_frame (decision_frame state)));
  mret state.
Lemma accept_cases s wrong l (h : @Held G) :
  let '(r, h') := accept_transferred_lease game_factory s wrong l h in
  gen h <= gen h' /\ match r with Ok _ => handle_lease h'.1 = Some l | Raise _ => h'.1 = h.1 end.
Proof.
  unfold accept_transferred_lease. erewrite M_run_Ok by reflexivity. destruct (_ || _); [split; [lia|done]|].
  pose proof (run_forward_leased _ (forward_mutating game_factory l) h) as Hf.
  unfold mbind, M_bind. unfold leased, shared in *. destruct (on_access _ h.2) as [[g|e] b]; cbn in *; done.
Qed.
Lemma live_accept_raises l (st : @LiveSt G) e st' : live_accept game_factory l st = (Raise e, st') ->
  handle_lease (live_handle st'.1) = handle_lease (live_handle st.1) /\ gen st <= gen st'.
Proof.
  unfold live_accept, with_held. intros H.
  pose proof (accept_cases COMBAT "LiveCombatSession received a lease for the wrong holder/state" l (live_handle st.1, st.2)) as Ha.
  destruct (accept_transferred_lease _ _ _ _ _) as [r [h b]]. injection H as -> <-. destruct Ha as [Hg Hh].
  cbn in *. subst h. by split.
Qed.
Lemma raising_installed l state : raising (installed l state).
Proof.
  intros st e st' E. unfold installed in E. unfold mbind at 1, M_bind at 1 in E.
  destruct (with_combat (live_accept game_factory l) st) as [[u|e'] st1] eqn:Ea.
  - by cbn in E.
  - injection E as -> <-. unfold with_combat in Ea.
    destruct (live_accept game_factory l (entry_combat st.1, st.2)) as [r [s b]] eqn:El. injection Ea as -> <-.
    apply live_accept_raises in El. exact El.
Qed.

Lemma raising_enter_room_after (run_loaded : pydict) (room_id : Z) :
  raising (
    if negb (truthy (dget_none "is_combat" run_loaded)) then raiseM (PyExc "RuntimeError"
      ("room-entry root selected non-combat room " +:+ pretty room_id +:+ ": " +:+ py_repr (dget_none "room_type" run_loaded)))
    else
      obs ← with_run_session (observing game_factory GetObservation);
      hps ← liftR (enemy_max_hps_of (BattleEmulator.State obs));
      legal_actions ← with_run_session (observing game_factory GetLegalActions);
      state ← liftR (_wrap obs (turn_of obs) hps None (Some (legal_actions_to_list legal_actions)) None);
      transfer ← with_run_session run_begin_lease_transfer;
      _ ← set_transfer (Some transfer);
      st ← getS;
      combat_lease ← with_run_session (commit_lease_transfer transfer COMBAT (handle_holder (live_handle (entry_combat st.1))));
      installed combat_lease state).
Proof.
  destruct (negb _); [apply moves_raising; intros st; split; cbn; [done|lia]|].
  apply raising_bind; [apply moves_run, run_forward_observing|intros obs].
  apply raising_bind; [apply moves_lift|intros hps].
  apply raising_bind; [apply moves_run, run_forward_observing|intros legal].
  apply raising_bind; [apply moves_lift|intros state].
  apply raising_bind; [apply moves_run, run_forward_begin|intros transfer].
  apply raising_bind; [apply moves_transfer|intros _].
  apply raising_bind; [apply moves_get|intros st].
  apply raising_bind; [apply moves_run, run_forward_leased, forward_commit|intros l].
  apply raising_installed.
Qed.

Lemma own_lease_claims s (h : @Held G) :
  handle_lease h.1 = None -> _state (board_access h.2) = RUN \/ _state (board_access h.2) = COMBAT ->
  exists l h1, own_lease s h = (Ok l, h1) /\ gen h1 = gen h + 1.
Proof.
  destruct h as [[o l] [[g st hd n origin] next]]. cbn. intros -> Hs.
  destruct Hs as [-> | ->]; do 2 eexists; (split; [reflexivity|]); unfold gen; cbn; lia.
Qed.
Lemma mutating_advances {A} (c : M G A) (h : @Held G) :
  handle_lease h.1 = None -> _state (board_access h.2) = RUN \/ _state (board_access h.2) = COMBAT ->
  gen h < gen (mutating game_factory c h).2.
Proof.
  intros Hl Hs. destruct (own_lease_claims RUN h Hl Hs) as (l & h1 & E & Hg).
  unfold mutating, _mutating_game. unfold mbind at 1 2, M_bind at 1 2. rewrite E.
  enough (gen h1 <= gen (match (_ ← leased (mutating_game game_factory l); mret tt) h1 with
                         | (Ok a, s') => observing game_factory c s' | (Raise e, s') => (Raise e, s') end).2) by lia.
  pose proof (run_forward_bind (leased (mutating_game game_factory l)) (fun _ => mret tt)
    (run_forward_leased _ (forward_mutating _ l)) (fun _ => run_forward_pure (Ok tt)) h1) as H.
  destruct ((_ ← leased (mutating_game game_factory l); mret tt) h1) as [[u|e] h2]; [|exact H].
  pose proof (run_forward_observing c h2) as H2. cbn in H. lia.
Qed.

(** A replay of a room entry that fails has moved the game to another lease. *)
Lemma enter_room_fails ms room_id (st : @EntrySt G) e st' :
  handle_lease (entry_run st.1) = None ->
  _state (board_access st.2) = RUN \/ _state (board_access st.2) = COMBAT ->
  enter_room game_factory ms room_id st = (Raise e, st') -> combat_lease st' = combat_lease st /\ gen st < gen st'.
Proof.
  intros Hl Hs E. unfold enter_room in E. unfold mbind at 1, M_bind at 1 in E.
  pose proof (mutating_advances (rs_load_state ms) (entry_run st.1, st.2) Hl Hs) as Ha.
  destruct (with_run_session (rs_load_state ms) st) as [r0 st0] eqn:E0. unfold with_run_session in E0.
  cbn [rs_load_state SharedRun] in E0.
  destruct (mutating game_factory (rs_load_state ms) (entry_run st.1, st.2)) as [r [h b]]. injection E0 as <- <-.
  cbn in Ha. destruct r as [u|e1]; [|injection E as <- <-; by split].
  match type of E with ?c _ = _ => assert (Hr : raising c) end.
  { apply raising_bind; [exact (moves_run _ (run_forward_mutating _))|]. intros d. exact (raising_enter_room_after d room_id). }
  apply Hr in E as [Hc Hg].
  unfold gen in *. cbn in *. split; [exact Hc|lia].
Qed.
End Entering.

(** * Properties *)

Section Properties.
Context {CE : ClrErrors} (json_loads : string -> Res pyval) {G : Type} (game_factory : Res G) {HC : ClrGame G} {HR : RunSession G}.

Lemma validate_refuses l (a : GameAccess.t G) :
  lease_generation l < _generation a -> exists msg, _validate_current l a = Raise (GameAccessError msg).
Proof.
  intros H. unfold _validate_current. assert (E : is_current l a = false).
  { unfold is_current. apply andb_false_iff. left. apply andb_false_iff. left. lia. }
  rewrite E. destruct (_state a); by eexists.
Qed.
Lemma stale_claim l (st : @LiveSt G) :
  handle_lease (live_handle st.1) = Some l -> lease_generation l < gen st ->
  exists msg, claim_game game_factory st = (Raise (GameAccessError msg), st).
Proof.
  destruct st as [[[o hl] em f rs rc sc sf lf] [a n]]. cbn. intros -> Hg.
  destruct (validate_refuses l a Hg) as (msg & E). exists msg.
  unfold claim_game, with_held, _mutating_game, own_lease, leased, shared, on_access, mutating_game. run_access. by rewrite E.
Qed.

Lemma release_raises l (a : GameAccess.t G) e a' : release l a = (Raise e, a') -> exn_class e = "GameAccessError"%string.
Proof.
  unfold release. run_access. unfold _validate_current. destruct (_state a); try (by intros [= <- <-]);
    (destruct (is_current l a); [done|by intros [= <- <-]]).
Qed.
Lemma close_session_Ok (h : @Held G) : exists h', close_session h = (Ok tt, h').
Proof.
  unfold close_session. erewrite M_run_Ok by reflexivity. cbv beta. unfold with_lease. erewrite M_run_Ok by reflexivity. cbv beta.
  destruct (handle_lease h.1) as [l|]; [|by eexists].
  unfold tryM, leased, shared, on_access. cbn. destruct (release l (board_access h.2)) as [[[]|e] a] eqn:E; [by eexists|].
  rewrite (release_raises _ _ _ _ E). by eexists.
Qed.

Lemma mutating_again l (a a' : GameAccess.t G) g :
  mutating_game game_factory l a = (Ok g, a') -> mutating_game game_factory l a' = (Ok g, a').
Proof.
  destruct a as [gm st hd n o]. unfold mutating_game, observation_game. run_access.
  destruct (_validate_current l _) as [u|e] eqn:Ev; cbn; [|done].
  assert (Ev' : forall gm' : option G, _validate_current l {| _game := gm'; _state := st; _holder := hd; _generation := n; _transfer_origin := o |} = Ok u)
    by (intros gm'; exact Ev).
  destruct gm as [gm|]; cbn; [intros [= <- <-]; by rewrite Ev'|].
  destruct game_factory as [g0|e0]; cbn; [|done]. intros [= <- <-]. by rewrite Ev'.
Qed.
Lemma usable_unique l l' (a : GameAccess.t G) : usable game_factory l a -> usable game_factory l' a -> l' = l.
Proof.
  intros [_ (H1 & H2 & H3)%is_current_spec]%usable_current [_ (E1 & E2 & E3)%is_current_spec]%usable_current.
  destruct l, l'. cbn in *. congruence.
Qed.
Lemma accept_Ok s wrong l (h h' : @Held G) u : accept_transferred_lease game_factory s wrong l h = (Ok u, h') ->
  lease_state l = s /\ lease_holder l = Some (handle_holder h.1) /\ usable game_factory l (board_access h'.2) /\
  h'.1 = {| handle_holder := handle_holder h.1; handle_lease := Some l |}.
Proof.
  unfold accept_transferred_lease. erewrite M_run_Ok by reflexivity. cbv beta.
  destruct (negb (bool_decide (lease_state l = s))) eqn:Es; [done|].
  destruct (negb (bool_decide (lease_holder l = Some (handle_holder h.1)))) eqn:Eh; [done|]. cbn [orb].
  apply negb_false_iff, bool_decide_eq_true in Es. apply negb_false_iff, bool_decide_eq_true in Eh.
  unfold leased, shared, on_access, with_lease. run_access.
  destruct (mutating_game game_factory l (board_access h.2)) as [[g|e] a] eqn:E; cbn; [|done]. intros [= <- <-]. cbn.
  split_and!; [done|done| |done]. exists g, a. by eapply mutating_again.
Qed.

(** The run session gives its lease away before the combat gets one. *)
Lemma begin_gives_up (h h' : @Held G) l : run_begin_lease_transfer h = (Ok l, h') -> handle_lease h'.1 = None.
Proof. intros (l0 & h1 & _ & (t & h2 & _ & (u & h3 & [= _ <-] & [= _ <-])%M_bind_Ok)%M_bind_Ok)%M_bind_Ok. done. Qed.
Lemma with_run_session_Ok {A} (c : M (@Held G) A) (st st' : @EntrySt G) a : with_run_session c st = (Ok a, st') ->
  c (entry_run st.1, st.2) = (Ok a, (entry_run st'.1, st'.2)) /\ entry_combat st'.1 = entry_combat st.1.
Proof. unfold with_run_session. destruct (c (entry_run st.1, st.2)) as [r [h b]]. by intros [= -> <-]. Qed.
Lemma enter_room_gives_lease ms room_id (st st' : @EntrySt G) state :
  enter_room game_factory ms room_id st = (Ok state, st') ->
  exists l, live_handle (entry_combat st'.1) = {| handle_holder := handle_holder (live_handle (entry_combat st.1)); handle_lease := Some l |} /\
    lease_state l = COMBAT /\ usable game_factory l (board_access st'.2) /\ handle_lease (entry_run st'.1) = None /\
    _current_frame (entry_combat st'.1) = decision_frame state /\ _session_faulted (entry_combat st'.1) = false.
Proof.
  unfold enter_room. intros (u0 & st0 & [_ C0]%with_run_session_Ok & (entered & st1 & [_ C1]%with_run_session_Ok & H)%M_bind_Ok)%M_bind_Ok.
  destruct (negb _); [done|].
  apply M_bind_Ok in H as (obs & st2 & [_ C2]%with_run_session_Ok & (hps & st3 & [_ ->]%liftR_Ok & H)%M_bind_Ok).
  apply M_bind_Ok in H as (legal & st4 & [_ C4]%with_run_session_Ok & (state' & st5 & [_ ->]%liftR_Ok & H)%M_bind_Ok).
  apply M_bind_Ok in H as (transfer & st6 & [Hb%begin_gives_up C6]%with_run_session_Ok & (u & st7 & [= <- <-] & H)%M_bind_Ok).
  apply M_bind_Ok in H as (? & ? & [= <- <-] & (l & st8 & [Hc C8]%with_run_session_Ok & H)%M_bind_Ok).
  apply M_bind_Ok in H as (u & st9 & Ha & (u' & st10 & [= <- <-] & (u'' & st11 & Hf & [= <- <-])%M_bind_Ok)%M_bind_Ok).
  exists l. unfold with_combat in Ha, Hf. cbn in Hf. injection Hf as _ <-.
  destruct (live_accept game_factory l (entry_combat st8.1, st8.2)) as [r [s1 b1]] eqn:El. injection Ha as -> <-. cbn.
  unfold live_accept, with_held in El.
  destruct (accept_transferred_lease _ _ _ _ _) as [r [h1 b2]] eqn:Eac. injection El as -> <- <-.
  apply accept_Ok in Eac as (Es & _ & Hu & Eh). cbn in Eh, Hu. subst h1. cbn.
  unfold commit_lease_transfer, leased, shared in Hc. destruct (on_access _ _) as [rc bc]. injection Hc as _ Er _.
  cbn in *. split_and!; try done.
  - by rewrite C8, C6, C4, C2, C1, C0.
  - by rewrite <- Er.
Qed.

(** a replay of a room entry that succeeds hands the game over whole: the
    combat session holds the only lease in the process that may change the
    game, the run session that loaded the map may not any more, and the combat
    session stands at the frame it returned. *)
Theorem room_entry_hands_the_game_over map_snapshot room_id s b state s' b' :
  room_entry_bootstrap game_factory map_snapshot room_id (s, b) = (Ok state, (s', b')) ->
  exists l, handle_lease (live_handle s') = Some l /\ handle_holder (live_handle s') = handle_holder (live_handle s) /\
    lease_state l = COMBAT /\ (forall l', usable game_factory l' (board_access b') <-> l' = l) /\
    _current_frame s' = decision_frame state /\ _session_faulted s' = false.
Proof.
  unfold room_entry_bootstrap. destruct (new_run_session game_factory (s, b).2) as [[run|e0] b0]; [|done].
  unfold finallyM, tryM. cbn [fst snd]. intros H.
  match type of H with context [enter_room _ _ _ ?x] => set (st0 := x) in H end.
  destruct (enter_room game_factory map_snapshot room_id st0) as [[d|e1] st1] eqn:Ee.
  - destruct (enter_room_gives_lease _ _ _ _ _ Ee) as (l & Eh & Hs & Hu & Hr & Hf & Hn).
    unfold with_run_session, close_session in H. erewrite M_run_Ok in H by reflexivity. cbv beta in H.
    unfold with_lease in H. erewrite M_run_Ok in H by reflexivity. cbv beta in H. cbn [fst] in H. rewrite Hr in H.
    injection H as <- <- <-. exists l. rewrite Eh. split_and!; try done.
    intros l'. split; [by apply usable_unique|by intros ->].
  - exfalso. destruct (abandon_entry e1 st1) as [[d|e2] st2] eqn:Ea.
    + by apply M_bind_Ok in Ea as (? & ? & _ & (? & ? & _ & [=])%M_bind_Ok).
    + destruct (with_run_session close_session st2) as [[u|e3] st3]; by destruct st3.
Qed.


(** Nothing but the checks of a step looks at the session before the game. *)
Lemma admitted_frame b a (st st' : @LiveSt G) u : step_admitted b a st = (Ok u, st') -> st' = st /\ is_Some (_current_frame st.1).
Proof.
  unfold step_admitted. erewrite M_run_Ok by reflexivity. cbv beta. destruct (_current_frame st.1) as [f|]; [|done].
  intros (u0 & st1 & H0 & H)%M_bind_Ok. unfold _ensure_session_not_faulted in H0. erewrite M_run_Ok in H0 by reflexivity.
  cbv beta in H0. destruct (_session_faulted st.1); [done|]. injection H0 as _ <-.
  split; [|by eexists]. destruct (negb _); [done|]. destruct (veq_str _ _); [|by injection H as _ <-].
  apply M_bind_Ok in H as (missing & st2 & [_ ->]%liftR_Ok & H). destruct missing; [by injection H as _ <-|done].
Qed.
Definition keeps_frame {A} (c : M (@LiveSt G) A) : Prop := forall st, _current_frame (c st).2.1 = _current_frame st.1.
Lemma keeps_frame_bind {A B} (c : M (@LiveSt G) A) (k : A -> M LiveSt B) :
  keeps_frame c -> (forall a, keeps_frame (k a)) -> keeps_frame (c ≫= k).
Proof.
  intros Hc Hk st. unfold mbind, M_bind. specialize (Hc st). destruct (c st) as [[x|e] st1]; cbn in *; [|done].
  by rewrite (Hk x st1).
Qed.
Lemma keeps_frame_lift {A} (r : Res A) : keeps_frame (liftR r). Proof. done. Qed.
Lemma keeps_frame_game {A} (c : M G A) : keeps_frame (game game_factory c).
Proof. intros st. unfold game, on_board. by destruct (on_game game_factory c st.2). Qed.
Lemma keeps_frame_claim : keeps_frame (claim_game game_factory).
Proof. intros st. unfold claim_game, with_held. by destruct (_mutating_game _ _ _) as [r [h b]]. Qed.
Lemma keeps_frame_quiescent {A} (c : M (@LiveSt G) A) : keeps_frame c -> keeps_frame (quiescent_only c).
Proof. intros H st. specialize (H st). unfold quiescent_only, tryM. by destruct (c st) as [[a|e] st1]. Qed.
Lemma ready_board_frame b : keeps_frame (ready_board game_factory b).
Proof.
  apply keeps_frame_bind; [done|intros _]. apply keeps_frame_bind; [apply keeps_frame_claim|intros _].
  apply keeps_frame_bind; [apply keeps_frame_bind; [apply keeps_frame_game|by intros obs]|intros current].
  destruct current; [done|]. apply keeps_frame_bind; [apply keeps_frame_lift|intros sc].
  apply keeps_frame_bind; [|by intros _]. apply keeps_frame_quiescent, keeps_frame_bind; [apply keeps_frame_claim|].
  intros _. apply keeps_frame_game.
Qed.

Lemma faulted_refuses {A} (k : unit -> M (@LiveSt G) A) (st : LiveSt) : _session_faulted st.1 = true ->
  exists msg, (_ensure_session_not_faulted ≫= k) st = (Raise (PyExc "FaultedCombatSessionError" msg), st).
Proof.
  intros H. eexists. erewrite M_run_Raise; [reflexivity|]. unfold _ensure_session_not_faulted.
  erewrite M_run_Ok by reflexivity. cbv beta. by rewrite H.
Qed.

(** C31: an action that faults ends the combat session. The step reports what was
    known of the action, and from then on no step, observation, list of legal
    actions or snapshot reaches the game any more - each is refused, and
    changes nothing - until a combat is started anew. *)
Theorem action_fault_is_final resolver stop_at_pending b a target enemy st st1 st2 e context :
  step_admitted b a st = (Ok tt, st) -> ready_board game_factory b st = (Ok tt, st1) ->
  game game_factory (step_live_action (_emulator st1.1) b a target enemy) st1 = (Raise e, st2) ->
  exn_class e = ACTION_FAULTED -> _build_fault_context e (_current_frame st.1) a target enemy = Ok context ->
  let dead := (mark_faulted (Some context) st2.1, st2.2) in
  let refused {A} (c : M (@LiveSt G) A) := exists msg, c dead = (Raise (PyExc "FaultedCombatSessionError" msg), dead) in
  live_step game_factory resolver stop_at_pending b a target enemy st = (Raise (ActionExecutionError context), dead) /\
  (forall resolver stop_at_pending b a target enemy, refused (live_step game_factory resolver stop_at_pending b a target enemy)) /\
  refused (live_get_observation game_factory) /\ refused (live_get_legal_actions game_factory) /\
  refused (live_capture_snapshot json_loads game_factory) /\
  (forall spec b' alive, live_start_combat game_factory spec dead = (Ok b', alive) -> _session_faulted alive.1 = false).
Proof.
  intros Ha Hr Hs He Hc. cbn zeta.
  assert (Hf2 : _current_frame st2.1 = _current_frame st.1).
  { pose proof (ready_board_frame b st) as H1. rewrite Hr in H1. rewrite <- H1.
    pose proof (keeps_frame_game (step_live_action (_emulator st1.1) b a target enemy) st1) as H2. by rewrite Hs in H2. }
  destruct (admitted_frame _ _ _ _ _ Ha) as [_ Hframe].
  split_and!.
  - unfold live_step. erewrite M_run_Ok by exact Ha. erewrite M_run_Ok by exact Hr. erewrite M_run_Raise; [reflexivity|].
    unfold guarded_step. erewrite M_run_Ok by reflexivity. cbv beta. unfold tryM. rewrite Hs. unfold is_exn. rewrite He.
    cbn [String.eqb Ascii.eqb Bool.eqb QUIESCENT ACTION_FAULTED]. unfold _handle_action_fault.
    erewrite M_run_Ok by reflexivity. cbv beta. rewrite Hf2, Hc. by destruct st2.
  - intros resolver' stop' b' a' t' e'. unfold live_step, step_admitted.
    destruct Hframe as [f Hf]. assert (Hfd : _current_frame (mark_faulted (Some context) st2.1) = Some f) by (cbn; congruence).
    match goal with |- exists msg, ((?c ≫= ?k) ?s) = _ => enough (exists msg, c s = (Raise (PyExc "FaultedCombatSessionError" msg), s)) as [msg E]
      by (exists msg; by erewrite M_run_Raise by exact E) end.
    erewrite M_run_Ok by reflexivity. cbv beta. cbn [fst]. rewrite Hfd. by apply faulted_refuses.
  - by apply faulted_refuses.
  - by apply faulted_refuses.
  - by apply faulted_refuses.
  - intros spec b' alive H. unfold live_start_combat in H.
    apply M_bind_Ok in H as (? & ? & _ & (? & ? & _ & (? & ? & _ & (? & ? & _ & (? & ? & [= _ <-] & [= _ <-])%M_bind_Ok)%M_bind_Ok)%M_bind_Ok)%M_bind_Ok).
    done.
Qed.
End Properties.

(** * An engine *)

Definition demo_observation (n : Z) : GameObservation :=
  {| State := [("turnNumber", VInt 1); ("hp", VInt 10);
               ("enemies", VList [VDict [("index", VInt 0); ("maxHp", VInt 9); ("hp", VInt 9)]])]%string;
     IsTerminal := false; Outcome := "in_progress"; CombatSessionId := Some "c1"%string; StepIndex := Some n; Turn := Some 1 |}.
Definition demo_legal : list ClrAction :=
  [{| ActionId := 1; ActionType := "card"; Label := "Strike"; IsAvailable := true; Parameters := VDict []; SemanticKey := "strike" |}].
Definition demo_reset (n : Z) : ResetResult := {| ResetObservation := demo_observation n; ResetLegalActions := demo_legal |}.
(** Action 13 faults. *)
Definition demo_fault : pyexn :=
  PyExc ACTION_FAULTED "combatSessionId=c1 stepIndex=0 actionId=13 action=Strike. The combat session is now faulted".
Definition DemoGame : ClrGame Z := {|
  Scenario := unit;
  build_scenario_from_spec _ := Ok tt;
  build_scenario_from_state _ _ := Ok tt;
  ResetFromScenario _ := fun _ => (Ok (demo_reset 0), 0);
  GetObservation := fun n => (Ok (demo_observation n), n);
  GetLegalActions := mret demo_legal;
  Step a := fun n => if py_eqb a (VInt 13) then (Raise demo_fault, n)
                     else (Ok {| Observation := demo_observation (n + 1); LegalActions := demo_legal; Transition := None |}, n + 1);
  RestoreSnapshot _ := fun _ => (Ok (demo_reset 0), 0);
  CaptureSnapshotJson := mret "{}"%string;
|}.
(** Room 0 is a rest site. *)
Definition DemoRun : RunSession Z := {|
  rs_start_run _ _ _ := mret tt; rs_load_state _ := mret tt; rs_save_state := mret ""%string;
  rs_choose_room r := mret [("is_combat", VBool (negb (py_eqb r (VInt 0)))); ("room_type", VStr "RestSite")]%string;
  rs_step _ := mret []; rs_get_observation := mret []; rs_get_legal_actions := mret []; rs_get_map_rooms := mret [];
  rs_get_room_context := mret []; rs_get_run_state := mret []; rs_get_event_rng_state := mret [];
  rs_set_event_rng_state _ := mret tt;
|}.
Definition DemoErrors : ClrErrors :=
  {| InnerException _ := None; clr_type_name := exn_class; clr_list _ _ := None; clr_text _ _ := None |}.

Definition live_or (r : Res LiveCombatSession * Board Z) (s : LiveCombatSession) : @LiveSt Z := (from_ok r.1 s, r.2).
Definition idle_session : LiveCombatSession :=
  {| live_handle := {| handle_holder := 1%positive; handle_lease := None |}; _emulator := {| use_legal_action_cache := true; whole_run_mode := false |};
     _current_frame := None; last_step_resynchronized := false; resynchronize_count := 0; step_count := 0; _session_faulted := false;
     last_fault_context := None |}.
Definition new_demo : @LiveSt Z := Eval vm_compute in
  live_or (new_live_combat_session (Ok 0) true false {| board_access := GameAccess.init; next_object := 1%positive |}) idle_session.
(** In combat, entered from the map. *)
Definition entered_demo : Res BattleState * @LiveSt Z := Eval vm_compute in
  @room_entry_bootstrap Z (Ok 0) DemoGame DemoRun "map" 1 new_demo.
Definition entered_state : BattleState := Eval vm_compute in
  from_ok entered_demo.1 {| engine_state := []; is_terminal := true; outcome := ""; turn := 0; enemy_max_hps := []; shuffle_rng_seed := None;
                            _cached_legal_actions := None; decision_frame := None; combat_completion := None |}.
Definition failed_demo : Res BattleState * @LiveSt Z := Eval vm_compute in
  @room_entry_bootstrap Z (Ok 0) DemoGame DemoRun "map" 0 entered_demo.2.

Lemma room_entry_hands_the_game_over_witness :
  exists l, handle_lease (live_handle entered_demo.2.1) = Some l /\
    usable (Ok 0) l (board_access entered_demo.2.2) /\ lease_state l = COMBAT.
Proof.
  assert (E : @room_entry_bootstrap Z (Ok 0) DemoGame DemoRun "map" 1 (new_demo.1, new_demo.2) =
    (Ok entered_state, (entered_demo.2.1, entered_demo.2.2))) by (vm_compute; reflexivity).
  destruct (@room_entry_hands_the_game_over Z (Ok 0) DemoGame DemoRun "map" 1 _ _ _ _ _ E) as (l & Hl & _ & Hs & Hu & _).
  exists l. split_and!; [exact Hl|by apply Hu|exact Hs].
Defined.

Definition entered_lease : GameLease := {| lease_holder := Some 1%positive; lease_state := COMBAT; lease_generation := 3 |}.
Definition failed_error : pyexn := Eval vm_compute in match failed_demo.1 with Raise e => e | Ok _ => value_error "" end.

(** Action 13 against the state that was entered. *)
Definition fatal_action : pydict := [("action_id", VInt 13); ("action_type", VStr "card")]%string.
Definition ready_demo : @LiveSt Z := Eval vm_compute in (@ready_board Z (Ok 0) DemoGame entered_state entered_demo.2).2.
Definition fault_context : ActionFaultContext := Eval vm_compute in
  from_ok (@_build_fault_context DemoErrors demo_fault (decision_frame entered_state) fatal_action None None)
    {| fc_combat_session_id := None; fc_step_index := None; fc_action_id := VNone; fc_action_type := VNone; fc_card_id := VNone;
       fc_target_index := None; fc_target_enemy_index := None; fc_action_description := None; fc_original_exception_type := None;
       fc_original_exception_message := None; fc_was_canceled := false; fc_raw_message := "" |}.
Example fault_context_parsed : fc_action_description fault_context = Some "Strike"%string /\ fc_was_canceled fault_context = true.
Proof. done. Qed.
Lemma action_fault_is_final_witness :
  exists context dead, fc_action_id context = VInt 13 /\
    @live_step DemoErrors Z (Ok 0) DemoGame None true entered_state fatal_action None None entered_demo.2 =
      (Raise (ActionExecutionError context), dead) /\
    exists msg, @live_get_legal_actions Z (Ok 0) DemoGame dead = (Raise (PyExc "FaultedCombatSessionError" msg), dead).
Proof.
  destruct (@action_fault_is_final DemoErrors (fun s => Raise (value_error s)) Z (Ok 0) DemoGame None true entered_state fatal_action
    None None entered_demo.2 ready_demo ready_demo demo_fault fault_context) as (Hs & _ & _ & Hl & _);
    [vm_compute; reflexivity..|].
  destruct Hl as [msg Hl]. exists fault_context, (mark_faulted (Some fault_context) ready_demo.1, ready_demo.2).
  split_and!; [reflexivity|exact Hs|]. exists msg. exact Hl.
Defined.
