(* ===== verification/WholeRunState.v ===== *)
(** The state of a whole-run instance (API/instance_whole_run.py): the views of
    a decision, the bookkeeping of public branches, the record of the instance
    and one setter for each field its methods assign. *)

From S2P Require Export LiveSession CombatInstance RunPool EventRng.

Definition FAULT_RNG_HYPOTHESIS_UNSUPPORTED_AT_BOUNDARY : string := "rng_hypothesis_unsupported_at_boundary".

(** * Views of a decision *)

Definition _choice_type_from_boundary (boundary : pyval) : pyval := if veq_str boundary MAP_SELECT then VStr "map" else boundary.

Record _View := {
  view_legal : list pydict;
  boundary : pyval;
  observation : pydict;
  room_context : pydict;
  view_map_snapshot : option string;
  view_room_id : pyval;
  view_action_prefix : list pyval;
  view_choice_type : pyval;
  chain_blocked : bool;
  event_rng_state : option pydict;
}.
Record _CombatPhaseView := {
  phase_legal : list pydict;
  decision_context : option DecisionContext;
  phase_boundary : string;
  battle_state : BattleState;
}.
Inductive AnyView := RunView (v : _View) | PhaseView (v : _CombatPhaseView).

Definition no_such_action (public_action_id : string) (ambiguous : bool) : pyexn :=
  RequestRejected ("action_id " +:+ repr_str public_action_id +:+
    (if ambiguous then " is ambiguous among current legal actions" else " is not among current legal actions")) None.
(** The one action with this public id. *)
Definition resolve_one (public_action_id : string) (matches : list pydict) : Res pydict :=
  match matches with
  | [] => Raise (no_such_action public_action_id false)
  | [a] => Ok a
  | _ => Raise (no_such_action public_action_id true)
  end.
Definition resolve_in_run (public_action_id : string) (v : _View) : Res pydict :=
  resolve_one public_action_id
    (List.filter (fun a => match dget "action_id" a with Some i => String.eqb (py_str i) public_action_id | None => false end)
       (view_legal v)).
Definition resolve_in_phase (public_action_id : string) (v : _CombatPhaseView) : Res pydict :=
  resolve_one public_action_id
    (map snd (List.filter (fun p : nat * pydict => String.eqb (py_str (dget_or "action_id" (VInt (Z.of_nat p.1)) p.2)) public_action_id)
                (imap pair (phase_legal v)))).
Definition available (action_id : string) (chosen : pydict) : Res pydict :=
  match dget_none "is_available" chosen with
  | VBool false => reject ("action_id " +:+ repr_str action_id +:+ " is not currently available")
  | _ => Ok chosen
  end.

Definition none_attribute (name : string) : pyexn := PyExc "AttributeError" ("'NoneType' object has no attribute '" +:+ name +:+ "'").
Definition phase_view_attribute (name : string) : pyexn :=
  PyExc "AttributeError" ("'_CombatPhaseView' object has no attribute '" +:+ name +:+ "'").

Definition _build_child_view (parent_view : _View) (chosen_action_id : pyval) (step : option RunPool.ChoiceStepResult) : Res _View :=
  match step with
  | None => Raise (PyExc "RuntimeError" "successful branch result is missing ChoiceStepResult")
  | Some step =>
      new_boundary ← dindex "boundary" (RunPool.settled_observation step);
      let auto := map VInt (RunPool.step_auto_action_ids step) in
      let at_map := veq_str (view_choice_type parent_view) "map" in
      Ok {| view_legal := RunPool.settled_legal_actions step; boundary := new_boundary;
            observation := RunPool.settled_observation step; room_context := RunPool.settled_room_context step;
            view_map_snapshot := view_map_snapshot parent_view;
            view_room_id := if at_map then chosen_action_id else view_room_id parent_view;
            view_action_prefix := if at_map then auto else view_action_prefix parent_view ++ chosen_action_id :: auto;
            view_choice_type := _choice_type_from_boundary new_boundary; chain_blocked := veq_str new_boundary MAP_SELECT;
            event_rng_state := None |}
  end.

(** * Bookkeeping of public branches *)

Record Book := {
  parent_public_id : string;
  branch_log : list pyval;
  history : HistoryBuilder.t;
  rng_id : Z;
  view : option AnyView;
  book_status : string;
  terminal : bool;
  outcome : option string;
  event_rng_plan : option RunPool.EventRngReplayPlan;
  internal_id : option string;
}.
Definition new_book (parent : string) (log : list pyval) (h : HistoryBuilder.t) (rng_id : Z)
    (plan : option RunPool.EventRngReplayPlan) (internal : option string) : Book :=
  {| parent_public_id := parent; branch_log := log; history := h; rng_id := rng_id; view := None;
     book_status := STATUS_COMPLETED; terminal := false; outcome := None; event_rng_plan := plan; internal_id := internal |}.
Definition with_status (s : string) (b : Book) : Book :=
  {| parent_public_id := parent_public_id b; branch_log := branch_log b; history := history b; rng_id := rng_id b;
     view := view b; book_status := s; terminal := terminal b; outcome := outcome b; event_rng_plan := event_rng_plan b;
     internal_id := internal_id b |}.
Definition with_view (v : option AnyView) (b : Book) : Book :=
  {| parent_public_id := parent_public_id b; branch_log := branch_log b; history := history b; rng_id := rng_id b;
     view := v; book_status := book_status b; terminal := terminal b; outcome := outcome b; event_rng_plan := event_rng_plan b;
     internal_id := internal_id b |}.
Definition with_history (h : HistoryBuilder.t) (b : Book) : Book :=
  {| parent_public_id := parent_public_id b; branch_log := branch_log b; history := h; rng_id := rng_id b;
     view := view b; book_status := book_status b; terminal := terminal b; outcome := outcome b;
     event_rng_plan := event_rng_plan b; internal_id := internal_id b |}.
Definition with_plan (p : option RunPool.EventRngReplayPlan) (b : Book) : Book :=
  {| parent_public_id := parent_public_id b; branch_log := branch_log b; history := history b; rng_id := rng_id b;
     view := view b; book_status := book_status b; terminal := terminal b; outcome := outcome b; event_rng_plan := p;
     internal_id := internal_id b |}.
Definition ended (o : option string) (b : Book) : Book :=
  {| parent_public_id := parent_public_id b; branch_log := branch_log b; history := history b; rng_id := rng_id b;
     view := view b; book_status := book_status b; terminal := true;
     outcome := match o with Some o => Some o | None => outcome b end; event_rng_plan := event_rng_plan b;
     internal_id := internal_id b |}.

Record _BranchSpec := {
  spec_parent_view : _View;
  spec_parent_branch_id : string;
  spec_branch_id : string;
  spec_rng_id : Z;
  spec_decision_point_id : string;
  spec_action_id : string;
  chosen_action_id : pyval;
}.

Definition _faulted_branch_result (branch_id parent_branch_id : string) (rng_id : Z) (error fault_kind : pyval) : pydict :=
  [("status", VStr STATUS_FAULTED); ("branch_id", VStr branch_id); ("parent_branch_id", VStr parent_branch_id);
   ("rng_id", VInt rng_id); ("error", py_or error (VStr "branch execution faulted"));
   ("fault_kind", py_or fault_kind (VStr FAULT_EMULATOR_ERROR))]%string.
Definition _whole_run_boundary (b : string) : string := if String.eqb b BOUNDARY_PENDING then PENDING_CHOICE else b.

(** * The instance *)

Record WholeRunInstance (G : Type) := {
  instance_id : string;
  _god_mode : bool;
  _run : RunHandle;
  _pool : RunPool.Pool;
  _branch_ids : BranchIdRegistry.t;
  _decision_points : DecisionPointRegistry.t;
  _event_rng_registry : EventRngHypothesisRegistry;
  max_branches : Z;
  _combat_worker_count : Z;
  _map_snapshot : option string;
  _room_id : pyval;
  _action_prefix : list pyval;
  _root_branch_log : list pyval;
  _root_history : HistoryBuilder.t;
  _bookkeeping : list (string * Book);
  _combat_phase : option (CombatPhase (@LiveSt G));
  _combat_branch_reservations : gset string;
  _last_combat_completion : option CombatCompletion;
  _faulted : bool;
  _closed : bool;
}.
Arguments instance_id {G}. Arguments _god_mode {G}. Arguments _run {G}. Arguments _pool {G}.
Arguments _branch_ids {G}. Arguments _decision_points {G}. Arguments _event_rng_registry {G}.
Arguments max_branches {G}. Arguments _combat_worker_count {G}. Arguments _map_snapshot {G}. Arguments _room_id {G}.
Arguments _action_prefix {G}. Arguments _root_branch_log {G}. Arguments _root_history {G}.
Arguments _bookkeeping {G}. Arguments _combat_phase {G}. Arguments _combat_branch_reservations {G}.
Arguments _last_combat_completion {G}. Arguments _faulted {G}. Arguments _closed {G}.

Section Fields.
Context {G : Type}.
Implicit Type i : WholeRunInstance G.
Definition set_run (x : RunHandle) i : WholeRunInstance G :=
  {| instance_id := instance_id i; _god_mode := _god_mode i; _run := x; _pool := _pool i;
     _branch_ids := _branch_ids i; _decision_points := _decision_points i;
     _event_rng_registry := _event_rng_registry i; max_branches := max_branches i;
     _combat_worker_count := _combat_worker_count i; _map_snapshot := _map_snapshot i; _room_id := _room_id i;
     _action_prefix := _action_prefix i; _root_branch_log := _root_branch_log i; _root_history := _root_history i;
     _bookkeeping := _bookkeeping i; _combat_phase := _combat_phase i;
     _combat_branch_reservations := _combat_branch_reservations i;
     _last_combat_completion := _last_combat_completion i; _faulted := _faulted i; _closed := _closed i |}.
Definition set_pool (x : RunPool.Pool) i : WholeRunInstance G :=
  {| instance_id := instance_id i; _god_mode := _god_mode i; _run := _run i; _pool := x;
     _branch_ids := _branch_ids i; _decision_points := _decision_points i;
     _event_rng_registry := _event_rng_registry i; max_branches := max_branches i;
     _combat_worker_count := _combat_worker_count i; _map_snapshot := _map_snapshot i; _room_id := _room_id i;
     _action_prefix := _action_prefix i; _root_branch_log := _root_branch_log i; _root_history := _root_history i;
     _bookkeeping := _bookkeeping i; _combat_phase := _combat_phase i;
     _combat_branch_reservations := _combat_branch_reservations i;
     _last_combat_completion := _last_combat_completion i; _faulted := _faulted i; _closed := _closed i |}.
Definition set_ids (x : BranchIdRegistry.t) i : WholeRunInstance G :=
  {| instance_id := instance_id i; _god_mode := _god_mode i; _run := _run i; _pool := _pool i; _branch_ids := x;
     _decision_points := _decision_points i; _event_rng_registry := _event_rng_registry i;
     max_branches := max_branches i; _combat_worker_count := _combat_worker_count i;
     _map_snapshot := _map_snapshot i; _room_id := _room_id i; _action_prefix := _action_prefix i;
     _root_branch_log := _root_branch_log i; _root_history := _root_history i; _bookkeeping := _bookkeeping i;
     _combat_phase := _combat_phase i; _combat_branch_reservations := _combat_branch_reservations i;
     _last_combat_completion := _last_combat_completion i; _faulted := _faulted i; _closed := _closed i |}.
Definition set_points (x : DecisionPointRegistry.t) i : WholeRunInstance G :=
  {| instance_id := instance_id i; _god_mode := _god_mode i; _run := _run i; _pool := _pool i;
     _branch_ids := _branch_ids i; _decision_points := x; _event_rng_registry := _event_rng_registry i;
     max_branches := max_branches i; _combat_worker_count := _combat_worker_count i;
     _map_snapshot := _map_snapshot i; _room_id := _room_id i; _action_prefix := _action_prefix i;
     _root_branch_log := _root_branch_log i; _root_history := _root_history i; _bookkeeping := _bookkeeping i;
     _combat_phase := _combat_phase i; _combat_branch_reservations := _combat_branch_reservations i;
     _last_combat_completion := _last_combat_completion i; _faulted := _faulted i; _closed := _closed i |}.
Definition set_events (x : EventRngHypothesisRegistry) i : WholeRunInstance G :=
  {| instance_id := instance_id i; _god_mode := _god_mode i; _run := _run i; _pool := _pool i;
     _branch_ids := _branch_ids i; _decision_points := _decision_points i; _event_rng_registry := x;
     max_branches := max_branches i; _combat_worker_count := _combat_worker_count i;
     _map_snapshot := _map_snapshot i; _room_id := _room_id i; _action_prefix := _action_prefix i;
     _root_branch_log := _root_branch_log i; _root_history := _root_history i; _bookkeeping := _bookkeeping i;
     _combat_phase := _combat_phase i; _combat_branch_reservations := _combat_branch_reservations i;
     _last_combat_completion := _last_combat_completion i; _faulted := _faulted i; _closed := _closed i |}.
Definition set_log (x : list pyval) i : WholeRunInstance G :=
  {| instance_id := instance_id i; _god_mode := _god_mode i; _run := _run i; _pool := _pool i;
     _branch_ids := _branch_ids i; _decision_points := _decision_points i;
     _event_rng_registry := _event_rng_registry i; max_branches := max_branches i;
     _combat_worker_count := _combat_worker_count i; _map_snapshot := _map_snapshot i; _room_id := _room_id i;
     _action_prefix := _action_prefix i; _root_branch_log := x; _root_history := _root_history i;
     _bookkeeping := _bookkeeping i; _combat_phase := _combat_phase i;
     _combat_branch_reservations := _combat_branch_reservations i;
     _last_combat_completion := _last_combat_completion i; _faulted := _faulted i; _closed := _closed i |}.
Definition set_history (x : HistoryBuilder.t) i : WholeRunInstance G :=
  {| instance_id := instance_id i; _god_mode := _god_mode i; _run := _run i; _pool := _pool i;
     _branch_ids := _branch_ids i; _decision_points := _decision_points i;
     _event_rng_registry := _event_rng_registry i; max_branches := max_branches i;
     _combat_worker_count := _combat_worker_count i; _map_snapshot := _map_snapshot i; _room_id := _room_id i;
     _action_prefix := _action_prefix i; _root_branch_log := _root_branch_log i; _root_history := x;
     _bookkeeping := _bookkeeping i; _combat_phase := _combat_phase i;
     _combat_branch_reservations := _combat_branch_reservations i;
     _last_combat_completion := _last_combat_completion i; _faulted := _faulted i; _closed := _closed i |}.
Definition set_books (x : list (string * Book)) i : WholeRunInstance G :=
  {| instance_id := instance_id i; _god_mode := _god_mode i; _run := _run i; _pool := _pool i;
     _branch_ids := _branch_ids i; _decision_points := _decision_points i;
     _event_rng_registry := _event_rng_registry i; max_branches := max_branches i;
     _combat_worker_count := _combat_worker_count i; _map_snapshot := _map_snapshot i; _room_id := _room_id i;
     _action_prefix := _action_prefix i; _root_branch_log := _root_branch_log i; _root_history := _root_history i;
     _bookkeeping := x; _combat_phase := _combat_phase i;
     _combat_branch_reservations := _combat_branch_reservations i;
     _last_combat_completion := _last_combat_completion i; _faulted := _faulted i; _closed := _closed i |}.
Definition set_phase (x : option (CombatPhase (@LiveSt G))) i : WholeRunInstance G :=
  {| instance_id := instance_id i; _god_mode := _god_mode i; _run := _run i; _pool := _pool i;
     _branch_ids := _branch_ids i; _decision_points := _decision_points i;
     _event_rng_registry := _event_rng_registry i; max_branches := max_branches i;
     _combat_worker_count := _combat_worker_count i; _map_snapshot := _map_snapshot i; _room_id := _room_id i;
     _action_prefix := _action_prefix i; _root_branch_log := _root_branch_log i; _root_history := _root_history i;
     _bookkeeping := _bookkeeping i; _combat_phase := x;
     _combat_branch_reservations := _combat_branch_reservations i;
     _last_combat_completion := _last_combat_completion i; _faulted := _faulted i; _closed := _closed i |}.
Definition set_reservations (x : gset string) i : WholeRunInstance G :=
  {| instance_id := instance_id i; _god_mode := _god_mode i; _run := _run i; _pool := _pool i;
     _branch_ids := _branch_ids i; _decision_points := _decision_points i;
     _event_rng_registry := _event_rng_registry i; max_branches := max_branches i;
     _combat_worker_count := _combat_worker_count i; _map_snapshot := _map_snapshot i; _room_id := _room_id i;
     _action_prefix := _action_prefix i; _root_branch_log := _root_branch_log i; _root_history := _root_history i;
     _bookkeeping := _bookkeeping i; _combat_phase := _combat_phase i; _combat_branch_reservations := x;
     _last_combat_completion := _last_combat_completion i; _faulted := _faulted i; _closed := _closed i |}.
Definition set_completion (c : CombatCompletion) i : WholeRunInstance G :=
  {| instance_id := instance_id i; _god_mode := _god_mode i; _run := _run i; _pool := _pool i;
     _branch_ids := _branch_ids i; _decision_points := _decision_points i;
     _event_rng_registry := _event_rng_registry i; max_branches := max_branches i;
     _combat_worker_count := _combat_worker_count i; _map_snapshot := _map_snapshot i; _room_id := _room_id i;
     _action_prefix := _action_prefix i; _root_branch_log := _root_branch_log i; _root_history := _root_history i;
     _bookkeeping := _bookkeeping i; _combat_phase := _combat_phase i;
     _combat_branch_reservations := _combat_branch_reservations i; _last_combat_completion := Some c;
     _faulted := _faulted i; _closed := _closed i |}.
Definition set_position (snapshot : option string) (room : pyval) (prefix : list pyval) i : WholeRunInstance G :=
  {| instance_id := instance_id i; _god_mode := _god_mode i; _run := _run i; _pool := _pool i;
     _branch_ids := _branch_ids i; _decision_points := _decision_points i;
     _event_rng_registry := _event_rng_registry i; max_branches := max_branches i;
     _combat_worker_count := _combat_worker_count i; _map_snapshot := snapshot; _room_id := room;
     _action_prefix := prefix; _root_branch_log := _root_branch_log i; _root_history := _root_history i;
     _bookkeeping := _bookkeeping i; _combat_phase := _combat_phase i;
     _combat_branch_reservations := _combat_branch_reservations i;
     _last_combat_completion := _last_combat_completion i; _faulted := _faulted i; _closed := _closed i |}.
Definition mark_run_faulted i : WholeRunInstance G :=
  {| instance_id := instance_id i; _god_mode := _god_mode i; _run := _run i; _pool := _pool i;
     _branch_ids := _branch_ids i; _decision_points := _decision_points i;
     _event_rng_registry := _event_rng_registry i; max_branches := max_branches i;
     _combat_worker_count := _combat_worker_count i; _map_snapshot := _map_snapshot i; _room_id := _room_id i;
     _action_prefix := _action_prefix i; _root_branch_log := _root_branch_log i; _root_history := _root_history i;
     _bookkeeping := _bookkeeping i; _combat_phase := _combat_phase i;
     _combat_branch_reservations := _combat_branch_reservations i;
     _last_combat_completion := _last_combat_completion i; _faulted := true; _closed := _closed i |}.
Definition mark_run_closed i : WholeRunInstance G :=
  {| instance_id := instance_id i; _god_mode := _god_mode i; _run := _run i; _pool := _pool i;
     _branch_ids := _branch_ids i; _decision_points := _decision_points i;
     _event_rng_registry := _event_rng_registry i; max_branches := max_branches i;
     _combat_worker_count := _combat_worker_count i; _map_snapshot := _map_snapshot i; _room_id := _room_id i;
     _action_prefix := _action_prefix i; _root_branch_log := _root_branch_log i; _root_history := _root_history i;
     _bookkeeping := _bookkeeping i; _combat_phase := _combat_phase i;
     _combat_branch_reservations := _combat_branch_reservations i;
     _last_combat_completion := _last_combat_completion i; _faulted := _faulted i; _closed := true |}.
End Fields.
