(* ===== verification/WholeRun.v ===== *)
(** The methods of a whole-run instance (API/instance_whole_run.py and its
    batched subclass API/instance_whole_run_beam.py): root decisions and
    commits, the hand-over of the game between the run and a combat phase, the
    branches of an event over the pool, the branches of a combat over the phase. *)

From S2P Require Export WholeRunState.

(** * The parts, as methods of the instance *)

(** What a phase inside a run uses of its host besides the game: the
    environment, the workers, and what arrives during a poll. *)
Class PhaseHost (W : Type) := {
  phase_environ : W -> string -> option string;
  phase_start_workers : BranchPool -> M W unit;
  phase_queue_events : Manager -> list string -> spec_float -> W -> (list QueueEvent * (Z -> spec_float) * spec_float) * W;
}.

Section Instance.
Context (json_loads : string -> Res pyval) (format_exc : pyexn -> string) (work_item_for_ipc : WorkItem -> WorkItem) (draws : nat).
Context {CE : ClrErrors} {G W : Type} (game_factory : Res G) {HC : ClrGame G} {HR : RunSession G}.
Context {PH : PhaseHost W} {HO : RunPool.SetOrder}.

#[local] Instance RunOfProcess : RunSession (@Held G) := SharedRun game_factory.
#[local] Instance CombatOfProcess : CombatSession (@LiveSt G) := LiveCombat json_loads game_factory.
(** A phase of a run is adopted: it never makes a session of its own. *)
#[local] Instance HostOfProcess : CombatHost (@LiveSt G) W := {|
  new_live_session := raiseM (PyExc "RuntimeError" "a run adopts its combats");
  session_close := live_close;
  environ := phase_environ;
  start_workers := phase_start_workers;
  queue_events := phase_queue_events;
|}.

(** An instance over the board of the process and the rest of the host. *)
Definition St : Type := WholeRunInstance G * (Board G * W).
Definition self : M St (WholeRunInstance G) := fun st => (Ok st.1, st).
Definition update (f : WholeRunInstance G -> WholeRunInstance G) : M St unit := modS (fun st => (f st.1, st.2)).
Definition on_board_only {A} (c : M (Board G) A) : M St A := fun st =>
  let '(r, b) := c st.2.1 in (r, (st.1, (b, st.2.2))).
Definition session {A} (c : M (@Held G) A) : M St A := fun st =>
  let '(r, (h, b)) := c (_run st.1, st.2.1) in (r, (set_run h st.1, (b, st.2.2))).
Definition on_pool {A} (c : M RunPool.Pool A) : M St A := fun st =>
  let '(r, p) := c (_pool st.1) in (r, (set_pool p st.1, st.2)).
Definition on_ids {A} (c : M BranchIdRegistry.t A) : M St A := fun st =>
  let '(r, x) := c (_branch_ids st.1) in (r, (set_ids x st.1, st.2)).
Definition on_points {A} (c : M DecisionPointRegistry.t A) : M St A := fun st =>
  let '(r, x) := c (_decision_points st.1) in (r, (set_points x st.1, st.2)).
Definition on_events {A} (c : M EventRngHypothesisRegistry A) : M St A := fun st =>
  let '(r, x) := c (_event_rng_registry st.1) in (r, (set_events x st.1, st.2)).
Definition on_root_history {A} (c : M HistoryBuilder.t A) : M St A := fun st =>
  let '(r, x) := c (_root_history st.1) in (r, (set_history x st.1, st.2)).
Definition set_book (b : string) (book : Book) : M St unit := update (fun i => set_books (dset b book (_bookkeeping i)) i).
Definition update_book (b : string) (f : Book -> Book) : M St unit :=
  update (fun i => match dget b (_bookkeeping i) with
                   | Some book => set_books (dset b (f book) (_bookkeeping i)) i
                   | None => i
                   end).

(** The phase plays on the board of the process: its session's board is that
    board whenever one of its methods runs. *)
Definition on_board_of (b : Board G) (p : CombatPhase (@LiveSt G)) : CombatPhase (@LiveSt G) :=
  with_session ((CombatPhase._session p).1, b) p.
Definition run_phase {A} (c : M (CombatPhase (@LiveSt G) * W) A) (p : CombatPhase (@LiveSt G)) (h : Board G * W) :
    Res A * (CombatPhase (@LiveSt G) * (Board G * W)) :=
  let '(r, (p', w)) := c (on_board_of h.1 p, h.2) in (r, (p', ((CombatPhase._session p').2, w))).
Definition no_world {A} (c : M (CombatPhase (@LiveSt G)) A) : M (CombatPhase (@LiveSt G) * W) A := fun st =>
  let '(r, p) := c st.1 in (r, (p, st.2)).
(** A method of the active phase. *)
Definition on_phase_world {A} (c : M (CombatPhase (@LiveSt G) * W) A) : M St A := fun st =>
  match _combat_phase st.1 with
  | None => (Raise (none_attribute "phase"), st)
  | Some p => let '(r, (p', h)) := run_phase c p st.2 in (r, (set_phase (Some p') st.1, h))
  end.
Definition on_phase {A} (c : M (CombatPhase (@LiveSt G)) A) : M St A := on_phase_world (no_world c).
(** A method of a phase that is not the active one (any more). *)
Definition on_detached {A} (p : CombatPhase (@LiveSt G)) (c : M (CombatPhase (@LiveSt G)) A) : M St A := fun st =>
  let '(r, (_, h)) := run_phase (no_world c) p st.2 in (r, (st.1, h)).

Definition current_point (b : string) (i : WholeRunInstance G) : pyval :=
  opt_str (DecisionPointRegistry.current b (_decision_points i)).
Definition _reject_if_root (b : string) : Res unit :=
  if String.eqb b ROOT_BRANCH_ID then reject "root cannot be Cancelled/Released/status-queried as a Branch" else Ok tt.
Definition _ensure_mutable : M St unit :=
  i ← self;
  if _faulted i then raiseM (RequestRejected "whole-run instance is faulted; close it explicitly before reuse" None) else mret tt.

(** * Views *)

Definition _maybe_capture_map_snapshot : M St unit :=
  obs ← session rs_get_observation;
  boundary ← liftR (dindex "boundary" obs);
  if veq_str boundary MAP_SELECT then
    snapshot ← session rs_save_state;
    update (set_position (Some snapshot) VNone [])
  else mret tt.

Definition _root_view : M St _View :=
  obs ← session rs_get_observation;
  boundary ← liftR (dindex "boundary" obs);
  legal ← session (if veq_str boundary MAP_SELECT then _map_rooms_as_legal_actions else rs_get_legal_actions);
  room_context ← session rs_get_room_context;
  _ ← on_root_history (HistoryBuilder.observe_room_context room_context);
  events ← (if veq_str boundary EVENT_CHOICE then d ← session rs_get_event_rng_state; mret (Some d) else mret None);
  i ← self;
  mret {| view_legal := legal; boundary := boundary; observation := obs; room_context := room_context;
          view_map_snapshot := _map_snapshot i; view_room_id := _room_id i; view_action_prefix := _action_prefix i;
          view_choice_type := _choice_type_from_boundary boundary; chain_blocked := false; event_rng_state := events |}.

Definition dead_status (s : string) : bool := str_in s [STATUS_CANCELLED; STATUS_RELEASED; STATUS_FAULTED].
Definition _view_for (b : string) : M St _View :=
  if String.eqb b ROOT_BRANCH_ID then _root_view
  else
    i ← self;
    match dget b (_bookkeeping i) with
    | None => raiseM (RequestRejected ("unknown branch_id " +:+ repr_str b) None)
    | Some book =>
        if dead_status (book_status book) then
          raiseM (RequestRejected ("branch_id " +:+ repr_str b +:+ " is " +:+ book_status book +:+ " and cannot be used") None)
        else match terminal book, view book with
        | true, _ | _, None => raiseM (RequestRejected ("branch_id " +:+ repr_str b +:+ " has no current Decision to branch from") None)
        | false, Some (PhaseView _) => raiseM (phase_view_attribute "chain_blocked")
        | false, Some (RunView v) =>
            if chain_blocked v then raiseM (RequestRejected ("branch_id " +:+ repr_str b +:+
              " reached a new map boundary; further emulate_action from a non-root Branch across a map boundary is not " +:+
              "supported in this pass") None)
            else mret v
        end
    end.

(** * Responses *)

(** [d or {}], where a dictionary is needed. *)
Definition dict_or_empty (v : pyval) : Res pydict :=
  match py_or v (VDict []) with
  | VDict d => Ok d
  | v => Raise (PyExc "AttributeError" ("'" +:+ py_type_name v +:+ "' object has no attribute 'items'"))
  end.
Definition run_outcome (observation : pydict) (context : string) : Res string :=
  require_terminal_outcome (dget_none "outcome" observation) context VALID_WHOLE_RUN_TERMINAL_OUTCOMES.
Definition _decision_response_fields (b : string) (v : _View) (log : list pyval) (h : HistoryBuilder.t)
    (i : WholeRunInstance G) : Res pydict :=
  legal ← mask_legal_actions (view_legal v);
  let extra := [("boundary", boundary v); ("legal_actions", VList legal); ("room_context", VDict (room_context v));
                ("history", VList (HistoryBuilder.to_public_list h))]%string in
  extra ← (if veq_str (boundary v) RUN_TERMINAL then
             o ← run_outcome (observation v) "whole-run root decision";
             Ok (extra ++ [("run_terminal", VBool true); ("outcome", VStr o)]%string)
           else Ok extra);
  state ← dict_or_empty (dget_none "state" (observation v));
  masked ← build_masked_emulator_dto state (Some extra);
  Ok [("branch_id", VStr b); ("decision_point_id", current_point b i); ("branch_log", VList log);
      ("masked_emulator_dto", VDict masked)]%string.
Definition root_response (v : _View) : M St pydict :=
  i ← self; liftR (_decision_response_fields ROOT_BRANCH_ID v (_root_branch_log i) (_root_history i) i).

(** The decision of a branch of the combat phase; the history it reports is the
    branch's own. *)
Definition _phase_decision_response_fields (b : string) (v : _CombatPhaseView) (log : list pyval) : M St pydict :=
  room_context ← session rs_get_room_context;
  i ← self;
  match dget b (_bookkeeping i) with
  | None => raiseM (PyExc "KeyError" (repr_str b))
  | Some book =>
      match HistoryBuilder.observe_room_context room_context (history book) with
      | (Raise e, h) => _ ← update_book b (with_history h); raiseM e
      | (Ok _, h) =>
          _ ← update_book b (with_history h);
          legal ← liftR (mask_legal_actions (phase_legal v));
          masked ← liftR (build_masked_emulator_dto (engine_state (battle_state v)) (Some
            [("boundary", VStr (_whole_run_boundary (phase_boundary v))); ("legal_actions", VList legal);
             ("room_context", VDict room_context); ("history", VList (HistoryBuilder.to_public_list h))]%string));
          i ← self;
          mret [("branch_id", VStr b); ("decision_point_id", current_point b i); ("branch_log", VList log);
                ("masked_emulator_dto", VDict masked)]%string
      end
  end.

Definition faulted_status (field id : string) : pydict := [("status"%string, VStr STATUS_FAULTED); (field, VStr id)].
Definition base_start_instance_response : M St pydict :=
  i ← self;
  if _faulted i then mret (faulted_status "instance_id" (instance_id i))
  else
    v ← _root_view;
    fields ← root_response v;
    mret (Combat.completed (("instance_id"%string, VStr (instance_id i)) :: fields)).
Definition start_instance_response : M St pydict :=
  response ← base_start_instance_response;
  i ← self;
  mret (dupdate response [("max_emulate_actions_items", VInt (max_branches i));
    ("emulate_actions_boundaries", VList [VStr EVENT_CHOICE; VStr PENDING_CHOICE; VStr STABLE])]%string).

Definition combat_completed_dto (o : string) : Res pydict :=
  build_masked_emulator_dto [] (Some [("terminal", VBool true); ("outcome", VStr o);
    ("transition", VDict [("kind", VStr "combat_completed")])]%string).
Definition run_terminal_dto (o : string) : Res pydict :=
  build_masked_emulator_dto [("run_terminal", VBool true); ("outcome", VStr o)]%string None.
Definition terminal_decision (b : string) (book : Book) (i : WholeRunInstance G) : Res pydict :=
  dto ← (match internal_id book with
         | Some _ =>
             o ← require_terminal_outcome (opt_str (outcome book)) ("combat branch " +:+ repr_str b) VALID_COMBAT_TERMINAL_OUTCOMES;
             combat_completed_dto o
         | None =>
             o ← require_terminal_outcome (opt_str (outcome book)) ("whole-run branch " +:+ repr_str b) VALID_WHOLE_RUN_TERMINAL_OUTCOMES;
             run_terminal_dto o
         end);
  Ok (Combat.completed [("branch_id", VStr b); ("decision_point_id", current_point b i); ("branch_log", VList (branch_log book));
                 ("masked_emulator_dto", VDict dto)]%string).
Definition get_decision (b : string) : M St pydict :=
  i ← self;
  if _faulted i then mret (faulted_status "branch_id" b)
  else if String.eqb b ROOT_BRANCH_ID then v ← _root_view; fields ← root_response v; mret (Combat.completed fields)
  else if negb (BranchIdRegistry.is_known b (_branch_ids i)) then
    raiseM (RequestRejected ("unknown branch_id " +:+ repr_str b) None)
  else match dget b (_bookkeeping i) with
  | None => raiseM (PyExc "KeyError" (repr_str b))
  | Some book =>
      if negb (String.eqb (book_status book) STATUS_COMPLETED) then
        mret [("status", VStr (book_status book)); ("branch_id", VStr b)]%string
      else if terminal book then liftR (terminal_decision b book i)
      else match view book with
      | Some (PhaseView v) => fields ← _phase_decision_response_fields b v (branch_log book); mret (Combat.completed fields)
      | Some (RunView v) =>
          fields ← liftR (_decision_response_fields b v (branch_log book) (history book) i); mret (Combat.completed fields)
      | None => raiseM (none_attribute "boundary")
      end
  end.

(** * The life of branches *)

Definition release_event_reference (b : string) (book : Book) : M St unit :=
  match event_rng_plan book with
  | Some plan =>
      _ ← on_events (release_branch (RunPool.hypothesis_key plan) b);
      update_book b (with_plan None)
  | None => mret tt
  end.
(** [_release_event_rng_reference] of the book as it is now. *)
Definition _release_event_rng_reference (b : string) : M St unit :=
  i ← self;
  match dget b (_bookkeeping i) with Some book => release_event_reference b book | None => mret tt end.

Definition phase_internal_ids (i : WholeRunInstance G) : list string :=
  omap (fun kb => if String.eqb (book_status kb.2) STATUS_RELEASED then None else internal_id kb.2) (_bookkeeping i).
Definition outlived : pyexn := PyExc "RuntimeError" "combat Branch outlived its active CombatPhase".
Definition has_phase (i : WholeRunInstance G) : bool := is_some (_combat_phase i).
(** The tombstones of all branches. *)
Definition retire (kb : string * Book) : string * Book :=
  (kb.1, with_view None (if str_in (book_status kb.2) [STATUS_CANCELLED; STATUS_RELEASED] then kb.2
                         else with_status STATUS_RELEASED kb.2)).
Fixpoint clear_each (branch_ids : list string) : M St unit :=
  match branch_ids with
  | [] => mret tt
  | b :: rest => _ ← on_points (DecisionPointRegistry.clear b); clear_each rest
  end.
Definition _cancel_and_release_all_branches : M St unit :=
  i ← self;
  _ ← (match phase_internal_ids i with
       | [] => mret tt
       | ids => if has_phase i then on_phase (phase_release ids) else raiseM outlived
       end);
  _ ← update (fun i => set_reservations (_combat_branch_reservations i ∖ list_to_set (dkeys (_bookkeeping i)))
                         (set_books (map retire (_bookkeeping i)) i));
  i ← self;
  _ ← clear_each (dkeys (_bookkeeping i));
  on_events release_all.

(** * Hand-over between run and combat *)

(** A phase named by a variable: the active one, or one on its own. *)
Inductive PhaseRef := NoPhase | Active | Detached (p : CombatPhase (@LiveSt G)).
Definition swallow (c : M St unit) : M St unit := tryM c (fun _ => mret tt).

Definition _poison_combat_transaction (phase : PhaseRef) : M St unit :=
  _ ← update mark_run_faulted;
  i ← self;
  _ ← (if has_phase i then swallow _cancel_and_release_all_branches else mret tt);
  i ← self;
  let phase := match phase with
               | Active => match _combat_phase i with Some p => Detached p | None => NoPhase end
               | p => p
               end in
  _ ← update (set_phase None);
  _ ← session poison_mutations;
  _ ← (match phase with Detached p => swallow (on_detached p phase_close) | _ => mret tt end);
  on_pool (modS RunPool.close).

(** The room of a room-entry root: read only where there is no stable anchor. *)
Definition entry_room (root_state : BattleState) (snapshot : option string) (room : pyval) : Res (option Z) :=
  b ← boundary_of_battle_state root_state;
  match snapshot with
  | Some _ => if String.eqb b BOUNDARY_STABLE || is_none room then Ok None else z ← py_int room; Ok (Some z)
  | None => Ok None
  end.

(** The variables [phase] and [committed] of [enter_combat_phase]. *)
Definition EnterSt : Type := St * (option (CombatPhase (@LiveSt G)) * bool).
Definition outer {A} (c : M St A) : M EnterSt A := fun l => let '(r, st) := c l.1 in (r, (st, l.2)).
Definition assign_phase (p : option (CombatPhase (@LiveSt G))) (committed : bool) : M EnterSt unit :=
  modS (fun l => (l.1, (p, committed))).
Definition on_live {A} (live : LiveCombatSession) (c : M (@LiveSt G) A) : M St (A * LiveCombatSession) := fun st =>
  let '(r, (s, b)) := c (live, st.2.1) in
  (match r with Ok a => Ok (a, s) | Raise e => Raise e end, (st.1, (b, st.2.2))).
Definition adopt_here (live : LiveCombatSession) (root_state : BattleState) (room : option Z) : M St (CombatPhase (@LiveSt G)) := fun st =>
  let i := st.1 in
  let '(r, w) := adopt (live, st.2.1) root_state (Some (_combat_worker_count i)) (max_branches i) None (_map_snapshot i) room st.2.2 in
  (r, (i, (match r with Ok p => (CombatPhase._session p).2 | Raise _ => st.2.1 end, w))).
Definition adopt_phase (live : LiveCombatSession) (root_state : BattleState) : M St (CombatPhase (@LiveSt G)) :=
  i ← self;
  room ← liftR (entry_room root_state (_map_snapshot i) (_room_id i));
  adopt_here live root_state room.
Definition enter_body (transfer : GameLease) : M EnterSt unit :=
  live ← outer (on_board_only (new_live_combat_session game_factory true true));
  adopted ← outer (on_live live (adopt_current_combat game_factory));
  phase ← outer (adopt_phase adopted.2 adopted.1);
  _ ← assign_phase (Some phase) false;
  _ ← outer (on_points (DecisionPointRegistry.issue ROOT_BRANCH_ID));
  let s := (CombatPhase._session phase).1 in
  lease ← outer (session (commit_lease_transfer transfer COMBAT (handle_holder (live_handle s))));
  _ ← assign_phase (Some phase) true;
  accepted ← outer (on_live s (live_accept game_factory lease));
  outer (update (fun i => set_phase (Some (with_session (accepted.2, (CombatPhase._session phase).2) phase)) i)).
Definition enter_failed (transfer : GameLease) (prior_decision : option string) (e : pyexn) : M EnterSt unit :=
  l ← getS;
  let ref := match l.2.1 with Some p => Detached p | None => NoPhase end in
  _ ← outer (if l.2.2 : bool then _poison_combat_transaction ref
             else
               _ ← (match l.2.1 with Some p => on_detached p phase_close | None => mret tt end);
               _ ← on_points (DecisionPointRegistry.restore_current ROOT_BRANCH_ID prior_decision);
               session (rollback_lease_transfer transfer));
  raiseM e.
Definition entering {A} (c : M EnterSt A) : M St A := fun st => let '(r, l) := c (st, (None, false)) in (r, l.1).
Definition enter_combat_phase : M St unit :=
  _ ← _ensure_mutable;
  i ← self;
  if has_phase i then raiseM (RequestRejected "a combat phase is already active for this whole-run instance" None)
  else
    transfer ← session run_begin_lease_transfer;
    i ← self;
    let prior_decision := DecisionPointRegistry.current ROOT_BRANCH_ID (_decision_points i) in
    entering (tryM (enter_body transfer) (enter_failed transfer prior_decision)).

Definition drained : M St (list pyval) :=
  auto ← session (drain_trivial_reward_frontier DEFAULT_MAX_AUTO_ACTIONS); mret (map VInt (auto_action_ids auto)).
Definition set_prefix (prefix : list pyval) (i : WholeRunInstance G) : WholeRunInstance G :=
  set_position (_map_snapshot i) (_room_id i) prefix i.
Definition leave_combat_phase (completion : CombatCompletion) : M St unit :=
  _ ← _ensure_mutable;
  i ← self;
  if negb (has_phase i) then raiseM (RequestRejected "no active combat phase to leave" None)
  else
    transfer ← on_phase (with_live live_begin_lease_transfer);
    tryM
      (_ ← update (set_completion completion);
       _ ← _cancel_and_release_all_branches;
       _ ← on_phase phase_close;
       _ ← update (set_phase None);
       i ← self;
       lease ← session (commit_lease_transfer transfer RUN (handle_holder (_run i)));
       _ ← session (run_accept game_factory lease);
       auto ← drained;
       _ ← update (set_prefix auto);
       _maybe_capture_map_snapshot)
      (fun e =>
         i ← self;
         _ ← _poison_combat_transaction (if has_phase i then Active else NoPhase);
         raiseM e).

(** * Committing *)

Definition append_log (decision_point_id action_id : string) (i : WholeRunInstance G) : WholeRunInstance G :=
  set_log (_root_branch_log i ++ [log_entry (length (_root_branch_log i)) decision_point_id action_id ROOT_RNG_ID]) i.
Definition _record_root_commit (decision_point_id action_id : string) (release_branches issue_decision : bool) : M St pydict :=
  _ ← update (append_log decision_point_id action_id);
  _ ← (if release_branches then _cancel_and_release_all_branches else mret tt);
  _ ← _maybe_capture_map_snapshot;
  _ ← (if issue_decision then _ ← on_points (DecisionPointRegistry.issue ROOT_BRANCH_ID); mret tt else mret tt);
  v ← _root_view;
  fields ← root_response v;
  mret (Combat.completed fields).

Definition advanced (i : WholeRunInstance G) : bool :=
  match _combat_phase i with Some p => _root_commit_advanced p | None => false end.
(** The handler of a failed commit inside a combat; the step had [advanced] the
    game or not. *)
Definition combat_commit_failed (advanced : bool) (e : pyexn) : M St pydict :=
  i ← self;
  _ ← (if advanced && negb (_faulted i) then _poison_combat_transaction (if has_phase i then Active else NoPhase) else mret tt);
  mret (Combat.faulted_response e).
Definition commit_in_combat (chosen : pydict) (decision_point_id action_id : string) : M St pydict :=
  failed ← tryM (_ ← on_phase (commit_root_action chosen); mret None) (fun e => mret (Some e));
  i ← self;
  let moved := advanced i in
  match failed with
  | Some e => combat_commit_failed moved e
  | None =>
      tryM
        (let completion := match _combat_phase i with Some p => combat_completion (_root_state p) | None => None end in
         _ ← (match completion with Some c => leave_combat_phase c | None => mret tt end);
         _record_root_commit decision_point_id action_id (negb (is_some completion)) true)
        (combat_commit_failed moved)
  end.

(** The step of the run: whether it entered a combat. *)
Definition step_run (v : _View) (chosen : pydict) : M St bool :=
  if veq_str (boundary v) MAP_SELECT then
    room ← liftR (dindex "action_id" chosen);
    _ ← session (rs_choose_room room);
    _ ← update (fun i => set_position (_map_snapshot i) room (_action_prefix i) i);
    room_context ← session rs_get_room_context;
    if veq_str (dget_none "room_type" room_context) "CombatRoom" then
      _ ← update (set_prefix []);
      _ ← enter_combat_phase;
      mret true
    else
      auto ← drained;
      _ ← update (set_prefix auto);
      mret false
  else
    action ← liftR (dindex "action_id" chosen);
    _ ← session (rs_step action);
    _ ← update (fun i => set_prefix (_action_prefix i ++ [action]) i);
    auto ← drained;
    _ ← update (fun i => set_prefix (_action_prefix i ++ auto) i);
    mret false.
Definition commit_action (decision_point_id action_id : string) : M St pydict :=
  _ ← _ensure_mutable;
  i ← self;
  _ ← liftR (DecisionPointRegistry.validate ROOT_BRANCH_ID decision_point_id (_decision_points i));
  v ← _root_view;
  if veq_str (boundary v) RUN_TERMINAL then
    raiseM (RequestRejected "root has already reached run_terminal; no further commit_action possible" None)
  else
    chosen ← liftR (resolve_in_run action_id v);
    i ← self;
    if has_phase i then commit_in_combat chosen decision_point_id action_id
    else
      entered ← tryM (b ← step_run v chosen; mret (inl b)) (fun e => mret (inr (Combat.faulted_response e)));
      match entered with
      | inr response => mret response
      | inl entered_combat => _record_root_commit decision_point_id action_id true (negb entered_combat)
      end.

(** * Branches of an event *)

(** [(simulation_options or {}).get("stop_condition")]. *)
Definition _validate_stop_condition (simulation_options : pyval) : Res unit :=
  stop_condition ← option_or "stop_condition" VNone simulation_options;
  if is_none stop_condition || veq_str stop_condition "next_decision" then Ok tt
  else reject ("stop_condition " +:+ py_repr stop_condition +:+ " is not supported for whole_run instances").

Definition used_id (b : string) : pyexn :=
  RequestRejected ("branch_id " +:+ repr_str b +:+ " already used (branch IDs are never reusable)") None.
Definition wrong_lineage (parent : string) (own given : Z) : pyexn :=
  RequestRejected ("non-root parent_branch_id " +:+ repr_str parent +:+ " requires rng_id=" +:+ pretty own +:+
    " (its own lineage rng_id), got " +:+ pretty given) None.
Definition book_of (b : string) (i : WholeRunInstance G) : Res Book :=
  match dget b (_bookkeeping i) with Some book => Ok book | None => Raise (PyExc "KeyError" (repr_str b)) end.

Definition _validate_common_branch (item : Combat.EmulateItem) (parent_view : option _View) : M St _View :=
  let parent := Combat.it_parent_branch_id item in
  i ← self;
  if BranchIdRegistry.is_known (Combat.it_branch_id item) (_branch_ids i) then raiseM (used_id (Combat.it_branch_id item))
  else
    v ← (match parent_view with Some v => mret v | None => _view_for parent end);
    if veq_str (boundary v) RUN_TERMINAL then
      raiseM (RequestRejected ("parent_branch_id " +:+ repr_str parent +:+ " has reached run_terminal; cannot branch further") None)
    else if negb (is_some (view_map_snapshot v)) then
      raiseM (RequestRejected ("parent_branch_id " +:+ repr_str parent +:+ " has not reached a map_select boundary yet; " +:+
        "emulate_action is unavailable until the first Map Decision is reached") None)
    else
      i ← self;
      _ ← liftR (if String.eqb parent ROOT_BRANCH_ID then Ok tt
                 else b ← book_of parent i;
                      if negb (Combat.it_rng_id item =? rng_id b) then Raise (wrong_lineage parent (rng_id b) (Combat.it_rng_id item))
                      else Ok tt);
      _ ← liftR (DecisionPointRegistry.validate parent (Combat.it_decision_point_id item) (_decision_points i));
      mret v.
Definition _validate_event_branch (item : Combat.EmulateItem) (parent_view : option _View) : M St _BranchSpec :=
  v ← _validate_common_branch item parent_view;
  if negb (veq_str (boundary v) EVENT_CHOICE) then
    raiseM (RequestRejected "Active Event RNG hypothesis is not available at this boundary."
              (Some FAULT_RNG_HYPOTHESIS_UNSUPPORTED_AT_BOUNDARY))
  else
    chosen ← liftR (a ← resolve_in_run (Combat.it_action_id item) v; available (Combat.it_action_id item) a);
    action ← liftR (dindex "action_id" chosen);
    mret {| spec_parent_view := v; spec_parent_branch_id := Combat.it_parent_branch_id item;
            spec_branch_id := Combat.it_branch_id item; spec_rng_id := Combat.it_rng_id item;
            spec_decision_point_id := Combat.it_decision_point_id item; spec_action_id := Combat.it_action_id item;
            chosen_action_id := action |}.

(** The history and log a branch starts from, and its log with its own entry. *)
Definition parent_line (parent : string) (i : WholeRunInstance G) : Res (HistoryBuilder.t * list pyval) :=
  if String.eqb parent ROOT_BRANCH_ID then Ok (_root_history i, _root_branch_log i)
  else b ← book_of parent i; Ok (history b, branch_log b).
Definition extended (log : list pyval) (decision_point_id action_id : string) (rng_id : Z) : list pyval :=
  log ++ [log_entry (length log) decision_point_id action_id rng_id].

Definition missing_plan : pyexn := PyExc "AssertionError" "".
Definition _prepare_event_branch (spec : _BranchSpec) : M St (RunPool.ChoiceWorkItem * Book) :=
  let v := spec_parent_view spec in
  let parent := spec_parent_branch_id spec in
  plan ← (if String.eqb parent ROOT_BRANCH_ID then
            let key := (parent, spec_decision_point_id spec, spec_rng_id spec) in
            match event_rng_state v with
            | None => raiseM missing_plan
            | Some base =>
                override ← on_events (prepare_state key base (spec_rng_id spec));
                mret {| RunPool.hypothesis_key := key; RunPool.override_state := override;
                        RunPool.apply_before_action_index := Z.of_nat (length (view_action_prefix v)) |}
            end
          else
            i ← self;
            b ← liftR (book_of parent i);
            match event_rng_plan b with None => raiseM missing_plan | Some plan => mret plan end);
  match view_map_snapshot v with
  | None => raiseM (none_attribute "encode")
  | Some snapshot =>
      let context_id := RunPool.derive_context_id snapshot (view_room_id v) (view_action_prefix v) (view_choice_type v) None in
      let item := {| RunPool.work_id := spec_branch_id spec +:+ "-" +:+ pretty (spec_rng_id spec);
                     RunPool.context_id := context_id; RunPool.choice_type := view_choice_type v;
                     RunPool.map_snapshot := snapshot; RunPool.room_id := view_room_id v;
                     RunPool.action_prefix := view_action_prefix v; RunPool.relic_injection := None;
                     RunPool.target_boundary := boundary v; RunPool.work_kind := RunPool.WORK_KIND_SUB_BRANCH;
                     RunPool.resolve_action_id := chosen_action_id spec; RunPool.resolve_action_semantic_key := None;
                     RunPool.resolve_action_ordinal := 0; RunPool.event_rng_plan := Some plan;
                     RunPool.discover_prefix := false |} in
      item ← liftR (RunPool.work_item_check item);
      i ← self;
      line ← liftR (parent_line parent i);
      mret (item, new_book parent (extended line.2 (spec_decision_point_id spec) (spec_action_id spec) (spec_rng_id spec))
                    (HistoryBuilder.fork line.1) (spec_rng_id spec) (Some plan) None)
  end.

(** The branch becomes public: its id, its reference to the event streams, its
    book; a failure takes back what was done. *)
Definition _commit_prepared_branch (spec : _BranchSpec) (book : Book) : M St unit :=
  let b := spec_branch_id spec in
  _ ← on_ids (BranchIdRegistry.register b);
  _ ← (match event_rng_plan book with
       | Some plan =>
           tryM (on_events (commit_branch (RunPool.hypothesis_key plan) (RunPool.override_state plan) b))
             (fun e => _ ← on_ids (BranchIdRegistry.rollback_registration b); raiseM e)
       | None => mret tt
       end);
  set_book b book.
Definition _rollback_prepared_branch (spec : _BranchSpec) (book : Book) : M St unit :=
  let b := spec_branch_id spec in
  _ ← update (fun i => set_books (ddel b (_bookkeeping i)) i);
  _ ← on_points (DecisionPointRegistry.clear b);
  _ ← (match event_rng_plan book with
       | Some plan => on_events (release_branch (RunPool.hypothesis_key plan) b)
       | None => mret tt
       end);
  on_ids (BranchIdRegistry.rollback_registration b).

Definition lineage_fields (spec : _BranchSpec) : pydict :=
  [("parent_branch_id", VStr (spec_parent_branch_id spec)); ("rng_id", VInt (spec_rng_id spec))]%string.
Definition fault_of (spec : _BranchSpec) (error fault_kind : pyval) : pydict :=
  _faulted_branch_result (spec_branch_id spec) (spec_parent_branch_id spec) (spec_rng_id spec) error fault_kind.
(** The branch is marked as failed and gives up its event streams. *)
Definition fault_branch (b : string) : M St unit :=
  _ ← update_book b (with_status STATUS_FAULTED); _release_event_rng_reference b.
Definition _finalize_event_branch (spec : _BranchSpec) (result : RunPool.BranchResult) : M St pydict :=
  let b := spec_branch_id spec in
  if negb (String.eqb (RunPool.status result) "success") then
    _ ← fault_branch b;
    mret (fault_of spec (dget_none "message" (RunPool.diagnostics result)) (dget_none "fault_kind" (RunPool.diagnostics result)))
  else match RunPool.result_step result with
  | None => _ ← fault_branch b; raiseM (PyExc "RuntimeError" "successful Whole Run branch result is missing a step")
  | Some step =>
      let new_observation := RunPool.settled_observation step in
      i ← self;
      book ← liftR (book_of b i);
      let '(seen, h) := HistoryBuilder.observe_room_context (RunPool.settled_room_context step) (history book) in
      _ ← update_book b (with_history h);
      _ ← liftR seen;
      new_boundary ← liftR (dindex "boundary" new_observation);
      if veq_str new_boundary RUN_TERMINAL then
        match run_outcome new_observation ("whole-run branch " +:+ repr_str b) with
        | Raise e => _ ← fault_branch b; raiseM e
        | Ok o =>
            _ ← update_book b (ended (Some o));
            _ ← on_points (DecisionPointRegistry.issue b);
            dto ← liftR (run_terminal_dto o);
            i ← self;
            mret (Combat.completed (Combat.lineage b (spec_parent_branch_id spec) (spec_rng_id spec) ++
                  [("decision_point_id", current_point b i); ("branch_log", VList (branch_log book));
                   ("masked_emulator_dto", VDict dto)]%string))
        end
      else match _build_child_view (spec_parent_view spec) (chosen_action_id spec) (Some step) with
      | Raise e => _ ← fault_branch b; raiseM e
      | Ok v =>
          _ ← update_book b (with_view (Some (RunView v)));
          _ ← on_points (DecisionPointRegistry.issue b);
          i ← self;
          fields ← liftR (_decision_response_fields b v (branch_log book) h i);
          mret (Combat.completed (dupdate fields (lineage_fields spec)))
      end
  end.

Definition active_branch_count (i : WholeRunInstance G) : Z :=
  Z.of_nat (length (List.filter (fun kb => String.eqb (book_status kb.2) STATUS_COMPLETED && negb (terminal kb.2)) (_bookkeeping i))).

Definition dispatch (items : list RunPool.ChoiceWorkItem) : M St (option (list RunPool.BranchResult)) :=
  on_pool (RunPool.dispatch_choice_work_items items []).
Definition is_timeout (e : pyexn) : bool := String.eqb (exn_class e) "TimeoutError".
Definition or_text (text default : string) : pyval := VStr (if String.eqb text "" then default else text).

(** [emulate_action] of the base class outside a combat phase; [None] when the
    pool does not return. *)
Definition emulate_event (item : Combat.EmulateItem) (simulation_options : pyval) : M St (option pydict) :=
  _ ← _ensure_mutable;
  _ ← liftR (_validate_stop_condition simulation_options);
  spec ← _validate_event_branch item None;
  i ← self;
  if max_branches i <=? active_branch_count i then
    raiseM (RequestRejected ("active Branch count would exceed max_branches=" +:+ pretty (max_branches i)) None)
  else
    prepared ← _prepare_event_branch spec;
    _ ← _commit_prepared_branch spec prepared.2;
    result ← tryM (r ← dispatch [prepared.1];
                   match r with
                   | None => mret None
                   | Some (r :: _) => mret (Some (inl r))
                   | Some [] => raiseM (PyExc "IndexError" "list index out of range")
                   end)
      (fun e => _ ← fault_branch (spec_branch_id spec);
                if is_timeout e then mret (Some (inr (or_text (exn_str e) "Whole Run branch execution timed out")))
                else raiseM e);
    match result with
    | None => mret None
    | Some (inr error) => mret (Some (fault_of spec error (VStr FAULT_TASK_TIMEOUT)))
    | Some (inl r) => response ← _finalize_event_branch spec r; mret (Some response)
    end.

(** * Branches of the combat phase *)

Definition no_phase : pyexn :=
  RequestRejected "combat branching requires an active CombatPhase; Whole Run will not replay a room prefix" None.
Definition active_phase (i : WholeRunInstance G) : Res (CombatPhase (@LiveSt G)) :=
  match _combat_phase i with Some p => Ok p | None => Raise no_phase end.

Definition _combat_phase_view_for (b : string) (i : WholeRunInstance G) : Res _CombatPhaseView :=
  phase ← active_phase i;
  if String.eqb b ROOT_BRANCH_ID then
    decision ← root_decision phase;
    let '(legal, context, boundary) := decision in
    Ok {| phase_legal := legal; decision_context := context; phase_boundary := boundary; battle_state := _root_state phase |}
  else match dget b (_bookkeeping i) with
  | None => reject ("parent_branch_id " +:+ repr_str b +:+ " does not exist")
  | Some book =>
      if dead_status (book_status book) then
        reject ("parent_branch_id " +:+ repr_str b +:+ " is " +:+ book_status book +:+ " and cannot be extended")
      else if terminal book then
        reject ("parent_branch_id " +:+ repr_str b +:+ " ended at the combat boundary; combat_completed branches are leaves " +:+
                "because combat snapshots carry no run position")
      else match view book with
      | Some (PhaseView v) => Ok v
      | _ => reject ("parent_branch_id " +:+ repr_str b +:+ " is not owned by the active CombatPhase")
      end
  end.

(** [len(branch_ids)] counts repetitions; the set does not. *)
Definition _reserve_combat_branch_capacity (branch_ids : list string) : M St unit :=
  i ← self;
  let reserved := Z.of_nat (size (_combat_branch_reservations i)) in
  let n := Z.of_nat (length branch_ids) in
  if max_branches i <? reserved + n then
    raiseM (RequestRejected ("submitting " +:+ pretty n +:+ " Branch(es) would exceed max_branches=" +:+ pretty (max_branches i) +:+
      " (currently " +:+ pretty reserved +:+ " reserved)") None)
  else update (fun i => set_reservations (_combat_branch_reservations i ∪ list_to_set branch_ids) i).
Definition _release_combat_branch_capacity (branch_ids : list string) : M St unit :=
  update (fun i => set_reservations (_combat_branch_reservations i ∖ list_to_set branch_ids) i).

(** The view a result leaves; [None] at the end of the combat. *)
Definition _phase_view_from_result (result : BranchResult) : Res (option _CombatPhaseView) :=
  match result_signature result with
  | None => Raise (none_attribute "boundary")
  | Some signature =>
      let boundary := sig_boundary signature in
      if String.eqb boundary BOUNDARY_PENDING then
        match pending_decision_context result with
        | None => Raise (none_attribute "current_decision_result")
        | Some c =>
            let st := current_decision_result c in
            Ok (Some {| phase_legal := default [] (_cached_legal_actions st); decision_context := Some c;
                        phase_boundary := boundary; battle_state := st |})
        end
      else if String.eqb boundary BOUNDARY_STABLE then
        let root := match child_snapshot result with Some d => SnapshotRoot d | None => ObjectRoot "None" None None end in
        match next_decision_result result with
        | None => Raise (none_attribute "engine_state")
        | Some st =>
            Ok (Some {| phase_legal := default [] (next_legal_actions result);
                        decision_context := Some (from_main_stable_capture root st signature);
                        phase_boundary := boundary; battle_state := st |})
        end
      else if String.eqb boundary BOUNDARY_TERMINAL then Ok None
      else Raise (PyExc "RuntimeError" ("unexpected combat branch boundary: " +:+ repr_str boundary))
  end.

Record Admitted_ := { ad_item : Combat.EmulateItem; ad_context : DecisionContext; ad_chosen : pydict }.
Definition admit_item (item : Combat.EmulateItem) (seen : list string) : M St Admitted_ :=
  let b := Combat.it_branch_id item in
  let parent := Combat.it_parent_branch_id item in
  i ← self;
  if str_in b seen then raiseM (RequestRejected ("branch_id " +:+ repr_str b +:+ " is duplicated within this batch") None)
  else if BranchIdRegistry.is_known b (_branch_ids i) then raiseM (used_id b)
  else if str_in parent (b :: seen) then
    raiseM (RequestRejected "emulate_actions items may only use parents that existed before the batch" None)
  else
    v ← liftR (_combat_phase_view_for parent i);
    match decision_context v with
    | None =>
        phase ← liftR (active_phase i);
        raiseM (RequestRejected (default ROOT_BRANCHING_UNAVAILABLE_NO_STABLE_ANCHOR (root_branching_unavailable_reason phase)) None)
    | Some context =>
        _ ← liftR (if String.eqb parent ROOT_BRANCH_ID then Ok tt
                   else book ← book_of parent i;
                        if negb (Combat.it_rng_id item =? rng_id book) then Raise (wrong_lineage parent (rng_id book) (Combat.it_rng_id item))
                        else Ok tt);
        _ ← liftR (DecisionPointRegistry.validate parent (Combat.it_decision_point_id item) (_decision_points i));
        chosen ← liftR (a ← resolve_in_phase (Combat.it_action_id item) v; available (Combat.it_action_id item) a);
        mret {| ad_item := item; ad_context := context; ad_chosen := chosen |}
    end.
Fixpoint admit_each (items : list Combat.EmulateItem) (seen : list string) : M St (list Admitted_) :=
  match items with
  | [] => mret []
  | item :: rest =>
      a ← admit_item item seen;
      rest ← admit_each rest (Combat.it_branch_id item :: seen);
      mret (a :: rest)
  end.

Record PreparedItem := {
  pi_item : Combat.EmulateItem;
  pi_work_item : WorkItem;
  pi_parent : option string;
  pi_log : list pyval;
  pi_history : HistoryBuilder.t;
}.
(** [None] when a belief sampler does not settle. *)
Fixpoint prepare_items (admitted : list Admitted_) : M St (option (list PreparedItem)) :=
  match admitted with
  | [] => mret (Some [])
  | a :: rest =>
      let item := ad_item a in
      let parent := Combat.it_parent_branch_id item in
      i ← self;
      parent_internal ← liftR (if String.eqb parent ROOT_BRANCH_ID then Ok None else b ← book_of parent i; Ok (internal_id b));
      line ← liftR (parent_line parent i);
      w ← on_phase (build_work_item json_loads draws (ad_context a) (ad_chosen a) parent (Combat.it_decision_point_id item)
                      (Combat.it_rng_id item));
      match w with
      | None => mret None
      | Some w =>
          rest ← prepare_items rest;
          mret (rest ← rest;
                Some ({| pi_item := item; pi_work_item := w; pi_parent := parent_internal;
                         pi_log := extended line.2 (Combat.it_decision_point_id item) (Combat.it_action_id item) (Combat.it_rng_id item);
                         pi_history := HistoryBuilder.fork line.1 |} :: rest))
      end
  end.

(** The variables [internal_ids] and [registered]. *)
Definition BatchSt : Type := St * (list string * list string).
Definition inside {A} (c : M St A) : M BatchSt A := fun l => let '(r, st) := c l.1 in (r, (st, l.2)).
Definition set_internal (ids : list string) : M BatchSt unit := modS (fun l => (l.1, (ids, l.2.2))).
Definition add_registered (b : string) : M BatchSt unit := modS (fun l => (l.1, (l.2.1, l.2.2 ++ [b]))).

Definition strict_zip : pyexn := value_error "zip() arguments have different lengths".
Fixpoint book_items (prepared : list PreparedItem) (internal_ids : list string) : M BatchSt unit :=
  match prepared, internal_ids with
  | [], [] => mret tt
  | p :: prepared, internal :: internal_ids =>
      let item := pi_item p in
      let b := Combat.it_branch_id item in
      _ ← inside (on_ids (BranchIdRegistry.register b));
      _ ← add_registered b;
      _ ← inside (set_book b (new_book (Combat.it_parent_branch_id item) (pi_log p) (pi_history p) (Combat.it_rng_id item) None
                                (Some internal)));
      book_items prepared internal_ids
  | _, _ => raiseM strict_zip
  end.

Definition phase_branch_result (p : PreparedItem) (result : BranchResult) : M St pydict :=
  let item := pi_item p in
  let b := Combat.it_branch_id item in
  let parent := Combat.it_parent_branch_id item in
  let rng := Combat.it_rng_id item in
  if negb (String.eqb (status result) BRANCH_STATUS_SUCCESS) then
    _ ← update_book b (with_status STATUS_FAULTED);
    mret (_faulted_branch_result b parent rng
            (dget_or "message" (VStr "branch execution faulted") (diagnostics result))
            (dget_or "fault_kind" (VStr FAULT_EMULATOR_ERROR) (diagnostics result)))
  else
    next_view ← liftR (_phase_view_from_result result);
    _ ← on_points (DecisionPointRegistry.issue b);
    match next_view with
    | None =>
        _ ← update_book b (ended None);
        o ← liftR (require_terminal_outcome (match terminal_result result with Some t => VStr (bt_outcome t) | None => VNone end)
                     ("combat branch " +:+ repr_str b) VALID_COMBAT_TERMINAL_OUTCOMES);
        _ ← update_book b (ended (Some o));
        dto ← liftR (combat_completed_dto o);
        i ← self;
        mret (Combat.completed (Combat.lineage b parent rng ++
              [("decision_point_id", current_point b i); ("branch_log", VList (pi_log p)); ("masked_emulator_dto", VDict dto)]%string))
    | Some v =>
        _ ← update_book b (with_view (Some (PhaseView v)));
        fields ← _phase_decision_response_fields b v (pi_log p);
        mret (Combat.completed (dupdate fields [("parent_branch_id", VStr parent); ("rng_id", VInt rng)]%string))
    end.
Fixpoint finish_items (prepared : list PreparedItem) (internal_ids : list string) (results : list (string * BranchResult)) :
    M St pydict :=
  match prepared, internal_ids with
  | [], [] => mret []
  | p :: prepared, internal :: internal_ids =>
      match dget internal results with
      | None => raiseM (PyExc "RuntimeError" ("CombatPhase.poll() returned no result for Branch " +:+ internal))
      | Some result =>
          response ← phase_branch_result p result;
          rest ← finish_items prepared internal_ids results;
          mret ((Combat.it_branch_id (pi_item p), VDict response) :: rest)
      end
  | _, _ => raiseM strict_zip
  end.

Definition run_batch (admitted : list Admitted_) (simulation_options : pyval) : M BatchSt (option pydict) :=
  prepared ← inside (prepare_items admitted);
  match prepared with
  | None => mret None
  | Some prepared =>
      ids ← inside (on_phase (phase_submit_many (map (fun p => (pi_work_item p, pi_parent p)) prepared)));
      _ ← set_internal ids;
      _ ← book_items prepared ids;
      timeout ← liftR (poll_timeout simulation_options);
      results ← inside (on_phase_world (phase_poll format_exc work_item_for_ipc timeout ids));
      match results with
      | None => mret None
      | Some results =>
          branch_results ← inside (finish_items prepared ids results);
          mret (Some (Combat.completed [("branch_results", VDict branch_results)]%string))
      end
  end.
Fixpoint forget_each (registered : list string) : M St unit :=
  match registered with
  | [] => mret tt
  | b :: rest =>
      _ ← update (fun i => set_books (ddel b (_bookkeeping i)) i);
      _ ← on_points (DecisionPointRegistry.clear b);
      _ ← on_ids (BranchIdRegistry.rollback_registration b);
      forget_each rest
  end.
Definition unwind (rng_snapshot : Z) (branch_ids : list string) {A} (e : pyexn) : M BatchSt A :=
  l ← getS;
  _ ← inside (match l.2.1 with
              | [] => mret tt
              | ids => finallyM (on_phase (phase_cancel ids)) (on_phase (phase_release ids))
              end);
  _ ← inside (forget_each l.2.2);
  _ ← inside (on_phase (restore_rng_hypotheses rng_snapshot));
  _ ← inside (_release_combat_branch_capacity branch_ids);
  raiseM e.
Definition batch {A} (c : M BatchSt A) : M St A := fun st => let '(r, l) := c (st, ([], [])) in (r, l.1).

Definition too_many (n cap : Z) : pyexn :=
  RequestRejected ("emulate_actions batch size " +:+ pretty n +:+ " exceeds max batch size " +:+ pretty cap +:+
    "; chunk the frontier into multiple requests") None.
Definition _emulate_combat_phase_actions (items : list Combat.EmulateItem) (simulation_options : pyval) : M St (option pydict) :=
  _ ← _ensure_mutable;
  _ ← liftR (_validate_stop_condition simulation_options);
  i ← self;
  match items with
  | [] => raiseM (RequestRejected "emulate_actions.items must be a non-empty list" None)
  | _ =>
      if max_branches i <? Z.of_nat (length items) then raiseM (too_many (Z.of_nat (length items)) (max_branches i))
      else
        _ ← liftR (active_phase i);
        admitted ← admit_each items [];
        let branch_ids := map (fun a => Combat.it_branch_id (ad_item a)) admitted in
        _ ← _reserve_combat_branch_capacity branch_ids;
        i ← self;
        phase ← liftR (active_phase i);
        let rng_snapshot := snapshot_rng_hypotheses phase in
        batch (tryM (run_batch admitted simulation_options) (unwind rng_snapshot branch_ids))
  end.

Definition _parent_boundary (parent : string) : M St pyval :=
  if String.eqb parent ROOT_BRANCH_ID then
    obs ← session rs_get_observation;
    mret (match dget_none "boundary" obs with VStr s => VStr s | _ => VNone end)
  else
    i ← self;
    mret (match b ← dget parent (_bookkeeping i); view b with
          | Some (RunView v) => boundary v
          | Some (PhaseView v) => VStr (phase_boundary v)
          | None => VNone
          end).
Definition emulate_action (item : Combat.EmulateItem) (simulation_options : pyval) : M St (option pydict) :=
  i ← self;
  if has_phase i then
    response ← _emulate_combat_phase_actions [item] simulation_options;
    match response with
    | None => mret None
    | Some response =>
        result ← liftR (results ← dindex "branch_results" response;
                        r ← py_index (Combat.it_branch_id item) results;
                        match r with VDict d => Ok d | _ => Raise (PyExc "TypeError" "not a response") end);
        mret (Some result)
    end
  else
    boundary ← _parent_boundary (Combat.it_parent_branch_id item);
    if veq_str boundary EVENT_CHOICE then emulate_event item simulation_options else raiseM no_phase.

(** * Batches of event branches *)

Fixpoint check_batch_ids (items : list Combat.EmulateItem) (batch_branch_ids : list string) : Res (list string) :=
  match items with
  | [] => Ok batch_branch_ids
  | item :: rest =>
      let b := Combat.it_branch_id item in
      if str_in b batch_branch_ids then reject ("branch_id " +:+ repr_str b +:+ " is duplicated within this batch")
      else check_batch_ids rest (b :: batch_branch_ids)
  end.
Definition check_batch_parents (items : list Combat.EmulateItem) (batch_branch_ids : list string) : Res unit :=
  if existsb (fun item => str_in (Combat.it_parent_branch_id item) batch_branch_ids) items
  then reject "emulate_actions items may only use parents that existed before the batch" else Ok tt.

(** The view of each parent, looked at once. *)
Fixpoint parent_views (items : list Combat.EmulateItem) (views : list (string * _View)) : M St (list (string * _View)) :=
  match items with
  | [] => mret views
  | item :: rest =>
      let parent := Combat.it_parent_branch_id item in
      match dget parent views with
      | Some _ => parent_views rest views
      | None => v ← _view_for parent; parent_views rest (views ++ [(parent, v)])
      end
  end.
Definition _is_event_batch (views : list (string * _View)) : Res bool :=
  let at_event kv := veq_str (boundary (snd kv)) EVENT_CHOICE in
  if negb (existsb at_event views) then Ok false
  else if negb (forallb at_event views) then reject "emulate_actions cannot mix Active Event and non-Event parent boundaries"
  else Ok true.

Fixpoint validate_each (items : list Combat.EmulateItem) (views : list (string * _View)) : M St (list _BranchSpec) :=
  match items with
  | [] => mret []
  | item :: rest =>
      spec ← _validate_event_branch item (dget (Combat.it_parent_branch_id item) views);
      rest ← validate_each rest views;
      mret (spec :: rest)
  end.
Definition PreparedBranch : Type := _BranchSpec * (RunPool.ChoiceWorkItem * Book).
Fixpoint prepare_each (specs : list _BranchSpec) : M St (list PreparedBranch) :=
  match specs with
  | [] => mret []
  | spec :: rest => p ← _prepare_event_branch spec; rest ← prepare_each rest; mret ((spec, p) :: rest)
  end.

(** The branches that became public so far. *)
Definition CommitSt : Type := St * list PreparedBranch.
Definition committing {A} (c : M St A) : M CommitSt A := fun l => let '(r, st) := c l.1 in (r, (st, l.2)).
Fixpoint commit_each (prepared : list PreparedBranch) : M CommitSt unit :=
  match prepared with
  | [] => mret tt
  | p :: rest =>
      _ ← committing (_commit_prepared_branch p.1 p.2.2);
      _ ← modS (fun l : CommitSt => (l.1, l.2 ++ [p]));
      commit_each rest
  end.
Fixpoint rollback_each (committed : list PreparedBranch) : M St unit :=
  match committed with
  | [] => mret tt
  | p :: rest => _ ← _rollback_prepared_branch p.1 p.2.2; rollback_each rest
  end.
Definition undo_commit (generations : list (event_key * Z)) (e : pyexn) : M CommitSt unit := fun l =>
  let '(r, st) := (_ ← finallyM (rollback_each (rev l.2)) (on_events (restore_generations generations)); raiseM e) l.1 in
  (r, (st, l.2)).
Definition whole_commit (prepared : list PreparedBranch) (generations : list (event_key * Z)) : M St unit := fun st =>
  let '(r, l) := tryM (commit_each prepared) (undo_commit generations) (st, []) in (r, l.1).
Definition commit_batch (prepared : list PreparedBranch) : M St unit :=
  i ← self;
  let keys := omap (fun p : PreparedBranch => RunPool.hypothesis_key <$> event_rng_plan p.2.2) prepared in
  let generations := snapshot_generations keys (_event_rng_registry i) in
  whole_commit prepared generations.

(** * Ending branches *)

Definition statuses_response (statuses : list (string * string)) : pydict := Combat.branch_statuses statuses.
Definition _known_book (b : string) : M St Book :=
  _ ← liftR (_reject_if_root b);
  i ← self;
  match dget b (_bookkeeping i) with
  | None => raiseM (RequestRejected ("unknown branch_id " +:+ repr_str b) None)
  | Some book => mret book
  end.
Definition phase_needed {A} (c : M St A) : M St A := i ← self; if has_phase i then c else raiseM outlived.

Definition cancel_one (b : string) : M St unit :=
  book ← _known_book b;
  let over := str_in (book_status book) [STATUS_CANCELLED; STATUS_RELEASED] in
  _ ← (match internal_id book with
       | Some internal => if over then mret tt else phase_needed (on_phase (phase_cancel [internal]))
       | None => mret tt
       end);
  if over then mret tt
  else
    _ ← update_book b (fun book => with_view None (with_status STATUS_CANCELLED book));
    _release_event_rng_reference b.
Fixpoint each_branch (f : string -> M St unit) (branch_ids : list string) : M St unit :=
  match branch_ids with [] => mret tt | b :: rest => _ ← f b; each_branch f rest end.
Definition cancel_branches (branch_ids : list string) : M St pydict :=
  _ ← _ensure_mutable;
  _ ← each_branch cancel_one branch_ids;
  mret (statuses_response (Combat.all_at STATUS_CANCELLED branch_ids)).

Definition release_one (b : string) : M St unit :=
  book ← _known_book b;
  let over := String.eqb (book_status book) STATUS_RELEASED in
  _ ← (match internal_id book with
       | Some internal =>
           if over then mret tt
           else
             _ ← phase_needed (on_phase (phase_release [internal]));
             update (fun i => set_reservations (_combat_branch_reservations i ∖ {[b]}) i)
       | None => mret tt
       end);
  if over then mret tt
  else
    _ ← update_book b (fun book => with_view None (with_status STATUS_RELEASED book));
    _release_event_rng_reference b.
Definition release_branches (branch_ids : list string) : M St pydict :=
  _ ← _ensure_mutable;
  _ ← each_branch release_one branch_ids;
  mret (statuses_response (Combat.all_at STATUS_RELEASED branch_ids)).

Definition status_of (b : string) : M St string :=
  book ← _known_book b;
  match internal_id book with
  | Some internal =>
      if String.eqb (book_status book) STATUS_RELEASED then mret (book_status book)
      else
        s ← phase_needed (on_phase (branch_status internal));
        let translated := _translate_branch_status s in
        _ ← update_book b (with_status translated);
        mret translated
  | None => mret (book_status book)
  end.
Fixpoint collect_statuses (branch_ids : list string) (statuses : list (string * string)) : M St (list (string * string)) :=
  match branch_ids with
  | [] => mret statuses
  | b :: rest => s ← status_of b; collect_statuses rest (dset b s statuses)
  end.
Definition get_branch_status (branch_ids : list string) : M St pydict :=
  statuses ← collect_statuses branch_ids [];
  mret (statuses_response statuses).

(** [_best_effort_release_prepared], and the dispatch of a committed batch. *)
Definition _best_effort_release_prepared (prepared : list PreparedBranch) : M St unit :=
  match prepared with
  | [] => mret tt
  | _ => swallow (_ ← release_branches (map (fun p => spec_branch_id p.1) prepared); mret tt)
  end.
Fixpoint time_out_each (prepared : list PreparedBranch) (error : pyval) : M St pydict :=
  match prepared with
  | [] => mret []
  | p :: rest =>
      _ ← fault_branch (spec_branch_id p.1);
      rest ← time_out_each rest error;
      mret ((spec_branch_id p.1, VDict (fault_of p.1 error (VStr FAULT_TASK_TIMEOUT))) :: rest)
  end.
Fixpoint finalize_each (prepared : list PreparedBranch) (results : list RunPool.BranchResult) : M St pydict :=
  match prepared, results with
  | p :: prepared, r :: results =>
      response ← _finalize_event_branch p.1 r;
      rest ← finalize_each prepared results;
      mret ((spec_branch_id p.1, VDict response) :: rest)
  | _, _ => mret []
  end.
Definition batch_response (branch_results : pydict) : option pydict :=
  Some (Combat.completed [("branch_results", VDict branch_results)]%string).
Definition _dispatch_prepared_batch (prepared : list PreparedBranch) : M St (option pydict) :=
  answer ← tryM (r ← dispatch (map (fun p => p.2.1) prepared); mret (inl r))
    (fun e => if is_timeout e then mret (inr (or_text (exn_str e) "Whole Run branch batch timed out"))
              else _ ← _best_effort_release_prepared prepared; raiseM e);
  match answer with
  | inr error => results ← time_out_each prepared error; mret (batch_response results)
  | inl None => mret None
  | inl (Some results) =>
      if negb (Nat.eqb (length results) (length prepared)) then
        _ ← _best_effort_release_prepared prepared;
        raiseM (PyExc "RuntimeError" "WholeRunWorkerPool returned an incomplete batch")
      else
        branch_results ← tryM (finalize_each prepared results) (fun e => _ ← _best_effort_release_prepared prepared; raiseM e);
        mret (batch_response branch_results)
  end.

Definition emulate_event_batch (items : list Combat.EmulateItem) : M St (option pydict) :=
  views ← parent_views items [];
  event_batch ← liftR (_is_event_batch views);
  if negb event_batch then raiseM no_phase
  else
    specs ← validate_each items views;
    i ← self;
    let active_count := active_branch_count i in
    let n := Z.of_nat (length specs) in
    if max_branches i <? active_count + n then
      raiseM (RequestRejected ("submitting " +:+ pretty n +:+ " Branch(es) would exceed max_branches=" +:+ pretty (max_branches i) +:+
        " (currently " +:+ pretty active_count +:+ " active)") None)
    else
      prepared ← prepare_each specs;
      _ ← commit_batch prepared;
      _dispatch_prepared_batch prepared.
Definition emulate_actions (items : list Combat.EmulateItem) (simulation_options : pyval) : M St (option pydict) :=
  _ ← liftR (_validate_stop_condition simulation_options);
  i ← self;
  match items with
  | [] => raiseM (RequestRejected "emulate_actions.items must be a non-empty list" None)
  | _ =>
      if max_branches i <? Z.of_nat (length items) then raiseM (too_many (Z.of_nat (length items)) (max_branches i))
      else
        ids ← liftR (check_batch_ids items []);
        _ ← liftR (check_batch_parents items ids);
        if has_phase i then _emulate_combat_phase_actions items simulation_options
        else emulate_event_batch items
  end.

(** * Start and end *)

Definition close : M St unit :=
  i ← self;
  if _closed i then mret tt
  else
    _ ← update mark_run_closed;
    finallyM
      (if has_phase i then
         finallyM _cancel_and_release_all_branches (_ ← on_phase phase_close; update (set_phase None))
       else mret tt)
      (finallyM (on_events release_all) (finallyM (on_pool (modS RunPool.close)) (session close_session))).

Definition fresh_instance (iid : string) (god_mode : bool) (run : RunHandle) (pool : RunPool.Pool) (cap workers : Z) :
    WholeRunInstance G :=
  {| instance_id := iid; _god_mode := god_mode; _run := run; _pool := pool; _branch_ids := BranchIdRegistry.init;
     _decision_points := DecisionPointRegistry.init; _event_rng_registry := empty_registry; max_branches := cap;
     _combat_worker_count := workers; _map_snapshot := None; _room_id := VNone; _action_prefix := []; _root_branch_log := [];
     _root_history := HistoryBuilder.init; _bookkeeping := []; _combat_phase := None; _combat_branch_reservations := ∅;
     _last_combat_completion := None; _faulted := false; _closed := false |}.
(** [WholeRunInstance(...)]: [enable_god_mode] is the engine's, [make_pool]
    starts the worker processes. *)
Definition on_board {A} (c : M (Board G) A) : M (Board G * W) A := fun h => let '(r, b) := c h.1 in (r, (b, h.2)).
Definition on_world {A} (c : M W A) : M (Board G * W) A := fun h => let '(r, w) := c h.2 in (r, (h.1, w)).
Definition with_run {A} (run : RunHandle) (c : M (@Held G) A) : M (Board G * W) (A * RunHandle) := fun h =>
  let '(r, (run, b)) := c (run, h.1) in (a ← r; Ok (a, run), (b, h.2)).
Definition with_instance (i : WholeRunInstance G) (c : M St unit) : M (Board G * W) (WholeRunInstance G) := fun h =>
  let '(r, (i, h)) := c (i, h) in (_ ← r; Ok i, h).
Definition first_boundary : M St unit :=
  auto ← drained;
  _ ← update (fun i => set_prefix (_action_prefix i ++ auto) i);
  _ ← _maybe_capture_map_snapshot;
  _ ← on_points (DecisionPointRegistry.issue ROOT_BRANCH_ID);
  mret tt.
Definition new_whole_run (enable_god_mode : M G unit) (make_pool : M W RunPool.Pool) (iid : string) (instance_config : pydict)
    (cap workers : Z) : M (Board G * W) (WholeRunInstance G) :=
  god_mode ← liftR (match dget_or "god_mode" (VBool false) instance_config with
                    | VBool b => Ok b
                    | _ => Raise (RequestRejected "instance_config.god_mode must be of type bool" None)
                    end);
  run ← on_board (new_run_session game_factory);
  run ← (if god_mode : bool then r ← with_run run (mutating game_factory enable_god_mode); mret r.2 else mret run);
  run ← with_run run (rs_start_run (dget_or "seed" (VInt 1) instance_config)
                       (dget_or "character_id" (VStr "IRONCLAD") instance_config)
                       (dget_or "ascension" (VInt 0) instance_config));
  pool ← on_world make_pool;
  with_instance (fresh_instance iid god_mode run.2 pool cap workers) first_boundary.
End Instance.
