(* ===== verification/WholeRunLaws.v ===== *)
(** What holds of a whole-run instance: its branches never outgrow the cap it
    announces, a batch of event branches becomes public as a whole or not at all,
    a hand-over of the game between run and combat that fails leaves the run on
    its side or poisons it, and a cancelled combat branch that the client does
    not release makes every later commit of the run fail. *)

From S2P Require Export WholeRun LiveLaws.

(** * Commands and the fields they leave alone *)

Section Frame.
Context {G : Type}.
Implicit Types i : WholeRunInstance G.

(** A relation that does not look at the fields the bookkeeping of branches and
    the combat phase do not depend on. *)
Class Indifferent (R : relation (WholeRunInstance G)) : Prop := {
  indifferent_pre :: PreOrder R;
  indifferent_run x i : R i (set_run x i);
  indifferent_pool x i : R i (set_pool x i);
  indifferent_ids x i : R i (set_ids x i);
  indifferent_points x i : R i (set_points x i);
  indifferent_events x i : R i (set_events x i);
  indifferent_log x i : R i (set_log x i);
  indifferent_history x i : R i (set_history x i);
  indifferent_position s r p i : R i (set_position s r p i);
  indifferent_completion c i : R i (set_completion c i);
}.
End Frame.
Ltac indifferent := first
  [ apply indifferent_run | apply indifferent_pool | apply indifferent_ids | apply indifferent_points
  | apply indifferent_events | apply indifferent_log | apply indifferent_history | apply indifferent_position
  | apply indifferent_completion ].

Section Respect.
Context {G : Type} (R : relation (WholeRunInstance G)).

(** What a command does to the instance inside its state is in the relation. *)
Definition respects {S A} (inst : S -> WholeRunInstance G) (c : M S A) : Prop := forall s, R (inst s) (inst (c s).2).

Section Plain.
Context {HR : PreOrder R} {S : Type} (inst : S -> WholeRunInstance G).
Notation respects := (respects inst).
Lemma respects_ret {A} (a : A) : respects (mret a). Proof. intros s. reflexivity. Qed.
Lemma respects_lift {A} (r : Res A) : respects (liftR r). Proof. intros s. reflexivity. Qed.
Lemma respects_raise {A} e : respects (raiseM (A := A) e). Proof. intros s. reflexivity. Qed.
Lemma respects_get : respects getS. Proof. intros s. reflexivity. Qed.
Lemma respects_mod f : (forall s, R (inst s) (inst (f s))) -> respects (modS f). Proof. intros H s. apply H. Qed.
Lemma respects_bind {A B} (c : M S A) (k : A -> M S B) : respects c -> (forall a, respects (k a)) -> respects (c ≫= k).
Proof.
  intros Hc Hk s. unfold mbind, M_bind. specialize (Hc s). destruct (c s) as [[x|e] s1]; cbn in *; [|done].
  etransitivity; [exact Hc|apply Hk].
Qed.
Lemma respects_try {A} (c : M S A) h : respects c -> (forall e, respects (h e)) -> respects (tryM c h).
Proof.
  intros Hc Hh s. unfold tryM. specialize (Hc s). destruct (c s) as [[x|e] s1]; cbn in *; [done|].
  etransitivity; [exact Hc|apply Hh].
Qed.
Lemma respects_finally {A} (c : M S A) f : respects c -> respects f -> respects (finallyM c f).
Proof.
  intros Hc Hf s. unfold finallyM. specialize (Hc s). destruct (c s) as [r s1]. cbn in *.
  specialize (Hf s1). destruct (f s1) as [[u|e] s2]; etransitivity; eauto.
Qed.
End Plain.

Section Methods.
Context {W : Type} {HP : PreOrder R}.
Notation at_instance := (fst : @St G W -> WholeRunInstance G).
Lemma respects_self : respects at_instance self. Proof. intros st. reflexivity. Qed.
Lemma respects_update f : (forall i, R i (f i)) -> respects at_instance (update f). Proof. intros H st. apply H. Qed.
Lemma respects_board {A} (c : M (Board G) A) : respects at_instance (on_board_only c).
Proof. intros st. unfold on_board_only. destruct (c st.2.1). reflexivity. Qed.
Lemma respects_live {A} s (c : M LiveSt A) : respects at_instance (on_live s c).
Proof. intros st. unfold on_live. destruct (c (s, st.2.1)) as [r [s' b]]. reflexivity. Qed.
Lemma respects_phase_world {A} (c : M (CombatPhase LiveSt * W) A) :
  (forall x i, R i (set_phase x i)) -> respects at_instance (on_phase_world c).
Proof.
  intros H st. unfold on_phase_world. destruct (_combat_phase st.1); [|reflexivity].
  destruct (run_phase _ _ _) as [r [p h]]. apply H.
Qed.
Lemma respects_phase {A} (c : M (CombatPhase LiveSt) A) : (forall x i, R i (set_phase x i)) -> respects at_instance (on_phase c).
Proof. apply respects_phase_world. Qed.
Lemma respects_detached {A} p (c : M (CombatPhase LiveSt) A) : respects at_instance (on_detached p c).
Proof. intros st. unfold on_detached. destruct (run_phase _ _ _) as [r [p' h]]. reflexivity. Qed.

Context {HR : Indifferent R}.
Lemma respects_session {A} (c : M Held A) : respects at_instance (session c).
Proof. intros st. unfold session. destruct (c (_run st.1, st.2.1)) as [r [h b]]. apply indifferent_run. Qed.
Lemma respects_pool {A} (c : M RunPool.Pool A) : respects at_instance (on_pool c).
Proof. intros st. unfold on_pool. destruct (c (_pool st.1)). apply indifferent_pool. Qed.
Lemma respects_ids {A} (c : M BranchIdRegistry.t A) : respects at_instance (on_ids c).
Proof. intros st. unfold on_ids. destruct (c (_branch_ids st.1)). apply indifferent_ids. Qed.
Lemma respects_points {A} (c : M DecisionPointRegistry.t A) : respects at_instance (on_points c).
Proof. intros st. unfold on_points. destruct (c (_decision_points st.1)). apply indifferent_points. Qed.
Lemma respects_events {A} (c : M EventRngHypothesisRegistry A) : respects at_instance (on_events c).
Proof. intros st. unfold on_events. destruct (c (_event_rng_registry st.1)). apply indifferent_events. Qed.
Lemma respects_root_history {A} (c : M HistoryBuilder.t A) : respects at_instance (on_root_history c).
Proof. intros st. unfold on_root_history. destruct (c (_root_history st.1)). apply indifferent_history. Qed.
End Methods.

(** The local variables of a method, beside its state. *)
Lemma respects_outer {S X A} (inst : S -> WholeRunInstance G) (c : M S A) :
  respects inst c -> respects (fun l : S * X => inst l.1) (fun l => let '(r, s) := c l.1 in (r, (s, l.2))).
Proof. intros H [s x]. specialize (H s). cbn. destruct (c s). exact H. Qed.
End Respect.
#[export] Hint Resolve respects_ret respects_lift respects_raise respects_get respects_self respects_board respects_live
  respects_phase_world respects_phase respects_detached
  respects_session respects_pool respects_ids respects_points respects_events respects_root_history : frame.

(** Command by command. *)
Ltac frame_step := match goal with
  | |- respects _ _ (mbind _ _) => apply respects_bind; [exact _| |intros ?]
  | |- respects _ _ (tryM _ _) => apply respects_try; [exact _| |intros ?]
  | |- respects _ _ (finallyM _ _) => apply respects_finally; [exact _| |]
  | |- respects _ _ (update _) => apply respects_update; intros ?; solve [indifferent | auto with frame]
  end.
Ltac frame := repeat first [ progress cbv beta zeta | solve [auto with frame] | frame_step | case_match ].
#[export] Hint Extern 0 (PreOrder _) => exact _ : frame.
#[export] Hint Extern 0 (Indifferent _) => exact _ : frame.

(** * Branch counts *)

(** A branch of an event that takes a place: its worker may be asked to go on. *)
Definition takes_place (book : Book) : bool :=
  String.eqb (book_status book) STATUS_COMPLETED && negb (terminal book) && negb (is_some (internal_id book)).
Definition event_branches {G} (i : WholeRunInstance G) : nat := length (List.filter (fun kb => takes_place kb.2) (_bookkeeping i)).

(** No new branch, no new reservation. *)
Definition calm {G} (i i' : WholeRunInstance G) : Prop :=
  max_branches i' = max_branches i /\ _combat_branch_reservations i' ⊆ _combat_branch_reservations i /\
  (event_branches i' <= event_branches i)%nat.
#[export] Instance calm_indifferent {G} : Indifferent (calm (G := G)).
Proof.
  split; [split|..]; unfold calm, event_branches.
  1: intros i; split_and!; [done|done|lia].
  1: intros a b c (? & ? & ?) (? & ? & ?); split_and!; [congruence|set_solver|lia].
  all: intros; split_and!; cbn; [done|done|lia].
Qed.
#[export] Instance calm_pre {G} : PreOrder (calm (G := G)) := indifferent_pre.
Lemma calm_phase {G} x (i : WholeRunInstance G) : calm i (set_phase x i).
Proof. intros; split_and!; cbn; [done|done|unfold event_branches; cbn; lia]. Qed.
Lemma calm_fault {G} (i : WholeRunInstance G) : calm i (mark_run_faulted i).
Proof. intros; split_and!; cbn; [done|done|unfold event_branches; cbn; lia]. Qed.
Lemma calm_closed {G} (i : WholeRunInstance G) : calm i (mark_run_closed i).
Proof. intros; split_and!; cbn; [done|done|unfold event_branches; cbn; lia]. Qed.
Lemma calm_reservations {G} x (i : WholeRunInstance G) :
  x ⊆ _combat_branch_reservations i -> calm i (set_reservations x i).
Proof. intros; split_and!; cbn; [done|done|unfold event_branches; cbn; lia]. Qed.
#[export] Hint Resolve calm_phase calm_fault calm_closed : frame.

(** What books may become: none gets a place it did not have. *)
Definition tamer (book book' : Book) : Prop := takes_place book' = true -> takes_place book = true.
Definition places (books : list (string * Book)) : nat := length (List.filter (fun kb => takes_place kb.2) books).
Lemma places_dset b book books :
  (places (dset b book books) <= places books + (if takes_place book then 1 else 0))%nat.
Proof.
  unfold places. induction books as [|[k v] books IH]; cbn; [destruct (takes_place book); cbn; lia|].
  destruct (String.eqb b k); cbn; [destruct (takes_place book), (takes_place v); cbn; lia|].
  destruct (takes_place v); cbn; lia.
Qed.
Lemma places_same b book book' books : dget b books = Some book -> tamer book book' -> (places (dset b book' books) <= places books)%nat.
Proof.
  unfold places, tamer. induction books as [|[k v] books IH]; cbn; [done|]. destruct (String.eqb b k); cbn.
  - intros [= ->] H. destruct (takes_place book'); cbn; [rewrite H by done; cbn; lia|destruct (takes_place book); cbn; lia].
  - intros Hb Ht. specialize (IH Hb Ht). destruct (takes_place v); cbn; lia.
Qed.
Lemma places_ddel b books : (places (ddel b books) <= places books)%nat.
Proof.
  unfold places, ddel. induction books as [|[k v] books IH]; cbn; [done|].
  destruct (negb _); cbn; destruct (takes_place v); cbn in *; lia.
Qed.
Lemma calm_books {G} books (i : WholeRunInstance G) : (places books <= places (_bookkeeping i))%nat -> calm i (set_books books i).
Proof. intros H. split_and!; cbn; [done|done|exact H]. Qed.

(** Commands that touch no field of branches or phase. *)
Section Reads.
Context {G W : Type} (game_factory : Res G) {HR : RunSession G} {HO : RunPool.SetOrder}.
Context (R : relation (WholeRunInstance G)) {HP : PreOrder R} {HI : Indifferent R}.
Notation respects c := (respects R (fst : @St G W -> WholeRunInstance G) c).

Lemma respects_capture : respects (_maybe_capture_map_snapshot game_factory).
Proof. unfold _maybe_capture_map_snapshot. frame. Qed.
Lemma respects_drained : respects (drained game_factory).
Proof. unfold drained. frame. Qed.
Lemma respects_root_view : respects (_root_view game_factory).
Proof. unfold _root_view. frame. Qed.
#[local] Hint Resolve respects_root_view : frame.
Lemma respects_root_response v : respects (root_response v).
Proof. unfold root_response. frame. Qed.
#[local] Hint Resolve respects_root_response : frame.
Lemma respects_view_for b : respects (_view_for game_factory b).
Proof. unfold _view_for. frame. Qed.
#[local] Hint Resolve respects_view_for : frame.
Lemma respects_parent_views items views : respects (parent_views game_factory items views).
Proof. revert views. induction items; intros; cbn; frame. Qed.
Lemma respects_validate_common item v : respects (_validate_common_branch game_factory item v).
Proof. unfold _validate_common_branch. frame. Qed.
#[local] Hint Resolve respects_validate_common : frame.
Lemma respects_validate_event item v : respects (_validate_event_branch game_factory item v).
Proof. unfold _validate_event_branch. frame. Qed.
#[local] Hint Resolve respects_validate_event : frame.
Lemma respects_validate_each items views : respects (validate_each game_factory items views).
Proof. revert views. induction items; intros; cbn; frame. Qed.
Lemma respects_prepare spec : respects (_prepare_event_branch spec).
Proof. unfold _prepare_event_branch. frame. Qed.
#[local] Hint Resolve respects_prepare : frame.
Lemma respects_prepare_each specs : respects (prepare_each specs).
Proof. induction specs; cbn; frame. Qed.
Lemma respects_clear_each ids : respects (clear_each ids).
Proof. induction ids; cbn; frame. Qed.
Lemma respects_start : respects (start_instance_response game_factory).
Proof. unfold start_instance_response, base_start_instance_response. frame. Qed.
Lemma respects_dispatch items : respects (dispatch items).
Proof. unfold dispatch. frame. Qed.
Lemma respects_boundary_of parent : respects (_parent_boundary game_factory parent).
Proof. unfold _parent_boundary. frame. Qed.
Lemma respects_admit_item item seen : respects (admit_item item seen).
Proof. unfold admit_item. frame. Qed.
#[local] Hint Resolve respects_admit_item : frame.
Lemma respects_admit_each items seen : respects (admit_each items seen).
Proof. revert seen. induction items; intros; cbn; frame. Qed.
Lemma respects_known b : respects (_known_book b).
Proof. unfold _known_book. frame. Qed.
Lemma respects_mutable : respects _ensure_mutable.
Proof. unfold _ensure_mutable. frame. Qed.
End Reads.
#[export] Hint Resolve respects_capture respects_drained respects_root_view respects_root_response respects_view_for
  respects_parent_views respects_validate_event respects_validate_each respects_prepare respects_prepare_each
  respects_clear_each respects_start respects_dispatch respects_boundary_of respects_admit_each respects_known
  respects_mutable : frame.

Lemma tamer_status s book : s <> STATUS_COMPLETED -> tamer book (with_status s book).
Proof. unfold tamer, takes_place. cbn. intros H. destruct (String.eqb_spec s STATUS_COMPLETED); [done|discriminate]. Qed.
Lemma tamer_view v book : tamer book (with_view v book). Proof. exact id. Qed.
Lemma tamer_history h book : tamer book (with_history h book). Proof. exact id. Qed.
Lemma tamer_plan p book : tamer book (with_plan p book). Proof. exact id. Qed.
Lemma tamer_ended o book : tamer book (ended o book).
Proof. unfold tamer, takes_place. cbn. by rewrite andb_false_r. Qed.
Lemma tamer_dead s book : s <> STATUS_COMPLETED -> tamer book (with_view None (with_status s book)).
Proof. apply (tamer_status s book). Qed.
#[export] Hint Resolve tamer_view tamer_history tamer_plan tamer_ended : frame.
#[export] Hint Extern 1 (tamer _ (with_status _ _)) => apply tamer_status; discriminate : frame.
#[export] Hint Extern 1 (tamer _ (with_view None (with_status _ _))) => apply tamer_dead; discriminate : frame.
Lemma retire_gone kb : takes_place (retire kb).2 = false.
Proof.
  destruct kb as [k v]. unfold retire, takes_place. cbn [fst snd].
  destruct (str_in (book_status v) [STATUS_CANCELLED; STATUS_RELEASED]) eqn:E; [|done]. cbn.
  destruct (String.eqb_spec (book_status v) STATUS_COMPLETED) as [Es|]; [|done]. by rewrite Es in E.
Qed.
Lemma places_retire books : places (map retire books) = 0%nat.
Proof.
  unfold places. induction books as [|kb books IH]; [done|]. cbn [map List.filter]. by rewrite retire_gone.
Qed.

(** Of the hand-over between run and combat: the phase comes and goes, all
    branches are retired, the run may be marked as failed. *)
Definition retire_all {G} (i : WholeRunInstance G) : WholeRunInstance G :=
  set_reservations (_combat_branch_reservations i ∖ list_to_set (dkeys (_bookkeeping i))) (set_books (map retire (_bookkeeping i)) i).
Class Retirable {G} (R : relation (WholeRunInstance G)) : Prop := {
  retirable_indifferent :: Indifferent R;
  retirable_phase x i : R i (set_phase x i);
  retirable_retire i : R i (retire_all i);
}.
Class Transferable {G} (R : relation (WholeRunInstance G)) : Prop := {
  transferable_retirable :: Retirable R;
  transferable_fault i : R i (mark_run_faulted i);
}.
#[export] Hint Extern 0 (Retirable _) => exact _ : frame.
#[export] Hint Extern 0 (Transferable _) => exact _ : frame.
Ltac retires R :=
  match goal with
  | |- R _ (set_phase _ _) => apply retirable_phase
  | |- R _ (mark_run_faulted _) => apply transferable_fault
  | |- R _ (set_reservations _ (set_books _ _)) => apply retirable_retire
  end.
Section Retire.
Context {G W : Type} (R : relation (WholeRunInstance G)) {HP : PreOrder R} {HT : Retirable R}.
#[local] Hint Extern 0 (R _ _) => retires R : frame.
Lemma retires_all : respects (S := @St G W) R fst _cancel_and_release_all_branches.
Proof. unfold _cancel_and_release_all_branches. frame. Qed.
End Retire.
#[export] Hint Resolve retires_all : frame.
Section Transfer.
Context (json_loads : string -> Res pyval).
Context {CE : ClrErrors} {G W : Type} (game_factory : Res G) {HC : ClrGame G} {HR : RunSession G} {PH : PhaseHost W}.
Context (R : relation (WholeRunInstance G)) {HP : PreOrder R} {HT : Transferable R}.
Notation respects_instance c := (respects (S := @St G W) R fst c).
#[local] Hint Extern 0 (R _ _) => retires R : frame.

Lemma transfers_poison ref : respects_instance (_poison_combat_transaction json_loads game_factory ref).
Proof. unfold _poison_combat_transaction, swallow. frame. Qed.
#[local] Hint Resolve transfers_poison : frame.
Lemma transfers_adopt live root : respects_instance (adopt_phase json_loads game_factory live root).
Proof.
  unfold adopt_phase. frame. intros [i h]. unfold adopt_here. cbn. destruct (adopt _ _ _ _ _ _ _ _) as [r w]. reflexivity.
Qed.
#[local] Hint Resolve transfers_adopt : frame.

Notation entering_respects c := (respects R (fun l : @EnterSt G W => l.1.1) c).
Lemma transfers_outer {A} (c : M St A) : respects_instance c -> entering_respects (outer c).
Proof. exact (respects_outer R fst c). Qed.
#[local] Hint Extern 1 (respects _ _ (outer _)) => apply transfers_outer; frame : frame.
Lemma transfers_assign p committed : entering_respects (assign_phase p committed).
Proof. by apply respects_mod. Qed.
#[local] Hint Resolve transfers_assign : frame.
Lemma transfers_enter_body t : entering_respects (enter_body json_loads game_factory t).
Proof. unfold enter_body. frame. Qed.
#[local] Hint Resolve transfers_enter_body : frame.
Lemma transfers_enter_failed t d e : entering_respects (enter_failed json_loads game_factory t d e).
Proof. unfold enter_failed. frame; apply transfers_outer; frame. Qed.
#[local] Hint Resolve transfers_enter_failed : frame.
Lemma transfers_entering {A} (c : M EnterSt A) : entering_respects c -> respects_instance (entering c).
Proof. intros H st. unfold entering. specialize (H (st, (None, false))). destruct (c _). exact H. Qed.
Lemma transfers_enter : respects_instance (enter_combat_phase json_loads game_factory).
Proof. unfold enter_combat_phase. frame. apply transfers_entering. frame. Qed.
#[local] Hint Resolve transfers_enter : frame.
Lemma transfers_leave completion : respects_instance (leave_combat_phase json_loads game_factory completion).
Proof. unfold leave_combat_phase, with_live. frame. Qed.
#[local] Hint Resolve transfers_leave : frame.
Lemma transfers_record dp a release issue : respects_instance (_record_root_commit game_factory dp a release issue).
Proof. unfold _record_root_commit, append_log. frame. Qed.
#[local] Hint Resolve transfers_record : frame.
Lemma transfers_commit_failed moved e : respects_instance (combat_commit_failed json_loads game_factory moved e).
Proof. unfold combat_commit_failed. frame. Qed.
#[local] Hint Resolve transfers_commit_failed : frame.
Lemma transfers_commit_in_combat chosen dp a : respects_instance (commit_in_combat json_loads game_factory chosen dp a).
Proof. unfold commit_in_combat. frame. Qed.
#[local] Hint Resolve transfers_commit_in_combat : frame.
Lemma transfers_step_run v chosen : respects_instance (step_run json_loads game_factory v chosen).
Proof. unfold step_run, set_prefix. frame. Qed.
#[local] Hint Resolve transfers_step_run : frame.
Lemma transfers_commit_action dp a : respects_instance (commit_action json_loads game_factory dp a).
Proof. unfold commit_action. frame. Qed.
End Transfer.
#[export] Hint Resolve transfers_poison transfers_adopt transfers_enter transfers_leave
  transfers_record transfers_commit_failed transfers_commit_in_combat transfers_step_run transfers_commit_action : frame.

Lemma calm_retire {G} (i : WholeRunInstance G) : calm i (retire_all i).
Proof.
  transitivity (set_books (map retire (_bookkeeping i)) i).
  - apply calm_books. rewrite places_retire. lia.
  - apply calm_reservations. cbn. set_solver.
Qed.
#[export] Instance calm_transferable {G} : Transferable (calm (G := G)).
Proof. split; [split; [exact _|apply calm_phase|apply calm_retire]|apply calm_fault]. Qed.

Section Calm.
Context (json_loads : string -> Res pyval) (format_exc : pyexn -> string) (work_item_for_ipc : WorkItem -> WorkItem) (draws : nat).
Context {CE : ClrErrors} {G W : Type} (game_factory : Res G) {HC : ClrGame G} {HR : RunSession G}.
Context {PH : PhaseHost W} {HO : RunPool.SetOrder}.
Notation calms c := (respects (S := @St G W) calm fst c).
Notation calms_inside c := (respects calm (fun l : @BatchSt G W => l.1.1) c).

Lemma calm_update_book b f : (forall book, tamer book (f book)) -> calms (update_book b f).
Proof.
  intros H. apply respects_update. intros i. destruct (dget b (_bookkeeping i)) as [book|] eqn:Hb; [|reflexivity].
  apply calm_books. by apply (places_same _ book).
Qed.
Lemma calm_delete b : calms (update (fun i => set_books (ddel b (_bookkeeping i)) i)).
Proof. apply respects_update. intros i. apply calm_books, places_ddel. Qed.
Lemma calm_unreserve f :
  (forall i : WholeRunInstance G, f i ⊆ _combat_branch_reservations i) -> calms (update (fun i => set_reservations (f i) i)).
Proof. intros H. apply respects_update. intros i. by apply calm_reservations. Qed.
#[local] Hint Extern 0 (respects _ _ (update_book _ _)) => apply calm_update_book; intros ?; auto with frame : frame.
#[local] Hint Extern 0 (respects _ _ (update (fun i => set_reservations _ i))) => apply calm_unreserve; intros ?; set_solver : frame.
#[local] Hint Resolve calm_delete : frame.

Lemma calm_release_event b book : calms (release_event_reference b book).
Proof. unfold release_event_reference. frame. Qed.
#[local] Hint Resolve calm_release_event : frame.
Lemma calm_release_reference b : calms (_release_event_rng_reference b).
Proof. unfold _release_event_rng_reference. frame. Qed.
#[local] Hint Resolve calm_release_reference : frame.
Lemma calm_fault_branch b : calms (fault_branch b).
Proof. unfold fault_branch. frame. Qed.
#[local] Hint Resolve calm_fault_branch : frame.
Lemma calm_phase_response b v log : calms (_phase_decision_response_fields game_factory b v log).
Proof. unfold _phase_decision_response_fields. frame. Qed.
#[local] Hint Resolve calm_phase_response : frame.
Lemma calm_get_decision b : calms (get_decision game_factory b).
Proof. unfold get_decision. frame. Qed.

(** Ending branches. *)
Lemma calm_cancel_one b : calms (cancel_one b).
Proof. unfold cancel_one, phase_needed. frame. Qed.
Lemma calm_each f ids : (forall b, calms (f b)) -> calms (each_branch f ids).
Proof. intros H. induction ids; cbn; frame. Qed.
Lemma calm_release_one b : calms (release_one b).
Proof. unfold release_one, phase_needed. frame. Qed.
#[local] Hint Resolve calm_cancel_one calm_release_one calm_each : frame.
Lemma calm_cancel_branches ids : calms (cancel_branches ids).
Proof. unfold cancel_branches. frame. Qed.
Lemma calm_release_branches ids : calms (release_branches ids).
Proof. unfold release_branches. frame. Qed.
#[local] Hint Resolve calm_release_branches : frame.
Lemma calm_best_effort prepared : calms (_best_effort_release_prepared prepared).
Proof. unfold _best_effort_release_prepared, swallow. frame. Qed.
#[local] Hint Resolve calm_best_effort : frame.
(** The status of a combat branch is the phase's: it takes no place of an event
    branch. *)
Lemma calm_combat_update b s (i : WholeRunInstance G) book internal :
  dget b (_bookkeeping i) = Some book -> internal_id book = Some internal ->
  calm i (set_books (dset b (with_status s book) (_bookkeeping i)) i).
Proof.
  intros Hb Hi. apply calm_books, (places_same _ book); [done|]. unfold tamer, takes_place. cbn. rewrite Hi. cbn.
  by rewrite !andb_false_r.
Qed.
Lemma phase_books {A} (c : M (CombatPhase LiveSt) A) (st : @St G W) : _bookkeeping (on_phase c st).2.1 = _bookkeeping st.1.
Proof.
  unfold on_phase, on_phase_world. destruct (_combat_phase st.1); [|done]. by destruct (run_phase _ _ _) as [r [p h]].
Qed.
Lemma calm_status_of b : calms (status_of b).
Proof.
  intros st. unfold status_of. unfold mbind at 1, M_bind at 1.
  pose proof (respects_known (W := W) calm b st) as H0. unfold _known_book in *.
  destruct (_reject_if_root b) as [[]|] eqn:Hr; [|exact H0]. clear H0.
  unfold mbind, M_bind, liftR, self. cbn.
  destruct (dget b (_bookkeeping st.1)) as [book|] eqn:Hb; [|reflexivity]. cbn.
  destruct (internal_id book) as [internal|] eqn:Hi; [|reflexivity].
  destruct (String.eqb _ _); [reflexivity|]. unfold phase_needed, self, mbind, M_bind. cbn.
  destruct (has_phase st.1); [|reflexivity].
  pose proof (phase_books (branch_status internal) st) as Hk.
  pose proof (respects_phase calm (branch_status internal) (fun x i => calm_phase x i) st) as Hc.
  destruct (on_phase _ st) as [[s|e] st1]; [|exact Hc]. cbn in *. etransitivity; [exact Hc|].
  rewrite <- Hk in Hb. rewrite Hb. by eapply calm_combat_update.
Qed.
#[local] Hint Resolve calm_status_of : frame.
Lemma calm_collect ids statuses : calms (collect_statuses ids statuses).
Proof. revert statuses. induction ids; intros; cbn; frame. Qed.
#[local] Hint Resolve calm_collect : frame.
Lemma calm_statuses ids : calms (get_branch_status ids).
Proof. unfold get_branch_status. frame. Qed.
Lemma calm_close : calms (close json_loads game_factory).
Proof. unfold close. frame. Qed.

(** Settling the branches of a batch. *)
Lemma calm_finalize spec r : calms (_finalize_event_branch spec r).
Proof. unfold _finalize_event_branch. frame. Qed.
#[local] Hint Resolve calm_finalize : frame.
Lemma calm_finalize_each prepared results : calms (finalize_each prepared results).
Proof. revert results. induction prepared; intros [|]; cbn; frame. Qed.
Lemma calm_time_out_each prepared error : calms (time_out_each prepared error).
Proof. induction prepared; cbn; frame. Qed.
#[local] Hint Resolve calm_finalize_each calm_time_out_each : frame.
Lemma calm_dispatch_batch prepared : calms (_dispatch_prepared_batch prepared).
Proof. unfold _dispatch_prepared_batch. frame. Qed.

(** Branches of a combat take reservations, not places. *)
Lemma calm_inside {A} (c : M St A) : calms c -> calms_inside (inside c).
Proof. exact (respects_outer calm fst c). Qed.
#[local] Hint Extern 1 (respects _ _ (inside _)) => apply calm_inside; frame : frame.
Lemma calm_set_internal ids : calms_inside (set_internal ids). Proof. by apply respects_mod. Qed.
Lemma calm_add_registered b : calms_inside (add_registered b). Proof. by apply respects_mod. Qed.
#[local] Hint Resolve calm_set_internal calm_add_registered : frame.
Lemma calm_combat_book b parent log h rng plan internal :
  calms (set_book b (new_book parent log h rng plan (Some internal))).
Proof.
  apply respects_update. intros i. apply calm_books. etransitivity; [apply places_dset|].
  unfold takes_place. cbn. lia.
Qed.
#[local] Hint Resolve calm_combat_book : frame.
Lemma calm_book_items prepared ids : calms_inside (book_items prepared ids).
Proof. revert ids. induction prepared; intros [|]; cbn; frame. Qed.
#[local] Hint Resolve calm_book_items : frame.
Lemma calm_prepare_items admitted : calms (prepare_items json_loads draws admitted).
Proof. induction admitted; cbn; frame. Qed.
#[local] Hint Resolve calm_prepare_items : frame.
Lemma calm_phase_result p r : calms (phase_branch_result game_factory p r).
Proof. unfold phase_branch_result. frame. Qed.
#[local] Hint Resolve calm_phase_result : frame.
Lemma calm_finish_items prepared ids results : calms (finish_items game_factory prepared ids results).
Proof. revert ids. induction prepared; intros [|]; cbn; frame. Qed.
#[local] Hint Resolve calm_finish_items : frame.
Lemma calm_run_batch admitted options :
  calms_inside (run_batch json_loads format_exc work_item_for_ipc draws game_factory admitted options).
Proof. unfold run_batch. frame. Qed.
Lemma calm_forget_each ids : calms (forget_each ids).
Proof. induction ids; cbn; frame. Qed.
#[local] Hint Resolve calm_run_batch calm_forget_each : frame.
Lemma calm_release_capacity ids : calms (_release_combat_branch_capacity ids).
Proof. unfold _release_combat_branch_capacity. frame. Qed.
#[local] Hint Resolve calm_release_capacity : frame.
Lemma calm_unwind snapshot ids e : calms_inside (unwind snapshot ids (A := option pydict) e).
Proof. unfold unwind. frame. Qed.
#[local] Hint Resolve calm_unwind : frame.
Lemma calm_batch {A} (c : M BatchSt A) : calms_inside c -> calms (batch c).
Proof. intros H st. unfold batch. specialize (H (st, ([], []))). destruct (c _). exact H. Qed.

(** * The cap *)

(** At most [k] more places. *)
Definition grown (k : nat) (i i' : WholeRunInstance G) : Prop :=
  max_branches i' = max_branches i /\ _combat_branch_reservations i' ⊆ _combat_branch_reservations i /\
  (event_branches i' <= event_branches i + k)%nat.
Definition grows {S A} (inst : S -> WholeRunInstance G) (k : nat) (c : M S A) : Prop := forall s, grown k (inst s) (inst (c s).2).
Lemma grown_calm k i i' : calm i i' -> grown k i i'.
Proof. intros (? & ? & ?). split_and!; [done|done|lia]. Qed.
Lemma growth_trans k m i i1 i2 : grown k i i1 -> grown m i1 i2 -> grown (k + m) i i2.
Proof. intros (? & ? & ?) (? & ? & ?). split_and!; [congruence|set_solver|lia]. Qed.
Lemma grows_calm {S A} inst k (c : M S A) : respects calm inst c -> grows inst k c.
Proof. intros H s. apply grown_calm, H. Qed.
Lemma grows_bind {S A B} inst k m (c : M S A) (f : A -> M S B) :
  grows inst k c -> (forall a, grows inst m (f a)) -> grows inst (k + m) (c ≫= f).
Proof.
  intros Hc Hf s. unfold mbind, M_bind. specialize (Hc s). destruct (c s) as [[x|e] s1]; cbn in *.
  - eapply growth_trans; [exact Hc|apply Hf].
  - destruct Hc as (? & ? & ?). split_and!; [done|done|lia].
Qed.
Lemma grows_calm_bind {S A B} inst k (c : M S A) (f : A -> M S B) :
  respects calm inst c -> (forall a, grows inst k (f a)) -> grows inst k (c ≫= f).
Proof. intros Hc. apply (grows_bind inst 0 k), grows_calm, Hc. Qed.
Lemma grows_try {S A} inst k (c : M S A) h : grows inst k c -> (forall e, respects calm inst (h e)) -> grows inst k (tryM c h).
Proof.
  intros Hc Hh s. unfold tryM. specialize (Hc s). destruct (c s) as [[x|e] s1]; cbn in *; [done|].
  rewrite <- (Nat.add_0_r k). eapply growth_trans; [exact Hc|]. apply grown_calm, Hh.
Qed.

Lemma grows_commit spec book : grows (S := @St G W) fst 1 (_commit_prepared_branch spec book).
Proof.
  apply grows_calm_bind; [frame|intros _]. apply grows_calm_bind; [frame|intros _]. intros st. split_and!; cbn; [done|done|].
  unfold event_branches. cbn. pose proof (places_dset (spec_branch_id spec) book (_bookkeeping st.1)) as H. unfold places in H.
  destruct (takes_place book); lia.
Qed.
Lemma grows_commit_each prepared : grows (fun l : @CommitSt G W => l.1.1) (length prepared) (commit_each prepared).
Proof.
  induction prepared as [|p prepared IH]; [apply grows_calm, respects_ret; exact _|]. cbn [commit_each length].
  apply (grows_bind _ 1).
  - intros [st l]. pose proof (grows_commit p.1 p.2.2 st) as H. unfold committing. cbn.
    destruct (_commit_prepared_branch p.1 p.2.2 st). exact H.
  - intros _. apply grows_calm_bind; [by apply respects_mod|]. intros _. exact IH.
Qed.
Lemma calm_rollback_each committed : calms (rollback_each committed).
Proof. induction committed; cbn; [frame|]. unfold _rollback_prepared_branch. frame. Qed.
Lemma calm_undo generations e : respects calm (fun l : @CommitSt G W => l.1.1) (undo_commit generations e).
Proof.
  intros [st l]. unfold undo_commit. cbn. set (c := mbind _ _).
  assert (H : calms c) by (subst c; pose proof calm_rollback_each; frame). specialize (H st). destruct (c st). exact H.
Qed.
Lemma grows_commit_batch prepared : grows (S := @St G W) fst (length prepared) (commit_batch prepared).
Proof.
  apply grows_calm_bind; [frame|]. intros i st. unfold whole_commit.
  pose proof (grows_try _ _ _ _ (grows_commit_each prepared) (calm_undo (snapshot_generations
    (omap (fun p : PreparedBranch => RunPool.hypothesis_key <$> event_rng_plan p.2.2) prepared) (_event_rng_registry i))) (st, [])) as H.
  destruct (tryM _ _ _). exact H.
Qed.

(** Within the cap the instance was given. *)
Definition within_cap (n : Z) (i : WholeRunInstance G) : Prop :=
  max_branches i = n /\ Z.of_nat (size (_combat_branch_reservations i)) <= n /\ Z.of_nat (event_branches i) <= n.
Definition capped {A} (c : M (@St G W) A) : Prop := forall n st, within_cap n st.1 -> within_cap n (c st).2.1.
Lemma grown_within n k i i' :
  within_cap n i -> grown k i i' -> Z.of_nat (event_branches i + k) <= n -> within_cap n i'.
Proof.
  intros (E & Hr & He) (E' & Hr' & He') Hk. apply subseteq_size in Hr'. split_and!; [congruence|lia|lia].
Qed.
Lemma calm_within n i i' : within_cap n i -> calm i i' -> within_cap n i'.
Proof. intros H Hc. apply (grown_within n 0 i); [done|by apply grown_calm|]. destruct H as (_ & _ & H). lia. Qed.
Lemma calm_capped {A} (c : M (@St G W) A) : calms c -> capped c.
Proof. intros Hc n st H. eapply calm_within; [exact H|apply Hc]. Qed.
Lemma capped_bind {A B} (c : M (@St G W) A) (k : A -> M St B) : capped c -> (forall a, capped (k a)) -> capped (c ≫= k).
Proof.
  intros Hc Hk n st H. unfold mbind, M_bind. specialize (Hc n st H). destruct (c st) as [[x|e] st1]; cbn in *; [|done].
  by apply Hk.
Qed.
Lemma capped_self {B} (k : WholeRunInstance G -> M (@St G W) B) :
  (forall n st, within_cap n st.1 -> within_cap n (k st.1 st).2.1) -> capped (self ≫= k).
Proof. intros H n st. apply H. Qed.
(** A guarded growth: what is new fits what is free. *)
Lemma guarded_growth {A} k (c : M (@St G W) A) :
  grows (S := @St G W) fst k c -> forall n st, within_cap n st.1 -> Z.of_nat (event_branches st.1 + k) <= n -> within_cap n (c st).2.1.
Proof. intros Hg n st H Hk. eapply grown_within; [exact H|apply Hg|exact Hk]. Qed.
Lemma events_active (i : WholeRunInstance G) : Z.of_nat (event_branches i) <= active_branch_count i.
Proof.
  unfold event_branches, active_branch_count. induction (_bookkeeping i) as [|[k v] books IH]; cbn; [lia|].
  unfold takes_place in *. destruct (String.eqb _ _), (terminal v); cbn; try lia. destruct (internal_id v); cbn in *; lia.
Qed.

Lemma grows_then {A B} k (c : M (@St G W) A) (f : A -> M St B) :
  grows (S := @St G W) fst k c -> (forall a, calms (f a)) -> grows (S := @St G W) fst k (c ≫= f).
Proof. intros Hc Hf. rewrite <- (Nat.add_0_r k). apply grows_bind; [exact Hc|]. intros a. by apply grows_calm. Qed.
Lemma prepare_each_length specs (st st' : @St G W) prepared : prepare_each specs st = (Ok prepared, st') -> length prepared = length specs.
Proof.
  revert st st' prepared. induction specs as [|spec specs IH]; intros st st' prepared; cbn; [by intros [= <- _]|].
  intros H. apply M_bind_Ok in H as (p & st1 & _ & H). apply M_bind_Ok in H as (rest & st2 & Hr & H).
  cbn in H. injection H as <- _. cbn. f_equal. by eapply IH.
Qed.

Lemma capped_emulate_event item options : capped (emulate_event game_factory item options).
Proof.
  unfold emulate_event. do 3 (apply capped_bind; [apply calm_capped; frame|intros ?]). apply capped_self. intros n st H.
  destruct (Z.leb_spec (max_branches st.1) (active_branch_count st.1)); [exact H|].
  apply (guarded_growth 1); [|exact H|].
  - apply grows_calm_bind; [frame|]. intros prepared. apply grows_then; [apply grows_commit|]. intros _. frame.
  - pose proof (events_active st.1). destruct H as (E & _ & _). lia.
Qed.
Lemma capped_event_batch items : capped (emulate_event_batch game_factory items).
Proof.
  unfold emulate_event_batch. repeat (apply capped_bind; [apply calm_capped; frame|intros ?]).
  destruct (negb _); [apply calm_capped; frame|]. apply capped_bind; [apply calm_capped; frame|]. intros specs.
  apply capped_self. intros n st H. cbv zeta.
  destruct (Z.ltb_spec (max_branches st.1) (active_branch_count st.1 + Z.of_nat (length specs))); [exact H|].
  unfold mbind at 1, M_bind at 1. pose proof (respects_prepare_each (W := W) calm specs st) as Hp.
  destruct (prepare_each specs st) as [[prepared|e] st1] eqn:E; [|by eapply calm_within].
  apply (guarded_growth (length prepared)).
  - apply grows_then; [apply grows_commit_batch|]. intros _. apply calm_dispatch_batch.
  - by eapply calm_within.
  - apply prepare_each_length in E. pose proof (events_active st.1). destruct H as (Em & _ & _), Hp as (_ & _ & Hp). cbn in *. lia.
Qed.

Lemma size_union_list ids (X : gset string) : (size (X ∪ list_to_set ids) <= size X + length ids)%nat.
Proof.
  induction ids as [|b ids IH]; cbn; [rewrite (right_id_L ∅ (∪)); lia|].
  assert (X ∪ ({[b]} ∪ list_to_set ids) ⊆ {[b]} ∪ (X ∪ list_to_set ids)) as H%subseteq_size by set_solver.
  rewrite (size_union_alt {[b]} (X ∪ list_to_set ids)), size_singleton in H.
  assert (size ((X ∪ list_to_set ids) ∖ {[b]}) <= size (X ∪ list_to_set ids))%nat by (apply subseteq_size; set_solver). lia.
Qed.
Lemma capped_reserve ids : capped (_reserve_combat_branch_capacity ids).
Proof.
  unfold _reserve_combat_branch_capacity. apply capped_self. intros n st (E & Hr & He). cbv zeta.
  destruct (Z.ltb_spec (max_branches st.1) (Z.of_nat (size (_combat_branch_reservations st.1)) + Z.of_nat (length ids)));
    [by split_and!|]. split_and!; cbn; [done| |exact He].
  pose proof (size_union_list ids (_combat_branch_reservations st.1)). lia.
Qed.
Lemma capped_combat_batch items options :
  capped (_emulate_combat_phase_actions json_loads format_exc work_item_for_ipc draws game_factory items options).
Proof.
  unfold _emulate_combat_phase_actions. repeat (apply capped_bind; [apply calm_capped; frame|intros ?]).
  destruct items as [|item items]; [apply calm_capped; frame|]. destruct (_ <? _); [apply calm_capped; frame|].
  repeat (apply capped_bind; [first [apply capped_reserve|apply calm_capped; frame]|intros ?]). apply calm_capped, calm_batch. frame.
Qed.
Lemma capped_emulate_action item options :
  capped (emulate_action json_loads format_exc work_item_for_ipc draws game_factory item options).
Proof.
  unfold emulate_action. apply capped_bind; [apply calm_capped; frame|]. intros i. destruct (has_phase i).
  - apply capped_bind; [apply capped_combat_batch|]. intros [r|]; apply calm_capped; frame.
  - apply capped_bind; [apply calm_capped; frame|]. intros b.
    destruct (veq_str _ _); [apply capped_emulate_event|apply calm_capped; frame].
Qed.
Lemma capped_emulate_actions items options :
  capped (emulate_actions json_loads format_exc work_item_for_ipc draws game_factory items options).
Proof.
  unfold emulate_actions. repeat (apply capped_bind; [apply calm_capped; frame|intros ?]).
  destruct items as [|item items]; [apply calm_capped; frame|]. destruct (_ <? _); [apply calm_capped; frame|].
  repeat (apply capped_bind; [apply calm_capped; frame|intros ?]).
  destruct (has_phase _); [apply capped_combat_batch|apply capped_event_batch].
Qed.

(** The requests the server passes on to an instance. *)
Inductive Call :=
  | StartInstance | GetDecision (b : string) | CommitAction (decision_point_id action_id : string)
  | EmulateAction (item : Combat.EmulateItem) (simulation_options : pyval)
  | EmulateActions (items : list Combat.EmulateItem) (simulation_options : pyval)
  | CancelBranches (branch_ids : list string) | ReleaseBranches (branch_ids : list string)
  | GetBranchStatus (branch_ids : list string) | Close.
Definition unanswered {A} (c : M (@St G W) A) : M (@St G W) unit := _ ← c; mret tt.
Definition call (c : Call) : M (@St G W) unit :=
  match c with
  | StartInstance => unanswered (start_instance_response game_factory)
  | GetDecision b => unanswered (get_decision game_factory b)
  | CommitAction dp a => unanswered (commit_action json_loads game_factory dp a)
  | EmulateAction item options => unanswered (emulate_action json_loads format_exc work_item_for_ipc draws game_factory item options)
  | EmulateActions items options =>
      unanswered (emulate_actions json_loads format_exc work_item_for_ipc draws game_factory items options)
  | CancelBranches ids => unanswered (cancel_branches ids)
  | ReleaseBranches ids => unanswered (release_branches ids)
  | GetBranchStatus ids => unanswered (get_branch_status ids)
  | Close => close json_loads game_factory
  end.
(** The state after a sequence of requests, whatever they were answered. *)
Definition served (calls : list Call) (st : @St G W) : @St G W := foldl (fun st c => (call c st).2) st calls.

Lemma capped_unanswered {A} (c : M (@St G W) A) : capped c -> capped (unanswered c).
Proof. intros H. apply capped_bind; [exact H|]. intros _. apply calm_capped. frame. Qed.
Lemma capped_call c : capped (call c).
Proof.
  destruct c; cbn [call]; try apply capped_unanswered.
  - apply calm_capped. frame.
  - apply calm_capped, calm_get_decision.
  - apply calm_capped; frame.
  - apply capped_emulate_action.
  - apply capped_emulate_actions.
  - apply calm_capped, calm_cancel_branches.
  - apply calm_capped, calm_release_branches.
  - apply calm_capped, calm_statuses.
  - apply calm_capped, calm_close.
Qed.
Lemma served_within n calls st : within_cap n st.1 -> within_cap n (served calls st).1.
Proof. revert st. induction calls as [|c calls IH]; intros st H; [done|]. apply IH, capped_call, H. Qed.
Lemma new_run_fresh enable_god_mode make_pool iid config cap workers h i h' :
  new_whole_run (W := W) game_factory enable_god_mode make_pool iid config cap workers h = (Ok i, h') ->
  exists god run pool, calm (fresh_instance iid god run pool cap workers) i.
Proof.
  unfold new_whole_run. intros H.
  apply M_bind_Ok in H as (god & h1 & _ & H). apply M_bind_Ok in H as (run1 & h2 & _ & H).
  apply M_bind_Ok in H as (run2 & h3 & _ & H). apply M_bind_Ok in H as (run3 & h4 & _ & H).
  apply M_bind_Ok in H as (pool & h5 & _ & H). exists god, run3.2, pool.
  assert (Hc : calms (first_boundary game_factory)) by (unfold first_boundary, set_prefix; frame).
  specialize (Hc (fresh_instance iid god run3.2 pool cap workers, h5)). unfold with_instance in H.
  destruct (first_boundary game_factory _) as [r [i' h'']]. destruct r; [|discriminate]. cbn in *. congruence.
Qed.

(** C5: from its start and through every sequence of requests, whatever they are
    answered, a whole-run instance keeps the cap it announces to its client: never
    more than [max_branches] combat branches hold a reservation, and never more
    than [max_branches] event branches can still be gone on from. *)
Theorem branches_never_exceed_cap enable_god_mode make_pool iid config cap workers h i h' calls :
  0 <= cap ->
  new_whole_run (W := W) game_factory enable_god_mode make_pool iid config cap workers h = (Ok i, h') ->
  within_cap cap (served calls (i, h')).1.
Proof.
  intros Hcap H. apply served_within. apply new_run_fresh in H as (god & run & pool & Hc).
  eapply calm_within; [|exact Hc]. unfold within_cap, event_branches. cbn. rewrite size_empty. split_and!; [done|lia|lia].
Qed.
End Calm.

(** * A run *)

Module Town.

(** Before the map choice the game is at 0; room 1 holds an event, room 2 a
    fight. *)
Definition boundary_at (n : Z) : string := if Z.eqb n 0 then MAP_SELECT else if Z.eqb n 2 then STABLE else EVENT_CHOICE.
Definition observation_at (n : Z) : pydict := [("boundary", VStr (boundary_at n)); ("state", VDict [])]%string.
Definition option_5 : pydict := [("action_id", VInt 5); ("action_type", VStr "choice_event_option"); ("is_available", VBool true);
  ("parameters", VDict [])]%string.
Definition room_at (n : Z) : pydict := [("room_type", VStr (if Z.eqb n 2 then "CombatRoom" else "EventRoom"))]%string.
Definition room (id : Z) : pydict :=
  [("room_id", VInt id); ("point_type", VStr "Unknown"); ("column", VInt id); ("row", VInt 1)]%string.
#[export] Instance TownRun : RunSession Z := {|
  rs_start_run _ _ _ := mret tt;
  rs_load_state _ := mret tt;
  rs_save_state := mret "map"%string;
  rs_choose_room r := fun n => match r with VInt z => (Ok (room_at z), z) | _ => (Raise (value_error "room"), n) end;
  rs_step _ := fun n => (Ok (observation_at (n + 1)), n + 1);
  rs_get_observation := fun n => (Ok (observation_at n), n);
  rs_get_legal_actions := mret [option_5];
  rs_get_map_rooms := mret [room 1; room 2];
  rs_get_room_context := fun n => (Ok (room_at n), n);
  rs_get_run_state := mret [];
  rs_get_event_rng_state := mret [];
  rs_set_event_rng_state _ := mret tt;
|}.
(** The host: no environment, no worker ever answers. *)
#[export] Instance TownHost : PhaseHost unit := {|
  phase_environ _ _ := None;
  phase_start_workers _ := mret tt;
  phase_queue_events _ _ _ := fun w => (([], fun _ => f_of_Z 0, f_of_Z 100), w);
|}.
#[export] Instance TownOrder : RunPool.SetOrder := InOrder.
#[export] Instance TownGame : ClrGame Z := DemoGame.
#[export] Instance TownErrors : ClrErrors := DemoErrors.
Definition loads (s : string) : Res pyval := Ok (VDict lone_pile_dict).

Definition no_workers : RunPool.Pool :=
  {| RunPool.workers := []; RunPool.next_bootstrap_index := 0; RunPool.next_request_id := 0; RunPool.closed := false;
     RunPool.sent := []; RunPool.arrivals := []; RunPool.registry := [] |}.
Definition start (cap : Z) : Res (WholeRunInstance Z) * (Board Z * unit) :=
  new_whole_run (Ok 0) (mret tt) (mret no_workers) "i-1" [] cap 2 ({| board_access := GameAccess.init; next_object := 1%positive |}, tt).
Definition idle : WholeRunInstance Z :=
  fresh_instance "" false {| handle_holder := 1%positive; handle_lease := None |} no_workers 0 0.

(** A run that has entered a fight, tried a branch there whose worker does not
    answer, and cancelled it. *)
Definition point (n : string) : string := "d-root-00000" +:+ n.
Definition branch_item : Combat.EmulateItem :=
  {| Combat.it_parent_branch_id := ROOT_BRANCH_ID; Combat.it_branch_id := "b-1"; Combat.it_rng_id := 1;
     Combat.it_decision_point_id := point "2"; Combat.it_action_id := "1" |}.
Definition to_fight : list Call := [CommitAction (point "1") "2"].
Definition cancelling : list Call := [EmulateAction branch_item (VDict []); CancelBranches ["b-1"%string]].
Definition town_served (calls : list Call) (st : @St Z unit) : @St Z unit := served loads exn_str id 3 (Ok 0) calls st.

Definition begun_two : @St Z unit := Eval vm_compute in (from_ok (start 2).1 idle, (start 2).2).
Definition in_fight : @St Z unit := Eval vm_compute in town_served to_fight begun_two.
End Town.

Lemma branches_never_exceed_cap_witness :
  within_cap 2 (Town.town_served (Town.to_fight ++ Town.cancelling ++ [Close]) Town.begun_two).1 /\
  has_phase (Town.town_served Town.to_fight Town.begun_two).1 = true.
Proof.
  split; [|vm_compute; reflexivity]. destruct Town.begun_two as [i h] eqn:E.
  apply (branches_never_exceed_cap _ _ _ _ _ (mret tt) (mret Town.no_workers) "i-1" [] 2 2
    ({| board_access := GameAccess.init; next_object := 1%positive |}, tt) i h); [lia|].
  change i with (i, h).1. change h with (i, h).2 at 2. rewrite <- E. vm_compute. reflexivity.
Defined.
