(* ===== verification/WholeRunBatch.v ===== *)
(** A batch of event branches of a whole run becomes public as a whole or not at
    all (API/instance_whole_run.py, API/instance_whole_run_beam.py). *)

From S2P Require Export WholeRunLaws.

Section Batch.
Context {G W : Type}.
Implicit Types (i : WholeRunInstance G) (h : Board G * W) (p : PreparedBranch).

Definition prepared_id p : string := spec_branch_id p.1.
(** The reference to the event streams that a branch takes. *)
Definition commit_item_of p : option commit_item :=
  (fun plan => (RunPool.hypothesis_key plan, RunPool.override_state plan, prepared_id p)) <$> event_rng_plan p.2.2.

(** The instance once these branches are public, over this event registry. *)
Definition published (l : list PreparedBranch) (E : EventRngHypothesisRegistry) i : WholeRunInstance G :=
  set_events E (set_books (foldl (fun books p => dset (prepared_id p) p.2.2 books) (_bookkeeping i) l)
    (set_ids (_branch_ids i ∪ list_to_set (map prepared_id l)) i)).

(** Where a branch id is used, it is known. *)
Record linked i : Prop := {
  linked_root : ROOT_BRANCH_ID ∈ _branch_ids i;
  linked_books : forall b, b ∈ dkeys (_bookkeeping i) -> b ∈ _branch_ids i;
  linked_points : forall b, is_Some (DecisionPointRegistry._current (_decision_points i) !! b) -> b ∈ _branch_ids i;
  linked_events : forall key b, holds_branch (_event_rng_registry i) key b -> b ∈ _branch_ids i;
}.

Lemma commit_branch_raises key state b r e r' : commit_branch key state b r = (Raise e, r') -> r' = r.
Proof.
  unfold commit_branch, _ensure_entry. intros [H|(x & r1 & _ & H)]%M_bind_Raise; [|discriminate H].
  apply M_bind_Raise in H as [H|(r0 & r1 & H0 & H)]; [discriminate H|]. injection H0 as <- <-.
  destruct (_entries r !! key) as [x|]; [|discriminate H]. destruct (py_eqb _ _); [discriminate H|]. by injection H as _ <-.
Qed.

Definition commit_option (o : option commit_item) : list commit_item := match o with Some x => [x] | None => [] end.
Lemma commit_one l E i h p r st' :
  ROOT_BRANCH_ID ∈ _branch_ids i ->
  _commit_prepared_branch p.1 p.2.2 (published l E i, h) = (r, st') ->
  match r with
  | Ok _ => prepared_id p ∉ _branch_ids i ∪ list_to_set (map prepared_id l) /\
      exists E', commit_all (commit_option (commit_item_of p)) E = (Ok tt, E') /\ st' = (published (l ++ [p]) E' i, h)
  | Raise _ => st' = (published l E i, h)
  end.
Proof.
  intros Hroot. set (ids := _branch_ids i ∪ list_to_set (map prepared_id l)).
  destruct (decide (prepared_id p ∈ ids)) as [Hk|Hk].
  { unfold _commit_prepared_branch, on_ids, BranchIdRegistry.register. unfold mbind at 1, M_bind at 1. cbn [fst snd].
    rewrite bool_decide_eq_true_2 by exact Hk. cbn. intros [= <- <-]. by destruct i. }
  assert (Hne : String.eqb (prepared_id p) ROOT_BRANCH_ID = false).
  { apply String.eqb_neq. intros E0. apply Hk. rewrite E0. unfold ids. set_solver. }
  assert (Hreg : on_ids (W := W) (BranchIdRegistry.register (prepared_id p)) (published l E i, h) =
      (Ok tt, (set_ids (ids ∪ {[prepared_id p]}) (published l E i), h))).
  { unfold on_ids, BranchIdRegistry.register. cbn [fst snd]. by rewrite bool_decide_eq_false_2 by exact Hk. }
  assert (Hset : forall E', set_book (W := W) (prepared_id p) p.2.2
      (set_events E' (set_ids (ids ∪ {[prepared_id p]}) (published l E i)), h) = (Ok tt, (published (l ++ [p]) E' i, h))).
  { intros E'. unfold set_book, update, modS, published, ids. cbn. rewrite foldl_app, map_app, list_to_set_app_L. cbn.
    by rewrite (right_id_L ∅ (∪)), (assoc_L (∪)). }
  unfold _commit_prepared_branch. change (spec_branch_id p.1) with (prepared_id p). erewrite M_run_Ok by exact Hreg.
  unfold commit_item_of. destruct (event_rng_plan p.2.2) as [plan|]; cbn [fmap option_fmap option_map commit_option commit_all].
  - destruct (commit_branch (RunPool.hypothesis_key plan) (RunPool.override_state plan) (prepared_id p) E) as [[[]|e] E'] eqn:Ec.
    + erewrite M_run_Ok by (unfold tryM, on_events; cbn [fst snd _event_rng_registry published set_events set_books set_ids];
        rewrite Ec; reflexivity).
      intros H. pose proof (Hset E') as Hp. cbn in H, Hp. rewrite Hp in H. injection H as <- <-. split; [done|].
      exists E'. split; [by erewrite M_run_Ok by exact Ec|done].
    + pose proof (commit_branch_raises _ _ _ _ _ _ Ec) as ->.
      unfold mbind, M_bind, tryM, on_events. cbn [fst snd _event_rng_registry published set_events set_books set_ids].
      rewrite Ec. unfold on_ids, BranchIdRegistry.rollback_registration. rewrite Hne. cbn. intros [= <- <-].
      replace (_ ∖ _) with ids by (apply set_eq; set_solver). by destruct i.
  - intros H. pose proof (eq_trans (eq_sym H) (Hset E)) as [= -> ->]. split; [done|]. by exists E.
Qed.

Lemma commit_all_app l1 l2 E E1 : commit_all l1 E = (Ok tt, E1) -> commit_all (l1 ++ l2) E = commit_all l2 E1.
Proof.
  revert E. induction l1 as [|[[key state] b] l1 IH]; intros E; cbn [commit_all app]; [by intros [= ->]|].
  intros (u & E0 & Hc & Hrest)%M_bind_Ok. erewrite M_run_Ok by exact Hc. by apply IH.
Qed.
Definition new_ids (known : gset string) (l : list PreparedBranch) : Prop :=
  NoDup (map prepared_id l) /\ forall p, p ∈ l -> prepared_id p ∉ known.
(** Where a commit of several branches stands, whether it went through or not. *)
Lemma commit_each_published rest : forall l E i h r st',
  ROOT_BRANCH_ID ∈ _branch_ids i -> commit_all (omap commit_item_of l) (_event_rng_registry i) = (Ok tt, E) ->
  new_ids (_branch_ids i) l ->
  commit_each rest ((published l E i, h), l) = (r, st') ->
  exists more E', commit_all (omap commit_item_of (l ++ more)) (_event_rng_registry i) = (Ok tt, E') /\
    new_ids (_branch_ids i) (l ++ more) /\ st' = ((published (l ++ more) E' i, h), l ++ more) /\
    match r with Ok _ => more = rest | Raise _ => more `prefix_of` rest end.
Proof.
  induction rest as [|p rest IH]; intros l E i h r st' Hroot Hall Hnew; cbn [commit_each].
  { intros [= <- <-]. exists [], E. by rewrite app_nil_r. }
  unfold mbind at 1, M_bind at 1. unfold committing. cbn [fst snd].
  destruct (_commit_prepared_branch p.1 p.2.2 (published l E i, h)) as [r1 st1] eqn:Hone.
  pose proof (commit_one l E i h p r1 st1 Hroot Hone) as Hcase. destruct r1 as [u|e].
  - destruct Hcase as (Hid & E1 & Hc & ->). erewrite M_run_Ok by reflexivity. cbn [fst snd].
    intros H. apply IH in H as (more & E' & Hall' & Hnew' & -> & Hr); [|done| |].
    + exists (p :: more), E'. rewrite cons_middle, app_assoc. split_and!; [done|done|done|].
      destruct r; [by rewrite Hr|]. by apply prefix_cons.
    + rewrite omap_app. erewrite commit_all_app by exact Hall. cbn. by destruct (commit_item_of p).
    + destruct Hnew as [Hnd Hf]. split.
      * rewrite map_app. apply NoDup_app. split_and!; [done| |apply NoDup_singleton].
        intros x Hx ->%list_elem_of_singleton. set_solver.
      * intros q [Hq| ->%list_elem_of_singleton]%elem_of_app; [by apply Hf|set_solver].
  - subst st1. intros [= <- <-]. exists [], E. rewrite app_nil_r. split_and!; [done..|]. apply prefix_nil.
Qed.

Lemma books_keys l (books : list (string * Book)) :
  dkeys (foldl (fun books p => dset (prepared_id p) p.2.2 books) books l) ⊆ dkeys books ++ map prepared_id l.
Proof.
  revert books. induction l as [|p l IH]; intros books; cbn; [set_solver|]. etransitivity; [apply IH|].
  intros x [Hx|Hx]%elem_of_app; [|set_solver].
  destruct (decide (x = prepared_id p)) as [->|Hne]; [set_solver|].
  apply elem_of_app. left. destruct (decide (x ∈ dkeys books)) as [|Hn]; [done|]. exfalso.
  apply dget_None_keys in Hn. rewrite <- (dget_dset_ne _ _ p.2.2) in Hn by exact Hne. by apply dget_None_keys in Hn.
Qed.
Lemma republished l l' E E' i books points ids :
  books = foldl (fun books p => dset (prepared_id p) p.2.2 books) (_bookkeeping i) l -> points = _decision_points i ->
  ids = _branch_ids i ∪ list_to_set (map prepared_id l) ->
  set_ids ids (set_events E' (set_points points (set_books books (published l' E i)))) = published l E' i.
Proof. intros -> -> ->. by destruct i. Qed.
Lemma rollback_one l E E' i h p :
  linked i -> new_ids (_branch_ids i) (l ++ [p]) ->
  release_each (commit_option (commit_item_of p)) E = (Ok tt, E') ->
  _rollback_prepared_branch p.1 p.2.2 (published (l ++ [p]) E i, h) = (Ok tt, (published l E' i, h)).
Proof.
  intros [Hroot Hb Hp _] [Hnd Hf] Hrel. set (b := prepared_id p).
  assert (Hb1 : b ∉ _branch_ids i) by (apply Hf; set_solver).
  assert (Hb2 : b ∉ map prepared_id l).
  { rewrite map_app in Hnd. apply NoDup_app in Hnd as (_ & Hd & _). intros Hin. apply (Hd b Hin). subst b. cbn. set_solver. }
  assert (Hbooks : ddel b (foldl (fun books p => dset (prepared_id p) p.2.2 books) (_bookkeeping i) (l ++ [p])) =
    foldl (fun books p => dset (prepared_id p) p.2.2 books) (_bookkeeping i) l).
  { rewrite foldl_app. cbn [foldl]. fold b. rewrite ddel_dset. apply ddel_fresh. intros Hin%books_keys.
    apply elem_of_app in Hin as [Hin|Hin]; [by apply Hb1, Hb|done]. }
  assert (Hpts : DecisionPointRegistry.clear b (_decision_points i) = (Ok tt, _decision_points i)).
  { destruct (_decision_points i) as [n cur] eqn:Ed. unfold DecisionPointRegistry.clear, modS. cbn. repeat f_equal.
    apply delete_id. destruct (cur !! b) eqn:Ec; [|done]. exfalso. apply Hb1, Hp. by eexists. }
  assert (Hids : (_branch_ids i ∪ list_to_set (map prepared_id (l ++ [p]))) ∖ {[b]} =
      _branch_ids i ∪ list_to_set (map prepared_id l)).
  { rewrite map_app, list_to_set_app_L. apply set_eq. intros x. cbn. fold b. set_solver. }
  assert (Hne : String.eqb b ROOT_BRANCH_ID = false) by (apply String.eqb_neq; congruence).
  unfold _rollback_prepared_branch. change (spec_branch_id p.1) with b.
  erewrite M_run_Ok by reflexivity. cbn [fst snd]. erewrite M_run_Ok; cycle 1.
  { unfold on_points. cbn [fst snd _decision_points published set_events set_books set_ids]. rewrite Hpts. reflexivity. }
  assert (Hev : forall j, _event_rng_registry j = E -> (match event_rng_plan p.2.2 with
       | Some plan => on_events (W := W) (release_branch (RunPool.hypothesis_key plan) b)
       | None => mret tt
       end) (j, h) = (Ok tt, (set_events E' j, h))).
  { intros j Hj. unfold commit_item_of in Hrel. destruct (event_rng_plan p.2.2) as [plan|]; cbn in Hrel.
    - apply M_bind_Ok in Hrel as ([] & E1 & Hr & H). injection H as ->. unfold on_events. cbn. rewrite Hj. fold b in Hr. by rewrite Hr.
    - injection Hrel as <-. rewrite <- Hj. by destruct j. }
  erewrite M_run_Ok by (apply Hev; reflexivity).
  unfold on_ids, BranchIdRegistry.rollback_registration. rewrite Hne. cbn [negb fst snd].
  f_equal. f_equal. apply republished; [exact Hbooks|reflexivity|exact Hids].
Qed.
Lemma rollback_published l : forall E E' i h,
  linked i -> new_ids (_branch_ids i) l -> release_each (rev (omap commit_item_of l)) E = (Ok tt, E') ->
  rollback_each (rev l) (published l E i, h) = (Ok tt, (set_events E' i, h)).
Proof.
  induction l as [|p l IH] using rev_ind; intros E E' i h Hl Hnew; cbn [omap].
  { cbn. intros [= <-]. unfold published. cbn. rewrite (right_id_L ∅ (∪)). by destruct i. }
  rewrite omap_app, !rev_app_distr. cbn [rev app]. intros Hrel.
  assert (Hsplit : exists E1, release_each (commit_option (commit_item_of p)) E = (Ok tt, E1) /\
      release_each (rev (omap commit_item_of l)) E1 = (Ok tt, E')).
  { cbn in Hrel. destruct (commit_item_of p) as [[[key state] b]|]; cbn in Hrel; [|by exists E].
    apply M_bind_Ok in Hrel as ([] & E1 & Hr & Hrest). exists E1. split; [cbn; by erewrite M_run_Ok by exact Hr|exact Hrest]. }
  destruct Hsplit as (E1 & H1 & H2). cbn [rollback_each].
  erewrite M_run_Ok by (by apply (rollback_one l E E1 i h p)). apply IH; [done| |done].
  destruct Hnew as [Hnd Hf]. rewrite map_app in Hnd. apply NoDup_app in Hnd as (Hnd & _). split; [done|].
  intros q Hq. apply Hf. set_solver.
Qed.

Lemma item_ids l : forall x, x ∈ map snd (omap commit_item_of l) -> x ∈ map prepared_id l.
Proof.
  intros x Hx. apply list_elem_of_fmap in Hx as ([k b] & -> & Hin). apply list_elem_of_omap in Hin as (p & Hp & Heq).
  apply list_elem_of_fmap. exists p. split; [|done]. unfold commit_item_of in Heq. destruct (event_rng_plan p.2.2); [|done].
  by injection Heq as _ <-.
Qed.
Lemma item_ids_nodup l : NoDup (map prepared_id l) -> NoDup (map snd (omap commit_item_of l)).
Proof.
  induction l as [|p l IH]; cbn; [done|]. intros [Hn Hnd]%NoDup_cons. specialize (IH Hnd).
  unfold commit_item_of at 1. destruct (event_rng_plan p.2.2); cbn; [|done]. apply NoDup_cons. split; [|done].
  intros Hin%item_ids. done.
Qed.

(** C6: committing a batch of prepared event branches is all or nothing: when it
    succeeds every branch of the batch is public, with an id that was new; when it
    fails at any branch - a used id, or an event state that no longer matches the
    live hypothesis - the instance is exactly what it was, generation counters of
    the event streams included. *)
Theorem event_batch_is_all_or_nothing prepared i h r st' :
  linked i -> registry_ok (_event_rng_registry i) ->
  commit_batch prepared (i, h) = (r, st') ->
  match r with
  | Ok _ => exists E, commit_all (omap commit_item_of prepared) (_event_rng_registry i) = (Ok tt, E) /\
      new_ids (_branch_ids i) prepared /\ st' = (published prepared E i, h)
  | Raise _ => st' = (i, h)
  end.
Proof.
  intros Hl Hok. unfold commit_batch. erewrite M_run_Ok by reflexivity. unfold whole_commit, tryM.
  assert (H0 : published [] (_event_rng_registry i) i = i)
    by (unfold published; cbn; rewrite (right_id_L ∅ (∪)); by destruct i).
  destruct (commit_each prepared _) as [r1 st1] eqn:Hrun.
  assert (Hrun' : commit_each prepared ((published [] (_event_rng_registry i) i, h), []) = (r1, st1)) by (by rewrite H0).
  apply commit_each_published in Hrun' as (more & E & Hall & Hnew & -> & Hr); [|apply Hl|done|split; [constructor|by intros p ?%elem_of_nil]].
  cbn [app] in *. destruct r1 as [[]|e]; [intros [= <- <-]; subst more; by exists E|].
  destruct (rollback_releases (omap commit_item_of more) (_event_rng_registry i) E Hok) as (E2 & Hrel & He & Hrf & Hg);
    [by apply item_ids_nodup, Hnew| |exact Hall|].
  { intros key state b Hin Hh. apply Hl in Hh.
    assert (Hb : b ∈ map prepared_id more) by (apply item_ids, list_elem_of_fmap; by exists (key, state, b)).
    apply list_elem_of_fmap in Hb as (p & -> & Hp). by apply (proj2 Hnew p Hp). }
  unfold undo_commit, finallyM. cbn [fst snd].
  unfold mbind, M_bind. rewrite (rollback_published more E E2 i h Hl Hnew Hrel).
  unfold on_events at 1. cbn [fst snd _event_rng_registry set_events].
  match goal with |- context [restore_generations ?snapshot E2] =>
    assert (Hres : restore_generations snapshot E2 = (Ok tt, _event_rng_registry i)) end.
  { apply restore_run; [done..|apply Hg|]. intros key Hk. apply Hg. intros Hin. apply Hk, elem_of_remove_dups.
    apply list_elem_of_fmap in Hin as (x & -> & Hx). apply list_elem_of_omap in Hx as (p & Hp & Heq).
    apply list_elem_of_omap. exists p. split; [by eapply elem_of_prefix|]. unfold commit_item_of in Heq.
    destruct (event_rng_plan p.2.2); [|done]. by injection Heq as <-. }
  rewrite Hres. cbn. intros [= <- <-]. f_equal. by destruct i.
Qed.
End Batch.

(** Two branches of one hypothesis whose event states differ: the second cannot
    be committed. *)
Definition empty_view : _View :=
  {| view_legal := []; boundary := VStr EVENT_CHOICE; observation := []; room_context := []; view_map_snapshot := Some "map"%string;
     view_room_id := VInt 1; view_action_prefix := []; view_choice_type := VStr EVENT_CHOICE; chain_blocked := false;
     event_rng_state := None |}.
Definition prepared_demo (b : string) (state : Z) : PreparedBranch :=
  ({| spec_parent_view := empty_view; spec_parent_branch_id := ROOT_BRANCH_ID; spec_branch_id := b; spec_rng_id := 1;
      spec_decision_point_id := Town.point "1"; spec_action_id := "5"; chosen_action_id := VInt 5 |},
   (event_item b RunPool.WORK_KIND_SUB_BRANCH (VInt 5) None,
    new_book ROOT_BRANCH_ID [] HistoryBuilder.init 1
      (Some {| RunPool.hypothesis_key := (ROOT_BRANCH_ID, Town.point "1", 1); RunPool.override_state := [("rng", VInt state)]%string;
               RunPool.apply_before_action_index := 0 |}) None)).
Lemma begun_linked : linked Town.begun_two.1.
Proof.
  constructor.
  - apply (bool_decide_unpack _). vm_compute. exact I.
  - intros b Hb. by apply elem_of_nil in Hb.
  - intros b [d Hd]. destruct (decide (b = ROOT_BRANCH_ID)) as [->|Hne]; [apply (bool_decide_unpack _); vm_compute; exact I|].
    exfalso. change (((<[ROOT_BRANCH_ID := Town.point "1"]> (∅ : gmap string string)) !! b) = Some d) in Hd.
    by rewrite lookup_insert_ne, lookup_empty in Hd.
  - intros key b Hh. unfold holds_branch in Hh. change (b ∈ default (∅ : gset string) ((∅ : gmap event_key (gset string)) !! key)) in Hh.
    rewrite lookup_empty in Hh. by apply not_elem_of_empty in Hh.
Qed.
Lemma begun_events : registry_ok (_event_rng_registry Town.begun_two.1).
Proof.
  change (registry_ok empty_registry).
  constructor; cbn; [by intros k refs; rewrite lookup_empty|intros k; rewrite lookup_empty; by intros []|
    by intros k g; rewrite lookup_empty].
Qed.
#[local] Notation batch_demo := [prepared_demo "b-1" 5; prepared_demo "b-2" 6].
#[local] Notation town := (Town.begun_two.1, Town.begun_two.2).
Definition mismatch : pyexn := PyExc "RuntimeError" "prepared Event RNG state no longer matches live hypothesis".
Lemma event_batch_is_all_or_nothing_witness : commit_batch batch_demo town = (Raise mismatch, Town.begun_two).
Proof.
  assert (Hr : (commit_batch batch_demo town).1 = Raise mismatch) by (vm_compute; reflexivity).
  destruct (commit_batch batch_demo town) as [r st'] eqn:Hc. cbn in Hr. subst r. f_equal.
  pose proof (event_batch_is_all_or_nothing batch_demo Town.begun_two.1 Town.begun_two.2
    (Raise mismatch) st' begun_linked begun_events Hc) as H.
  cbn beta match in H. by rewrite H.
Defined.
