(* ===== verification/WholeRunHandover.v ===== *)
(** The hand-over of the game between the run and a combat phase
    (API/instance_whole_run.py): one that fails leaves the run on its side or
    poisons it for good, and what a combat branch left cancelled does to the run
    after the fight. *)

From S2P Require Export WholeRunLaws.

(** * The side a run is on *)

(** Phase, branches and fault mark are as they were. *)
Definition aside {G} (i i' : WholeRunInstance G) : Prop :=
  _combat_phase i' = _combat_phase i /\ _bookkeeping i' = _bookkeeping i /\ _faulted i' = _faulted i /\
  _combat_branch_reservations i' = _combat_branch_reservations i.
#[export] Instance aside_indifferent {G} : Indifferent (aside (G := G)).
Proof.
  split; [split|..].
  2: intros a b c (? & ? & ? & ?) (? & ? & ? & ?); split_and!; congruence.
  1: intros i; by split_and!.
  all: intros; unfold aside; by split_and!.
Qed.
#[export] Instance aside_pre {G} : PreOrder (aside (G := G)) := indifferent_pre.

(** The fault mark is as it was. *)
Definition same_mark {G} (i i' : WholeRunInstance G) : Prop := _faulted i' = _faulted i.
#[export] Instance same_mark_retirable {G} : Retirable (same_mark (G := G)).
Proof.
  split; [split; [split|..]|..].
  2: intros a b c H1 H2; red in H1, H2 |- *; congruence.
  1: intros i; reflexivity.
  all: intros; reflexivity.
Qed.
#[export] Instance same_mark_pre {G} : PreOrder (same_mark (G := G)) := indifferent_pre.

(** A combat branch that the client cancelled and did not release. *)
Definition cancelled {G} (b : string) (i : WholeRunInstance G) : Prop :=
  exists book internal, dget b (_bookkeeping i) = Some book /\ internal_id book = Some internal /\ book_status book = STATUS_CANCELLED.
Definition stays_cancelled {G} (b : string) (i i' : WholeRunInstance G) : Prop := cancelled b i -> cancelled b i'.
Lemma dget_retire b books : dget b (map retire books) = (fun book => (retire (b, book)).2) <$> dget b books.
Proof.
  induction books as [|[k book] books IH]; [done|]. cbn. destruct (String.eqb_spec b k) as [->|]; [done|exact IH].
Qed.
#[export] Instance stays_cancelled_transferable {G} b : Transferable (stays_cancelled (G := G) b).
Proof.
  split; [split; [split; [split|..]|..]|]; unfold stays_cancelled.
  1: intros i H; exact H.
  1: intros a c d H1 H2 H; auto.

  all: try (intros; assumption).
  intros i (book & internal & Hb & Hi & Hs). exists (retire (b, book)).2, internal.
  change (_bookkeeping (retire_all i)) with (map retire (_bookkeeping i)). rewrite dget_retire, Hb.
  split_and!; [reflexivity|unfold retire; cbn [fst snd]; by rewrite Hs..].
Qed.
#[export] Instance stays_cancelled_pre {G} b : PreOrder (stays_cancelled (G := G) b) := indifferent_pre.

Section HandOver.
Context (json_loads : string -> Res pyval).
Context {CE : ClrErrors} {G W : Type} (game_factory : Res G) {HC : ClrGame G} {HR : RunSession G} {PH : PhaseHost W}.
Implicit Types (st : @St G W).

(** A command that returns has returned at each step. *)
Lemma mutable_ok st u st' : _ensure_mutable st = (Ok u, st') -> st' = st /\ _faulted st.1 = false.
Proof. unfold _ensure_mutable, self, mbind, M_bind. cbn. destruct (_faulted st.1) eqn:E; [discriminate|]. by intros [= _ <-]. Qed.
Lemma tried_again {A} (c : M (@St G W) A) (clean : pyexn -> M (@St G W) unit) st a st' :
  tryM c (fun e => _ ← clean e; raiseM e) st = (Ok a, st') -> c st = (Ok a, st').
Proof.
  unfold tryM. destruct (c st) as [[x|e] st1]; [done|]. intros H.
  apply M_bind_Ok in H as (u & st2 & _ & H). discriminate H.
Qed.

Lemma respected {A} (R : relation (WholeRunInstance G)) (c : M (@St G W) A) st r st' :
  respects (S := @St G W) R fst c -> c st = (r, st') -> R st.1 st'.1.
Proof. intros Hc E. specialize (Hc st). by rewrite E in Hc. Qed.

(** What is left where a run has gone back to itself. *)
Lemma leave_returns completion st u st1 :
  leave_combat_phase json_loads game_factory completion st = (Ok u, st1) ->
  _faulted st1.1 = false /\ _combat_phase st1.1 = None.
Proof.
  unfold leave_combat_phase. intros H. apply M_bind_Ok in H as (u0 & st0 & H0 & H). apply mutable_ok in H0 as [-> Hf].
  apply M_bind_Ok in H as (i & st0 & [= <- <-] & H). destruct (negb _); [discriminate H|].
  apply M_bind_Ok in H as (transfer & st2 & Ht & H). apply tried_again in H.
  assert (Hf2 : _faulted st2.1 = false).
  { rewrite <- Hf. eapply (respected same_mark); [|exact Ht]. apply respects_phase; [exact _|]. intros. reflexivity. }
  apply M_bind_Ok in H as (u1 & st3 & H3 & H). apply M_bind_Ok in H as (u2 & st4 & H4 & H).
  apply M_bind_Ok in H as (u3 & st5 & H5 & H). apply M_bind_Ok in H as (u4 & st6 & [= <- <-] & H).
  assert (Hf5 : _faulted st5.1 = false).
  { rewrite <- Hf2. injection H3 as _ <-. change (same_mark (set_completion completion st2.1) st5.1). transitivity st4.1.
    - eapply respected in H4; [exact H4|]. frame.
    - eapply respected; [|exact H5]. apply respects_phase; [exact _|intros; reflexivity]. }
  enough (Ha : aside (set_phase None st5.1) st1.1) by (destruct Ha as (-> & _ & -> & _); by split).
  apply (respected aside) in H; [exact H|]. unfold set_prefix. frame.
Qed.
Lemma step_outside v chosen st st1 : step_run json_loads game_factory v chosen st = (Ok false, st1) -> aside st.1 st1.1.
Proof.
  unfold step_run. destruct (veq_str (boundary v) MAP_SELECT); [|apply respected; unfold set_prefix; frame].
  intros H. apply M_bind_Ok in H as (room & st2 & H2 & H). apply liftR_Ok in H2 as [_ ->].
  apply M_bind_Ok in H as (u & st3 & H3 & H). apply M_bind_Ok in H as (u1 & st4 & H4 & H).
  apply M_bind_Ok in H as (context & st5 & H5 & H).
  assert (Ha : aside st.1 st5.1).
  { assert (A1 : aside st.1 st3.1) by (eapply respected; [|exact H3]; frame).
    assert (A2 : aside st4.1 st5.1) by (eapply respected; [|exact H5]; frame).
    injection H4 as _ <-. etransitivity; [exact A1|]. etransitivity; [|exact A2]. by split_and!. }
  destruct (veq_str (dget_none "room_type" context) "CombatRoom").
  - apply M_bind_Ok in H as (u2 & st6 & _ & H). apply M_bind_Ok in H as (u3 & st7 & _ & H). discriminate H.
  - etransitivity; [exact Ha|]. eapply respected; [|exact H]. unfold set_prefix. frame.
Qed.
Lemma release_outlived b st :
  cancelled b st.1 -> _combat_phase st.1 = None -> _cancel_and_release_all_branches st = (Raise outlived, st).
Proof.
  intros (book & internal & Hb & Hi & Hs) Hp. unfold _cancel_and_release_all_branches. erewrite M_run_Ok by reflexivity.
  destruct (phase_internal_ids st.1) as [|id ids] eqn:E.
  - exfalso. revert Hb E. unfold phase_internal_ids. induction (_bookkeeping st.1) as [|[k v] books IH]; [discriminate|].
    cbn. destruct (String.eqb_spec b k); [intros [= ->]; rewrite Hs, Hi; discriminate|]. intros Hb.
    destruct (if String.eqb _ _ then _ else _); [discriminate|]. by apply IH.
  - unfold has_phase. rewrite Hp. reflexivity.
Qed.
End HandOver.

Section Cancelled.
Context (json_loads : string -> Res pyval).
Context {CE : ClrErrors} {G W : Type} (game_factory : Res G) {HC : ClrGame G} {HR : RunSession G} {PH : PhaseHost W}.

(** C8: a combat branch that its client cancels but does not release before the
    fight ends is neither released nor forgotten when the run leaves the fight;
    the next commit outside the fight then plays its step on the game and raises
    instead of answering, without a new decision. *)
Theorem cancelled_combat_branch_breaks_next_commit completion b (st st1 st2 st3 : @St G W) dp a v chosen :
  cancelled b st.1 ->
  leave_combat_phase json_loads game_factory completion st = (Ok tt, st1) ->
  DecisionPointRegistry.validate ROOT_BRANCH_ID dp (_decision_points st1.1) = Ok tt ->
  _root_view game_factory st1 = (Ok v, st2) -> veq_str (boundary v) RUN_TERMINAL = false ->
  resolve_in_run a v = Ok chosen -> step_run json_loads game_factory v chosen st2 = (Ok false, st3) ->
  cancelled b st1.1 /\
  commit_action json_loads game_factory dp a st1 = (Raise outlived, (append_log dp a st3.1, st3.2)).
Proof.
  intros Hc Hleave Hdp Hview Ht Hres Hstep.
  pose proof (leave_returns json_loads game_factory completion st tt st1 Hleave) as [Hf Hp].
  assert (Hc1 : cancelled b st1.1) by (revert Hc; eapply (respected (stays_cancelled b)); [|exact Hleave]; frame).
  assert (Hc2 : cancelled b st2.1) by (revert Hc1; eapply (respected (stays_cancelled b)); [|exact Hview]; frame).
  assert (Hc3 : cancelled b st3.1) by (revert Hc2; eapply (respected (stays_cancelled b)); [|exact Hstep]; frame).
  pose proof (respects_root_view game_factory aside st1) as Ha. rewrite Hview in Ha. cbn in Ha.
  pose proof (step_outside json_loads game_factory v chosen st2 st3 Hstep) as Hb.
  assert (Hp2 : _combat_phase st2.1 = None) by (destruct Ha as [-> _]; exact Hp).
  assert (Hp3 : _combat_phase st3.1 = None) by (destruct Hb as [-> _]; exact Hp2).
  split; [exact Hc1|]. unfold commit_action.
  erewrite M_run_Ok by (unfold _ensure_mutable; erewrite M_run_Ok by reflexivity; rewrite Hf; reflexivity).
  erewrite M_run_Ok by reflexivity. cbv beta. erewrite M_run_Ok by (apply liftR_Ok; by split).
  erewrite M_run_Ok by exact Hview. rewrite Ht. erewrite M_run_Ok by (apply liftR_Ok; by split).
  erewrite M_run_Ok by reflexivity. cbv beta. unfold has_phase. rewrite Hp2. cbn [is_some].
  erewrite M_run_Ok by (unfold tryM; erewrite M_run_Ok by exact Hstep; reflexivity).
  cbn [negb]. unfold _record_root_commit. erewrite M_run_Ok by reflexivity.
  erewrite M_run_Raise; [reflexivity|]. by apply (release_outlived b (append_log dp a st3.1, st3.2)).
Qed.
End Cancelled.

(** * A hand-over that fails *)

(** The run is closed to everything that changes it, for good. *)
Definition poisoned {G W} (st : @St G W) : Prop :=
  _faulted st.1 = true /\ _combat_phase st.1 = None /\ handle_lease (_run st.1) = None /\ _state (board_access st.2.1) = POISONED.

Section Poison.
Context (json_loads : string -> Res pyval).
Context {CE : ClrErrors} {G W : Type} (game_factory : Res G) {HC : ClrGame G} {HR : RunSession G} {PH : PhaseHost W}.
Implicit Types (st : @St G W).

Lemma close_stays_poisoned (h : @Held G) : _state (board_access h.2) = POISONED -> _state (board_access (close_session h).2.2) = POISONED.
Proof.
  intros Hp. unfold close_session. erewrite M_run_Ok by reflexivity. erewrite M_run_Ok by reflexivity. cbn [fst snd].
  destruct (handle_lease h.1) as [l|]; [|exact Hp]. unfold tryM, leased, shared, on_access, release. cbn [fst snd].
  erewrite M_run_Ok by reflexivity. unfold _validate_current at 1. rewrite Hp. erewrite M_run_Raise by reflexivity. cbn.
  exact Hp.
Qed.
Notation closing := (@phase_close (@LiveSt G) W (CombatOfProcess json_loads game_factory) (HostOfProcess json_loads game_factory)).
Lemma detached_stays_poisoned p st :
  _state (board_access st.2.1) = POISONED -> _state (board_access (on_detached (W := W) p closing st).2.2.1) = POISONED.
Proof.
  intros Hp. unfold on_detached, run_phase, no_world, phase_close, finallyM, with_branches, modS. cbn.
  destruct (BranchManager.close_all _) as [r1 m]. cbn. unfold with_live. cbn.
  pose proof (close_stays_poisoned (live_handle (CombatPhase._session p).1, st.2.1) Hp) as H.
  unfold session_close, HostOfProcess, live_close, with_held. cbn.
  destruct (close_session _) as [[u|e] [h b]]; exact H.
Qed.

Lemma swallow_returns (c : M (@St G W) unit) st : exists st', swallow c st = (Ok tt, st').
Proof. unfold swallow, tryM. destruct (c st) as [[[]|e] st']; by eexists. Qed.
(** Poisoning a run always goes through. *)
Lemma poison_poisons ref st : exists st',
  _poison_combat_transaction json_loads game_factory ref st = (Ok tt, st') /\ poisoned st'.
Proof.
  unfold _poison_combat_transaction. erewrite M_run_Ok by reflexivity. cbv beta. erewrite M_run_Ok by reflexivity. cbv beta.
  set (st0 := (mark_run_faulted st.1, st.2)).
  assert (H1 : exists st1, (if has_phase st0.1 then swallow _cancel_and_release_all_branches else mret tt) st0 = (Ok tt, st1) /\
      _faulted st1.1 = true).
  { destruct (has_phase st0.1); [|by exists st0].
    destruct (swallow_returns (_cancel_and_release_all_branches (W := W)) st0) as [st1 E]. exists st1. split; [exact E|].
    eapply (respected same_mark) in E; [exact E|]. unfold swallow. frame. }
  destruct H1 as (st1 & E1 & Hf). erewrite M_run_Ok by exact E1. erewrite M_run_Ok by reflexivity. cbv beta zeta.
  generalize (match ref with Active => match _combat_phase st1.1 with Some p => Detached p | None => NoPhase end | p => p end).
  intros ref'. erewrite M_run_Ok by reflexivity.
  erewrite M_run_Ok; [|unfold session, poison_mutations, with_lease, modS, leased, shared, on_access, poison; reflexivity].
  cbv beta. cbn [fst snd]. match goal with |- context [mbind _ _ ?s] => set (st2 := s) end.
  assert (H2 : poisoned st2) by (by split_and!).
  assert (H3 : exists st3, (match ref' with Detached p => swallow (on_detached p closing) | _ => mret tt end) st2 = (Ok tt, st3) /\ poisoned st3).
  { destruct ref' as [| |p]; [by exists st2..|]. unfold swallow, tryM.
    pose proof (detached_stays_poisoned p st2 (proj2 (proj2 (proj2 H2)))) as Hb.
    assert (Hi : (on_detached p closing st2).2.1 = st2.1) by (unfold on_detached; by destruct (run_phase _ _ _) as [r [p' h]]).
    destruct (on_detached p closing st2) as [[[]|e] st3]; cbn in Hb, Hi; exists st3; (split; [done|]);
      destruct H2 as (? & ? & ? & _); unfold poisoned; by rewrite Hi. }
  destruct H3 as (st3 & E3 & H3). erewrite M_run_Ok by exact E3. eexists. split; [reflexivity|]. exact H3.
Qed.

(** Commands that, when they raise, have left the instance aside. *)
Definition backs_off {S A} (inst : S -> WholeRunInstance G) (c : M S A) : Prop :=
  forall s e s', c s = (Raise e, s') -> aside (inst s) (inst s').
Lemma backs_off_bind {S A B} inst (c : M S A) (k : A -> M S B) :
  respects aside inst c -> (forall a, backs_off inst (k a)) -> backs_off inst (c ≫= k).
Proof.
  intros Hc Hk s e s' [H|(a & s1 & H1 & H)]%M_bind_Raise; specialize (Hc s).
  - by rewrite H in Hc.
  - rewrite H1 in Hc. etransitivity; [exact Hc|]. by eapply Hk.
Qed.
Lemma aside_outer {A} (c : M (@St G W) A) : respects (S := @St G W) aside fst c -> respects aside (fun l : @EnterSt G W => l.1.1) (outer c).
Proof. exact (respects_outer aside fst c). Qed.
Lemma aside_adopt live root : respects (S := @St G W) aside fst (adopt_phase json_loads game_factory live root).
Proof.
  unfold adopt_phase. frame. intros [i h]. unfold adopt_here. cbn. destruct (adopt _ _ _ _ _ _ _ _) as [r w]. reflexivity.
Qed.
Lemma enter_backs_off t : backs_off (fun l : @EnterSt G W => l.1.1) (enter_body json_loads game_factory t).
Proof.
  unfold enter_body. do 8 (apply backs_off_bind; [first [by apply respects_mod|apply aside_outer, aside_adopt|apply aside_outer; frame]|intros ?]).
  intros l e l' H. discriminate H.
Qed.

(** C7: a hand-over of the game between the run and a combat phase that fails,
    in either direction and at whatever step, leaves the run on the side it was -
    in the fight if and only if it was there, its branches untouched and not
    marked as failed - or it poisons the run: marked as failed, without a phase
    or a lease, and with the game's access refused from then on. *)
Theorem failed_hand_over_backs_off_or_poisons completion (c : M (@St G W) unit) st e st' :
  c = enter_combat_phase json_loads game_factory \/ c = leave_combat_phase json_loads game_factory completion ->
  _faulted st.1 = false -> c st = (Raise e, st') ->
  (has_phase st'.1 = has_phase st.1 /\ _faulted st'.1 = false /\ _bookkeeping st'.1 = _bookkeeping st.1) \/ poisoned st'.
Proof.
  intros Hc Hf H.
  assert (Hm : _ensure_mutable st = (Ok tt, st))
    by (unfold _ensure_mutable; erewrite M_run_Ok by reflexivity; by rewrite Hf).
  destruct Hc as [-> | ->].
  - assert (Hb : forall st1, aside st.1 st1.1 -> has_phase st1.1 = has_phase st.1 /\ _faulted st1.1 = false /\
        _bookkeeping st1.1 = _bookkeeping st.1) by (intros st1 (E & ? & ? & _); unfold has_phase; rewrite E; split_and!; congruence).
    unfold enter_combat_phase in H. erewrite M_run_Ok in H by exact Hm. erewrite M_run_Ok in H by reflexivity. cbv beta in H.
    destruct (has_phase st.1) eqn:Hp; [injection H as _ <-; left; by apply Hb|].
    apply M_bind_Raise in H as [H|(t & st1 & H1 & H)]; [left; apply Hb; eapply respected; [|exact H]; frame|].
    eapply (respected aside) in H1; [|frame]. erewrite M_run_Ok in H by reflexivity. cbv beta zeta in H.
    unfold entering, tryM in H. destruct (enter_body _ _ _ (st1, (None, false))) as [[[]|e1] l1] eqn:Eb; [discriminate H|].
    apply enter_backs_off in Eb. cbn in Eb. assert (Ha : aside st.1 l1.1.1) by (etransitivity; eassumption).
    unfold enter_failed in H. erewrite M_run_Ok in H by reflexivity. cbv beta zeta in H. destruct l1.2.2 eqn:Hcm.
    + right. destruct (poison_poisons (match l1.2.1 with Some p => Detached p | None => NoPhase end) l1.1) as (st2 & E2 & Hpo).
      erewrite M_run_Ok in H; [|unfold outer; rewrite E2; reflexivity]. injection H as _ <-. exact Hpo.
    + left. apply Hb. etransitivity; [exact Ha|]. revert H. set (k := mbind _ _).
      assert (Hk : respects aside (fun l : @EnterSt G W => l.1.1) k).
      { subst k. apply respects_bind; [exact _| |intros ?; frame]. apply aside_outer. frame. }
      specialize (Hk l1). destruct (k l1) as [r l2]. intros [= _ <-]. exact Hk.
  - unfold leave_combat_phase in H. erewrite M_run_Ok in H by exact Hm. erewrite M_run_Ok in H by reflexivity. cbv beta in H.
    destruct (has_phase st.1) eqn:Hp; cbn [negb] in H; [|injection H as _ <-; left; by split_and!].
    apply M_bind_Raise in H as [H|(t & st1 & H1 & H)].
    + left. unfold on_phase, on_phase_world in H. unfold has_phase in Hp. destruct (_combat_phase st.1); [|discriminate Hp].
      destruct (run_phase _ _ _) as [r [p' h]]. injection H as _ <-. by split_and!.
    + right. unfold tryM in H. match type of H with (let (_, _) := ?body in _) = _ => destruct body as [[[]|e1] st2] end; [discriminate H|].
      erewrite M_run_Ok in H by reflexivity. cbv beta in H.
      destruct (poison_poisons (if has_phase st2.1 then Active else NoPhase) st2) as (st3 & E3 & Hpo).
      erewrite M_run_Ok in H by exact E3. injection H as _ <-. exact Hpo.
Qed.
End Poison.

(** * The fight in town *)

Import Town.

Definition fight_over : CombatCompletion :=
  {| live_observation_state := []; live_observation_is_terminal := true; live_observation_outcome := "victory";
     transition_kind := "combat_completed" |}.
(** After the client's branch was tried and cancelled; after the fight; the
    next view, and the step on the game. *)
Definition cancelled_town : @St Z unit := Eval vm_compute in town_served cancelling in_fight.
Definition left_town : @St Z unit := Eval vm_compute in (leave_combat_phase loads (Ok 0) fight_over cancelled_town).2.
Definition town_view : _View := Eval vm_compute in
  from_ok (_root_view (Ok 0) left_town).1
    {| view_legal := []; boundary := VNone; observation := []; room_context := []; view_map_snapshot := None; view_room_id := VNone;
       view_action_prefix := []; view_choice_type := VNone; chain_blocked := false; event_rng_state := None |}.
Definition viewed_town : @St Z unit := Eval vm_compute in (_root_view (Ok 0) left_town).2.
Definition stepped_town : @St Z unit := Eval vm_compute in (step_run loads (Ok 0) town_view option_5 viewed_town).2.

Lemma cancelled_town_served : town_served (to_fight ++ cancelling) begun_two = cancelled_town.
Proof. vm_compute. reflexivity. Qed.
Lemma left_town_run : leave_combat_phase loads (Ok 0) fight_over cancelled_town = (Ok tt, left_town).
Proof. vm_compute. reflexivity. Qed.
Lemma viewed_town_run : _root_view (Ok 0) left_town = (Ok town_view, viewed_town).
Proof. vm_compute. reflexivity. Qed.
Lemma stepped_town_run : step_run loads (Ok 0) town_view option_5 viewed_town = (Ok false, stepped_town).
Proof. vm_compute. reflexivity. Qed.
Lemma branch_cancelled : cancelled "b-1" cancelled_town.1.
Proof. do 2 eexists. split_and!; vm_compute; reflexivity. Qed.

Lemma cancelled_combat_branch_breaks_next_commit_witness :
  town_served (to_fight ++ cancelling) begun_two = cancelled_town /\
  commit_action loads (Ok 0) (point "2") "5" left_town
  = (Raise outlived, (append_log (point "2") "5" stepped_town.1, stepped_town.2)).
Proof.
  split; [exact cancelled_town_served|].
  apply (cancelled_combat_branch_breaks_next_commit loads (Ok 0) fight_over "b-1" cancelled_town left_town viewed_town stepped_town
    (point "2") "5" town_view option_5 branch_cancelled left_town_run).
  - vm_compute. reflexivity.
  - exact viewed_town_run.
  - vm_compute. reflexivity.
  - vm_compute. reflexivity.
  - exact stepped_town_run.
Defined.

(** Where no snapshot can be read, a fight cannot be adopted. *)
Definition unreadable (s : string) : Res pyval := Raise (value_error s).
Definition refused_entry : @St Z unit := Eval vm_compute in (enter_combat_phase unreadable (Ok 0) begun_two).2.
Definition entry_error : pyexn := Eval vm_compute in
  match (enter_combat_phase unreadable (Ok 0) begun_two).1 with Ok _ => outlived | Raise e => e end.
Lemma refused_entry_run : enter_combat_phase unreadable (Ok 0) begun_two = (Raise entry_error, refused_entry).
Proof. vm_compute. reflexivity. Qed.
Lemma failed_hand_over_backs_off_or_poisons_witness :
  (has_phase refused_entry.1 = false /\ _faulted refused_entry.1 = false /\ _bookkeeping refused_entry.1 = []) \/ poisoned refused_entry.
Proof.
  apply (failed_hand_over_backs_off_or_poisons unreadable (Ok 0) fight_over _ begun_two entry_error refused_entry (or_introl eq_refl)).
  - reflexivity.
  - exact refused_entry_run.
Defined.
